(* ===== verification/_CoqProject ===== *)
-Q . S2P
Prelude.v
CString.v
Kalloc.v
Layout.v
Ide.v
Bio.v
Cache.v
Journal.v
Recover.v
Crash.v
Reboot.v
Txn.v
Commit.v
History.v
Spinlock.v
Pipe.v
Fs.v
FsNames.v
FsInode.v
FsRead.v
FsPath.v
FsWrite.v
FsCrash.v
FsAlloc.v
FsGrow.v
FsAppend.v
FsCreate.v
File.v
FileRefs.v
Mmu.v
Proc.v
Sched.v
Syscall.v
Sysproc.v
ProcTable.v
ProcInv.v
Main.v
Exec.v
Sysfile.v
SysCrash.v
SysCreate.v
Console.v
Kbd.v
Trap.v
Mp.v
Irq.v
Asm.v
Perl.v
Gensyss.v
Systable.v
SysPath.v
Start.v
Boot.v
Grep.v
Ulib.v
Printf.v
Debug.v
Sh.v
ShProps.v
ShPrint.v
ShRun.v
UserProgs.v
UserThreads.v
Umalloc.v
UmallocProps.v
Mkfs.v
MkfsBlocks.v
MkfsProps.v
MkfsKernel.v
