(* ===== verification/Prelude.v ===== *)
(** * A verification development of the xv6 kernel of this repository

    The program (src/xv6) is the teaching kernel xv6 for one or more x86
    processors, extended with a physical block journal, a lottery scheduler,
    threads with condition variables and a console history; with it come the
    boot loader, the builder of file system images and the user programs.
    This library is a shallow embedding of it: a C routine is a function on
    explicit state, with the source's name and its order of effects.

    ** How the code is modelled

    Words are integers with their wrap-around written out ([u32], [s32],
    [u8]).  Stateful routines are in the monad [M] of this file, whose
    outcomes ([res]) are a value, a panic, undefined behaviour (a wild
    pointer), a sleep (the routine gives up the processor) and a spin (a lock
    that no one can release).  [wp] is total correctness, [wlp] covers the
    runs that return.  Structures are records, arrays are lists or functions,
    linked structures whose links matter are heaps of cells.  A lock is part
    of the state where a theorem is about it, and otherwise the routine is a
    step that holds it.

    ** Files, in the order of the system's layers

    - Memory and data: [CString] (string.c), [Kalloc] (kalloc.c), [Layout]
      (the disk structures of fs.h and pbj.h), [Mmu] (mmu.h).
    - The disk: [Ide] (ide.c, buf.h; class [Disk] is what the driver promises
      the layers above), [Bio] (bio.c, pbj.h: buffer cache and journal), with
      the theorems in [Cache] (the cache), [Journal] (commit and checkpoint),
      [Recover] (pbjFSck), [Crash] (atomicity), [Reboot] (the kernel after
      recovery), [Txn] (writing blocks in a transaction), [Commit] (the
      kernel after a commit) and [History] (transactions, crashes and boots
      in any order).
    - Locks: [Spinlock] (spinlock.c on one processor and as a race of many).
    - Files: [Pipe] (pipe.c), [Fs] (fs.c), with the theorems in [FsNames]
      (path strings), [FsInode] (inode cache and disk inodes), [FsRead] (bmap,
      readi, dirlookup), [FsPath] (namei), [FsWrite] and [FsCrash] (writei
      over existing blocks, and across a crash), [FsAlloc] (balloc, bfree),
      [FsGrow] and [FsAppend] (writei that extends a file, and across a
      crash), [FsCreate] (icreate, nameiparent, dirlink); [File] (file.c),
      [FileRefs] (reference counts).
    - Processes: [Proc] (proc.c, rand.S), [Sched] (lottery, segments),
      [ProcTable] and [ProcInv] (the abstract table, refinement, invariant),
      [Syscall], [Sysproc], [Sysfile], [Exec] (syscall.c, sysproc.c,
      sysfile.c, exec.c), [SysCrash] (write and fsync across a crash),
      [SysCreate] (create across a crash).
    - Devices and traps: [Console] (console.c), [Kbd] (kbd.c), [Trap]
      (trap.c), [Mp] (mp.c), [Irq] (picirq.c, ioapic.c, lapic.c, timer.c),
      [Debug] (panic, procdump, the printer).
    - Assembly: [Asm] (swtch.S, trapasm.S, vectors.pl, initcode.S,
      bootother.S on a small x86), [SysPath] (a system call from the stub to
      the kernel and back).
    - Start: [Boot] (bootmain.c, sign.pl), [Main] (the kernel's data after
      main.c), [Start] (main on every processor).
    - Build: [Perl] (regular expressions), [Gensyss] (gensyss.pl on
      user.h.in), [Systable] (the kernel's system call table); mkfs.c in
      [Mkfs], [MkfsBlocks], [MkfsProps] and [MkfsKernel] (the kernel on the
      image).
    - User side: [Printf] (printf.c, parts of ulib.c), [Ulib] (ulib.c),
      [Grep] (grep.c), [Sh], [ShProps], [ShPrint], [ShRun] (sh.c: parser, its
      theorems, running of commands; init.c), [Umalloc], [UmallocProps]
      (umalloc.c), [UserProgs] (wc.c, cat.c, echo.c, ls.c and others),
      [UserThreads] (userthreads.c).

    The interfaces: [Disk] of Ide between the journal and the disk;
    [open_txn] and [calm] (Txn, Cache) is the state the file system relies on
    between two blocks it writes, [commits] (Commit) what a commit gives back;
    [shows] (FsPath) relates a kernel between transactions to a disk image,
    and [stands_for] (Commit) a disk that a crash left to the contents that
    recovery makes of it.

    ** What the theorems show

    - Crashes: a committed and flushed transaction is atomic for a crash at
      any disk write, recovery replays the journal and may itself be
      interrupted (Crash), over any number of boots exactly the committed
      transactions remain (History); write and fsync over the blocks of a
      file are atomic from the system call down (SysCrash), and so is each
      of any number of writes that extend a file, though they are several
      transactions (FsAppend); a file that is created is in its directory
      with a complete inode or not at all (SysCreate).
    - Cache and disk: bread and the exclusion of held buffers (Cache); the
      request queue refines one request after the other (Ide).
    - Files: readi against the contents of files (FsRead), namei against the
      directories on disk (FsPath), balloc against the bitmap (FsAlloc),
      reference counts (FileRefs), the bytes of a pipe as a stream (Pipe).
    - Images: every file of an image made by mkfs is found and read back by
      the kernel's own routines, and superblock, journal and bitmap are right
      (MkfsKernel).
    - Processes: the process table refines an abstract table and keeps its
      invariant, and exit wakes the parent (ProcInv); the lottery is fair and
      a process reaches only its memory (Sched); system call arguments are
      in bounds (Syscall); exec's stack (Exec); mutual exclusion (Spinlock).
    - Traps: a trap and the return from it give the program its registers
      back, a process that calls swtch continues there (Asm); a system call
      is a function call of the program (SysPath), by a number that the
      generated files agree on (Gensyss).
    - Start: the boot loader loads the kernel (Boot), main leaves every
      component in its invariant (Main), every processor reaches the
      scheduler and the first process runs (Start), interrupts are routed to
      the vectors that handle them (Irq).
    - Devices: the console as a line editor and the screen's bounds
      (Console), typing (Kbd), the clock (Trap), processor discovery (Mp).
    - User side: the shell parses every line or rejects it (ShProps), gives
      every tree back (ShPrint) and wires up the processes of every line
      (ShRun); grep's matcher decides its language (Grep); malloc's areas are
      disjoint (UmallocProps); numbers printed are numbers read (Printf); wc
      counts (UserProgs); mutexes exclude (UserThreads).

    Lemmas at the end of several files exhibit defects by running the model
    on a concrete state, for instance [Crash.second_commit_dropped],
    [FsAppend.indirect_growth_sleeps], [FsAlloc.balloc_past_end],
    [SysCreate.mkdir_sleeps], [Grep.grep_stale_bytes], [Mp.too_many_processors] and
    [UmallocProps.huge_request_wraps].

    ** Bounds and fuel

    Loops that are not structural take fuel computed from their input: four
    calls per character for the shell's parser ([Sh.parse_fuel]; the theorems
    show a result is always reached), 32 digits for a 32-bit number, the
    number of bitmap blocks for balloc, the blocks of the range for readi and
    writei, the length of a list for list walks.  The theorems that claim a
    result prove that the fuel suffices.  The endless loops of the shell and
    init ([ShRun.sh_loop], [ShRun.init_loop]) take the number of rounds.
    Sizes (NPROC, NBUF, NOFILE, MAXARGS, NINDIRECT and the like) are the
    source's; the crash theorems hold for every number of buffers that
    exceeds the journal, and for journals of every size below 2^26 blocks
    (those on extending a file, of at least sixteen).

    ** Not modelled

    - Interleavings between arbitrary instructions of two processors.  A
      sleep is an outcome of the routine, and interleavings are modelled
      where a theorem needs them (locks, pipes, console, process table, user
      threads); a disk request of the buffer cache is one step (see
      [Ide.ide_fifo]).
    - The theorem on extending files is for direct blocks; behind them the
      code, which is modelled, waits for itself when a write needs two new
      blocks (see [FsAppend.indirect_growth_sleeps]).
    - The theorem on create is for files and devices whose directory has an
      unused entry; for a directory create, which is modelled, waits for
      itself (see [SysCreate.mkdir_sleeps]).
    - kmalloc is used by the code but not in the repository; what it leaves
      in memory is a parameter of recovery.
    - Routines that only initialise a lock (iinit, fileinit, pinit), and the
      texts printed for debugging.
    - defs.h, types.h, param.h and x86.h: declarations; the constants and
      instructions the models use are definitions of the files that use them.
    - usertests.c, mytests.c and forktest.c: tests of the system. *)

From stdpp Require Export base tactics numbers list gmap strings.
From Stdlib Require Export ZArith Lia.

#[global] Open Scope Z_scope.

Declare Scope kern_scope.
Delimit Scope kern_scope with K.

(** ** Machine integers

    [uint] is an unsigned 32-bit integer, [int] a signed one, [uchar] a byte.
    A value is a [Z]; arithmetic wraps where the source computes at a width. *)

Definition u32_mod : Z := 4294967296.
Definition u32 (z : Z) : Z := z mod u32_mod.
Definition s32 (z : Z) : Z := (z + 2147483648) mod u32_mod - 2147483648.
Definition u16 (z : Z) : Z := z mod 65536.
Definition s16 (z : Z) : Z := (z + 32768) mod 65536 - 32768.
Definition u8 (z : Z) : Z := z mod 256.

Lemma u32_range z : 0 <= u32 z < u32_mod.
Proof. apply Z.mod_pos_bound. done. Qed.

Lemma u32_small z : 0 <= z < u32_mod -> u32 z = z.
Proof. apply Z.mod_small. Qed.

Lemma u32_idemp z : u32 (u32 z) = u32 z.
Proof. apply Z.mod_mod. done. Qed.

Lemma s32_range z : -2147483648 <= s32 z < 2147483648.
Proof. unfold s32. pose proof (Z.mod_pos_bound (z + 2147483648) u32_mod). unfold u32_mod in *. lia. Qed.

Lemma s32_small z : -2147483648 <= z < 2147483648 -> s32 z = z.
Proof. intros H. unfold s32. rewrite Z.mod_small; [lia|]. unfold u32_mod. lia. Qed.

(** C's truth value of an integer. *)
Definition ctrue (z : Z) : bool := negb (z =? 0).
Definition cbool (b : bool) : Z := if b then 1 else 0.

(** ** Sleep channels

    The kernel sleeps on the address of the object waited for; distinct
    objects have distinct addresses.  The array name [buf] is the address of
    its element 0, so [sleep(buf, ..)] and [sleep(&buf[0], ..)] share a
    channel. *)
Inductive chan : Type :=
| ChBuf (i : nat)
| ChInode (i : nat)
| ChPipeRead (p : Z)
| ChPipeWrite (p : Z)
| ChTicks
| ChInput
| ChProc (i : nat).

#[global] Instance chan_eq_dec : EqDecision chan.
Proof. solve_decision. Defined.

(** ** Counting *)

(** Moving an element of a duplicate-free list to its head. *)
Lemma filter_perm (l : list nat) i : NoDup l -> i ∈ l -> i :: filter (fun k => k <> i) l ≡ₚ l.
Proof.
  intros Hnd Hi. apply NoDup_Permutation; [|done|].
  - constructor; [rewrite list_elem_of_filter; tauto|by apply NoDup_filter].
  - intros k. rewrite elem_of_cons, list_elem_of_filter. destruct (decide (k = i)) as [->|]; tauto.
Qed.

Fixpoint count {A} (f : A -> bool) (l : list A) : nat :=
  match l with [] => 0 | x :: l => (if f x then 1 else 0) + count f l end.

Lemma count_insert {A} (f : A -> bool) l i x y :
  l !! i = Some x -> (count f (<[i := y]> l) + (if f x then 1 else 0) = count f l + (if f y then 1 else 0))%nat.
Proof.
  revert i. induction l as [|z l IH]; intros [|i] Hi; simpl in *; [done|done| |].
  - injection Hi as ->. lia.
  - specialize (IH i Hi). lia.
Qed.

Lemma count_pos {A} (f : A -> bool) l : (0 < count f l)%nat -> exists i x, l !! i = Some x /\ f x = true.
Proof.
  induction l as [|x l IH]; simpl; [lia|]. destruct (f x) eqn:E; [by exists 0%nat, x|].
  intros H. destruct IH as (i & y & Hi & Hy); [lia|]. by exists (S i), y.
Qed.

(** ** Outcomes of kernel code

    A kernel routine run on a state returns, calls [panic], performs an
    access C leaves undefined (a null or wild pointer), goes to sleep on a
    channel, or spins forever.  Every outcome carries the state it stops in:
    what is on the disk when the kernel panics is what recovery starts from. *)
Inductive res (S A : Type) : Type :=
| Ret (a : A) (s : S)
| Panic (msg : string) (s : S)
| Undef (why : string) (s : S)
| Sleep (c : chan) (s : S)
| Spin (s : S).
Arguments Ret {S A} a s.
Arguments Panic {S A} msg s.
Arguments Undef {S A} why s.
Arguments Sleep {S A} c s.
Arguments Spin {S A} s.

Definition M (S A : Type) : Type := S -> res S A.

Definition ret {S A} (a : A) : M S A := fun s => Ret a s.
Definition bind {S A B} (m : M S A) (k : A -> M S B) : M S B := fun s =>
  match m s with
  | Ret a s' => k a s'
  | Panic e s' => Panic e s'
  | Undef e s' => Undef e s'
  | Sleep c s' => Sleep c s'
  | Spin s' => Spin s'
  end.
Definition panic {S A} (msg : string) : M S A := fun s => Panic msg s.
Definition undef {S A} (why : string) : M S A := fun s => Undef why s.
Definition sleep_on {S A} (c : chan) : M S A := fun s => Sleep c s.
Definition get {S} : M S S := fun s => Ret s s.
Definition gets {S A} (f : S -> A) : M S A := fun s => Ret (f s) s.
Definition modify {S} (f : S -> S) : M S unit := fun s => Ret tt (f s).
Definition of_option {S A} (why : string) (o : option A) : M S A :=
  match o with Some a => ret a | None => undef why end.

Notation "'let!' x := m 'in' k" := (bind m (fun x => k))
  (at level 10, x name, m at level 100, k at level 200) : kern_scope.
Notation "m ;; k" := (bind m (fun _ => k))
  (at level 100, right associativity) : kern_scope.
Open Scope kern_scope.

(** Running a component's code inside a larger state. *)
Definition zoom {S T A} (proj : S -> T) (upd : T -> S -> S) (m : M T A) : M S A := fun s =>
  match m (proj s) with
  | Ret a t => Ret a (upd t s)
  | Panic e t => Panic e (upd t s)
  | Undef e t => Undef e (upd t s)
  | Sleep c t => Sleep c (upd t s)
  | Spin t => Spin (upd t s)
  end.

(** Iteration over a list, in order. *)
Fixpoint mfor {S A} (l : list A) (f : A -> M S unit) : M S unit :=
  match l with
  | [] => ret tt
  | x :: l => f x ;; mfor l f
  end.

(** The state an outcome stops in. *)
Definition final {S A} (r : res S A) : S :=
  match r with
  | Ret _ s | Panic _ s | Undef _ s | Sleep _ s | Spin s => s
  end.

(** ** Total correctness

    [wp m s Q]: run from [s], [m] returns, and its result satisfies [Q]. *)
Definition wp {S A} (m : M S A) (s : S) (Q : A -> S -> Prop) : Prop :=
  match m s with Ret a s' => Q a s' | _ => False end.

Section wp.
Context {S : Type}.

Lemma wp_ret {A} (a : A) (s : S) Q : Q a s -> wp (ret a) s Q.
Proof. done. Qed.

Lemma wp_bind {A B} (m : M S A) (k : A -> M S B) s Q :
  wp m s (fun a s' => wp (k a) s' Q) -> wp (bind m k) s Q.
Proof. unfold wp, bind. by destruct (m s). Qed.

Lemma wp_bind_inv {A B} (m : M S A) (k : A -> M S B) s Q :
  wp (bind m k) s Q -> wp m s (fun a s' => wp (k a) s' Q).
Proof. unfold wp, bind. by destruct (m s). Qed.

Lemma wp_gets {A} (f : S -> A) s Q : Q (f s) s -> wp (gets f) s Q.
Proof. done. Qed.

Lemma wp_get (s : S) Q : Q s s -> wp get s Q.
Proof. done. Qed.

Lemma wp_modify f (s : S) Q : Q tt (f s) -> wp (modify f) s Q.
Proof. done. Qed.

Lemma wp_of_option {A} why (o : option A) a (s : S) Q :
  o = Some a -> Q a s -> wp (of_option why o) s Q.
Proof. by intros ->. Qed.

Lemma wp_mono {A} (m : M S A) s (P Q : A -> S -> Prop) :
  wp m s P -> (forall a s', P a s' -> Q a s') -> wp m s Q.
Proof. unfold wp. destruct (m s); auto. Qed.

Lemma wp_returns {A} (m : M S A) s Q :
  wp m s Q <-> exists a s', m s = Ret a s' /\ Q a s'.
Proof.
  unfold wp. split; [|by intros (? & ? & -> & ?)].
  destruct (m s); [eauto|done..].
Qed.

Lemma wp_zoom {T A} (proj : S -> T) upd (m : M T A) s Q :
  wp m (proj s) (fun a t => Q a (upd t s)) -> wp (zoom proj upd m) s Q.
Proof. unfold wp, zoom. by destruct (m (proj s)). Qed.

(** A loop over a list with an invariant indexed by what is left to do. *)
Lemma wp_mfor {A} (I : list A -> S -> Prop) (f : A -> M S unit) l s :
  I l s ->
  (forall x l s, I (x :: l) s -> wp (f x) s (fun _ s' => I l s')) ->
  wp (mfor l f) s (fun _ s' => I [] s').
Proof.
  intros HI Hstep. revert s HI. induction l as [|x l IH]; intros s HI; [done|].
  apply wp_bind. eapply wp_mono; [by apply Hstep|]. intros ? s' HI'. by apply IH.
Qed.
End wp.

(** [bind] is associative and [ret] its unit, so [wp] proofs may follow the
    source's statement order whatever the bracketing. *)
Lemma bind_assoc {S A B C} (m : M S A) (f : A -> M S B) (g : B -> M S C) s :
  bind (bind m f) g s = bind m (fun x => bind (f x) g) s.
Proof. unfold bind. by destruct (m s). Qed.

(** A call that is known to return. *)
Lemma zoom_ret {S T A} (proj : S -> T) (upd : T -> S -> S) (m : M T A) s a t :
  m (proj s) = Ret a t -> zoom proj upd m s = Ret a (upd t s).
Proof. unfold zoom. by intros ->. Qed.

Lemma bind_ret {S A B} (m : M S A) (k : A -> M S B) s a s' :
  m s = Ret a s' -> bind m k s = k a s'.
Proof. unfold bind. by intros ->. Qed.

Lemma bind_inv {S A B} (m : M S A) (k : A -> M S B) s b s' :
  bind m k s = Ret b s' -> exists a s1, m s = Ret a s1 /\ k a s1 = Ret b s'.
Proof. unfold bind. destruct (m s); naive_solver. Qed.

(** ** Partial correctness

    [wlp m s Q]: if [m] returns from [s], its result satisfies [Q]; for facts
    about a routine that may also sleep or panic. *)
Definition wlp {S A} (m : M S A) (s : S) (Q : A -> S -> Prop) : Prop :=
  match m s with Ret a s' => Q a s' | _ => True end.

Section wlp.
Context {S : Type}.

Lemma wlp_bind {A B} (m : M S A) (k : A -> M S B) s Q :
  wlp m s (fun a s' => wlp (k a) s' Q) -> wlp (bind m k) s Q.
Proof. unfold wlp, bind. by destruct (m s). Qed.

Lemma wlp_mono {A} (m : M S A) s (P Q : A -> S -> Prop) :
  wlp m s P -> (forall a s', P a s' -> Q a s') -> wlp m s Q.
Proof. unfold wlp. destruct (m s); auto. Qed.

Lemma wlp_use {A} (m : M S A) s Q a s' : wlp m s Q -> m s = Ret a s' -> Q a s'.
Proof. unfold wlp. intros H E. by rewrite E in H. Qed.

Lemma wlp_of_option {A} why (o : option A) (s : S) Q :
  (forall a, o = Some a -> Q a s) -> wlp (of_option why o) s Q.
Proof. unfold wlp, of_option. destruct o; simpl; auto. Qed.

Lemma wlp_mfor {A} (I : list A -> S -> Prop) (f : A -> M S unit) l s :
  I l s ->
  (forall x l s, I (x :: l) s -> wlp (f x) s (fun _ s' => I l s')) ->
  wlp (mfor l f) s (fun _ s' => I [] s').
Proof.
  intros HI Hstep. revert s HI. induction l as [|x l IH]; intros s HI; [done|].
  apply wlp_bind. eapply wlp_mono; [by apply Hstep|]. intros ? s' HI'. by apply IH.
Qed.
End wlp.

Create HintDb kern.
#[export] Hint Resolve wp_ret wp_gets wp_get wp_modify : kern.

(** One step of symbolic execution. *)
Ltac wp_step :=
  lazymatch goal with
  | |- wp (bind _ _) _ _ => apply wp_bind
  | |- wp (ret _) _ _ => apply wp_ret
  | |- wp (gets _) _ _ => apply wp_gets
  | |- wp get _ _ => apply wp_get
  | |- wp (modify _) _ _ => apply wp_modify
  | |- wp (zoom _ _ _) _ _ => apply wp_zoom
  | |- wp (of_option _ _) _ _ => eapply wp_of_option; [eassumption || done|]
  end.
Ltac wp_steps := repeat (wp_step; cbv beta).

(** Case analysis on boolean comparisons of integers, as facts [lia] reads. *)
Ltac zcase :=
  match goal with
  | |- context [?a =? ?b] => destruct (Z.eqb_spec a b)
  | |- context [?a <? ?b] => destruct (Z.ltb_spec a b)
  | |- context [?a <=? ?b] => destruct (Z.leb_spec a b)
  | H : context [?a =? ?b] |- _ => destruct (Z.eqb_spec a b)
  | H : context [?a <? ?b] |- _ => destruct (Z.ltb_spec a b)
  | H : context [?a <=? ?b] |- _ => destruct (Z.leb_spec a b)
  end.
