(* ===== verification/CString.v ===== *)
(** * string.c: the kernel's memory and string routines

    Memory is a function from addresses to bytes.  A routine that only reads
    through a [char*] takes the pointer as the function from its index to the
    byte there ([cptr]); a routine that writes transforms the memory. *)

From S2P Require Import Prelude.

Definition mem : Type := Z -> Z.
Definition cptr : Type := nat -> Z.

Definition upd (m : mem) (a v : Z) : mem := fun x => if x =? a then v else m x.
Definition at_addr (m : mem) (a : Z) : cptr := fun i => m (a + Z.of_nat i).
Definition of_bytes (l : list Z) : cptr := fun i => nth i l 0.

(** ** Operations *)

(** [while(n-- > 0) *d++ = c;] *)
Fixpoint memset_loop (n : nat) (d c : Z) (m : mem) : mem :=
  match n with
  | O => m
  | S n => memset_loop n (d + 1) c (upd m d (u8 c))
  end.
Definition memset (d c n : Z) (m : mem) : mem := memset_loop (Z.to_nat n) d c m.

Fixpoint memcmp_loop (n : nat) (s1 s2 : cptr) : Z :=
  match n with
  | O => 0
  | S n => if negb (s1 O =? s2 O) then s1 O - s2 O
           else memcmp_loop n (fun i => s1 (S i)) (fun i => s2 (S i))
  end.
Definition memcmp (s1 s2 : cptr) (n : Z) : Z := memcmp_loop (Z.to_nat n) s1 s2.

(** [while(n-- > 0) *d++ = *s++;] *)
Fixpoint copy_up (n : nat) (d s : Z) (m : mem) : mem :=
  match n with
  | O => m
  | S n => copy_up n (d + 1) (s + 1) (upd m d (m s))
  end.

(** [while(n-- > 0) *--d = *--s;] *)
Fixpoint copy_down (n : nat) (d s : Z) (m : mem) : mem :=
  match n with
  | O => m
  | S n => copy_down n (d - 1) (s - 1) (upd m (d - 1) (m (s - 1)))
  end.

Definition memmove (d s n : Z) (m : mem) : mem :=
  if (s <? d) && (d <? s + n) then copy_down (Z.to_nat n) (d + n) (s + n) m
  else copy_up (Z.to_nat n) d s m.

Fixpoint strncmp (n : nat) (p q : cptr) : Z :=
  match n with
  | O => 0
  | S n' => if ctrue (p O) && (p O =? q O)
            then strncmp n' (fun i => p (S i)) (fun i => q (S i))
            else p O - q O
  end.

(** [while(n-- > 0) *s++ = 0;] *)
Fixpoint zero_fill (n : nat) (s : Z) (m : mem) : mem :=
  match n with
  | O => m
  | S n => zero_fill n (s + 1) (upd m s 0)
  end.

(** [while(n-- > 0 && ( *s++ = *t++ ) != 0) ; while(n-- > 0) *s++ = 0;] *)
Fixpoint strncpy_loop (n : nat) (s t : Z) (m : mem) : mem :=
  match n with
  | O => m
  | S n => let m' := upd m s (m t) in
           if ctrue (m t) then strncpy_loop n (s + 1) (t + 1) m'
           else zero_fill n (s + 1) m'
  end.
Definition strncpy (s t n : Z) (m : mem) : mem := strncpy_loop (Z.to_nat n) s t m.

(** [while(--n > 0 && ( *s++ = *t++ ) != 0) ; *s = 0;] with [n - 1] left. *)
Fixpoint safestrcpy_loop (n : nat) (s t : Z) (m : mem) : mem :=
  match n with
  | O => upd m s 0
  | S n => let m' := upd m s (m t) in
           if ctrue (m t) then safestrcpy_loop n (s + 1) (t + 1) m'
           else upd m' (s + 1) 0
  end.
Definition safestrcpy (s t n : Z) (m : mem) : mem :=
  if n <=? 0 then m else safestrcpy_loop (Z.to_nat (n - 1)) s t m.

(** [for(n = 0; s[n]; n++);] does not stop on a string with no terminator:
    [None] when [fuel] steps are not enough. *)
Fixpoint strlen (fuel : nat) (s : cptr) : option Z :=
  match fuel with
  | O => None
  | S fuel => if ctrue (s O) then option_map (fun n => n + 1) (strlen fuel (fun i => s (S i)))
              else Some 0
  end.

(** ** Lemmas *)

Lemma upd_eq m a v : upd m a v a = v.
Proof. unfold upd. by rewrite Z.eqb_refl. Qed.

Lemma upd_ne m a v x : x <> a -> upd m a v x = m x.
Proof. intros H. unfold upd. by destruct (Z.eqb_spec x a). Qed.

Ltac upd_tac :=
  unfold upd; repeat (zcase; try (subst; lia)); try done; try (f_equal; lia).

Lemma ctrue_true z : ctrue z = true <-> z <> 0.
Proof. unfold ctrue. zcase; naive_solver. Qed.

Lemma ctrue_false z : ctrue z = false <-> z = 0.
Proof. unfold ctrue. zcase; naive_solver. Qed.

Lemma memset_loop_spec n d c m x :
  memset_loop n d c m x =
    if (d <=? x) && (x <? d + Z.of_nat n) then u8 c else m x.
Proof.
  revert d m. induction n as [|n IH]; intros d m; simpl.
  - repeat zcase; simpl; done || lia.
  - rewrite IH. unfold upd. repeat zcase; simpl; done || lia.
Qed.

Lemma zero_fill_memset n s m x : zero_fill n s m x = memset_loop n s 0 m x.
Proof.
  revert s m. induction n as [|n IH]; intros s m; [done|]. simpl. rewrite IH.
  by change (u8 0) with 0.
Qed.

Lemma copy_up_spec n d s m x :
  d <= s \/ s + Z.of_nat n <= d ->
  copy_up n d s m x =
    if (d <=? x) && (x <? d + Z.of_nat n) then m (s + (x - d)) else m x.
Proof.
  revert d s m. induction n as [|n IH]; intros d s m Hov; simpl.
  - repeat zcase; simpl; done || lia.
  - rewrite IH by lia. unfold upd.
    repeat zcase; simpl; try lia; try done; f_equal; lia.
Qed.

Lemma copy_down_spec n d s m x :
  s <= d ->
  copy_down n d s m x =
    if (d - Z.of_nat n <=? x) && (x <? d) then m (s + (x - d)) else m x.
Proof.
  revert d s m. induction n as [|n IH]; intros d s m Hov; simpl.
  - repeat zcase; simpl; done || lia.
  - rewrite IH by lia. unfold upd.
    repeat zcase; simpl; try lia; try done; f_equal; lia.
Qed.

(** A pointer holds the C string [l]: its non-zero bytes, then a zero. *)
Definition is_cstr (p : cptr) (l : list Z) : Prop :=
  Forall (fun b => b <> 0) l /\ forall i, (i <= length l)%nat -> p i = nth i l 0.

Lemma is_cstr_nil p : is_cstr p [] <-> p O = 0.
Proof.
  split; [intros [_ H]; by apply (H O)|].
  intros H. split; [constructor|]. intros i Hi. simpl in Hi. by replace i with O by lia.
Qed.

Lemma is_cstr_cons p b l :
  is_cstr p (b :: l) <-> p O = b /\ b <> 0 /\ is_cstr (fun i => p (S i)) l.
Proof.
  unfold is_cstr. rewrite Forall_cons. split.
  - intros [[Hb Hl] H]. split; [apply (H O); simpl; lia|]. split; [done|]. split; [done|].
    intros i Hi. apply (H (S i)). simpl. lia.
  - intros (H0 & Hb & Hl & H). split; [done|]. intros [|i] Hi; [done|].
    apply H. simpl in Hi. lia.
Qed.

Lemma is_cstr_ext p q l :
  (forall i, (i <= length l)%nat -> p i = q i) -> is_cstr p l -> is_cstr q l.
Proof. intros H [Hl Hp]. split; [done|]. intros i Hi. rewrite <-H by done. by apply Hp. Qed.

Lemma at_addr_S m a i : at_addr m a (S i) = at_addr m (a + 1) i.
Proof. unfold at_addr. f_equal. lia. Qed.

Lemma is_cstr_addr_cons m a b l :
  is_cstr (at_addr m a) (b :: l) <-> m a = b /\ b <> 0 /\ is_cstr (at_addr m (a + 1)) l.
Proof.
  rewrite is_cstr_cons. unfold at_addr at 1. rewrite Z.add_0_r.
  split; intros (? & ? & H); split_and!; try done; revert H; apply is_cstr_ext;
    intros i _; by rewrite at_addr_S.
Qed.

Lemma is_cstr_addr_nil m a : is_cstr (at_addr m a) [] <-> m a = 0.
Proof. rewrite is_cstr_nil. unfold at_addr. by rewrite Z.add_0_r. Qed.

Lemma is_cstr_upd m a l x v :
  x < a \/ a + Z.of_nat (length l) < x ->
  is_cstr (at_addr m a) l -> is_cstr (at_addr (upd m x v) a) l.
Proof.
  intros Hx. apply is_cstr_ext. intros i Hi. unfold at_addr. rewrite upd_ne; [done|lia].
Qed.

(** ** What the routines compute *)

(** Memmove copies [n] bytes correctly even when the two regions overlap
    in either direction: afterwards every byte of the destination is the byte
    that was at the matching source address before the call, and no other
    byte of memory changed. *)
Theorem memmove_spec (d s n : Z) (m : mem) (x : Z) :
  0 <= n ->
  memmove d s n m x = if (d <=? x) && (x <? d + n) then m (s + (x - d)) else m x.
Proof.
  intros Hn. unfold memmove. destruct ((s <? d) && (d <? s + n)) eqn:E.
  - rewrite copy_down_spec by lia. rewrite Z2Nat.id by done.
    replace (d + n - n) with d by lia. by replace (s + n + (x - (d + n))) with (s + (x - d)) by lia.
  - rewrite copy_up_spec by (rewrite Z2Nat.id by done; lia). by rewrite Z2Nat.id.
Qed.

(** The forward overlap: shifting four bytes up by one in place. *)
Lemma memmove_spec_witness :
  0 <= 4 /\ map (memmove 11 10 4 (fun a => a)) [10; 11; 12; 13; 14; 15] = [10; 10; 11; 12; 13; 15].
Proof.
  split; [lia|]. simpl. rewrite !(memmove_spec 11 10 4) by lia. reflexivity.
Defined.

Lemma strncpy_loop_spec n s t m l x :
  is_cstr (at_addr m t) l ->
  s + Z.of_nat n <= t \/ t + Z.of_nat (length l) < s ->
  strncpy_loop n s t m x =
    if (s <=? x) && (x <? s + Z.of_nat n) then nth (Z.to_nat (x - s)) l 0 else m x.
Proof.
  revert s t m l. induction n as [|n IH]; intros s t m l Hl Hdis; simpl.
  { repeat zcase; simpl; done || lia. }
  destruct l as [|b l].
  - apply is_cstr_addr_nil in Hl. rewrite Hl. simpl. rewrite zero_fill_memset, memset_loop_spec.
    change (u8 0) with 0. unfold upd.
    repeat zcase; simpl; try lia; try done; by destruct (Z.to_nat (x - s)).
  - apply is_cstr_addr_cons in Hl as (Hb & Hnz & Hl). rewrite Hb. apply ctrue_true in Hnz. rewrite Hnz.
    simpl in Hdis. rewrite (IH (s + 1) (t + 1) _ l) by (try apply is_cstr_upd; try done; lia).
    unfold upd. repeat zcase; simpl; try lia; try done.
    all: first [by replace (Z.to_nat (x - s)) with O by lia
               |by replace (Z.to_nat (x - s)) with (S (Z.to_nat (x - (s + 1)))) by lia].
Qed.

(** Strncpy writes exactly the [n] bytes at [s]: the source string, cut
    at [n], followed by zeros; this is how a file name becomes the fixed-size
    name field of a directory entry. *)
Theorem strncpy_spec (s t n : Z) (m : mem) (l : list Z) (x : Z) :
  0 <= n -> is_cstr (at_addr m t) l ->
  s + n <= t \/ t + Z.of_nat (length l) < s ->
  strncpy s t n m x =
    if (s <=? x) && (x <? s + n) then nth (Z.to_nat (x - s)) l 0 else m x.
Proof.
  intros Hn Hl Hdis. unfold strncpy.
  rewrite (strncpy_loop_spec _ _ _ _ l) by (rewrite ?Z2Nat.id by done; done).
  by rewrite Z2Nat.id.
Qed.

(** Memory holding the bytes [l] from address [a], zero elsewhere. *)
Definition mem_at (a : Z) (l : list Z) : mem :=
  fun x => if (a <=? x) then nth (Z.to_nat (x - a)) l 0 else 0.

Lemma mem_at_cstr a l : Forall (fun b => b <> 0) l -> is_cstr (at_addr (mem_at a l) a) l.
Proof.
  intros Hl. split; [done|]. intros i Hi. unfold at_addr, mem_at. zcase; [|lia].
  f_equal. lia.
Qed.

Lemma strncpy_spec_witness :
  is_cstr (at_addr (mem_at 100 [97; 98; 99]) 100) [97; 98; 99] /\
  map (strncpy 10 100 5 (mem_at 100 [97; 98; 99])) [9; 10; 11; 12; 13; 14; 15]
    = [0; 97; 98; 99; 0; 0; 0].
Proof.
  assert (H : is_cstr (at_addr (mem_at 100 [97; 98; 99]) 100) [97; 98; 99])
    by (apply mem_at_cstr; repeat constructor; lia).
  split; [exact H|]. simpl.
  rewrite !(strncpy_spec 10 100 5 _ [97; 98; 99] _ ltac:(lia) H) by (simpl; lia). reflexivity.
Defined.

Lemma safestrcpy_loop_spec n s t m l :
  is_cstr (at_addr m t) l ->
  s + Z.of_nat n < t \/ t + Z.of_nat (length l) < s ->
  is_cstr (at_addr (safestrcpy_loop n s t m) s) (take n l) /\
  (forall x, x < s \/ s + Z.of_nat n < x -> safestrcpy_loop n s t m x = m x).
Proof.
  revert s t m l. induction n as [|n IH]; intros s t m l Hl Hdis; simpl.
  { split; [by rewrite is_cstr_addr_nil, upd_eq|]. intros x Hx. apply upd_ne. lia. }
  destruct l as [|b l].
  - apply is_cstr_addr_nil in Hl. rewrite Hl. simpl. split.
    + rewrite is_cstr_addr_nil, upd_ne, upd_eq by lia. done.
    + intros x Hx. rewrite !upd_ne by lia. done.
  - apply is_cstr_addr_cons in Hl as (Hb & Hnz & Hl). rewrite Hb.
    pose proof Hnz as Hc. apply ctrue_true in Hc. rewrite Hc. simpl in Hdis |- *.
    destruct (IH (s + 1) (t + 1) (upd m s b) l) as [IH1 IH2];
      [apply is_cstr_upd; [lia|done]|lia|].
    split.
    + rewrite is_cstr_addr_cons. split_and!; [|done|done]. rewrite IH2 by lia. apply upd_eq.
    + intros x Hx. rewrite IH2 by lia. apply upd_ne. lia.
Qed.

(** Safestrcpy leaves a NUL-terminated string in a buffer of [n > 0]
    bytes whatever the length of its source (the source cut at [n - 1]
    bytes), and writes nothing outside the buffer. *)
Theorem safestrcpy_spec (s t n : Z) (m : mem) (l : list Z) :
  0 < n -> is_cstr (at_addr m t) l ->
  s + n <= t \/ t + Z.of_nat (length l) < s ->
  is_cstr (at_addr (safestrcpy s t n m) s) (take (Z.to_nat (n - 1)) l) /\
  (forall x, x < s \/ s + n <= x -> safestrcpy s t n m x = m x).
Proof.
  intros Hn Hl Hdis. unfold safestrcpy. destruct (Z.leb_spec n 0); [lia|].
  destruct (safestrcpy_loop_spec (Z.to_nat (n - 1)) s t m l Hl) as [H1 H2]; [lia|].
  split; [done|]. intros x Hx. apply H2. lia.
Qed.

Lemma safestrcpy_spec_witness :
  is_cstr (at_addr (safestrcpy 10 100 3 (mem_at 100 [97; 98; 99])) 10) [97; 98] /\
  safestrcpy 10 100 3 (mem_at 100 [97; 98; 99]) 13 = 0.
Proof.
  destruct (safestrcpy_spec 10 100 3 (mem_at 100 [97; 98; 99]) [97; 98; 99]) as [H1 H2];
    [lia|apply mem_at_cstr; repeat constructor; lia|simpl; lia|].
  split; [exact H1|]. rewrite H2 by lia. reflexivity.
Defined.

(** Strncmp compares two C strings up to [n] bytes: it returns 0 exactly
    when their first [n] bytes, or the whole strings if shorter, agree. *)
Theorem strncmp_spec (n : nat) (p q : cptr) (lp lq : list Z) :
  is_cstr p lp -> is_cstr q lq ->
  strncmp n p q = 0 <-> take n lp = take n lq.
Proof.
  revert p q lp lq. induction n as [|n IH]; intros p q lp lq Hp Hq; [done|]. simpl.
  destruct lp as [|a lp], lq as [|b lq];
    rewrite ?is_cstr_nil, ?is_cstr_cons in Hp; rewrite ?is_cstr_nil, ?is_cstr_cons in Hq;
    cbn [take firstn].
  - rewrite Hp, Hq. done.
  - destruct Hq as (-> & Hb & _). rewrite Hp. change (ctrue 0) with false. cbn [andb].
    split; [lia|done].
  - destruct Hp as (-> & Ha & _). rewrite Hq. apply ctrue_true in Ha as Hc. rewrite Hc. cbn [andb].
    zcase; [lia|]. split; [lia|done].
  - destruct Hp as (-> & Ha & Hp), Hq as (-> & Hb & Hq). apply ctrue_true in Ha as Hc. rewrite Hc.
    cbn [andb]. zcase.
    + subst. rewrite (IH _ _ lp lq Hp Hq). split; [by intros ->|by intros [= ->]].
    + split; [lia|]. intros [= ? _]. done.
Qed.

Lemma strncmp_spec_witness :
  strncmp 2 (of_bytes [97; 98; 99]) (of_bytes [97; 98; 100]) = 0 /\
  ~ strncmp 3 (of_bytes [97; 98; 99]) (of_bytes [97; 98; 100]) = 0.
Proof.
  assert (Hc : forall l, Forall (fun b => b <> 0) l -> is_cstr (of_bytes l) l) by (by split).
  assert (H1 : is_cstr (of_bytes [97; 98; 99]) [97; 98; 99]) by (apply Hc; repeat constructor; lia).
  assert (H2 : is_cstr (of_bytes [97; 98; 100]) [97; 98; 100]) by (apply Hc; repeat constructor; lia).
  split.
  - by apply (strncmp_spec 2 _ _ _ _ H1 H2).
  - intros E. by apply (strncmp_spec 3 _ _ _ _ H1 H2) in E.
Defined.

(** strlen returns on every terminated string, with its length. *)
Lemma strlen_spec fuel p l :
  is_cstr p l -> (length l < fuel)%nat -> strlen fuel p = Some (Z.of_nat (length l)).
Proof.
  revert p l. induction fuel as [|fuel IH]; intros p l Hp Hl; [lia|]. simpl.
  destruct l as [|b l]; rewrite ?is_cstr_nil, ?is_cstr_cons in Hp.
  - by rewrite Hp.
  - destruct Hp as (-> & Hb & Hp). apply ctrue_true in Hb. rewrite Hb.
    simpl in Hl. rewrite (IH _ l Hp) by lia. simpl. f_equal. lia.
Qed.
