(* ===== verification/Kalloc.v ===== *)
(** * kalloc.c: the physical page allocator

    The state is the free list: its runs (address and length in bytes) in
    link order.  The list cells live in the free pages themselves; what a
    free page holds besides (the junk fill) is not part of the state. *)

From S2P Require Import Prelude.

Definition PAGE : Z := 4096.

Record run : Type := Run { base : Z; len : Z }.
Definition rend (r : run) : Z := base r + len r.

Definition freelist : Type := list run.

(** ** Operations *)

(** The loop of kfree over the runs still ahead of [*rp]: [None] is the
    panic "freeing free page". *)
Fixpoint kfree_loop (p n : Z) (l : freelist) : option freelist :=
  let pend := p + n in
  match l with
  | [] => Some [Run p n]
  | r :: l' =>
      if pend <? base r then Some (Run p n :: l)
      else if (base r <=? p) && (p <? rend r) then None
      else if pend =? base r then Some (Run p (n + len r) :: l')
      else if rend r =? p then
        match l' with
        | r2 :: l2 => if base r2 =? pend then Some (Run (base r) (len r + n + len r2) :: l2)
                      else Some (Run (base r) (len r + n) :: l')
        | [] => Some [Run (base r) (len r + n)]
        end
      else option_map (cons r) (kfree_loop p n l')
  end.

Definition kfree (v n : Z) : M freelist unit := fun l =>
  if (n <=? 0) || ctrue (Z.rem n PAGE) then Panic "kfree" l
  else match kfree_loop v n l with
       | Some l' => Ret tt l'
       | None => Panic "freeing free page" l
       end.

(** First fit, cutting the tail of a longer run. *)
Fixpoint kalloc_loop (n : Z) (l : freelist) : option (Z * freelist) :=
  match l with
  | [] => None
  | r :: l' =>
      if len r =? n then Some (base r, l')
      else if n <? len r then
        Some (base r + (len r - n), Run (base r) (len r - n) :: l')
      else match kalloc_loop n l' with
           | Some (p, l'') => Some (p, r :: l'')
           | None => None
           end
  end.

(** Returns 0, the null pointer, when no run is long enough. *)
Definition kalloc (n : Z) : M freelist Z := fun l =>
  if ctrue (Z.rem n PAGE) || (n <=? 0) then Panic "kalloc" l
  else match kalloc_loop n l with
       | Some (p, l') => Ret p l'
       | None => Ret 0 l
       end.

(** [end_] is the address of the linker symbol [end]. *)
Definition kinit (end_ : Z) : M freelist unit :=
  kfree (Z.land (u32 (end_ + PAGE)) (Z.lnot (PAGE - 1))) (256 * PAGE).

(** ** The invariant

    Runs are in increasing address order, none empty, none touching the
    next: adjacent free pages are always merged. *)
Fixpoint sorted_from (a : Z) (l : freelist) : Prop :=
  match l with
  | [] => True
  | r :: l => a < base r /\ 0 < len r /\ sorted_from (rend r) l
  end.

Definition paged (l : freelist) : Prop := Forall (fun r => (PAGE | len r)) l.
Definition wf (l : freelist) : Prop := sorted_from (-1) l /\ paged l.

(** The addresses the list holds. *)
Definition covers (l : freelist) (x : Z) : Prop :=
  Exists (fun r => base r <= x < rend r) l.

#[export] Instance covers_dec l x : Decision (covers l x).
Proof. apply _. Defined.

Lemma covers_nil x : covers [] x <-> False.
Proof. apply Exists_nil. Qed.

Lemma covers_cons r l x : covers (r :: l) x <-> base r <= x < rend r \/ covers l x.
Proof. apply Exists_cons. Qed.

Lemma sorted_from_weaken a b l : b <= a -> sorted_from a l -> sorted_from b l.
Proof. destruct l; simpl; [done|]. intros ? (? & ? & ?). split_and!; [lia|done|done]. Qed.

Lemma covers_above a l x : sorted_from a l -> covers l x -> a < x.
Proof.
  revert a. induction l as [|r l IH]; intros a Hs Hc; [by apply covers_nil in Hc|].
  destruct Hs as (? & ? & Hs). apply covers_cons in Hc as [?|Hc]; [lia|].
  pose proof (IH _ Hs Hc). unfold rend in *. lia.
Qed.

#[export] Hint Resolve sorted_from_weaken covers_above : kern.

Lemma paged_cons r l : paged (r :: l) <-> (PAGE | len r) /\ paged l.
Proof. unfold paged. by rewrite Forall_cons. Qed.

(** ** kfree *)

Lemma kfree_loop_spec a p n l :
  0 < n -> a < p -> sorted_from a l ->
  (forall x, p <= x < p + n -> ~ covers l x) ->
  exists l', kfree_loop p n l = Some l' /\ sorted_from a l' /\
    (forall x, covers l' x <-> covers l x \/ p <= x < p + n).
Proof.
  intros Hn. revert a. induction l as [|r l IH]; intros a Ha Hs Hdis; simpl.
  { eexists. split; [done|]. split; [simpl; auto|].
    intros x. rewrite covers_cons, covers_nil. unfold rend. simpl. tauto. }
  destruct Hs as (Hr & Hlen & Hs). setoid_rewrite covers_cons in Hdis.
  assert (Hov : p + n <= base r \/ rend r <= p).
  { destruct (decide (p + n <= base r)), (decide (rend r <= p)); auto. exfalso.
    apply (Hdis (Z.max p (base r))); unfold rend in *; [lia|]. left. lia. }
  unfold rend in *. case_match.
  { eexists. split; [done|]. split; [simpl; unfold rend; simpl; auto with lia|].
    intros x. rewrite !covers_cons. unfold rend. simpl. tauto. }
  case_match; [lia|]. case_match.
  { eexists. split; [done|]. split.
    - simpl. unfold rend. simpl. split_and!; [lia|lia|]. eapply sorted_from_weaken, Hs. lia.
    - intros x. rewrite !covers_cons. unfold rend. simpl. intuition lia. }
  case_match.
  { destruct l as [|r2 l2]; simpl in Hs.
    - eexists. split; [done|]. split; [simpl; auto with lia|].
      intros x. rewrite !covers_cons, covers_nil. unfold rend. simpl. intuition lia.
    - destruct Hs as (? & ? & Hs). unfold rend in *. case_match.
      + eexists. split; [done|]. split.
        * simpl. unfold rend. simpl. split_and!; [lia|lia|]. eapply sorted_from_weaken, Hs. lia.
        * intros x. rewrite !covers_cons. unfold rend. simpl. intuition lia.
      + assert (p + n < base r2).
        { destruct (decide (p + n < base r2)); [done|]. exfalso.
          apply (Hdis (base r2)); [lia|]. rewrite covers_cons. unfold rend. lia. }
        eexists. split; [done|]. split; [simpl; unfold rend; simpl; split_and!; try done; lia|].
        intros x. rewrite !covers_cons. unfold rend. simpl. intuition lia. }
  destruct (IH (base r + len r)) as (l' & -> & Hs' & Hc'); [lia|done|intros x Hx Hc; apply (Hdis x Hx); by right|].
  eexists. split; [done|]. split; [done|].
  intros x. rewrite !covers_cons, Hc'. tauto.
Qed.

Lemma kfree_loop_paged p n l l' :
  (PAGE | n) -> paged l -> kfree_loop p n l = Some l' -> paged l'.
Proof.
  intros Hn. revert l'. induction l as [|r l IH]; intros l' Hl; simpl.
  { intros [= <-]. by repeat constructor. }
  apply paged_cons in Hl as [Hr Hl].
  repeat case_match; intros; simplify_eq/=; rewrite ?paged_cons in *; simpl;
    destruct_and?; split_and?; auto using Z.divide_add_r.
  - destruct (kfree_loop p n l); simplify_eq/=. rewrite paged_cons. auto.
Qed.

Lemma kfree_guard n : 0 < n -> (PAGE | n) -> (n <=? 0) || ctrue (Z.rem n PAGE) = false.
Proof.
  intros Hn [k ->]. rewrite Z.rem_mul by done. change (ctrue 0) with false. lia.
Qed.

(** C37: freeing pages that are not free returns, keeps the free list sorted
    and fully merged, and adds exactly those addresses to it. *)
Theorem kfree_correct (v n : Z) (l : freelist) :
  wf l -> 0 <= v -> 0 < n -> (PAGE | n) ->
  (forall x, v <= x < v + n -> ~ covers l x) ->
  exists l', kfree v n l = Ret tt l' /\ wf l' /\
    (forall x, covers l' x <-> covers l x \/ v <= x < v + n).
Proof.
  intros [Hs Hp] Hv Hn Hdiv Hdis. unfold kfree. rewrite kfree_guard by done.
  destruct (kfree_loop_spec (-1) v n l) as (l' & E & Hs' & Hc); [done|lia|done|done|].
  rewrite E. exists l'. split_and!; [done|split; [done|]|done].
  by eapply kfree_loop_paged.
Qed.

(** Freeing the middle page of three merges the whole into one run. *)
Lemma kfree_correct_witness :
  wf [Run 4096 4096; Run 12288 4096] /\
  kfree 8192 4096 [Run 4096 4096; Run 12288 4096] = Ret tt [Run 4096 12288] /\
  covers [Run 4096 12288] 8192.
Proof.
  assert (H : wf [Run 4096 4096; Run 12288 4096]).
  { split; [simpl; unfold rend; simpl; lia|]. repeat constructor; simpl; by exists 1. }
  destruct (kfree_correct 8192 4096 _ H) as (l' & E & _ & Hc);
    [lia|lia|by exists 1| |].
  { intros x Hx. rewrite !covers_cons, covers_nil. unfold rend. simpl. lia. }
  vm_compute in E. injection E as <-. split_and!; [exact H|reflexivity|].
  apply Hc. right. lia.
Defined.

Lemma kfree_loop_double_free a p n l :
  sorted_from a l -> covers l p -> 0 < n -> kfree_loop p n l = None.
Proof.
  intros Hs Hc Hn. revert a Hs. induction l as [|r l IH]; intros a Hs; [by apply covers_nil in Hc|].
  destruct Hs as (Hr & Hlen & Hs). simpl. apply covers_cons in Hc as [Hc|Hc].
  - unfold rend in *. case_match; [lia|]. by case_match; [|lia].
  - pose proof (covers_above _ _ _ Hs Hc). unfold rend in *.
    case_match; [lia|]. case_match; [done|]. case_match; [lia|]. case_match; [lia|].
    by rewrite (IH Hc _ Hs).
Qed.

(** A double free is caught: freeing a block whose first page is already
    on the free list panics with "freeing free page" and leaves the list as
    it was. *)
Theorem kfree_double_free (v n : Z) (l : freelist) :
  wf l -> covers l v -> 0 < n -> (PAGE | n) ->
  kfree v n l = Panic "freeing free page" l.
Proof.
  intros [Hs _] Hc Hn Hdiv. unfold kfree. rewrite kfree_guard by done.
  by rewrite (kfree_loop_double_free _ _ _ _ Hs Hc Hn).
Qed.

Lemma kfree_double_free_witness :
  kfree 8192 4096 [Run 4096 12288] = Panic "freeing free page" [Run 4096 12288].
Proof.
  apply (kfree_double_free 8192 4096 [Run 4096 12288]).
  - split; [simpl; unfold rend; simpl; lia|]. repeat constructor. simpl. by exists 3.
  - rewrite covers_cons. unfold rend. simpl. lia.
  - lia.
  - by exists 1.
Defined.

(** ** kalloc *)

Lemma kalloc_loop_spec a n l :
  0 < n -> sorted_from a l ->
  match kalloc_loop n l with
  | Some (p, l') =>
      a < p /\ sorted_from a l' /\
      (forall x, p <= x < p + n -> covers l x) /\
      (forall x, covers l' x <-> covers l x /\ ~ p <= x < p + n)
  | None => Forall (fun r => len r < n) l
  end.
Proof.
  intros Hn. revert a. induction l as [|r l IH]; intros a Hs; simpl; [done|].
  destruct Hs as (Hr & Hlen & Hs).
  assert (Hab : forall x, covers l x -> rend r < x) by eauto with kern.
  unfold rend in *. destruct (Z.eqb_spec (len r) n).
  { split_and!; [lia|eapply sorted_from_weaken, Hs; lia| |].
    - intros x Hx. apply covers_cons. left. unfold rend. lia.
    - intros x. rewrite covers_cons. unfold rend. specialize (Hab x).
      split; [intros Hc; specialize (Hab Hc); intuition lia|intuition lia]. }
  destruct (Z.ltb_spec n (len r)).
  { split_and!; [lia|simpl; unfold rend; simpl; split_and!; [lia..|]; eapply sorted_from_weaken, Hs; lia| |].
    - intros x Hx. apply covers_cons. left. unfold rend. lia.
    - intros x. rewrite !covers_cons. unfold rend. simpl. specialize (Hab x).
      split; [intros [?|Hc]; [lia|specialize (Hab Hc); intuition lia]|intuition lia]. }
  specialize (IH _ Hs). destruct (kalloc_loop n l) as [[p l']|].
  - destruct IH as (Hp & Hs' & Hin & Hc). split_and!; [lia|done| |].
    + intros x Hx. apply covers_cons. auto.
    + intros x. rewrite !covers_cons, Hc. unfold rend. intuition lia.
  - constructor; [lia|done].
Qed.

Lemma kalloc_loop_paged n l p l' :
  (PAGE | n) -> paged l -> kalloc_loop n l = Some (p, l') -> paged l'.
Proof.
  intros Hn. revert l'. induction l as [|r l IH]; intros l' Hl; [done|]. simpl.
  apply paged_cons in Hl as [Hr Hl]. repeat case_match; intros; simplify_eq/=;
    rewrite ?paged_cons; simpl; auto using Z.divide_sub_r.
Qed.

Lemma kalloc_guard n : 0 < n -> (PAGE | n) -> ctrue (Z.rem n PAGE) || (n <=? 0) = false.
Proof. intros Hn Hd. rewrite orb_comm. by apply kfree_guard. Qed.

(** Kalloc returns memory nobody else holds: a non-zero address whose
    [n] bytes were all free and are now off the list, everything else being
    as free as before; and it returns 0, leaving the list alone, only when
    no run is long enough. *)
Theorem kalloc_correct (n : Z) (l : freelist) :
  wf l -> 0 < n -> (PAGE | n) -> ~ covers l 0 ->
  exists p l', kalloc n l = Ret p l' /\ wf l' /\
    ((p <> 0 /\ (forall x, p <= x < p + n -> covers l x) /\
      (forall x, covers l' x <-> covers l x /\ ~ p <= x < p + n))
     \/ (p = 0 /\ l' = l /\ Forall (fun r => len r < n) l)).
Proof.
  intros [Hs Hp] Hn Hd H0. unfold kalloc. rewrite kalloc_guard by done.
  pose proof (kalloc_loop_spec _ n _ Hn Hs) as H.
  destruct (kalloc_loop n l) as [[p l']|] eqn:E.
  - destruct H as (Ha & Hs' & Hin & Hc). exists p, l'. split; [done|].
    split; [split; [done|by eapply kalloc_loop_paged]|]. left. split_and!; [|done|done].
    intros ->. apply H0, Hin. lia.
  - exists 0, l. split; [done|]. split; [by split|]. by right.
Qed.

Lemma kalloc_correct_witness :
  kalloc 4096 [Run 4096 12288] = Ret 12288 [Run 4096 8192] /\
  covers [Run 4096 12288] 12288 /\ ~ covers [Run 4096 8192] 12288.
Proof.
  destruct (kalloc_correct 4096 [Run 4096 12288]) as (p & l' & E & _ & H);
    [|lia|by exists 1| |].
  - split; [simpl; unfold rend; simpl; lia|]. repeat constructor. simpl. by exists 3.
  - rewrite covers_cons, covers_nil. unfold rend. simpl. lia.
  - vm_compute in E. injection E as <- <-.
    destruct H as [(_ & Hin & Hc)|[? _]]; [|done].
    split_and!; [reflexivity|apply Hin; lia|]. rewrite Hc. lia.
Defined.

Lemma kalloc_kfree_loop a n l p l' :
  0 < n -> sorted_from a l -> kalloc_loop n l = Some (p, l') -> kfree_loop p n l' = Some l.
Proof.
  intros Hn. revert a l'. induction l as [|r l IH]; intros a l' Hs; [done|].
  destruct Hs as (Hr & Hlen & Hs). simpl. unfold rend in *.
  case_match; [|case_match].
  - intros [= <- <-]. assert (n = len r) as -> by lia. destruct r as [b k]; simpl in *.
    destruct l as [|r2 l]; [done|]. destruct Hs as (? & ? & Hs). simpl.
    by case_match; [|lia].
  - intros [= <- <-]. simpl. unfold rend. destruct r as [b k]; simpl in *.
    case_match; [lia|]. case_match; [lia|]. case_match; [lia|]. case_match; [|lia].
    destruct l as [|r2 l2]; [by repeat f_equal; lia|]. destruct Hs as (? & ? & Hs).
    case_match; [lia|]. by repeat f_equal; lia.
  - pose proof (kalloc_loop_spec _ n _ Hn Hs) as Hspec.
    destruct (kalloc_loop n l) as [[q l'']|] eqn:E; [|done]. intros [= <- <-].
    destruct Hspec as (Hq & _ & _ & _). simpl. unfold rend.
    case_match; [lia|]. case_match; [lia|]. case_match; [lia|]. case_match; [lia|].
    by rewrite (IH _ _ Hs eq_refl).
Qed.

(** kfree undoes kalloc. *)
Lemma kfree_kalloc (n p : Z) (l l' : freelist) :
  wf l -> 0 < n -> (PAGE | n) -> kalloc n l = Ret p l' -> p <> 0 -> kfree p n l' = Ret tt l.
Proof.
  intros [Hs _] Hn Hd. unfold kalloc, kfree. rewrite kalloc_guard, kfree_guard by done.
  destruct (kalloc_loop n l) as [[q l'']|] eqn:E; [|by intros [= <- <-]].
  intros [= <- <-] _. by rewrite (kalloc_kfree_loop _ _ _ _ _ Hn Hs E).
Qed.

(** Freeing what kalloc returned undoes it: the free list comes back
    exactly as it was, fragments included. *)
Theorem kalloc_kfree_roundtrip (n p : Z) (l l' : freelist) :
  wf l -> 0 < n -> (PAGE | n) -> kalloc n l = Ret p l' -> p <> 0 ->
  kfree p n l' = Ret tt l.
Proof.
  apply kfree_kalloc.
Qed.

Lemma kalloc_kfree_roundtrip_witness :
  kalloc 8192 [Run 4096 4096; Run 12288 12288] = Ret 16384 [Run 4096 4096; Run 12288 4096] /\
  kfree 16384 8192 [Run 4096 4096; Run 12288 4096] = Ret tt [Run 4096 4096; Run 12288 12288].
Proof.
  split; [reflexivity|].
  apply (kalloc_kfree_roundtrip 8192 16384 [Run 4096 4096; Run 12288 12288]).
  - split; [simpl; unfold rend; simpl; lia|].
    repeat constructor; simpl; [by exists 1|by exists 3].
  - lia.
  - by exists 2.
  - reflexivity.
  - lia.
Defined.

(** kinit frees one megabyte from the first page boundary above [end]. *)
Lemma kinit_spec end_ :
  0 <= end_ -> end_ + PAGE < u32_mod ->
  exists v, kinit end_ [] = Ret tt [Run v (256 * PAGE)] /\ (PAGE | v) /\ end_ < v <= end_ + PAGE.
Proof.
  intros H0 H1. exists ((end_ + PAGE) / PAGE * PAGE).
  unfold kinit. rewrite u32_small by (unfold PAGE in *; lia).
  assert (E : Z.land (end_ + PAGE) (Z.lnot (PAGE - 1)) = (end_ + PAGE) / PAGE * PAGE).
  { change (PAGE - 1) with (Z.ones 12). rewrite <-Z.ldiff_land, Z.ldiff_ones_r by lia.
    rewrite Z.shiftl_mul_pow2, Z.shiftr_div_pow2 by lia. done. }
  rewrite E. split_and!; [done|by eexists|..];
    pose proof (Z.div_mod (end_ + PAGE) PAGE ltac:(done));
    pose proof (Z.mod_pos_bound (end_ + PAGE) PAGE ltac:(done)); unfold PAGE in *; lia.
Qed.
