(* ===== verification/Layout.v ===== *)
(** * fs.h, pbj.h, param.h: block layout

    A disk block is its list of 512 bytes.  Structures on disk are read and
    written through little-endian accessors at the byte offsets the C
    compiler gives their fields; the macros that locate inodes and bitmap
    bits are as in fs.h. *)

From S2P Require Import Prelude CString.

(** ** Constants *)

Definition NBUF : nat := 500.
Definition NINODE : nat := 50.
Definition NDEV : Z := 10.
Definition ROOTDEV : Z := 1.
Definition NJB : Z := 201.

Definition BSIZE : Z := 512.
Definition NDIRECT : Z := 12.
Definition INDIRECT : Z := 12.
Definition NADDRS : Z := NDIRECT + 1.
Definition NPTR : Z := BSIZE / 4.
Definition NININDIRECT : Z := NPTR * NPTR.
Definition MAXFILE : Z := NDIRECT + NININDIRECT.
Definition T_DIR : Z := 1.
Definition T_FILE : Z := 2.
Definition T_DEV : Z := 3.
Definition DIRSIZ : nat := 14.
Definition DINODE_SIZE : Z := 64.
Definition DIRENT_SIZE : Z := 16.
Definition IPB : Z := BSIZE / DINODE_SIZE.
Definition IBLOCK (i : Z) : Z := i / IPB + 2 + NJB.
Definition BPB : Z := BSIZE * 8.
Definition BBLOCK (b ninodes : Z) : Z := b / BPB + ninodes / IPB + 3 + NJB.

Definition block : Type := list Z.
Definition zero_block : block := replicate 512 0.

Definition is_byte (b : Z) : Prop := 0 <= b < 256.
Definition is_block (b : block) : Prop := length b = 512%nat /\ Forall is_byte b.

(** ** Little-endian integers *)

Fixpoint le_bytes (n : nat) (z : Z) : list Z :=
  match n with
  | O => []
  | S n => z mod 256 :: le_bytes n (z / 256)
  end.

Fixpoint le_val (l : list Z) : Z :=
  match l with
  | [] => 0
  | b :: l => b + 256 * le_val l
  end.

(** The bytes [l] written over a block from offset [off]. *)
Definition splice (off : nat) (l : list Z) (b : block) : block :=
  take off b ++ l ++ drop (off + length l) b.
Definition slice (off n : nat) (b : block) : list Z := take n (drop off b).

Definition getz (n off : nat) (b : block) : Z := le_val (slice off n b).
Definition putz (n off : nat) (v : Z) (b : block) : block := splice off (le_bytes n v) b.

Definition get_u32 (off : Z) (b : block) : Z := getz 4 (Z.to_nat off) b.
Definition put_u32 (off v : Z) (b : block) : block := putz 4 (Z.to_nat off) v b.
Definition get_u16 (off : Z) (b : block) : Z := getz 2 (Z.to_nat off) b.
Definition put_u16 (off v : Z) (b : block) : block := putz 2 (Z.to_nat off) v b.
Definition get_s16 (off : Z) (b : block) : Z := s16 (get_u16 off b).

(** *** The journal's structures *)

(** [struct jsblock] *)
Definition jsb_size : block -> Z := get_u32 0.
Definition jsb_head : block -> Z := get_u32 4.
Definition jsb_tail : block -> Z := get_u32 8.
Definition set_jsb_head (v : Z) : block -> block := put_u32 4 v.
Definition set_jsb_tail (v : Z) : block -> block := put_u32 8 v.
Definition set_jsb_time (v : Z) : block -> block := put_u32 12 v.

(** [struct jtrans]; [blocklist] is declared with [NBPT] entries, but the
    structure lies in a 512-byte buffer with room for 126. *)
Definition NBPT : Z := 20.
Definition jt_checksum : block -> Z := get_u32 0.
Definition jt_ndata : block -> Z := get_u32 4.
Definition jt_entry (k : Z) : block -> Z := get_u32 (8 + 4 * k).
Definition set_jt_checksum (v : Z) : block -> block := put_u32 0 v.
Definition set_jt_ndata (v : Z) : block -> block := put_u32 4 v.
Definition set_jt_entry (k v : Z) : block -> block := put_u32 (8 + 4 * k) v.
Definition jt_room : Z := 126.

(** ** Lemmas *)

Lemma length_le_bytes n z : length (le_bytes n z) = n.
Proof. revert z. induction n; intros z; simpl; [done|]. by rewrite IHn. Qed.

Lemma le_bytes_byte n z : Forall is_byte (le_bytes n z).
Proof.
  revert z. induction n as [|n IH]; intros z; simpl; constructor; [|done].
  apply Z.mod_pos_bound. lia.
Qed.

Lemma le_val_bytes n z : le_val (le_bytes n z) = z mod 256 ^ Z.of_nat n.
Proof.
  revert z. induction n as [|n IH]; intros z; simpl; [by rewrite Z.mod_1_r|].
  rewrite IH. replace (Z.of_nat (S n)) with (Z.succ (Z.of_nat n)) by lia.
  rewrite Z.pow_succ_r by lia. rewrite (Z.rem_mul_r z 256) by lia. lia.
Qed.

Lemma le_val_range l : Forall is_byte l -> 0 <= le_val l < 256 ^ Z.of_nat (length l).
Proof.
  induction 1 as [|b l Hb Hl IH]; simpl; [lia|]. unfold is_byte in Hb.
  replace (Z.of_nat (S (length l))) with (Z.succ (Z.of_nat (length l))) by lia.
  rewrite Z.pow_succ_r by lia. lia.
Qed.

Lemma le_bytes_val l : Forall is_byte l -> le_bytes (length l) (le_val l) = l.
Proof.
  induction 1 as [|b l Hb Hl IH]; simpl; [done|]. unfold is_byte in Hb.
  replace (b + 256 * le_val l) with (b + le_val l * 256) by lia.
  rewrite Z.mod_add, Z.div_add by lia. rewrite Z.mod_small, Z.div_small by lia.
  by rewrite Z.add_0_l, IH.
Qed.

Lemma length_splice off l b :
  (off + length l <= length b)%nat -> length (splice off l b) = length b.
Proof. intros H. unfold splice. rewrite !length_app, length_take, length_drop. lia. Qed.

Lemma slice_splice_eq off l b :
  (off <= length b)%nat -> slice off (length l) (splice off l b) = l.
Proof.
  intros H. unfold slice, splice. rewrite drop_app_length' by (rewrite length_take; lia).
  by rewrite take_app_length.
Qed.

Lemma slice_splice_ne off l b off' n :
  (off + length l <= length b)%nat ->
  (off' + n <= off)%nat \/ (off + length l <= off')%nat ->
  slice off' n (splice off l b) = slice off' n b.
Proof.
  intros Hb Hd. unfold slice. apply list_eq. intros i.
  destruct (decide (i < n)%nat); [|by rewrite !lookup_take_ge by lia].
  rewrite !lookup_take_lt by lia. rewrite !lookup_drop. unfold splice.
  destruct Hd.
  - rewrite lookup_app_l by (rewrite length_take; lia). by rewrite lookup_take_lt by lia.
  - rewrite lookup_app_r by (rewrite length_take; lia).
    rewrite lookup_app_r by (rewrite length_take; lia).
    rewrite lookup_drop, length_take. f_equal. lia.
Qed.

Lemma splice_byte off l b : Forall is_byte l -> Forall is_byte b -> Forall is_byte (splice off l b).
Proof. intros Hl Hb. unfold splice. rewrite !Forall_app. auto using Forall_take, Forall_drop. Qed.

Lemma splice_is_block off l b :
  (off + length l <= 512)%nat -> Forall is_byte l -> is_block b -> is_block (splice off l b).
Proof.
  intros Ho Hl [Hn Hb]. split; [by rewrite length_splice; lia|by apply splice_byte].
Qed.

Lemma slice_byte off n b : Forall is_byte b -> Forall is_byte (slice off n b).
Proof. intros. unfold slice. auto using Forall_take, Forall_drop. Qed.

Lemma length_slice off n b : (off + n <= length b)%nat -> length (slice off n b) = n.
Proof. intros. unfold slice. rewrite length_take, length_drop. lia. Qed.

Lemma put_u32_block off v b : 0 <= off <= 508 -> is_block b -> is_block (put_u32 off v b).
Proof.
  intros Ho Hb. apply splice_is_block; [rewrite length_le_bytes; lia| |done]. apply le_bytes_byte.
Qed.

Lemma get_put_u32 off v b :
  0 <= off <= 508 -> is_block b -> get_u32 off (put_u32 off v b) = u32 v.
Proof.
  intros Ho [Hl _]. unfold get_u32, put_u32, getz, putz.
  rewrite <-(length_le_bytes 4 v) at 1. rewrite slice_splice_eq by lia. by rewrite le_val_bytes.
Qed.

Lemma get_put_u32_ne off off' v b :
  0 <= off <= 508 -> 0 <= off' -> is_block b -> off + 4 <= off' \/ off' + 4 <= off ->
  get_u32 off' (put_u32 off v b) = get_u32 off' b.
Proof.
  intros Ho Ho' [Hl _] Hd. unfold get_u32, put_u32, getz, putz.
  rewrite slice_splice_ne; [done|rewrite length_le_bytes; lia|rewrite length_le_bytes; lia].
Qed.

Lemma get_u32_range off b : 0 <= off <= 508 -> is_block b -> 0 <= get_u32 off b < u32_mod.
Proof.
  intros Ho [Hl Hb]. unfold get_u32, getz.
  pose proof (le_val_range (slice (Z.to_nat off) 4 b) (slice_byte _ _ _ Hb)) as H.
  by rewrite length_slice in H by lia.
Qed.

Lemma zero_block_ok : is_block zero_block.
Proof. split; [done|]. by apply Forall_replicate. Qed.

#[export] Hint Resolve put_u32_block zero_block_ok splice_is_block : kern.

(** Fields of any width. *)
Lemma getz_putz_eq n off v b :
  is_block b -> (off + n <= 512)%nat -> getz n off (putz n off v b) = v mod 256 ^ Z.of_nat n.
Proof.
  intros [Hl _] Ho. unfold getz, putz. rewrite <-(length_le_bytes n v) at 1.
  rewrite slice_splice_eq by lia. apply le_val_bytes.
Qed.

Lemma getz_putz_ne n off v b n' off' :
  is_block b -> (off + n <= 512)%nat -> (off' + n' <= off)%nat \/ (off + n <= off')%nat ->
  getz n' off' (putz n off v b) = getz n' off' b.
Proof.
  intros [Hl _] Ho Hd. unfold getz, putz.
  rewrite slice_splice_ne; [done|rewrite length_le_bytes; lia|rewrite length_le_bytes; lia].
Qed.

Lemma putz_block n off v b : is_block b -> (off + n <= 512)%nat -> is_block (putz n off v b).
Proof. intros Hb Ho. apply splice_is_block; [rewrite length_le_bytes; lia|apply le_bytes_byte|done]. Qed.

Lemma s16_u16 z : -32768 <= z < 32768 -> s16 (z mod 65536) = z.
Proof.
  intros H. unfold s16. rewrite Zplus_mod_idemp_l. rewrite Z.mod_small by lia. lia.
Qed.

(** ** Words and byte strings in memory *)

Definition load32 (m : mem) (a : Z) : Z := le_val [m a; m (a + 1); m (a + 2); m (a + 3)].
Definition store32 (a v : Z) (m : mem) : mem :=
  upd (upd (upd (upd m a (u8 v)) (a + 1) (u8 (Z.shiftr v 8))) (a + 2) (u8 (Z.shiftr v 16))) (a + 3) (u8 (Z.shiftr v 24)).
Fixpoint store_bytes (a : Z) (l : list Z) (m : mem) : mem :=
  match l with [] => m | b :: l => store_bytes (a + 1) l (upd m a b) end.

Lemma store_bytes_spec a l m x :
  store_bytes a l m x = if (a <=? x) && (x <? a + Z.of_nat (length l)) then nth (Z.to_nat (x - a)) l 0 else m x.
Proof.
  revert a m. induction l as [|b l IH]; intros a m; cbn [store_bytes].
  - destruct (Z.leb_spec a x); [|done]. cbn [andb length]. destruct (Z.ltb_spec x (a + Z.of_nat 0)); [lia|done].
  - rewrite IH. unfold upd. cbn [length]. destruct (Z.eqb_spec x a) as [->|Hne].
    + rewrite Z.leb_refl, Z.sub_diag. destruct (Z.leb_spec (a + 1) a); [lia|]. simpl.
      destruct (Z.ltb_spec a (a + Z.of_nat (S (length l)))); [done|lia].
    + destruct (Z.leb_spec (a + 1) x), (Z.leb_spec a x); try lia; [|done]. simpl.
      destruct (Z.ltb_spec x (a + 1 + Z.of_nat (length l))), (Z.ltb_spec x (a + Z.of_nat (S (length l)))); try lia.
      replace (Z.to_nat (x - a)) with (S (Z.to_nat (x - (a + 1)))) by lia. done.
Qed.

Lemma store_bytes_in a l m k c : l !! k = Some c -> store_bytes a l m (a + Z.of_nat k) = c.
Proof.
  intros H. pose proof (lookup_lt_Some _ _ _ H). rewrite store_bytes_spec.
  destruct (Z.leb_spec a (a + Z.of_nat k)); [|lia]. destruct (Z.ltb_spec (a + Z.of_nat k) (a + Z.of_nat (length l))); [|lia].
  simpl. replace (Z.to_nat (a + Z.of_nat k - a)) with k by lia. by apply nth_lookup_Some.
Qed.

Lemma store_bytes_out a l m x : x < a \/ a + Z.of_nat (length l) <= x -> store_bytes a l m x = m x.
Proof.
  intros H. rewrite store_bytes_spec. destruct (Z.leb_spec a x); [|done]. destruct (Z.ltb_spec x (a + Z.of_nat (length l))); [lia|done].
Qed.

Lemma store32_out a v m x : x < a \/ a + 4 <= x -> store32 a v m x = m x.
Proof. intros H. unfold store32, upd. by repeat rewrite (proj2 (Z.eqb_neq _ _)) by lia. Qed.

Lemma load32_store32 a v m : 0 <= v < u32_mod -> load32 (store32 a v m) a = v.
Proof.
  intros Hv. transitivity (le_val (le_bytes 4 v)); [|rewrite le_val_bytes; apply Z.mod_small; exact Hv].
  unfold load32, store32, upd. rewrite !Z.eqb_refl. repeat rewrite (proj2 (Z.eqb_neq _ _)) by lia.
  f_equal. unfold u8. cbn [le_bytes]. rewrite !Z.div_div by lia. by rewrite !Z.shiftr_div_pow2 by lia.
Qed.

Lemma load32_ext m m' a : (forall x, a <= x < a + 4 -> m' x = m x) -> load32 m' a = load32 m a.
Proof. intros H. unfold load32. by rewrite !H by lia. Qed.
