(* ===== verification/Ide.v ===== *)
(** * ide.c and buf.h: buffers and the disk driver

    The disk is an environment with an interface, [Disk]: a store of sectors
    addressed by drive and 28-bit block address, as the ATA registers address
    it.  The driver is modelled at its queue: a request is appended, the head
    of the queue is the one the controller works on, and an interrupt
    completes it and starts the next.  [ide_rw] is the driver's contract, the
    effect of one request; the refinement theorem below shows that the queue
    and the interrupt handler implement it, in request order. *)

From S2P Require Import Prelude Layout.

(** ** Buffers *)

Definition B_BUSY : Z := 1.
Definition B_VALID : Z := 2.
Definition B_DIRTY : Z := 4.

(** [struct buf]; the links are kept by the lists that use them. *)
Record buf : Type := Buf {
  flags : Z; dev : Z; sector : Z; faliable : Z; data : block }.

Definition set_flags (f : Z) (b : buf) : buf := Buf f (dev b) (sector b) (faliable b) (data b).
Definition set_sector (x : Z) (b : buf) : buf := Buf (flags b) (dev b) x (faliable b) (data b).
Definition set_faliable (x : Z) (b : buf) : buf := Buf (flags b) (dev b) (sector b) x (data b).
Definition set_data (x : block) (b : buf) : buf := Buf (flags b) (dev b) (sector b) (faliable b) x.

(** [b->flags & m], [b->flags |= m], [b->flags &= ~m] *)
Definition has (m : Z) (b : buf) : bool := ctrue (Z.land (flags b) m).
Definition or_flags (m : Z) (b : buf) : buf := set_flags (Z.lor (flags b) m) b.
Definition clear_flags (m : Z) (b : buf) : buf := set_flags (Z.land (flags b) (Z.lnot m)) b.

Definition zero_buf : buf := Buf 0 0 0 0 zero_block.

(** ** The disk *)

Class Disk (D : Type) : Type := {
  dread : D -> Z -> Z -> block;
  dwrite : D -> Z -> Z -> block -> D }.

Class DiskLaws (D : Type) `{Disk D} : Prop := {
  dread_dwrite_eq d dv lba b : dread (dwrite d dv lba b) dv lba = b;
  dread_dwrite_ne d dv lba b dv' lba' :
    (dv, lba) <> (dv', lba') -> dread (dwrite d dv lba b) dv' lba' = dread d dv' lba' }.

(** A disk image: the sectors ever written, the others zero. *)
Definition image : Type := gmap (Z * Z) block.

#[export] Instance image_disk : Disk image := {
  dread d dv lba := default zero_block ((d : gmap (Z * Z) block) !! (dv, lba));
  dwrite d dv lba b := <[(dv, lba) := b]> (d : gmap (Z * Z) block) }.

#[export] Instance image_laws : DiskLaws image.
Proof.
  split; intros; simpl; unfold image.
  - by rewrite lookup_insert_eq.
  - by rewrite lookup_insert_ne.
Qed.

(** ** The controller's registers *)

Definition IDE_BSY : Z := 128.
Definition IDE_DRDY : Z := 64.
Definition IDE_DF : Z := 32.
Definition IDE_ERR : Z := 1.
Definition IDE_CMD_READ : Z := 32.
Definition IDE_CMD_WRITE : Z := 48.

(** Ports 0x1f2 to 0x1f7 after a request has been programmed, and the 512
    bytes sent to 0x1f0 after a write command. *)
Record request : Type := Request {
  r_count : Z; r_lba0 : Z; r_lba1 : Z; r_lba2 : Z; r_head : Z; r_cmd : Z; r_data : block }.

(** The sector a controller in LBA mode takes from its registers. *)
Definition r_lba (r : request) : Z :=
  r_lba0 r + Z.shiftl (r_lba1 r) 8 + Z.shiftl (r_lba2 r) 16
  + Z.shiftl (Z.land (r_head r) 15) 24.
Definition r_drive (r : request) : Z := Z.land (Z.shiftr (r_head r) 4) 1.

(** What ide_start_request writes to the ports. *)
Definition ide_request (b : buf) : request :=
  {| r_count := 1;
     r_lba0 := Z.land (sector b) 255;
     r_lba1 := Z.land (Z.shiftr (sector b) 8) 255;
     r_lba2 := Z.land (Z.shiftr (sector b) 16) 255;
     r_head := Z.lor (Z.lor 224 (Z.shiftl (Z.land (dev b) 1) 4))
                     (Z.land (Z.shiftr (sector b) 24) 15);
     r_cmd := if has B_DIRTY b then IDE_CMD_WRITE else IDE_CMD_READ;
     r_data := if has B_DIRTY b then data b else [] |}.

(** [while(((r = inb(0x1f7)) & IDE_BSY) || !(r & IDE_DRDY)) ;] over the
    successive values of the status port; [None] when it never gets ready. *)
Fixpoint ide_wait_ready (polls : list Z) (check_error : bool) : option Z :=
  match polls with
  | [] => None
  | r :: polls =>
      if ctrue (Z.land r IDE_BSY) || negb (ctrue (Z.land r IDE_DRDY))
      then ide_wait_ready polls check_error
      else if check_error && ctrue (Z.land r (Z.lor IDE_DF IDE_ERR)) then Some (-1)
      else Some 0
  end.

(** ** Flag lemmas *)

Lemma land_pow2 f k : 0 <= k -> Z.land f (2 ^ k) = if Z.testbit f k then 2 ^ k else 0.
Proof.
  intros Hk. apply Z.bits_inj'. intros n Hn. rewrite Z.land_spec, Z.pow2_bits_eqb by done.
  destruct (Z.testbit f k) eqn:E; rewrite ?Z.pow2_bits_eqb, ?Z.bits_0 by done;
    (destruct (Z.eqb_spec k n); [subst; by rewrite E|by rewrite andb_false_r]).
Qed.

Lemma has_bit f k : 0 <= k -> ctrue (Z.land f (2 ^ k)) = Z.testbit f k.
Proof.
  intros Hk. rewrite land_pow2 by done. destruct (Z.testbit f k); [|done].
  unfold ctrue. pose proof (Z.pow_pos_nonneg 2 k). zcase; [lia|done].
Qed.

Lemma has_busy b : has B_BUSY b = Z.testbit (flags b) 0.
Proof. apply (has_bit _ 0). done. Qed.
Lemma has_valid b : has B_VALID b = Z.testbit (flags b) 1.
Proof. apply (has_bit _ 1). done. Qed.
Lemma has_dirty b : has B_DIRTY b = Z.testbit (flags b) 2.
Proof. apply (has_bit _ 2). done. Qed.

Lemma has_lor m n b : has (Z.lor m n) b = has m b || has n b.
Proof.
  unfold has, ctrue. rewrite Z.land_lor_distr_r.
  destruct (Z.eqb_spec (Z.lor (Z.land (flags b) m) (Z.land (flags b) n)) 0) as [E|E].
  - apply Z.lor_eq_0_iff in E as [-> ->]. done.
  - rewrite Z.lor_eq_0_iff in E. repeat zcase; try done. tauto.
Qed.

Lemma valid_and_clean b :
  (Z.land (flags b) (Z.lor B_VALID B_DIRTY) =? B_VALID) = has B_VALID b && negb (has B_DIRTY b).
Proof.
  rewrite Z.land_lor_distr_r. rewrite has_valid, has_dirty.
  change B_VALID with (2 ^ 1). change B_DIRTY with (2 ^ 2). rewrite !land_pow2 by done.
  by destruct (Z.testbit (flags b) 1), (Z.testbit (flags b) 2).
Qed.

(** Reduces flag tests of updated buffers to tests of the original ones. *)
Lemma testbit_or f m k : Z.testbit (Z.lor f m) k = Z.testbit f k || Z.testbit m k.
Proof. apply Z.lor_spec. Qed.
Lemma testbit_clear f m k :
  0 <= k -> Z.testbit (Z.land f (Z.lnot m)) k = Z.testbit f k && negb (Z.testbit m k).
Proof. intros. by rewrite Z.land_spec, Z.lnot_spec. Qed.

Ltac flag_simpl :=
  rewrite ?has_busy, ?has_valid, ?has_dirty in *;
  unfold or_flags, clear_flags, set_flags in *; simpl flags in *;
  rewrite ?testbit_or in *; rewrite ?testbit_clear in * by lia;
  change (Z.testbit B_BUSY 0) with true in *; change (Z.testbit B_BUSY 1) with false in *;
  change (Z.testbit B_BUSY 2) with false in *; change (Z.testbit B_VALID 0) with false in *;
  change (Z.testbit B_VALID 1) with true in *; change (Z.testbit B_VALID 2) with false in *;
  change (Z.testbit B_DIRTY 0) with false in *; change (Z.testbit B_DIRTY 1) with false in *;
  change (Z.testbit B_DIRTY 2) with true in *;
  rewrite ?orb_true_r, ?orb_false_r, ?andb_true_r, ?andb_false_r in *; simpl negb in *;
  rewrite ?andb_true_r, ?andb_false_r in *.

(** ** The contract: one request, performed *)

Section driver.
Context {D : Type} `{Disk D}.

(** The sector of the disk a buffer stands for. *)
Definition b_lba (b : buf) : Z := sector b mod 2 ^ 28.
Definition b_drive (b : buf) : Z := Z.land (dev b) 1.

(** Write the buffer if it is dirty, else read it; valid and clean after. *)
Definition done_flags (b : buf) : buf := clear_flags B_DIRTY (or_flags B_VALID b).
Definition sync_buf (d : D) (b : buf) : buf :=
  done_flags (if has B_DIRTY b then b else set_data (dread d (b_drive b) (b_lba b)) b).
Definition sync_disk (d : D) (b : buf) : D :=
  if has B_DIRTY b then dwrite d (b_drive b) (b_lba b) (data b) else d.

(** The panics of ide_rw, in the order of the source. *)
Definition ide_check (disk_1_present : bool) (b : buf) : option string :=
  if negb (has B_BUSY b) then Some "ide_rw: buf not busy"%string
  else if Z.land (flags b) (Z.lor B_VALID B_DIRTY) =? B_VALID then Some "ide_rw: nothing to do"%string
  else if negb (dev b =? 0) && negb disk_1_present then Some "ide disk 1 not present"%string
  else None.

(** ** The driver: queue and interrupts *)

Record ide_st : Type := IdeSt {
  i_bufs : list buf;          (* the buffers requests are made for *)
  ide_queue : list nat;       (* through qnext, head first *)
  disk_1_present : bool;
  i_disk : D;
  i_ctl : option request;     (* what the controller was programmed with *)
  i_wakeups : list chan }.

Definition set_i_bufs x s := IdeSt x (ide_queue s) (disk_1_present s) (i_disk s) (i_ctl s) (i_wakeups s).
Definition set_ide_queue x s := IdeSt (i_bufs s) x (disk_1_present s) (i_disk s) (i_ctl s) (i_wakeups s).
Definition set_i_disk x s := IdeSt (i_bufs s) (ide_queue s) (disk_1_present s) x (i_ctl s) (i_wakeups s).
Definition set_i_ctl x s := IdeSt (i_bufs s) (ide_queue s) (disk_1_present s) (i_disk s) x (i_wakeups s).
Definition add_wakeup c s :=
  IdeSt (i_bufs s) (ide_queue s) (disk_1_present s) (i_disk s) (i_ctl s) (c :: i_wakeups s).

Definition get_ibuf (i : nat) : M ide_st buf :=
  let! s := get in of_option "buf" (i_bufs s !! i).

Definition ide_start_request (i : nat) : M ide_st unit :=
  let! b := get_ibuf i in modify (set_i_ctl (Some (ide_request b))).

(** ide_rw up to its wait: append to the queue, start the controller if the
    queue was empty.  The caller then sleeps until the request is done. *)
Definition ide_rw_enqueue (i : nat) : M ide_st unit :=
  let! b := get_ibuf i in
  let! present := gets disk_1_present in
  match ide_check present b with
  | Some msg => panic msg
  | None =>
      let! q := gets ide_queue in
      modify (set_ide_queue (q ++ [i])) ;;
      match q with
      | [] => ide_start_request i
      | _ => ret tt
      end
  end.

(** The controller carries out what it was programmed with: the new disk and
    the 512 bytes port 0x1f0 will deliver. *)
Definition ctl_complete (d : D) (r : request) : D * block :=
  if r_cmd r =? IDE_CMD_WRITE then (dwrite d (r_drive r) (r_lba r) (r_data r), [])
  else (d, dread d (r_drive r) (r_lba r)).

(** [polls] are the values the status port takes while the handler waits. *)
Definition ide_intr (polls : list Z) : M ide_st unit := fun s =>
  match ide_queue s with
  | [] => Ret tt s
  | i :: q =>
      (let! b := get_ibuf i in
       let! ctl := gets i_ctl in
       let! r := of_option "interrupt with no request" ctl in
       let! d := gets i_disk in
       let '(d', bytes) := ctl_complete d r in
       modify (set_i_disk d') ;; modify (set_i_ctl None) ;;
       (if negb (has B_DIRTY b) then
          match ide_wait_ready polls true with
          | Some st => modify (fun s => if 0 <=? st then set_i_bufs (<[i := set_data bytes b]> (i_bufs s)) s else s)
          | None => fun s => Spin s
          end
        else ret tt) ;;
       let! b := get_ibuf i in
       modify (fun s => set_i_bufs (<[i := done_flags b]> (i_bufs s)) s) ;;
       modify (add_wakeup (ChBuf i)) ;;
       modify (set_ide_queue q) ;;
       match q with
       | [] => ret tt
       | j :: _ => ide_start_request j
       end) s
  end.

(** The contract as code on the same state: what ide_rw has done when it
    returns. *)
Definition ide_rw (i : nat) : M ide_st unit :=
  let! b := get_ibuf i in
  let! present := gets disk_1_present in
  match ide_check present b with
  | Some msg => panic msg
  | None =>
      let! d := gets i_disk in
      modify (set_i_disk (sync_disk d b)) ;;
      modify (fun s => set_i_bufs (<[i := sync_buf d b]> (i_bufs s)) s) ;;
      modify (add_wakeup (ChBuf i))
  end.

End driver.
Arguments ide_st : clear implicits.

(** ** The registers address the buffer's sector *)

Lemma head_register e h :
  0 <= e < 2 -> 0 <= h < 16 ->
  Z.land (Z.lor (Z.lor 224 (Z.shiftl e 4)) h) 15 = h /\
  Z.land (Z.shiftr (Z.lor (Z.lor 224 (Z.shiftl e 4)) h) 4) 1 = e.
Proof.
  intros He Hh.
  assert (E : e = 0 \/ e = 1) by lia.
  assert (Eh : In h (map Z.of_nat (seq 0 16))).
  { apply in_map_iff. exists (Z.to_nat h). rewrite in_seq. lia. }
  destruct E as [-> | ->]; simpl in Eh; repeat destruct Eh as [<-|Eh]; done.
Qed.

Lemma land_ones_mod x k : 0 <= k -> Z.land x (2 ^ k - 1) = x mod 2 ^ k.
Proof. intros. rewrite <-Z.land_ones by done. by rewrite Z.ones_equiv, Z.sub_1_r. Qed.

Lemma land_1_range x : 0 <= Z.land x 1 < 2.
Proof. replace (Z.land x 1) with (x mod 2 ^ 1) by (by rewrite <-land_ones_mod). apply Z.mod_pos_bound. lia. Qed.

Lemma land_15_range x : 0 <= Z.land x 15 < 16.
Proof. replace (Z.land x 15) with (x mod 2 ^ 4) by (by rewrite <-land_ones_mod). apply Z.mod_pos_bound. lia. Qed.

Lemma request_drive b : r_drive (ide_request b) = b_drive b.
Proof. unfold r_drive, b_drive. simpl. apply head_register; [apply land_1_range|apply land_15_range]. Qed.

Lemma request_lba b : r_lba (ide_request b) = b_lba b.
Proof.
  unfold r_lba, b_lba. simpl r_lba0. simpl r_lba1. simpl r_lba2. simpl r_head.
  set (s := sector b).
  assert (H15 : Z.land (Z.shiftr s 24) 15 = (s / 2 ^ 24) mod 2 ^ 4).
  { change 15 with (2 ^ 4 - 1). rewrite land_ones_mod, Z.shiftr_div_pow2 by lia. done. }
  destruct (head_register (Z.land (dev b) 1) (Z.land (Z.shiftr s 24) 15)) as [-> _];
    [apply land_1_range|apply land_15_range|].
  rewrite H15. change 255 with (2 ^ 8 - 1). rewrite !land_ones_mod by lia.
  rewrite !Z.shiftr_div_pow2, !Z.shiftl_mul_pow2 by lia.
  replace (2 ^ 28) with (2 ^ 8 * (2 ^ 8 * (2 ^ 8 * 2 ^ 4))) by done.
  rewrite (Z.rem_mul_r s (2 ^ 8)) by lia.
  rewrite (Z.rem_mul_r (s / 2 ^ 8) (2 ^ 8)) by lia.
  rewrite (Z.rem_mul_r (s / 2 ^ 8 / 2 ^ 8) (2 ^ 8)) by lia.
  rewrite !Z.div_div by lia. change (2 ^ 8 * 2 ^ 8 * 2 ^ 8) with (2 ^ 24).
  change (2 ^ 8 * 2 ^ 8) with (2 ^ 16).
  generalize (s mod 2 ^ 8) ((s / 2 ^ 8) mod 2 ^ 8) ((s / 2 ^ 16) mod 2 ^ 8) ((s / 2 ^ 24) mod 2 ^ 4).
  lia.
Qed.

(** ** Refinement of the contract by the queue *)

Section refinement.
Context {D : Type} `{Disk D}.

(** A controller that is ready and reports no error. *)
Definition polls_ok (polls : list Z) : Prop := ide_wait_ready polls true = Some 0.

Lemma complete_sync d b :
  ctl_complete d (ide_request b) =
    (sync_disk d b, if has B_DIRTY b then [] else dread d (b_drive b) (b_lba b)).
Proof.
  unfold ctl_complete, sync_disk. rewrite request_drive, request_lba. simpl.
  by destruct (has B_DIRTY b).
Qed.

Definition starts (bs : list buf) (q : list nat) : option request :=
  match q with
  | [] => None
  | i :: _ => option_map ide_request (bs !! i)
  end.

(** One interrupt performs the request at the head of the queue, exactly as
    the contract says, and starts the next. *)
Lemma intr_performs polls bs i q b pr d ws :
  polls_ok polls -> bs !! i = Some b -> i ∉ q -> Forall (fun j => is_Some (bs !! j)) q ->
  ide_intr polls (IdeSt bs (i :: q) pr d (starts bs (i :: q)) ws)
    = Ret tt (IdeSt (<[i := sync_buf d b]> bs) q pr (sync_disk d b)
                (starts (<[i := sync_buf d b]> bs) q) (ChBuf i :: ws)).
Proof.
  intros Hok Hb Hi Hq. assert (Hlt : (i < length bs)%nat) by (by apply lookup_lt_is_Some; exists b).
  unfold ide_intr, get_ibuf, bind, get, gets, of_option, modify. simpl.
  rewrite Hb. simpl. rewrite complete_sync. unfold sync_buf.
  destruct (has B_DIRTY b) eqn:E; simpl.
  - rewrite Hb. simpl. destruct q as [|j q]; [done|]. simpl.
    apply Forall_cons in Hq as [[bj Hj] _]. unfold ide_start_request, get_ibuf, bind, get, of_option, modify.
    simpl. rewrite list_lookup_insert_ne by set_solver. by rewrite Hj.
  - rewrite Hok. simpl. rewrite list_lookup_insert_eq by done. simpl.
    rewrite list_insert_insert_eq. destruct q as [|j q]; [done|]. simpl.
    apply Forall_cons in Hq as [[bj Hj] _]. unfold ide_start_request, get_ibuf, bind, get, of_option, modify.
    simpl. rewrite list_lookup_insert_ne by set_solver. by rewrite Hj.
Qed.

(** A request ide_rw accepts. *)
Definition requestable (pr : bool) (bs : list buf) (i : nat) : Prop :=
  exists b, bs !! i = Some b /\ ide_check pr b = None.

Lemma requestable_insert pr bs i j b :
  i <> j -> requestable pr bs j -> requestable pr (<[i := b]> bs) j.
Proof. intros Hne (bj & Hj & Hc). exists bj. by rewrite list_lookup_insert_ne. Qed.

Lemma requestable_insert_all pr bs i b l :
  i ∉ l -> Forall (requestable pr bs) l -> Forall (requestable pr (<[i := b]> bs)) l.
Proof.
  rewrite !Forall_forall. intros Hi Hl j Hj. apply requestable_insert; [set_solver|auto].
Qed.

Lemma requestable_some pr bs l :
  Forall (requestable pr bs) l -> Forall (fun j => is_Some (bs !! j)) l.
Proof. intros Hl. eapply Forall_impl; [exact Hl|]. intros j (b & -> & _). done. Qed.

Lemma enqueue_all bs q pr (d : D) ws l :
  Forall (requestable pr bs) l ->
  mfor l ide_rw_enqueue (IdeSt bs q pr d (starts bs q) ws)
    = Ret tt (IdeSt bs (q ++ l) pr d (starts bs (q ++ l)) ws).
Proof.
  revert q. induction l as [|i l IH]; intros q Hl; simpl; [by rewrite app_nil_r|].
  apply Forall_cons in Hl as [(b & Hb & Hc) Hl]. unfold bind at 1.
  unfold ide_rw_enqueue, get_ibuf, bind, get, gets, of_option, modify. simpl. rewrite Hb. simpl.
  rewrite Hc. simpl. replace (q ++ i :: l) with ((q ++ [i]) ++ l) by (by rewrite <-app_assoc).
  rewrite <-IH by done. destruct q as [|j q]; [|done]. simpl.
  unfold ide_start_request, get_ibuf, bind, get, of_option, modify. simpl. by rewrite Hb.
Qed.

Lemma ide_rw_performs bs i b pr (d : D) ws :
  bs !! i = Some b -> ide_check pr b = None ->
  ide_rw i (IdeSt bs [] pr d None ws)
    = Ret tt (IdeSt (<[i := sync_buf d b]> bs) [] pr (sync_disk d b) None (ChBuf i :: ws)).
Proof.
  intros Hb Hc. unfold ide_rw, get_ibuf, bind, get, gets, of_option, modify. simpl.
  rewrite Hb. simpl. by rewrite Hc.
Qed.

Lemma drain_performs bs q pr (d : D) ws polls :
  NoDup q -> Forall (requestable pr bs) q -> length polls = length q -> Forall polls_ok polls ->
  mfor polls ide_intr (IdeSt bs q pr d (starts bs q) ws) = mfor q ide_rw (IdeSt bs [] pr d None ws).
Proof.
  revert bs d ws polls. induction q as [|i q IH]; intros bs d ws polls Hnd Hq Hlen Hok.
  { by destruct polls. }
  destruct polls as [|p polls]; [done|].
  apply NoDup_cons in Hnd as [Hi Hnd]. apply Forall_cons in Hq as [(b & Hb & Hc) Hq].
  apply Forall_cons in Hok as [Hp Hok]. cbn [mfor]. unfold bind.
  rewrite (intr_performs p bs i q b pr d ws) by eauto using requestable_some.
  rewrite (ide_rw_performs bs i b pr d ws) by done.
  apply IH; [done|by apply requestable_insert_all|by injection Hlen|done].
Qed.

(** C38: the driver implements its contract: from an idle driver, enqueueing
    any sequence of distinct acceptable requests and then taking one
    interrupt for each leaves exactly the state of performing the requests
    one after the other, in the order they were made, and an empty queue. *)
Theorem ide_fifo (bs : list buf) (pr : bool) (d : D) (ws : list chan) (l : list nat)
    (polls : list (list Z)) :
  NoDup l -> Forall (requestable pr bs) l -> length polls = length l -> Forall polls_ok polls ->
  (mfor l ide_rw_enqueue ;; mfor polls ide_intr) (IdeSt bs [] pr d None ws)
    = mfor l ide_rw (IdeSt bs [] pr d None ws).
Proof.
  intros Hnd Hl Hlen Hok. unfold bind.
  pose proof (enqueue_all bs [] pr d ws l Hl) as E. simpl in E. rewrite E. simpl.
  by apply drain_performs.
Qed.

End refinement.

(** A write of buffer 1 to drive 1, then a read of the same sector into
    buffer 0: the read sees what was written. *)
Lemma ide_fifo_witness :
  let bs := [Buf 1 1 7 0 [9; 9]; Buf 5 1 7 0 [1; 2]] in
  (mfor [1%nat; 0%nat] ide_rw_enqueue ;; mfor [[64]; [128; 64]] ide_intr)
    (IdeSt bs [] true (∅ : image) None [])
  = Ret tt (IdeSt [Buf 3 1 7 0 [1; 2]; Buf 3 1 7 0 [1; 2]] [] true
              ({[(1, 7) := [1; 2]]} : image) None [ChBuf 0; ChBuf 1]).
Proof.
  intros bs. rewrite (ide_fifo bs true (∅ : image) [] [1%nat; 0%nat] [[64]; [128; 64]]).
  - vm_compute. reflexivity.
  - repeat constructor; set_solver.
  - repeat constructor; eexists; (split; [reflexivity|reflexivity]).
  - reflexivity.
  - repeat constructor.
Defined.
