(* ===== verification/Bio.v ===== *)
(** * bio.c and pbj.h: the buffer cache and the journal

    The cache is the array of buffers and the LRU list; the journal's globals
    are those of bio.c, [jsb] and [jt] being the data of the buffers
    [jsblock_buf] and [jtrans_header_buf] as in the source.  Nodes of the
    committed-transaction list are cells of a heap, so that what the code
    does with their links is visible.  The state is seen from the running
    process: [ct] is its current transaction ([curmt()]).

    kmalloc is not in the repository.  A call returns a fresh block; what
    uninitialised memory holds matters where the code reads a link it never
    set, and is the parameter [fresh0] (true: zero, so a null link). *)

From S2P Require Import Prelude Layout Ide.

(** ** The disk as its history

    The writes issued since a base image, oldest first: a crash keeps a
    prefix of them. *)
Record hist : Type := Hist { h_base : image; h_writes : list (Z * Z * block) }.

Definition apply_write (d : image) (w : Z * Z * block) : image :=
  dwrite d (fst (fst w)) (snd (fst w)) (snd w).
Definition replay_writes (ws : list (Z * Z * block)) (d : image) : image := foldl apply_write d ws.
Definition h_image (h : hist) : image := replay_writes (h_writes h) (h_base h).

#[export] Instance hist_disk : Disk hist := {
  dread h dv lba := dread (h_image h) dv lba;
  dwrite h dv lba b := Hist (h_base h) (h_writes h ++ [(dv, lba, b)]) }.

Lemma h_image_write h dv lba b : h_image (dwrite h dv lba b) = dwrite (h_image h) dv lba b.
Proof. unfold h_image, replay_writes. simpl. by rewrite foldl_app. Qed.

#[export] Instance hist_laws : DiskLaws hist.
Proof.
  split; intros d dv lba b; [|intros dv' lba' Hne].
  - change (dread (h_image (dwrite d dv lba b)) dv lba = b).
    by rewrite h_image_write, dread_dwrite_eq.
  - change (dread (h_image (dwrite d dv lba b)) dv' lba' = dread (h_image d) dv' lba').
    by rewrite h_image_write, dread_dwrite_ne.
Qed.

(** ** State *)

(** A pointer to a [mem_trans_node]: null, a node, or an uninitialised
    word. *)
Inductive mptr : Type := Null | Node (k : nat) | Junk.
#[export] Instance mptr_eq_dec : EqDecision mptr.
Proof. solve_decision. Defined.

(** [struct mem_trans] with its list of [t_data_node]s: the buffers in link
    order, and whether the last link is null. *)
Record mem_trans : Type := MemTrans { t_bufs : list nat; t_term : bool; t_size : Z }.

(** [struct mem_trans_node] *)
Record mtn : Type := Mtn { mtn_trans : mem_trans; mtn_next : mptr }.

Record bst : Type := Bst {
  bufs : list buf;
  lru : list nat;                    (* bufhead.next, ..., bufhead.prev *)
  bdisk : hist;
  present : bool;                    (* disk_1_present *)
  wakes : list chan;                 (* wakeup calls, latest first *)
  jsblock_buf : option nat;
  jtrans_header_buf : option nat;
  jtail_bnum : Z;
  trans_write_lock : bool;
  mtns : list mtn;                   (* the heap of nodes *)
  mtn_head : mptr;
  mtn_tail : mptr;
  ct : mem_trans;
  should_panic : Z }.

Definition set_bufs x s := Bst x (lru s) (bdisk s) (present s) (wakes s) (jsblock_buf s)
  (jtrans_header_buf s) (jtail_bnum s) (trans_write_lock s) (mtns s) (mtn_head s) (mtn_tail s) (ct s) (should_panic s).
Definition set_lru x s := Bst (bufs s) x (bdisk s) (present s) (wakes s) (jsblock_buf s)
  (jtrans_header_buf s) (jtail_bnum s) (trans_write_lock s) (mtns s) (mtn_head s) (mtn_tail s) (ct s) (should_panic s).
Definition set_wakes x s := Bst (bufs s) (lru s) (bdisk s) (present s) x (jsblock_buf s)
  (jtrans_header_buf s) (jtail_bnum s) (trans_write_lock s) (mtns s) (mtn_head s) (mtn_tail s) (ct s) (should_panic s).
Definition set_jsblock_buf x s := Bst (bufs s) (lru s) (bdisk s) (present s) (wakes s) x
  (jtrans_header_buf s) (jtail_bnum s) (trans_write_lock s) (mtns s) (mtn_head s) (mtn_tail s) (ct s) (should_panic s).
Definition set_jtrans_header_buf x s := Bst (bufs s) (lru s) (bdisk s) (present s) (wakes s) (jsblock_buf s)
  x (jtail_bnum s) (trans_write_lock s) (mtns s) (mtn_head s) (mtn_tail s) (ct s) (should_panic s).
Definition set_jtail_bnum x s := Bst (bufs s) (lru s) (bdisk s) (present s) (wakes s) (jsblock_buf s)
  (jtrans_header_buf s) x (trans_write_lock s) (mtns s) (mtn_head s) (mtn_tail s) (ct s) (should_panic s).
Definition set_trans_write_lock x s := Bst (bufs s) (lru s) (bdisk s) (present s) (wakes s) (jsblock_buf s)
  (jtrans_header_buf s) (jtail_bnum s) x (mtns s) (mtn_head s) (mtn_tail s) (ct s) (should_panic s).
Definition set_mtns x s := Bst (bufs s) (lru s) (bdisk s) (present s) (wakes s) (jsblock_buf s)
  (jtrans_header_buf s) (jtail_bnum s) (trans_write_lock s) x (mtn_head s) (mtn_tail s) (ct s) (should_panic s).
Definition set_mtn_head x s := Bst (bufs s) (lru s) (bdisk s) (present s) (wakes s) (jsblock_buf s)
  (jtrans_header_buf s) (jtail_bnum s) (trans_write_lock s) (mtns s) x (mtn_tail s) (ct s) (should_panic s).
Definition set_mtn_tail x s := Bst (bufs s) (lru s) (bdisk s) (present s) (wakes s) (jsblock_buf s)
  (jtrans_header_buf s) (jtail_bnum s) (trans_write_lock s) (mtns s) (mtn_head s) x (ct s) (should_panic s).
Definition set_ct x s := Bst (bufs s) (lru s) (bdisk s) (present s) (wakes s) (jsblock_buf s)
  (jtrans_header_buf s) (jtail_bnum s) (trans_write_lock s) (mtns s) (mtn_head s) (mtn_tail s) x (should_panic s).

(** The driver's view of the state, between requests. *)
Definition ide_view (s : bst) : ide_st hist := IdeSt (bufs s) [] (present s) (bdisk s) None (wakes s).
Definition set_ide_view (t : ide_st hist) (s : bst) : bst :=
  Bst (i_bufs t) (lru s) (i_disk t) (present s) (i_wakeups t) (jsblock_buf s)
  (jtrans_header_buf s) (jtail_bnum s) (trans_write_lock s) (mtns s) (mtn_head s) (mtn_tail s) (ct s) (should_panic s).

(** ** Accessors *)

Definition getb (i : nat) : M bst buf :=
  let! s := get in of_option "wild buffer pointer" (bufs s !! i).
Definition updb (i : nat) (f : buf -> buf) : M bst unit :=
  let! b := getb i in modify (fun s => set_bufs (<[i := f b]> (bufs s)) s).

(** [jsb->field] and [jt->field]: the data of the two journal buffers. *)
Definition jsb_buf : M bst nat := let! s := get in of_option "jsb is null" (jsblock_buf s).
Definition jsb_get (f : block -> Z) : M bst Z :=
  let! i := jsb_buf in let! b := getb i in ret (f (data b)).
Definition jsb_set (f : block -> block) : M bst unit :=
  let! i := jsb_buf in updb i (fun b => set_data (f (data b)) b).
Definition jt_buf : M bst nat := let! s := get in of_option "jt is null" (jtrans_header_buf s).
Definition jt_set (f : block -> block) : M bst unit :=
  let! i := jt_buf in updb i (fun b => set_data (f (data b)) b).

Definition wakeup (c : chan) : M bst unit := modify (fun s => set_wakes (c :: wakes s) s).
Definition ide_rw (i : nat) : M bst unit := zoom ide_view set_ide_view (Ide.ide_rw i).

(** [while(xchg(&lock->locked, 1) == 1) ;]: with no other processor to
    release it, spins forever on a lock already taken. *)
Definition acquire_sl : M bst unit := fun s =>
  if trans_write_lock s then Spin s else Ret tt (set_trans_write_lock true s).
Definition release_sl : M bst unit := modify (set_trans_write_lock false).

(** ** The cache *)

(** The first buffer in link order that satisfies [f]. *)
Fixpoint find_buf (f : buf -> bool) (bs : list buf) (l : list nat) : option nat :=
  match l with
  | [] => None
  | i :: l => match bs !! i with
              | Some b => if f b then Some i else find_buf f bs l
              | None => find_buf f bs l
              end
  end.

Definition caches (dv sec : Z) (b : buf) : bool :=
  has (Z.lor B_BUSY B_VALID) b && (dev b =? dv) && (sector b =? sec).
Definition not_busy (b : buf) : bool := negb (has B_BUSY b).

(** Every buffer is linked in at the front. *)
Definition binit (nbuf : nat) (s : bst) : bst :=
  set_lru (foldl (fun l i => i :: l) [] (seq 0 nbuf)) s.

Definition bcheck (dv sec : Z) : M bst Z :=
  let! s := get in
  ret (match find_buf (caches dv sec) (bufs s) (lru s) with Some _ => 1 | None => 0 end).

Definition bget (dv sec : Z) : M bst nat :=
  let! s := get in
  match find_buf (caches dv sec) (bufs s) (lru s) with
  | Some i =>
      let! b := getb i in
      if has B_BUSY b then sleep_on (ChBuf 0)
      else updb i (or_flags B_BUSY) ;; ret i
  | None =>
      match find_buf not_busy (bufs s) (rev (lru s)) with
      | Some i => updb i (fun b => Buf B_BUSY dv sec (faliable b) (data b)) ;; ret i
      | None => panic "bget: no buffers"
      end
  end.

Definition bread (dv sec : Z) : M bst nat :=
  let! i := bget dv sec in
  let! b := getb i in
  (if negb (has B_VALID b) then ide_rw i else ret tt) ;;
  ret i.

Definition bwrite (i : nat) : M bst unit :=
  let! b := getb i in
  if negb (has B_BUSY b) then panic "bwrite"
  else updb i (or_flags B_DIRTY) ;;
       modify (fun s => set_ct (MemTrans (i :: t_bufs (ct s)) (t_term (ct s)) (u32 (t_size (ct s) + 1))) s).

(** Unlinks the buffer and links it in at the front. *)
Definition jbrelse (i : nat) : M bst unit :=
  let! b := getb i in
  if negb (has B_BUSY b) then panic "brelse"
  else modify (fun s => set_lru (i :: filter (fun j => j <> i) (lru s)) s) ;;
       updb i (clear_flags B_BUSY) ;;
       wakeup (ChBuf 0).

Definition brelse (i : nat) : M bst unit :=
  let! b := getb i in
  if negb (has B_BUSY b) then panic "brelse"
  else let! s := get in
       if (t_size (ct s) =? 0) || negb (has B_DIRTY b) then jbrelse i else ret tt.

(** ** The journal *)

(** The inner loop of jfull_flush: write a transaction's buffers to their
    home sectors and release them. *)
Definition flush_buf (i : nat) : M bst unit :=
  let! b := getb i in
  if ctrue (faliable b) then panic "Testing PBj0!"
  else ide_rw i ;; jbrelse i.

Definition flush_trans (t : mem_trans) : M bst unit :=
  mfor (t_bufs t) flush_buf ;;
  if t_term t then ret tt else undef "t_data_node link never set".

Definition get_mtn (p : mptr) : M bst mtn :=
  let! s := get in
  match p with
  | Node k => of_option "mem_trans_node" (mtns s !! k)
  | Null => undef "null mem_trans_node"
  | Junk => undef "mem_trans_node link never set"
  end.

(** [for(curr_mtn = mtn_head; curr_mtn != curr_tail->next; curr_mtn = curr_mtn->next)] *)
Fixpoint flush_list (fuel : nat) (cur stop : mptr) : M bst unit :=
  if decide (cur = stop) then ret tt
  else match fuel with
       | O => fun s => Spin s
       | S fuel =>
           let! n := get_mtn cur in
           flush_trans (mtn_trans n) ;;
           let! n := get_mtn cur in
           flush_list fuel (mtn_next n) stop
       end.

(** A null [mtn_head] means there is nothing to flush.  A list of [n] nodes
    is walked in at most [n] steps unless it is cyclic. *)
Definition jfull_flush : M bst unit :=
  let! curr_tail := gets mtn_tail in
  let! h := gets mtn_head in
  if decide (h = Null) then ret tt
  else
    acquire_sl ;;
    let! h := gets mtn_head in
    (if decide (h = Null) then ret tt
     else
       let! tl := get_mtn curr_tail in
       let! nn := gets (fun s => length (mtns s)) in
       flush_list nn h (mtn_next tl) ;;
       jsb_set (fun d => set_jsb_time 0 (set_jsb_head 3 (set_jsb_tail 3 d))) ;;
       let! j := jsb_buf in
       updb j (or_flags B_DIRTY) ;;
       updb j (or_flags B_BUSY) ;;
       ide_rw j ;;
       let! tl := get_mtn curr_tail in
       modify (set_mtn_head (mtn_next tl)) ;;
       modify (set_jtail_bnum 3)) ;;
    release_sl.

(** Writes the buffer to the next journal block, through its own sector
    field. *)
Definition jbwrite (i : nat) : M bst unit :=
  let! b := getb i in
  let orig_sector := sector b in
  let! jt := gets jtail_bnum in
  updb i (set_sector jt) ;;
  updb i (or_flags B_DIRTY) ;;
  ide_rw i ;;
  updb i (set_sector orig_sector) ;;
  updb i (or_flags B_BUSY) ;;
  modify (fun s => set_jtail_bnum (u32 (jtail_bnum s + 1)) s) ;;
  let! jt := gets jtail_bnum in
  let! sz := jsb_get jsb_size in
  if u32 (sz + 2) <? jt then jfull_flush else ret tt.

(** [jt->blocklist[k] = sector] for the transaction's buffers, in list
    order; past entry 125 the store would leave the buffer. *)
Fixpoint set_blocklist (k : Z) (l : list nat) : M bst unit :=
  match l with
  | [] => ret tt
  | i :: l =>
      let! b := getb i in
      (if k <? jt_room then jt_set (set_jt_entry k (sector b)) else undef "blocklist overflow") ;;
      set_blocklist (k + 1) l
  end.

Definition resetcurtrans : M bst unit := modify (set_ct (MemTrans [] true 0)).

(** The loop that copies the transaction's buffers to the journal. *)
Definition commit_buf (i : nat) : M bst unit :=
  jbwrite i ;;
  updb i (or_flags B_DIRTY) ;;
  let! sp := gets should_panic in
  updb i (set_faliable sp).

Definition end_trans : M bst unit :=
  let! c := gets ct in
  if t_size c =? 0 then ret tt
  else
    acquire_sl ;;
    jt_set (set_jt_checksum 106) ;;            (* 'j' *)
    jt_set (set_jt_ndata (t_size c)) ;;
    set_blocklist 0 (t_bufs c) ;;
    let! h := jt_buf in
    updb h (or_flags B_DIRTY) ;;
    updb h (or_flags B_BUSY) ;;
    jbwrite h ;;
    mfor (t_bufs c) commit_buf ;;
    let! jt := gets jtail_bnum in
    jsb_set (set_jsb_tail (u32 (jt - 1))) ;;
    jsb_set (set_jsb_time 0) ;;
    let! j := jsb_buf in
    updb j (or_flags B_DIRTY) ;;
    ide_rw j ;;
    let! k := gets (fun s => length (mtns s)) in
    modify (fun s => set_mtns (mtns s ++ [Mtn c Null]) s) ;;
    let! hd := gets mtn_head in
    (if decide (hd = Null) then modify (set_mtn_head (Node k)) ;; modify (set_mtn_tail (Node k))
     else
       let! tl := gets mtn_tail in
       let! n := get_mtn tl in
       match tl with
       | Node t => modify (fun s => set_mtns (<[t := Mtn (mtn_trans n) (Node k)]> (mtns s)) s)
       | _ => ret tt
       end) ;;
    release_sl ;;
    resetcurtrans.

(** ** Recovery *)

(** [for(bnum = 0; bnum < jsb->size; bnum++) journal_blocks[bnum] = bread(dev, bnum + 3);] *)
Fixpoint read_journal (dv bnum : Z) (n : nat) : M bst (list nat) :=
  match n with
  | O => ret []
  | S n => let! i := bread dv (bnum + 3) in
           let! l := read_journal dv (bnum + 1) n in
           ret (i :: l)
  end.

(** [journal_blocks[z]]: undefined outside the array. *)
Definition jblock (jb : list nat) (z : Z) : M bst nat :=
  if z <? 0 then undef "journal_blocks" else of_option "journal_blocks" (jb !! Z.to_nat z).

(** [jt->blocklist[k]], undefined past the 512 bytes of the block. *)
Definition block_entry (hdr : block) (k : Z) : M bst Z :=
  if k <? jt_room then ret (jt_entry k hdr) else undef "blocklist overflow".

(** [for(tran_d_blk = bnum+2; tran_d_blk <= bnum + mt->size; tran_d_blk++)],
    from [t] to [last]: each block of the transaction is retargeted to the
    sector its header lists.  The buffers, in order.  An index past the
    array is undefined, so the array's length bounds the loop. *)
Fixpoint retarget (fuel : nat) (jb : list nat) (hdr : block) (bnum last t : Z) : M bst (list nat) :=
  if last <? t then ret []
  else match fuel with
       | O => fun s => Spin s
       | S fuel =>
           let! i := jblock jb t in
           updb i (or_flags B_DIRTY) ;;
           let! sec := block_entry hdr (t - bnum - 1) in
           updb i (set_sector sec) ;;
           let! l := retarget fuel jb hdr bnum last (t + 1) in
           ret (i :: l)
       end.

(** The buffers of the transaction whose header is block [bnum]; the first
    data block is taken whatever the size says. *)
Definition read_txn (jb : list nat) (hdr : block) (bnum : Z) : M bst (list nat) :=
  let! i := jblock jb (bnum + 1) in
  updb i (set_sector (jt_entry 0 hdr)) ;;
  updb i (or_flags B_DIRTY) ;;
  let! l := retarget (length jb) jb hdr bnum (u32 (bnum + jt_ndata hdr)) (bnum + 2) in
  ret (i :: l).

(** A transaction found in the journal is appended to the list. *)
Definition append_mtn (fresh0 : bool) (t : mem_trans) : M bst unit :=
  let! k := gets (fun s => length (mtns s)) in
  let! tl := gets mtn_tail in
  if decide (tl = Null) then
    modify (fun s => set_mtns (mtns s ++ [Mtn t Null]) s) ;;
    modify (set_mtn_head (Node k)) ;; modify (set_mtn_tail (Node k))
  else
    let! n := get_mtn tl in
    modify (fun s => set_mtns (mtns s ++ [Mtn t (if fresh0 then Null else Junk)]) s) ;;
    match tl with
    | Node i => modify (fun s => set_mtns (<[i := Mtn (mtn_trans n) (Node k)]> (mtns s)) s)
    | _ => ret tt
    end ;;
    modify (set_mtn_tail (Node k)).

(** The replay loop from block [bnum] of the journal; false when a header's
    checksum is wrong, on which pbjFSck returns at once. *)
Fixpoint replay_journal (fresh0 : bool) (fuel : nat) (jb : list nat) (bnum : Z) : M bst bool :=
  let! tail := jsb_get jsb_tail in
  if u32 bnum <? u32 (tail - 3) then
    match fuel with
    | O => fun s => Spin s
    | S fuel =>
        let! h := jblock jb bnum in
        let! b := getb h in
        let hdr := data b in
        let size := jt_ndata hdr in
        let! l := read_txn jb hdr bnum in
        if jt_checksum hdr =? 106 then
          append_mtn fresh0 (MemTrans l (fresh0 || (bnum + 2 <=? u32 (bnum + size))) size) ;;
          replay_journal fresh0 fuel jb (s32 (bnum + size + 1))
        else ret false
    end
  else ret true.

(** [if((journal_blocks[bnum]->flags & B_BUSY) != 0) jbrelse(..)] *)
Definition release_busy (i : nat) : M bst unit :=
  let! b := getb i in if has B_BUSY b then jbrelse i else ret tt.

Definition pbjFSck (fresh0 : bool) (dv : Z) : M bst unit :=
  let! j := bread dv 2 in
  modify (set_jsblock_buf (Some j)) ;;
  let! n := jsb_get jsb_size in
  let! jb := read_journal dv 0 (Z.to_nat n) in
  let! head := jsb_get jsb_head in
  let! tail := jsb_get jsb_tail in
  let! ok :=
    (if head <? tail then replay_journal fresh0 (S (length jb)) jb (s32 (head - 3))
     else modify (set_mtn_tail Null) ;; modify (set_mtn_head Null) ;; ret true) in
  if (ok : bool) then
    jfull_flush ;;
    mfor jb release_busy ;;
    let! h := bread dv 3 in
    modify (set_jtrans_header_buf (Some h))
  else ret tt.

(** The state the kernel boots in: zeroed globals, [binit] done. *)
Definition boot (nbuf : nat) (d : image) : bst :=
  binit nbuf (Bst (replicate nbuf zero_buf) [] (Hist d []) true [] None None 3 false [] Null Null
                  (MemTrans [] true 0) 0).

(** ** Execution lemmas *)

Definition set_io bs d w s := Bst bs (lru s) d (present s) w (jsblock_buf s)
  (jtrans_header_buf s) (jtail_bnum s) (trans_write_lock s) (mtns s) (mtn_head s) (mtn_tail s) (ct s) (should_panic s).

Lemma getb_ret i b s : bufs s !! i = Some b -> getb i s = Ret b s.
Proof. intros Hb. unfold getb, bind, get, of_option. by rewrite Hb. Qed.

Lemma updb_ret i f b s :
  bufs s !! i = Some b -> updb i f s = Ret tt (set_bufs (<[i := f b]> (bufs s)) s).
Proof. intros Hb. unfold updb, bind. by rewrite (getb_ret i b). Qed.

Lemma ide_rw_ret i b s :
  bufs s !! i = Some b -> ide_check (present s) b = None ->
  ide_rw i s = Ret tt (set_io (<[i := sync_buf (bdisk s) b]> (bufs s)) (sync_disk (bdisk s) b)
                              (ChBuf i :: wakes s) s).
Proof.
  intros Hb Hc. unfold ide_rw, zoom, ide_view.
  by rewrite (ide_rw_performs (bufs s) i b (present s) (bdisk s) (wakes s)).
Qed.

Lemma jsb_buf_ret j s : jsblock_buf s = Some j -> jsb_buf s = Ret j s.
Proof. intros Hj. unfold jsb_buf, bind, get, of_option. by rewrite Hj. Qed.

Lemma jsb_get_ret j b f s :
  jsblock_buf s = Some j -> bufs s !! j = Some b -> jsb_get f s = Ret (f (data b)) s.
Proof.
  intros Hj Hb. unfold jsb_get. rewrite (bind_ret _ _ _ _ _ (jsb_buf_ret j s Hj)).
  by rewrite (bind_ret _ _ _ _ _ (getb_ret j b s Hb)).
Qed.

Lemma jsb_set_ret j b f s :
  jsblock_buf s = Some j -> bufs s !! j = Some b ->
  jsb_set f s = Ret tt (set_bufs (<[j := set_data (f (data b)) b]> (bufs s)) s).
Proof.
  intros Hj Hb. unfold jsb_set. rewrite (bind_ret _ _ _ _ _ (jsb_buf_ret j s Hj)).
  by rewrite (updb_ret j _ b).
Qed.

Lemma jt_buf_ret h s : jtrans_header_buf s = Some h -> jt_buf s = Ret h s.
Proof. intros Hh. unfold jt_buf, bind, get, of_option. by rewrite Hh. Qed.

Lemma jt_set_ret h b f s :
  jtrans_header_buf s = Some h -> bufs s !! h = Some b ->
  jt_set f s = Ret tt (set_bufs (<[h := set_data (f (data b)) b]> (bufs s)) s).
Proof.
  intros Hh Hb. unfold jt_set. rewrite (bind_ret _ _ _ _ _ (jt_buf_ret h s Hh)).
  by rewrite (updb_ret h _ b).
Qed.

Lemma get_mtn_ret k n s : mtns s !! k = Some n -> get_mtn (Node k) s = Ret n s.
Proof. intros Hn. unfold get_mtn, bind, get, of_option. by rewrite Hn. Qed.

Lemma set_bufs_bufs a b s : set_bufs a (set_bufs b s) = set_bufs a s.
Proof. done. Qed.

Lemma set_bufs_io a b d w s : set_bufs a (set_io b d w s) = set_io a d w s.
Proof. done. Qed.

Lemma lookup_insert_len {A} (l : list A) i x y : l !! i = Some y -> <[i := x]> l !! i = Some x.
Proof. intros H. apply list_lookup_insert_eq. by apply lookup_lt_Some in H. Qed.

(** Reduces projections and updates of an explicit state. *)
Ltac st_eval t :=
  eval cbv beta iota delta
      [bufs lru bdisk present wakes jsblock_buf jtrans_header_buf jtail_bnum trans_write_lock mtns
       mtn_head mtn_tail ct should_panic set_bufs set_lru set_wakes set_jsblock_buf
       set_jtrans_header_buf set_jtail_bnum set_trans_write_lock set_mtns set_mtn_head set_mtn_tail
       set_ct set_io set_ide_view i_bufs i_disk i_wakeups flags dev sector faliable data set_sector set_data
       set_faliable] in t.
Ltac st_simpl :=
  lazymatch goal with
  | |- bind ?m ?k ?s = ?r => let s' := st_eval s in change (bind m k s' = r)
  | |- ?m ?s = Ret ?x ?r => let s' := st_eval s in change (m s' = Ret x r)
  | |- ?g => let g' := st_eval g in change g'
  end.

(** The content of a buffer after updates, from what is known before them. *)
Ltac buf_lookup :=
  st_simpl;
  repeat first
    [ eassumption
    | reflexivity
    | rewrite list_lookup_insert_eq by (rewrite ?length_insert; first [eassumption | lia])
    | rewrite list_lookup_insert_ne by first [eassumption | congruence | lia] ].

(** One statement: a read or update of the globals, or one with an execution
    lemma [L]. *)
Ltac run_pure :=
  lazymatch goal with
  | |- bind (gets ?f) ?k ?s = ?r => let v := st_eval (f s) in change (k v s = r); cbv beta
  | |- bind (modify ?f) ?k ?s = ?r => let s' := st_eval (f s) in change (k tt s' = r); cbv beta
  | |- modify ?f ?s = ?r => let s' := st_eval (f s) in change (Ret tt s' = r)
  | |- bind (bind _ _) _ _ = _ => rewrite bind_assoc
  end.
Ltac run_with tac := erewrite bind_ret by tac; cbv beta; st_simpl; rewrite ?list_insert_insert_eq.
Ltac run L := run_with ltac:(eapply L; buf_lookup).
