(* ===== verification/Cache.v ===== *)
(** * bio.c: the buffer cache

    What bread, brelse and the LRU list do, and the invariant that makes the
    cache a synchronization point: one buffer per cached sector, and the
    clean buffers equal to the disk. *)

From S2P Require Import Prelude Layout Ide Bio.

(** ** Searching the cache *)

Lemma find_buf_none f bs l :
  (forall i b, i ∈ l -> bs !! i = Some b -> f b = false) -> find_buf f bs l = None.
Proof.
  induction l as [|i l IH]; intros H; [done|]. simpl.
  assert (IH' : find_buf f bs l = None)
    by (apply IH; intros k b Hk; apply H; by apply list_elem_of_further).
  destruct (bs !! i) as [b|] eqn:Hb; [|done]. by rewrite (H i b (list_elem_of_here _ _) Hb).
Qed.

Lemma find_buf_some f bs l i :
  find_buf f bs l = Some i -> i ∈ l /\ exists b, bs !! i = Some b /\ f b = true.
Proof.
  induction l as [|k l IH]; [done|]. simpl. intros H.
  destruct (bs !! k) as [b|] eqn:Hb; [destruct (f b) eqn:Hf|].
  - injection H as <-. split; [apply list_elem_of_here|eauto].
  - destruct (IH H) as [Hi ?]. split; [by apply list_elem_of_further|done].
  - destruct (IH H) as [Hi ?]. split; [by apply list_elem_of_further|done].
Qed.

Lemma find_buf_is_some f bs l i b :
  i ∈ l -> bs !! i = Some b -> f b = true -> is_Some (find_buf f bs l).
Proof.
  intros Hi Hb Hf. destruct (find_buf f bs l) eqn:E; [eauto|exfalso].
  induction l as [|k l IH]; [by apply not_elem_of_nil in Hi|]. simpl in E.
  apply elem_of_cons in Hi as [->|Hi]; [by rewrite Hb, Hf in E|].
  destruct (bs !! k) as [b'|]; [destruct (f b'); [done|]|]; auto.
Qed.

Lemma find_buf_app f bs l1 l2 :
  find_buf f bs l1 = None -> find_buf f bs (l1 ++ l2) = find_buf f bs l2.
Proof.
  induction l1 as [|i l1 IH]; [done|]. simpl. destruct (bs !! i); [case_match; [done|]|]; auto.
Qed.

(** ** The invariant *)

Definition live (b : buf) : bool := has (Z.lor B_BUSY B_VALID) b.

(** A buffer nobody holds agrees with the disk unless it is dirty. *)
Definition coherent_buf (d : hist) (b : buf) : Prop :=
  has B_BUSY b = false -> has B_VALID b = true -> has B_DIRTY b = false ->
  data b = dread d (b_drive b) (b_lba b).

(** Every buffer is on the list once, and no sector has two. *)
Record cache_wf (s : bst) : Prop := {
  inv_lru : lru s ≡ₚ seq 0 (length (bufs s));
  inv_unique i j bi bj :
    bufs s !! i = Some bi -> bufs s !! j = Some bj -> live bi = true -> live bj = true ->
    dev bi = dev bj -> sector bi = sector bj -> i = j }.

Record cache_inv (s : bst) : Prop := {
  inv_wf : cache_wf s;
  inv_coherent i b : bufs s !! i = Some b -> coherent_buf (bdisk s) b }.

Lemma inv_in_lru s i b : cache_wf s -> bufs s !! i = Some b -> i ∈ lru s.
Proof.
  intros Hs Hb. rewrite (inv_lru s Hs). apply elem_of_seq. apply lookup_lt_Some in Hb. lia.
Qed.

Lemma caches_spec dv sec b : caches dv sec b = true <-> live b = true /\ dev b = dv /\ sector b = sec.
Proof. unfold caches, live. rewrite !andb_true_iff, !Z.eqb_eq. tauto. Qed.

(** The buffer that caches a sector, if any. *)
Definition cached (s : bst) (dv sec : Z) : option nat := find_buf (caches dv sec) (bufs s) (lru s).

Lemma cached_some s dv sec i :
  cached s dv sec = Some i -> exists b, bufs s !! i = Some b /\ caches dv sec b = true.
Proof. intros H. by apply find_buf_some in H as [_ H]. Qed.

Lemma cached_none s dv sec i b :
  cache_wf s -> cached s dv sec = None -> bufs s !! i = Some b -> caches dv sec b = false.
Proof.
  intros Hs Hn Hb. destruct (caches dv sec b) eqn:E; [|done]. exfalso.
  destruct (find_buf_is_some (caches dv sec) (bufs s) (lru s) i b) as [k Hk]; [by eapply inv_in_lru|done|done|].
  unfold cached in Hn. by rewrite Hn in Hk.
Qed.

(** The buffer bget recycles: the least recently released one nobody holds. *)
Definition victim (s : bst) : option nat := find_buf not_busy (bufs s) (rev (lru s)).

Definition disk_block (s : bst) (dv sec : Z) : block := dread (bdisk s) (Z.land dv 1) (sec mod 2 ^ 28).

Lemma bread_hit s dv sec i b :
  cached s dv sec = Some i -> bufs s !! i = Some b -> has B_BUSY b = false ->
  bread dv sec s = Ret i (set_bufs (<[i := or_flags B_BUSY b]> (bufs s)) s).
Proof.
  intros Hc Hb Hbusy. destruct (cached_some _ _ _ _ Hc) as (b' & Hb' & Hlive).
  rewrite Hb in Hb'. injection Hb' as <-. apply caches_spec in Hlive as (Hlive & _ & _).
  unfold live in Hlive. rewrite has_lor, Hbusy in Hlive. simpl in Hlive.
  pose proof (lookup_lt_Some _ _ _ Hb) as Hlt.
  unfold bread. erewrite bind_ret; last first.
  { unfold bget. erewrite bind_ret by reflexivity. unfold cached in Hc. rewrite Hc.
    erewrite bind_ret by (by apply getb_ret). rewrite Hbusy.
    erewrite bind_ret by (by apply updb_ret). reflexivity. }
  erewrite bind_ret; last first.
  { apply getb_ret. simpl. by apply list_lookup_insert_eq. }
  assert (Hv : has B_VALID (or_flags B_BUSY b) = true).
  { rewrite has_valid in Hlive. flag_simpl. by rewrite Hlive. }
  by rewrite Hv.
Qed.

Lemma bread_busy s dv sec i b :
  cached s dv sec = Some i -> bufs s !! i = Some b -> has B_BUSY b = true ->
  bread dv sec s = Sleep (ChBuf 0) s.
Proof.
  intros Hc Hb Hbusy. unfold bread, bind at 1, bget. unfold bind at 1, get. unfold cached in Hc.
  rewrite Hc. erewrite bind_ret by (by apply getb_ret). by rewrite Hbusy.
Qed.

Lemma bread_full s dv sec :
  cached s dv sec = None -> victim s = None -> bread dv sec s = Panic "bget: no buffers" s.
Proof.
  intros Hc Hv. unfold bread, bind at 1, bget. unfold bind at 1, get. unfold cached in Hc.
  unfold victim in Hv. by rewrite Hc, Hv.
Qed.

Lemma bread_miss s dv sec i b :
  cached s dv sec = None -> victim s = Some i -> bufs s !! i = Some b -> dv = 0 \/ present s = true ->
  bread dv sec s
    = Ret i (set_io (<[i := Buf 3 dv sec (faliable b) (disk_block s dv sec)]> (bufs s))
               (bdisk s) (ChBuf i :: wakes s) s).
Proof.
  intros Hc Hv Hb Hdv. pose proof (lookup_lt_Some _ _ _ Hb) as Hlt.
  unfold bread. erewrite bind_ret; last first.
  { unfold bget. erewrite bind_ret by reflexivity. unfold cached in Hc. unfold victim in Hv. rewrite Hc, Hv.
    erewrite bind_ret by (by apply updb_ret). reflexivity. }
  erewrite bind_ret; last first.
  { apply getb_ret. simpl. by apply list_lookup_insert_eq. }
  change (negb (has B_VALID (Buf B_BUSY dv sec (faliable b) (data b)))) with true. cbv iota.
  erewrite bind_ret; last first.
  { apply ide_rw_ret; [simpl; by apply list_lookup_insert_eq|].
    destruct Hdv as [->| Hp]; [done|]. unfold ide_check. simpl. rewrite Hp. by rewrite andb_false_r. }
  simpl. rewrite list_insert_insert_eq. done.
Qed.

(** Changing one buffer keeps the cache well formed if it does not become a
    second copy of a sector, and the invariant if it stays coherent. *)
Lemma cache_wf_update s s' i b0 b :
  cache_wf s -> bufs s !! i = Some b0 -> bufs s' = <[i := b]> (bufs s) -> lru s' ≡ₚ lru s ->
  (forall k bk, k <> i -> bufs s !! k = Some bk -> live bk = true -> live b = true ->
     dev bk = dev b -> sector bk <> sector b) ->
  cache_wf s'.
Proof.
  intros Hs Hi Hbs Hl Hu. pose proof (lookup_lt_Some _ _ _ Hi) as Hlt. split.
  - rewrite Hl, Hbs, length_insert. by apply inv_lru.
  - intros k1 k2 b1 b2. rewrite Hbs. intros H1 H2 L1 L2 D S.
    apply list_lookup_insert_Some in H1 as [(<- & <- & _)|[Hne1 H1]];
      apply list_lookup_insert_Some in H2 as [(<- & <- & _)|[Hne2 H2]].
    + done.
    + exfalso. by apply (Hu k2 b2).
    + exfalso. by apply (Hu k1 b1).
    + by apply (inv_unique s Hs k1 k2 b1 b2).
Qed.

Lemma cache_inv_update s s' i b0 b :
  cache_inv s -> bufs s !! i = Some b0 -> bufs s' = <[i := b]> (bufs s) -> lru s' ≡ₚ lru s ->
  bdisk s' = bdisk s -> coherent_buf (bdisk s) b ->
  (forall k bk, k <> i -> bufs s !! k = Some bk -> live bk = true -> live b = true ->
     dev bk = dev b -> sector bk <> sector b) ->
  cache_inv s'.
Proof.
  intros Hs Hi Hbs Hl Hd Hc Hu. split; [by eapply cache_wf_update; [apply Hs|..]|].
  intros k bk. rewrite Hbs, Hd. intros [(<- & <- & _)|[Hne Hk]]%list_lookup_insert_Some; [done|].
  by apply (inv_coherent s Hs k).
Qed.

(** Keeping the sector and being live already is enough. *)
Lemma cache_inv_same s s' i b0 b :
  cache_inv s -> bufs s !! i = Some b0 -> bufs s' = <[i := b]> (bufs s) -> lru s' ≡ₚ lru s ->
  bdisk s' = bdisk s -> coherent_buf (bdisk s) b ->
  live b0 = true -> dev b = dev b0 -> sector b = sector b0 -> cache_inv s'.
Proof.
  intros Hs Hi Hbs Hl Hd Hc L0 D S. eapply cache_inv_update; try done.
  intros k bk Hk Hbk Lk _ Dk Sk. apply Hk. apply (inv_unique s (inv_wf s Hs) k i bk b0); congruence.
Qed.

Lemma busy_coherent d b : has B_BUSY b = true -> coherent_buf d b.
Proof. intros H H'. congruence. Qed.

Lemma busy_live b : has B_BUSY b = true -> live b = true.
Proof. intros H. unfold live. rewrite has_lor. by rewrite H. Qed.

Lemma or_busy b : has B_BUSY (or_flags B_BUSY b) = true.
Proof. by flag_simpl. Qed.

(** The sector as it is now: a copy that is locked or dirty, else the disk's. *)
Definition block_view (s : bst) (dv sec : Z) : block :=
  match cached s dv sec ≫= (fun i => bufs s !! i) with
  | Some b => if has B_BUSY b || has B_DIRTY b then data b else disk_block s dv sec
  | None => disk_block s dv sec
  end.

(** C16: bread, whenever the sector is not held by someone and there is a
    buffer to use, returns a locked, valid buffer for exactly that sector
    with its current contents, which are the disk's unless the cached copy
    is dirty; the disk and every other buffer are untouched and the cache
    invariant is kept. *)
Theorem bread_correct (s : bst) (dv sec : Z) :
  cache_inv s -> dv = 0 \/ present s = true ->
  (forall i b, cached s dv sec = Some i -> bufs s !! i = Some b -> has B_BUSY b = false) ->
  (cached s dv sec = None -> is_Some (victim s)) ->
  exists i b s',
    bread dv sec s = Ret i s' /\ bufs s' !! i = Some b /\
    has B_BUSY b = true /\ has B_VALID b = true /\ dev b = dv /\ sector b = sec /\
    data b = block_view s dv sec /\
    (has B_DIRTY b = false -> data b = disk_block s dv sec) /\
    bdisk s' = bdisk s /\ (forall k, k <> i -> bufs s' !! k = bufs s !! k) /\ cache_inv s'.
Proof.
  intros Hs Hdv Hfree Hvic. unfold block_view. destruct (cached s dv sec) as [i|] eqn:Hc.
  - destruct (cached_some _ _ _ _ Hc) as (b & Hb & Hcs). specialize (Hfree i b eq_refl Hb).
    apply caches_spec in Hcs as (Hl & Hd & Hsec). pose proof (lookup_lt_Some _ _ _ Hb) as Hlt.
    pose proof Hl as Hv. unfold live in Hv. rewrite has_lor, Hfree in Hv. simpl in Hv.
    assert (Hco : has B_DIRTY b = false -> data b = disk_block s dv sec).
    { intros Hdirty. unfold disk_block. rewrite <-Hd, <-Hsec. by apply (inv_coherent s Hs i b Hb Hfree Hv). }
    exists i, (or_flags B_BUSY b), (set_bufs (<[i := or_flags B_BUSY b]> (bufs s)) s). simpl. rewrite Hb, Hfree.
    split_and!; [by apply bread_hit|by apply list_lookup_insert_eq|apply or_busy| |done|done| | |done| |].
    + flag_simpl. by rewrite Hv.
    + simpl. destruct (has B_DIRTY b); auto.
    + intros Hdirty. apply Hco. by flag_simpl.
    + intros k Hk. simpl. by apply list_lookup_insert_ne.
    + eapply (cache_inv_same s _ i b (or_flags B_BUSY b)); try done. apply busy_coherent, or_busy.
  - destruct (Hvic eq_refl) as [i Hi]. destruct (find_buf_some _ _ _ _ Hi) as (_ & b & Hb & Hnb).
    pose proof (lookup_lt_Some _ _ _ Hb) as Hlt. simpl.
    exists i, (Buf 3 dv sec (faliable b) (disk_block s dv sec)),
      (set_io (<[i := Buf 3 dv sec (faliable b) (disk_block s dv sec)]> (bufs s)) (bdisk s) (ChBuf i :: wakes s) s).
    split_and!; [by apply bread_miss|by apply list_lookup_insert_eq|done..| |].
    + intros k Hk. simpl. by apply list_lookup_insert_ne.
    + eapply (cache_inv_update s _ i b (Buf 3 dv sec (faliable b) (disk_block s dv sec))); try done.
      intros k bk Hk Hbk Lk _ Dk Sk. pose proof (cached_none s dv sec k bk (inv_wf s Hs) Hc Hbk) as Hf.
      apply not_true_iff_false in Hf. apply Hf. by apply caches_spec.
Qed.

(** ** brelse *)

(** The state after jbrelse. *)
Definition release_buf (i : nat) (b : buf) (s : bst) : bst :=
  set_wakes (ChBuf 0 :: wakes s)
    (set_bufs (<[i := clear_flags B_BUSY b]> (bufs s)) (set_lru (i :: filter (fun k => k <> i) (lru s)) s)).

Lemma jbrelse_ret i b s :
  bufs s !! i = Some b -> has B_BUSY b = true -> jbrelse i s = Ret tt (release_buf i b s).
Proof.
  intros Hb Hbusy. unfold jbrelse. erewrite bind_ret by (by apply getb_ret). rewrite Hbusy.
  cbn [negb]. erewrite bind_ret by reflexivity. erewrite bind_ret by (by apply updb_ret). done.
Qed.

Lemma clear_busy b :
  has B_BUSY (clear_flags B_BUSY b) = false /\ has B_VALID (clear_flags B_BUSY b) = has B_VALID b /\
  has B_DIRTY (clear_flags B_BUSY b) = has B_DIRTY b.
Proof. flag_simpl. done. Qed.

(** A buffer its holder may give back: unchanged since it was read, or
    marked dirty. *)
Definition returnable (d : hist) (b : buf) : Prop :=
  has B_VALID b = true -> has B_DIRTY b = false -> data b = dread d (b_drive b) (b_lba b).

Lemma release_inv s i b :
  cache_inv s -> bufs s !! i = Some b -> has B_BUSY b = true -> returnable (bdisk s) b ->
  cache_inv (release_buf i b s).
Proof.
  intros Hs Hb Hbusy Hr. eapply (cache_inv_same s _ i b (clear_flags B_BUSY b)); try done.
  - apply filter_perm; [|eapply inv_in_lru; [apply Hs|done]]. rewrite (inv_lru s (inv_wf s Hs)). apply NoDup_seq.
  - destruct (clear_busy b) as (_ & Ev & Ed). unfold coherent_buf. rewrite Ev, Ed. intros _ Hv Hd. by apply Hr.
  - by apply busy_live.
Qed.

(** Brelse of a locked buffer either leaves it locked, when it is a
    modified block of the transaction in progress, or unlocks it, makes it
    the most recently used and wakes the waiters; the cache invariant is kept
    in both cases. *)
Theorem brelse_correct (s : bst) (i : nat) (b : buf) :
  cache_inv s -> bufs s !! i = Some b -> has B_BUSY b = true -> returnable (bdisk s) b ->
  exists s',
    brelse i s = Ret tt s' /\ cache_inv s' /\ bdisk s' = bdisk s /\
    if ctrue (t_size (ct s)) && has B_DIRTY b then s' = s
    else head (lru s') = Some i /\ bufs s' !! i = Some (clear_flags B_BUSY b) /\
         wakes s' = ChBuf 0 :: wakes s /\ (forall k, k <> i -> bufs s' !! k = bufs s !! k).
Proof.
  intros Hs Hb Hbusy Hr. unfold ctrue.
  exists (if negb (t_size (ct s) =? 0) && has B_DIRTY b then s else release_buf i b s).
  assert (E : brelse i s = Ret tt (if negb (t_size (ct s) =? 0) && has B_DIRTY b then s else release_buf i b s)).
  { unfold brelse. erewrite bind_ret by (by apply getb_ret). rewrite Hbusy. cbn [negb].
    erewrite bind_ret by reflexivity.
    destruct (t_size (ct s) =? 0), (has B_DIRTY b); simpl; [by apply jbrelse_ret..|done|by apply jbrelse_ret]. }
  pose proof (release_inv s i b Hs Hb Hbusy Hr) as Hinv. pose proof (lookup_lt_Some _ _ _ Hb) as Hlt.
  destruct (negb (t_size (ct s) =? 0) && has B_DIRTY b); split_and!; try done.
  - by apply list_lookup_insert_eq.
  - intros k Hk. by apply list_lookup_insert_ne.
Qed.

(** C40: a locked buffer makes any bread of its sector sleep on the buffer
    table, and brelse of a buffer that is not locked panics: locking is
    mutual exclusion between processes. *)
Theorem busy_excludes (s : bst) (i : nat) (b : buf) :
  cache_inv s -> bufs s !! i = Some b ->
  if has B_BUSY b then bread (dev b) (sector b) s = Sleep (ChBuf 0) s
  else brelse i s = Panic "brelse" s /\ bwrite i s = Panic "bwrite" s.
Proof.
  intros Hs Hb. destruct (has B_BUSY b) eqn:Hbusy.
  - destruct (cached s (dev b) (sector b)) as [k|] eqn:Hc.
    + destruct (cached_some _ _ _ _ Hc) as (bk & Hbk & Hlk). apply caches_spec in Hlk as (Lk & Dk & Sk).
      assert (k = i) as -> by (apply (inv_unique s (inv_wf s Hs) k i bk b); auto using busy_live).
      rewrite Hb in Hbk. injection Hbk as <-. by eapply bread_busy.
    + pose proof (cached_none s _ _ i b (inv_wf s Hs) Hc Hb) as Hf. exfalso. apply not_true_iff_false in Hf.
      apply Hf. apply caches_spec. split_and!; [by apply busy_live|done|done].
  - unfold brelse, bwrite. erewrite !bind_ret by (by apply getb_ret). by rewrite Hbusy.
Qed.

(** ** Reading a block and giving it back *)

Lemma cached_iff s dv sec i b :
  cache_wf s -> bufs s !! i = Some b -> caches dv sec b = true -> cached s dv sec = Some i.
Proof.
  intros Hs Hb Hc. destruct (cached s dv sec) as [k|] eqn:E.
  - destruct (cached_some _ _ _ _ E) as (bk & Hbk & Hck). f_equal.
    apply caches_spec in Hc as (? & ? & ?). apply caches_spec in Hck as (? & ? & ?).
    apply (inv_unique s Hs k i bk b); congruence.
  - pose proof (cached_none s dv sec i b Hs E Hb). congruence.
Qed.

Lemma view_cached s dv sec i b :
  cache_wf s -> bufs s !! i = Some b -> caches dv sec b = true ->
  block_view s dv sec = if has B_BUSY b || has B_DIRTY b then data b else disk_block s dv sec.
Proof. intros Hs Hb Hc. unfold block_view. rewrite (cached_iff s dv sec i b Hs Hb Hc). simpl. by rewrite Hb. Qed.

Lemma view_uncached s dv sec :
  cache_wf s -> (forall i b, bufs s !! i = Some b -> caches dv sec b = false) ->
  block_view s dv sec = disk_block s dv sec.
Proof.
  intros Hs Hn. unfold block_view. destruct (cached s dv sec) as [k|] eqn:E; [|done].
  destruct (cached_some _ _ _ _ E) as (b & Hb & Hc). by rewrite (Hn k b Hb) in Hc.
Qed.

(** The sector cannot be read now: someone holds its buffer, or the cached
    copy is behind the disk, as a commit leaves copies of the journal's own
    sectors, which it writes past the cache. *)
Definition held (s : bst) (dv sec : Z) : Prop :=
  exists i b, bufs s !! i = Some b /\ caches dv sec b = true /\
    (has B_BUSY b = true \/ data b <> disk_block s dv sec).

(** The buffers nobody holds. *)
Definition nfree (s : bst) : nat := count not_busy (bufs s).

(** A cache between transactions' writes: well formed, with an unlocked
    buffer to use, the unlocked ones clean, and both disks there. *)
Record calm (s : bst) : Prop := {
  calm_wf : cache_wf s;
  calm_disk : present s = true;
  calm_flags i b : bufs s !! i = Some b -> has B_BUSY b = false -> flags b = 0 \/ flags b = B_VALID;
  calm_free : (0 < nfree s)%nat }.

Lemma calm_clean s i b : calm s -> bufs s !! i = Some b -> has B_BUSY b = false -> has B_DIRTY b = false.
Proof. intros Hs Hb Hn. unfold has. by destruct (calm_flags s Hs i b Hb Hn) as [-> | ->]. Qed.

(** All but the buffers, their order, the disk and the wakeups. *)
Definition globals (s : bst) :=
  (present s, (jsblock_buf s, jtrans_header_buf s, jtail_bnum s), (trans_write_lock s, mtns s, mtn_head s, mtn_tail s),
   ct s, should_panic s).

(** Nothing a file system routine could notice has changed. *)
Record same_view (s s' : bst) : Prop := {
  sv_disk : bdisk s' = bdisk s;
  sv_globals : globals s' = globals s;
  sv_view dv sec : block_view s' dv sec = block_view s dv sec;
  sv_held dv sec : held s' dv sec -> held s dv sec;
  sv_busy i b : has B_BUSY b = true -> bufs s' !! i = Some b <-> bufs s !! i = Some b;
  sv_nfree : nfree s' = nfree s }.

Lemma same_view_refl s : same_view s s.
Proof. by split. Qed.
Lemma same_view_trans a b c : same_view a b -> same_view b c -> same_view a c.
Proof.
  intros [D1 C1 V1 H1 J1 F1] [D2 C2 V2 H2 J2 F2]. split.
  - congruence.
  - congruence.
  - intros. by rewrite V2, V1.
  - auto.
  - intros. by rewrite J2, J1.
  - congruence.
Qed.

Lemma victim_some s : calm s -> is_Some (victim s).
Proof.
  intros Hs. destruct (count_pos not_busy (bufs s) (calm_free s Hs)) as (i & b & Hb & Hn).
  eapply find_buf_is_some; [|exact Hb|done].
  rewrite <-Permutation_rev. by eapply inv_in_lru; [apply Hs|].
Qed.

(** An unlocked buffer shows what the disk holds. *)
Lemma view_clean s i b dv sec :
  calm s -> bufs s !! i = Some b -> has B_BUSY b = false -> caches dv sec b = true ->
  block_view s dv sec = disk_block s dv sec.
Proof.
  intros Hs Hb Hn Hc. rewrite (view_cached s _ _ i b (calm_wf s Hs) Hb Hc). by rewrite Hn, (calm_clean s i b Hs Hb Hn).
Qed.

Lemma unheld_copy s dv sec i b :
  ~ held s dv sec -> bufs s !! i = Some b -> caches dv sec b = true -> has B_BUSY b = false /\ data b = disk_block s dv sec.
Proof.
  intros Hh Hb Hc. split.
  - apply not_true_iff_false. intros ?. apply Hh. exists i, b. auto.
  - destruct (decide (data b = disk_block s dv sec)); [done|]. exfalso. apply Hh. exists i, b. auto.
Qed.

Lemma view_unheld s dv sec : calm s -> ~ held s dv sec -> block_view s dv sec = disk_block s dv sec.
Proof.
  intros Hs Hh. destruct (cached s dv sec) as [i|] eqn:E.
  - destruct (cached_some _ _ _ _ E) as (b & Hb & Hc). apply (view_clean s i b); try done.
    apply not_true_iff_false. intros ?. apply Hh. exists i, b. auto.
  - apply view_uncached; [apply Hs|]. intros i b Hb. by eapply cached_none; [apply Hs| |].
Qed.

(** Reusing an unlocked buffer does not change what the sectors it is not for
    show. *)
Lemma view_other s s' i b0 b dv sec :
  calm s -> cache_wf s' -> bdisk s' = bdisk s -> bufs s !! i = Some b0 -> has B_BUSY b0 = false ->
  bufs s' !! i = Some b -> (forall k, k <> i -> bufs s' !! k = bufs s !! k) -> caches dv sec b = false ->
  block_view s' dv sec = block_view s dv sec.
Proof.
  intros Hs Hinv Hd Hb0 Hn0 Hbi Hbk Ec. pose proof (calm_wf s Hs) as Hi.
  assert (Hun : (forall k bk, bufs s !! k = Some bk -> k <> i -> caches dv sec bk = false) ->
    block_view s' dv sec = disk_block s dv sec).
  { intros H. unfold disk_block. rewrite <-Hd. apply view_uncached; [done|]. intros m bm Hm.
    destruct (decide (m = i)) as [->|Hmi]; [congruence|]. rewrite Hbk in Hm by done. by apply (H m). }
  destruct (cached s dv sec) as [k|] eqn:E.
  - destruct (cached_some _ _ _ _ E) as (bk & Hk & Hck). destruct (decide (k = i)) as [->|Hne].
    + rewrite Hb0 in Hk. injection Hk as <-. rewrite (view_clean s i b0 dv sec) by done. apply Hun. intros m bm Hm Hmi.
      destruct (caches dv sec bm) eqn:Em; [|done]. pose proof (cached_iff s dv sec m bm Hi Hm Em). congruence.
    + rewrite (view_cached s _ _ k bk Hi Hk Hck), (view_cached s' dv sec k bk Hinv) by (by rewrite ?Hbk).
      unfold disk_block. by rewrite Hd.
  - assert (Hnone : forall m bm, bufs s !! m = Some bm -> caches dv sec bm = false)
      by (intros m bm Hm; exact (cached_none s dv sec m bm Hi E Hm)).
    rewrite (view_uncached s dv sec Hi Hnone). apply Hun. intros m bm Hm _. by apply (Hnone m).
Qed.

(** The state after bread and brelse of an unheld sector: buffer [i] holds
    it, unlocked. *)
Definition touched (i : nat) (b : buf) (w : list chan) (s : bst) : bst :=
  Bst (<[i := b]> (bufs s)) (i :: filter (fun k => k <> i) (lru s)) (bdisk s) (present s) w (jsblock_buf s)
      (jtrans_header_buf s) (jtail_bnum s) (trans_write_lock s) (mtns s) (mtn_head s) (mtn_tail s) (ct s) (should_panic s).

Lemma touched_view s i b0 b w :
  calm s -> bufs s !! i = Some b0 -> has B_BUSY b0 = false -> flags b = B_VALID -> data b = disk_block s (dev b) (sector b) ->
  (forall k bk, k <> i -> bufs s !! k = Some bk -> caches (dev b) (sector b) bk = false) ->
  calm (touched i b w s) /\ same_view s (touched i b w s).
Proof.
  intros Hs Hb0 Hn0 Hfl Hdata Hother. pose proof (calm_wf s Hs) as Hi.
  assert (Hnb : has B_BUSY b = false) by (unfold has; by rewrite Hfl).
  pose proof (lookup_lt_Some _ _ _ Hb0) as Hlt.
  assert (Hinv : cache_wf (touched i b w s)).
  { eapply (cache_wf_update s _ i b0 b); try done.
    - apply filter_perm; [|by eapply inv_in_lru]. rewrite (inv_lru s Hi). apply NoDup_seq.
    - intros k bk Hk Hbk Lk _ Dk Sk. specialize (Hother k bk Hk Hbk). apply not_true_iff_false in Hother.
      apply Hother. by apply caches_spec. }
  assert (Hbi : bufs (touched i b w s) !! i = Some b) by (by apply list_lookup_insert_eq).
  assert (Hbk : forall k, k <> i -> bufs (touched i b w s) !! k = bufs s !! k)
    by (intros k Hk; by apply list_lookup_insert_ne).
  assert (Hnf : nfree (touched i b w s) = nfree s).
  { pose proof (count_insert not_busy (bufs s) i b0 b Hb0) as Hc. unfold not_busy in Hc at 2 4. rewrite Hn0, Hnb in Hc.
    simpl in Hc. unfold nfree. simpl. lia. }
  split; [split|split]; try done.
  - by apply Hs.
  - intros k bk Hk Hn. destruct (decide (k = i)) as [->|Hne]; [rewrite Hbi in Hk; injection Hk as <-; by right|].
    rewrite Hbk in Hk by done. by apply (calm_flags s Hs k).
  - rewrite Hnf. apply Hs.
  - intros dv sec. destruct (caches dv sec b) eqn:Ec.
    + rewrite (view_cached _ _ _ i b Hinv Hbi Ec), Hnb. replace (has B_DIRTY b) with false by (unfold has; by rewrite Hfl).
      apply caches_spec in Ec as (_ & <- & <-). simpl. change (disk_block (touched i b w s)) with (disk_block s).
      destruct (caches (dev b) (sector b) b0) eqn:E0; [by rewrite (view_clean s i b0)|]. symmetry. apply view_uncached; [done|].
      intros k bk Hk. destruct (decide (k = i)) as [->|Hne]; [congruence|]. by apply (Hother k).
    + by apply (view_other s _ i b0 b).
  - intros dv sec (k & bk & Hk & Hck & Hbusy). destruct (decide (k = i)) as [->|Hne].
    + rewrite Hbi in Hk. injection Hk as <-. apply caches_spec in Hck as (_ & <- & <-). by destruct Hbusy as [?|[]]; [congruence|].
    + exists k, bk. by rewrite Hbk in Hk.
  - intros k bk Hk. destruct (decide (k = i)) as [->|Hne]; [|by rewrite Hbk].
    rewrite Hbi, Hb0. split; intros [= <-]; congruence.
Qed.

Lemma brelse_clean i b s :
  bufs s !! i = Some b -> has B_BUSY b = true -> has B_DIRTY b = false ->
  brelse i s = Ret tt (release_buf i b s).
Proof.
  intros Hb Hbusy Hd. unfold brelse. erewrite bind_ret by (by apply getb_ret). rewrite Hbusy. cbn [negb].
  erewrite bind_ret by reflexivity. rewrite Hd, orb_true_r. by apply jbrelse_ret.
Qed.

(** Locking and unlocking a buffer. *)
Definition cycle (b : buf) : buf := clear_flags B_BUSY (or_flags B_BUSY b).

(** Reading an unheld sector and releasing it: the data is the current
    contents, and nothing changes. *)
Lemma read_release s dv sec :
  calm s -> ~ held s dv sec ->
  exists i b s1 s2,
    bread dv sec s = Ret i s1 /\ bufs s1 !! i = Some b /\ data b = block_view s dv sec /\
    brelse i s1 = Ret tt s2 /\ calm s2 /\ same_view s s2.
Proof.
  intros Hs Hh. pose proof (calm_wf s Hs) as Hi. destruct (cached s dv sec) as [i|] eqn:E.
  - destruct (cached_some _ _ _ _ E) as (b & Hb & Hc). pose proof (lookup_lt_Some _ _ _ Hb) as Hlt.
    destruct (unheld_copy s dv sec i b Hh Hb Hc) as [Hnb Hdk].
    pose proof (calm_clean s i b Hs Hb Hnb) as Hnd. pose proof Hc as Hc'. apply caches_spec in Hc' as (L & D & S).
    unfold live in L. rewrite has_lor, Hnb in L. simpl in L.
    assert (Hfl : flags b = B_VALID) by (destruct (calm_flags s Hs i b Hb Hnb) as [E0|]; [|done]; unfold has in L; by rewrite E0 in L).
    assert (Hcf : flags (cycle b) = B_VALID) by (unfold cycle, clear_flags, or_flags, set_flags; simpl; by rewrite Hfl).
    set (s1 := set_bufs (<[i := or_flags B_BUSY b]> (bufs s)) s).
    assert (Hb1 : bufs s1 !! i = Some (or_flags B_BUSY b)) by (by apply list_lookup_insert_eq).
    destruct (touched_view s i b (cycle b) (ChBuf 0 :: wakes s)) as [Hcalm Hsame]; try done.
    { simpl. by rewrite D, S. }
    { intros k bk Hk Hbk. destruct (caches _ _ bk) eqn:Ek; [|done]. exfalso. apply Hk.
      pose proof (cached_iff s _ _ k bk Hi Hbk Ek) as Ek'. cbn in Ek'. rewrite D, S in Ek'. congruence. }
    exists i, (or_flags B_BUSY b), s1, (touched i (cycle b) (ChBuf 0 :: wakes s) s).
    split_and!; [by apply bread_hit|done|by rewrite (view_clean s i b)| |done|done].
    rewrite (brelse_clean i (or_flags B_BUSY b) s1 Hb1 (or_busy b)) by (flag_simpl; by rewrite Hnd).
    unfold release_buf, touched, s1. simpl. by rewrite list_insert_insert_eq.
  - destruct (victim_some s Hs) as [i Hv]. destruct (find_buf_some _ _ _ _ Hv) as (_ & b & Hb & Hnb).
    unfold not_busy in Hnb. apply negb_true_iff in Hnb. pose proof (lookup_lt_Some _ _ _ Hb) as Hlt.
    set (b1 := Buf 3 dv sec (faliable b) (disk_block s dv sec)).
    set (s1 := set_io (<[i := b1]> (bufs s)) (bdisk s) (ChBuf i :: wakes s) s).
    assert (Hb1 : bufs s1 !! i = Some b1) by (by apply list_lookup_insert_eq).
    destruct (touched_view s i b (clear_flags B_BUSY b1) (ChBuf 0 :: ChBuf i :: wakes s)) as [Hcalm Hsame]; try done.
    { intros k bk Hk Hbk. exact (cached_none s dv sec k bk Hi E Hbk). }
    exists i, b1, s1, (touched i (clear_flags B_BUSY b1) (ChBuf 0 :: ChBuf i :: wakes s) s).
    split_and!; [|done| | |done|done].
    + apply bread_miss; try done. right. apply Hs.
    + symmetry. apply view_uncached; [done|]. intros k bk Hbk. exact (cached_none s dv sec k bk Hi E Hbk).
    + rewrite (brelse_clean i b1 s1 Hb1) by done. unfold release_buf, touched, s1. simpl. by rewrite list_insert_insert_eq.
Qed.

Lemma same_view_wakes s w : same_view s (set_wakes w s).
Proof. split; try done. Qed.
Lemma calm_wakes s w : calm s -> calm (set_wakes w s).
Proof. intros [[H1 H2] H4 H5 H6]. split; done. Qed.

(** ** The invariant at boot *)

Lemma foldl_cons_rev {A} (l acc : list A) : foldl (fun a x => x :: a) acc l = rev l ++ acc.
Proof.
  revert acc. induction l as [|x l IH]; intros acc; [done|]. simpl. by rewrite IH, <-app_assoc.
Qed.

Lemma boot_inv n d : cache_inv (boot n d).
Proof.
  split; [split|].
  - simpl. rewrite foldl_cons_rev, app_nil_r, length_replicate. symmetry. apply Permutation_rev.
  - simpl. intros i j bi bj [-> _]%lookup_replicate _ Hl. done.
  - simpl. intros i b [-> _]%lookup_replicate _ Hv. done.
Qed.

(** Reading sector 7 of an empty disk at boot. *)
Lemma bread_correct_witness :
  exists i b s', bread 1 7 (boot 2 ∅) = Ret i s' /\ bufs s' !! i = Some b /\ data b = zero_block.
Proof.
  destruct (bread_correct (boot 2 ∅) 1 7) as (i & b & s' & E & Hb & _ & _ & _ & _ & Hd & _).
  - apply boot_inv.
  - right. reflexivity.
  - intros i b Hc. discriminate Hc.
  - intros _. vm_compute. eexists. reflexivity.
  - exists i, b, s'. split; [exact E|]. split; [exact Hb|]. rewrite Hd. reflexivity.
Defined.

(** Two buffers, one of them locked by a reader of sector 7. *)
Definition demo_state : bst :=
  set_bufs [Buf 3 1 7 0 zero_block; zero_buf] (boot 2 ∅).

Lemma demo_inv : cache_inv demo_state.
Proof.
  eapply (cache_inv_update (boot 2 ∅) demo_state 0%nat zero_buf); try done; [apply boot_inv|].
  simpl. intros [|[|k]] bk Hk Hb Hl; [done| |]; simpl in Hb; [injection Hb as <-|]; done.
Qed.

Lemma brelse_correct_witness :
  exists s', brelse 0 demo_state = Ret tt s' /\ head (lru s') = Some 0%nat.
Proof.
  destruct (brelse_correct demo_state 0 (Buf 3 1 7 0 zero_block)) as (s' & E & _ & _ & Hh & _).
  - apply demo_inv.
  - reflexivity.
  - reflexivity.
  - intros _ _. reflexivity.
  - exists s'. split; [exact E|exact Hh].
Defined.

Lemma busy_excludes_witness :
  bread 1 7 demo_state = Sleep (ChBuf 0) demo_state /\ brelse 1 demo_state = Panic "brelse" demo_state.
Proof.
  split.
  - apply (busy_excludes demo_state 0 (Buf 3 1 7 0 zero_block)); [apply demo_inv|reflexivity].
  - apply (busy_excludes demo_state 1 zero_buf); [apply demo_inv|reflexivity].
Defined.
