(* ===== verification/Recover.v ===== *)
(** * pbjFSck: what recovery makes of a disk image *)

From S2P Require Import Prelude Layout Ide Bio Cache Journal.

(** ** Reading back writes *)

Lemma replay_app a b d : replay_writes (a ++ b) d = replay_writes b (replay_writes a d).
Proof. unfold replay_writes. by rewrite foldl_app. Qed.

Lemma replay_cons w ws d : replay_writes (w :: ws) d = replay_writes ws (apply_write d w).
Proof. done. Qed.

Lemma replay_other ws d dv sec :
  Forall (fun w => (w.1.1, w.1.2) <> (dv, sec)) ws -> dread (replay_writes ws d) dv sec = dread d dv sec.
Proof.
  revert d. induction ws as [|w ws IH]; intros d Hw; [done|]. apply Forall_cons in Hw as [Hne Hw].
  rewrite replay_cons, IH by done. unfold apply_write. by apply (dread_dwrite_ne (D := image)).
Qed.

Lemma replay_last ws d dv sec b : dread (replay_writes (ws ++ [(dv, sec, b)]) d) dv sec = b.
Proof. rewrite replay_app, replay_cons. by apply (dread_dwrite_eq (D := image)). Qed.

Lemma data_writes_elem b ds w : w ∈ data_writes b ds -> w.1.1 = ROOTDEV /\ b <= w.1.2 < b + Z.of_nat (length ds).
Proof.
  revert b. induction ds as [|x ds IH]; intros b Hw; simpl in Hw; [by apply not_elem_of_nil in Hw|].
  apply elem_of_cons in Hw as [->|Hw]; simpl length; [simpl; lia|]. specialize (IH _ Hw). lia.
Qed.

Lemma data_writes_read b ds d i x :
  ds !! i = Some x -> dread (replay_writes (data_writes b ds) d) ROOTDEV (b + Z.of_nat i) = x.
Proof.
  revert b d i. induction ds as [|y ds IH]; intros b d i Hi; [done|].
  cbn [data_writes]. rewrite replay_cons. destruct i as [|i].
  - injection Hi as <-. rewrite Z.add_0_r, replay_other; [by apply (dread_dwrite_eq (D := image))|].
    apply Forall_forall. intros w Hw%data_writes_elem [= _ E]. lia.
  - simpl in Hi. replace (b + Z.of_nat (S i)) with (b + 1 + Z.of_nat i) by lia. by apply IH.
Qed.

Lemma length_data_writes b ds : length (data_writes b ds) = length ds.
Proof. revert b. induction ds; intros b; simpl; auto. Qed.

Lemma home_writes_elem t w : w ∈ home_writes t -> exists sd, sd ∈ t /\ w = (ROOTDEV, sd.1, sd.2).
Proof. intros H. apply list_elem_of_fmap in H as (sd & -> & Hsd). eauto. Qed.

Lemma home_writes_read t d sd :
  NoDup t.*1 -> sd ∈ t -> dread (replay_writes (home_writes t) d) ROOTDEV sd.1 = sd.2.
Proof.
  revert d. induction t as [|x t IH]; intros d Hnd Hin; [by apply not_elem_of_nil in Hin|].
  simpl in Hnd. apply NoDup_cons in Hnd as [Hx Hnd].
  change (home_writes (x :: t)) with ((ROOTDEV, x.1, x.2) :: home_writes t). rewrite replay_cons.
  apply elem_of_cons in Hin as [->|Hin]; [|by apply IH].
  rewrite replay_other; [by apply (dread_dwrite_eq (D := image))|].
  apply Forall_forall. intros w (sd & Hsd & ->)%home_writes_elem [= E]. apply Hx. rewrite <-E.
  by apply list_elem_of_fmap_2.
Qed.

(** ** The journal of an image *)

(** Transaction [t] lies at block [b] of a journal of [N] blocks: a valid
    header and the data blocks after it. *)
Definition txn_at (d : image) (N b : Z) (t : txn) : Prop :=
  let hdr := dread d ROOTDEV b in
  jt_checksum hdr = 106 /\ jt_ndata hdr = Z.of_nat (length t) /\
  1 <= Z.of_nat (length t) <= jt_room /\ b + Z.of_nat (length t) < N + 3 /\
  (forall k sd, t !! k = Some sd ->
    jt_entry (Z.of_nat k) hdr = sd.1 /\ dread d ROOTDEV (b + 1 + Z.of_nat k) = sd.2).

(** The transactions from block [b] up to the recorded tail. *)
Fixpoint journal_has (d : image) (N b tail : Z) (ts : list txn) : Prop :=
  match ts with
  | [] => tail <= b
  | t :: ts => b < tail /\ txn_at d N b t /\ journal_has d N (b + 1 + Z.of_nat (length t)) tail ts
  end.

(** ** Reading the journal at boot *)

Section boot.
Context (d : image).

(** The buffer of a sector just read. *)
Definition rd (sec : Z) : buf := Buf 3 ROOTDEV sec 0 (dread d ROOTDEV sec).

Definition reading (jo : option nat) (secs : list Z) (k : nat) (w : list chan) : bst :=
  Bst (map rd secs ++ replicate k zero_buf) (rev (seq 0 (length secs + k))) (Hist d []) true w jo None 3
      false [] Null Null (MemTrans [] true 0) 0.

Lemma boot_bufs_lookup secs k i b :
  (map rd secs ++ replicate k zero_buf) !! i = Some b ->
  (exists sec, sec ∈ secs /\ b = rd sec /\ (i < length secs)%nat) \/ (b = zero_buf /\ (length secs <= i)%nat).
Proof.
  intros H. apply lookup_app_Some in H as [H|[Hge H]].
  - left. pose proof (lookup_lt_Some _ _ _ H) as Hlt. rewrite length_map in Hlt.
    rewrite list_lookup_fmap in H. apply fmap_Some in H as (sec & Hs & ->).
    exists sec. split_and!; [|done|done]. by eapply list_elem_of_lookup_2.
  - right. rewrite length_map in Hge. by apply lookup_replicate in H as [-> _].
Qed.

Lemma bread_boot jo secs k w sec :
  sec ∉ secs -> 0 <= sec < 2 ^ 28 ->
  exists w', bread ROOTDEV sec (reading jo secs (S k) w)
             = Ret (length secs) (reading jo (secs ++ [sec]) k w').
Proof.
  intros Hs Hr. eexists. unfold bread, reading. set (bs := map rd secs ++ replicate (S k) zero_buf).
  assert (Hfree : bs !! length secs = Some zero_buf).
  { unfold bs. rewrite lookup_app_r by (by rewrite length_map).
    by rewrite length_map, Nat.sub_diag. }
  pose proof (lookup_lt_Some _ _ _ Hfree) as Hlt.
  assert (Hget : find_buf (caches ROOTDEV sec) bs (rev (seq 0 (length secs + S k))) = None).
  { apply find_buf_none. intros i b _ Hb.
    apply boot_bufs_lookup in Hb as [(x & Hx & -> & _)|[-> _]]; [|done].
    unfold caches, rd. cbn [sector]. destruct (Z.eqb_spec x sec) as [->|]; [done|]. by rewrite andb_false_r. }
  assert (Hfind : find_buf not_busy bs (rev (rev (seq 0 (length secs + S k)))) = Some (length secs)).
  { rewrite rev_involutive, seq_app. simpl. rewrite find_buf_app.
    - simpl. by rewrite Hfree.
    - apply find_buf_none. intros i b Hi Hb. apply elem_of_seq in Hi.
      apply boot_bufs_lookup in Hb as [(x & Hx & -> & _)|[_ Hge]]; [done|lia]. }
  erewrite bind_ret; last first.
  { unfold bget. erewrite bind_ret by reflexivity. cbn [bufs lru]. rewrite Hget, Hfind.
    run updb_ret. reflexivity. }
  st_simpl. run getb_ret. change (negb _) with true. cbv iota.
  run_with ltac:(eapply ide_rw_ret; [buf_lookup|reflexivity]).
  assert (E : <[length secs := rd sec]> bs = map rd (secs ++ [sec]) ++ replicate k zero_buf).
  { unfold bs. rewrite insert_app_r_alt by (by rewrite length_map).
    rewrite length_map, Nat.sub_diag, map_app. simpl. by rewrite <-app_assoc. }
  assert (Eb : sync_buf (Hist d []) (Buf B_BUSY ROOTDEV sec 0 zero_block) = rd sec).
  { unfold sync_buf, b_lba. cbn [sector]. by rewrite Z.mod_small by lia. }
  change (sync_buf _ _) with (sync_buf (Hist d []) (Buf B_BUSY ROOTDEV sec 0 zero_block)).
  rewrite Eb, E, length_app. simpl length. replace (length secs + 1 + k)%nat with (length secs + S k)%nat by lia.
  reflexivity.
Qed.

(** The whole journal ends up in consecutive buffers. *)
Lemma read_journal_boot jo n secs k w b :
  secs = seqZ 2 (b + 1) -> 0 <= b -> b + Z.of_nat n < 2 ^ 27 ->
  exists w', read_journal ROOTDEV b n (reading jo secs (n + k) w)
             = Ret (seq (length secs) n) (reading jo (seqZ 2 (b + 1 + Z.of_nat n)) k w').
Proof.
  revert secs w b. induction n as [|n IH]; intros secs w b -> Hb Hr.
  { exists w. simpl. by rewrite Z.add_0_r. }
  destruct (bread_boot jo (seqZ 2 (b + 1)) (n + k) w (b + 3)) as [w1 E1]; [|lia|].
  { rewrite elem_of_seqZ. lia. }
  assert (Es : seqZ 2 (b + 1) ++ [b + 3] = seqZ 2 (b + 1 + 1)).
  { rewrite (seqZ_app 2 (b + 1) 1) by lia. f_equal. change ([b + 3] = [0 + (2 + (b + 1))]). f_equal. lia. }
  rewrite Es in E1.
  destruct (IH (seqZ 2 (b + 1 + 1)) w1 (b + 1) eq_refl) as [w2 E2]; [lia|lia|].
  exists w2. cbn [read_journal]. rewrite (bind_ret _ _ _ _ _ E1), (bind_ret _ _ _ _ _ E2).
  unfold ret. rewrite !length_seqZ. replace (Z.to_nat (b + 1 + 1)) with (S (Z.to_nat (b + 1))) by lia.
  by replace (b + 1 + Z.of_nat (S n)) with (b + 1 + 1 + Z.of_nat n) by lia.
Qed.

End boot.

(** ** Rebuilding the transaction list *)

(** The list pbjFSck builds: nodes allocated one after the other, each
    linked to the next. *)
Fixpoint mk_mtns (k : nat) (trs : list mem_trans) : list mtn :=
  match trs with
  | [] => []
  | [t] => [Mtn t Null]
  | t :: trs => Mtn t (Node (S k)) :: mk_mtns (S k) trs
  end.
Definition mk_head (trs : list mem_trans) : mptr := match trs with [] => Null | _ => Node 0 end.
Definition mk_tail (trs : list mem_trans) : mptr := match trs with [] => Null | _ => Node (length trs - 1) end.

Lemma mk_mtns_cons k t trs :
  trs <> [] -> mk_mtns k (t :: trs) = Mtn t (Node (S k)) :: mk_mtns (S k) trs.
Proof. by destruct trs. Qed.

Lemma length_mk_mtns k trs : length (mk_mtns k trs) = length trs.
Proof.
  revert k. induction trs as [|t trs IH]; intros k; [done|]. destruct trs as [|t' trs]; [done|].
  rewrite mk_mtns_cons by done. change (S (length (mk_mtns (S k) (t' :: trs))) = S (length (t' :: trs))). by rewrite IH.
Qed.

Lemma mk_mtns_last k trs t :
  mk_mtns k (trs ++ [t]) !! length trs = Some (Mtn t Null).
Proof.
  revert k. induction trs as [|t0 trs IH]; intros k; [done|]. simpl app.
  rewrite mk_mtns_cons by (by destruct trs). simpl. apply IH.
Qed.

Lemma mk_mtns_snoc k trs t0 t :
  mk_mtns k (trs ++ [t0; t])
    = <[length trs := Mtn t0 (Node (k + length trs + 1))]> (mk_mtns k (trs ++ [t0]) ++ [Mtn t Null]).
Proof.
  revert k. induction trs as [|t1 trs IH]; intros k.
  - simpl. do 3 f_equal. lia.
  - rewrite <-!app_comm_cons.
    rewrite (mk_mtns_cons k t1 (trs ++ [t0])), mk_mtns_cons, IH by (by destruct trs).
    by replace (S k + length trs + 1)%nat with (k + S (length trs) + 1)%nat by lia.
Qed.

Lemma mk_mtns_chain ms k trs :
  Forall (fun t => t_term t = true) trs -> trs <> [] ->
  (forall i n, mk_mtns k trs !! i = Some n -> ms !! (k + i)%nat = Some n) ->
  chain ms (Node k) (map t_bufs trs) Null.
Proof.
  revert k. induction trs as [|t trs IH]; intros k Ht Hne Hms; [done|].
  apply Forall_cons in Ht as [Ht0 Ht]. destruct t as [l tm sz]. simpl in Ht0. subst tm.
  destruct trs as [|t' trs].
  - eapply chain_cons; [|done|apply chain_nil].
    specialize (Hms 0%nat _ eq_refl). by rewrite Nat.add_0_r in Hms.
  - rewrite mk_mtns_cons in Hms by done. eapply (chain_cons ms k l sz (Node (S k))).
    + specialize (Hms 0%nat _ eq_refl). by rewrite Nat.add_0_r in Hms.
    + done.
    + apply IH; [done|done|]. intros i n Hi. specialize (Hms (S i) n Hi).
      by replace (S k + i)%nat with (k + S i)%nat by lia.
Qed.

Lemma exists_last_dec {A} (l : list A) : l = [] \/ exists l' x, l = l' ++ [x].
Proof. destruct l as [|x l] using rev_ind; [by left|right; eauto]. Qed.

Section replay.
Context (lr : list nat) (dk : hist) (w : list chan) (N : nat).

(** The state of the replay loop: [trs] found so far. *)
Definition recov (trs : list mem_trans) (bs : list buf) : bst :=
  Bst bs lr dk true w (Some 0%nat) None 3 false (mk_mtns 0 trs) (mk_head trs) (mk_tail trs)
      (MemTrans [] true 0) 0.

Lemma append_mtn_ret trs t bs : append_mtn true t (recov trs bs) = Ret tt (recov (trs ++ [t]) bs).
Proof.
  unfold append_mtn, recov. run_pure. run_pure.
  destruct (exists_last_dec trs) as [->|(trs' & t0 & ->)].
  - done.
  - replace (mk_tail (trs' ++ [t0])) with (Node (length trs'))
      by (unfold mk_tail; destruct trs'; simpl; f_equal; rewrite ?length_app; simpl; lia).
    rewrite decide_False by done. run_with ltac:(eapply get_mtn_ret; apply mk_mtns_last).
    run_pure. run_pure. run_pure. rewrite length_mk_mtns, <-app_assoc, length_app. cbn [mtn_trans app].
    rewrite mk_mtns_snoc. simpl.
    replace (mk_head (trs' ++ [t0])) with (mk_head (trs' ++ [t0; t])) by (by destruct trs').
    replace (mk_tail (trs' ++ [t0; t])) with (Node (length trs' + 1))
      by (unfold mk_tail; destruct trs'; simpl; f_equal; rewrite ?length_app; simpl; lia).
    done.
Qed.

(** Buffer [k + 1] holds journal block [k]. *)
Lemma jblock_ret z s : 0 <= z < Z.of_nat N -> jblock (seq 1 N) z s = Ret (S (Z.to_nat z)) s.
Proof.
  intros Hz. unfold jblock. destruct (Z.ltb_spec z 0); [lia|].
  by rewrite (lookup_seq_lt 1 N (Z.to_nat z)) by lia.
Qed.

Lemma retarget_ret trs hdr (bn : nat) r bs k fuel :
  (forall i sd, r !! i = Some sd ->
     jt_entry (Z.of_nat (k + i)) hdr = sd.1 /\
     exists sec, bs !! (bn + k + i + 2)%nat = Some (Buf 3 ROOTDEV sec 0 sd.2)) ->
  (bn + 1 + k + length r <= N)%nat -> (k + length r <= 126)%nat -> (length r <= fuel)%nat ->
  exists bs',
    retarget fuel (seq 1 N) hdr (Z.of_nat bn) (Z.of_nat (bn + k + length r)) (Z.of_nat (bn + 1 + k)) (recov trs bs)
      = Ret (seq (bn + k + 2) (length r)) (recov trs bs') /\
    holds (eq 0) bs' (seq (bn + k + 2) (length r)) r /\ length bs' = length bs /\
    (forall i, i ∉ seq (bn + k + 2) (length r) -> bs' !! i = bs !! i).
Proof.
  revert bs k fuel. induction r as [|sd r IH]; intros bs k fuel Hr HN Hk Hf.
  { exists bs. destruct fuel; simpl; (destruct (Z.ltb_spec (Z.of_nat (bn + k + 0)) (Z.of_nat (bn + 1 + k))); [|lia]);
      repeat split; constructor. }
  simpl length in *. destruct fuel as [|fuel]; [lia|]. cbn [retarget].
  destruct (Z.ltb_spec (Z.of_nat (bn + k + S (length r))) (Z.of_nat (bn + 1 + k))); [lia|].
  destruct (Hr 0%nat sd eq_refl) as (Hent & sec & Hb). rewrite Nat.add_0_r in *.
  pose proof (lookup_lt_Some _ _ _ Hb) as Hlt.
  set (ix := (bn + k + 2)%nat) in *.
  destruct (IH (<[ix := Buf 7 ROOTDEV sd.1 0 sd.2]> bs) (S k) fuel) as (bs' & E & Hh & HL & Ha); [|lia|lia|lia|].
  { intros i sd' Hi. destruct (Hr (S i) sd' Hi) as (He & sec' & Hb'). split.
    - by replace (S k + i)%nat with (k + S i)%nat by lia.
    - exists sec'. rewrite list_lookup_insert_ne by lia. by replace (bn + S k + i + 2)%nat with (bn + k + S i + 2)%nat by lia. }
  exists bs'. replace (bn + S k + 2)%nat with (S ix) in * by lia. split_and!.
  - erewrite bind_ret by (apply jblock_ret; lia).
    replace (S (Z.to_nat (Z.of_nat (bn + 1 + k)))) with ix by lia.
    unfold recov. run updb_ret. unfold block_entry.
    replace (Z.of_nat (bn + 1 + k) - Z.of_nat bn - 1) with (Z.of_nat k) by lia.
    destruct (Z.ltb_spec (Z.of_nat k) jt_room); [|unfold jt_room in *; lia].
    erewrite bind_ret by reflexivity. rewrite Hent. run updb_ret.
    replace (Z.of_nat (bn + 1 + k) + 1) with (Z.of_nat (bn + 1 + S k)) by lia.
    replace (bn + k + S (length r))%nat with (bn + S k + length r)%nat by lia.
    erewrite bind_ret by exact E. done.
  - simpl. constructor; [|done]. exists 0. rewrite Ha by (rewrite elem_of_seq; lia).
    by rewrite list_lookup_insert_eq.
  - by rewrite HL, length_insert.
  - intros i Hi. simpl in Hi. apply not_elem_of_cons in Hi as [Hi1 Hi2]. rewrite Ha by done.
    by rewrite list_lookup_insert_ne.
Qed.

(** One transaction of the journal: its data blocks are retargeted to their
    home sectors. *)
Lemma replay_one d trs bs (bn : nat) t :
  txn_at d (Z.of_nat N) (Z.of_nat bn + 3) t -> Z.of_nat N < 2 ^ 27 ->
  (forall i, (bn + 1 <= i <= N)%nat -> bs !! i = Some (rd d (Z.of_nat i + 2))) ->
  let hdr := dread d ROOTDEV (Z.of_nat bn + 3) in
  let l := seq (bn + 2) (length t) in
  exists bs',
    read_txn (seq 1 N) hdr (Z.of_nat bn) (recov trs bs) = Ret l (recov trs bs') /\
    holds (eq 0) bs' l t /\ length bs' = length bs /\ (forall i, i ∉ l -> bs' !! i = bs !! i).
Proof.
  intros (_ & Hnd & Hlen & Hfit & Hblk) HN Hbs hdr l.
  destruct t as [|sd t]; [simpl in Hlen; lia|]. simpl length in *.
  assert (Hb : bs !! (bn + 2)%nat = Some (rd d (Z.of_nat (bn + 2) + 2))) by (apply Hbs; lia).
  destruct (Hblk 0%nat sd eq_refl) as [He0 Hd0]. fold hdr in Hnd, He0. change (Z.of_nat 0) with 0 in He0.
  pose proof (lookup_lt_Some _ _ _ Hb) as Hlt. unfold jt_room in Hlen.
  destruct (retarget_ret trs hdr bn t (<[(bn + 2)%nat := Buf 7 ROOTDEV sd.1 0 sd.2]> bs) 1 N)
    as (bs' & E & Hh & HL & Ha); [|lia|lia|lia|].
  { intros i sd' Hi. destruct (Hblk (S i) sd' Hi) as [He Hd]. split; [exact He|].
    pose proof (lookup_lt_Some _ _ _ Hi) as Hit.
    exists (Z.of_nat (bn + 1 + i + 2) + 2). rewrite list_lookup_insert_ne by lia.
    rewrite Hbs by lia. unfold rd. do 2 f_equal. rewrite <-Hd. f_equal. lia. }
  exists bs'. replace (bn + 1 + 2)%nat with (S (bn + 2)) in * by lia. split_and!.
  - unfold read_txn. rewrite length_seq. erewrite bind_ret by (apply jblock_ret; lia).
    replace (S (Z.to_nat (Z.of_nat bn + 1))) with (bn + 2)%nat by lia.
    unfold recov. run updb_ret. run updb_ret. rewrite He0, Hnd, u32_small by (unfold u32_mod; lia).
    change (or_flags B_DIRTY _) with (Buf 7 ROOTDEV sd.1 0 (dread d ROOTDEV (Z.of_nat (bn + 2) + 2))).
    replace (Z.of_nat (bn + 2) + 2) with (Z.of_nat bn + 3 + 1 + Z.of_nat 0) by lia. rewrite Hd0.
    replace (Z.of_nat bn + Z.of_nat (S (length t))) with (Z.of_nat (bn + 1 + length t)) by lia.
    replace (Z.of_nat bn + 2) with (Z.of_nat (bn + 1 + 1)) by lia.
    erewrite bind_ret by exact E. done.
  - constructor; [|done]. exists 0. rewrite Ha by (rewrite elem_of_seq; lia).
    by rewrite list_lookup_insert_eq.
  - by rewrite HL, length_insert.
  - intros i Hi. subst l. simpl in Hi. apply not_elem_of_cons in Hi as [Hi1 Hi2].
    rewrite Ha by done. by rewrite list_lookup_insert_ne.
Qed.

Lemma replay_ret d tail jd ts : forall bn trs bs fuel,
  journal_has d (Z.of_nat N) (Z.of_nat bn + 3) tail ts ->
  jsb_tail jd = tail -> 3 <= tail < u32_mod -> Z.of_nat N < 2 ^ 27 ->
  bs !! 0%nat = Some (Buf 3 ROOTDEV 2 0 jd) -> (bn <= N)%nat ->
  (forall i, (bn + 1 <= i <= N)%nat -> bs !! i = Some (rd d (Z.of_nat i + 2))) -> (length ts <= fuel)%nat ->
  exists bs' trs',
    replay_journal true fuel (seq 1 N) (Z.of_nat bn) (recov trs bs) = Ret true (recov (trs ++ trs') bs') /\
    Forall (fun t => t_term t = true) trs' /\ length trs' = length ts /\
    holds (eq 0) bs' (concat (map t_bufs trs')) (concat ts) /\ NoDup (concat (map t_bufs trs')) /\
    (forall i, i ∈ concat (map t_bufs trs') -> (bn + 2 <= i <= N)%nat) /\ length bs' = length bs /\
    (forall i, i ∉ concat (map t_bufs trs') -> bs' !! i = bs !! i).
Proof.
  induction ts as [|t ts IH]; intros bn trs bs fuel Hj Ht Htr HN Hb0 Hbn Hbs Hf.
  - exists bs, []. rewrite app_nil_r. split_and!; try done; [|constructor|constructor|set_solver].
    simpl in Hj. destruct fuel; cbn [replay_journal]; unfold recov; run jsb_get_ret;
      cbn [data]; rewrite Ht, (u32_small (Z.of_nat bn)), (u32_small (tail - 3)) by (unfold u32_mod in *; lia);
      (destruct (Z.ltb_spec (Z.of_nat bn) (tail - 3)); [lia|done]).
  - destruct Hj as (Hlt & Hat & Hj). destruct fuel as [|fuel]; [simpl in Hf; lia|]. simpl in Hf.
    assert (Hfit : Z.of_nat bn + Z.of_nat (length t) < Z.of_nat N) by (destruct Hat as (_ & _ & _ & H & _); lia).
    destruct (replay_one d trs bs bn t Hat HN Hbs) as (bs1 & E1 & H1 & L1 & A1).
    pose proof Hat as (Hck & Hnd & Hlen & _ & _).
    set (l := seq (bn + 2) (length t)) in *.
    destruct (IH (bn + length t + 1)%nat (trs ++ [MemTrans l true (Z.of_nat (length t))]) bs1 fuel)
      as (bs2 & trs2 & E2 & T2 & Len2 & H2 & N2 & R2 & L2 & A2);
      [by replace (Z.of_nat (bn + length t + 1) + 3) with (Z.of_nat bn + 3 + 1 + Z.of_nat (length t)) by lia
      |done|done|done|by rewrite A1 by (subst l; rewrite elem_of_seq; lia)|lia| |lia|].
    { intros i Hi. rewrite A1 by (subst l; rewrite elem_of_seq; lia). apply Hbs. lia. }
    exists bs2, (MemTrans l true (Z.of_nat (length t)) :: trs2).
    assert (Hl : forall i, i ∈ l -> (bn + 2 <= i < bn + 2 + length t)%nat) by (intros i; subst l; by rewrite elem_of_seq).
    split_and!.
    + cbn [replay_journal]. unfold recov. run jsb_get_ret. cbn [data].
      rewrite Ht, (u32_small (Z.of_nat bn)), (u32_small (tail - 3)) by (unfold u32_mod in *; lia).
      destruct (Z.ltb_spec (Z.of_nat bn) (tail - 3)) as [_|]; [|lia].
      erewrite bind_ret by (apply jblock_ret; lia).
      replace (S (Z.to_nat (Z.of_nat bn))) with (bn + 1)%nat by lia.
      run_with ltac:(eapply getb_ret; st_simpl; apply Hbs; lia).
      cbn [data rd]. replace (Z.of_nat (bn + 1) + 2) with (Z.of_nat bn + 3) by lia.
      erewrite bind_ret by exact E1. rewrite Hck, Hnd. cbv iota.
      rewrite Z.eqb_refl. cbn [orb].
      erewrite bind_ret by apply append_mtn_ret.
      rewrite s32_small by lia.
      replace (Z.of_nat bn + Z.of_nat (length t) + 1) with (Z.of_nat (bn + length t + 1)) by lia.
      rewrite E2, <-app_assoc. done.
    + by constructor.
    + simpl. by rewrite Len2.
    + simpl. apply Forall2_app; [|done]. eapply holds_agree; [|exact H1]. intros i Hi. apply A2.
      intros Hi2. specialize (R2 i Hi2). specialize (Hl i Hi). lia.
    + simpl. apply NoDup_app. split_and!; [apply NoDup_seq| |done].
      intros i Hi Hi2. specialize (R2 i Hi2). specialize (Hl i Hi). lia.
    + simpl. intros i [Hi|Hi]%elem_of_app; [specialize (Hl i Hi); lia|specialize (R2 i Hi); lia].
    + by rewrite L2.
    + simpl. intros i Hi. apply not_elem_of_app in Hi as [Hi1 Hi2]. rewrite A2, A1; done.
Qed.

End replay.

(** ** The end of pbjFSck *)

Section finish.
Context (dk : hist) (j : nat) (ho : option nat) (jt : Z) (ms : list mtn) (hd tl : mptr) (c : mem_trans) (sp : Z).

Definition finishing (bs : list buf) (lr : list nat) (w : list chan) : bst :=
  Bst bs lr dk true w (Some j) ho jt false ms hd tl c sp.

Definition unlocked (b : buf) : buf := if has B_BUSY b then clear_flags B_BUSY b else b.

Lemma unlocked_free b : has B_BUSY (unlocked b) = false.
Proof. unfold unlocked. destruct (has B_BUSY b) eqn:E; [apply clear_busy|done]. Qed.

Lemma release_all_ret l bs lr w :
  NoDup l -> Forall (fun i => is_Some (bs !! i)) l ->
  exists bs' lr' w',
    mfor l release_busy (finishing bs lr w) = Ret tt (finishing bs' lr' w') /\
    (forall i b, i ∈ l -> bs !! i = Some b -> bs' !! i = Some (unlocked b)) /\
    (forall i, i ∉ l -> bs' !! i = bs !! i) /\ (forall i, i ∈ lr -> i ∈ lr') /\
    length bs' = length bs /\ (NoDup lr -> Forall (fun i => i ∈ lr) l -> lr' ≡ₚ lr).
Proof.
  revert bs lr w. induction l as [|i l IH]; intros bs lr w Hnd Hl.
  { exists bs, lr, w. split_and!; try done. intros i b Hi. by apply not_elem_of_nil in Hi. }
  apply NoDup_cons in Hnd as [Hi Hnd]. apply Forall_cons in Hl as [[b Hb] Hl].
  pose proof (lookup_lt_Some _ _ _ Hb) as Hlt. cbn [mfor].
  assert (Hstep : exists lr1 w1, release_busy i (finishing bs lr w) = Ret tt (finishing (<[i := unlocked b]> bs) lr1 w1) /\
    (forall k, k ∈ lr -> k ∈ lr1) /\ (NoDup lr -> i ∈ lr -> lr1 ≡ₚ lr)).
  { unfold unlocked, release_busy. erewrite bind_ret by (by apply getb_ret). destruct (has B_BUSY b) eqn:Hbusy.
    - exists (i :: filter (fun k => k <> i) lr), (ChBuf 0 :: w). erewrite jbrelse_ret by done. split_and!; [done| |apply filter_perm].
      intros k Hk. rewrite elem_of_cons, list_elem_of_filter. destruct (decide (k = i)); auto.
    - exists lr, w. rewrite list_insert_id by done. done. }
  destruct Hstep as (lr1 & w1 & E1 & I1 & P1).
  destruct (IH (<[i := unlocked b]> bs) lr1 w1) as (bs2 & lr2 & w2 & E2 & R2 & A2 & I2 & L2 & P2); [done| |].
  { rewrite Forall_forall in Hl |- *. intros k Hk. rewrite list_lookup_insert_ne by (by intros ->). by apply Hl. }
  exists bs2, lr2, w2. rewrite (bind_ret _ _ _ _ _ E1), E2. split_and!; [done| | |auto|by rewrite L2, length_insert|].
  - intros k bk [->|Hk]%elem_of_cons Hbk.
    + rewrite A2, list_lookup_insert_eq by done. congruence.
    + apply R2; [done|]. rewrite list_lookup_insert_ne; [done|by intros ->].
  - intros k [Hk1 Hk2]%not_elem_of_cons. rewrite A2 by done. by apply list_lookup_insert_ne.
  - intros Hlr [Hi' Hl']%Forall_cons. specialize (P1 Hlr Hi'). etrans; [apply P2|done].
    + by rewrite P1.
    + eapply Forall_impl; [exact Hl'|]. intros k Hk. cbv beta. by rewrite P1.
Qed.

(** With only buffer [j] locked and [j] caching another sector, bread
    returns. *)
Lemma bread_returns bs lr w sec i bj :
  (forall k b, k <> j -> bs !! k = Some b -> has B_BUSY b = false) -> bs !! j = Some bj -> has B_BUSY bj = true -> sector bj <> sec ->
  i ∈ lr -> i <> j -> is_Some (bs !! i) ->
  exists h s', bread ROOTDEV sec (finishing bs lr w) = Ret h s' /\ bdisk s' = dk /\ h <> j /\
    (exists fl fa dat, bufs s' !! h = Some (Buf fl ROOTDEV sec fa dat)) /\
    s' = finishing (bufs s') lr (wakes s') /\ (forall k, k <> h -> bufs s' !! k = bs !! k).
Proof.
  intros Hfree Hbj Hjb Hsec Hi Hij [bi Hbi]. set (s := finishing bs lr w).
  destruct (cached s ROOTDEV sec) as [h|] eqn:Hc.
  - destruct (cached_some _ _ _ _ Hc) as (b & Hb & Hcs). apply caches_spec in Hcs as (_ & Hd & Hs).
    assert (h <> j) by (intros ->; simpl in Hb; rewrite Hbj in Hb; injection Hb as <-; done).
    pose proof (lookup_lt_Some _ _ _ Hb) as Hlt.
    eexists h, _. split; [eapply bread_hit; eauto|]. simpl. split_and!; [done|done| |done|].
    + rewrite list_lookup_insert_eq by done. destruct b as [fl dv' sc' fa dat]. simpl in Hd, Hs. subst.
      eexists _, _, _. reflexivity.
    + intros k Hk. by apply list_lookup_insert_ne.
  - destruct (find_buf_is_some not_busy bs (rev lr) i bi) as [h Hv];
      [by rewrite <-Permutation_rev|done|unfold not_busy; by rewrite (Hfree i bi)|].
    destruct (find_buf_some _ _ _ _ Hv) as (_ & b & Hb & Hnb).
    pose proof (lookup_lt_Some _ _ _ Hb) as Hlt.
    assert (h <> j).
    { intros ->. rewrite Hbj in Hb. injection Hb as <-. unfold not_busy in Hnb. by rewrite Hjb in Hnb. }
    eexists h, _. split; [eapply bread_miss; eauto|]. simpl. split_and!; [done|done| |done|].
    + rewrite list_lookup_insert_eq by done. eexists _, _, _. reflexivity.
    + intros k Hk. by apply list_lookup_insert_ne.
Qed.
End finish.

Lemma journal_has_length d N b tail ts :
  journal_has d N b tail ts -> Z.of_nat (length ts) <= Z.max 0 (N + 3 - b).
Proof.
  revert b. induction ts as [|t ts IH]; intros b Hj; [simpl; lia|].
  destruct Hj as (_ & (_ & _ & Hl & Hf & _) & Hj). specialize (IH _ Hj). simpl length. lia.
Qed.

Lemma boot_reading n d : boot n d = reading d None [] n [].
Proof. unfold boot, binit, reading. simpl. by rewrite foldl_cons_rev, app_nil_r. Qed.

(** The buffers after the journal has been read. *)
Lemma reading_lookup d N k i :
  (i <= N)%nat -> (map (rd d) (seqZ 2 (1 + Z.of_nat N)) ++ replicate k zero_buf) !! i = Some (rd d (Z.of_nat i + 2)).
Proof.
  intros Hi. rewrite lookup_app_l by (rewrite length_map, length_seqZ; lia).
  rewrite list_lookup_fmap, lookup_seqZ_lt by lia. simpl. do 2 f_equal. lia.
Qed.

(** pbjFSck up to and including the replay loop. *)
Lemma pbjFSck_reads d nbuf N :
  jsb_size (dread d ROOTDEV 2) = Z.of_nat N -> Z.of_nat N < 2 ^ 26 -> (N + 1 <= nbuf)%nat ->
  exists w,
    pbjFSck true ROOTDEV (boot nbuf d) =
    (let! head := jsb_get jsb_head in
     let! tail := jsb_get jsb_tail in
     let! ok := (if head <? tail then replay_journal true (S N) (seq 1 N) (s32 (head - 3))
                 else modify (set_mtn_tail Null) ;; modify (set_mtn_head Null) ;; ret true) in
     if (ok : bool) then
       jfull_flush ;; mfor (seq 1 N) release_busy ;;
       let! h := bread ROOTDEV 3 in modify (set_jtrans_header_buf (Some h))
     else ret tt) (reading d (Some 0%nat) (seqZ 2 (1 + Z.of_nat N)) (nbuf - N - 1) w).
Proof.
  intros Hsz HN Hnb.
  destruct (bread_boot d None [] (N + (nbuf - N - 1)) [] 2) as [w1 E1]; [set_solver|lia|].
  destruct (read_journal_boot d (Some 0%nat) N [2] (nbuf - N - 1) w1 0) as [w2 E2]; [done|lia|lia|].
  exists w2. unfold pbjFSck. rewrite boot_reading.
  replace (reading d None [] nbuf []) with (reading d None [] (S (N + (nbuf - N - 1))) []) by (f_equal; lia).
  rewrite (bind_ret _ _ _ _ _ E1). erewrite bind_ret by reflexivity.
  change (set_jsblock_buf (Some (length (@nil Z))) (reading d None ([] ++ [2]) (N + (nbuf - N - 1)) w1))
    with (reading d (Some 0%nat) [2] (N + (nbuf - N - 1)) w1).
  erewrite bind_ret by (by eapply jsb_get_ret). cbn [data rd]. rewrite Hsz, Nat2Z.id.
  rewrite (bind_ret _ _ _ _ _ E2). rewrite length_seq. simpl length.
  by replace (0 + 1 + Z.of_nat N) with (1 + Z.of_nat N) by lia.
Qed.

(** What recovery leaves behind: an idle journal. *)
Record recovered (d : hist) (jd : block) (s : bst) : Prop := {
  rec_disk : bdisk s = d;
  rec_head : mtn_head s = Null;
  rec_jtail : jtail_bnum s = 3;
  rec_lock : trans_write_lock s = false;
  rec_ct : ct s = MemTrans [] true 0;
  rec_jsb : jsblock_buf s = Some 0%nat /\ bufs s !! 0%nat = Some (Buf 3 ROOTDEV 2 0 jd);
  rec_jt : exists h fl fa dat, h <> 0%nat /\ jtrans_header_buf s = Some h /\
           bufs s !! h = Some (Buf fl ROOTDEV 3 fa dat) }.

(** An unlocked or locked copy of a sector. *)
Definition copy_of (dk : hist) (fl : Z) (b : buf) : Prop :=
  exists sec, b = Buf fl ROOTDEV sec 0 (dread dk ROOTDEV sec) /\ 0 <= sec < 2 ^ 28.

Definition one_each (bs : list buf) : Prop := forall i j bi bj,
  bs !! i = Some bi -> bs !! j = Some bj -> live bi = true -> live bj = true -> sector bi = sector bj -> i = j.

(** The buffers when the journal has been written home: one copy of a sector
    in each of the first [N + 1], the rest unused. *)
Record staged (N nbuf : nat) (dk : hist) (bs : list buf) : Prop := {
  st_len : length bs = nbuf;
  st_hdr : bs !! 1%nat = Some (Buf 3 ROOTDEV 3 0 (dread dk ROOTDEV 3));
  st_mid i b : (1 <= i <= N)%nat -> bs !! i = Some b -> copy_of dk 2 b \/ copy_of dk 3 b;
  st_rest i b : (N < i)%nat -> bs !! i = Some b -> b = zero_buf;
  st_unique : one_each bs }.

(** The cache recovery leaves behind: the journal superblock and the first
    header locked, clean copies of sectors, unused buffers. *)
Record fresh_cache (nbuf : nat) (dk : hist) (jd : block) (s : bst) : Prop := {
  fc_shape : exists ms tl, s = Bst (bufs s) (lru s) dk true (wakes s) (Some 0%nat) (Some 1%nat) 3 false ms Null tl (MemTrans [] true 0) 0;
  fc_len : length (bufs s) = nbuf;
  fc_lru : lru s ≡ₚ seq 0 nbuf;
  fc_jsb : bufs s !! 0%nat = Some (Buf 3 ROOTDEV 2 0 jd);
  fc_hdr : bufs s !! 1%nat = Some (Buf 3 ROOTDEV 3 0 (dread dk ROOTDEV 3));
  fc_rest i b : (2 <= i)%nat -> bufs s !! i = Some b -> b = zero_buf \/ copy_of dk 2 b;
  fc_unique : one_each (bufs s) }.

(** Locking or unlocking a copy keeps the sectors apart. *)
Lemma one_each_map bs bs' :
  (forall i b', bs' !! i = Some b' -> exists b, bs !! i = Some b /\ sector b' = sector b /\ (live b' = true -> live b = true)) ->
  one_each bs -> one_each bs'.
Proof.
  intros H Hu i j bi bj Hi Hj Li Lj Es. destruct (H i bi Hi) as (ci & Hci & Si & Ci). destruct (H j bj Hj) as (cj & Hcj & Sj & Cj).
  apply (Hu i j ci cj); auto. congruence.
Qed.

Lemma unlocked_copy dk b : copy_of dk 2 b \/ copy_of dk 3 b -> copy_of dk 2 (unlocked b) /\ sector (unlocked b) = sector b /\ live b = true.
Proof. intros [(sec & -> & Hs)|(sec & -> & Hs)]; (split; [by exists sec|done]). Qed.

Lemma finish_fresh N nbuf dk ms tl bs lr w jd :
  staged N nbuf dk bs -> lr ≡ₚ seq 0 nbuf ->
  bs !! 0%nat = Some (Buf 3 ROOTDEV 2 0 jd) -> (1 <= N)%nat -> (N < nbuf)%nat ->
  exists s',
    (mfor (seq 1 N) release_busy ;; let! h := bread ROOTDEV 3 in modify (set_jtrans_header_buf (Some h)))
      (Bst bs lr dk true w (Some 0%nat) None 3 false ms Null tl (MemTrans [] true 0) 0) = Ret tt s' /\
    fresh_cache nbuf dk jd s'.
Proof.
  intros Hst Hlr Hb0 HN Hnb. pose proof (st_len _ _ _ _ Hst) as Hlen.
  destruct (release_all_ret dk 0 None 3 ms Null tl (MemTrans [] true 0) 0 (seq 1 N) bs lr w)
    as (bs1 & lr1 & w1 & E1 & R1 & A1 & _ & L1 & P1).
  { apply NoDup_seq. }
  { apply Forall_forall. intros i Hi%elem_of_seq. apply lookup_lt_is_Some. lia. }
  assert (Hp : lr1 ≡ₚ seq 0 nbuf).
  { etrans; [apply P1|done]; rewrite ?Hlr; [apply NoDup_seq|]. apply Forall_forall. intros i Hi%elem_of_seq. rewrite Hlr. apply elem_of_seq. lia. }
  assert (Hb0' : bs1 !! 0%nat = Some (Buf 3 ROOTDEV 2 0 jd)) by (rewrite A1; [done|rewrite elem_of_seq; lia]).
  assert (Hb1 : bs1 !! 1%nat = Some (Buf 2 ROOTDEV 3 0 (dread dk ROOTDEV 3))).
  { erewrite R1; [|rewrite elem_of_seq; lia|apply (st_hdr _ _ _ _ Hst)]. done. }
  assert (Hmid : forall i b, (2 <= i)%nat -> bs1 !! i = Some b -> b = zero_buf \/ copy_of dk 2 b).
  { intros i b Hi Hb. destruct (decide (i ∈ seq 1 N)) as [Hin|Hout].
    - pose proof Hin as Hr%elem_of_seq. destruct (lookup_lt_is_Some_2 bs i) as [b' Hb']; [lia|]. rewrite (R1 i b' Hin Hb') in Hb. injection Hb as <-.
      right. apply unlocked_copy. apply (st_mid _ _ _ _ Hst i); [lia|done].
    - left. rewrite A1 in Hb by done. rewrite elem_of_seq in Hout. apply (st_rest _ _ _ _ Hst i); [lia|done]. }
  assert (Hu : one_each bs1).
  { eapply one_each_map; [|apply (st_unique _ _ _ _ Hst)]. intros i b' Hb'. destruct (decide (i ∈ seq 1 N)) as [Hin|Hout].
    - pose proof Hin as Hr%elem_of_seq. destruct (lookup_lt_is_Some_2 bs i) as [b Hb]; [lia|]. rewrite (R1 i b Hin Hb) in Hb'. injection Hb' as <-.
      destruct (unlocked_copy dk b) as (_ & -> & Hl); [apply (st_mid _ _ _ _ Hst i); [lia|done]|]. eauto.
    - rewrite A1 in Hb' by done. eauto. }
  set (s1 := finishing dk 0 None 3 ms Null tl (MemTrans [] true 0) 0 bs1 lr1 w1).
  assert (Hc : cached s1 ROOTDEV 3 = Some 1%nat).
  { destruct (find_buf_is_some (caches ROOTDEV 3) bs1 lr1 1%nat _ ltac:(rewrite Hp; apply elem_of_seq; lia) Hb1 eq_refl) as [h Hh].
    destruct (find_buf_some _ _ _ _ Hh) as (_ & b & Hb & Hcb). apply caches_spec in Hcb as (Hl & _ & Hs).
    etrans; [exact Hh|]. f_equal. by apply (Hu h 1%nat b _ Hb Hb1). }
  rewrite (bind_ret _ _ _ _ _ E1), (bind_ret _ _ _ _ _ (bread_hit s1 ROOTDEV 3 1 _ Hc Hb1 eq_refl)).
  eexists. split; [done|]. pose proof (lookup_lt_Some _ _ _ Hb1) as Hlt. split; simpl.
  - by exists ms, tl.
  - rewrite length_insert. lia.
  - done.
  - by rewrite list_lookup_insert_ne.
  - by rewrite list_lookup_insert_eq.
  - intros i b Hi. rewrite list_lookup_insert_ne by lia. by apply Hmid.
  - eapply one_each_map; [|exact Hu]. intros i b' Hb'. destruct (decide (i = 1%nat)) as [->|Hne].
    + rewrite list_lookup_insert_eq in Hb' by done. injection Hb' as <-. eauto.
    + rewrite list_lookup_insert_ne in Hb' by done. eauto.
Qed.

Lemma pbjFSck_finishes N dk ms tl bs lr w jd :
  bs !! 0%nat = Some (Buf 3 ROOTDEV 2 0 jd) -> (1 <= N)%nat ->
  (forall i, (1 <= i <= N)%nat -> is_Some (bs !! i)) -> (forall i, (1 <= i <= N)%nat -> i ∈ lr) ->
  (forall i b, (N < i)%nat -> bs !! i = Some b -> has B_BUSY b = false) ->
  exists s',
    (mfor (seq 1 N) release_busy ;; let! h := bread ROOTDEV 3 in modify (set_jtrans_header_buf (Some h)))
      (Bst bs lr dk true w (Some 0%nat) None 3 false ms Null tl (MemTrans [] true 0) 0) = Ret tt s' /\
    recovered dk jd s'.
Proof.
  intros Hb0 HN Hsome Hlr Hfree.
  destruct (release_all_ret dk 0 None 3 ms Null tl (MemTrans [] true 0) 0 (seq 1 N) bs lr w)
    as (bs1 & lr1 & w1 & E1 & R1 & A1 & I1 & _).
  { apply NoDup_seq. }
  { apply Forall_forall. intros i Hi%elem_of_seq. apply Hsome. lia. }
  assert (Hb0' : bs1 !! 0%nat = Some (Buf 3 ROOTDEV 2 0 jd)).
  { rewrite A1; [done|]. rewrite elem_of_seq. lia. }
  destruct (bread_returns dk 0 None 3 ms Null tl (MemTrans [] true 0) 0 bs1 lr1 w1 3 1 (Buf 3 ROOTDEV 2 0 jd))
    as (h & s' & E & Hdk & Hh & Hbh & Hs' & Hag); [|done|done|done|apply I1, Hlr; lia|done| |].
  { intros k b Hk Hb. destruct (decide (k ∈ seq 1 N)) as [Hin|Hout].
    - destruct (Hsome k) as [b' Hb']; [rewrite elem_of_seq in Hin; lia|]. rewrite (R1 k b' Hin Hb') in Hb. injection Hb as <-.
      apply unlocked_free.
    - apply (Hfree k b); [rewrite elem_of_seq in Hout; lia|]. by rewrite <-A1. }
  { destruct (Hsome 1%nat) as [b' Hb']; [lia|]. erewrite R1; [done|rewrite elem_of_seq; lia|exact Hb']. }
  exists (set_jtrans_header_buf (Some h) s').
  rewrite (bind_ret _ _ _ _ _ E1), (bind_ret _ _ _ _ _ E). split; [done|].
  destruct Hbh as (fl & fa & dat & Hbh).
  split; [done|rewrite Hs'; done..|split; [rewrite Hs'; done|]|].
  - change (bufs s' !! 0%nat = Some (Buf 3 ROOTDEV 2 0 jd)). by rewrite Hag.
  - exists h, fl, fa, dat. done.
Qed.

(** The disk writes of recovery. *)
Definition replay_disk (jd : block) (ts : list txn) : list (Z * Z * block) :=
  match ts with [] => [] | _ => flush_writes jd (concat ts) end.

(** pbjFSck up to the release of the journal's buffers. *)
Lemma pbjFSck_flushes d nbuf (N : nat) tail ts :
  let jd := dread d ROOTDEV 2 in
  jsb_size jd = Z.of_nat N -> jsb_head jd = 3 -> jsb_tail jd = tail -> 3 <= tail < u32_mod ->
  1 <= Z.of_nat N < 2 ^ 26 -> (N + 1 <= nbuf)%nat ->
  journal_has d (Z.of_nat N) 3 tail ts -> sectors_ok (concat ts) ->
  exists ms tl bs lr w l,
    pbjFSck true ROOTDEV (boot nbuf d) =
      (mfor (seq 1 N) release_busy ;; let! h := bread ROOTDEV 3 in modify (set_jtrans_header_buf (Some h)))
      (Bst bs lr (Hist d (replay_disk jd ts)) true w (Some 0%nat) None 3 false ms Null tl (MemTrans [] true 0) 0) /\
    bs !! 0%nat = Some (Buf 3 ROOTDEV 2 0 (match ts with [] => jd | _ => clean_jsb jd end)) /\
    length bs = nbuf /\ lr ≡ₚ seq 0 nbuf /\ (forall i b, (N < i)%nat -> bs !! i = Some b -> b = zero_buf) /\
    Forall2 (flushed bs) l (concat ts) /\ NoDup l /\ (forall i, i ∈ l -> (2 <= i <= N)%nat) /\
    (forall i, i ∉ l -> (1 <= i <= N)%nat -> bs !! i = Some (rd d (Z.of_nat i + 2))).
Proof.
  intros jd Hsz Hhd Htl Htr HN Hnb Hj Hs.
  destruct (pbjFSck_reads d nbuf N Hsz) as [w E]; [lia|lia|]. rewrite E. clear E.
  set (k := (nbuf - N - 1)%nat). unfold reading.
  set (lr := rev (seq 0 (length (seqZ 2 (1 + Z.of_nat N)) + k))).
  set (bs := map (rd d) (seqZ 2 (1 + Z.of_nat N)) ++ replicate k zero_buf).
  assert (Hbs : forall i, (i <= N)%nat -> bs !! i = Some (rd d (Z.of_nat i + 2))) by (intros; by apply reading_lookup).
  assert (Hlb : length bs = nbuf) by (unfold bs; rewrite length_app, length_map, length_seqZ, length_replicate; lia).
  assert (Hlr : lr ≡ₚ seq 0 nbuf).
  { unfold lr. rewrite <-Permutation_rev, length_seqZ. f_equiv. lia. }
  assert (Hrest : forall i b, (N < i)%nat -> bs !! i = Some b -> b = zero_buf).
  { intros i b Hi Hb. apply boot_bufs_lookup in Hb as [(? & _ & _ & Hlt)|[-> _]]; [|done].
    rewrite length_seqZ in Hlt. lia. }
  assert (Hb0 : bs !! 0%nat = Some (Buf 3 ROOTDEV 2 0 jd)) by (by rewrite Hbs by lia).
  erewrite bind_ret by (by eapply jsb_get_ret). erewrite bind_ret by (by eapply jsb_get_ret).
  cbn [data]. rewrite Hhd, Htl. destruct ts as [|t ts].
  - simpl in Hj. destruct (Z.ltb_spec 3 tail); [lia|]. erewrite bind_ret by reflexivity. cbv iota.
    erewrite bind_ret by (by apply jfull_flush_nothing). st_simpl.
    eexists _, _, bs, lr, _, []. split_and!; try done; [apply NoDup_nil_2|set_solver|]. intros i _ Hi. apply Hbs. lia.
  - destruct (Z.ltb_spec 3 tail) as [_|]; [|destruct Hj as (? & _); lia].
    pose proof (journal_has_length _ _ _ _ _ Hj) as Hts.
    destruct (replay_ret lr (Hist d []) w N d tail jd (t :: ts) 0 [] bs (S N) Hj Htl Htr)
      as (bs1 & trs & E & T1 & L1 & H1 & N1 & R1 & Len1 & A1); [lia|done|lia|intros i Hi; apply Hbs; lia|lia|].
    rewrite s32_small by lia. change (3 - 3) with (Z.of_nat 0). unfold recov in E.
    erewrite bind_ret by exact E. cbv iota. cbn [app].
    destruct trs as [|tr0 trs]; [done|]. set (trs' := tr0 :: trs) in *.
    destruct (exists_last_dec trs') as [|(front & trl & Htrs)]; [done|].
    destruct (jfull_flush_ret 0 None 3 (mk_mtns 0 trs') 0 (map t_bufs trs') (length front) trl
                (MemTrans [] true 0) 0 lr bs1 (Hist d []) w (concat (t :: ts)) 0 jd)
      as (lr2 & bs2 & w2 & E2 & R2 & B2 & A2 & Len2 & _ & P2);
      [by apply mk_mtns_chain|by rewrite length_map, length_mk_mtns|rewrite Htrs; apply mk_mtns_last|done|done
      |intros Hi%R1; lia|done|rewrite A1; [done|intros Hi%R1; lia]|].
    replace (mk_tail trs') with (Node (length front))
      by (rewrite Htrs; unfold mk_tail; destruct front; simpl; f_equal; rewrite ?length_app; simpl; lia).
    change (mk_head trs') with (Node 0). rewrite (bind_ret _ _ _ _ _ E2).
    assert (Hag : forall i, i ∉ concat (map t_bufs trs') -> i <> 0%nat -> bs2 !! i = bs !! i) by (intros i Hi Hi0; by rewrite A2, A1).
    eexists _, _, bs2, lr2, w2, (concat (map t_bufs trs')). split_and!; [done|done|lia| | |done|done|exact R1|].
    + etrans; [apply P2|done]; [rewrite Hlr; apply NoDup_seq|]. apply Forall_forall. intros i Hi%R1. rewrite Hlr. apply elem_of_seq. lia.
    + intros i b Hi. rewrite Hag by (try lia; intros Hi'%R1; lia). by apply Hrest.
    + intros i Hi Hr. rewrite Hag by (done || lia). apply Hbs. lia.
Qed.

Lemma pbjFSck_recovers d nbuf (N : nat) tail ts :
  let jd := dread d ROOTDEV 2 in
  jsb_size jd = Z.of_nat N -> jsb_head jd = 3 -> jsb_tail jd = tail -> 3 <= tail < u32_mod ->
  1 <= Z.of_nat N < 2 ^ 26 -> (N + 1 <= nbuf)%nat ->
  journal_has d (Z.of_nat N) 3 tail ts -> sectors_ok (concat ts) ->
  exists s', pbjFSck true ROOTDEV (boot nbuf d) = Ret tt s' /\
    recovered (Hist d (replay_disk jd ts)) (match ts with [] => jd | _ => clean_jsb jd end) s'.
Proof.
  intros jd Hsz Hhd Htl Htr HN Hnb Hj Hs.
  destruct (pbjFSck_flushes d nbuf N tail ts Hsz Hhd Htl Htr HN Hnb Hj Hs) as (ms & tl & bs & lr & w & l & -> & B0 & Hlen & Hlr & Hrest & _).
  apply pbjFSck_finishes; [done|lia| | |].
  - intros i Hi. apply lookup_lt_is_Some. lia.
  - intros i Hi. rewrite Hlr. apply elem_of_seq. lia.
  - intros i b Hi Hb. by rewrite (Hrest i b Hi Hb).
Qed.
