(* ===== verification/Crash.v ===== *)
(** * Atomicity of a transaction across crashes

    A crash keeps a prefix of the disk writes issued so far.  For a
    transaction committed by end_trans and checkpointed by jfull_flush, every
    such prefix is a disk that pbjFSck repairs to all or nothing. *)

From S2P Require Import Prelude Layout Ide Bio Cache Journal Recover.

(** ** The header and the journal superblock *)

Lemma hdr_entries_block k secs hd :
  0 <= k -> k + Z.of_nat (length secs) <= jt_room -> is_block hd -> is_block (hdr_entries k secs hd).
Proof.
  revert k hd. induction secs as [|x secs IH]; intros k hd Hk Hn Hb; [done|]. simpl in *.
  apply IH; [lia|lia|]. apply put_u32_block; [unfold jt_room in Hn; lia|done].
Qed.

Lemma hdr_entries_get k secs hd off :
  0 <= k -> k + Z.of_nat (length secs) <= jt_room -> is_block hd -> 0 <= off -> off + 4 <= 8 + 4 * k ->
  get_u32 off (hdr_entries k secs hd) = get_u32 off hd.
Proof.
  revert k hd. induction secs as [|x secs IH]; intros k hd Hk Hn Hb Ho Hd; [done|]. simpl length in Hn.
  simpl. unfold jt_room in *. rewrite IH; [|lia|lia|apply put_u32_block; [lia|done]|lia|lia].
  unfold set_jt_entry. apply get_put_u32_ne; [lia|lia|done|lia].
Qed.

Lemma hdr_entries_entry k secs hd i x :
  0 <= k -> k + Z.of_nat (length secs) <= jt_room -> is_block hd -> secs !! i = Some x ->
  jt_entry (k + Z.of_nat i) (hdr_entries k secs hd) = u32 x.
Proof.
  revert k hd i. induction secs as [|y secs IH]; intros k hd i Hk Hn Hb Hi; [done|]. simpl length in Hn.
  simpl. unfold jt_room in *. destruct i as [|i].
  - injection Hi as <-. rewrite Z.add_0_r. unfold jt_entry.
    rewrite hdr_entries_get; [|lia|unfold jt_room; lia|apply put_u32_block; [lia|done]|lia|lia].
    unfold set_jt_entry. apply get_put_u32; [lia|done].
  - simpl in Hi. replace (k + Z.of_nat (S i)) with (k + 1 + Z.of_nat i) by lia.
    apply IH; [lia|lia|apply put_u32_block; [lia|done]|done].
Qed.

Lemma hdr_of_spec secs hd :
  is_block hd -> Z.of_nat (length secs) <= jt_room ->
  jt_checksum (hdr_of secs hd) = 106 /\ jt_ndata (hdr_of secs hd) = Z.of_nat (length secs) /\
  (forall i x, secs !! i = Some x -> 0 <= x < u32_mod -> jt_entry (Z.of_nat i) (hdr_of secs hd) = x).
Proof.
  intros Hb Hn. unfold hdr_of, jt_room in *.
  assert (B1 : is_block (set_jt_checksum 106 hd)) by (apply put_u32_block; [lia|done]).
  assert (B2 : is_block (set_jt_ndata (Z.of_nat (length secs)) (set_jt_checksum 106 hd)))
    by (apply put_u32_block; [lia|done]).
  split_and!.
  - unfold jt_checksum. rewrite hdr_entries_get by (unfold jt_room; auto with lia).
    unfold set_jt_ndata. rewrite get_put_u32_ne by (auto with lia). by apply get_put_u32.
  - unfold jt_ndata. rewrite hdr_entries_get by (unfold jt_room; auto with lia).
    unfold set_jt_ndata. rewrite get_put_u32 by (auto with lia). apply u32_small. unfold u32_mod. lia.
  - intros i x Hi Hx. rewrite <-(Z.add_0_l (Z.of_nat i)).
    rewrite (hdr_entries_entry 0 secs _ i x) by (unfold jt_room; auto with lia). by apply u32_small.
Qed.

Lemma committed_jsb_spec tail jd :
  is_block jd -> 0 <= tail < u32_mod ->
  jsb_size (committed_jsb tail jd) = jsb_size jd /\ jsb_head (committed_jsb tail jd) = jsb_head jd /\
  jsb_tail (committed_jsb tail jd) = tail /\ is_block (committed_jsb tail jd).
Proof.
  intros Hb Ht. unfold committed_jsb, jsb_size, jsb_head, jsb_tail, set_jsb_time, set_jsb_tail.
  assert (B1 : is_block (put_u32 8 tail jd)) by (apply put_u32_block; [lia|done]).
  rewrite !(get_put_u32_ne 12) by auto with lia. rewrite !(get_put_u32_ne 8) by auto with lia.
  rewrite get_put_u32, u32_small by auto with lia. split_and!; try done. apply put_u32_block; [lia|done].
Qed.

Lemma clean_jsb_spec jd :
  is_block jd ->
  jsb_size (clean_jsb jd) = jsb_size jd /\ jsb_head (clean_jsb jd) = 3 /\ jsb_tail (clean_jsb jd) = 3.
Proof.
  intros Hb. unfold clean_jsb, jsb_size, jsb_head, jsb_tail, set_jsb_time, set_jsb_tail, set_jsb_head.
  assert (B1 : is_block (put_u32 8 3 jd)) by (apply put_u32_block; [lia|done]).
  assert (B2 : is_block (put_u32 4 3 (put_u32 8 3 jd))) by (apply put_u32_block; [lia|done]).
  rewrite !(get_put_u32_ne 12) by auto with lia.
  rewrite (get_put_u32_ne 4 0), (get_put_u32_ne 8 0), (get_put_u32_ne 4 8) by auto with lia.
  rewrite !get_put_u32 by auto with lia. done.
Qed.

Lemma clean_jsb_block jd : is_block jd -> is_block (clean_jsb jd).
Proof. intros Hb. unfold clean_jsb, set_jsb_time, set_jsb_tail, set_jsb_head. repeat apply put_u32_block; try lia. done. Qed.

(** ** The setting *)

(** The journal of [N] blocks is empty, on disk and in memory, and the
    current transaction is the locked, dirty buffers holding [t]. *)
Definition open_txn (s : bst) (N : nat) (t : txn) : Prop :=
  exists lr j h ms tl l bs d w fj jd fh hd,
    s = idle lr j h ms tl (MemTrans l true (Z.of_nat (length l))) 0 bs d w /\
    holds (fun _ => True) bs l t /\ NoDup l /\ (j ∉ l) /\ (h ∉ l) /\ j <> h /\
    bs !! j = Some (Buf 3 ROOTDEV 2 fj jd) /\ bs !! h = Some (Buf 3 ROOTDEV 3 fh hd) /\
    is_block jd /\ is_block hd /\ dread d ROOTDEV 2 = jd /\
    jsb_size jd = Z.of_nat N /\ jsb_head jd = 3 /\ jsb_tail jd = 3.

(** It fits in the header and in the journal, and its home sectors are
    distinct and outside the journal. *)
Definition outside_journal (N : nat) (sec : Z) : Prop := 0 <= sec < 2 ^ 28 /\ (sec < 2 \/ Z.of_nat N + 2 < sec).
Definition good_txn (N : nat) (t : txn) : Prop :=
  (1 <= length t <= 126)%nat /\ (length t + 1 <= N)%nat /\ NoDup (t.*1) /\
  Forall (fun sd => outside_journal N sd.1) t.

(** All the writes of a transaction's life. *)
Definition txn_writes (hd jd : block) (t : txn) : list (Z * Z * block) :=
  commit_writes 3 hd jd t ++ flush_writes (committed_jsb (Z.of_nat (length t) + 3) jd) t.

Lemma length_commit_writes hd jd t : length (commit_writes 3 hd jd t) = (length t + 2)%nat.
Proof. unfold commit_writes. simpl. rewrite length_app, length_data_writes, length_fmap. simpl. lia. Qed.

Lemma length_txn_writes hd jd t : length (txn_writes hd jd t) = (2 * length t + 3)%nat.
Proof.
  unfold txn_writes, flush_writes, home_writes.
  rewrite !length_app, length_commit_writes, length_map. simpl. lia.
Qed.

(** The buffers before and after: the transaction's unlocked and clean, the
    superblock's and the header's with their new contents. *)
Record checkpointed (t : txn) (l : list nat) (j h : nat) (fj fh : Z) (jd hd : block) (bs bs' : list buf) : Prop := {
  cb_txn : Forall2 (flushed bs') l t;
  cb_jsb : bs' !! j = Some (Buf 3 ROOTDEV 2 fj (clean_jsb (committed_jsb (Z.of_nat (length t) + 3) jd)));
  cb_hdr : bs' !! h = Some (Buf 3 ROOTDEV 3 fh (hdr_of t.*1 hd));
  cb_rest i : i ∉ l -> i <> j -> i <> h -> bs' !! i = bs !! i }.

(** Commit and checkpoint run to the end and issue exactly these writes,
    whatever wakeups are outstanding in between. *)
Lemma txn_runs_bufs N t lr j h ms tl l bs d w fj jd fh hd :
  let c := MemTrans l true (Z.of_nat (length l)) in
  holds (fun _ => True) bs l t -> NoDup l -> j ∉ l -> h ∉ l -> j <> h ->
  bs !! j = Some (Buf 3 ROOTDEV 2 fj jd) -> bs !! h = Some (Buf 3 ROOTDEV 3 fh hd) -> good_txn N t ->
  exists sm, end_trans (idle lr j h ms tl c 0 bs d w) = Ret tt sm /\
    forall w, exists lr' bs' w',
      jfull_flush (set_wakes w sm)
        = Ret tt (idle lr' j h (ms ++ [Mtn c Null]) (Node (length ms)) (MemTrans [] true 0) 0 bs'
                    (app_writes (txn_writes hd jd t) d) w') /\
      checkpointed t l j h fj fh jd hd bs bs' /\
      (NoDup lr -> Forall (fun i => i ∈ lr) l -> lr' ≡ₚ lr).
Proof.
  intros c Hh Hnd Hj Hhl Hjh Hbj Hbh (Hn & HN & Hsec & Hout). pose proof (holds_length _ _ _ _ Hh) as Hlen.
  destruct (end_trans_ret lr j h ms tl c 0 (fun _ => True) l t bs d w fj jd fh hd)
    as (bs1 & w1 & E1 & H1 & Hj1 & Hh1 & A1); try done; [lia|].
  eexists. split; [exact E1|]. intros wk.
  destruct (jfull_flush_ret j (Some h) (Z.of_nat (length l) + 4) (ms ++ [Mtn c Null]) (length ms) [l] (length ms)
              c (MemTrans [] true 0) 0 lr bs1
              (app_writes (commit_writes 3 hd jd t) d) wk t fj (committed_jsb (Z.of_nat (length l) + 3) jd))
    as (lr2 & bs2 & w2 & E2 & F2 & Hj2 & A2 & _ & _ & P2); simpl concat; rewrite ?app_nil_r; try done.
  { eapply chain_cons; [|done|apply chain_nil]. by rewrite lookup_app_r, Nat.sub_diag by lia. }
  { rewrite length_app. simpl. lia. }
  { by rewrite lookup_app_r, Nat.sub_diag by lia. }
  { eapply Forall_impl; [exact Hout|]. intros sd [? _]. done. }
  simpl concat in *. rewrite app_nil_r in *. exists lr2, bs2, w2. split_and!; [|split|done].
  - etrans; [exact E2|]. unfold idle, txn_writes. by rewrite app_writes_app, Hlen.
  - done.
  - by rewrite Hj2, Hlen.
  - by rewrite A2.
  - intros i Hi Hij Hih. by rewrite A2, A1.
Qed.

Lemma txn_runs_wakes s N t :
  open_txn s N t -> good_txn N t ->
  exists sm hd jd, end_trans s = Ret tt sm /\
    (forall w, exists s', jfull_flush (set_wakes w sm) = Ret tt s' /\
       bdisk s' = app_writes (txn_writes hd jd t) (bdisk s)) /\ is_block hd /\ is_block jd /\
    dread (h_image (bdisk s)) ROOTDEV 2 = jd /\
    jsb_size jd = Z.of_nat N /\ jsb_head jd = 3 /\ jsb_tail jd = 3.
Proof.
  intros (lr & j & h & ms & tl & l & bs & d & w & fj & jd & fh & hd & -> & Hh & Hnd & Hj & Hhl & Hjh & Hbj & Hbh & Hrest) Hg.
  destruct (txn_runs_bufs N t lr j h ms tl l bs d w fj jd fh hd) as (sm & E1 & E2); try done.
  exists sm, hd, jd. split; [exact E1|]. split; [|tauto]. intros wk. destruct (E2 wk) as (lr' & bs' & w' & E & _). eexists. by split; [exact E|].
Qed.

Lemma txn_runs s N t :
  open_txn s N t -> good_txn N t ->
  exists s' hd jd, (end_trans ;; jfull_flush) s = Ret tt s' /\
    bdisk s' = app_writes (txn_writes hd jd t) (bdisk s) /\ is_block hd /\ is_block jd /\
    dread (h_image (bdisk s)) ROOTDEV 2 = jd /\
    jsb_size jd = Z.of_nat N /\ jsb_head jd = 3 /\ jsb_tail jd = 3.
Proof.
  intros Ho Hg. destruct (txn_runs_wakes s N t Ho Hg) as (sm & hd & jd & E1 & E2 & H). destruct (E2 (wakes sm)) as (s' & E & Hd).
  exists s', hd, jd. split; [|done]. rewrite (bind_ret _ _ _ _ _ E1). by destruct sm.
Qed.

(** ** Disks that recovery accepts *)

(** The journal [ts] of [d], its home sectors outside the journal. *)
Record replayable (d : image) (N : nat) (ts : list txn) : Prop := {
  rp_block : is_block (dread d ROOTDEV 2);
  rp_size : jsb_size (dread d ROOTDEV 2) = Z.of_nat N;
  rp_head : jsb_head (dread d ROOTDEV 2) = 3;
  rp_tail : 3 <= jsb_tail (dread d ROOTDEV 2) < u32_mod;
  rp_N : 1 <= Z.of_nat N < 2 ^ 26;
  rp_has : journal_has d (Z.of_nat N) 3 (jsb_tail (dread d ROOTDEV 2)) ts;
  rp_homes : Forall (fun sd => outside_journal N sd.1) (concat ts) }.

Lemma replayable_sectors d N ts : replayable d N ts -> sectors_ok (concat ts).
Proof. intros H. eapply Forall_impl; [apply (rp_homes _ _ _ H)|]. intros sd [? _]. done. Qed.

Lemma replayable_recovers d nbuf N ts :
  replayable d N ts -> (N + 1 <= nbuf)%nat ->
  exists s', pbjFSck true ROOTDEV (boot nbuf d) = Ret tt s' /\
    recovered (Hist d (replay_disk (dread d ROOTDEV 2) ts))
      (match ts with [] => dread d ROOTDEV 2 | _ => clean_jsb (dread d ROOTDEV 2) end) s'.
Proof.
  intros Hr Hn. apply (pbjFSck_recovers d nbuf N (jsb_tail (dread d ROOTDEV 2)) ts); try apply Hr; [done|done|].
  by eapply replayable_sectors.
Qed.

(** ** Recovery from each prefix *)

Section crash.
Context (d0 : image) (N nbuf : nat) (t : txn) (hd jd : block).
Context (Bh : is_block hd) (Bj : is_block jd).
Context (Hjd : dread d0 ROOTDEV 2 = jd).
Context (Hsz : jsb_size jd = Z.of_nat N) (Hhd : jsb_head jd = 3) (Htl : jsb_tail jd = 3).
Context (Hgood : good_txn N t) (HN : 1 <= Z.of_nat N < 2 ^ 26) (Hnb : (N + 1 <= nbuf)%nat).

(** What the crashed and repaired disk looks like: the transaction's sectors
    old or new, all other sectors outside the journal as before. *)
Definition repaired (new : bool) (d' : image) : Prop :=
  (forall sd, sd ∈ t -> dread d' ROOTDEV sd.1 = if new then sd.2 else dread d0 ROOTDEV sd.1) /\
  (forall sec, outside_journal N sec -> sec ∉ t.*1 -> dread d' ROOTDEV sec = dread d0 ROOTDEV sec).

(** A disk that recovery repairs. *)
Definition settles (new : bool) (d : image) : Prop := exists ts,
  replayable d N ts /\ (ts = [] \/ ts = [t]) /\ repaired new (replay_writes (replay_disk (dread d ROOTDEV 2) ts) d).

(** Writes to the journal only. *)
Lemma journal_writes_other ws d sec :
  (forall w, w ∈ ws -> 2 <= w.1.2 <= Z.of_nat N + 2) -> outside_journal N sec ->
  dread (replay_writes ws d) ROOTDEV sec = dread d ROOTDEV sec.
Proof using.
  clear Hnb HN. intros Hw Ho. apply replay_other. apply Forall_forall. intros w Hin [= _ E]. specialize (Hw w Hin).
  destruct Ho as [_ Ho]. lia.
Qed.

Lemma commit_writes_range w : w ∈ commit_writes 3 hd jd t -> 2 <= w.1.2 <= Z.of_nat N + 2.
Proof using Hgood.
  clear Hnb HN. destruct Hgood as (Hn & Hf & _). unfold commit_writes. rewrite elem_of_cons, elem_of_app, list_elem_of_singleton.
  intros [-> |[H%data_writes_elem| ->]]; simpl; [lia| |lia]. rewrite length_fmap in H. lia.
Qed.

Lemma home_outside sd : sd ∈ t -> outside_journal N sd.1.
Proof. intros H. destruct Hgood as (_ & _ & _ & Ho). rewrite Forall_forall in Ho. by apply Ho. Qed.

Lemma journal_only_old ws d :
  (forall w, w ∈ ws -> 2 <= w.1.2 <= Z.of_nat N + 2) -> repaired false d ->
  repaired false (replay_writes ws d).
Proof.
  intros Hw [H1 H2]. split.
  - intros sd Hsd. rewrite journal_writes_other by auto using home_outside. by apply H1.
  - intros sec Ho Hs. rewrite journal_writes_other by done. by apply H2.
Qed.

Lemma txn_writes_split :
  txn_writes hd jd t
    = ((ROOTDEV, 3, hdr_of t.*1 hd) :: data_writes 4 t.*2)
      ++ [(ROOTDEV, 2, committed_jsb (3 + Z.of_nat (length t)) jd)]
      ++ flush_writes (committed_jsb (Z.of_nat (length t) + 3) jd) t.
Proof. unfold txn_writes, commit_writes. simpl. by rewrite <-app_assoc. Qed.

(** Before the superblock is written nothing has happened. *)
Lemma crash_before k :
  (k <= length t + 1)%nat -> settles false (replay_writes (take k (txn_writes hd jd t)) d0).
Proof.
  intros Hk. set (ws := take k (txn_writes hd jd t)).
  set (front := (ROOTDEV, 3, hdr_of t.*1 hd) :: data_writes 4 t.*2).
  assert (Hlf : length front = (length t + 1)%nat) by (unfold front; simpl; rewrite length_data_writes, length_fmap; lia).
  assert (Hfr : ws = take k front).
  { unfold ws. rewrite txn_writes_split. fold front. by rewrite take_app_le by lia. }
  assert (Hin : forall w, w ∈ ws -> 3 <= w.1.2 <= Z.of_nat N + 2).
  { intros w Hw. assert (Hi : w ∈ front) by (rewrite <-(take_drop k front), <-Hfr; apply elem_of_app; by left).
    destruct Hgood as (Hn & Hf & _). unfold front in Hi. apply elem_of_cons in Hi as [->|H%data_writes_elem]; [simpl; lia|].
    rewrite length_fmap in H. lia. }
  assert (H2 : dread (replay_writes ws d0) ROOTDEV 2 = jd).
  { rewrite replay_other; [done|]. apply Forall_forall. intros w Hw [= _ E]. specialize (Hin w Hw). lia. }
  exists []. split; [|split; [by left|]].
  { split; rewrite ?H2, ?Htl; done. }
  cbn [replay_disk]. change (replay_writes [] ?d) with d. apply journal_only_old; [|split; [done|done]]. intros w Hw. specialize (Hin w Hw). lia.
Qed.

(** The disk after the commit: the superblock and the transaction. *)
Lemma committed_image ws :
  (forall w, w ∈ ws -> outside_journal N w.1.2) ->
  let d := replay_writes ws (replay_writes (commit_writes 3 hd jd t) d0) in
  dread d ROOTDEV 2 = committed_jsb (Z.of_nat (length t) + 3) jd /\
  journal_has d (Z.of_nat N) 3 (Z.of_nat (length t) + 3) [t].
Proof.
  intros Hws d. destruct Hgood as (Hn & Hf & _ & Hout).
  assert (Hd : forall sec, 2 <= sec <= Z.of_nat N + 2 ->
    dread d ROOTDEV sec = dread (replay_writes (commit_writes 3 hd jd t) d0) ROOTDEV sec).
  { intros sec Hs. apply replay_other. apply Forall_forall. intros w Hw [= _ E].
    destruct (Hws w Hw) as [_ Ho]. lia. }
  assert (Hc : forall sec, 3 <= sec <= Z.of_nat N + 2 -> dread d ROOTDEV sec =
    dread (replay_writes (data_writes 4 t.*2) (apply_write d0 (ROOTDEV, 3, hdr_of t.*1 hd))) ROOTDEV sec).
  { intros sec Hs. rewrite Hd by lia. unfold commit_writes. rewrite replay_cons, replay_app.
    apply replay_other. repeat constructor. simpl. intros [= E]. lia. }
  assert (H3 : dread d ROOTDEV 3 = hdr_of t.*1 hd).
  { rewrite Hc by lia. rewrite replay_other; [by apply (dread_dwrite_eq (D := image))|].
    apply Forall_forall. intros w Hw%data_writes_elem [= _ E]. lia. }
  destruct (hdr_of_spec t.*1 hd Bh) as (Hck & Hnd & Hent); [rewrite length_fmap; unfold jt_room; lia|].
  split.
  - rewrite Hd by lia. unfold commit_writes. rewrite app_comm_cons, replay_last. f_equal. lia.
  - cbn [journal_has]. split; [lia|]. split; [|lia]. unfold txn_at. rewrite H3, Hck, Hnd, length_fmap.
    unfold jt_room. split_and!; [done|done|lia|lia|lia|]. intros i sd Hi.
    pose proof (lookup_lt_Some _ _ _ Hi) as Hlt. split.
    + apply Hent; [by rewrite list_lookup_fmap, Hi|]. rewrite Forall_forall in Hout.
      destruct (Hout sd) as [Hr _]; [by eapply list_elem_of_lookup_2|]. unfold u32_mod. lia.
    + rewrite Hc by lia. replace (3 + 1 + Z.of_nat i) with (4 + Z.of_nat i) by lia.
      apply data_writes_read. by rewrite list_lookup_fmap, Hi.
Qed.

Lemma flushed_new d jd' :
  repaired false d \/ repaired true d \/
  (forall sec, outside_journal N sec -> sec ∉ t.*1 -> dread d ROOTDEV sec = dread d0 ROOTDEV sec) ->
  repaired true (replay_writes (flush_writes jd' t) d).
Proof using Hgood.
  clear Hnb HN. intros Hd. assert (Ho : forall sec, outside_journal N sec -> sec ∉ t.*1 -> dread d ROOTDEV sec = dread d0 ROOTDEV sec)
    by (destruct Hd as [[_ H]|[[_ H]|H]]; exact H). clear Hd.
  unfold flush_writes. rewrite replay_app. split.
  - intros sd Hsd. pose proof (home_outside sd Hsd) as [_ Hx]. rewrite replay_other.
    + apply home_writes_read; [apply Hgood|done].
    + repeat constructor. simpl. intros [= E]. lia.
  - intros sec Hs Hnot. pose proof Hs as [_ Hx]. rewrite replay_other; [rewrite replay_other|].
    + by apply Ho.
    + apply Forall_forall. intros w (sd & Hsd & ->)%home_writes_elem [= E]. apply Hnot. rewrite <-E.
      by apply list_elem_of_fmap_2.
    + repeat constructor. simpl. intros [= E]. lia.
Qed.

Lemma home_prefix_outside i w : w ∈ take i (home_writes t) -> outside_journal N w.1.2.
Proof.
  intros Hw. assert (Hin : w ∈ home_writes t) by (rewrite <-(take_drop i (home_writes t)); apply elem_of_app; by left).
  apply home_writes_elem in Hin as (sd & Hsd & ->). by apply home_outside.
Qed.

(** Once the superblock is written recovery finishes the job. *)
Lemma crash_during i :
  (i <= length t)%nat ->
  settles true (replay_writes (take i (home_writes t)) (replay_writes (commit_writes 3 hd jd t) d0)).
Proof.
  intros Hi. destruct (committed_image (take i (home_writes t)) (home_prefix_outside i)) as [H2 Hj].
  set (d := replay_writes _ _) in *. pose proof Hgood as (Hn & Hf & _ & Hout).
  destruct (committed_jsb_spec (Z.of_nat (length t) + 3) jd Bj) as (Es & Eh & Et & Bc); [unfold u32_mod; lia|].
  exists [t]. split; [|split; [by right|]].
  { split; rewrite ?H2, ?Es, ?Eh, ?Et; try done; [unfold u32_mod; lia|]. simpl. by rewrite app_nil_r. }
  cbn [replay_disk concat]. rewrite app_nil_r.
  apply flushed_new. do 2 right. intros sec Hs Hnot. subst d. rewrite replay_other.
  - apply journal_writes_other; [apply commit_writes_range|done].
  - apply Forall_forall. intros w Hw [= _ E'].
    assert (Hin : w ∈ home_writes t) by (rewrite <-(take_drop i (home_writes t)); apply elem_of_app; by left).
    apply home_writes_elem in Hin as (sd & Hsd & ->). apply Hnot. simpl in E'. rewrite <-E'. by apply list_elem_of_fmap_2.
Qed.

(** After the last write there is nothing left to do. *)
Lemma crash_after : settles true (replay_writes (txn_writes hd jd t) d0).
Proof.
  pose proof Hgood as (Hn & Hf & _ & _).
  destruct (committed_jsb_spec (Z.of_nat (length t) + 3) jd Bj) as (Es & Eh & Et & Bc); [unfold u32_mod; lia|].
  destruct (clean_jsb_spec _ Bc) as (Cs & Ch & Ct).
  set (jc := committed_jsb (Z.of_nat (length t) + 3) jd) in *.
  set (d := replay_writes (txn_writes hd jd t) d0).
  assert (H2 : dread d ROOTDEV 2 = clean_jsb jc).
  { unfold d, txn_writes, flush_writes. rewrite app_assoc. apply replay_last. }
  exists []. split; [|split; [by left|]].
  { split; rewrite ?H2, ?Cs, ?Es, ?Ch, ?Ct; try done; by apply clean_jsb_block. }
  cbn [replay_disk]. change (replay_writes [] d) with d. unfold d, txn_writes. rewrite replay_app. apply flushed_new. do 2 right. intros sec Hs Hnot.
  apply journal_writes_other; [apply commit_writes_range|done].
Qed.

Lemma crash_settles k : settles (bool_decide (length t + 2 <= k)%nat) (replay_writes (take k (txn_writes hd jd t)) d0).
Proof.
  case_bool_decide as Hk; [|apply crash_before; lia].
  destruct (decide (k <= 2 * length t + 2)%nat) as [Hle|Hgt].
  - replace (take k (txn_writes hd jd t))
      with (commit_writes 3 hd jd t ++ take (k - (length t + 2)) (home_writes t)).
    + rewrite replay_app. apply crash_during. lia.
    + unfold txn_writes, flush_writes. rewrite take_app_ge, length_commit_writes by (rewrite length_commit_writes; lia).
      f_equal. rewrite take_app_le; [done|]. unfold home_writes. rewrite length_map. lia.
  - rewrite take_ge by (rewrite length_txn_writes; lia). apply crash_after.
Qed.

Lemma crash_anywhere k :
  exists s', pbjFSck true ROOTDEV (boot nbuf (replay_writes (take k (txn_writes hd jd t)) d0)) = Ret tt s' /\
    repaired (bool_decide (length t + 2 <= k)%nat) (h_image (bdisk s')).
Proof.
  destruct (crash_settles k) as (ts & Hr & _ & Hrep). destruct (replayable_recovers _ nbuf _ _ Hr Hnb) as (s' & E & Hrec).
  exists s'. split; [exact E|]. by rewrite (rec_disk _ _ _ Hrec).
Qed.
End crash.


(** A journal of four blocks and a transaction of one block, for sector
    50. *)
Definition demo_jsb : block := put_u32 0 4 (set_jsb_head 3 (set_jsb_tail 3 zero_block)).
Definition demo_data : block := replicate 512 7.
Definition demo_txn : txn := [(50, demo_data)].
Definition demo_disk : image := dwrite (∅ : image) ROOTDEV 2 demo_jsb.
Definition demo_open : bst :=
  Bst [Buf 3 ROOTDEV 2 0 demo_jsb; Buf 3 ROOTDEV 3 0 zero_block; Buf 7 ROOTDEV 50 0 demo_data] [0; 1; 2]%nat
      (Hist demo_disk []) true [] (Some 0%nat) (Some 1%nat) 3 false [] Null Null (MemTrans [2%nat] true 1) 0.

Lemma demo_jsb_block : is_block demo_jsb.
Proof. repeat apply put_u32_block; try lia. apply zero_block_ok. Qed.

Lemma demo_open_txn : open_txn demo_open 4 demo_txn.
Proof.
  exists [0; 1; 2]%nat, 0%nat, 1%nat, [], Null, [2%nat], (bufs demo_open), (bdisk demo_open), [], 0, demo_jsb, 0, zero_block.
  split_and!; try done.
  - constructor; [by exists 0|constructor].
  - apply NoDup_singleton.
  - by rewrite list_elem_of_singleton.
  - by rewrite list_elem_of_singleton.
  - apply demo_jsb_block.
  - apply zero_block_ok.
Qed.

Lemma demo_good_txn : good_txn 4 demo_txn.
Proof.
  split_and!; simpl; try lia; [apply NoDup_singleton|]. constructor; [|constructor].
  split; simpl; lia.
Qed.


(** ** Recovery can itself be interrupted *)

Lemma replay_indep ws d d' dv sec :
  Exists (fun w => (w.1.1, w.1.2) = (dv, sec)) ws ->
  dread (replay_writes ws d) dv sec = dread (replay_writes ws d') dv sec.
Proof.
  revert d d'. induction ws as [|w ws IH]; intros d d' He; [by apply Exists_nil in He|].
  rewrite !replay_cons. destruct (decide (Exists (fun w => (w.1.1, w.1.2) = (dv, sec)) ws)) as [Hin|Hout].
  - by apply IH.
  - apply Exists_cons in He as [Hw|]; [|done]. apply not_Exists_Forall in Hout; [|solve_decision].
    rewrite !replay_other by done. injection Hw as <- <-. unfold apply_write.
    by rewrite !(dread_dwrite_eq (D := image)).
Qed.

(** Starting over after any prefix gives what the first run would have. *)
Lemma replay_redo ws d k dv sec :
  dread (replay_writes ws (replay_writes (take k ws) d)) dv sec = dread (replay_writes ws d) dv sec.
Proof.
  destruct (decide (Exists (fun w => (w.1.1, w.1.2) = (dv, sec)) ws)) as [Hin|Hout]; [by apply replay_indep|].
  apply not_Exists_Forall in Hout; [|solve_decision]. rewrite !replay_other; [done|done|by apply Forall_take|done].
Qed.


Lemma journal_has_agree d d' N b tail ts :
  (forall sec, 3 <= sec <= N + 2 -> dread d' ROOTDEV sec = dread d ROOTDEV sec) -> b = 3 \/ 3 <= b ->
  journal_has d N b tail ts -> journal_has d' N b tail ts.
Proof.
  intros Hd. revert b. induction ts as [|t ts IH]; intros b Hb Hj; [done|].
  destruct Hj as (Hlt & (Hck & Hnd & Hlen & Hfit & Hent) & Hj).
  split; [done|]. split; [|apply IH; [lia|done]].
  unfold txn_at. rewrite (Hd b) by lia. split_and!; try done; try lia. intros i sd Hi.
  pose proof (lookup_lt_Some _ _ _ Hi). rewrite Hd by lia. by apply Hent.
Qed.

(** The prefix of a replay leaves the journal as it was, unless it is all of
    it. *)
Lemma replayable_prefix d N ts k :
  replayable d N ts -> (k <= length (home_writes (concat ts)))%nat ->
  let d' := replay_writes (take k (home_writes (concat ts))) d in
  replayable d' N ts /\ dread d' ROOTDEV 2 = dread d ROOTDEV 2.
Proof.
  intros Hr Hk d'.
  assert (Hd : forall sec, 2 <= sec <= Z.of_nat N + 2 -> dread d' ROOTDEV sec = dread d ROOTDEV sec).
  { intros sec Hs. apply replay_other, Forall_take, Forall_forall.
    intros w (sd & Hsd & ->)%home_writes_elem [= E]. pose proof (rp_homes _ _ _ Hr) as Ho.
    rewrite Forall_forall in Ho. destruct (Ho sd Hsd) as [_ Hx]. lia. }
  pose proof (rp_N _ _ _ Hr) as HN.
  assert (H2 : dread d' ROOTDEV 2 = dread d ROOTDEV 2) by (apply Hd; lia).
  split; [|done]. destruct Hr as [Hb Hsz Hhd Htl _ Hj Ho]. split; rewrite ?H2; try done.
  eapply journal_has_agree; [|by left|exact Hj]. intros sec Hs. apply Hd. lia.
Qed.


(** The disk after the commit of the one-block transaction. *)
Definition demo_committed : image :=
  replay_writes (commit_writes 3 zero_block demo_jsb demo_txn) demo_disk.

Lemma demo_replayable : replayable demo_committed 4 [demo_txn].
Proof.
  destruct (committed_image demo_disk 4 5 demo_txn zero_block demo_jsb zero_block_ok demo_good_txn) with ([] : list (Z * Z * block))
    as [H2 Hj]; [lia|lia| |].
  { intros w Hw. by apply not_elem_of_nil in Hw. }
  change (replay_writes [] ?d) with d in *. fold demo_committed in *.
  destruct (committed_jsb_spec 4 demo_jsb demo_jsb_block) as (Es & Eh & Et & Bc); [unfold u32_mod; lia|].
  change (Z.of_nat (length demo_txn) + 3) with 4 in *.
  split; rewrite ?H2, ?Es, ?Eh, ?Et; [done|done|done|unfold u32_mod; lia|lia|exact Hj|].
  destruct demo_good_txn as (_ & _ & _ & Ho). exact Ho.
Qed.



(** ** Limits of the journal

    Runs of the operations on small journals that show what the theorems
    above leave out. *)

(** Overwrite a sector with copies of a byte, as a system call would. *)
Definition put_sector (sec v : Z) : M bst unit :=
  let! i := bread ROOTDEV sec in
  updb i (set_data (replicate 512 v)) ;; bwrite i ;; brelse i.

Definition stop_of {S A} (r : res S A) : string :=
  match r with
  | Ret _ _ => "returned" | Panic e _ => e | Undef e _ => e | Sleep _ _ => "asleep" | Spin _ => "spinning"
  end%string.

Definition journal_of (n : Z) : image := dwrite (∅ : image) ROOTDEV 2 (put_u32 0 n demo_jsb).

(** end_trans links a second transaction behind the first without moving
    [mtn_tail]: jfull_flush then writes the first one home only, and empties
    the journal, so that the second is neither at home nor in the journal. *)
Theorem second_commit_dropped :
  let r := (pbjFSck true ROOTDEV ;; put_sector 50 7 ;; end_trans ;; put_sector 51 8 ;; end_trans ;;
            jfull_flush ;; jfull_flush) (boot 20 (journal_of 10)) in
  let d := bdisk (final r) in
  stop_of r = "returned"%string /\ dread d ROOTDEV 50 = replicate 512 7 /\
  dread d ROOTDEV 51 = zero_block /\ jsb_tail (dread d ROOTDEV 2) = 3.
Proof. vm_compute. repeat split; reflexivity. Qed.

(** A transaction that fills the journal while another waits there makes
    jbwrite call jfull_flush, which spins on the lock end_trans holds. *)
Theorem full_journal_spins :
  stop_of ((pbjFSck true ROOTDEV ;; put_sector 50 7 ;; end_trans ;;
            put_sector 51 8 ;; put_sector 52 9 ;; end_trans) (boot 20 (journal_of 4))) = "spinning"%string.
Proof. vm_compute. reflexivity. Qed.

(** The list node of a transaction of one block is never given a [next]
    link by pbjFSck: unless the allocator zeroes memory, the flush follows
    an uninitialised pointer. *)
Theorem one_block_replay_wild :
  stop_of (pbjFSck false ROOTDEV (boot 6 demo_committed)) = "t_data_node link never set"%string.
Proof. vm_compute. reflexivity. Qed.

(** Within a transaction a sector written once cannot be read again: its
    buffer stays locked until the flush, and bread sleeps. *)
Theorem reread_in_transaction_sleeps :
  stop_of ((pbjFSck true ROOTDEV ;; put_sector 50 7 ;; bread ROOTDEV 50) (boot 20 (journal_of 10)))
    = "asleep"%string.
Proof. vm_compute. reflexivity. Qed.
