(* ===== verification/Reboot.v ===== *)
(** * The kernel after recovery

    pbjFSck leaves a consistent buffer cache that holds only the journal
    superblock and the first header, and an idle journal: the state in which
    a transaction may be opened. *)

From S2P Require Import Prelude Layout Ide Bio Cache Journal Recover Crash.

(** ** The buffers when the journal has been written home *)

Lemma hist_read d ws dv sec : dread (Hist d ws) dv sec = dread (replay_writes ws d) dv sec.
Proof. done. Qed.

Section staging.
Context (d : image) (N : nat) (jd : block) (ts : list txn).
Context (Hho : Forall (fun sd => outside_journal N sd.1) (concat ts)) (Hnd : NoDup (concat ts).*1).

Lemma replay_disk_journal sec : 3 <= sec <= Z.of_nat N + 2 -> dread (replay_writes (replay_disk jd ts) d) ROOTDEV sec = dread d ROOTDEV sec.
Proof using Hho Hnd.
  intros Hs. apply replay_other. destruct ts as [|t ts']; [constructor|]. cbn [replay_disk]. rewrite Forall_forall in Hho.
  apply Forall_app. split; [|repeat constructor; simpl; intros [= E]; lia].
  apply Forall_forall. intros w (sd & Hsd & ->)%home_writes_elem [= E]. destruct (Hho sd Hsd) as [_ Ho]. lia.
Qed.

Lemma replay_disk_home sd : sd ∈ concat ts -> dread (replay_writes (replay_disk jd ts) d) ROOTDEV sd.1 = sd.2.
Proof using Hho Hnd.
  intros Hsd. destruct ts as [|t ts']; [by apply not_elem_of_nil in Hsd|]. cbn [replay_disk]. unfold flush_writes. rewrite replay_app.
  rewrite replay_other; [by apply home_writes_read|]. rewrite Forall_forall in Hho. destruct (Hho sd Hsd) as [_ Ho].
  repeat constructor. simpl. intros [= E]. lia.
Qed.

(** The sector a buffer ends up with. *)
Definition final_sec (l : list nat) (i : nat) (b : buf) : Prop :=
  ((i ∉ l) /\ sector b = Z.of_nat i + 2 /\ (i <= N)%nat) \/
  (exists k sd, l !! k = Some i /\ concat ts !! k = Some sd /\ sector b = sd.1).

Lemma final_sec_inj l i j bi bj :
  (forall k, k ∈ l -> (2 <= k <= N)%nat) -> final_sec l i bi -> final_sec l j bj -> sector bi = sector bj -> i = j.
Proof using Hho Hnd.
  intros Hl [(Hi & Si & Ri)|(k & sd & Hk & Hsd & Si)] [(Hj & Sj & Rj)|(k' & sd' & Hk' & Hsd' & Sj)] E; rewrite Si, Sj in E.
  - lia.
  - rewrite Forall_forall in Hho. destruct (Hho sd') as [_ Ho]; [by eapply list_elem_of_lookup_2|]. lia.
  - rewrite Forall_forall in Hho. destruct (Hho sd) as [_ Ho]; [by eapply list_elem_of_lookup_2|]. lia.
  - assert (k = k') as <- by (eapply NoDup_lookup; [exact Hnd| |]; rewrite list_lookup_fmap; [rewrite Hsd|rewrite Hsd']; simpl; [done|by rewrite E]).
    congruence.
Qed.

Context (nbuf : nat) (bs : list buf) (l : list nat) (jb : block).
Context (B0 : bs !! 0%nat = Some (Buf 3 ROOTDEV 2 0 jb)) (Hlen : length bs = nbuf) (HN : 1 <= Z.of_nat N < 2 ^ 26).
Context (Hrest : forall i b, (N < i)%nat -> bs !! i = Some b -> b = zero_buf).
Context (Hfl : Forall2 (flushed bs) l (concat ts)) (Hl : forall i, i ∈ l -> (2 <= i <= N)%nat).
Context (Hrd : forall i, i ∉ l -> (1 <= i <= N)%nat -> bs !! i = Some (rd d (Z.of_nat i + 2))).

Lemma in_txn i : i ∈ l -> exists k sd, l !! k = Some i /\ concat ts !! k = Some sd /\ flushed bs i sd.
Proof using Hfl.
  intros [k Hk]%list_elem_of_lookup_1. destruct (Forall2_lookup_l _ _ _ _ _ Hfl Hk) as (sd & Hsd & Hf). eauto.
Qed.

Lemma staged_sec i b : bs !! i = Some b -> live b = true -> final_sec l i b.
Proof using B0 HN Hfl Hl Hlen Hrd Hrest.
  intros Hb Hv. destruct (decide (i ∈ l)) as [Hi|Hi].
  - right. destruct (in_txn i Hi) as (k & sd & Hk & Hsd & Hf). exists k, sd. split_and!; [done|done|]. unfold flushed in Hf. rewrite Hf in Hb. by injection Hb as <-.
  - left. destruct (decide (i = 0%nat)) as [->|Hi0]; [rewrite B0 in Hb; injection Hb as <-; split_and!; [done|done|lia]|].
    destruct (decide (N < i)%nat) as [Hbig|Hsmall]; [rewrite (Hrest i b Hbig Hb) in Hv; done|].
    rewrite Hrd in Hb by (done || lia). injection Hb as <-. split_and!; [done|done|lia].
Qed.

Lemma flushed_staged : staged N nbuf (Hist d (replay_disk jd ts)) bs.
Proof using B0 Hfl Hho Hl Hlen HN Hnd Hrd Hrest.
  split; [done| | |done|].
  - rewrite Hrd by (try lia; intros Hi%Hl; lia). rewrite hist_read, replay_disk_journal by lia. done.
  - intros i b Hi Hb. destruct (decide (i ∈ l)) as [Hin|Hout].
    + left. destruct (in_txn i Hin) as (k & sd & Hk & Hsd & Hf). apply list_elem_of_lookup_2 in Hsd. unfold flushed in Hf.
      exists sd.1. rewrite hist_read, replay_disk_home by done. rewrite Forall_forall in Hho. destruct (Hho sd Hsd) as [Hr _].
      split; [congruence|done].
    + right. rewrite Hrd in Hb by done. injection Hb as <-. exists (Z.of_nat i + 2). rewrite hist_read, replay_disk_journal by lia.
      split; [done|lia].
  - intros i j bi bj Hi Hj Li Lj E. eapply (final_sec_inj l i j bi bj); [done| | |done]; by apply staged_sec.
Qed.
End staging.

(** The journal superblock after recovery. *)
Definition jsb_after (d : image) (ts : list txn) : block :=
  match ts with [] => dread d ROOTDEV 2 | _ => clean_jsb (dread d ROOTDEV 2) end.

Lemma pbjFSck_fresh d nbuf N ts :
  replayable d N ts -> NoDup (concat ts).*1 -> (N < nbuf)%nat ->
  exists s', pbjFSck true ROOTDEV (boot nbuf d) = Ret tt s' /\
    fresh_cache nbuf (Hist d (replay_disk (dread d ROOTDEV 2) ts)) (jsb_after d ts) s'.
Proof.
  intros Hr Hnd Hnb. destruct (pbjFSck_flushes d nbuf N (jsb_tail (dread d ROOTDEV 2)) ts) as (ms & tl & bs & lr & w & l & -> & B0 & Hlen & Hlr & Hrest & Hfl & Hndl & Hl & Hrd);
    [apply Hr|apply Hr|done|apply Hr|apply Hr|lia|apply Hr|by eapply replayable_sectors|].
  pose proof (rp_N _ _ _ Hr) as HN. eapply finish_fresh; [|done|exact B0|lia|done].
  eapply flushed_staged; try done. apply Hr.
Qed.

(** ** What the cache is good for *)

Lemma count_all {A} (f : A -> bool) l : Forall (fun x => f x = true) l -> count f l = length l.
Proof. induction 1 as [|x l Hx _ IH]; [done|]. simpl. by rewrite Hx, IH. Qed.

Section fresh.
Context (nbuf : nat) (dk : hist) (jd : block) (s : bst) (Hf : fresh_cache nbuf dk jd s).

Lemma fresh_disk : bdisk s = dk /\ present s = true.
Proof using Hf. destruct (fc_shape _ _ _ _ Hf) as (ms & tl & ->). done. Qed.

(** Every buffer is one of the two locked ones, unused or a clean copy. *)
Lemma fresh_cases i b : bufs s !! i = Some b ->
  (i = 0%nat /\ b = Buf 3 ROOTDEV 2 0 jd) \/ (i = 1%nat /\ b = Buf 3 ROOTDEV 3 0 (dread dk ROOTDEV 3)) \/
  (2 <= i)%nat /\ (b = zero_buf \/ copy_of dk 2 b).
Proof using Hf.
  intros Hb. destruct i as [|[|i]].
  - left. rewrite (fc_jsb _ _ _ _ Hf) in Hb. by injection Hb as <-.
  - right. left. rewrite (fc_hdr _ _ _ _ Hf) in Hb. by injection Hb as <-.
  - right. right. split; [lia|]. apply (fc_rest _ _ _ _ Hf (S (S i))); [lia|done].
Qed.

Lemma fresh_nfree : nfree s = (nbuf - 2)%nat.
Proof using Hf.
  unfold nfree. pose proof (fc_jsb _ _ _ _ Hf) as H0. pose proof (fc_hdr _ _ _ _ Hf) as H1. pose proof (fc_rest _ _ _ _ Hf) as Hr.
  rewrite <-(fc_len _ _ _ _ Hf). destruct (bufs s) as [|b0 [|b1 bs]]; [done|done|]. injection H0 as ->. injection H1 as ->.
  cbn [count length]. change (not_busy (Buf 3 _ _ _ _)) with false. simpl. rewrite Nat.sub_0_r. apply count_all, Forall_lookup. intros i b Hb.
  destruct (Hr (S (S i)) b) as [->|(sec & -> & _)]; [lia|done|done|done].
Qed.

Lemma fresh_inv : cache_inv s.
Proof using Hf.
  split; [split|].
  - rewrite (fc_len _ _ _ _ Hf). apply Hf.
  - intros i j bi bj Hi Hj Li Lj _ E. by apply (fc_unique _ _ _ _ Hf i j bi bj).
  - intros i b Hb. rewrite (proj1 fresh_disk). intros Hbusy Hv _.
    destruct (fresh_cases i b Hb) as [(_ & ->)|[(_ & ->)|(_ & [->|(sec & -> & Hs)])]]; [done|done|done|].
    unfold b_drive, b_lba. simpl. by rewrite Z.mod_small.
Qed.

Lemma fresh_calm : (3 <= nbuf)%nat -> calm s.
Proof using Hf.
  intros Hn. split; [apply inv_wf, fresh_inv|apply fresh_disk| |rewrite fresh_nfree; lia].
  intros i b Hb Hbusy. destruct (fresh_cases i b Hb) as [(_ & ->)|[(_ & ->)|(_ & [->|(sec & -> & Hs)])]]; [done|done|by left|by right].
Qed.

Lemma fresh_held sec : held s ROOTDEV sec -> sec = 2 \/ sec = 3.
Proof using Hf.
  intros (i & b & Hb & Hc & Hbusy). apply caches_spec in Hc as (L & _ & <-).
  destruct (fresh_cases i b Hb) as [(_ & ->)|[(_ & ->)|(_ & [->|(sec & -> & Hs)])]]; [by left|by right|done|].
  destruct Hbusy as [?|[]]; [done|]. unfold disk_block. rewrite (proj1 fresh_disk). simpl. by rewrite Z.mod_small.
Qed.

Lemma fresh_open N :
  is_block jd -> is_block (dread dk ROOTDEV 3) -> dread dk ROOTDEV 2 = jd ->
  jsb_size jd = Z.of_nat N -> jsb_head jd = 3 -> jsb_tail jd = 3 -> open_txn s N [].
Proof using Hf.
  intros Bj Bh Hj Hsz Hhd Htl. destruct (fc_shape _ _ _ _ Hf) as (ms & tl & E).
  exists (lru s), 0%nat, 1%nat, ms, tl, [], (bufs s), dk, (wakes s), 0, jd, 0, (dread dk ROOTDEV 3).
  split; [exact E|]. split_and!; try done; try apply Hf; first [apply NoDup_nil_2|apply Forall2_nil_2|set_solver].
Qed.
End fresh.

(** ** The rebooted kernel *)

(** A kernel that can start a transaction: a consistent cache with room,
    only the journal's own blocks locked, the journal of [N] blocks empty. *)
Record booted (N nbuf : nat) (s : bst) : Prop := {
  bt_calm : calm s;
  bt_free : nfree s = (nbuf - 2)%nat;
  bt_held sec : held s ROOTDEV sec -> sec = 2 \/ sec = 3;
  bt_open : open_txn s N [];
  bt_header : is_block (dread (h_image (bdisk s)) ROOTDEV 3) }.

Lemma reboot d nbuf N ts :
  replayable d N ts -> NoDup (concat ts).*1 -> (N < nbuf)%nat -> (3 <= nbuf)%nat -> is_block (dread d ROOTDEV 3) ->
  exists s', pbjFSck true ROOTDEV (boot nbuf d) = Ret tt s' /\ booted N nbuf s' /\
    bdisk s' = Hist d (replay_disk (dread d ROOTDEV 2) ts).
Proof.
  intros Hr Hnd Hnb Hn3 B3. destruct (pbjFSck_fresh d nbuf N ts Hr Hnd Hnb) as (s' & E & Hf).
  pose proof (proj1 (fresh_disk _ _ _ _ Hf)) as Hd. exists s'. split; [exact E|]. split; [|done].
  pose proof (rp_N _ _ _ Hr) as HN. assert (B3' : is_block (dread (replay_writes (replay_disk (dread d ROOTDEV 2) ts) d) ROOTDEV 3)).
  { rewrite (replay_disk_journal d N); [done|apply Hr|done|lia]. }
  split; [by eapply fresh_calm|by eapply fresh_nfree|by eapply fresh_held| |by rewrite Hd].
  destruct (clean_jsb_spec _ (rp_block _ _ _ Hr)) as (Cs & Ch & Ct).
  eapply fresh_open; [exact Hf|..].
  - unfold jsb_after. destruct ts; [apply Hr|apply clean_jsb_block, Hr].
  - done.
  - rewrite hist_read. unfold jsb_after. destruct ts as [|t ts]; [done|]. cbn [replay_disk]. unfold flush_writes. apply replay_last.
  - unfold jsb_after. destruct ts; [apply Hr|]. rewrite Cs. apply Hr.
  - unfold jsb_after. destruct ts; [apply Hr|]. done.
  - unfold jsb_after. destruct ts; [|done]. pose proof (rp_has _ _ _ Hr) as Hh. pose proof (rp_tail _ _ _ Hr). cbn [journal_has] in Hh. lia.
Qed.

(** ** The disk of a crashed kernel *)

Lemma replay_block ws d dv sec :
  is_block (dread d dv sec) -> Forall (fun w => (w.1.1, w.1.2) = (dv, sec) -> is_block w.2) ws -> is_block (dread (replay_writes ws d) dv sec).
Proof.
  revert d. induction ws as [|w ws IH]; intros d Hd Hw; [done|]. apply Forall_cons in Hw as [Hw Hws]. rewrite replay_cons. apply IH; [|done].
  unfold apply_write. destruct (decide ((w.1.1, w.1.2) = (dv, sec))) as [E|Hne].
  - injection E as <- <-. rewrite (dread_dwrite_eq (D := image)). by apply Hw.
  - by rewrite (dread_dwrite_ne (D := image)).
Qed.

Lemma hdr_of_block secs hd : is_block hd -> Z.of_nat (length secs) <= jt_room -> is_block (hdr_of secs hd).
Proof.
  intros Hb Hn. unfold hdr_of. apply hdr_entries_block; [done|lia|]. unfold set_jt_ndata, set_jt_checksum.
  repeat apply put_u32_block; try lia. done.
Qed.

Lemma crash_header d N t hd jd k :
  good_txn N t -> is_block hd -> is_block (dread d ROOTDEV 3) ->
  is_block (dread (replay_writes (take k (txn_writes hd jd t)) d) ROOTDEV 3).
Proof.
  intros (Hn & HN & _ & Hout) Bh B3. apply replay_block; [done|]. apply Forall_take. unfold txn_writes, commit_writes, flush_writes.
  rewrite Forall_forall in Hout. apply Forall_app. split; [|apply Forall_app; split].
  - apply Forall_cons. split; [intros _; simpl; apply hdr_of_block; [done|rewrite length_fmap; unfold jt_room; lia]|].
    apply Forall_app. split; [|by repeat constructor]. apply Forall_forall. intros w Hw%data_writes_elem [= _ E]. lia.
  - apply Forall_forall. intros w (sd & Hsd & ->)%home_writes_elem [= E]. destruct (Hout sd Hsd) as [_ Ho]. exfalso. lia.
  - by repeat constructor.
Qed.

(** A committed transaction, a crash at any point, and recovery: the next
    kernel is ready, its disk has all of the transaction or nothing. *)
Lemma crash_reboots s N nbuf t :
  open_txn s N t -> good_txn N t -> 1 <= Z.of_nat N < 2 ^ 26 -> (N < nbuf)%nat -> is_block (dread (h_image (bdisk s)) ROOTDEV 3) ->
  exists sm ws, end_trans s = Ret tt sm /\
    (forall w, exists s', jfull_flush (set_wakes w sm) = Ret tt s' /\ bdisk s' = app_writes ws (bdisk s)) /\
    length ws = (2 * length t + 3)%nat /\
    forall k, exists s', pbjFSck true ROOTDEV (boot nbuf (replay_writes (take k ws) (h_image (bdisk s)))) = Ret tt s' /\ booted N nbuf s' /\
      repaired (h_image (bdisk s)) N t (bool_decide (length t + 2 <= k)%nat) (h_image (bdisk s')).
Proof.
  intros Ho Hg HN Hnb B3. destruct (txn_runs_wakes s N t Ho Hg) as (sm & hd & jd & E & Hf & Bh & Bj & H2 & Hsz & Hhd & Htl).
  exists sm, (txn_writes hd jd t). split_and!; [done|done|apply length_txn_writes|]. intros k.
  destruct (crash_settles (h_image (bdisk s)) N nbuf t hd jd Bh Bj H2 Hsz Hhd Htl Hg HN ltac:(lia) k) as (ts & Hr & Hts & Hrep).
  pose proof Hg as (Hn & Hf1 & Hnd & _).
  destruct (reboot (replay_writes (take k (txn_writes hd jd t)) (h_image (bdisk s))) nbuf N ts) as (s' & E' & Hb & Hd);
    [done| |done|lia|by eapply crash_header|].
  { destruct Hts as [-> | ->]; simpl; [apply NoDup_nil_2|by rewrite app_nil_r]. }
  exists s'. split_and!; [done|done|]. by rewrite Hd.
Qed.
