(* ===== verification/Txn.v ===== *)
(** * Writing blocks in a transaction

    bread, a new content, bwrite and brelse of a sector nobody holds: the
    buffer stays locked and dirty in the current transaction until end_trans,
    and readers of the cache see the new content. *)

From S2P Require Import Prelude Layout Ide Bio Cache Journal Recover Crash.

(** What a transaction says of a sector. *)
Definition tx_map (t : txn) : gmap Z block := list_to_map t.

(** The sector as the transaction leaves it, [old] before. *)
Definition tx_view (t : txn) (old : Z -> block) (sec : Z) : block := default (old sec) (tx_map t !! sec).

Lemma tx_map_cons sec d t : tx_map ((sec, d) :: t) = <[sec := d]> (tx_map t).
Proof. done. Qed.

(** [grown s s' t]: from [s] to [s'] the blocks [t] of the root device have
    been written in the open transaction, and nothing else. *)
Record grown (s s' : bst) (t : txn) : Prop := {
  gr_calm : calm s';
  gr_disk : bdisk s' = bdisk s;
  gr_view sec : block_view s' ROOTDEV sec = tx_view t (block_view s ROOTDEV) sec;
  gr_held sec : held s' ROOTDEV sec -> held s ROOTDEV sec \/ sec ∈ t.*1;
  gr_free : (nfree s' + length t = nfree s)%nat;
  gr_open N t0 : open_txn s N t0 -> open_txn s' N (t ++ t0) }.

(** Reading changes nothing of the open transaction. *)
Lemma open_txn_same s s' N t : same_view s s' -> open_txn s N t -> open_txn s' N t.
Proof.
  intros [Hd Hg _ _ Hb _] (lr & j & h & ms & tl & l & bs & d & w & fj & jd & fh & hd & -> & Hh & Hnd & Hj & Hhl & Hjh & Hbj & Hbh & Hrest).
  destruct s' as [bs' lr' d' pr' w' jb' hb' jt' lk' ms' hd' tl' c' sp']. unfold globals in Hg. simpl in *. injection Hg as -> -> -> -> -> -> -> -> -> ->. subst d'.
  exists lr', j, h, ms, tl, l, bs', d, w', fj, jd, fh, hd. split; [done|]. split_and!; try done; try (by apply Hb); try apply Hrest.
  eapply Forall2_impl; [exact Hh|]. intros i sd (fa & Hi & _). exists fa. split; [by apply Hb|done].
Qed.

Lemma open_txn_size s N t : open_txn s N t -> t_size (ct s) = Z.of_nat (length t).
Proof.
  intros (lr & j & h & ms & tl & l & bs & d & w & fj & jd & fh & hd & -> & Hh & _). simpl. by rewrite (holds_length _ _ _ _ Hh).
Qed.

Lemma grown_same s s' : calm s' -> same_view s s' -> grown s s' [].
Proof.
  intros Hc Hv. split; try done.
  - apply Hv.
  - intros sec. apply (sv_view _ _ Hv).
  - intros sec Hx. left. by apply (sv_held _ _ Hv).
  - rewrite (sv_nfree _ _ Hv). simpl. lia.
  - intros N t0. by apply open_txn_same.
Qed.

Lemma grown_refl s : calm s -> grown s s [].
Proof. intros H. apply grown_same; [done|apply same_view_refl]. Qed.

Lemma tx_view_app t2 t1 old sec : tx_view (t2 ++ t1) old sec = tx_view t2 (tx_view t1 old) sec.
Proof.
  unfold tx_view, tx_map. rewrite list_to_map_app. destruct (list_to_map t2 !! sec) as [b|] eqn:E.
  - by rewrite (lookup_union_Some_l _ _ _ _ E).
  - by rewrite lookup_union_r.
Qed.

Lemma tx_view_ext t f g sec : f sec = g sec -> tx_view t f sec = tx_view t g sec.
Proof. unfold tx_view. by intros ->. Qed.

Lemma txn_grown_trans a b c t1 t2 : grown a b t1 -> grown b c t2 -> grown a c (t2 ++ t1).
Proof.
  intros [C1 D1 V1 H1 F1 O1] [C2 D2 V2 H2 F2 O2]. split; try done.
  - congruence.
  - intros sec. rewrite V2, tx_view_app. by apply tx_view_ext.
  - intros sec [[H|H]%H1|H]%H2; rewrite fmap_app, elem_of_app; auto.
  - rewrite length_app. lia.
  - intros N t0 H. rewrite <-app_assoc. auto.
Qed.

(** ** One block *)

(** The state with buffer [i] written in the transaction. *)
Definition put_buf (i : nat) (b : buf) (w : list chan) (s : bst) : bst :=
  Bst (<[i := b]> (bufs s)) (lru s) (bdisk s) (present s) w (jsblock_buf s) (jtrans_header_buf s) (jtail_bnum s)
      (trans_write_lock s) (mtns s) (mtn_head s) (mtn_tail s)
      (MemTrans (i :: t_bufs (ct s)) (t_term (ct s)) (u32 (t_size (ct s) + 1))) (should_panic s).

Lemma put_buf_grown s i b0 fa sec d w :
  calm s -> (2 <= nfree s)%nat -> bufs s !! i = Some b0 -> has B_BUSY b0 = false ->
  (forall k bk, k <> i -> bufs s !! k = Some bk -> caches ROOTDEV sec bk = false) ->
  u32 (t_size (ct s) + 1) = t_size (ct s) + 1 ->
  grown s (put_buf i (Buf 7 ROOTDEV sec fa d) w s) [(sec, d)].
Proof.
  intros Hs Hnf Hb0 Hn0 Hother Hsz. pose proof (calm_wf s Hs) as Hi. pose proof (lookup_lt_Some _ _ _ Hb0) as Hlt.
  set (b := Buf 7 ROOTDEV sec fa d). set (s' := put_buf i b w s).
  assert (Hbi : bufs s' !! i = Some b) by (by apply list_lookup_insert_eq).
  assert (Hbk : forall k, k <> i -> bufs s' !! k = bufs s !! k) by (intros k Hk; by apply list_lookup_insert_ne).
  assert (Hinv : cache_wf s').
  { eapply (cache_wf_update s _ i b0 b); try done.
    intros k bk Hk Hbk' Lk _ Dk Sk. specialize (Hother k bk Hk Hbk'). apply not_true_iff_false in Hother.
    apply Hother. by apply caches_spec. }
  assert (Hcount : (nfree s' + 1 = nfree s)%nat).
  { pose proof (count_insert not_busy (bufs s) i b0 b Hb0) as Hc. unfold not_busy in Hc at 2. rewrite Hn0 in Hc.
    change (not_busy b) with false in Hc. unfold nfree. simpl in *. lia. }
  split; try done.
  - split; [done|apply Hs| |lia]. intros k bk Hk Hn. destruct (decide (k = i)) as [->|Hne]; [rewrite Hbi in Hk; by injection Hk as <-|].
    rewrite Hbk in Hk by done. by apply (calm_flags s Hs k).
  - intros x. unfold tx_view. rewrite tx_map_cons. destruct (decide (sec = x)) as [<-|Hx].
    + rewrite lookup_insert_eq. rewrite (view_cached s' ROOTDEV sec i b Hinv Hbi); [done|by apply caches_spec].
    + rewrite lookup_insert_ne by done. simpl.
      assert (Hne : caches ROOTDEV x b = false).
      { apply not_true_iff_false. intros (_ & _ & E)%caches_spec. by apply Hx. }
      apply (view_other s s' i b0 b); done.
  - intros x (k & bk & Hk & Hck & Hbusy). destruct (decide (k = i)) as [->|Hne].
    + rewrite Hbi in Hk. injection Hk as <-. right. apply caches_spec in Hck as (_ & _ & <-). simpl. constructor.
    + left. exists k, bk. by rewrite Hbk in Hk.
  - intros N t0 (lr & j & h & ms & tl & l & bs & dk & w0 & fj & jd & fh & hd & -> & Hh & Hnd & Hj & Hhl & Hjh & Hbj & Hbh & Hrest).
    simpl in *. assert (Hil : i ∉ l).
    { intros Hin. apply list_elem_of_lookup in Hin as [k Hk]. destruct (Forall2_lookup_l _ _ _ _ _ Hh Hk) as (sd & _ & fa' & Hx & _).
      rewrite Hb0 in Hx. by injection Hx as ->. }
    assert (Hij : i <> j) by (intros ->; rewrite Hb0 in Hbj; by injection Hbj as ->).
    assert (Hih : i <> h) by (intros ->; rewrite Hb0 in Hbh; by injection Hbh as ->).
    exists lr, j, h, ms, tl, (i :: l), (<[i := b]> bs), dk, w, fj, jd, fh, hd. split_and!; try apply Hrest; try done.
    + unfold s', put_buf, idle. simpl. rewrite Hsz. do 2 f_equal. lia.
    + constructor; [exists fa; split; [by apply list_lookup_insert_eq|done]|by apply holds_insert].
    + by constructor.
    + by apply not_elem_of_cons.
    + by apply not_elem_of_cons.
    + by rewrite list_lookup_insert_ne.
    + by rewrite list_lookup_insert_ne.
Qed.

(** The rest of a write: the new content, bwrite, brelse. *)
Definition put_data (i : nat) (d : block) : M bst unit := updb i (set_data d) ;; bwrite i ;; brelse i.

Lemma put_data_ret s i fa sec d0 d :
  bufs s !! i = Some (Buf 3 ROOTDEV sec fa d0) -> 0 <= t_size (ct s) < u32_mod - 1 ->
  put_data i d s = Ret tt (put_buf i (Buf 7 ROOTDEV sec fa d) (wakes s) s).
Proof.
  intros Hb Hsz. pose proof (lookup_lt_Some _ _ _ Hb) as Hlt. destruct s as [bs lr dk pr w jb hb jt lk ms hd tl c sp]. simpl in *.
  unfold put_data. run updb_ret. unfold bwrite. rewrite bind_assoc. run getb_ret. change (negb (has B_BUSY _)) with false. cbv iota.
  run_pure. run updb_ret. run_pure. unfold brelse. run getb_ret. change (negb (has B_BUSY _)) with false. cbv iota.
  erewrite bind_ret by reflexivity. change (has B_DIRTY _) with true. cbn [ct t_size].
  unfold put_buf. simpl. rewrite u32_small by lia. destruct (Z.eqb_spec (t_size c + 1) 0); [lia|done].
Qed.

(** Writing a sector nobody holds: the buffer bread returns shows the current
    content, and from there a new one goes into the transaction. *)
Lemma write_block s sec :
  calm s -> (2 <= nfree s)%nat -> ~ held s ROOTDEV sec -> 0 <= t_size (ct s) < u32_mod - 1 ->
  exists i b s1, bread ROOTDEV sec s = Ret i s1 /\ bufs s1 !! i = Some b /\ data b = block_view s ROOTDEV sec /\
    forall d, exists s2, put_data i d s1 = Ret tt s2 /\ grown s s2 [(sec, d)].
Proof.
  intros Hs Hnf Hh Hsz. pose proof (calm_wf s Hs) as Hi.
  assert (Hu : u32 (t_size (ct s) + 1) = t_size (ct s) + 1) by (apply u32_small; lia).
  destruct (cached s ROOTDEV sec) as [i|] eqn:E.
  - destruct (cached_some _ _ _ _ E) as (b & Hb & Hc). pose proof (lookup_lt_Some _ _ _ Hb) as Hlt.
    destruct (unheld_copy s ROOTDEV sec i b Hh Hb Hc) as [Hnb Hdk].
    pose proof Hc as Hc'. apply caches_spec in Hc' as (L & D & S). unfold live in L. rewrite has_lor, Hnb in L. simpl in L.
    assert (Hfl : flags b = B_VALID) by (destruct (calm_flags s Hs i b Hb Hnb) as [E0|]; [|done]; unfold has in L; by rewrite E0 in L).
    assert (Eb : or_flags B_BUSY b = Buf 3 ROOTDEV sec (faliable b) (data b)).
    { destruct b. simpl in *. by subst. }
    exists i, (or_flags B_BUSY b), (set_bufs (<[i := or_flags B_BUSY b]> (bufs s)) s).
    split; [by apply bread_hit|]. split; [by apply list_lookup_insert_eq|]. split; [by rewrite (view_clean s i b)|].
    intros d. rewrite Eb. eexists. split; [eapply put_data_ret; [by apply list_lookup_insert_eq|done]|].
    unfold put_buf. simpl. rewrite list_insert_insert_eq. apply (put_buf_grown s i b); try done.
    intros k bk Hk Hbk. destruct (caches _ _ bk) eqn:Ek; [|done]. exfalso. apply Hk.
    pose proof (cached_iff s _ _ k bk Hi Hbk Ek). congruence.
  - destruct (victim_some s Hs) as [i Hv]. destruct (find_buf_some _ _ _ _ Hv) as (_ & b & Hb & Hnb).
    unfold not_busy in Hnb. apply negb_true_iff in Hnb. pose proof (lookup_lt_Some _ _ _ Hb) as Hlt.
    set (b1 := Buf 3 ROOTDEV sec (faliable b) (disk_block s ROOTDEV sec)).
    exists i, b1, (set_io (<[i := b1]> (bufs s)) (bdisk s) (ChBuf i :: wakes s) s).
    split; [apply bread_miss; try done; right; apply Hs|]. split; [by apply list_lookup_insert_eq|]. split.
    { symmetry. apply view_uncached; [done|]. intros k bk Hbk. exact (cached_none s ROOTDEV sec k bk Hi E Hbk). }
    intros d. eexists. split; [eapply put_data_ret; [by apply list_lookup_insert_eq|done]|].
    unfold put_buf. simpl. rewrite list_insert_insert_eq. apply (put_buf_grown s i b); try done.
    intros k bk Hk Hbk. exact (cached_none s ROOTDEV sec k bk Hi E Hbk).
Qed.
