(* ===== verification/Commit.v ===== *)
(** * The cache after a commit and its checkpoint

    end_trans and jfull_flush give the transaction's buffers back: the cache
    is again as calm as before, shows every block as the transaction left it,
    and the next transaction may start.  So transactions follow each other,
    and a crash leaves a prefix of them. *)

From S2P Require Import Prelude Layout Ide Bio Cache Journal Recover Crash Reboot Txn.

Lemma repaired_view d0 N t new d' x :
  repaired d0 N t new d' -> outside_journal N x -> NoDup t.*1 ->
  dread d' ROOTDEV x = if new then tx_view t (dread d0 ROOTDEV) x else dread d0 ROOTDEV x.
Proof.
  intros [Ht Ho] Hx Hnd. unfold tx_view, tx_map. destruct (list_to_map t !! x) as [b|] eqn:E.
  - apply elem_of_list_to_map_2 in E. by apply (Ht (x, b)).
  - apply not_elem_of_list_to_map_2 in E. rewrite Ho by done. by destruct new.
Qed.

(** ** Lists of buffers that differ in some places *)

Lemma count_map {A} (f : A -> bool) l l' : f <$> l = f <$> l' -> count f l = count f l'.
Proof.
  revert l'. induction l as [|x l IH]; intros [|y l'] E; simpl in E; try done. injection E as E1 E2. simpl. by rewrite E1, (IH l').
Qed.

Lemma count_flip {A} (f : A -> bool) l : forall bs bs',
  NoDup l -> (forall i, i ∈ l -> f <$> bs !! i = Some false /\ f <$> bs' !! i = Some true) ->
  (forall i, i ∉ l -> f <$> bs' !! i = f <$> bs !! i) -> count f bs' = (count f bs + length l)%nat.
Proof.
  induction l as [|i l IH]; intros bs bs' Hnd Hin Hout.
  - rewrite Nat.add_0_r. apply count_map. apply list_eq. intros i. rewrite !list_lookup_fmap. apply Hout, not_elem_of_nil.
  - apply NoDup_cons in Hnd as [Hil Hnd]. destruct (Hin i) as [H1 H2]; [constructor|].
    apply fmap_Some in H1 as (b & Hb & Ef). apply fmap_Some in H2 as (b' & Hb' & Ef').
    pose proof (count_insert f bs i b b' Hb) as Hc. rewrite <-Ef, <-Ef' in Hc. rewrite (IH (<[i := b']> bs) bs').
    + simpl. lia.
    + done.
    + intros k Hk. assert (k <> i) by (by intros ->). rewrite list_lookup_insert_ne by done. apply Hin. by constructor.
    + intros k Hk. destruct (decide (k = i)) as [->|Hne].
      * rewrite list_lookup_insert_eq by (by eapply lookup_lt_Some). by rewrite Hb'.
      * rewrite list_lookup_insert_ne by done. apply Hout. by apply not_elem_of_cons.
Qed.

Lemma same_places {A} (bs bs' : list A) : (forall i, is_Some (bs' !! i) <-> is_Some (bs !! i)) -> length bs' = length bs.
Proof.
  intros H. assert (E : (fun _ => tt) <$> bs' = (fun _ => tt) <$> bs).
  { apply list_eq. intros i. rewrite !list_lookup_fmap. specialize (H i). destruct (bs' !! i), (bs !! i); try done.
    - destruct (proj1 H ltac:(eauto)). done.
    - destruct (proj2 H ltac:(eauto)). done. }
  apply (f_equal length) in E. by rewrite !length_fmap in E.
Qed.

(** ** What a disk stands for *)

(** Recovery makes the contents [v] of the sectors outside the journal. *)
Definition stands_for (N : nat) (d : image) (v : Z -> block) : Prop := exists ts,
  replayable d N ts /\ NoDup (concat ts).*1 /\ is_block (dread d ROOTDEV 3) /\
  forall x, outside_journal N x -> dread (replay_writes (replay_disk (dread d ROOTDEV 2) ts) d) ROOTDEV x = v x.

Lemma stands_for_ext N d v v' : (forall x, outside_journal N x -> v x = v' x) -> stands_for N d v -> stands_for N d v'.
Proof. intros H (ts & H1 & H2 & H3 & H4). exists ts. split_and!; [done..|]. intros x Hx. rewrite <-H by done. by apply H4. Qed.

Lemma stands_for_empty N d :
  is_block (dread d ROOTDEV 2) -> jsb_size (dread d ROOTDEV 2) = Z.of_nat N -> jsb_head (dread d ROOTDEV 2) = 3 ->
  jsb_tail (dread d ROOTDEV 2) = 3 -> 1 <= Z.of_nat N < 2 ^ 26 -> is_block (dread d ROOTDEV 3) -> stands_for N d (dread d ROOTDEV).
Proof.
  intros Hb Hsz Hhd Htl HN H3. exists []. split_and!; [|apply NoDup_nil_2|done|done].
  split; rewrite ?Htl; try done.
Qed.

(** ** The state after a commit *)

(** From [s] to [s'] the transaction [t] has been committed and written
    home: the same blocks are seen, all of them on disk, none of them locked
    by it, and the journal is empty; a disk on which only some of the writes
    have been made stands for the old blocks until the commit record. *)
Record commits (N : nat) (t : txn) (s s' : bst) : Prop := {
  cm_calm : calm s';
  cm_open : open_txn s' N [];
  cm_disk x : outside_journal N x ->
    dread (h_image (bdisk s')) ROOTDEV x = tx_view t (dread (h_image (bdisk s)) ROOTDEV) x;
  cm_view x : outside_journal N x -> block_view s' ROOTDEV x = block_view s ROOTDEV x;
  cm_held x : outside_journal N x -> held s' ROOTDEV x -> held s ROOTDEV x /\ x ∉ t.*1;
  cm_free : nfree s' = (nfree s + length t)%nat;
  cm_header : is_block (dread (h_image (bdisk s')) ROOTDEV 3);
  cm_crash : 1 <= Z.of_nat N < 2 ^ 26 -> is_block (dread (h_image (bdisk s)) ROOTDEV 3) ->
    exists ws, bdisk s' = app_writes ws (bdisk s) /\ length ws = (2 * length t + 3)%nat /\
      forall c, stands_for N (replay_writes (take c ws) (h_image (bdisk s)))
        (if decide (c < length t + 2)%nat then dread (h_image (bdisk s)) ROOTDEV else tx_view t (dread (h_image (bdisk s)) ROOTDEV)) }.

Section commit.
Context (N : nat) (t : txn) (lr : list nat) (j h : nat) (ms : list mtn) (tl : mptr) (l : list nat) (bs : list buf) (d : hist).
Context (w : list chan) (fj fh : Z) (jd hd : block) (lr' : list nat) (ms' : list mtn) (tl' : mptr) (bs' : list buf) (w' : list chan).
Let s : bst := idle lr j h ms tl (MemTrans l true (Z.of_nat (length l))) 0 bs d w.
Let d' : hist := app_writes (txn_writes hd jd t) d.
Let s' : bst := idle lr' j h ms' tl' (MemTrans [] true 0) 0 bs' d' w'.
Let jd' : block := clean_jsb (committed_jsb (Z.of_nat (length t) + 3) jd).
Context (Hh : holds (fun _ => True) bs l t) (Hnd : NoDup l) (Hj : j ∉ l) (Hhl : h ∉ l) (Hjh : j <> h).
Context (Hbj : bs !! j = Some (Buf 3 ROOTDEV 2 fj jd)) (Hbh : bs !! h = Some (Buf 3 ROOTDEV 3 fh hd)).
Context (Bj : is_block jd) (Bh : is_block hd) (Hdk : dread d ROOTDEV 2 = jd).
Context (Hsz : jsb_size jd = Z.of_nat N) (Hhd : jsb_head jd = 3) (Htl : jsb_tail jd = 3).
Context (Hg : good_txn N t) (Hs : calm s) (Hc : checkpointed t l j h fj fh jd hd bs bs') (Hlr : lr' ≡ₚ lr).

(** What became of a buffer. *)
Inductive after : buf -> buf -> Prop :=
| after_txn sd fa : sd ∈ t -> after (Buf 7 ROOTDEV sd.1 fa sd.2) (Buf 2 ROOTDEV sd.1 0 sd.2)
| after_jsb : after (Buf 3 ROOTDEV 2 fj jd) (Buf 3 ROOTDEV 2 fj jd')
| after_hdr : after (Buf 3 ROOTDEV 3 fh hd) (Buf 3 ROOTDEV 3 fh (hdr_of t.*1 hd))
| after_same b : after b b.

Lemma txn_buf i : i ∈ l -> exists sd fa, sd ∈ t /\ bs !! i = Some (Buf 7 ROOTDEV sd.1 fa sd.2) /\ bs' !! i = Some (Buf 2 ROOTDEV sd.1 0 sd.2).
Proof using All.
  intros [k Hk]%list_elem_of_lookup_1. destruct (Forall2_lookup_l _ _ _ _ _ Hh Hk) as (sd & Hsd & fa & Hi & _).
  destruct (Forall2_lookup_l _ _ _ _ _ (cb_txn _ _ _ _ _ _ _ _ _ _ Hc) Hk) as (sd' & Hsd' & Hf). rewrite Hsd in Hsd'. injection Hsd' as <-.
  exists sd, fa. split; [by eapply list_elem_of_lookup_2|]. by split.
Qed.

Lemma txn_place sd : sd ∈ t -> exists i fa, i ∈ l /\ bs !! i = Some (Buf 7 ROOTDEV sd.1 fa sd.2) /\ bs' !! i = Some (Buf 2 ROOTDEV sd.1 0 sd.2).
Proof using All.
  intros [k Hk]%list_elem_of_lookup_1. destruct (Forall2_lookup_r _ _ _ _ _ Hh Hk) as (i & Hi & fa & Hb & _).
  pose proof (Forall2_lookup_lr _ _ _ _ _ _ (cb_txn _ _ _ _ _ _ _ _ _ _ Hc) Hi Hk) as Hf.
  exists i, fa. split; [by eapply list_elem_of_lookup_2|]. by split.
Qed.

Lemma after_cases i :
  (bs !! i = None /\ bs' !! i = None) \/ exists b b', bs !! i = Some b /\ bs' !! i = Some b' /\ after b b' /\ (i ∉ l -> not_busy b' = not_busy b).
Proof using All.
  destruct (decide (i ∈ l)) as [Hi|Hi].
  { right. destruct (txn_buf i Hi) as (sd & fa & Hsd & H1 & H2). eexists _, _. split_and!; [exact H1|exact H2|by constructor|done]. }
  destruct (decide (i = j)) as [->|Hij].
  { right. eexists _, _. split_and!; [exact Hbj|apply Hc|constructor|done]. }
  destruct (decide (i = h)) as [->|Hih].
  { right. eexists _, _. split_and!; [exact Hbh|apply Hc|constructor|done]. }
  rewrite (cb_rest _ _ _ _ _ _ _ _ _ _ Hc i Hi Hij Hih). destruct (bs !! i) as [b|] eqn:E; [|by left].
  right. exists b, b. split_and!; [done|done|constructor|done].
Qed.

Lemma after_inv i b' : bs' !! i = Some b' -> exists b, bs !! i = Some b /\ after b b'.
Proof using All. intros Hb. destruct (after_cases i) as [[_ E]|(b & b2 & H1 & H2 & H3 & _)]; [congruence|]. exists b. split; [done|congruence]. Qed.

Lemma after_key b b' : after b b' -> dev b' = dev b /\ sector b' = sector b /\ live b' = live b.
Proof using All. by intros []. Qed.

Lemma commit_length : length bs' = length bs.
Proof using All.
  apply same_places. intros i. destruct (after_cases i) as [[-> ->]|(b & b' & -> & -> & _)]; [done|]. split; eauto.
Qed.

Lemma commit_wf : cache_wf s'.
Proof using All.
  split; simpl.
  - rewrite commit_length, Hlr. apply (inv_lru s (calm_wf s Hs)).
  - intros i k bi bk Hi Hk Li Lk D S. destruct (after_inv i bi Hi) as (b1 & H1 & A1). destruct (after_inv k bk Hk) as (b2 & H2 & A2).
    apply after_key in A1 as (D1 & S1 & L1). apply after_key in A2 as (D2 & S2 & L2).
    apply (inv_unique s (calm_wf s Hs) i k b1 b2); [exact H1|exact H2|congruence..].
Qed.

Lemma commit_nfree : nfree s' = (nfree s + length t)%nat.
Proof using All.
  unfold nfree. simpl. rewrite <-(holds_length _ _ _ _ Hh). apply count_flip; [done| |].
  - intros i Hi. destruct (txn_buf i Hi) as (sd & fa & _ & -> & ->). done.
  - intros i Hi. destruct (after_cases i) as [[-> ->]|(b & b' & -> & -> & _ & E)]; [done|]. simpl. by rewrite E.
Qed.

Lemma commit_calm : calm s'.
Proof using All.
  split; [apply commit_wf|done| |rewrite commit_nfree; pose proof (calm_free s Hs); lia].
  intros i b' Hb Hn. destruct (after_inv i b' Hb) as (b & H & A). destruct A as [sd fa Hsd| | |b]; [by right|done|done|].
  by apply (calm_flags s Hs i).
Qed.

(** *** The disk *)

Lemma commit_disk_image : h_image d' = replay_writes (txn_writes hd jd t) (h_image d).
Proof using All. unfold d', h_image, app_writes. simpl. by rewrite replay_app. Qed.

Lemma commit_repaired : repaired (h_image d) N t true (h_image d').
Proof using All.
  rewrite commit_disk_image. unfold txn_writes. rewrite replay_app.
  apply flushed_new; [done|]. do 2 right. intros sec Ho _. eapply journal_writes_other; [|exact Ho].
  by apply commit_writes_range.
Qed.

Lemma commit_disk x : outside_journal N x -> dread (h_image d') ROOTDEV x = tx_view t (dread (h_image d) ROOTDEV) x.
Proof using All. intros Ho. by rewrite (repaired_view _ _ _ _ _ x commit_repaired Ho) by apply Hg. Qed.

Lemma commit_disk_txn sd : sd ∈ t -> disk_block s' ROOTDEV sd.1 = sd.2.
Proof using All.
  intros Hsd. destruct (home_outside N t Hg sd Hsd) as [Hr _]. unfold disk_block. rewrite Z.mod_small by done.
  by apply (proj1 commit_repaired).
Qed.

Lemma commit_disk_other x : outside_journal N x -> x ∉ t.*1 -> disk_block s' ROOTDEV x = disk_block s ROOTDEV x.
Proof using All.
  intros Ho Hx. unfold disk_block. destruct Ho as [Hr Ho]. rewrite !Z.mod_small by done. by apply (proj2 commit_repaired).
Qed.

Lemma commit_header : is_block (dread (h_image d') ROOTDEV 3).
Proof using All.
  destruct Hg as (Hn & HN & _ & Hout). rewrite Forall_forall in Hout.
  rewrite commit_disk_image. unfold txn_writes. rewrite replay_app, replay_other.
  - unfold commit_writes. rewrite replay_cons, replay_other.
    + unfold apply_write. rewrite (dread_dwrite_eq (D := image)). simpl. apply hdr_of_block; [done|]. rewrite length_fmap. unfold jt_room. lia.
    + apply Forall_app. split; [|by repeat constructor]. apply Forall_forall. intros w0 Hw%data_writes_elem [= _ E]. lia.
  - unfold flush_writes. apply Forall_app. split; [|by repeat constructor].
    apply Forall_forall. intros w0 (sd & Hsd & ->)%home_writes_elem [= E]. destruct (Hout sd Hsd) as [_ Ho]. lia.
Qed.

Lemma commit_open : open_txn s' N [].
Proof using All.
  destruct Hg as (Hn & _). destruct (committed_jsb_spec (Z.of_nat (length t) + 3) jd Bj) as (Es & Eh & Et & Bc); [unfold u32_mod; lia|].
  destruct (clean_jsb_spec _ Bc) as (Cs & Ch & Ct).
  exists lr', j, h, ms', tl', [], bs', d', w', fj, jd', fh, (hdr_of t.*1 hd). split_and!; try done; try apply Hc.
  - apply Forall2_nil_2.
  - apply NoDup_nil_2.
  - apply not_elem_of_nil.
  - apply not_elem_of_nil.
  - by apply clean_jsb_block.
  - apply hdr_of_block; [done|]. rewrite length_fmap. unfold jt_room. lia.
  - change (dread (h_image d') ROOTDEV 2 = jd'). rewrite commit_disk_image. unfold txn_writes, flush_writes. rewrite app_assoc. apply replay_last.
  - unfold jd'. by rewrite Cs, Es.
Qed.

(** *** What is seen and locked *)

(** A buffer of a sector outside the journal was given back or is as before,
    and then the sector is not the transaction's. *)
Lemma after_outside i b' x :
  bs' !! i = Some b' -> caches ROOTDEV x b' = true -> outside_journal N x ->
  (exists sd fa, sd ∈ t /\ sd.1 = x /\ b' = Buf 2 ROOTDEV x 0 sd.2 /\ bs !! i = Some (Buf 7 ROOTDEV x fa sd.2)) \/
  (bs !! i = Some b' /\ x ∉ t.*1).
Proof using All.
  intros Hb Hcx Ho. destruct (after_inv i b' Hb) as (b & H & A). pose proof Hcx as Hk. apply caches_spec in Hk as (L & D & S).
  destruct Hg as (Hn & HN & _). destruct Ho as [_ Ho]. destruct A as [sd fa Hsd| | |b].
  - left. simpl in S. subst x. by exists sd, fa.
  - simpl in S. lia.
  - simpl in S. lia.
  - right. split; [done|]. intros ([x' dx] & -> & Hsd)%list_elem_of_fmap. destruct (txn_place _ Hsd) as (k & fa & Hk & H1 & H2).
    assert (i = k) as -> by (by apply (inv_unique s (calm_wf s Hs) i k b _ H H1)). rewrite Hb in H2. injection H2 as ->. congruence.
Qed.

Lemma commit_held x : outside_journal N x -> held s' ROOTDEV x -> held s ROOTDEV x /\ x ∉ t.*1.
Proof using All.
  intros Ho (i & b' & Hb & Hcx & Hbz). destruct (after_outside i b' x Hb Hcx Ho) as [(sd & fa & Hsd & <- & -> & _)|[H Hx]].
  - exfalso. destruct Hbz as [?|Hne]; [done|]. apply Hne. simpl. symmetry. by apply commit_disk_txn.
  - split; [|done]. exists i, b'. split; [done|]. split; [done|]. by rewrite <-(commit_disk_other x Ho Hx).
Qed.

Lemma commit_view x : outside_journal N x -> block_view s' ROOTDEV x = block_view s ROOTDEV x.
Proof using All.
  intros Ho. pose proof commit_wf as Hw'. pose proof (calm_wf s Hs) as Hw. destruct (cached s' ROOTDEV x) as [i|] eqn:E.
  - destruct (cached_some _ _ _ _ E) as (b' & Hb & Hcx). rewrite (view_cached s' _ _ i b' Hw' Hb Hcx).
    destruct (after_outside i b' x Hb Hcx Ho) as [(sd & fa & Hsd & <- & -> & H)|[H Hx]].
    + rewrite (view_cached s ROOTDEV sd.1 i _ Hw H) by (by apply caches_spec). simpl. by apply commit_disk_txn.
    + rewrite (view_cached s ROOTDEV x i b' Hw H Hcx). by rewrite (commit_disk_other x Ho Hx).
  - assert (Hno : forall i b', bs' !! i = Some b' -> caches ROOTDEV x b' = false) by (intros i b' Hb; by apply (cached_none s' _ _ i b' Hw' E)).
    assert (Hx : x ∉ t.*1).
    { intros ([x' dx] & -> & Hsd)%list_elem_of_fmap. destruct (txn_place _ Hsd) as (k & fa & _ & _ & H2). specialize (Hno _ _ H2).
      apply not_true_iff_false in Hno. apply Hno. by apply caches_spec. }
    rewrite (view_uncached s' ROOTDEV x Hw' Hno), (view_uncached s ROOTDEV x Hw); [by apply commit_disk_other|].
    intros i b Hb. destruct (after_cases i) as [[Hn _]|(b0 & b' & H1 & H2 & A & _)]; [simpl in Hb; congruence|].
    simpl in Hb. rewrite H1 in Hb. injection Hb as ->. specialize (Hno i b' H2). apply after_key in A as (D & S & L).
    apply not_true_iff_false. intros (L0 & D0 & S0)%caches_spec. apply not_true_iff_false in Hno. apply Hno. apply caches_spec. split_and!; congruence.
Qed.

Lemma commit_crash : 1 <= Z.of_nat N < 2 ^ 26 -> is_block (dread (h_image d) ROOTDEV 3) ->
  exists ws, d' = app_writes ws d /\ length ws = (2 * length t + 3)%nat /\
    forall c, stands_for N (replay_writes (take c ws) (h_image d))
      (if decide (c < length t + 2)%nat then dread (h_image d) ROOTDEV else tx_view t (dread (h_image d) ROOTDEV)).
Proof using All.
  intros HN B3. exists (txn_writes hd jd t). split; [done|]. split; [apply length_txn_writes|]. intros c.
  destruct (crash_settles (h_image d) N (N + 1) t hd jd Bh Bj Hdk Hsz Hhd Htl Hg HN ltac:(lia) c) as (ts & Hr & Hts & Hrep).
  exists ts. split_and!; [done| |by eapply crash_header|].
  - destruct Hts as [-> | ->]; simpl; [apply NoDup_nil_2|rewrite app_nil_r; apply Hg].
  - intros x Hx. rewrite (repaired_view _ _ _ _ _ x Hrep Hx) by apply Hg.
    destruct (decide (c < length t + 2)%nat); [by rewrite bool_decide_false by lia|by rewrite bool_decide_true by lia].
Qed.

Lemma commit_ok : commits N t s s'.
Proof using All.
  split; [apply commit_calm|apply commit_open|apply commit_disk|apply commit_view|apply commit_held|apply commit_nfree|apply commit_header|apply commit_crash].
Qed.
End commit.

(** Commit and checkpoint of a transaction, whatever wakeups are delivered in
    between. *)
Lemma commit_ret s N t :
  open_txn s N t -> good_txn N t -> calm s ->
  exists sm, end_trans s = Ret tt sm /\
    forall w, exists s', jfull_flush (set_wakes w sm) = Ret tt s' /\ commits N t s s'.
Proof.
  intros (lr & j & h & ms & tl & l & bs & d & w & fj & jd & fh & hd & -> & Hh & Hnd & Hj & Hhl & Hjh & Hbj & Hbh & Bj & Bh & Hdk & Hsz & Hhd & Htl) Hg Hs.
  destruct (txn_runs_bufs N t lr j h ms tl l bs d w fj jd fh hd) as (sm & E1 & E2); try done.
  exists sm. split; [exact E1|]. intros wk. destruct (E2 wk) as (lr' & bs' & w' & E & Hc & Hlr). eexists. split; [exact E|].
  eapply commit_ok with (fj := fj) (fh := fh); try done. apply Hlr.
  - pose proof (inv_lru _ (calm_wf _ Hs)) as Hp. simpl in Hp. rewrite Hp. apply NoDup_seq.
  - apply Forall_forall. intros i [k Hk]%list_elem_of_lookup_1. destruct (Forall2_lookup_l _ _ _ _ _ Hh Hk) as (sd & _ & fa & Hb & _).
    exact (inv_in_lru _ i _ (calm_wf _ Hs) Hb).
Qed.

(** ** Several commits *)

(** A property of the sectors outside the journal. *)
Definition respects (N : nat) (Q : (Z -> block) -> Prop) : Prop :=
  forall v v', (forall x, outside_journal N x -> v x = v' x) -> Q v -> Q v'.

(** Wherever the machine stops on the way from [d] to [d'], the disk stands
    for sectors with the property [Q]. *)
Definition survives (N : nat) (Q : (Z -> block) -> Prop) (d d' : hist) : Prop :=
  exists ws, d' = app_writes ws d /\ forall c, exists v, stands_for N (replay_writes (take c ws) (h_image d)) v /\ Q v.

Lemma replay_take_app a b c d :
  replay_writes (take c (a ++ b)) d = replay_writes (take (c - length a) b) (replay_writes (take c a) d).
Proof. by rewrite take_app, replay_app. Qed.

Lemma app_writes_image ws h : h_image (app_writes ws h) = replay_writes ws (h_image h).
Proof. unfold h_image, app_writes. simpl. by rewrite replay_app. Qed.

Lemma survives_trans N Q a b c : survives N Q a b -> survives N Q b c -> survives N Q a c.
Proof.
  intros (w1 & -> & H1) (w2 & -> & H2). exists (w1 ++ w2). split; [by rewrite app_writes_app|]. intros k. rewrite replay_take_app.
  destruct (decide (k <= length w1)%nat) as [Hle|Hgt].
  - replace (k - length w1)%nat with 0%nat by lia. rewrite take_0. apply H1.
  - rewrite (take_ge w1) by lia. rewrite <-app_writes_image. apply H2.
Qed.

Lemma idle_stands s N t :
  open_txn s N t -> 1 <= Z.of_nat N < 2 ^ 26 -> is_block (dread (h_image (bdisk s)) ROOTDEV 3) ->
  stands_for N (h_image (bdisk s)) (dread (h_image (bdisk s)) ROOTDEV).
Proof.
  intros (lr & j & h & ms & tl & l & bs & d & w & fj & jd & fh & hd & -> & _ & _ & _ & _ & _ & _ & _ & Bj & _ & Hdk & Hsz & Hhd & Htl) HN H3.
  change (dread (h_image d) ROOTDEV 2 = jd) in Hdk. unfold idle in *. cbn [bdisk] in *. apply stands_for_empty; rewrite ?Hdk; done.
Qed.

Lemma survives_idle s N t Q :
  open_txn s N t -> 1 <= Z.of_nat N < 2 ^ 26 -> is_block (dread (h_image (bdisk s)) ROOTDEV 3) ->
  Q (dread (h_image (bdisk s)) ROOTDEV) -> survives N Q (bdisk s) (bdisk s).
Proof.
  intros Ho HN H3 HQ. exists []. split; [by rewrite app_writes_nil|]. intros c. rewrite take_nil. eexists. split; [|exact HQ].
  by eapply idle_stands.
Qed.

Lemma survives_commit N t s s' Q :
  commits N t s s' -> 1 <= Z.of_nat N < 2 ^ 26 -> is_block (dread (h_image (bdisk s)) ROOTDEV 3) -> respects N Q ->
  Q (dread (h_image (bdisk s)) ROOTDEV) -> Q (dread (h_image (bdisk s')) ROOTDEV) -> survives N Q (bdisk s) (bdisk s').
Proof.
  intros C HN H3 HR HQ HQ'. destruct (cm_crash _ _ _ _ C HN H3) as (ws & D & _ & Hc). exists ws. split; [done|]. intros c.
  eexists. split; [apply Hc|]. destruct (decide _); [done|]. eapply HR; [|exact HQ']. apply C.
Qed.
