(* ===== verification/History.v ===== *)
(** * Transactions, crashes and recoveries in sequence

    Transactions committed one after the other, the machine stopping at any
    disk write, recovery at the next boot, which may be stopped itself, more
    transactions, and so on: the disk stands for what the transactions that
    committed have made of it. *)

From S2P Require Import Prelude Layout Ide Bio Cache Journal Recover Crash Reboot Txn Commit.

(** ** A transaction as its system call issues it *)

(** Each block is read, replaced and given to the transaction, which is then
    committed and written home. *)
Definition run_txn (t : txn) : M bst unit :=
  mfor t (fun sd => let! i := bread ROOTDEV sd.1 in put_data i sd.2) ;; end_trans ;; jfull_flush.
Definition run_txns (ts : list txn) : M bst unit := mfor ts run_txn.

(** The sectors after some transactions. *)
Definition after_txns (ts : list txn) (old : Z -> block) : Z -> block := foldl (fun v t => tx_view t v) old ts.

(** How many of them the first [c] disk writes commit: a transaction of [n]
    blocks takes [2 * n + 3] writes and is committed by write [n + 2]. *)
Fixpoint survived (ts : list txn) (c : nat) : nat :=
  match ts with
  | [] => 0
  | t :: ts => if decide (c < length t + 2)%nat then 0 else S (survived ts (c - (2 * length t + 3)))
  end.

Definition total_writes (ts : list txn) : nat := sum_list ((fun t => 2 * length t + 3)%nat <$> ts).

Lemma total_cons t ts : total_writes (t :: ts) = (2 * length t + 3 + total_writes ts)%nat.
Proof. done. Qed.

Lemma survived_zero ts : survived ts 0 = 0%nat.
Proof. destruct ts as [|t ts]; [done|]. simpl. by rewrite decide_True by lia. Qed.

(** A transaction whose calls returned before the crash survives it. *)
Lemma survived_returned ts m c : (m <= length ts)%nat -> (total_writes (take m ts) <= c)%nat -> (m <= survived ts c)%nat.
Proof.
  revert m c. induction ts as [|t ts IH]; intros [|m] c Hm Hc; cbn [length take survived] in *; try lia.
  rewrite total_cons in Hc. rewrite decide_False by lia.
  assert (m <= survived ts (c - (2 * length t + 3)))%nat by (apply IH; lia). lia.
Qed.

Lemma survived_le ts c : (survived ts c <= length ts)%nat.
Proof. revert c. induction ts as [|t ts IH]; intros c; cbn [survived length]; [done|]. case_decide; [lia|]. specialize (IH (c - (2 * length t + 3))%nat). lia. Qed.

Lemma tx_view_rev t old x : NoDup t.*1 -> tx_view (rev t) old x = tx_view t old x.
Proof.
  intros Hnd. unfold tx_view, tx_map. f_equal. f_equal. symmetry. apply list_to_map_proper; [done|]. apply Permutation_rev.
Qed.

Lemma good_txn_rev N t : good_txn N t -> good_txn N (rev t).
Proof.
  intros (H1 & H2 & H3 & H4). unfold good_txn. rewrite length_rev. split_and!; [lia..|by rewrite <-Permutation_rev|by rewrite <-Permutation_rev].
Qed.

Lemma after_txns_ext ts f g (P : Z -> Prop) : (forall x, P x -> f x = g x) -> forall x, P x -> after_txns ts f x = after_txns ts g x.
Proof.
  revert f g. induction ts as [|t ts IH]; intros f g H; [done|]. simpl. apply IH. intros x Hx. apply tx_view_ext. auto.
Qed.

(** ** A kernel between transactions *)

Record at_rest (N k : nat) (s : bst) : Prop := {
  ar_calm : calm s;
  ar_open : open_txn s N [];
  ar_free : nfree s = k;
  ar_unheld x : outside_journal N x -> ~ held s ROOTDEV x;
  ar_header : is_block (dread (h_image (bdisk s)) ROOTDEV 3) }.

Lemma booted_at_rest N nbuf s : booted N nbuf s -> 1 <= Z.of_nat N -> at_rest N (nbuf - 2) s.
Proof.
  intros [H1 H2 H3 H4 H5] HN. split; [done..| |done]. intros x [_ Ho] Hh. apply H3 in Hh. lia.
Qed.

(** The blocks of a transaction, issued one after the other. *)
Lemma issue_blocks t : forall s N t0,
  calm s -> open_txn s N t0 -> (length t < nfree s)%nat -> Z.of_nat (length t0 + length t) < 2 ^ 31 ->
  NoDup t.*1 -> (forall x, x ∈ t.*1 -> ~ held s ROOTDEV x) ->
  exists s', mfor t (fun sd => let! i := bread ROOTDEV sd.1 in put_data i sd.2) s = Ret tt s' /\ grown s s' (rev t).
Proof.
  induction t as [|[x b] t IH]; intros s N t0 Hs Ho Hn Hl Hnd Hu; simpl.
  { exists s. split; [done|by apply grown_refl]. }
  simpl in Hn, Hl. apply NoDup_cons in Hnd as [Hx Hnd]. pose proof (open_txn_size _ _ _ Ho) as Hsz.
  destruct (write_block s x Hs) as (i & bf & s1 & E1 & _ & _ & Hput); [lia|apply Hu; constructor|unfold u32_mod; lia|].
  destruct (Hput b) as (s2 & E2 & G). pose proof (gr_free _ _ _ G) as Hf. simpl in Hf.
  destruct (IH s2 N ([(x, b)] ++ t0)) as (s3 & E3 & G3).
  - apply G.
  - by apply G.
  - lia.
  - simpl. lia.
  - done.
  - intros y Hy [H|H%list_elem_of_singleton]%(gr_held _ _ _ G); [by apply (Hu y); [constructor|]|]. simpl in H. by subst.
  - exists s3. split; [|by eapply txn_grown_trans].
    erewrite bind_ret; [exact E3|]. rewrite (bind_ret _ _ _ _ _ E1). exact E2.
Qed.

(** ** Recovery that is stopped *)

(** A disk on which recovery has stopped after some of its writes. *)
Lemma recovery_stopped N d ts v c :
  replayable d N ts -> NoDup (concat ts).*1 -> is_block (dread d ROOTDEV 3) ->
  (forall x, outside_journal N x -> dread (replay_writes (replay_disk (dread d ROOTDEV 2) ts) d) ROOTDEV x = v x) ->
  stands_for N (replay_writes (take c (replay_disk (dread d ROOTDEV 2) ts)) d) v.
Proof.
  intros Hr Hnd H3 Hv. destruct ts as [|t ts]; [cbn [replay_disk]; rewrite take_nil; by exists []|]. cbn [replay_disk] in *.
  set (ts' := t :: ts) in *. set (jd := dread d ROOTDEV 2) in *. pose proof (rp_homes _ _ _ Hr) as Ho. pose proof (rp_N _ _ _ Hr) as HN.
  assert (Hd3 : forall k, dread (replay_writes (take k (flush_writes jd (concat ts'))) d) ROOTDEV 3 = dread d ROOTDEV 3).
  { intros k. apply replay_other, Forall_take. unfold flush_writes. apply Forall_app. split; [|by repeat constructor].
    rewrite Forall_forall in Ho. apply Forall_forall. intros w (sd & Hsd & ->)%home_writes_elem [= E]. destruct (Ho sd Hsd) as [_ Hx]. lia. }
  destruct (decide (c <= length (home_writes (concat ts')))%nat) as [Hle|Hgt].
  - destruct (replayable_prefix d N ts' c Hr Hle) as [Hr' H2].
    assert (Htk : take c (flush_writes jd (concat ts')) = take c (home_writes (concat ts'))) by (unfold flush_writes; by rewrite take_app_le).
    pose proof (Hd3 c) as Hc3. rewrite Htk in Hc3 |- *. exists ts'. split_and!; [done|done|by rewrite Hc3|].
    intros x Hx. rewrite H2. cbn [replay_disk ts']. fold ts' jd. rewrite <-Htk, replay_redo. by apply Hv.
  - assert (Hfull : take c (flush_writes jd (concat ts')) = flush_writes jd (concat ts'))
      by (apply take_ge; unfold flush_writes; rewrite length_app; cbn [length]; lia).
    pose proof (Hd3 c) as Hc3. rewrite Hfull in Hc3 |- *. set (d' := replay_writes (flush_writes jd (concat ts')) d) in *.
    assert (H2 : dread d' ROOTDEV 2 = clean_jsb jd) by apply replay_last.
    destruct (clean_jsb_spec jd (rp_block _ _ _ Hr)) as (Cs & Ch & Ct).
    apply (stands_for_ext N d' (dread d' ROOTDEV)); [exact Hv|]. apply stands_for_empty; rewrite ?H2; try done.
    + apply clean_jsb_block, Hr.
    + rewrite Cs. apply Hr.
    + by rewrite Hc3.
Qed.

(** Booting: recovery returns a kernel between transactions that shows what
    the disk stands for, and so does the disk wherever recovery is stopped. *)
Lemma boot_rest N nbuf d v :
  stands_for N d v -> (N < nbuf)%nat -> (3 <= nbuf)%nat ->
  exists s, pbjFSck true ROOTDEV (boot nbuf d) = Ret tt s /\ at_rest N (nbuf - 2) s /\
    (forall x, outside_journal N x -> dread (h_image (bdisk s)) ROOTDEV x = v x) /\
    h_base (bdisk s) = d /\ forall c, stands_for N (replay_writes (take c (h_writes (bdisk s))) d) v.
Proof.
  intros (ts & Hr & Hnd & H3 & Hv) Hnb Hn3. destruct (reboot d nbuf N ts Hr Hnd Hnb Hn3 H3) as (s & E & Hb & Hd).
  pose proof (rp_N _ _ _ Hr) as HN. exists s. split_and!; [done|apply booted_at_rest; [done|lia]|by rewrite Hd|by rewrite Hd|].
  rewrite Hd. intros c. by apply recovery_stopped.
Qed.

(** ** One transaction *)

Lemma txn_step N k t s :
  at_rest N k s -> good_txn N t -> (length t < k)%nat -> 1 <= Z.of_nat N < 2 ^ 26 ->
  let v := dread (h_image (bdisk s)) ROOTDEV in
  exists s' ws, run_txn t s = Ret tt s' /\ at_rest N k s' /\
    (forall x, outside_journal N x -> dread (h_image (bdisk s')) ROOTDEV x = tx_view t v x) /\
    bdisk s' = app_writes ws (bdisk s) /\ length ws = (2 * length t + 3)%nat /\
    forall c, stands_for N (replay_writes (take c ws) (h_image (bdisk s))) (if decide (c < length t + 2)%nat then v else tx_view t v).
Proof.
  intros [Hc Ho Hf Hu Hh] Hg Hk HN v. pose proof Hg as (Hn & HtN & Hnd & Hout). rewrite Forall_forall in Hout.
  destruct (issue_blocks t s N [] Hc Ho) as (s1 & E1 & G); [lia|simpl; lia|done| |].
  { intros x ([x' b] & -> & Hsd)%list_elem_of_fmap. apply Hu. exact (Hout _ Hsd). }
  pose proof (gr_open _ _ _ G N [] Ho) as Ho1. rewrite app_nil_r in Ho1. pose proof (good_txn_rev N t Hg) as Hg1.
  pose proof (gr_disk _ _ _ G) as Hd1. pose proof (gr_free _ _ _ G) as Hf1. rewrite length_rev in Hf1.
  destruct (commit_ret s1 N (rev t) Ho1 Hg1 (gr_calm _ _ _ G)) as (sm & E2 & E3). destruct (E3 (wakes sm)) as (s2 & E4 & Hcm).
  assert (Ew : set_wakes (wakes sm) sm = sm) by (by destruct sm). rewrite Ew in E4.
  destruct (cm_crash _ _ _ _ Hcm HN) as (ws & D2 & L2 & C2); rewrite Hd1 in *; [done|]. rewrite length_rev in *.
  exists s2, ws. split_and!; [|split|..]; try done.
  - unfold run_txn. rewrite (bind_ret _ _ _ _ _ E1), (bind_ret _ _ _ _ _ E2). exact E4.
  - apply Hcm.
  - apply Hcm.
  - rewrite (cm_free _ _ _ _ Hcm), length_rev. lia.
  - intros x Hx [[H|H]%(gr_held _ _ _ G) Hnx]%(cm_held _ _ _ _ Hcm x Hx); [by apply (Hu x)|done].
  - apply Hcm.
  - intros x Hx. rewrite (cm_disk _ _ _ _ Hcm x Hx), tx_view_rev by done. by rewrite Hd1.
  - intros c. eapply stands_for_ext; [|apply C2]. intros x _. fold v. destruct (decide _); [done|]. by apply tx_view_rev.
Qed.

(** ** Many transactions *)

Lemma txns_run N k ts : forall s,
  at_rest N k s -> Forall (fun t => good_txn N t /\ (length t < k)%nat) ts -> 1 <= Z.of_nat N < 2 ^ 26 ->
  let v := dread (h_image (bdisk s)) ROOTDEV in
  exists s' ws, run_txns ts s = Ret tt s' /\ at_rest N k s' /\
    (forall x, outside_journal N x -> dread (h_image (bdisk s')) ROOTDEV x = after_txns ts v x) /\
    bdisk s' = app_writes ws (bdisk s) /\ length ws = total_writes ts /\
    forall c, stands_for N (replay_writes (take c ws) (h_image (bdisk s))) (after_txns (take (survived ts c) ts) v).
Proof.
  induction ts as [|t ts IH]; intros s Hs Hg HN v.
  { exists s, []. split_and!; try done; [by rewrite app_writes_nil|]. intros c. rewrite !take_nil. cbn [after_txns foldl].
    eapply idle_stands; [apply Hs|done|apply Hs]. }
  apply Forall_cons in Hg as [[Hg Hk] Hgs]. destruct (txn_step N k t s Hs Hg Hk HN) as (s1 & ws1 & E1 & R1 & V1 & D1 & L1 & C1).
  destruct (IH s1 R1 Hgs HN) as (s2 & ws2 & E2 & R2 & V2 & D2 & L2 & C2). fold v in V1, C1.
  exists s2, (ws1 ++ ws2). split_and!; [|done| | | |].
  - unfold run_txns in *. cbn [mfor]. rewrite (bind_ret _ _ _ _ _ E1). exact E2.
  - intros x Hx. rewrite V2 by done. change (after_txns (t :: ts) v x) with (after_txns ts (tx_view t v) x).
    by apply (after_txns_ext ts _ _ (outside_journal N)).
  - by rewrite D2, D1, app_writes_app.
  - by rewrite length_app, L1, L2, total_cons.
  - intros c. rewrite replay_take_app, L1. cbn [survived]. destruct (decide (c < length t + 2)%nat) as [Hlt|Hge].
    + replace (c - (2 * length t + 3))%nat with 0%nat by lia. rewrite take_0. change (replay_writes [] ?d) with d. cbn [take after_txns foldl].
      specialize (C1 c). by rewrite decide_True in C1.
    + cbn [take]. change (after_txns (t :: ?r) v) with (after_txns r (tx_view t v)).
      destruct (decide (c < 2 * length t + 3)%nat) as [Hin|Hout].
      * replace (c - (2 * length t + 3))%nat with 0%nat by lia. rewrite take_0, survived_zero. change (replay_writes [] ?d) with d. cbn [take after_txns foldl].
        specialize (C1 c). by rewrite decide_False in C1.
      * rewrite (take_ge ws1) by lia. rewrite <-app_writes_image, <-D1. eapply stands_for_ext; [|apply C2].
        by apply (after_txns_ext _ _ _ (outside_journal N)).
Qed.

(** ** Lives of the machine *)

(** Booting from disk [d], transactions [ts], and a crash after [c] disk
    writes, those of recovery included: the disk, and the transactions it
    committed. *)
Definition life (nbuf : nat) (d : image) (ts : list txn) (c : nat) : option (image * list txn) :=
  match pbjFSck true ROOTDEV (boot nbuf d) with
  | Ret _ s =>
      match run_txns ts s with
      | Ret _ s' => Some (replay_writes (take c (h_writes (bdisk s'))) d,
                          take (survived ts (c - length (h_writes (bdisk s)))) ts)
      | _ => None
      end
  | _ => None
  end.
Fixpoint lives (nbuf : nat) (d : image) (ls : list (list txn * nat)) : option (image * list txn) :=
  match ls with
  | [] => Some (d, [])
  | (ts, c) :: ls =>
      '(d, log) ← life nbuf d ts c;
      '(d, log') ← lives nbuf d ls;
      Some (d, log ++ log')
  end.

Lemma life_stands N nbuf d v ts c :
  stands_for N d v -> (N < nbuf)%nat -> (3 <= nbuf)%nat -> 1 <= Z.of_nat N < 2 ^ 26 ->
  Forall (fun t => good_txn N t /\ (length t + 2 < nbuf)%nat) ts ->
  exists d' log, life nbuf d ts c = Some (d', log) /\ stands_for N d' (after_txns log v).
Proof.
  intros Hd Hnb Hn3 HN Hg. destruct (boot_rest N nbuf d v Hd Hnb Hn3) as (s & E & Hr & Hv & Hbase & Hc).
  destruct (txns_run N (nbuf - 2) ts s Hr) as (s' & ws & E' & _ & _ & D & L & C); [|done|].
  { eapply Forall_impl; [exact Hg|]. intros t [? ?]. split; [done|lia]. }
  unfold life. rewrite E, E'. eexists _, _. split; [done|]. rewrite D. destruct (bdisk s) as [b rw] eqn:Eb. simpl in Hbase, Hc |- *. subst b.
  rewrite replay_take_app. destruct (decide (c <= length rw)%nat) as [Hle|Hgt].
  - replace (c - length rw)%nat with 0%nat by lia. rewrite take_0, survived_zero. apply Hc.
  - rewrite (take_ge rw) by lia. eapply stands_for_ext; [|apply C].
    apply (after_txns_ext _ _ _ (outside_journal N)). exact Hv.
Qed.

Lemma lives_stand N nbuf ls : forall d v,
  stands_for N d v -> (N < nbuf)%nat -> (3 <= nbuf)%nat -> 1 <= Z.of_nat N < 2 ^ 26 ->
  Forall (fun l => Forall (fun t => good_txn N t /\ (length t + 2 < nbuf)%nat) l.1) ls ->
  exists d' log, lives nbuf d ls = Some (d', log) /\ stands_for N d' (after_txns log v).
Proof.
  induction ls as [|[ts c] ls IH]; intros d v Hd Hnb Hn3 HN Hg; cbn [lives].
  { by exists d, []. }
  apply Forall_cons in Hg as [Hg Hgs]. destruct (life_stands N nbuf d v ts c Hd Hnb Hn3 HN Hg) as (d1 & log1 & -> & H1). simpl.
  destruct (IH d1 _ H1 Hnb Hn3 HN Hgs) as (d2 & log2 & -> & H2). simpl. exists d2, (log1 ++ log2). split; [done|].
  unfold after_txns in *. by rewrite foldl_app.
Qed.


(** Two lives on the disk with the journal of four blocks: in the first one
    the second transaction is stopped just before its commit record, in the
    second one just after it. *)
Definition demo_txn2 : txn := [(50, replicate 512 9); (60, demo_data)].
Definition demo_lives : list (list txn * nat) := [([demo_txn; demo_txn2], 8%nat); ([demo_txn2], 4%nat)].

Lemma demo_log : snd <$> lives 8 demo_disk demo_lives = Some [demo_txn; demo_txn2].
Proof. vm_compute. reflexivity. Qed.

Lemma demo_good_txn2 : good_txn 4 demo_txn2.
Proof.
  split_and!; simpl; try lia.
  - apply NoDup_cons. split; [by rewrite list_elem_of_singleton|apply NoDup_singleton].
  - repeat (apply Forall_cons; split; [split; simpl; lia|]). by apply Forall_nil.
Qed.

