(* ===== verification/Spinlock.v ===== *)
(** * spinlock.c: spin locks and nested interrupt disabling

    First the routines as one processor executes them, then the lock as
    several processors execute it, one memory access at a time. *)

From S2P Require Import Prelude.

Definition FL_IF : Z := 512.
Definition NCPU : nat := 8.

(** [struct spinlock]; the name and the recorded call stack are for
    debugging. *)
Record spinlock : Type := Spinlock { locked : Z; lk_cpu : Z }.

(** The part of [struct cpu] the routines use, and the processor's flags
    register. *)
Record cpu : Type := Cpu { ncli : Z; intena : Z; eflags : Z }.

Definition initlock : spinlock := Spinlock 0 4294967295.

(** ** One processor *)

Record lst : Type := Lst { cpus : list cpu; lk : spinlock }.
Definition set_cpus x s := Lst x (lk s).
Definition set_lk x s := Lst (cpus s) x.

Section routines.
(** [cpu()], the number of the processor executing. *)
Context (me : nat).

Definition get_cpu : M lst cpu := let! s := get in of_option "cpus" (cpus s !! me).
Definition put_cpu (c : cpu) : M lst unit := modify (fun s => set_cpus (<[me := c]> (cpus s)) s).

Definition read_eflags : M lst Z := let! c := get_cpu in ret (eflags c).
Definition cli : M lst unit :=
  let! c := get_cpu in put_cpu (Cpu (ncli c) (intena c) (Z.land (eflags c) (Z.lnot FL_IF))).
Definition sti : M lst unit :=
  let! c := get_cpu in put_cpu (Cpu (ncli c) (intena c) (Z.lor (eflags c) FL_IF)).

Definition pushcli : M lst unit :=
  let! fl := read_eflags in
  cli ;;
  let! c := get_cpu in
  put_cpu (Cpu (s32 (ncli c + 1)) (intena c) (eflags c)) ;;
  if ncli c =? 0 then
    let! c := get_cpu in put_cpu (Cpu (ncli c) (Z.land fl FL_IF) (eflags c))
  else ret tt.

Definition popcli : M lst unit :=
  let! fl := read_eflags in
  if ctrue (Z.land fl FL_IF) then panic "popcli - interruptible"
  else
    let! c := get_cpu in
    put_cpu (Cpu (s32 (ncli c - 1)) (intena c) (eflags c)) ;;
    let! c := get_cpu in
    if ncli c <? 0 then panic "popcli"
    else if (ncli c =? 0) && ctrue (intena c) then sti else ret tt.

Definition holding (l : spinlock) : bool := ctrue (locked l) && (lk_cpu l =? Z.of_nat me + 10).

(** On one processor a taken lock is never released while it spins. *)
Definition acquire : M lst unit :=
  pushcli ;;
  let! l := gets lk in
  if holding l then panic "acquire"
  else if locked l =? 1 then fun s => Spin s
  else modify (set_lk (Spinlock 1 (Z.of_nat me + 10))).

Definition release : M lst unit :=
  let! l := gets lk in
  if negb (holding l) then panic "release"
  else modify (set_lk (Spinlock 0 4294967295)) ;; popcli.

End routines.

(** The saved %eip's of the calls that led here, following the %ebp chain
    of [v]'s frame; [word] reads memory. *)
Fixpoint pcs_loop (n : nat) (word : Z -> Z) (ebp : Z) : list Z :=
  match n with
  | O => []
  | S n => if (ebp =? 0) || (ebp =? 4294967295) then replicate (S n) 0
           else word (u32 (ebp + 4)) :: pcs_loop n word (word ebp)
  end.
Definition getcallerpcs (word : Z -> Z) (v : Z) : list Z := pcs_loop 10 word (u32 (v - 8)).

(** ** Nesting *)

Definition int_on (c : cpu) : bool := Z.testbit (eflags c) 9.

Lemma land_if f : Z.land f FL_IF = if Z.testbit f 9 then FL_IF else 0.
Proof.
  apply Z.bits_inj'. intros n Hn. rewrite Z.land_spec. change FL_IF with (2 ^ 9).
  rewrite Z.pow2_bits_eqb by lia. destruct (Z.eqb_spec 9 n) as [<-|Hne].
  - by destruct (Z.testbit f 9).
  - rewrite andb_false_r. destruct (Z.testbit f 9); [|by rewrite Z.bits_0].
    rewrite Z.pow2_bits_eqb by lia. by destruct (Z.eqb_spec 9 n).
Qed.

Lemma cli_off f : Z.testbit (Z.land f (Z.lnot FL_IF)) 9 = false.
Proof. rewrite Z.land_spec, Z.lnot_spec by lia. apply andb_false_r. Qed.
Lemma sti_on f : Z.testbit (Z.lor f FL_IF) 9 = true.
Proof. rewrite Z.lor_spec. apply orb_true_r. Qed.

(* keep the flag words of the goals as they are *)
#[local] Arguments Z.lnot : simpl never.
#[local] Arguments Z.testbit : simpl never.
#[local] Arguments Z.land : simpl never.
#[local] Arguments Z.lor : simpl never.

(** A processor inside [n] nested pushcli's, which found interrupts [on]. *)
Definition nested (on : bool) (n : nat) (c : cpu) : Prop :=
  ncli c = Z.of_nat n /\
  if decide (n = 0)%nat then int_on c = on
  else int_on c = false /\ ctrue (intena c) = on.

(** The effect of pushcli and popcli on the executing processor. *)
Lemma pushcli_nested me on n c s :
  cpus s !! me = Some c -> nested on n c -> Z.of_nat n < 2147483647 ->
  exists c', pushcli me s = Ret tt (set_cpus (<[me := c']> (cpus s)) s) /\ nested on (S n) c'.
Proof.
  intros Hc [Hn Hnest] Hb. pose proof (lookup_lt_Some _ _ _ Hc) as Hlt.
  unfold pushcli, read_eflags, cli, get_cpu, put_cpu, bind, get, ret, of_option, modify. simpl.
  rewrite Hc. simpl. rewrite Hc. simpl. rewrite list_lookup_insert_eq by done. simpl.
  rewrite list_insert_insert_eq. rewrite Hn, s32_small by lia.
  destruct (decide (n = 0)%nat) as [->|Hne].
  - simpl. rewrite list_lookup_insert_eq by done. simpl. rewrite list_insert_insert_eq. eexists. split; [done|].
    split; simpl; [lia|]. unfold int_on. simpl. rewrite cli_off. split; [done|].
    rewrite land_if. unfold int_on in Hnest. rewrite Hnest. by destruct on.
  - destruct (Z.eqb_spec (Z.of_nat n) 0); [lia|]. eexists. split; [done|].
    split; simpl; [lia|]. unfold int_on. simpl. rewrite cli_off. by destruct Hnest.
Qed.

Lemma popcli_nested me on n c s :
  cpus s !! me = Some c -> nested on (S n) c -> Z.of_nat n < 2147483647 ->
  exists c', popcli me s = Ret tt (set_cpus (<[me := c']> (cpus s)) s) /\ nested on n c'.
Proof.
  intros Hc [Hn Hnest] Hb. pose proof (lookup_lt_Some _ _ _ Hc) as Hlt. rewrite decide_False in Hnest by lia.
  destruct Hnest as [Hoff Hen]. unfold int_on in Hoff.
  unfold popcli, read_eflags, sti, get_cpu, put_cpu, bind, get, ret, of_option, modify. simpl.
  rewrite Hc. simpl. rewrite land_if, Hoff. simpl. rewrite Hc. simpl.
  rewrite list_lookup_insert_eq by done. simpl. rewrite Hn, s32_small by lia.
  destruct (Z.ltb_spec (Z.of_nat (S n) - 1) 0); [lia|].
  destruct (Z.eqb_spec (Z.of_nat (S n) - 1) 0) as [E|E]; simpl; [destruct on; rewrite Hen; simpl|].
  - rewrite list_lookup_insert_eq by done. simpl. rewrite list_insert_insert_eq. eexists. split; [done|].
    split; simpl; [lia|]. rewrite decide_True by lia. unfold int_on. simpl. apply sti_on.
  - eexists. split; [done|]. split; simpl; [lia|]. by rewrite decide_True by lia.
  - eexists. split; [done|]. split; simpl; [lia|]. by rewrite decide_False by lia.
Qed.

(** The nesting depth after a sequence of pushcli's ([true]) and popcli's. *)
Fixpoint depth (n : nat) (ops : list bool) : option nat :=
  match ops with
  | [] => Some n
  | true :: ops => depth (S n) ops
  | false :: ops => match n with O => None | S n => depth n ops end
  end.
Definition cli_ops (me : nat) (ops : list bool) : M lst unit :=
  mfor ops (fun push => if push then pushcli me else popcli me).

Lemma set_cpus_insert me a b s :
  set_cpus (<[me := a]> (cpus (set_cpus (<[me := b]> (cpus s)) s))) (set_cpus (<[me := b]> (cpus s)) s)
    = set_cpus (<[me := a]> (cpus s)) s.
Proof. unfold set_cpus. simpl. by rewrite list_insert_insert_eq. Qed.

Lemma cli_ops_nested me on ops : forall n m c s,
  cpus s !! me = Some c -> nested on n c -> depth n ops = Some m ->
  Z.of_nat (n + length ops) < 2147483647 ->
  exists c', cli_ops me ops s = Ret tt (set_cpus (<[me := c']> (cpus s)) s) /\ nested on m c'.
Proof.
  induction ops as [|op ops IH]; intros n m c s Hc Hn Hd Hb; cbn [depth length] in *.
  - injection Hd as <-. exists c. split; [|done]. unfold cli_ops. simpl.
    rewrite list_insert_id by done. by destruct s.
  - pose proof (lookup_lt_Some _ _ _ Hc) as Hlt. unfold cli_ops. cbn [mfor]. destruct op.
    + destruct (pushcli_nested me on n c s Hc Hn) as (c1 & E1 & H1); [lia|].
      destruct (IH (S n) m c1 (set_cpus (<[me := c1]> (cpus s)) s)) as (c2 & E2 & H2);
        [by apply list_lookup_insert_eq|done|done|lia|].
      exists c2. split; [|done]. unfold bind at 1. rewrite E1. unfold cli_ops in E2. by rewrite E2, set_cpus_insert.
    + destruct n as [|n]; [done|]. destruct (popcli_nested me on n c s Hc Hn) as (c1 & E1 & H1); [lia|].
      destruct (IH n m c1 (set_cpus (<[me := c1]> (cpus s)) s)) as (c2 & E2 & H2);
        [by apply list_lookup_insert_eq|done|done|lia|].
      exists c2. split; [|done]. unfold bind at 1. rewrite E1. unfold cli_ops in E2. by rewrite E2, set_cpus_insert.
Qed.

(** Pushcli and popcli nest: along any matched sequence of them, on a
    processor not inside any pushcli, nothing panics, interrupts are off
    whenever some pushcli is unmatched, and at the end they are on exactly if
    they were on at the start. *)
Theorem cli_matched (me : nat) (s : lst) (c : cpu) (ops : list bool) (m : nat) :
  cpus s !! me = Some c -> ncli c = 0 -> depth 0 ops = Some m -> Z.of_nat (length ops) < 2147483647 ->
  exists c', cli_ops me ops s = Ret tt (set_cpus (<[me := c']> (cpus s)) s) /\
    ncli c' = Z.of_nat m /\ int_on c' = if decide (m = 0)%nat then int_on c else false.
Proof.
  intros Hc Hn Hd Hb.
  destruct (cli_ops_nested me (int_on c) ops 0 m c s Hc) as (c' & E & Hm & Hi); [done|done|done|].
  exists c'. split_and!; [done|done|]. destruct (decide (m = 0)%nat); [done|by destruct Hi].
Qed.

Lemma cli_matched_witness :
  exists c', cli_ops 0 [true; true; false; false] (Lst [Cpu 0 0 512] initlock) = Ret tt (Lst [c'] initlock) /\
    int_on c' = true.
Proof.
  destruct (cli_matched 0 (Lst [Cpu 0 0 512] initlock) (Cpu 0 0 512) [true; true; false; false] 0) as (c' & E & _ & Hi).
  - reflexivity.
  - reflexivity.
  - reflexivity.
  - reflexivity.
  - exists c'. split; [exact E|exact Hi].
Defined.

(** ** Several processors *)

(** Where a processor is in acquire and release: outside; past pushcli and
    the holding test, at the xchg loop; past the xchg; past recording its
    number; past clearing it, before release's xchg. *)
Inductive pc : Type := Out | Trying | Got | Inside | Leaving.
#[export] Instance pc_eq_dec : EqDecision pc.
Proof. solve_decision. Defined.

Record mst : Type := Mst { pcs : list pc; mlk : spinlock; panicked : bool }.

(** One memory access of processor [i].  [holding] is read in one step: the
    flag is only ever equal to [i + 10] by the processor's own writes. *)
Inductive lstep : mst -> mst -> Prop :=
| s_try i ps l p :
    ps !! i = Some Out -> lstep (Mst ps l p) (Mst (<[i := Trying]> ps) l (p || holding i l))
| s_spin i ps l p :
    ps !! i = Some Trying -> locked l = 1 -> lstep (Mst ps l p) (Mst ps (Spinlock 1 (lk_cpu l)) p)
| s_xchg i ps l p :
    ps !! i = Some Trying -> locked l <> 1 -> lstep (Mst ps l p) (Mst (<[i := Got]> ps) (Spinlock 1 (lk_cpu l)) p)
| s_record i ps l p :
    ps !! i = Some Got ->
    lstep (Mst ps l p) (Mst (<[i := Inside]> ps) (Spinlock (locked l) (Z.of_nat i + 10)) p)
| s_leave i ps l p :
    ps !! i = Some Inside ->
    lstep (Mst ps l p) (Mst (<[i := Leaving]> ps) (Spinlock (locked l) 4294967295) (p || negb (holding i l)))
| s_unlock i ps l p :
    ps !! i = Some Leaving -> lstep (Mst ps l p) (Mst (<[i := Out]> ps) (Spinlock 0 (lk_cpu l)) p).

Definition lstart (n : nat) : mst := Mst (replicate n Out) initlock false.

(** Holding the lock word. *)
Definition owns (p : pc) : bool := match p with Got | Inside | Leaving => true | _ => false end.

(** The invariant: the word is 1 exactly when some processor owns it, at most
    one does, the recorded number is the one inside, and no check fired. *)
Record linv (s : mst) : Prop := {
  li_one i j p q : pcs s !! i = Some p -> pcs s !! j = Some q -> owns p = true -> owns q = true -> i = j;
  li_word : locked (mlk s) = 1 \/ locked (mlk s) = 0;
  li_owned i p : pcs s !! i = Some p -> owns p = true -> locked (mlk s) = 1;
  li_inside i : pcs s !! i = Some Inside -> lk_cpu (mlk s) = Z.of_nat i + 10;
  li_few : (length (pcs s) <= NCPU)%nat;
  li_recorded i : (i < length (pcs s))%nat -> lk_cpu (mlk s) = Z.of_nat i + 10 -> pcs s !! i = Some Inside;
  li_quiet : panicked s = false }.

Lemma linv_start n : (n <= NCPU)%nat -> linv (lstart n).
Proof.
  intros Hn. split; simpl; try done.
  - intros i j p q [-> _]%lookup_replicate _ Hp. done.
  - by right.
  - intros i p [-> _]%lookup_replicate Hp. done.
  - intros i [[=] _]%lookup_replicate.
  - by rewrite length_replicate.
  - intros i Hi. rewrite length_replicate in Hi. unfold NCPU in Hn. lia.
Qed.

(** Only the processor that moves changes its place. *)
Ltac at_insert H :=
  let E := fresh in
  apply list_lookup_insert_Some in H as [(<- & E & _)|[? H]];
  [try discriminate E; try subst|].

Lemma holding_inside s i : linv s -> (i < length (pcs s))%nat -> holding i (mlk s) = true -> pcs s !! i = Some Inside.
Proof.
  intros Hs Hi Hh. unfold holding in Hh. apply andb_true_iff in Hh as [_ Hh%Z.eqb_eq].
  by apply (li_recorded s Hs).
Qed.

Lemma inside_holding s i : linv s -> pcs s !! i = Some Inside -> holding i (mlk s) = true.
Proof.
  intros Hs Hi. unfold holding. rewrite (li_owned s Hs i Inside Hi eq_refl), (li_inside s Hs i Hi).
  simpl. by rewrite Z.eqb_refl.
Qed.

Lemma linv_step s s' : linv s -> lstep s s' -> linv s'.
Proof.
  intros Hs Hst. pose proof Hs as [H1 Hw Ho Hin Hfew Hrec Hq].
  destruct Hst as [i ps l p Hi|i ps l p Hi Hl|i ps l p Hi Hl|i ps l p Hi|i ps l p Hi|i ps l p Hi];
    simpl in *; pose proof (lookup_lt_Some _ _ _ Hi) as Hlt; split; simpl; rewrite ?length_insert; try done.
  - intros j k q r Hj Hk Qj Qk. at_insert Hj; at_insert Hk; simpl in *; try done. by eapply H1.
  - intros j q Hj Qj. at_insert Hj; [done|]. by eapply Ho.
  - intros j Hj. at_insert Hj. by apply Hin.
  - intros j Hj Hc. pose proof (Hrec j Hj Hc) as Hj'. rewrite list_lookup_insert_ne; [done|]. intros <-. congruence.
  - rewrite Hq. simpl. destruct (holding i l) eqn:E; [|done].
    apply (holding_inside _ _ Hs Hlt) in E. simpl in E. congruence.
  - by left.
  - intros j k q r Hj Hk Qj Qk.
    assert (Hno : forall j q, ps !! j = Some q -> owns q = true -> False)
      by (intros j' q' Hj' Hq'; by apply Hl, (Ho j' q')).
    at_insert Hj; at_insert Hk; try done; exfalso; eauto.
  - by left.
  - intros j Hj. at_insert Hj. by apply Hin.
  - intros j Hj Hc. pose proof (Hrec j Hj Hc) as Hj'. rewrite list_lookup_insert_ne; [done|]. intros <-. congruence.
  - intros j k q r Hj Hk Qj Qk. at_insert Hj; at_insert Hk; try done; [by eapply (H1 _ k Got)|by eapply (H1 j _ q Got)|by eapply H1].
  - intros j q Hj Qj. by apply (Ho i Got).
  - intros j Hj. at_insert Hj; [done|]. exfalso. assert (j = i) by (by eapply (H1 j i Inside Got)). congruence.
  - intros j Hj Hc. assert (j = i) as -> by lia. by apply list_lookup_insert_eq.
  - intros j k q r Hj Hk Qj Qk. at_insert Hj; at_insert Hk; try done; [by eapply (H1 _ k Inside)|by eapply (H1 j _ q Inside)|by eapply H1].
  - intros j q Hj Qj. by apply (Ho i Inside).
  - intros j Hj. at_insert Hj. exfalso. assert (j = i) by (by eapply (H1 j i Inside Inside)). congruence.
  - intros j Hj Hc. unfold NCPU in Hfew. lia.
  - rewrite Hq. simpl. by rewrite (inside_holding _ _ Hs Hi : holding i l = true).
  - intros j k q r Hj Hk Qj Qk. at_insert Hj; at_insert Hk; try done. by eapply H1.
  - by right.
  - intros j q Hj Qj. at_insert Hj; [done|]. exfalso. assert (j = i) by (by eapply (H1 j i q Leaving)). congruence.
  - intros j Hj. at_insert Hj. by apply Hin.
  - intros j Hj Hc. pose proof (Hrec j Hj Hc) as Hj'. rewrite list_lookup_insert_ne; [done|]. intros <-. congruence.
Qed.

Lemma linv_reachable n s : (n <= NCPU)%nat -> rtc lstep (lstart n) s -> linv s.
Proof.
  intros Hn Hr. pose proof (linv_start n Hn) as H. revert H.
  induction Hr as [s|s1 s2 s3 Hst _ IH]; [done|]. intros H. apply IH. by eapply linv_step.
Qed.



Lemma acquire_free me on n c s :
  cpus s !! me = Some c -> nested on n c -> Z.of_nat n < 2147483646 -> locked (lk s) = 0 ->
  exists c', acquire me s = Ret tt (Lst (<[me := c']> (cpus s)) (Spinlock 1 (Z.of_nat me + 10))) /\ nested on (S n) c'.
Proof.
  intros Hc Hn Hb Hl. destruct (pushcli_nested me on n c s Hc Hn) as (c1 & E1 & H1); [lia|].
  exists c1. split; [|done]. unfold acquire, bind at 1. rewrite E1. unfold bind, gets, holding. simpl. by rewrite Hl.
Qed.

(** On one processor, acquire of a free lock takes it and turns
    interrupts off, a second acquire panics instead of spinning forever, and
    release gives the lock and the interrupt state back; a second release
    panics. *)
Theorem acquire_release (me : nat) (c : cpu) (s : lst) :
  cpus s !! me = Some c -> ncli c = 0 -> locked (lk s) = 0 ->
  exists s1 s2 c2,
    acquire me s = Ret tt s1 /\ holding me (lk s1) = true /\
    (exists s', acquire me s1 = Panic "acquire" s') /\
    release me s1 = Ret tt s2 /\ lk s2 = Spinlock 0 4294967295 /\
    cpus s2 !! me = Some c2 /\ int_on c2 = int_on c /\
    release me s2 = Panic "release" s2.
Proof.
  intros Hc Hn Hl. pose proof (lookup_lt_Some _ _ _ Hc) as Hlt.
  destruct (acquire_free me (int_on c) 0 c s Hc) as (c1 & E1 & H1); [done|lia|done|].
  set (s1 := Lst (<[me := c1]> (cpus s)) (Spinlock 1 (Z.of_nat me + 10))) in *.
  assert (Hc1 : cpus s1 !! me = Some c1) by (by apply list_lookup_insert_eq).
  assert (Hh : holding me (lk s1) = true) by (unfold holding; simpl; by rewrite Z.eqb_refl).
  destruct (pushcli_nested me (int_on c) 1 c1 s1 Hc1 H1) as (c1' & E1' & _); [lia|].
  set (sr := set_lk (Spinlock 0 4294967295) s1).
  destruct (popcli_nested me (int_on c) 0 c1 sr Hc1 H1) as (c2 & E2 & H2); [lia|].
  exists s1, (set_cpus (<[me := c2]> (cpus sr)) sr), c2. split_and!; [done|done| | |done| | |].
  - eexists. unfold acquire, bind at 1. rewrite E1'. unfold bind, gets. simpl.
    unfold holding in Hh. simpl in Hh. unfold holding. simpl. by rewrite Hh.
  - unfold release, bind at 1, gets. rewrite Hh. simpl. unfold bind, modify. exact E2.
  - simpl. apply list_lookup_insert_eq. by rewrite length_insert.
  - by destruct H2 as [_ H2].
  - done.
Qed.

Lemma acquire_release_witness :
  exists s1 s2, acquire 1 (Lst [Cpu 0 0 512; Cpu 0 0 512] initlock) = Ret tt s1 /\ release 1 s1 = Ret tt s2.
Proof.
  destruct (acquire_release 1 (Cpu 0 0 512) (Lst [Cpu 0 0 512; Cpu 0 0 512] initlock))
    as (s1 & s2 & c2 & E1 & _ & _ & E2 & _); [reflexivity..|].
  exists s1, s2. split; [exact E1|exact E2].
Defined.
