(* ===== verification/Pipe.v ===== *)
(** * pipe.c: pipes

    A pipe is the ring buffer of the source, indices as free-running 32-bit
    counters.  A call that has to wait stops where the source sleeps, with
    the loop counter it resumes from; [killed] is the caller's flag at each
    run. *)

From S2P Require Import Prelude.

Definition PIPESIZE : Z := 512.

(** [struct pipe], the lock apart: every routine runs with it held. *)
Record pipe : Type := Pipe {
  readopen : Z; writeopen : Z; writep : Z; readp : Z; pdata : list Z }.

Definition set_readopen x p := Pipe x (writeopen p) (writep p) (readp p) (pdata p).
Definition set_writeopen x p := Pipe (readopen p) x (writep p) (readp p) (pdata p).

Inductive pwait : Type := OnRead | OnWrite.      (* &p->readp, &p->writep *)

(** How a run of a routine ends: with a value, or asleep, to be resumed at
    loop counter [i]. *)
Inductive pres : Type := PRet (r : Z) | PSleep (c : pwait) (i : Z).

(** What pipealloc leaves in a page of memory. *)
Definition new_pipe (data : list Z) : pipe := Pipe 1 1 0 0 data.

(** The pipe, the wakeups issued, and whether the page is given back. *)
Definition pipeclose (p : pipe) (writable : Z) : pipe * list pwait * bool :=
  let '(p, w) := if ctrue writable then (set_writeopen 0 p, [OnRead]) else (set_readopen 0 p, [OnWrite]) in
  (p, w, (readopen p =? 0) && (writeopen p =? 0)).

(** [p->data[p->writep++ % PIPESIZE] = c] *)
Definition put (p : pipe) (c : Z) : pipe :=
  Pipe (readopen p) (writeopen p) (u32 (writep p + 1)) (readp p)
       (<[Z.to_nat (writep p mod PIPESIZE) := c]> (pdata p)).

(** The loop of pipewrite from counter [i]; [n - i] iterations at most. *)
Fixpoint pipewrite_loop (fuel : nat) (killed : bool) (addr : Z -> Z) (i : Z) (p : pipe) : pres * pipe * list pwait :=
  match fuel with
  | O => (PRet i, p, [OnRead])
  | S fuel =>
      if writep p =? u32 (readp p + PIPESIZE) then
        if (readopen p =? 0) || killed then (PRet (-1), p, [])
        else (PSleep OnWrite i, p, [OnRead])
      else pipewrite_loop fuel killed addr (i + 1) (put p (addr i))
  end.
Definition pipewrite (killed : bool) (addr : Z -> Z) (n i : Z) (p : pipe) : pres * pipe * list pwait :=
  pipewrite_loop (Z.to_nat (n - i)) killed addr i p.

(** The copying loop of piperead: the pipe and the bytes delivered. *)
Fixpoint piperead_loop (fuel : nat) (p : pipe) : pipe * list Z :=
  match fuel with
  | O => (p, [])
  | S fuel =>
      if readp p =? writep p then (p, [])
      else
        let c := default 0 (pdata p !! Z.to_nat (readp p mod PIPESIZE)) in
        let '(p', l) := piperead_loop fuel (Pipe (readopen p) (writeopen p) (writep p) (u32 (readp p + 1)) (pdata p)) in
        (p', c :: l)
  end.
Definition piperead (killed : bool) (n : Z) (p : pipe) : pres * pipe * list Z * list pwait :=
  if (readp p =? writep p) && ctrue (writeopen p) then
    if killed then (PRet (-1), p, [], []) else (PSleep OnRead 0, p, [], [])
  else
    let '(p', l) := piperead_loop (Z.to_nat n) p in
    (PRet (Z.of_nat (length l)), p', l, [OnWrite]).

(** ** The queue a pipe implements *)

Definition used (p : pipe) : Z := u32 (writep p - readp p).
Definition slot (p : pipe) (k : Z) : nat := Z.to_nat ((readp p + k) mod PIPESIZE).
Definition contents (p : pipe) : list Z :=
  map (fun k => default 0 (pdata p !! slot p (Z.of_nat k))) (seq 0 (Z.to_nat (used p))).

Definition pwf (p : pipe) : Prop :=
  length (pdata p) = 512%nat /\ 0 <= writep p < u32_mod /\ 0 <= readp p < u32_mod /\ used p <= PIPESIZE.

Lemma new_pipe_wf data : length data = 512%nat -> pwf (new_pipe data) /\ contents (new_pipe data) = [].
Proof. intros H. split; [|done]. split; [done|]. unfold u32_mod, used, u32, PIPESIZE. simpl. done. Qed.

Lemma length_contents p : length (contents p) = Z.to_nat (used p).
Proof. unfold contents. by rewrite length_map, length_seq. Qed.

(** Indices wrap at 2^32, which PIPESIZE divides, so slots do not move. *)
Lemma wrap_slot x k : (u32 x + k) mod PIPESIZE = (x + k) mod PIPESIZE.
Proof.
  unfold u32. rewrite <-(Z.add_mod_idemp_l (x mod u32_mod)) by (unfold PIPESIZE; lia).
  rewrite <-(Z.add_mod_idemp_l x k) by (unfold PIPESIZE; lia). f_equal. f_equal.
  apply Z.mod_mod_divide. exists 8388608. reflexivity.
Qed.

Lemma slot_lt p k : (slot p k < 512)%nat.
Proof. unfold slot. pose proof (Z.mod_pos_bound (readp p + k) PIPESIZE). unfold PIPESIZE in *. lia. Qed.

Lemma used_range p : 0 <= used p < u32_mod.
Proof. apply u32_range. Qed.

(** The full test of the source. *)
Lemma full_spec p : pwf p -> (writep p =? u32 (readp p + PIPESIZE)) = (used p =? PIPESIZE).
Proof.
  intros (_ & Hw & Hr & Hu). unfold used, u32, PIPESIZE, u32_mod in *.
  destruct (Z.eqb_spec (writep p) ((readp p + 512) mod 4294967296));
    destruct (Z.eqb_spec ((writep p - readp p) mod 4294967296) 512); try done; exfalso; Z.div_mod_to_equations; lia.
Qed.

Lemma empty_spec p : pwf p -> (readp p =? writep p) = (used p =? 0).
Proof.
  intros (_ & Hw & Hr & Hu). unfold used, u32, u32_mod in *.
  destruct (Z.eqb_spec (readp p) (writep p));
    destruct (Z.eqb_spec ((writep p - readp p) mod 4294967296) 0); try done; exfalso; Z.div_mod_to_equations; lia.
Qed.

Lemma used_put p c : pwf p -> used p < PIPESIZE -> used (put p c) = used p + 1.
Proof.
  intros (_ & Hw & Hr & _) Hu. pose proof (used_range p). unfold used, put, u32, PIPESIZE in *. cbn [writep readp] in *.
  rewrite Zminus_mod_idemp_l. replace (writep p + 1 - readp p) with ((writep p - readp p) + 1) by lia.
  rewrite <-Zplus_mod_idemp_l. apply Z.mod_small. unfold u32_mod in *. lia.
Qed.

Lemma write_slot p : pwf p -> Z.to_nat (writep p mod PIPESIZE) = slot p (used p).
Proof.
  intros (_ & Hw & Hr & Hu). unfold slot, used. rewrite (Z.add_comm (readp p)), wrap_slot.
  do 2 f_equal. lia.
Qed.

Lemma slot_inj p j k :
  0 <= j < PIPESIZE -> 0 <= k < PIPESIZE -> slot p j = slot p k -> j = k.
Proof.
  intros Hj Hk E. unfold slot in E. apply Z2Nat.inj in E; [|apply Z.mod_pos_bound; unfold PIPESIZE; lia..].
  unfold PIPESIZE in *. Z.div_mod_to_equations. lia.
Qed.

(** Appending one byte. *)
Lemma put_spec p c :
  pwf p -> used p < PIPESIZE -> pwf (put p c) /\ contents (put p c) = contents p ++ [c] /\
  readopen (put p c) = readopen p /\ writeopen (put p c) = writeopen p.
Proof.
  intros Hp Hu. pose proof (used_put p c Hp Hu) as Hup. pose proof (used_range p) as Hr0.
  pose proof Hp as (Hlen & Hw & Hr & _). split_and!; [|..|done|done].
  - split; [by simpl; rewrite length_insert|]. split; [apply u32_range|]. split; [done|]. rewrite Hup. unfold PIPESIZE in *. lia.
  - unfold contents. rewrite Hup. replace (Z.to_nat (used p + 1)) with (Z.to_nat (used p) + 1)%nat by lia.
    rewrite seq_app, map_app. simpl. f_equal.
    + apply map_ext_in. intros k [_ Hk]%in_seq. change (slot (put p c) (Z.of_nat k)) with (slot p (Z.of_nat k)).
      rewrite write_slot by done. rewrite list_lookup_insert_ne; [done|].
      intros E. apply slot_inj in E; [lia|unfold PIPESIZE in *; lia|unfold PIPESIZE in *; lia].
    + change (slot (put p c) (Z.of_nat (Z.to_nat (used p)))) with (slot p (Z.of_nat (Z.to_nat (used p)))).
      rewrite Z2Nat.id by lia. rewrite write_slot by done. rewrite list_lookup_insert_eq; [done|].
      rewrite Hlen. apply slot_lt.
Qed.

(** Taking the oldest byte. *)
Definition take1 (p : pipe) : pipe := Pipe (readopen p) (writeopen p) (writep p) (u32 (readp p + 1)) (pdata p).

Lemma used_take1 p : pwf p -> 0 < used p -> used (take1 p) = used p - 1.
Proof.
  intros (_ & Hw & Hr & _) Hu. pose proof (used_range p). unfold used, take1, u32, u32_mod in *. cbn [writep readp] in *.
  rewrite Zminus_mod_idemp_r. replace (writep p - (readp p + 1)) with ((writep p - readp p) - 1) by lia.
  rewrite <-Zminus_mod_idemp_l. apply Z.mod_small. lia.
Qed.

Lemma take1_spec p :
  pwf p -> 0 < used p ->
  pwf (take1 p) /\ contents p = default 0 (pdata p !! Z.to_nat (readp p mod PIPESIZE)) :: contents (take1 p).
Proof.
  intros Hp Hu. pose proof (used_take1 p Hp Hu) as Hup. pose proof Hp as (Hlen & Hw & Hr & Hb). split.
  - split; [done|]. split; [done|]. split; [apply u32_range|]. lia.
  - unfold contents. rewrite Hup. replace (Z.to_nat (used p)) with (1 + Z.to_nat (used p - 1))%nat by lia.
    rewrite seq_app, map_app. simpl. f_equal.
    + unfold slot. by rewrite Z.add_0_r.
    + rewrite <-(seq_shift), map_map. apply map_ext_in. intros k _. f_equal. f_equal. unfold slot, take1. cbn [readp].
      rewrite wrap_slot. do 2 f_equal. lia.
Qed.

(** ** The routines on the queue *)

Definition bytes (addr : Z -> Z) (i : Z) (k : nat) : list Z := map (fun j => addr (i + Z.of_nat j)) (seq 0 k).

Lemma bytes_S addr i k : bytes addr i (S k) = addr i :: bytes addr (i + 1) k.
Proof.
  unfold bytes. simpl. rewrite Z.add_0_r, <-seq_shift, map_map. f_equal. apply map_ext_in. intros j _. f_equal. lia.
Qed.

(** How a write of [rem] bytes into [room] free slots ends. *)
Definition write_result (p : pipe) (killed : bool) (n i rem room : Z) : pres :=
  if rem <=? room then PRet n
  else if (readopen p =? 0) || killed then PRet (-1) else PSleep OnWrite (i + room).

Definition write_wakes (p : pipe) (killed : bool) (rem room : Z) : list pwait :=
  if (rem <=? room) || negb ((readopen p =? 0) || killed) then [OnRead] else [].

Lemma pipewrite_loop_spec killed addr fuel : forall i p,
  pwf p ->
  let rem := Z.of_nat fuel in
  let room := PIPESIZE - used p in
  exists p',
    pipewrite_loop fuel killed addr i p
      = (write_result p killed (i + rem) i rem room, p', write_wakes p killed rem room) /\
    pwf p' /\ contents p' = contents p ++ bytes addr i (Z.to_nat (Z.min rem room)).
Proof.
  induction fuel as [|fuel IH]; intros i p Hp; cbn zeta.
  - exists p. pose proof Hp as (_ & _ & _ & Hu). unfold write_result, write_wakes.
    destruct (Z.leb_spec (Z.of_nat 0) (PIPESIZE - used p)); [|lia]. simpl.
    rewrite Z.add_0_r. replace (Z.to_nat _) with 0%nat by lia. by rewrite app_nil_r.
  - cbn [pipewrite_loop]. rewrite full_spec by done. pose proof Hp as (_ & _ & _ & Hu).
    destruct (Z.eqb_spec (used p) PIPESIZE) as [E|E].
    + exists p. unfold write_result, write_wakes.
      destruct (Z.leb_spec (Z.of_nat (S fuel)) (PIPESIZE - used p)); [lia|].
      replace (Z.to_nat _) with 0%nat by lia. rewrite app_nil_r. split_and!; try done.
      destruct ((readopen p =? 0) || killed); simpl; [done|]. do 3 f_equal. lia.
    + destruct (put_spec p (addr i) Hp) as (Hp' & Hc & Hro & Hwo); [lia|].
      destruct (IH (i + 1) (put p (addr i)) Hp') as (p' & Heq & Hpw & Hcon). exists p'.
      rewrite used_put in * by (done || lia). rewrite Heq. unfold write_result, write_wakes. rewrite Hro.
      replace (Z.of_nat fuel <=? PIPESIZE - (used p + 1)) with (Z.of_nat (S fuel) <=? PIPESIZE - used p)
        by (repeat case_match; repeat zcase; done || lia).
      replace (i + 1 + Z.of_nat fuel) with (i + Z.of_nat (S fuel)) by lia.
      replace (i + 1 + (PIPESIZE - (used p + 1))) with (i + (PIPESIZE - used p)) by lia.
      split_and!; [done|done..|].
      rewrite Hcon, Hc, <-app_assoc. simpl. rewrite <-bytes_S. do 2 f_equal. lia.
Qed.

(** Pipewrite implements an append to a bounded queue of 512 bytes: from
    counter [i] it appends as many of the remaining bytes as fit, in order;
    it returns [n] if all fit, and otherwise fails if nobody can read or the
    caller was killed, or else wakes the readers and sleeps, to go on at the
    next byte. *)
Theorem pipewrite_queue (killed : bool) (addr : Z -> Z) (n i : Z) (p : pipe) :
  pwf p -> i <= n ->
  let room := 512 - Z.of_nat (length (contents p)) in
  exists p' w,
    pipewrite killed addr n i p = (write_result p killed n i (n - i) room, p', w) /\
    pwf p' /\ contents p' = contents p ++ bytes addr i (Z.to_nat (Z.min (n - i) room)) /\
    w = write_wakes p killed (n - i) room.
Proof.
  intros Hp Hi room. destruct (pipewrite_loop_spec killed addr (Z.to_nat (n - i)) i p Hp) as (p' & E & Hp' & Hc).
  pose proof (used_range p) as Hu.
  assert (Er : PIPESIZE - used p = room) by (unfold room; rewrite length_contents; unfold PIPESIZE; lia).
  rewrite Er, Z2Nat.id in * by lia. replace (i + (n - i)) with n in E by lia. eauto 6.
Qed.

Lemma piperead_loop_spec fuel : forall p,
  pwf p ->
  exists p', piperead_loop fuel p = (p', take fuel (contents p)) /\ pwf p' /\ contents p' = drop fuel (contents p).
Proof.
  induction fuel as [|fuel IH]; intros p Hp; [by exists p|]. cbn [piperead_loop].
  rewrite empty_spec by done. destruct (Z.eqb_spec (used p) 0) as [E|E].
  - exists p. assert (Hnil : contents p = []) by (unfold contents; by rewrite E). by rewrite Hnil.
  - pose proof (used_range p). destruct (take1_spec p Hp) as [Hp1 Hc]; [lia|].
    destruct (IH (take1 p) Hp1) as (p' & Heq & Hp' & Hc'). unfold take1 in Heq at 1. rewrite Heq.
    exists p'. rewrite Hc. simpl. split_and!; try done.
Qed.

(** Piperead implements removal from the front of that queue: on an empty
    pipe with a writer it fails if killed and sleeps otherwise, without
    touching the pipe; else it delivers the oldest bytes, at most [n], in
    order, and returns their number, 0 meaning end of file. *)
Theorem piperead_queue (killed : bool) (n : Z) (p : pipe) :
  pwf p ->
  if (length (contents p) =? 0)%nat && ctrue (writeopen p)
  then piperead killed n p = (if killed then PRet (-1) else PSleep OnRead 0, p, [], [])
  else exists p',
    piperead killed n p = (PRet (Z.of_nat (length (take (Z.to_nat n) (contents p)))), p',
                           take (Z.to_nat n) (contents p), [OnWrite]) /\
    pwf p' /\ contents p' = drop (Z.to_nat n) (contents p).
Proof.
  intros Hp. unfold piperead. rewrite empty_spec, length_contents by done. pose proof (used_range p).
  replace (used p =? 0) with (Z.to_nat (used p) =? 0)%nat by (destruct (Nat.eqb_spec (Z.to_nat (used p)) 0); zcase; lia || done).
  destruct ((Z.to_nat (used p) =? 0)%nat && ctrue (writeopen p)); [by destruct killed|].
  destruct (piperead_loop_spec (Z.to_nat n) p Hp) as (p' & Heq & Hp' & Hc). rewrite Heq. eauto.
Qed.

(** ** Any interleaving *)

(** One run of a routine by some process, up to its return or sleep. *)
Inductive pop : Type :=
| Write (killed : bool) (addr : Z -> Z) (n i : Z)
| Read (killed : bool) (n : Z)
| Close (writable : Z).

(** The pipe after it, the bytes that went in and those that came out. *)
Definition pstep (op : pop) (p : pipe) : pipe * list Z * list Z :=
  match op with
  | Write killed addr n i =>
      let '(_, p', _) := pipewrite killed addr n i p in
      (p', bytes addr i (Z.to_nat (u32 (writep p' - writep p))), [])
  | Read killed n => let '(_, p', out, _) := piperead killed n p in (p', [], out)
  | Close writable => let '(p', _, _) := pipeclose p writable in (p', [], [])
  end.
Fixpoint psteps (ops : list pop) (p : pipe) : pipe * list Z * list Z :=
  match ops with
  | [] => (p, [], [])
  | op :: ops =>
      let '(p1, in1, out1) := pstep op p in
      let '(p2, in2, out2) := psteps ops p1 in
      (p2, in1 ++ in2, out1 ++ out2)
  end.

Definition resumable (op : pop) : Prop := match op with Write _ _ n i => i <= n | _ => True end.

Lemma pipewrite_loop_readp killed addr fuel : forall i p r p' w,
  pipewrite_loop fuel killed addr i p = (r, p', w) -> readp p' = readp p.
Proof.
  induction fuel as [|fuel IH]; intros i p r p' w E; simpl in E; [by injection E as _ <- _|].
  repeat case_match; [by injection E as _ <- _..|]. by apply IH in E.
Qed.

Lemma pipewrite_count killed addr n i p r p' w :
  pwf p -> pwf p' -> pipewrite killed addr n i p = (r, p', w) ->
  (length (contents p) <= length (contents p'))%nat ->
  u32 (writep p' - writep p) = Z.of_nat (length (contents p')) - Z.of_nat (length (contents p)).
Proof.
  intros (_ & Hw & Hr & Hu) (_ & Hw' & Hr' & Hu') E%pipewrite_loop_readp Hle.
  rewrite !length_contents in *. pose proof (used_range p). pose proof (used_range p').
  rewrite !Z2Nat.id by lia. unfold used in *. rewrite E in *. unfold u32 in *.
  replace (writep p' - writep p) with ((writep p' - readp p) - (writep p - readp p)) by lia.
  rewrite Zminus_mod. apply Z.mod_small. unfold PIPESIZE, u32_mod in *. lia.
Qed.

Lemma pstep_stream op p p' acc del :
  pwf p -> resumable op -> pstep op p = (p', acc, del) ->
  pwf p' /\ contents p ++ acc = del ++ contents p'.
Proof.
  intros Hp Hop E. destruct op as [killed addr n i|killed n|writable]; simpl in E.
  - destruct (pipewrite_loop_spec killed addr (Z.to_nat (n - i)) i p Hp) as (q & Eq & Hq & Hc).
    fold (pipewrite killed addr n i p) in Eq. rewrite Eq in E. injection E as <- <- <-. split; [done|].
    rewrite (pipewrite_count killed addr n i p _ q _ Hp Hq Eq), Hc; [|rewrite Hc, length_app; lia].
    rewrite length_app. unfold bytes at 2. rewrite length_map, length_seq. simpl. f_equal. f_equal. lia.
  - destruct (piperead killed n p) as [[[r q] out] w] eqn:Er. injection E as <- <- <-. rewrite app_nil_r.
    unfold piperead in Er. destruct ((readp p =? writep p) && ctrue (writeopen p)).
    + destruct killed; injection Er as <- <- <- <-; done.
    + destruct (piperead_loop_spec (Z.to_nat n) p Hp) as (q' & Eq & Hq & Hc). rewrite Eq in Er.
      injection Er as <- <- <- <-. split; [done|]. by rewrite Hc, take_drop.
  - unfold pipeclose in E. destruct (ctrue writable); injection E as <- <- <-; by rewrite app_nil_r.
Qed.

(** C26: a pipe is a byte stream: over any interleaving of reads, writes
    (resumed wherever they slept) and closes by any number of processes, the
    bytes delivered to readers, followed by those still in the pipe, are
    exactly the bytes accepted from writers, in order, and never more than
    512 wait in the pipe. *)
Theorem pipe_stream (ops : list pop) (data : list Z) (p' : pipe) (acc del : list Z) :
  length data = 512%nat -> Forall resumable ops -> psteps ops (new_pipe data) = (p', acc, del) ->
  acc = del ++ contents p' /\ (length (contents p') <= 512)%nat.
Proof.
  intros Hd Hops E. destruct (new_pipe_wf data Hd) as [Hp Hc].
  assert (Hgen : forall ops p p' acc del, pwf p -> Forall resumable ops -> psteps ops p = (p', acc, del) ->
    pwf p' /\ contents p ++ acc = del ++ contents p').
  { clear. induction ops as [|op ops IH]; intros p p' acc del Hp Hops E; simpl in E.
    - injection E as <- <- <-. by rewrite app_nil_r.
    - apply Forall_cons in Hops as [Hop Hops].
      destruct (pstep op p) as [[p1 in1] out1] eqn:E1. destruct (psteps ops p1) as [[p2 in2] out2] eqn:E2.
      injection E as <- <- <-. destruct (pstep_stream _ _ _ _ _ Hp Hop E1) as [Hp1 S1].
      destruct (IH _ _ _ _ Hp1 Hops E2) as [Hp2 S2]. split; [done|].
      by rewrite app_assoc, S1, <-!app_assoc, S2. }
  destruct (Hgen _ _ _ _ _ Hp Hops E) as [Hp' Hs]. rewrite Hc in Hs. split; [done|].
  rewrite length_contents. destruct Hp' as (_ & _ & _ & Hu). unfold PIPESIZE in Hu. lia.
Qed.

Definition demo_pipe : pipe := new_pipe (replicate 512 0).

Lemma demo_pipe_wf : pwf demo_pipe.
Proof. apply new_pipe_wf. apply length_replicate. Qed.

(** A write of 600 bytes sleeps after 512. *)
Lemma pipewrite_queue_witness :
  exists p' w, pipewrite false (fun i => i) 600 0 demo_pipe = (PSleep OnWrite 512, p', w) /\
    contents p' = bytes (fun i => i) 0 512.
Proof.
  destruct (pipewrite_queue false (fun i => i) 600 0 demo_pipe) as (p' & w & E & _ & Hc & _).
  - apply demo_pipe_wf.
  - lia.
  - exists p', w. split; [exact E|exact Hc].
Defined.

Lemma piperead_queue_witness : piperead false 10 demo_pipe = (PSleep OnRead 0, demo_pipe, [], []).
Proof. apply (piperead_queue false 10 demo_pipe). apply demo_pipe_wf. Defined.

Lemma pipe_stream_witness :
  exists p' acc del,
    psteps [Write false (fun i => i) 3 0; Read false 2] demo_pipe = (p', acc, del) /\ acc = del ++ contents p'.
Proof.
  eexists _, _, _. split; [reflexivity|].
  apply (pipe_stream [Write false (fun i => i) 3 0; Read false 2] (replicate 512 0)).
  - apply length_replicate.
  - repeat constructor. simpl. lia.
  - reflexivity.
Defined.
