(* ===== verification/Fs.v ===== *)
(** * fs.c, fs.h, fsvar.h: blocks, inodes, directories and names

    The routines of fs.c on the buffer cache and journal of Bio.  A cached
    inode is named by its index in [icache.inode]; paths and names are the
    bytes of the C string.  Data read from a file is returned, data to write
    is a list; the device switch is a parameter. *)

From S2P Require Import Prelude CString Layout Ide Bio.

Definition I_BUSY : Z := 1.
Definition I_VALID : Z := 2.

(** [struct inode] *)
Record inode : Type := Inode {
  i_dev : Z; i_inum : Z; i_ref : Z; i_flags : Z;
  i_type : Z; i_major : Z; i_minor : Z; i_nlink : Z; i_size : Z; i_addrs : list Z }.

Definition set_ref x ip := Inode (i_dev ip) (i_inum ip) x (i_flags ip) (i_type ip) (i_major ip) (i_minor ip) (i_nlink ip) (i_size ip) (i_addrs ip).
Definition set_iflags x ip := Inode (i_dev ip) (i_inum ip) (i_ref ip) x (i_type ip) (i_major ip) (i_minor ip) (i_nlink ip) (i_size ip) (i_addrs ip).
Definition set_type x ip := Inode (i_dev ip) (i_inum ip) (i_ref ip) (i_flags ip) x (i_major ip) (i_minor ip) (i_nlink ip) (i_size ip) (i_addrs ip).
Definition set_mm x y ip := Inode (i_dev ip) (i_inum ip) (i_ref ip) (i_flags ip) (i_type ip) x y (i_nlink ip) (i_size ip) (i_addrs ip).
Definition set_nlink x ip := Inode (i_dev ip) (i_inum ip) (i_ref ip) (i_flags ip) (i_type ip) (i_major ip) (i_minor ip) x (i_size ip) (i_addrs ip).
Definition set_size x ip := Inode (i_dev ip) (i_inum ip) (i_ref ip) (i_flags ip) (i_type ip) (i_major ip) (i_minor ip) (i_nlink ip) x (i_addrs ip).
Definition set_addr (k : nat) x ip := Inode (i_dev ip) (i_inum ip) (i_ref ip) (i_flags ip) (i_type ip) (i_major ip) (i_minor ip) (i_nlink ip) (i_size ip) (<[k := x]> (i_addrs ip)).

Definition ihas (m : Z) (ip : inode) : bool := ctrue (Z.land (i_flags ip) m).

Record fs_st : Type := FsSt { fb : bst; icache : list inode }.
Definition set_fb x s := FsSt x (icache s).
Definition set_icache x s := FsSt (fb s) x.

(** Code of bio.c run from here. *)
Definition bio {A} (m : M bst A) : M fs_st A := zoom fb set_fb m.

Definition geti (i : nat) : M fs_st inode := let! s := get in of_option "wild inode pointer" (icache s !! i).
Definition updi (i : nat) (f : inode -> inode) : M fs_st unit :=
  let! ip := geti i in modify (fun s => set_icache (<[i := f ip]> (icache s)) s).
Definition bdata (b : nat) : M fs_st block := let! x := bio (getb b) in ret (data x).
Definition set_bdata (b : nat) (d : block) : M fs_st unit := bio (updb b (set_data d)).
Definition wakeup (c : chan) : M fs_st unit := bio (Bio.wakeup c).

(** ** Blocks *)

(** [struct superblock] *)
Record superblock : Type := Superblock { sb_size : Z; sb_nblocks : Z; sb_ninodes : Z }.
Definition decode_sb (d : block) : superblock := Superblock (get_u32 0 d) (get_u32 4 d) (get_u32 8 d).

Definition readsb (dv : Z) : M fs_st superblock :=
  let! bp := bio (bread dv 1) in
  let! d := bdata bp in
  bio (brelse bp) ;;
  ret (decode_sb d).

Definition bzero (dv bno : Z) : M fs_st unit :=
  let! bp := bio (bread dv bno) in
  set_bdata bp zero_block ;;
  bio (bwrite bp) ;;
  bio (brelse bp).

(** Bit [bi] of a bitmap block. *)
Definition bit_byte (d : block) (bi : Z) : Z := default 0 (d !! Z.to_nat (bi / 8)).
Definition bit_mask (bi : Z) : Z := Z.shiftl 1 (bi mod 8).
Definition bit_used (d : block) (bi : Z) : bool := negb (Z.land (bit_byte d bi) (bit_mask bi) =? 0).
Definition bit_set (d : block) (bi : Z) : block :=
  <[Z.to_nat (bi / 8) := Z.lor (bit_byte d bi) (bit_mask bi)]> d.
Definition bit_clear (d : block) (bi : Z) : block :=
  <[Z.to_nat (bi / 8) := Z.land (bit_byte d bi) (Z.lnot (bit_mask bi))]> d.

(** [for(bi = 0; bi < BPB; bi++)] up to the first free bit. *)
Fixpoint first_free (fuel : nat) (d : block) (bi : Z) : option Z :=
  match fuel with
  | O => None
  | S fuel => if bit_used d bi then first_free fuel d (bi + 1) else Some bi
  end.

(** The loop over the bitmap blocks, from block number [b]; [fuel] bitmap
    blocks at most. *)
Fixpoint balloc_loop (fuel : nat) (dv : Z) (sb : superblock) (b : Z) : M fs_st Z :=
  if b <? sb_size sb then
    match fuel with
    | O => fun s => Spin s
    | S fuel =>
        let! bp := bio (bread dv (BBLOCK b (sb_ninodes sb))) in
        let! d := bdata bp in
        match first_free (Z.to_nat BPB) d 0 with
        | Some bi =>
            set_bdata bp (bit_set d bi) ;;
            bio (bwrite bp) ;;
            bio (brelse bp) ;;
            bio end_trans ;;
            bio jfull_flush ;;
            if b + bi =? 1 then panic "b+bi is 1" else ret (b + bi)
        | None => bio (brelse bp) ;; balloc_loop fuel dv sb (b + BPB)
        end
    end
  else panic "balloc: out of blocks".
Definition balloc (dv : Z) : M fs_st Z :=
  let! sb := readsb dv in
  balloc_loop (S (Z.to_nat (sb_size sb / BPB))) dv sb 0.

Definition bfree (dv b : Z) : M fs_st unit :=
  bzero dv b ;;
  let! sb := readsb dv in
  let! bp := bio (bread dv (BBLOCK b (sb_ninodes sb))) in
  let bi := b mod BPB in
  let! d := bdata bp in
  if negb (bit_used d bi) then panic "freeing free block"
  else
    set_bdata bp (bit_clear d bi) ;;
    bio (bwrite bp) ;;
    bio (brelse bp) ;;
    bio end_trans ;;
    bio jfull_flush.

(** ** Inodes *)

(** The scan of iget: the cached inode, or the first empty slot before it. *)
Fixpoint iget_scan (dv inum : Z) (i : nat) (empty : option nat) (l : list inode) : nat + option nat :=
  match l with
  | [] => inr empty
  | ip :: l =>
      if (0 <? i_ref ip) && (i_dev ip =? dv) && (i_inum ip =? inum) then inl i
      else iget_scan dv inum (S i)
             (match empty with Some e => Some e | None => if i_ref ip =? 0 then Some i else None end) l
  end.

Definition iget (dv inum : Z) : M fs_st nat :=
  let! s := get in
  match iget_scan dv inum 0 None (icache s) with
  | inl i => updi i (fun ip => set_ref (i_ref ip + 1) ip) ;; ret i
  | inr None => panic "iget: no inodes"
  | inr (Some i) =>
      updi i (fun ip => Inode dv inum 1 0 (i_type ip) (i_major ip) (i_minor ip) (i_nlink ip) (i_size ip) (i_addrs ip)) ;;
      ret i
  end.

Definition idup (i : nat) : M fs_st nat := updi i (fun ip => set_ref (i_ref ip + 1) ip) ;; ret i.

(** [struct dinode] number [inum % IPB] of an inode block. *)
Definition dinode_off (inum : Z) : Z := inum mod IPB * DINODE_SIZE.
Definition dinode_type (inum : Z) (d : block) : Z := get_s16 (dinode_off inum) d.
Fixpoint get_words (off : Z) (n : nat) (d : block) : list Z :=
  match n with O => [] | S n => get_u32 off d :: get_words (off + 4) n d end.
Fixpoint put_words (off : Z) (l : list Z) (d : block) : block :=
  match l with [] => d | x :: l => put_words (off + 4) l (put_u32 off x d) end.

(** Fields of the disk inode copied into the cached one, and back. *)
Definition load_dinode (d : block) (ip : inode) : inode :=
  let o := dinode_off (i_inum ip) in
  Inode (i_dev ip) (i_inum ip) (i_ref ip) (i_flags ip)
        (get_s16 o d) (get_s16 (o + 2) d) (get_s16 (o + 4) d) (get_s16 (o + 6) d) (get_u32 (o + 8) d)
        (get_words (o + 12) (Z.to_nat NADDRS) d).
Definition store_dinode (ip : inode) (d : block) : block :=
  let o := dinode_off (i_inum ip) in
  put_words (o + 12) (i_addrs ip)
    (put_u32 (o + 8) (i_size ip)
      (put_u16 (o + 6) (i_nlink ip) (put_u16 (o + 4) (i_minor ip)
        (put_u16 (o + 2) (i_major ip) (put_u16 o (i_type ip) d))))).

Definition ilock (i : nat) : M fs_st unit :=
  let! ip := geti i in
  if i_ref ip <? 1 then panic "ilock"
  else if ihas I_BUSY ip then sleep_on (ChInode i)
  else
    updi i (fun ip => set_iflags (Z.lor (i_flags ip) I_BUSY) ip) ;;
    let! ip := geti i in
    if negb (ihas I_VALID ip) then
      let! bp := bio (bread (i_dev ip) (IBLOCK (i_inum ip))) in
      let! d := bdata bp in
      updi i (load_dinode d) ;;
      bio (brelse bp) ;;
      updi i (fun ip => set_iflags (Z.lor (i_flags ip) I_VALID) ip) ;;
      let! ip := geti i in
      if i_type ip =? 0 then panic "ilock: no type" else ret tt
    else ret tt.

Definition iunlock (i : nat) : M fs_st unit :=
  let! ip := geti i in
  if negb (ihas I_BUSY ip) || (i_ref ip <? 1) then panic "iunlock"
  else
    updi i (fun ip => set_iflags (Z.land (i_flags ip) (Z.lnot I_BUSY)) ip) ;;
    wakeup (ChInode i).

Definition iupdate (i : nat) : M fs_st unit :=
  let! ip := geti i in
  let! bp := bio (bread (i_dev ip) (IBLOCK (i_inum ip))) in
  let! d := bdata bp in
  set_bdata bp (store_dinode ip d) ;;
  bio (bwrite bp) ;;
  bio (brelse bp).

(** [ip->addrs[NDIRECT+1]] is one past the end of the array: in memory, the
    [dev] field of the next cached inode; past the cache, undefined. *)
Definition addrs_past_end (i : nat) : M fs_st Z :=
  let! s := get in
  let! nx := of_option "addrs[NDIRECT+1]" (icache s !! S i) in
  ret (i_dev nx).

(** The words of an indirect block. *)
Definition words (d : block) : list Z := get_words 0 (Z.to_nat NPTR) d.

Definition itrunc_direct (i : nat) (k : nat) : M fs_st unit :=
  let! ip := geti i in
  let a := default 0 (i_addrs ip !! k) in
  if ctrue a then bfree (i_dev ip) a ;; updi i (set_addr k 0) else ret tt.

(** [for(j = 0; j < num_blocks_ref; j++)]: [a[j]] is read again each time,
    from the buffer [bp]. *)
Definition itrunc_indirect (i bp : nat) (j : nat) : M fs_st unit :=
  let! ip := geti i in
  let! d := bdata bp in
  let aj := default 0 (words d !! j) in
  if ctrue aj then
    let! ibp := bio (bread (i_dev ip) aj) in
    mfor (seq 0 (Z.to_nat NPTR)) (fun k =>
      let! d := bdata ibp in
      let! b := bio (getb ibp) in
      bfree (dev b) (default 0 (words d !! k))) ;;
    bfree (i_dev ip) aj ;;
    bio (brelse ibp)
  else ret tt.

Definition itrunc (i : nat) : M fs_st unit :=
  mfor (seq 0 (Z.to_nat NDIRECT)) (itrunc_direct i) ;;
  let! x := addrs_past_end i in
  (if ctrue x then
     let! ip := geti i in
     let! bp := bio (bread (i_dev ip) (default 0 (i_addrs ip !! Z.to_nat INDIRECT))) in
     mfor (seq 0 (Z.to_nat NPTR)) (itrunc_indirect i bp) ;;
     let! x := addrs_past_end i in
     bfree (i_dev ip) x ;;
     bio (brelse bp) ;;
     updi i (set_addr (Z.to_nat INDIRECT) 0)
   else ret tt) ;;
  updi i (set_size 0) ;;
  iupdate i.

Definition iput (i : nat) : M fs_st unit :=
  let! ip := geti i in
  (if (i_ref ip =? 1) && ihas I_VALID ip && (i_nlink ip =? 0) then
     if ihas I_BUSY ip then panic "iput busy"
     else
       updi i (fun ip => set_iflags (Z.lor (i_flags ip) I_BUSY) ip) ;;
       itrunc i ;;
       bio end_trans ;;
       bio jfull_flush ;;
       updi i (set_type 0) ;;
       iupdate i ;;
       updi i (fun ip => set_iflags (Z.land (i_flags ip) (Z.lnot I_BUSY)) ip) ;;
       wakeup (ChInode i)
   else ret tt) ;;
  updi i (fun ip => set_ref (i_ref ip - 1) ip).

Definition iunlockput (i : nat) : M fs_st unit := iunlock i ;; iput i.

(** The fresh disk inode icreate writes. *)
Definition new_dinode (inum type major minor nlink : Z) (d : block) : block :=
  let o := dinode_off inum in
  put_u16 (o + 6) nlink (put_u16 (o + 4) minor (put_u16 (o + 2) major (put_u16 o type
    (splice (Z.to_nat o) (replicate (Z.to_nat DINODE_SIZE) 0) d)))).

Fixpoint icreate_loop (fuel : nat) (dv : Z) (sb : superblock) (inum type major minor nlink : Z) : M fs_st nat :=
  if inum <? sb_ninodes sb then
    match fuel with
    | O => fun s => Spin s
    | S fuel =>
        let! bp := bio (bread dv (IBLOCK inum)) in
        let! d := bdata bp in
        if dinode_type inum d =? 0 then
          set_bdata bp (new_dinode inum type major minor nlink d) ;;
          bio (bwrite bp) ;;
          bio (brelse bp) ;;
          bio end_trans ;;
          bio jfull_flush ;;
          iget dv inum
        else
          bio (brelse bp) ;;
          icreate_loop fuel dv sb (inum + 1) type major minor nlink
    end
  else panic "ialloc: no inodes".
Definition icreate (dv type major minor nlink : Z) : M fs_st nat :=
  let! sb := readsb dv in
  icreate_loop (Z.to_nat (sb_ninodes sb)) dv sb 1 type major minor nlink.

(** ** Inode contents *)

(** The block for word [loc] of the indirect block [addr], allocated if
    [alloc]; [None] is the source's -1. *)
Definition bmap_indirect (i : nat) (addr loc : Z) (alloc : bool) : M fs_st (option Z) :=
  let! ip := geti i in
  let! bp := bio (bread (i_dev ip) addr) in
  let! d := bdata bp in
  let x := get_u32 (4 * loc) d in
  if x =? 0 then
    if negb alloc then bio (brelse bp) ;; ret None
    else
      let! x := balloc (i_dev ip) in
      let! d := bdata bp in
      set_bdata bp (put_u32 (4 * loc) x d) ;;
      bio (bwrite bp) ;;
      bio (brelse bp) ;;
      ret (Some x)
  else bio (brelse bp) ;; ret (Some x).

(** Word [k] of [ip->addrs], allocated if [alloc]. *)
Definition bmap_addr (i : nat) (k : nat) (alloc : bool) : M fs_st (option Z) :=
  let! ip := geti i in
  let a := default 0 (i_addrs ip !! k) in
  if a =? 0 then
    if negb alloc then ret None
    else
      let! a := balloc (i_dev ip) in
      updi i (set_addr k a) ;;
      ret (Some a)
  else ret (Some a).

Definition bmap (i : nat) (bn : Z) (alloc : bool) : M fs_st (option Z) :=
  if bn <? NDIRECT then bmap_addr i (Z.to_nat bn) alloc
  else
    let bn := bn - NDIRECT in
    if bn <? NININDIRECT then
      let! a := bmap_addr i (Z.to_nat INDIRECT) alloc in
      match a with
      | None => ret None
      | Some a =>
          let! a := bmap_indirect i a (bn / NPTR) alloc in
          match a with
          | None => ret None
          | Some a => bmap_indirect i a (bn mod NPTR) alloc
          end
      end
    else panic "bmap: out of range".

(** bmap's result as an [uint]. *)
Definition baddr (a : option Z) : Z := default (u32 (-1)) a.

(** [struct stat] as stati fills it. *)
Record stat : Type := Stat { st_dev : Z; st_ino : Z; st_type : Z; st_nlink : Z; st_size : Z }.
Definition stati (i : nat) : M fs_st stat :=
  let! ip := geti i in ret (Stat (i_dev ip) (i_inum ip) (i_type ip) (i_nlink ip) (i_size ip)).

Section devices.
(** [devsw]: the read and write routine of a major device number, if any. *)
Context (devsw_read : Z -> option (nat -> Z -> M fs_st (Z * list Z))).
Context (devsw_write : Z -> option (nat -> list Z -> M fs_st Z)).

(** [for(tot=0; tot<n; tot+=m, off+=m, dst+=m)]: [n] bytes left. *)
Fixpoint readi_loop (fuel : nat) (i : nat) (off n : Z) : M fs_st (list Z) :=
  if n <=? 0 then ret []
  else match fuel with
       | O => fun s => Spin s
       | S fuel =>
           let! a := bmap i (off / BSIZE) false in
           let! ip := geti i in
           let! bp := bio (bread (i_dev ip) (baddr a)) in
           let m := Z.min n (BSIZE - off mod BSIZE) in
           let! d := bdata bp in
           let chunk := slice (Z.to_nat (off mod BSIZE)) (Z.to_nat m) d in
           bio (brelse bp) ;;
           let! rest := readi_loop fuel i (off + m) (n - m) in
           ret (chunk ++ rest)
       end.

(** The return value and the bytes stored at [dst]. *)
Definition readi (i : nat) (off n : Z) : M fs_st (Z * list Z) :=
  let! ip := geti i in
  if i_type ip =? T_DEV then
    if (i_major ip <? 0) || (NDEV <=? i_major ip) then ret (-1, [])
    else match devsw_read (i_major ip) with
         | None => ret (-1, [])
         | Some read => read i n
         end
  else if (i_size ip <? off) || (u32 (off + n) <? off) then ret (-1, [])
  else
    let n := if i_size ip <? u32 (off + n) then u32 (i_size ip - off) else n in
    let! l := readi_loop (Z.to_nat (n / BSIZE + 2)) i off n in
    ret (s32 n, l).

Fixpoint writei_loop (fuel : nat) (i : nat) (src : list Z) (off n : Z) : M fs_st Z :=
  if n <=? 0 then ret off
  else match fuel with
       | O => fun s => Spin s
       | S fuel =>
           let! a := bmap i (off / BSIZE) true in
           let! ip := geti i in
           let! bp := bio (bread (i_dev ip) (baddr a)) in
           let m := Z.min n (BSIZE - off mod BSIZE) in
           let! d := bdata bp in
           set_bdata bp (splice (Z.to_nat (off mod BSIZE)) (take (Z.to_nat m) src) d) ;;
           bio (bwrite bp) ;;
           bio (brelse bp) ;;
           writei_loop fuel i (drop (Z.to_nat m) src) (off + m) (n - m)
       end.

(** Writes the bytes [src], [n] being their number. *)
Definition writei (i : nat) (src : list Z) (off : Z) : M fs_st Z :=
  let n := Z.of_nat (length src) in
  let! ip := geti i in
  if i_type ip =? T_DEV then
    if (i_major ip <? 0) || (NDEV <=? i_major ip) then ret (-1)
    else match devsw_write (i_major ip) with
         | None => ret (-1)
         | Some write => write i src
         end
  else if u32 (off + n) <? off then ret (-1)
  else
    let n := if MAXFILE * BSIZE <? u32 (off + n) then u32 (MAXFILE * BSIZE - off) else n in
    let! off := writei_loop (Z.to_nat (n / BSIZE + 2)) i src off n in
    let! ip := geti i in
    (if (0 <? n) && (i_size ip <? off) then updi i (set_size off) ;; iupdate i else ret tt) ;;
    ret (s32 n).

(** ** Directories *)

Definition namecmp (s t : list Z) : Z := CString.strncmp DIRSIZ (of_bytes s) (of_bytes t).

(** [struct dirent] number [k] of a directory block. *)
Definition de_inum (k : nat) (d : block) : Z := get_u16 (DIRENT_SIZE * Z.of_nat k) d.
Definition de_name (k : nat) (d : block) : list Z := slice (16 * k + 2) DIRSIZ d.

(** The first entry of a block, from number [k], in use and named [name]. *)
Fixpoint find_dirent (fuel : nat) (name : list Z) (d : block) (k : nat) : option nat :=
  match fuel with
  | O => None
  | S fuel =>
      if de_inum k d =? 0 then find_dirent fuel name d (S k)
      else if namecmp name (de_name k d) =? 0 then Some k
      else find_dirent fuel name d (S k)
  end.
Definition DPB : nat := 32.      (* dirents per block *)

Fixpoint dirlookup_loop (fuel : nat) (dp : nat) (name : list Z) (off : Z) : M fs_st (option (nat * Z)) :=
  let! ip := geti dp in
  if off <? i_size ip then
    match fuel with
    | O => fun s => Spin s
    | S fuel =>
        let! a := bmap dp (off / BSIZE) false in
        let! bp := bio (bread (i_dev ip) (baddr a)) in
        let! d := bdata bp in
        match find_dirent DPB name d 0 with
        | Some k =>
            bio (brelse bp) ;;
            let! i := iget (i_dev ip) (de_inum k d) in
            ret (Some (i, off + DIRENT_SIZE * Z.of_nat k))
        | None => bio (brelse bp) ;; dirlookup_loop fuel dp name (off + BSIZE)
        end
    end
  else ret None.

(** The inode found, with a reference, and the offset of its entry. *)
Definition dirlookup (dp : nat) (name : list Z) : M fs_st (option (nat * Z)) :=
  let! ip := geti dp in
  if negb (i_type ip =? T_DIR) then panic "dirlookup not DIR"
  else dirlookup_loop (Z.to_nat (i_size ip / BSIZE + 1)) dp name 0.

(** The loop of dirlink over the entries; the offset to write at. *)
Fixpoint empty_dirent (fuel : nat) (dp : nat) (off : Z) : M fs_st Z :=
  let! ip := geti dp in
  if off <? i_size ip then
    match fuel with
    | O => fun s => Spin s
    | S fuel =>
        let! r := readi dp off DIRENT_SIZE in
        if negb (fst r =? DIRENT_SIZE) then panic "dirlink read"
        else if le_val (take 2 (snd r)) =? 0 then ret off
        else empty_dirent fuel dp (off + DIRENT_SIZE)
    end
  else ret off.

(** The bytes of [struct dirent] for an inode number and a name copied by
    strncpy. *)
Definition encode_dirent (ino : Z) (name : list Z) : list Z :=
  le_bytes 2 ino ++ map (fun k => nth k name 0) (seq 0 DIRSIZ).

Definition dirlink (dp : nat) (name : list Z) (ino : Z) : M fs_st Z :=
  let! r := dirlookup dp name in
  match r with
  | Some (i, _) => iput i ;; ret (-1)
  | None =>
      let! ip := geti dp in
      let! off := empty_dirent (Z.to_nat (i_size ip / DIRENT_SIZE + 1)) dp 0 in
      let! r := writei dp (encode_dirent ino name) off in
      if negb (r =? DIRENT_SIZE) then panic "dirlink" else ret 0
  end.
End devices.

(** ** Names *)

Definition slash : Z := 47.

Fixpoint skip_slashes (path : list Z) : list Z :=
  match path with
  | c :: p => if c =? slash then skip_slashes p else path
  | [] => []
  end.
(** The characters before the next slash or the end, and the rest. *)
Fixpoint span_elem (path : list Z) : list Z * list Z :=
  match path with
  | c :: p => if c =? slash then ([], path) else let '(e, r) := span_elem p in (c :: e, r)
  | [] => ([], [])
  end.

(** The name copied, at most DIRSIZ bytes of it, and the rest of the path;
    [None] when there is no element. *)
Definition skipelem (path : list Z) : option (list Z * list Z) :=
  match skip_slashes path with
  | [] => None
  | path => let '(e, r) := span_elem path in Some (take DIRSIZ e, skip_slashes r)
  end.

(** [_namei] from inode [i] on; each round consumes an element. *)
Fixpoint namei_loop (fuel : nat) (i : nat) (path : list Z) (parent : bool) : M fs_st (option (nat * list Z)) :=
  match skipelem path with
  | None => if parent then iput i ;; ret None else ret (Some (i, []))
  | Some (name, path) =>
      match fuel with
      | O => fun s => Spin s
      | S fuel =>
          ilock i ;;
          let! ip := geti i in
          if negb (i_type ip =? T_DIR) then iunlockput i ;; ret None
          else if parent && (match path with [] => true | _ => false end) then iunlock i ;; ret (Some (i, name))
          else
            let! r := dirlookup i name in
            match r with
            | None => iunlockput i ;; ret None
            | Some (next, _) => iunlockput i ;; namei_loop fuel next path parent
            end
      end
  end.

(** [cwd] is the caller's current directory. *)
Definition namei_ (cwd : nat) (path : list Z) (parent : bool) : M fs_st (option (nat * list Z)) :=
  let! i := (match path with
             | c :: _ => if c =? slash then iget ROOTDEV 1 else idup cwd
             | [] => idup cwd
             end) in
  namei_loop (length path) i path parent.

Definition namei (cwd : nat) (path : list Z) : M fs_st (option nat) :=
  let! r := namei_ cwd path false in ret (option_map fst r).
Definition nameiparent (cwd : nat) (path : list Z) : M fs_st (option (nat * list Z)) := namei_ cwd path true.

Definition checki (i : nat) (off : Z) : M fs_st Z :=
  let! a := bmap i (u32 (Z.quot off BSIZE)) false in
  match a with
  | None => ret 0
  | Some a => if s32 a <? 0 then ret 0 else let! ip := geti i in bio (bcheck (i_dev ip) a)
  end.
