(* ===== verification/FsNames.v ===== *)
(** * fs.c: path names

    skipelem against a declarative reading of paths: a path names the
    sequence of its non-empty components between slashes. *)

From S2P Require Import Prelude CString Layout Ide Bio Fs.

(** The components of a path. *)
Fixpoint split_slash (path : list Z) : list (list Z) :=
  match path with
  | [] => [[]]
  | c :: p =>
      if c =? slash then [] :: split_slash p
      else match split_slash p with [] => [[c]] | e :: es => (c :: e) :: es end
  end.
Definition nonempty (e : list Z) : bool := match e with [] => false | _ => true end.
Definition components (path : list Z) : list (list Z) := List.filter nonempty (split_slash path).

(** All the names namei looks up, by iterating skipelem. *)
Fixpoint path_names (fuel : nat) (path : list Z) : list (list Z) :=
  match fuel with
  | O => []
  | S fuel => match skipelem path with
              | None => []
              | Some (name, rest) => name :: path_names fuel rest
              end
  end.

Lemma split_slash_nonnil path : split_slash path <> [].
Proof. destruct path as [|c p]; simpl; [done|]. case_match; [done|]. by case_match. Qed.

Lemma components_slash path : components (slash :: path) = components path.
Proof. done. Qed.

Lemma components_skip path : components (skip_slashes path) = components path.
Proof.
  induction path as [|c p IH]; [done|]. simpl skip_slashes. destruct (Z.eqb_spec c slash) as [->|]; [|done].
  by rewrite components_slash, IH.
Qed.

Lemma skip_slashes_head path : match skip_slashes path with c :: _ => c <> slash | [] => True end.
Proof. induction path as [|c p IH]; simpl; [done|]. by destruct (Z.eqb_spec c slash). Qed.

(** The next element: non-empty, without slashes, and what follows it. *)
Lemma span_elem_spec path e r :
  span_elem path = (e, r) ->
  path = e ++ r /\ Forall (fun c => c <> slash) e /\ match r with c :: _ => c = slash | [] => True end.
Proof.
  revert e r. induction path as [|c p IH]; intros e r H; simpl in H; [by injection H as <- <-|].
  destruct (Z.eqb_spec c slash) as [->|Hc]; [by injection H as <- <-|].
  destruct (span_elem p) as [e' r'] eqn:E. injection H as <- <-. destruct (IH _ _ eq_refl) as (-> & He & Hr).
  split_and!; [done|by constructor|done].
Qed.

Lemma split_elem e r :
  Forall (fun c => c <> slash) e -> match r with c :: _ => c = slash | [] => True end ->
  split_slash (e ++ r) = e :: match r with [] => [] | _ :: r' => split_slash r' end.
Proof.
  induction 1 as [|c e Hc He IH]; intros Hr; simpl.
  - destruct r as [|c r]; [done|]. subst c. done.
  - destruct (Z.eqb_spec c slash); [done|]. by rewrite IH.
Qed.

Lemma skipelem_split path :
  match skipelem path with
  | None => components path = []
  | Some (name, rest) =>
      exists e es, components path = e :: es /\ name = take DIRSIZ e /\ components rest = es /\
        (length rest < length path)%nat /\ match rest with c :: _ => c <> slash | [] => True end
  end.
Proof.
  unfold skipelem. rewrite <-components_skip.
  assert (Hle : (length (skip_slashes path) <= length path)%nat).
  { clear. induction path as [|c p IH]; simpl; [done|]. case_match; simpl; lia. }
  pose proof (skip_slashes_head path) as Hh. destruct (skip_slashes path) as [|c p]; [done|].
  destruct (span_elem (c :: p)) as [e r] eqn:E. pose proof (span_elem_spec _ _ _ E) as (Hp & He & Hr).
  destruct e as [|x e].
  { simpl in E. destruct (Z.eqb_spec c slash); [done|]. by destruct (span_elem p). }
  exists (x :: e), (components (skip_slashes r)). rewrite Hp. unfold components at 1. rewrite split_elem by done.
  assert (Hlr : (length (skip_slashes r) <= length r)%nat).
  { clear. induction r as [|c p IH]; simpl; [done|]. case_match; simpl; lia. }
  split_and!; [|done|done| |apply skip_slashes_head].
  - simpl. f_equal. rewrite components_skip. destruct r as [|c' r]; [done|]. by rewrite Hr, components_slash.
  - rewrite Hp, length_app in Hle. simpl in Hle. lia.
Qed.

(** Skipelem takes a path apart as the comment above it says: it fails
    exactly on a path with no components, and otherwise yields the first
    component cut to DIRSIZ bytes and a rest that starts without a slash and
    has the remaining components; so the elements a lookup walks through are
    the path's components in order, and the walk ends. *)
Theorem skipelem_components (path : list Z) :
  (skipelem path = None <-> components path = []) /\
  path_names (length path) path = map (take DIRSIZ) (components path) /\
  (forall name rest, skipelem path = Some (name, rest) ->
     (rest = [] <-> length (components path) = 1%nat) /\ (length rest < length path)%nat).
Proof.
  split_and!.
  - pose proof (skipelem_split path) as H. destruct (skipelem path) as [[name rest]|]; [|tauto].
    destruct H as (e & es & -> & _). split; intros; discriminate.
  - assert (Hgen : forall fuel p, (length p <= fuel)%nat -> path_names fuel p = map (take DIRSIZ) (components p)).
    { induction fuel as [|fuel IH]; intros p Hp; [destruct p; [done|simpl in Hp; lia]|]. cbn [path_names].
      pose proof (skipelem_split p) as H. destruct (skipelem p) as [[name rest]|]; [|by rewrite H].
      destruct H as (e & es & -> & -> & <- & Hl & _). simpl. rewrite IH by lia. done. }
    by apply Hgen.
  - intros name rest E. pose proof (skipelem_split path) as H. rewrite E in H.
    destruct H as (e & es & -> & _ & Hes & Hl & Hh). split; [|done]. simpl. split.
    + intros ->. by subst es.
    + intros Hn. destruct rest as [|c r]; [done|]. subst es. unfold components in Hn. simpl in Hn.
      destruct (Z.eqb_spec c slash); [done|]. destruct (split_slash r); done.
Qed.

(** ** namecmp *)

(** A name as it is compared: up to DIRSIZ bytes, or to the first zero. *)
Fixpoint cut_name (n : nat) (p : cptr) : list Z :=
  match n with
  | S n => if p O =? 0 then [] else p O :: cut_name n (fun i => p (S i))
  | O => []
  end.

Lemma cut_name_ext n : forall p q : cptr, (forall i, (i < n)%nat -> p i = q i) -> cut_name n p = cut_name n q.
Proof.
  induction n as [|n IH]; intros p q H; [done|]. cbn [cut_name]. rewrite (H O) by lia. rewrite (IH _ (fun i => q (S i))); [done|].
  intros i Hi. apply H. lia.
Qed.

Lemma strncmp_cut n p q : CString.strncmp n p q = 0 <-> cut_name n p = cut_name n q.
Proof.
  revert p q. induction n as [|n IH]; intros p q; [done|]. cbn [CString.strncmp cut_name]. unfold ctrue.
  destruct (Z.eqb_spec (p O) 0) as [Ep|Ep]; cbn [negb andb]; destruct (Z.eqb_spec (q O) 0) as [Eq|Eq].
  - split; [done|]. intros _. lia.
  - split; [lia|done].
  - destruct (Z.eqb_spec (p O) (q O)); [lia|]. split; [lia|done].
  - destruct (Z.eqb_spec (p O) (q O)) as [->|Hne].
    + rewrite IH. split; [by intros ->|by intros [= ->]].
    + split; [lia|]. intros [= ? _]. lia.
Qed.

Lemma namecmp_zero s t :
  namecmp s t = 0 <-> cut_name DIRSIZ (of_bytes s) = cut_name DIRSIZ (of_bytes t).
Proof. apply strncmp_cut. Qed.
