(* ===== verification/FsInode.v ===== *)
(** * fs.c: the inode cache and disk inodes *)

From S2P Require Import Prelude CString Layout Ide Bio Cache Fs.

(** ** Reference counts *)

Definition names (dv inum : Z) (ip : inode) : bool := (0 <? i_ref ip) && (i_dev ip =? dv) && (i_inum ip =? inum).

(** No inode is cached twice, no count is negative. *)
Record icache_ok (l : list inode) : Prop := {
  ic_unique i j ip jp dv inum :
    l !! i = Some ip -> l !! j = Some jp -> names dv inum ip = true -> names dv inum jp = true -> i = j;
  ic_nonneg i ip : l !! i = Some ip -> 0 <= i_ref ip }.

Lemma names_spec dv inum ip : names dv inum ip = true <-> 0 < i_ref ip /\ i_dev ip = dv /\ i_inum ip = inum.
Proof. unfold names. rewrite !andb_true_iff, Z.ltb_lt, !Z.eqb_eq. tauto. Qed.

(** The references to inode [inum] of device [dv]. *)
Definition share (dv inum : Z) (ip : inode) : Z := if names dv inum ip then i_ref ip else 0.
Definition refcount (dv inum : Z) (l : list inode) : Z := foldr Z.add 0 (map (share dv inum) l).

Lemma refcount_insert dv inum l i ip ip' :
  l !! i = Some ip -> refcount dv inum (<[i := ip']> l) = refcount dv inum l - share dv inum ip + share dv inum ip'.
Proof.
  revert i. induction l as [|x l IH]; intros i Hi; [done|]. destruct i as [|i]; simpl in *.
  - injection Hi as ->. unfold refcount. simpl. lia.
  - unfold refcount in *. simpl. rewrite (IH i Hi). lia.
Qed.

Lemma iget_scan_spec dv inum l : forall k e,
  match iget_scan dv inum k e l with
  | inl i => exists j ip, i = (k + j)%nat /\ l !! j = Some ip /\ names dv inum ip = true
  | inr r =>
      (forall j ip, l !! j = Some ip -> names dv inum ip = false) /\
      match r with
      | None => e = None /\ forall j ip, l !! j = Some ip -> i_ref ip <> 0
      | Some i => e = Some i \/ e = None /\ exists j ip, i = (k + j)%nat /\ l !! j = Some ip /\ i_ref ip = 0
      end
  end.
Proof.
  induction l as [|ip l IH]; intros k e; simpl.
  - split; [done|]. destruct e; [by left|done].
  - fold (names dv inum ip). destruct (names dv inum ip) eqn:En.
    + exists 0%nat, ip. split_and!; [lia|done|done].
    + set (e' := match e with Some x => Some x | None => if i_ref ip =? 0 then Some k else None end).
      specialize (IH (S k) e'). destruct (iget_scan dv inum (S k) e' l) as [i|r].
      * destruct IH as (j & jp & -> & Hj & Hn). exists (S j), jp. split_and!; [lia|done|done].
      * destruct IH as (Hno & Hr). split.
        { intros [|j] jp Hj; simpl in Hj; [congruence|by apply (Hno j)]. }
        destruct r as [i|].
        -- destruct e as [x|]; [left; destruct Hr as [Hr|[Hr _]]; [exact Hr|done]|]. right. split; [done|].
           subst e'. simpl in Hr. destruct (Z.eqb_spec (i_ref ip) 0) as [E|E].
           ++ destruct Hr as [[= ->]|[? _]]; [|done]. exists 0%nat, ip. split_and!; [lia|done|done].
           ++ destruct Hr as [?|(_ & j & jp & -> & Hj & H0)]; [done|]. exists (S j), jp. split_and!; [lia|done|done].
        -- destruct Hr as [He Hall]. subst e'. destruct e as [x|]; [done|].
           destruct (Z.eqb_spec (i_ref ip) 0) as [E|E]; [done|]. split; [done|].
           intros [|j] jp Hj; simpl in Hj; [congruence|by apply (Hall j)].
Qed.

Lemma updi_ret i f ip s :
  icache s !! i = Some ip -> updi i f s = Ret tt (set_icache (<[i := f ip]> (icache s)) s).
Proof. intros H. unfold updi, geti, bind, get, of_option, modify. by rewrite H. Qed.

Lemma geti_ret i ip s : icache s !! i = Some ip -> geti i s = Ret ip s.
Proof. intros H. unfold geti, bind, get, of_option. by rewrite H. Qed.

(** A slot that stands for no other inode may be changed. *)
Lemma icache_ok_insert l i ip ip' :
  icache_ok l -> l !! i = Some ip -> 0 <= i_ref ip' ->
  (forall j jp dv inum, j <> i -> l !! j = Some jp -> names dv inum ip' = true -> names dv inum jp = false) ->
  icache_ok (<[i := ip']> l).
Proof.
  intros [Hu Hn] Hi H0 Hother. split.
  - intros j k jp kp dv inum Hj Hk Nj Nk.
    apply list_lookup_insert_Some in Hj as [(<- & <- & _)|[Hj1 Hj]];
      apply list_lookup_insert_Some in Hk as [(<- & <- & _)|[Hk1 Hk]]; [done| | |by eapply Hu].
    + assert (Hne : k <> i) by done. rewrite (Hother k kp dv inum Hne Hk Nj) in Nk. done.
    + assert (Hne : j <> i) by done. rewrite (Hother j jp dv inum Hne Hj Nk) in Nj. done.
  - intros j jp [(_ & <- & _)|[_ Hj]]%list_lookup_insert_Some; [done|by eapply Hn].
Qed.

(** Iget keeps the inode cache consistent and counts references: it
    returns a slot for exactly that inode, adds one to its reference count
    and changes no other inode's; it panics only when the inode is not
    cached and every slot is referenced. *)
Theorem iget_correct (dv inum : Z) (s : fs_st) :
  icache_ok (icache s) ->
  match iget dv inum s with
  | Ret i s' =>
      (exists ip, icache s' !! i = Some ip /\ names dv inum ip = true) /\ icache_ok (icache s') /\ fb s' = fb s /\
      (forall dv' inum', refcount dv' inum' (icache s')
         = refcount dv' inum' (icache s) + (if (dv' =? dv) && (inum' =? inum) then 1 else 0)) /\
      (forall k, k <> i -> icache s' !! k = icache s !! k)
  | Panic msg s' =>
      s' = s /\ forall k ip, icache s !! k = Some ip -> 0 < i_ref ip /\ names dv inum ip = false
  | _ => False
  end.
Proof.
  intros Hok. unfold iget, bind at 1, get. pose proof (iget_scan_spec dv inum (icache s) 0 None) as Hscan.
  destruct (iget_scan dv inum 0 None (icache s)) as [i|[i|]].
  - destruct Hscan as (j & ip & -> & Hj & Hn). simpl. unfold bind. rewrite (updi_ret _ _ ip) by done. simpl.
    pose proof (lookup_lt_Some _ _ _ Hj) as Hlt. pose proof Hn as Hn'. apply names_spec in Hn' as (Hr & Hd & Hi).
    set (ip' := set_ref (i_ref ip + 1) ip).
    assert (Hn2 : forall dv' inum', names dv' inum' ip' = names dv' inum' ip).
    { intros. unfold names, ip'. simpl. destruct (Z.ltb_spec 0 (i_ref ip + 1)), (Z.ltb_spec 0 (i_ref ip)); done || lia. }
    split_and!.
    + exists ip'. split; [by apply list_lookup_insert_eq|]. by rewrite Hn2.
    + eapply icache_ok_insert; [done|done|simpl; lia|]. intros k kp dv' inum' Hk Hkp N.
      rewrite Hn2 in N. destruct (names dv' inum' kp) eqn:E; [|done]. exfalso. apply Hk.
      by apply (ic_unique _ Hok k j kp ip dv' inum').
    + done.
    + intros dv' inum'. rewrite (refcount_insert _ _ _ _ ip) by done. unfold share. rewrite Hn2.
      destruct (names dv' inum' ip) eqn:E.
      * apply names_spec in E as (_ & Hd' & Hi'). rewrite <-Hd', <-Hi', Hd, Hi, !Z.eqb_refl. simpl. lia.
      * destruct (Z.eqb_spec dv' dv) as [->|]; [|simpl; lia].
        destruct (Z.eqb_spec inum' inum) as [->|]; [congruence|simpl; lia].
    + intros k Hk. by apply list_lookup_insert_ne.
  - destruct Hscan as (Hno & [?|(_ & j & ip & -> & Hj & H0)]); [done|]. simpl. unfold bind.
    rewrite (updi_ret _ _ ip) by done. simpl. pose proof (lookup_lt_Some _ _ _ Hj) as Hlt.
    set (ip' := Inode dv inum 1 0 _ _ _ _ _ _).
    assert (Hn' : forall dv' inum', names dv' inum' ip' = (dv' =? dv) && (inum' =? inum)).
    { intros. unfold names, ip'. simpl. by rewrite (Z.eqb_sym dv), (Z.eqb_sym inum). }
    split_and!.
    + exists ip'. split; [by apply list_lookup_insert_eq|]. rewrite Hn'. by rewrite !Z.eqb_refl.
    + eapply icache_ok_insert; [done|done|simpl; lia|]. intros k kp dv' inum' Hk Hkp N. rewrite Hn' in N.
      apply andb_true_iff in N as [->%Z.eqb_eq ->%Z.eqb_eq]. by apply (Hno k).
    + done.
    + intros dv' inum'. rewrite (refcount_insert _ _ _ _ ip) by done. unfold share. rewrite Hn'.
      assert (E : names dv' inum' ip = false) by (unfold names; rewrite H0; done). rewrite E.
      case_match; simpl; lia.
    + intros k Hk. by apply list_lookup_insert_ne.
  - destruct Hscan as (Hno & _ & Hall). split; [done|]. intros k ip Hk. split; [|by apply (Hno k)].
    pose proof (ic_nonneg _ Hok k ip Hk). specialize (Hall k ip Hk). lia.
Qed.

(** ** Disk inodes *)

Lemma put_words_block off l d :
  is_block d -> 0 <= off -> off + 4 * Z.of_nat (length l) <= 512 -> is_block (put_words off l d).
Proof.
  revert off d. induction l as [|x l IH]; intros off d Hd Ho Hl; [done|]. simpl length in Hl. simpl.
  apply IH; [apply put_u32_block; [lia|done]|lia|lia].
Qed.

Lemma getz_put_words_ne n' off' off l d :
  is_block d -> 0 <= off -> off + 4 * Z.of_nat (length l) <= 512 ->
  Z.of_nat (off' + n') <= off \/ off + 4 * Z.of_nat (length l) <= Z.of_nat off' ->
  getz n' off' (put_words off l d) = getz n' off' d.
Proof.
  revert off d. induction l as [|x l IH]; intros off d Hd Ho Hl Hdis; [done|]. simpl length in *. cbn [put_words].
  rewrite IH; [|apply put_u32_block; [lia|done]|lia|lia|lia].
  unfold put_u32. apply getz_putz_ne; [done|lia|lia].
Qed.

Lemma get_words_put_words off l d :
  is_block d -> 0 <= off -> off + 4 * Z.of_nat (length l) <= 512 -> Forall (fun x => 0 <= x < u32_mod) l ->
  get_words off (length l) (put_words off l d) = l.
Proof.
  revert off d. induction l as [|x l IH]; intros off d Hd Ho Hl Hx; [done|]. simpl length in *.
  apply Forall_cons in Hx as [Hx Hxs]. cbn [get_words put_words]. f_equal.
  - unfold get_u32. rewrite getz_put_words_ne; [|apply put_u32_block; [lia|done]|lia|lia|lia].
    unfold put_u32. rewrite getz_putz_eq by (done || lia). by apply Z.mod_small.
  - apply IH; [apply put_u32_block; [lia|done]|lia|lia|done].
Qed.

Lemma get_words_agree off n d d' :
  0 <= off ->
  (forall o, off <= Z.of_nat o -> Z.of_nat o + 4 <= off + 4 * Z.of_nat n -> getz 4 o d = getz 4 o d') ->
  get_words off n d = get_words off n d'.
Proof.
  revert off. induction n as [|n IH]; intros off Ho H; [done|]. cbn [get_words]. f_equal.
  - unfold get_u32. apply H; lia.
  - apply IH; [lia|]. intros o H1 H2. apply H; lia.
Qed.

(** The values a disk inode can represent. *)
Definition storable (ip : inode) : Prop :=
  Forall (fun x => -32768 <= x < 32768) [i_type ip; i_major ip; i_minor ip; i_nlink ip] /\
  0 <= i_size ip < u32_mod /\ length (i_addrs ip) = 13%nat /\ Forall (fun x => 0 <= x < u32_mod) (i_addrs ip).

Lemma dinode_off_range inum : 0 <= dinode_off inum <= 448.
Proof.
  unfold dinode_off. pose proof (Z.mod_pos_bound inum IPB). change IPB with 8 in *. change DINODE_SIZE with 64. lia.
Qed.

Lemma store_dinode_block ip d : is_block d -> length (i_addrs ip) = 13%nat -> is_block (store_dinode ip d).
Proof.
  intros Hd Hl. pose proof (dinode_off_range (i_inum ip)). unfold store_dinode.
  apply put_words_block; [|lia|rewrite Hl; lia]. apply put_u32_block; [lia|].
  unfold put_u16. repeat (apply putz_block; [|lia]). done.
Qed.

(** Reads outside the stored inode are unaffected. *)
Lemma getz_store_ne n o ip d :
  is_block d -> length (i_addrs ip) = 13%nat ->
  Z.of_nat (o + n) <= dinode_off (i_inum ip) \/ dinode_off (i_inum ip) + 64 <= Z.of_nat o ->
  getz n o (store_dinode ip d) = getz n o d.
Proof.
  intros Hd Hl Hdis. pose proof (dinode_off_range (i_inum ip)). unfold store_dinode.
  rewrite getz_put_words_ne; [|apply put_u32_block; [lia|unfold put_u16; repeat (apply putz_block; [|lia]); done]|lia|rewrite Hl; lia|rewrite Hl; lia].
  unfold put_u32, put_u16. rewrite !getz_putz_ne; (done || lia || (repeat (apply putz_block; [|lia]); done)).
Qed.

(** Iupdate and ilock agree on the disk format: an inode stored in its
    block and loaded back is unchanged, field by field and for all thirteen
    block addresses, and storing it leaves the seven other inodes of the
    block as they were. *)
Lemma dinode_roundtrip (ip jp : inode) (d : block) :
  is_block d -> storable ip ->
  (i_inum jp = i_inum ip ->
     let lp := load_dinode (store_dinode ip d) jp in
     i_type lp = i_type ip /\ i_major lp = i_major ip /\ i_minor lp = i_minor ip /\ i_nlink lp = i_nlink ip /\
     i_size lp = i_size ip /\ i_addrs lp = i_addrs ip) /\
  (i_inum jp mod IPB <> i_inum ip mod IPB -> load_dinode (store_dinode ip d) jp = load_dinode d jp).
Proof.
  intros Hd (Hs & Hsz & Hl & Ha). split.
  - intros E. cbn zeta. unfold load_dinode. cbn [i_type i_major i_minor i_nlink i_size i_addrs]. rewrite E.
    pose proof (dinode_off_range (i_inum ip)) as Ho. unfold store_dinode. set (o := dinode_off (i_inum ip)) in *.
    rewrite !Forall_cons in Hs. destruct Hs as (Ht & Hma & Hmi & Hn & _).
    set (d1 := put_u16 o (i_type ip) d). set (d2 := put_u16 (o + 2) (i_major ip) d1).
    set (d3 := put_u16 (o + 4) (i_minor ip) d2). set (d4 := put_u16 (o + 6) (i_nlink ip) d3).
    set (d5 := put_u32 (o + 8) (i_size ip) d4).
    assert (B1 : is_block d1) by (apply putz_block; [done|lia]).
    assert (B2 : is_block d2) by (apply putz_block; [done|lia]).
    assert (B3 : is_block d3) by (apply putz_block; [done|lia]).
    assert (B4 : is_block d4) by (apply putz_block; [done|lia]).
    assert (B5 : is_block d5) by (apply putz_block; [done|lia]).
    unfold get_s16, get_u16, get_u32. rewrite !(getz_put_words_ne _ _ (o + 12)) by (done || rewrite ?Hl; lia).
    unfold d5 at 1 2 3 4, put_u32. rewrite !(getz_putz_ne 4 (Z.to_nat (o + 8))) by (done || lia).
    unfold d4 at 1 2 3, put_u16. rewrite !(getz_putz_ne 2 (Z.to_nat (o + 6))) by (done || lia).
    unfold d3 at 1 2, put_u16. rewrite !(getz_putz_ne 2 (Z.to_nat (o + 4))) by (done || lia).
    unfold d2 at 1, put_u16. rewrite !(getz_putz_ne 2 (Z.to_nat (o + 2))) by (done || lia).
    unfold d1, d2, d3, d4, d5, put_u16, put_u32 in *. rewrite !getz_putz_eq by (done || lia).
    change (256 ^ Z.of_nat 2) with 65536. rewrite !s16_u16 by done. rewrite Z.mod_small by done.
    split_and!; try done. change (Z.to_nat NADDRS) with 13%nat. rewrite <-Hl. apply get_words_put_words; [done|lia|rewrite Hl; lia|done].
  - intros Hne. pose proof (dinode_off_range (i_inum ip)). pose proof (dinode_off_range (i_inum jp)) as Hj.
    assert (Hdis : dinode_off (i_inum jp) + 64 <= dinode_off (i_inum ip) \/ dinode_off (i_inum ip) + 64 <= dinode_off (i_inum jp)).
    { unfold dinode_off. change DINODE_SIZE with 64. lia. }
    unfold load_dinode, get_s16, get_u16, get_u32. rewrite !(getz_store_ne) by (done || lia). f_equal.
    apply get_words_agree; [lia|]. intros o H1 H2. change (Z.to_nat NADDRS) with 13%nat in H2. apply getz_store_ne; [done|done|lia].
Qed.

Definition demo_inode : inode := Inode 1 9 1 2 T_FILE 0 0 1 700 [300; 301; 0; 0; 0; 0; 0; 0; 0; 0; 0; 0; 0].

Lemma dinode_roundtrip_witness :
  i_addrs (load_dinode (store_dinode demo_inode zero_block) demo_inode) = i_addrs demo_inode.
Proof.
  apply (dinode_roundtrip demo_inode demo_inode zero_block).
  - apply zero_block_ok.
  - split; [repeat (apply Forall_cons; split; [simpl; unfold T_FILE; lia|]); apply Forall_nil; exact I|].
    split; [simpl; unfold u32_mod; lia|]. split; [reflexivity|].
    repeat (apply Forall_cons; split; [unfold u32_mod; lia|]). apply Forall_nil; exact I.
  - reflexivity.
Defined.

Definition demo_fs : fs_st := FsSt (boot 2 ∅) [demo_inode; Inode 0 0 0 0 0 0 0 0 0 []].

Lemma demo_fs_ok : icache_ok (icache demo_fs).
Proof.
  split.
  - intros [|[|i]] [|[|j]] ip jp dv inum Hi Hj Ni Nj; simpl in *; try done; simplify_eq; done.
  - intros [|[|i]] ip Hi; simpl in *; simplify_eq; done || (simpl; lia).
Qed.

Lemma iget_correct_witness :
  match iget 1 9 demo_fs with
  | Ret i s' => refcount 1 9 (icache s') = 2
  | _ => False
  end.
Proof.
  pose proof (iget_correct 1 9 demo_fs demo_fs_ok) as H. destruct (iget 1 9 demo_fs) as [i s'|msg s'|msg s'|c s'|s'].
  - destruct H as (_ & _ & _ & Hr & _). rewrite Hr. reflexivity.
  - destruct H as [_ Hall]. destruct (Hall 0%nat demo_inode eq_refl) as [_ Hn]. discriminate Hn.
  - exact H.
  - exact H.
  - exact H.
Defined.
