(* ===== verification/FsRead.v ===== *)
(** * fs.c: reading files and directories

    bmap, readi and dirlookup against the contents of blocks as the cache
    and the disk show them. *)

From S2P Require Import Prelude CString Layout Ide Bio Cache Fs FsInode FsNames.

(** ** The blocks of a file *)

(** The contents of sector [sec] of device [dv]. *)
Definition view (s : fs_st) (dv sec : Z) : block := block_view (fb s) dv sec.
Definition unheld (s : fs_st) (dv sec : Z) : Prop := ~ held (fb s) dv sec.

Definition nz (a : Z) : option Z := if a =? 0 then None else Some a.

(** Block [bn] of a file: the indirect blocks on the way, and its sector if
    it has one. *)
Definition walk (blk : Z -> block) (addrs : list Z) (bn : Z) : list Z * option Z :=
  if bn <? NDIRECT then ([], nz (default 0 (addrs !! Z.to_nat bn)))
  else
    let bn := bn - NDIRECT in
    match nz (default 0 (addrs !! Z.to_nat INDIRECT)) with
    | None => ([], None)
    | Some a =>
        match nz (get_u32 (4 * (bn / NPTR)) (blk a)) with
        | None => ([a], None)
        | Some a2 => ([a; a2], nz (get_u32 (4 * (bn mod NPTR)) (blk a2)))
        end
    end.

(** Nothing but recency and wakeups has changed. *)
Record fs_same (s s' : fs_st) : Prop := {
  fs_calm : calm (fb s');
  fs_view : same_view (fb s) (fb s');
  fs_icache : icache s' = icache s }.

Lemma fs_same_refl s : calm (fb s) -> fs_same s s.
Proof. intros H. split; [done|apply same_view_refl|done]. Qed.

Lemma fs_same_trans a b c : fs_same a b -> fs_same b c -> fs_same a c.
Proof.
  intros [_ V1 I1] [C2 V2 I2]. split; [done|by eapply same_view_trans|congruence].
Qed.

Lemma view_same s s' dv sec : fs_same s s' -> view s' dv sec = view s dv sec.
Proof. intros H. apply (sv_view _ _ (fs_view _ _ H)). Qed.
Lemma unheld_same s s' dv sec : fs_same s s' -> unheld s dv sec -> unheld s' dv sec.
Proof. intros H Hu Hh. by apply Hu, (sv_held _ _ (fs_view _ _ H)). Qed.

(** Inode number [inum] is in slot [i] of the inode cache, as ilock loads it. *)
Definition loaded (s : fs_st) (i : nat) (inum : Z) (ip : inode) : Prop :=
  icache s !! i = Some ip /\ i_dev ip = ROOTDEV /\ i_inum ip = inum /\
  ip = load_dinode (view s ROOTDEV (IBLOCK inum)) ip.

(** ** Reading one block *)

Lemma bio_ret {A} (m : M bst A) s a b : m (fb s) = Ret a b -> bio m s = Ret a (set_fb b s).
Proof. intros H. unfold bio, zoom. by rewrite H. Qed.

(** bread, the data, brelse: as every reader does. *)
Lemma read_block s dv sec :
  calm (fb s) -> unheld s dv sec ->
  exists bp s1 s2, bio (bread dv sec) s = Ret bp s1 /\ bdata bp s1 = Ret (view s dv sec) s1 /\
    bio (brelse bp) s1 = Ret tt s2 /\ fs_same s s2 /\ icache s1 = icache s.
Proof.
  intros Hc Hu. destruct (read_release (fb s) dv sec Hc Hu) as (i & b & s1 & s2 & E1 & Hb & Hd & E2 & C2 & V2).
  exists i, (set_fb s1 s), (set_fb s2 s). split_and!; [by apply bio_ret| | |by split|done].
  - unfold bdata, bio, zoom. unfold bind. simpl. rewrite (getb_ret _ _ _ Hb). simpl. rewrite Hd. by destruct s.
  - apply (bio_ret (brelse i) (set_fb s1 s) tt s2). exact E2.
Qed.

(** ** bmap of a block that need not be allocated *)

Lemma bmap_indirect_read s i ip a loc alloc :
  icache s !! i = Some ip -> calm (fb s) -> unheld s (i_dev ip) a ->
  let x := nz (get_u32 (4 * loc) (view s (i_dev ip) a)) in
  alloc = false \/ is_Some x ->
  exists s', bmap_indirect i a loc alloc s = Ret x s' /\ fs_same s s'.
Proof.
  intros Hi Hc Hu x Hx. destruct (read_block s (i_dev ip) a Hc Hu) as (bp & s1 & s2 & E1 & Ed & E2 & Hs & _).
  exists s2. split; [|done]. unfold bmap_indirect. rewrite (bind_ret _ _ _ _ _ (geti_ret _ _ _ Hi)).
  rewrite (bind_ret _ _ _ _ _ E1), (bind_ret _ _ _ _ _ Ed). unfold x, nz in *.
  destruct (get_u32 (4 * loc) (view s (i_dev ip) a) =? 0); simpl; [|by rewrite (bind_ret _ _ _ _ _ E2)].
  destruct Hx as [->|[? ?]]; [|done]. simpl. by rewrite (bind_ret _ _ _ _ _ E2).
Qed.

Lemma bmap_addr_read s i ip k alloc :
  icache s !! i = Some ip -> alloc = false \/ is_Some (nz (default 0 (i_addrs ip !! k))) ->
  bmap_addr i k alloc s = Ret (nz (default 0 (i_addrs ip !! k))) s.
Proof.
  intros Hi Hx. unfold bmap_addr. rewrite (bind_ret _ _ _ _ _ (geti_ret _ _ _ Hi)). unfold nz in *. simpl.
  destruct (default 0 (i_addrs ip !! k) =? 0); [|done]. by destruct Hx as [->|[? ?]].
Qed.

Lemma bmap_read s i ip bn alloc :
  icache s !! i = Some ip -> calm (fb s) -> 0 <= bn < MAXFILE ->
  let w := walk (view s (i_dev ip)) (i_addrs ip) bn in
  Forall (unheld s (i_dev ip)) w.1 -> alloc = false \/ is_Some w.2 ->
  exists s', bmap i bn alloc s = Ret w.2 s' /\ fs_same s s'.
Proof.
  intros Hi Hc Hbn w Hw Hal. unfold w, walk, bmap in *. destruct (bn <? NDIRECT).
  { exists s. split; [by apply bmap_addr_read|by apply fs_same_refl]. }
  destruct (Z.ltb_spec (bn - NDIRECT) NININDIRECT) as [_|Hbad].
  2:{ unfold MAXFILE in Hbn. lia. }
  rewrite (bind_ret _ _ _ _ _ (bmap_addr_read s i ip (Z.to_nat INDIRECT) alloc Hi ltac:(destruct Hal; [by left|right; by destruct (nz (default 0 _))]))).
  destruct (nz (default 0 (i_addrs ip !! Z.to_nat INDIRECT))) as [a|]; [|exists s; split; [done|by apply fs_same_refl]].
  assert (Ha : unheld s (i_dev ip) a) by (destruct (nz (get_u32 _ (view s (i_dev ip) a))); by apply Forall_cons in Hw as [? _]).
  destruct (bmap_indirect_read s i ip a ((bn - NDIRECT) / NPTR) alloc Hi Hc Ha) as (s1 & E1 & S1).
  { destruct Hal; [by left|right]. by destruct (nz (get_u32 (4 * ((bn - NDIRECT) / NPTR)) _)). }
  rewrite (bind_ret _ _ _ _ _ E1).
  destruct (nz (get_u32 (4 * ((bn - NDIRECT) / NPTR)) (view s (i_dev ip) a))) as [a2|]; [|by exists s1].
  apply Forall_cons in Hw as [_ Hw]. apply Forall_cons in Hw as [Ha2 _].
  destruct (bmap_indirect_read s1 i ip a2 ((bn - NDIRECT) mod NPTR) alloc) as (s2 & E2 & S2).
  - by rewrite (fs_icache _ _ S1).
  - by apply (fs_calm _ _ S1).
  - by apply (unheld_same s).
  - by rewrite (view_same s s1).
  - exists s2. rewrite E2, (view_same s s1) by done. split; [done|by eapply fs_same_trans].
Qed.

(** ** The contents of a file *)

(** Block [bn] of the file is there, and nobody holds it or the blocks that
    lead to it. *)
Definition readable (s : fs_st) (ip : inode) (bn : Z) : Prop :=
  let w := walk (view s (i_dev ip)) (i_addrs ip) bn in
  0 <= bn < MAXFILE /\ Forall (unheld s (i_dev ip)) w.1 /\
  exists a, w.2 = Some a /\ unheld s (i_dev ip) a /\ length (view s (i_dev ip) a) = 512%nat.

Definition file_block (s : fs_st) (ip : inode) (bn : Z) : block :=
  view s (i_dev ip) (baddr (walk (view s (i_dev ip)) (i_addrs ip) bn).2).
Definition file_byte (s : fs_st) (ip : inode) (k : Z) : Z :=
  default 0 (file_block s ip (k / BSIZE) !! Z.to_nat (k mod BSIZE)).
Definition file_bytes (s : fs_st) (ip : inode) (off : Z) (n : nat) : list Z :=
  map (fun j => file_byte s ip (off + Z.of_nat j)) (seq 0 n).

Lemma walk_ext f g addrs bn : (forall a, f a = g a) -> walk f addrs bn = walk g addrs bn.
Proof.
  intros H. unfold walk. case_match; [done|]. case_match; [|done]. rewrite !H. case_match; [|done]. by rewrite H.
Qed.

Lemma readable_same s s' ip bn : fs_same s s' -> readable s ip bn -> readable s' ip bn.
Proof.
  intros Hs (Hb & Hw & a & Ha & Hu & Hl). unfold readable.
  rewrite (walk_ext _ (view s (i_dev ip))) by (intros; by apply view_same). split; [done|]. split.
  - eapply Forall_impl; [exact Hw|]. intros x. by apply unheld_same.
  - exists a. split; [done|]. split; [by eapply unheld_same|]. by rewrite (view_same s).
Qed.

Lemma file_byte_same s s' ip k : fs_same s s' -> file_byte s' ip k = file_byte s ip k.
Proof.
  intros Hs. unfold file_byte, file_block.
  rewrite (walk_ext _ (view s (i_dev ip))) by (intros; by apply view_same). by rewrite (view_same s).
Qed.

Lemma file_bytes_lookup s ip off n j :
  file_bytes s ip off n !! j = if decide (j < n)%nat then Some (file_byte s ip (off + Z.of_nat j)) else None.
Proof.
  unfold file_bytes. rewrite list_lookup_fmap. case_decide as H.
  - by rewrite lookup_seq_lt by done.
  - by rewrite lookup_seq_ge by lia.
Qed.

Lemma file_bytes_app s ip off a b :
  file_bytes s ip off (a + b) = file_bytes s ip off a ++ file_bytes s ip (off + Z.of_nat a) b.
Proof.
  assert (Hl : length (file_bytes s ip off a) = a) by (unfold file_bytes; by rewrite length_map, length_seq).
  apply list_eq. intros j. destruct (decide (j < a)%nat).
  - rewrite lookup_app_l by lia. rewrite !file_bytes_lookup, !decide_True by lia. done.
  - rewrite lookup_app_r by lia. rewrite !file_bytes_lookup, Hl.
    destruct (decide (j < a + b)%nat); [rewrite decide_True by lia|rewrite decide_False by lia; done].
    do 2 f_equal. lia.
Qed.

(** Within one block the bytes are a slice of it. *)
Lemma file_bytes_chunk s ip off m a :
  0 <= off -> 0 < m <= BSIZE - off mod BSIZE ->
  (walk (view s (i_dev ip)) (i_addrs ip) (off / BSIZE)).2 = Some a -> length (view s (i_dev ip) a) = 512%nat ->
  slice (Z.to_nat (off mod BSIZE)) (Z.to_nat m) (view s (i_dev ip) a) = file_bytes s ip off (Z.to_nat m).
Proof.
  intros Ho Hm Hw Hl. apply list_eq. intros j. rewrite file_bytes_lookup. unfold slice.
  pose proof (Z.mod_pos_bound off BSIZE). unfold BSIZE in *. case_decide as Hj.
  - rewrite lookup_take_lt, lookup_drop by done. unfold file_byte, file_block, BSIZE.
    assert (Ed : (off + Z.of_nat j) / 512 = off / 512) by (Z.div_mod_to_equations; lia).
    assert (Em : (off + Z.of_nat j) mod 512 = off mod 512 + Z.of_nat j) by (Z.div_mod_to_equations; lia).
    rewrite Ed, Em, Hw. simpl. replace (Z.to_nat (off mod 512 + Z.of_nat j)) with (Z.to_nat (off mod 512) + j)%nat by lia.
    destruct (view s (i_dev ip) a !! (Z.to_nat (off mod 512) + j)%nat) eqn:E; [done|].
    apply lookup_ge_None in E. lia.
  - by rewrite lookup_take_ge by lia.
Qed.

Lemma readi_loop_read fuel : forall s i ip off n,
  icache s !! i = Some ip -> calm (fb s) -> 0 <= off -> n / BSIZE + 2 <= Z.of_nat fuel \/ n <= 0 \/
    (0 < Z.of_nat fuel /\ off mod BSIZE = 0 /\ n / BSIZE + 1 <= Z.of_nat fuel) ->
  (forall bn, off / BSIZE <= bn <= (off + n - 1) / BSIZE -> readable s ip bn) ->
  exists s', readi_loop fuel i off n s = Ret (file_bytes s ip off (Z.to_nat n)) s' /\ fs_same s s'.
Proof.
  induction fuel as [|fuel IH]; intros s i ip off n Hi Hc Ho Hf Hr; cbn [readi_loop];
    destruct (Z.leb_spec n 0) as [Hn|Hn].
  1,3: exists s; replace (Z.to_nat n) with 0%nat by lia; split; [done|by apply fs_same_refl].
  { exfalso. unfold BSIZE in *. pose proof (Z.div_pos n 512). lia. }
  set (m := Z.min n (BSIZE - off mod BSIZE)).
  assert (Hm : 0 < m <= BSIZE - off mod BSIZE) by (pose proof (Z.mod_pos_bound off BSIZE); unfold m, BSIZE in *; lia).
  destruct (Hr (off / BSIZE)) as (Hbn & Hpath & a & Ha & Hua & Hla).
  { unfold BSIZE in *. Z.div_mod_to_equations. lia. }
  destruct (bmap_read s i ip (off / BSIZE) false Hi Hc Hbn Hpath (or_introl eq_refl)) as (s1 & E1 & S1).
  assert (Hi1 : icache s1 !! i = Some ip) by (by rewrite (fs_icache _ _ S1)).
  destruct (read_block s1 (i_dev ip) a (fs_calm _ _ S1) (unheld_same _ _ _ _ S1 Hua)) as (bp & s2 & s3 & E2 & Ed & E3 & S3 & _).
  pose proof (fs_same_trans _ _ _ S1 S3) as S13.
  destruct (IH s3 i ip (off + m) (n - m)) as (s4 & E4 & S4).
  - by rewrite (fs_icache _ _ S13).
  - apply (fs_calm _ _ S3).
  - lia.
  - unfold BSIZE in *. destruct (decide (n <= m)) as [?|Hgt]; [lia|]. right. right.
    assert (Em : m = 512 - off mod 512) by lia.
    split; [Z.div_mod_to_equations; lia|]. split; Z.div_mod_to_equations; lia.
  - intros bn Hb. apply (readable_same s s3); [done|]. apply Hr. unfold BSIZE in *.
    split; [|replace (off + n - 1) with (off + m + (n - m) - 1) by lia; lia].
    pose proof (Z.div_le_mono off (off + m) 512). lia.
  - exists s4. split; [|by eapply fs_same_trans].
    rewrite (bind_ret _ _ _ _ _ E1), (bind_ret _ _ _ _ _ (geti_ret _ _ _ Hi1)), Ha. cbn [baddr default].
    rewrite (bind_ret _ _ _ _ _ E2), (bind_ret _ _ _ _ _ Ed), (bind_ret _ _ _ _ _ E3), (bind_ret _ _ _ _ _ E4).
    fold m. unfold ret. f_equal. rewrite (view_same s s1) by done.
    rewrite (file_bytes_chunk s ip off m a Ho Hm Ha Hla).
    assert (Hsame : file_bytes s3 ip (off + m) (Z.to_nat (n - m)) = file_bytes s ip (off + m) (Z.to_nat (n - m))).
    { unfold file_bytes. apply map_ext_in. intros j _. by apply file_byte_same. }
    rewrite Hsame. replace (Z.to_nat n) with (Z.to_nat m + Z.to_nat (n - m))%nat by lia.
    rewrite file_bytes_app. do 2 f_equal. lia.
Qed.

Section devices.
Context (devsw_read : Z -> option (nat -> Z -> M fs_st (Z * list Z))).

(** A read that starts inside the file. *)
Lemma readi_file s i ip off n :
  icache s !! i = Some ip -> calm (fb s) -> i_type ip <> T_DEV -> i_size ip < u32_mod ->
  0 <= off <= i_size ip -> 0 <= n -> off + n < u32_mod ->
  let cnt := Z.min n (i_size ip - off) in
  (forall bn, off / BSIZE <= bn <= (off + cnt - 1) / BSIZE -> readable s ip bn) ->
  exists s', readi devsw_read i off n s = Ret (s32 cnt, file_bytes s ip off (Z.to_nat cnt)) s' /\ fs_same s s'.
Proof.
  intros Hi Hc Ht Hsz Ho Hn Hw cnt Hr. unfold readi. rewrite (bind_ret _ _ _ _ _ (geti_ret _ _ _ Hi)).
  destruct (Z.eqb_spec (i_type ip) T_DEV) as [|_]; [done|]. rewrite (u32_small (off + n)) by lia.
  destruct (Z.ltb_spec (i_size ip) off); [lia|]. destruct (Z.ltb_spec (off + n) off); [lia|]. simpl.
  replace (if i_size ip <? off + n then u32 (i_size ip - off) else n) with cnt.
  2:{ unfold cnt. destruct (Z.ltb_spec (i_size ip) (off + n)); [rewrite u32_small by lia|]; lia. }
  destruct (readi_loop_read (Z.to_nat (cnt / BSIZE + 2)) s i ip off cnt Hi Hc) as (s' & E & Hs); [lia| |done|].
  { left. rewrite Z2Nat.id; [lia|]. pose proof (Z.div_pos cnt BSIZE). unfold BSIZE in *. lia. }
  exists s'. split; [|done]. by rewrite (bind_ret _ _ _ _ _ E).
Qed.

(** Readi returns exactly the file's bytes: for a file or directory whose
    blocks in the range are allocated and unlocked, it refuses an offset past
    the end or a range that wraps, cuts the count at the end of the file, and
    otherwise delivers the bytes from [off] on through direct and doubly
    indirect blocks alike, leaving every block, the inodes and the disk as
    they were. *)
Theorem readi_correct (s : fs_st) (i : nat) (ip : inode) (off n : Z) :
  icache s !! i = Some ip -> calm (fb s) -> i_type ip <> T_DEV ->
  0 <= off < u32_mod -> 0 <= n < u32_mod -> 0 <= i_size ip < u32_mod ->
  let cnt := Z.min n (i_size ip - off) in
  (forall bn, off / BSIZE <= bn <= (off + cnt - 1) / BSIZE -> readable s ip bn) ->
  if (off <=? i_size ip) && (off + n <? u32_mod)
  then exists s', readi devsw_read i off n s = Ret (s32 cnt, file_bytes s ip off (Z.to_nat cnt)) s' /\ fs_same s s'
  else readi devsw_read i off n s = Ret (-1, []) s.
Proof.
  intros Hi Hc Ht Ho Hn Hsz cnt Hr. destruct (Z.leb_spec off (i_size ip)) as [Hle|Hgt], (Z.ltb_spec (off + n) u32_mod) as [Hlt|Hge]; simpl.
  { apply readi_file; (done || lia). }
  all: unfold readi; rewrite (bind_ret _ _ _ _ _ (geti_ret _ _ _ Hi)); destruct (Z.eqb_spec (i_type ip) T_DEV) as [|_]; [done|].
  all: assert ((i_size ip <? off) || (u32 (off + n) <? off) = true) as ->; [|done]; apply orb_true_iff.
  - right. apply Z.ltb_lt. unfold u32, u32_mod in *. Z.div_mod_to_equations. lia.
  - left. by apply Z.ltb_lt.
  - left. by apply Z.ltb_lt.
Qed.
End devices.

(** ** Directories *)

(** The entries of a directory in order: block by block, 32 to a block. *)
Definition dir_entry (s : fs_st) (ip : inode) (bn : nat) (k : nat) : Z * list Z :=
  (de_inum k (file_block s ip (Z.of_nat bn)), de_name k (file_block s ip (Z.of_nat bn))).
Definition matches (name : list Z) (e : Z * list Z) : bool :=
  negb (e.1 =? 0) && bool_decide (cut_name DIRSIZ (of_bytes name) = cut_name DIRSIZ (of_bytes e.2)).

(** The first match in a block, in the blocks from [bn] on. *)
Fixpoint block_find (s : fs_st) (ip : inode) (name : list Z) (bn : nat) (ks : list nat) : option nat :=
  match ks with
  | [] => None
  | k :: ks => if matches name (dir_entry s ip bn k) then Some k else block_find s ip name bn ks
  end.
Fixpoint dir_find (s : fs_st) (ip : inode) (name : list Z) (bns : list nat) : option (nat * nat) :=
  match bns with
  | [] => None
  | bn :: bns => match block_find s ip name bn (seq 0 DPB) with
                 | Some k => Some (bn, k)
                 | None => dir_find s ip name bns
                 end
  end.

Lemma find_dirent_spec s ip name bn fuel : forall k,
  find_dirent fuel name (file_block s ip (Z.of_nat bn)) k = block_find s ip name bn (seq k fuel).
Proof.
  induction fuel as [|fuel IH]; intros k; [done|]. cbn [find_dirent seq block_find]. rewrite IH. unfold matches, dir_entry.
  cbn [fst snd]. destruct (de_inum k _ =? 0); [done|]. cbn [negb andb].
  destruct (Z.eqb_spec (namecmp name (de_name k (file_block s ip (Z.of_nat bn)))) 0) as [E|E].
  - rewrite bool_decide_true; [done|]. by apply namecmp_zero.
  - rewrite bool_decide_false; [done|]. by rewrite <-namecmp_zero.
Qed.

Lemma block_find_same s s' ip name bn ks : fs_same s s' -> block_find s' ip name bn ks = block_find s ip name bn ks.
Proof.
  intros Hs. assert (Hb : file_block s' ip (Z.of_nat bn) = file_block s ip (Z.of_nat bn)).
  { unfold file_block. rewrite (walk_ext _ (view s (i_dev ip))) by (intros; by apply view_same). by rewrite (view_same s). }
  induction ks as [|k ks IH]; [done|]. cbn [block_find]. unfold dir_entry. by rewrite Hb, IH.
Qed.

Lemma dir_find_same s s' ip name bns : fs_same s s' -> dir_find s' ip name bns = dir_find s ip name bns.
Proof. intros Hs. induction bns as [|bn bns IH]; [done|]. cbn [dir_find]. by rewrite (block_find_same s s'), IH. Qed.

(** The number of blocks of a directory. *)
Definition dir_blocks (ip : inode) : nat := Z.to_nat ((i_size ip + BSIZE - 1) / BSIZE).

(** What dirlookup does once it has found entry [k] of block [bn], or none. *)
Definition lookup_result (s : fs_st) (ip : inode) (r : option (nat * nat)) : M fs_st (option (nat * Z)) :=
  match r with
  | None => ret None
  | Some (bn, k) =>
      let! i := iget (i_dev ip) (dir_entry s ip bn k).1 in
      ret (Some (i, BSIZE * Z.of_nat bn + DIRENT_SIZE * Z.of_nat k))
  end.

Lemma dirlookup_loop_read name fuel : forall s dp ip bn,
  icache s !! dp = Some ip -> calm (fb s) -> 0 <= i_size ip ->
  (forall b, (bn <= b < dir_blocks ip)%nat -> readable s ip (Z.of_nat b)) ->
  (dir_blocks ip <= bn + fuel)%nat -> (bn <= dir_blocks ip)%nat ->
  exists s', fs_same s s' /\
    dirlookup_loop fuel dp name (BSIZE * Z.of_nat bn) s
      = lookup_result s ip (dir_find s ip name (seq bn (dir_blocks ip - bn))) s'.
Proof.
  induction fuel as [|fuel IH]; intros s dp ip bn Hi Hc Hsz Hr Hf Hle; cbn [dirlookup_loop];
    rewrite (bind_ret _ _ _ _ _ (geti_ret _ _ _ Hi)).
  - assert (bn = dir_blocks ip) as -> by lia. rewrite Nat.sub_diag. exists s. split; [by apply fs_same_refl|].
    destruct (Z.ltb_spec (BSIZE * Z.of_nat (dir_blocks ip)) (i_size ip)); [|done]. exfalso.
    unfold dir_blocks, BSIZE in *. Z.div_mod_to_equations. lia.
  - destruct (decide (bn = dir_blocks ip)) as [->|Hne].
    { rewrite Nat.sub_diag. exists s. split; [by apply fs_same_refl|].
      destruct (Z.ltb_spec (BSIZE * Z.of_nat (dir_blocks ip)) (i_size ip)); [|done]. exfalso.
      unfold dir_blocks, BSIZE in *. Z.div_mod_to_equations. lia. }
    destruct (Z.ltb_spec (BSIZE * Z.of_nat bn) (i_size ip)) as [_|Hbad].
    2:{ exfalso. unfold dir_blocks, BSIZE in *. Z.div_mod_to_equations. lia. }
    replace (BSIZE * Z.of_nat bn / BSIZE) with (Z.of_nat bn) by (rewrite Z.mul_comm, Z.div_mul by done; lia).
    destruct (Hr bn) as (Hbn & Hpath & a & Ha & Hua & Hla); [lia|].
    destruct (bmap_read s dp ip (Z.of_nat bn) false Hi Hc Hbn Hpath (or_introl eq_refl)) as (s1 & E1 & S1).
    destruct (read_block s1 (i_dev ip) a (fs_calm _ _ S1) (unheld_same _ _ _ _ S1 Hua)) as (bp & s2 & s3 & E2 & Ed & E3 & S3 & _).
    pose proof (fs_same_trans _ _ _ S1 S3) as S13.
    assert (Hblk : view s1 (i_dev ip) a = file_block s ip (Z.of_nat bn))
      by (rewrite (view_same s s1) by done; unfold file_block; by rewrite Ha).
    rewrite (bind_ret _ _ _ _ _ E1), Ha. cbn [baddr default].
    rewrite (bind_ret _ _ _ _ _ E2), (bind_ret _ _ _ _ _ Ed), Hblk, find_dirent_spec.
    replace (dir_blocks ip - bn)%nat with (S (dir_blocks ip - S bn)) by lia. cbn [seq dir_find].
    destruct (block_find s ip name bn (seq 0 DPB)) as [k|] eqn:Ek.
    + exists s3. split; [done|]. by rewrite (bind_ret _ _ _ _ _ E3).
    + rewrite (bind_ret _ _ _ _ _ E3).
      destruct (IH s3 dp ip (S bn)) as (s4 & S4 & E4);
        [by rewrite (fs_icache _ _ S13)|apply (fs_calm _ _ S3)|done| |lia|lia|].
      { intros b Hb. apply (readable_same s); [done|]. apply Hr. lia. }
      exists s4. split; [by eapply fs_same_trans|].
      replace (BSIZE * Z.of_nat bn + BSIZE) with (BSIZE * Z.of_nat (S bn)) by (unfold BSIZE; lia). rewrite E4.
      rewrite (dir_find_same s s3) by done. destruct (dir_find s ip name (seq (S bn) (dir_blocks ip - S bn))) as [[b k]|]; [|done].
      unfold lookup_result, dir_entry. cbn [fst].
      assert (Hb : file_block s3 ip (Z.of_nat b) = file_block s ip (Z.of_nat b)).
      { unfold file_block. rewrite (walk_ext _ (view s (i_dev ip))) by (intros; by apply view_same). by rewrite (view_same s). }
      by rewrite Hb.
Qed.

Lemma dirlookup_read (s : fs_st) (dp : nat) (ip : inode) (name : list Z) :
  icache s !! dp = Some ip -> calm (fb s) -> i_type ip = T_DIR -> 0 <= i_size ip ->
  (forall b, (b < dir_blocks ip)%nat -> readable s ip (Z.of_nat b)) ->
  exists s', fs_same s s' /\
    dirlookup dp name s = lookup_result s ip (dir_find s ip name (seq 0 (dir_blocks ip))) s'.
Proof.
  intros Hi Hc Ht Hsz Hr.
  destruct (dirlookup_loop_read name (Z.to_nat (i_size ip / BSIZE + 1)) s dp ip 0 Hi Hc Hsz) as (s' & Hs & E).
  - intros b Hb. apply Hr. lia.
  - unfold dir_blocks, BSIZE. Z.div_mod_to_equations. lia.
  - lia.
  - exists s'. split; [done|]. unfold dirlookup. rewrite (bind_ret _ _ _ _ _ (geti_ret _ _ _ Hi)), Ht. simpl.
    rewrite Nat.sub_0_r in E. exact E.
Qed.

(** Dirlookup finds the first entry in use whose name agrees with the
    one sought in the bytes namecmp compares, over all the blocks of the
    directory in order, and returns its inode with a reference and the offset
    of the entry; it returns 0 exactly when there is none, and changes
    nothing but the reference count. *)
Theorem dirlookup_correct (s : fs_st) (dp : nat) (ip : inode) (name : list Z) :
  icache s !! dp = Some ip -> calm (fb s) -> i_type ip = T_DIR -> 0 <= i_size ip ->
  (forall b, (b < dir_blocks ip)%nat -> readable s ip (Z.of_nat b)) ->
  exists s', fs_same s s' /\
    dirlookup dp name s = lookup_result s ip (dir_find s ip name (seq 0 (dir_blocks ip))) s'.
Proof. apply dirlookup_read. Qed.

(** ** A small file system *)

Lemma calm_boot n d : (0 < n)%nat -> calm (boot n d).
Proof.
  intros Hn. split; [apply inv_wf, boot_inv|done| |].
  - intros i b [-> _]%lookup_replicate _. by left.
  - destruct n; [lia|]. unfold nfree. simpl. lia.
Qed.

Lemma boot_unheld n d l dv sec : unheld (FsSt (boot n d) l) dv sec.
Proof. intros (i & b & [-> _]%lookup_replicate & Hc & _). done. Qed.

Lemma boot_view n d l dv sec :
  view (FsSt (boot n d) l) dv sec = dread d (Z.land dv 1) (sec mod 2 ^ 28).
Proof.
  apply view_uncached; [apply inv_wf, boot_inv|]. intros i b [-> _]%lookup_replicate. done.
Qed.

(** One block: an unused entry, then the entry [(5, ab)]. *)
Definition demo_dir_block : block :=
  splice 16 (encode_dirent 5 [97; 98]) zero_block.
Definition demo_dir : inode :=
  Inode ROOTDEV 1 1 2 T_DIR 0 0 1 32 [300; 0; 0; 0; 0; 0; 0; 0; 0; 0; 0; 0; 0].
Definition demo_dir_fs : fs_st :=
  FsSt (boot 4 (dwrite (∅ : image) ROOTDEV 300 demo_dir_block)) [demo_dir; Inode 0 0 0 0 0 0 0 0 0 []].

Lemma demo_readable : readable demo_dir_fs demo_dir 0.
Proof.
  split; [change MAXFILE with 16396; lia|]. split; [apply Forall_nil; exact I|].
  exists 300. split; [reflexivity|]. split; [apply boot_unheld|]. unfold demo_dir_fs. rewrite boot_view. reflexivity.
Qed.

Lemma readi_correct_witness :
  exists s', readi (fun _ => None) 0 16 4 demo_dir_fs = Ret (4, [5; 0; 97; 98]) s'.
Proof.
  destruct (readi_correct (fun _ => None) demo_dir_fs 0 demo_dir 16 4) as (s' & E & _).
  - reflexivity.
  - apply calm_boot. lia.
  - discriminate.
  - unfold u32_mod. lia.
  - unfold u32_mod. lia.
  - simpl. unfold u32_mod. lia.
  - intros bn Hbn. change (0 <= bn <= 0) in Hbn. assert (bn = 0) as -> by lia. apply demo_readable.
  - exists s'. rewrite E. unfold file_bytes. simpl. unfold file_byte, file_block, demo_dir_fs.
    rewrite !boot_view. reflexivity.
Defined.

Lemma dirlookup_correct_witness :
  exists s', fs_same demo_dir_fs s' /\
    dirlookup 0 [97; 98] demo_dir_fs
      = lookup_result demo_dir_fs demo_dir (dir_find demo_dir_fs demo_dir [97; 98] [0%nat]) s'.
Proof.
  apply (dirlookup_correct demo_dir_fs 0 demo_dir [97; 98]).
  - reflexivity.
  - apply calm_boot. lia.
  - reflexivity.
  - simpl. lia.
  - intros b Hb. change (b < 1)%nat in Hb. assert (b = 0%nat) as -> by lia. apply demo_readable.
Defined.
