(* ===== verification/FsPath.v ===== *)
(** * fs.c: path names

    The inode cache as namei uses it: iget, ilock, iunlock and iput, and
    namei against the resolution of a path over the directories on disk. *)

From S2P Require Import Prelude CString Layout Ide Bio Cache Fs FsInode FsNames FsRead.

(** ** Flags *)

Lemma ihas_busy ip : ihas I_BUSY ip = Z.testbit (i_flags ip) 0.
Proof. by apply (has_bit _ 0). Qed.
Lemma ihas_valid ip : ihas I_VALID ip = Z.testbit (i_flags ip) 1.
Proof. by apply (has_bit _ 1). Qed.

(** The flags as ilock and iunlock set them. *)
Definition set_busy (ip : inode) : inode := set_iflags (Z.lor (i_flags ip) I_BUSY) ip.
Definition set_valid (ip : inode) : inode := set_iflags (Z.lor (i_flags ip) I_VALID) ip.
Definition clear_ibusy (ip : inode) : inode := set_iflags (Z.land (i_flags ip) (Z.lnot I_BUSY)) ip.

Lemma iflags_spec ip :
  ihas I_BUSY (set_busy ip) = true /\ ihas I_VALID (set_busy ip) = ihas I_VALID ip /\
  ihas I_BUSY (set_valid ip) = ihas I_BUSY ip /\ ihas I_VALID (set_valid ip) = true /\
  ihas I_BUSY (clear_ibusy ip) = false /\ ihas I_VALID (clear_ibusy ip) = ihas I_VALID ip.
Proof.
  rewrite !ihas_busy, !ihas_valid. unfold set_busy, set_valid, clear_ibusy. simpl i_flags.
  rewrite !Z.lor_spec, !Z.land_spec, !Z.lnot_spec by done.
  change (Z.testbit I_BUSY 0) with true. change (Z.testbit I_BUSY 1) with false.
  change (Z.testbit I_VALID 0) with false. change (Z.testbit I_VALID 1) with true. simpl.
  by rewrite !orb_false_r, !orb_true_r, !andb_false_r, !andb_true_r.
Qed.

(** Neither flags nor counts are on the disk. *)
Lemma load_set_ref d r ip : ip = load_dinode d ip -> set_ref r ip = load_dinode d (set_ref r ip).
Proof. intros E. change (load_dinode d (set_ref r ip)) with (set_ref r (load_dinode d ip)). by rewrite <-E. Qed.
Lemma load_set_iflags d f ip : ip = load_dinode d ip -> set_iflags f ip = load_dinode d (set_iflags f ip).
Proof. intros E. change (load_dinode d (set_iflags f ip)) with (set_iflags f (load_dinode d ip)). by rewrite <-E. Qed.

(** ** The cache between system calls *)

(** An inode as the disk has it. *)
Definition dnode (s : fs_st) (inum : Z) : inode :=
  load_dinode (view s ROOTDEV (IBLOCK inum)) (Inode ROOTDEV inum 0 0 0 0 0 0 0 []).

(** Inodes in use are of the root device, not locked but for [lk], and those
    read agree with the disk. *)
Record quiet (lk : option nat) (s : fs_st) : Prop := {
  q_calm : calm (fb s);
  q_ok : icache_ok (icache s);
  q_dev i ip : icache s !! i = Some ip -> 0 < i_ref ip -> i_dev ip = ROOTDEV;
  q_busy i ip : icache s !! i = Some ip -> 0 < i_ref ip -> ihas I_BUSY ip = bool_decide (lk = Some i);
  q_synced i ip : icache s !! i = Some ip -> 0 < i_ref ip -> ihas I_VALID ip = true ->
    ip = load_dinode (view s ROOTDEV (IBLOCK (i_inum ip))) ip }.

(** Slot [i] stands for inode [inum]. *)
Definition at_slot (s : fs_st) (i : nat) (inum : Z) : Prop :=
  exists ip, icache s !! i = Some ip /\ names ROOTDEV inum ip = true.

(** The slots nobody refers to, and how many there are when one reference to
    slot [i] is dropped. *)
Definition idle_slot (ip : inode) : bool := i_ref ip =? 0.
Definition nidle (l : list inode) : nat := count idle_slot l.
Definition last_ref (ip : inode) : nat := if i_ref ip =? 1 then 1 else 0.
Definition nidle_but (i : nat) (l : list inode) : nat :=
  (nidle l + match l !! i with Some ip => last_ref ip | None => 0 end)%nat.

(** The references added to inode [inum] of the root device. *)
Definition one_ref (inum dv m : Z) : Z := if (dv =? ROOTDEV) && (m =? inum) then 1 else 0.

(** Changing a slot in use, and the buffer cache's order, keeps the cache
    quiet. *)
Lemma quiet_touch lk lk' s b i ip ip' :
  quiet lk s -> calm b -> same_view (fb s) b -> icache s !! i = Some ip -> 0 < i_ref ip -> 0 <= i_ref ip' ->
  i_dev ip' = i_dev ip -> i_inum ip' = i_inum ip ->
  (0 < i_ref ip' -> ihas I_BUSY ip' = bool_decide (lk' = Some i)) ->
  (0 < i_ref ip' -> ihas I_VALID ip' = true -> ip' = load_dinode (view s ROOTDEV (IBLOCK (i_inum ip))) ip') ->
  (forall j, j <> i -> lk' = Some j <-> lk = Some j) ->
  quiet lk' (FsSt b (<[i := ip']> (icache s))).
Proof.
  intros [Hc Ho Hd Hb Hs] Hcb Hv Hi Hr Hr' Ed En Hbusy Hsync Hlk.
  assert (Hview : forall x, view (FsSt b (<[i := ip']> (icache s))) ROOTDEV x = view s ROOTDEV x) by (intros; apply Hv).
  split; simpl.
  - done.
  - apply (icache_ok_insert _ i ip); [done|done|done|]. intros j jp dv inum Hj Hlj Hn. apply not_true_iff_false. intros Hn'. apply Hj.
    apply (ic_unique _ Ho j i jp ip dv inum); [done|done|done|]. apply names_spec in Hn as (_ & <- & <-). apply names_spec. auto.
  - intros j jp [(<- & <- & _)|[Hne Hj]]%list_lookup_insert_Some Hrj; [rewrite Ed; eauto|eauto].
  - intros j jp [(<- & <- & _)|[Hne Hj]]%list_lookup_insert_Some Hrj; [auto|]. rewrite (Hb j jp Hj Hrj).
    apply bool_decide_ext. symmetry. apply Hlk. done.
  - intros j jp [(<- & <- & _)|[Hne Hj]]%list_lookup_insert_Some Hrj Hvj; rewrite Hview; [rewrite En; auto|eauto].
Qed.

Lemma names_same dv inum ip ip' :
  i_dev ip' = i_dev ip -> i_inum ip' = i_inum ip -> 0 < i_ref ip -> 0 < i_ref ip' -> names dv inum ip' = names dv inum ip.
Proof. intros E1 E2 H1 H2. unfold names. rewrite E1, E2. apply Z.ltb_lt in H1, H2. by rewrite H1, H2. Qed.

(** ** iget *)

(** The reference iget adds: to the slot of that inode, else to a slot that
    was not in use. *)
Lemma iget_cases dv inum s :
  (0 < nidle (icache s))%nat ->
  exists i ip, icache s !! i = Some ip /\
    (names dv inum ip = true /\
     iget dv inum s = Ret i (set_icache (<[i := set_ref (i_ref ip + 1) ip]> (icache s)) s) \/
     i_ref ip = 0 /\ (forall j jp, icache s !! j = Some jp -> names dv inum jp = false) /\
     exists ip', i_dev ip' = dv /\ i_inum ip' = inum /\ i_ref ip' = 1 /\ i_flags ip' = 0 /\
       iget dv inum s = Ret i (set_icache (<[i := ip']> (icache s)) s)).
Proof.
  intros Hid. pose proof (iget_scan_spec dv inum (icache s) 0 None) as Hscan.
  set (r := iget dv inum s). assert (Er : r = iget dv inum s) by done. clearbody r. unfold iget, bind at 1, get in Er.
  destruct (iget_scan dv inum 0 None (icache s)) as [i|[i|]].
  - destruct Hscan as (j & ip & -> & Hj & Hn). simpl in Er. exists j, ip. split; [done|]. left. split; [done|].
    rewrite (bind_ret _ _ _ _ _ (updi_ret _ _ _ _ Hj)) in Er. done.
  - destruct Hscan as (Hno & [?|(_ & j & ip & -> & Hj & H0)]); [done|]. simpl in Er. exists j, ip. split; [done|]. right.
    split; [done|]. split; [done|]. exists (Inode dv inum 1 0 (i_type ip) (i_major ip) (i_minor ip) (i_nlink ip) (i_size ip) (i_addrs ip)).
    split_and!; try done. rewrite (bind_ret _ _ _ _ _ (updi_ret _ _ _ _ Hj)) in Er. done.
  - exfalso. destruct Hscan as (_ & _ & Hall). apply count_pos in Hid as (j & ip & Hj & H0). apply (Hall j ip Hj). unfold idle_slot in H0. lia.
Qed.

Lemma nidle_insert l i ip ip' :
  l !! i = Some ip -> (nidle (<[i := ip']> l) + (if idle_slot ip then 1 else 0) = nidle l + (if idle_slot ip' then 1 else 0))%nat.
Proof. apply count_insert. Qed.

Lemma share_spec dv m ip : 0 < i_ref ip -> i_dev ip = ROOTDEV -> share dv m ip = i_ref ip * one_ref (i_inum ip) dv m.
Proof.
  intros Hr Hd. unfold share, names, one_ref. rewrite Hd. apply Z.ltb_lt in Hr. rewrite Hr. rewrite (Z.eqb_sym ROOTDEV), (Z.eqb_sym (i_inum ip)).
  simpl. destruct ((dv =? ROOTDEV) && (m =? i_inum ip)); lia.
Qed.

Lemma iget_quiet lk s inum :
  quiet lk s -> (0 < nidle (icache s))%nat -> (forall j jp, lk = Some j -> icache s !! j = Some jp -> 0 < i_ref jp) ->
  exists i s', iget ROOTDEV inum s = Ret i s' /\ fb s' = fb s /\ quiet lk s' /\ at_slot s' i inum /\
    (forall dv m, refcount dv m (icache s') = refcount dv m (icache s) + one_ref inum dv m) /\
    nidle_but i (icache s') = nidle (icache s) /\
    (forall j jp, icache s !! j = Some jp -> 0 < i_ref jp ->
       icache s' !! j = Some (if decide (j = i) then set_ref (i_ref jp + 1) jp else jp)).
Proof.
  intros Hq Hid Hlk. destruct (iget_cases ROOTDEV inum s Hid) as (i & ip & Hi & [(Hn & E)|(H0 & Hno & ip' & Ed & En & Er & Ef & E)]);
    pose proof (lookup_lt_Some _ _ _ Hi) as Hlt; eexists i, _; (split; [exact E|]); (split; [done|]); simpl.
  - pose proof Hn as (Hr & Hdv & Hin)%names_spec. split_and!.
    + eapply (quiet_touch lk lk s (fb s) i ip); [exact Hq|apply Hq|apply same_view_refl|done|done|simpl; lia|done|done| | |done].
      * intros _. by apply (q_busy _ _ Hq i ip).
      * intros _ Hv. apply load_set_ref. by apply (q_synced _ _ Hq i).
    + eexists. split; [by apply list_lookup_insert_eq|]. apply names_spec. simpl. split_and!; [lia|done|done].
    + intros dv m. rewrite (refcount_insert dv m _ i ip) by done. rewrite !share_spec by (simpl; done || lia). simpl. rewrite Hin. lia.
    + unfold nidle_but. rewrite list_lookup_insert_eq by done. pose proof (nidle_insert _ _ _ (set_ref (i_ref ip + 1) ip) Hi) as Hc.
      unfold idle_slot, last_ref in *. simpl in *. repeat zcase; lia.
    + intros j jp Hj Hrj. destruct (decide (j = i)) as [->|Hne]; [rewrite list_lookup_insert_eq by done; congruence|by rewrite list_lookup_insert_ne].
  - split_and!.
    + destruct Hq as [Hc Ho Hd Hb Hs]. split; simpl.
      * done.
      * apply (icache_ok_insert _ i ip); [done|done|lia|]. intros j jp dv m _ Hj (_ & <- & <-)%names_spec. rewrite Ed, En. eauto.
      * intros j jp [(<- & <- & _)|[_ Hj]]%list_lookup_insert_Some Hrj; [done|eauto].
      * intros j jp [(<- & <- & _)|[_ Hj]]%list_lookup_insert_Some Hrj; [|eauto]. unfold ihas. rewrite Ef. symmetry. apply bool_decide_eq_false_2.
        intros Hl. specialize (Hlk i ip Hl Hi). lia.
      * intros j jp [(<- & <- & _)|[_ Hj]]%list_lookup_insert_Some Hrj Hv; [|eauto]. exfalso. unfold ihas in Hv. by rewrite Ef in Hv.
    + eexists. split; [by apply list_lookup_insert_eq|]. apply names_spec. lia.
    + intros dv m. rewrite (refcount_insert dv m _ i ip) by done. rewrite (share_spec dv m ip') by (done || lia). rewrite En, Er.
      assert (Es : share dv m ip = 0) by (unfold share; by destruct (names dv m ip)). lia.
    + unfold nidle_but. rewrite list_lookup_insert_eq by done. pose proof (nidle_insert _ _ _ ip' Hi) as Hc.
      unfold idle_slot, last_ref in *. rewrite H0, Er in Hc. rewrite Er. simpl in *. lia.
    + intros j jp Hj Hrj. rewrite list_lookup_insert_ne by (intros ->; replace jp with ip in Hrj by congruence; lia).
      by rewrite decide_False by (intros ->; replace jp with ip in Hrj by congruence; lia).
Qed.

(** ** ilock, iunlock, iput *)

(** [ip] is inode [d] with a count and flags of its own. *)
Definition is_node (d ip : inode) : Prop := ip = set_iflags (i_flags ip) (set_ref (i_ref ip) d).

Lemma synced_node s inum ip :
  i_dev ip = ROOTDEV -> i_inum ip = inum -> ip = load_dinode (view s ROOTDEV (IBLOCK inum)) ip -> is_node (dnode s inum) ip.
Proof. intros Hd <- E. unfold is_node, dnode. rewrite E at 1. unfold load_dinode. rewrite Hd. done. Qed.

(** A slot as ilock leaves it. *)
Record locked (s : fs_st) (i : nat) (inum : Z) (ip : inode) : Prop := {
  lk_slot : icache s !! i = Some ip;
  lk_ref : 0 < i_ref ip;
  lk_busy : ihas I_BUSY ip = true;
  lk_valid : ihas I_VALID ip = true;
  lk_node : is_node (dnode s inum) ip }.

Lemma dnode_same s s' inum : same_view (fb s) (fb s') -> dnode s' inum = dnode s inum.
Proof. intros Hv. unfold dnode, view. by rewrite (sv_view _ _ Hv). Qed.

Lemma bio_frame {A} (m : M bst A) s a s' l : bio m s = Ret a s' -> bio m (set_icache l s) = Ret a (set_icache l s').
Proof. unfold bio, zoom. simpl. destruct (m (fb s)); try done. by intros [= <- <-]. Qed.

Lemma ilock_ret s i inum :
  quiet None s -> at_slot s i inum -> unheld s ROOTDEV (IBLOCK inum) -> i_type (dnode s inum) <> 0 ->
  exists s' ip ip', ilock i s = Ret tt s' /\ icache s !! i = Some ip /\ icache s' = <[i := ip']> (icache s) /\ i_ref ip' = i_ref ip /\
    quiet (Some i) s' /\ same_view (fb s) (fb s') /\ locked s' i inum ip'.
Proof.
  intros Hq (ip & Hi & (Hr & Hd & <-)%names_spec) Hu Ht. pose proof (lookup_lt_Some _ _ _ Hi) as Hlt.
  pose proof (q_busy _ _ Hq i ip Hi Hr) as Hb. simpl in Hb. destruct (iflags_spec ip) as (F1 & F2 & _).
  assert (Hlk : forall j, j <> i -> Some i = Some j <-> None = Some j) by (intros j Hj; split; [intros [= E]; congruence|done]).
  set (s1 := set_icache (<[i := set_busy ip]> (icache s)) s).
  assert (E : ilock i s = (let! ip := geti i in
    if negb (ihas I_VALID ip) then
      let! bp := bio (bread (i_dev ip) (IBLOCK (i_inum ip))) in
      let! d := bdata bp in
      updi i (load_dinode d) ;; bio (brelse bp) ;;
      updi i (fun ip => set_iflags (Z.lor (i_flags ip) I_VALID) ip) ;;
      let! ip := geti i in
      if i_type ip =? 0 then panic "ilock: no type" else ret tt
    else ret tt) s1).
  { unfold ilock. rewrite (bind_ret _ _ _ _ _ (geti_ret _ _ _ Hi)). destruct (Z.ltb_spec (i_ref ip) 1); [lia|]. rewrite Hb.
    rewrite (bind_ret _ _ _ _ _ (updi_ret _ _ _ _ Hi)). done. }
  assert (Hi1 : icache s1 !! i = Some (set_busy ip)) by (by apply list_lookup_insert_eq).
  rewrite (bind_ret _ _ _ _ _ (geti_ret _ _ _ Hi1)), F2 in E.
  destruct (ihas I_VALID ip) eqn:Hv; cbn [negb] in E.
  - pose proof (q_synced _ _ Hq i ip Hi Hr Hv) as Hs. pose proof (load_set_iflags _ (Z.lor (i_flags ip) I_BUSY) _ Hs) as Hs'.
    exists s1, ip, (set_busy ip). split_and!; [exact E|done|done|done| |apply same_view_refl|].
    + eapply (quiet_touch None (Some i) s (fb s) i ip); [exact Hq|apply Hq|apply same_view_refl|done|done|simpl; lia|done|done| | |exact Hlk].
      * intros _. by rewrite F1, bool_decide_true.
      * intros _ _. exact Hs'.
    + split; [done|done|done|by rewrite F2|]. by apply synced_node.
  - simpl i_dev in E. simpl i_inum in E. rewrite Hd in E. change (unheld s1 ROOTDEV (IBLOCK (i_inum ip))) in Hu.
    destruct (read_block s1 ROOTDEV (IBLOCK (i_inum ip)) (q_calm _ _ Hq) Hu) as (bp & s2 & s3 & E1 & Ed & E2 & S3 & I2).
    rewrite (bind_ret _ _ _ _ _ E1), (bind_ret _ _ _ _ _ Ed) in E.
    assert (Hi2 : icache s2 !! i = Some (set_busy ip)) by (by rewrite I2).
    set (d := view s1 ROOTDEV (IBLOCK (i_inum ip))) in *. set (jp := load_dinode d (set_busy ip)) in *.
    set (l3 := <[i := jp]> (icache s2)) in *. assert (Hl3 : l3 = <[i := jp]> (icache s)) by (unfold l3, s1; rewrite I2; apply list_insert_insert_eq).
    assert (Hi3 : icache (set_icache l3 s3) !! i = Some jp) by (simpl; rewrite Hl3; by apply list_lookup_insert_eq).
    rewrite (bind_ret _ _ _ _ _ (updi_ret _ _ _ _ Hi2)), (bind_ret _ _ _ _ _ (bio_frame _ _ _ _ l3 E2)) in E.
    rewrite (bind_ret _ _ _ _ _ (updi_ret _ _ _ _ Hi3)) in E. change (set_iflags _ jp) with (set_valid jp) in E.
    set (s4 := set_icache _ _) in E. assert (Hi4 : icache s4 !! i = Some (set_valid jp)) by (apply list_lookup_insert_eq; by eapply lookup_lt_Some).
    rewrite (bind_ret _ _ _ _ _ (geti_ret _ _ _ Hi4)) in E. destruct (Z.eqb_spec (i_type (set_valid jp)) 0) as [E0|_]; [done|].
    destruct (iflags_spec jp) as (_ & _ & F3 & F4 & _). assert (Fb : ihas I_BUSY jp = true) by exact F1.
    pose proof (fs_view _ _ S3 : same_view (fb s) (fb s3)) as V3. assert (Hs4 : s4 = FsSt (fb s3) (<[i := set_valid jp]> (icache s))).
    { unfold s4. simpl. rewrite Hl3. unfold set_icache. simpl. by rewrite list_insert_insert_eq. }
    assert (Hnode : set_valid jp = load_dinode d (set_valid jp)) by (by apply load_set_iflags).
    exists s4, ip, (set_valid jp). split_and!; [exact E|done|by rewrite Hs4|done| |by rewrite Hs4|].
    + rewrite Hs4. eapply (quiet_touch None (Some i) s (fb s3) i ip); [exact Hq|apply S3|done|done|done|simpl; lia|done|done| |done|exact Hlk].
      intros _. by rewrite F3, Fb, bool_decide_true.
    + split; [done|done|by rewrite F3|done|]. apply synced_node; [done|done|]. replace (view s4 ROOTDEV (IBLOCK (i_inum ip))) with d; [done|].
      unfold d. rewrite Hs4. symmetry. apply V3.
Qed.

Lemma iunlock_ret s i ip :
  icache s !! i = Some ip -> 0 < i_ref ip -> ihas I_BUSY ip = true ->
  iunlock i s = Ret tt (FsSt (set_wakes (ChInode i :: wakes (fb s)) (fb s)) (<[i := clear_ibusy ip]> (icache s))).
Proof.
  intros Hi Hr Hb. unfold iunlock. rewrite (bind_ret _ _ _ _ _ (geti_ret _ _ _ Hi)), Hb.
  destruct (Z.ltb_spec (i_ref ip) 1); [lia|]. simpl. rewrite (bind_ret _ _ _ _ _ (updi_ret _ _ _ _ Hi)). done.
Qed.

(** Dropping a reference that is not the last one to an unlinked inode. *)
Lemma iput_ret s i ip :
  icache s !! i = Some ip -> i_nlink ip <> 0 \/ ihas I_VALID ip = false \/ i_ref ip <> 1 ->
  iput i s = Ret tt (set_icache (<[i := set_ref (i_ref ip - 1) ip]> (icache s)) s).
Proof.
  intros Hi Hl. unfold iput. rewrite (bind_ret _ _ _ _ _ (geti_ret _ _ _ Hi)).
  assert ((i_ref ip =? 1) && ihas I_VALID ip && (i_nlink ip =? 0) = false) as ->.
  { destruct Hl as [Hl|[->|Hl]]; [|by rewrite andb_false_r|]; apply Z.eqb_neq in Hl; by rewrite Hl, ?andb_false_r. }
  rewrite (bind_ret _ _ _ _ _ (eq_refl : ret tt s = Ret tt s)). by rewrite (updi_ret _ _ _ _ Hi).
Qed.

Lemma iunlockput_ret s i inum ip :
  quiet (Some i) s -> locked s i inum ip -> i_nlink (dnode s inum) <> 0 ->
  exists s', iunlockput i s = Ret tt s' /\ icache s' = <[i := set_ref (i_ref ip - 1) (clear_ibusy ip)]> (icache s) /\
    quiet None s' /\ same_view (fb s) (fb s') /\
    (forall dv m, refcount dv m (icache s') = refcount dv m (icache s) - one_ref inum dv m).
Proof.
  intros Hq [Hi Hr Hb Hv Hnode] Hl. pose proof (lookup_lt_Some _ _ _ Hi) as Hlt. unfold iunlockput.
  rewrite (bind_ret _ _ _ _ _ (iunlock_ret _ _ _ Hi Hr Hb)). destruct (iflags_spec ip) as (_ & _ & _ & _ & F5 & F6).
  erewrite iput_ret; [|simpl; by apply list_lookup_insert_eq|left; rewrite Hnode; exact Hl].
  eexists. split; [done|]. simpl. rewrite list_insert_insert_eq.
  split_and!; [done| |apply same_view_wakes|].
  - eapply (quiet_touch (Some i) None s _ i ip); [exact Hq|apply calm_wakes, Hq|apply same_view_wakes|done|done|simpl; lia|done|done| | |].
    + intros _. rewrite bool_decide_false by done. exact F5.
    + intros _ Hv'. apply load_set_ref, load_set_iflags. by apply (q_synced _ _ Hq i).
    + intros j Hj. split; [done|intros [= E]; congruence].
  - intros dv m. rewrite (refcount_insert dv m _ i ip) by done. pose proof (q_dev _ _ Hq i ip Hi Hr) as Hd. rewrite (share_spec dv m ip) by done.
    assert (En : i_inum ip = inum) by (rewrite Hnode; done). rewrite En. destruct (decide (i_ref ip = 1)) as [E1|E1].
    + unfold share, names. simpl. rewrite E1. simpl. lia.
    + rewrite share_spec by (simpl; done || lia). simpl. rewrite En. lia.
Qed.

(** ** Resolving a path *)

Lemma node_fields d ip : is_node d ip ->
  i_dev ip = i_dev d /\ i_inum ip = i_inum d /\ i_type ip = i_type d /\ i_nlink ip = i_nlink d /\ i_size ip = i_size d /\ i_addrs ip = i_addrs d.
Proof. intros E. rewrite E. done. Qed.

(** The entry a directory has for a name. *)
Definition entry (s : fs_st) (d : inode) (name : list Z) : option Z :=
  match dir_find s d name (seq 0 (dir_blocks d)) with
  | Some (bn, k) => Some (dir_entry s d bn k).1
  | None => None
  end.

(** The inode number a path leads to from directory [inum]. *)
Fixpoint resolve (s : fs_st) (inum : Z) (elems : list (list Z)) : option Z :=
  match elems with
  | [] => Some inum
  | name :: rest =>
      let d := dnode s inum in
      if i_type d =? T_DIR then match entry s d name with Some n => resolve s n rest | None => None end else None
  end.

(** The inodes on the way are allocated and linked, their blocks readable. *)
Fixpoint walkable (s : fs_st) (inum : Z) (elems : list (list Z)) : Prop :=
  match elems with
  | [] => True
  | name :: rest =>
      let d := dnode s inum in
      unheld s ROOTDEV (IBLOCK inum) /\ i_type d <> 0 /\ i_nlink d <> 0 /\
      (i_type d = T_DIR -> 0 <= i_size d /\ (forall b, (b < dir_blocks d)%nat -> readable s d (Z.of_nat b)) /\
         match entry s d name with Some n => walkable s n rest | None => True end)
  end.

(** Directories with the same blocks have the same entries. *)
Lemma file_block_ext s s' ip ip' bn :
  (forall x, view s' (i_dev ip) x = view s (i_dev ip) x) -> i_dev ip' = i_dev ip -> i_addrs ip' = i_addrs ip ->
  file_block s' ip' bn = file_block s ip bn.
Proof. intros Hv E1 E2. unfold file_block. rewrite E1, E2, (walk_ext _ (view s (i_dev ip))) by done. by rewrite Hv. Qed.

Lemma entry_ext s s' ip ip' name :
  (forall x, view s' (i_dev ip) x = view s (i_dev ip) x) -> i_dev ip' = i_dev ip -> i_addrs ip' = i_addrs ip -> i_size ip' = i_size ip ->
  (forall bn k, dir_entry s' ip' bn k = dir_entry s ip bn k) /\
  dir_find s' ip' name (seq 0 (dir_blocks ip')) = dir_find s ip name (seq 0 (dir_blocks ip)).
Proof.
  intros Hv E1 E2 E3. assert (He : forall bn k, dir_entry s' ip' bn k = dir_entry s ip bn k).
  { intros bn k. unfold dir_entry. by rewrite (file_block_ext s s' ip ip'). }
  split; [done|]. unfold dir_blocks. rewrite E3. induction (seq 0 _) as [|bn bns IH]; [done|]. cbn [dir_find]. rewrite IH.
  assert (Hb : forall ks, block_find s' ip' name bn ks = block_find s ip name bn ks); [|by rewrite Hb].
  induction ks as [|k ks IHk]; [done|]. cbn [block_find]. by rewrite He, IHk.
Qed.

Lemma entry_same s s' d name : same_view (fb s) (fb s') -> entry s' d name = entry s d name.
Proof.
  intros Hv. destruct (entry_ext s s' d d name) as [He Hf]; [intros; apply Hv|done..|]. unfold entry. rewrite Hf.
  destruct (dir_find s d name _) as [[bn k]|]; [by rewrite He|done].
Qed.

Lemma resolve_same s s' inum elems : same_view (fb s) (fb s') -> resolve s' inum elems = resolve s inum elems.
Proof.
  intros Hv. revert inum. induction elems as [|name rest IH]; intros inum; [done|]. cbn [resolve].
  rewrite (dnode_same s s'), (entry_same s s') by done. destruct (i_type _ =? T_DIR); [|done]. by destruct (entry s _ name).
Qed.

Lemma walkable_same s s' inum elems : same_view (fb s) (fb s') -> calm (fb s') -> walkable s inum elems -> walkable s' inum elems.
Proof.
  intros Hv Hc. assert (Hs : fs_same s (FsSt (fb s') (icache s))) by (by split).
  revert inum. induction elems as [|name rest IH]; intros inum; [done|]. cbn [walkable].
  rewrite (dnode_same s s'), (entry_same s s') by done. intros (Hu & Ht & Hl & Hd). split_and!; [|done|done|].
  - intros Hh%(sv_held _ _ Hv). done.
  - intros HT. destruct (Hd HT) as (Hsz & Hr & He). split_and!; [done| |by destruct (entry s _ name); [apply IH|]].
    intros b Hb. exact (readable_same s (FsSt (fb s') (icache s)) _ _ Hs (Hr b Hb)).
Qed.

(** One element of a path: the directory is locked, searched, unlocked and
    released. *)
Definition name_round {A} (i : nat) (name : list Z) (found : nat -> M fs_st (option A)) : M fs_st (option A) :=
  ilock i ;;
  let! ip := geti i in
  if negb (i_type ip =? T_DIR) then iunlockput i ;; ret None
  else
    let! r := dirlookup i name in
    match r with
    | None => iunlockput i ;; ret None
    | Some (next, _) => iunlockput i ;; found next
    end.

Lemma quiet_same lk s s' : quiet lk s -> fs_same s s' -> quiet lk s'.
Proof.
  intros [Hc Ho Hd Hb Hs] [C V I]. split; rewrite ?I; try done. intros i ip Hi Hr Hv.
  unfold view. rewrite (sv_view _ _ V). by apply (Hs i).
Qed.

Lemma locked_same s s' i inum ip : locked s i inum ip -> fs_same s s' -> locked s' i inum ip.
Proof. intros [H1 H2 H3 H4 H5] [C V I]. split; rewrite ?I, ?(dnode_same s s'); done. Qed.

(** The slots when the directory's reference is exchanged for the entry's. *)
Lemma exchange_idle l i j ip l' :
  l !! i = Some ip -> 0 < i_ref ip -> nidle_but j l' = nidle l ->
  l' !! i = Some (if decide (i = j) then set_ref (i_ref ip + 1) ip else ip) ->
  let x := if decide (i = j) then i_ref ip else i_ref ip - 1 in
  forall jp, i_ref jp = x -> nidle_but j (<[i := jp]> l') = nidle_but i l.
Proof.
  intros Hi Hr Hn Hi' x jp Hx. pose proof (nidle_insert l' i _ jp Hi') as Hc. pose proof (lookup_lt_Some _ _ _ Hi') as Hlt.
  unfold nidle_but in *. rewrite Hi. unfold x, idle_slot, last_ref in *. clear x. destruct (decide (i = j)) as [<-|Hne].
  - rewrite list_lookup_insert_eq by done. rewrite Hi' in Hn. rewrite Hx in *. simpl in *. repeat zcase; lia.
  - rewrite list_lookup_insert_ne by done. rewrite Hx in *. simpl in *. repeat zcase; lia.
Qed.

(** The directory's reference exchanged for one to the entry's inode. *)
Lemma exchange s i inum ip n :
  quiet (Some i) s -> locked s i inum ip -> i_nlink (dnode s inum) <> 0 -> (0 < nidle (icache s))%nat ->
  exists j s1 s2, iget ROOTDEV n s = Ret j s1 /\ iunlockput i s1 = Ret tt s2 /\ quiet None s2 /\ same_view (fb s) (fb s2) /\ at_slot s2 j n /\
    (forall dv m, refcount dv m (icache s2) = refcount dv m (icache s) + one_ref n dv m - one_ref inum dv m) /\
    nidle_but j (icache s2) = nidle_but i (icache s).
Proof.
  intros Hq [Hi Hr Hb Hv Hnode] Hl Hpos.
  destruct (iget_quiet (Some i) s n Hq Hpos) as (j & s1 & E1 & F1 & Q1 & (jp & Hj & Nj) & C1 & N1 & K1).
  { intros k kp [= <-] Hk. congruence. }
  specialize (K1 i ip Hi Hr). set (ip1 := if decide (i = j) then _ else _) in K1.
  assert (Hdn : dnode s1 inum = dnode s inum) by (apply dnode_same; rewrite F1; apply same_view_refl).
  assert (L1 : locked s1 i inum ip1).
  { split; [done|unfold ip1; destruct (decide _); simpl; lia|unfold ip1; by destruct (decide _)|unfold ip1; by destruct (decide _)|].
    rewrite Hdn. unfold ip1. destruct (decide (i = j)); [|done]. unfold is_node in *. rewrite Hnode at 2. done. }
  destruct (iunlockput_ret s1 i inum ip1 Q1 L1) as (s2 & E2 & I2 & Q2 & V2 & C2); [by rewrite Hdn|]. rewrite F1 in V2.
  exists j, s1, s2. split_and!; [done|done|done|done| | |].
  - unfold at_slot. rewrite I2. unfold ip1 in *. destruct (decide (i = j)) as [<-|Hne].
    + eexists. split; [apply list_lookup_insert_eq; by eapply lookup_lt_Some|].
      rewrite K1 in Hj. injection Hj as <-. apply names_spec in Nj as (_ & Dj & Mj). apply names_spec. simpl in *. split_and!; [lia|done|done].
    + exists jp. by rewrite list_lookup_insert_ne.
  - intros dv m. by rewrite C2, C1.
  - rewrite I2. eapply (exchange_idle (icache s) i j ip); [done|done|done|done|]. unfold ip1. destruct (decide (i = j)); simpl; lia.
Qed.

Section round.
Context {A : Type} (i : nat) (inum : Z) (name : list Z) (rest : list (list Z)) (found : nat -> M fs_st (option A)).

Lemma name_round_ret s :
  quiet None s -> at_slot s i inum -> (2 <= nidle_but i (icache s))%nat -> walkable s inum (name :: rest) ->
  let d := dnode s inum in
  match (if i_type d =? T_DIR then entry s d name else None) with
  | None => exists s', name_round i name found s = Ret None s' /\ quiet None s' /\ same_view (fb s) (fb s') /\
      (forall dv m, refcount dv m (icache s') = refcount dv m (icache s) - one_ref inum dv m)
  | Some n => exists j s', name_round i name found s = found j s' /\ quiet None s' /\ same_view (fb s) (fb s') /\ at_slot s' j n /\
      (forall dv m, refcount dv m (icache s') = refcount dv m (icache s) - one_ref inum dv m + one_ref n dv m) /\
      nidle_but j (icache s') = nidle_but i (icache s)
  end.
Proof.
  intros Hq Hat Hid (Hu & Ht & Hl & Hdir) d. fold d in Hdir.
  destruct (ilock_ret s i inum Hq Hat Hu Ht) as (s1 & ip & ip1 & E1 & Hi & I1 & R1 & Q1 & V1 & L1).
  assert (Hd1 : dnode s1 inum = d) by (by apply dnode_same). pose proof (lk_node _ _ _ _ L1) as Hn1. rewrite Hd1 in Hn1.
  destruct (node_fields _ _ Hn1) as (Fd & Fi & Ft & Fl & Fs & Fa). pose proof (lk_slot _ _ _ _ L1) as Hi1. pose proof (lk_ref _ _ _ _ L1) as Hr1.
  assert (Hl1 : i_nlink (dnode s1 inum) <> 0) by (by rewrite Hd1).
  assert (Er : forall dv m, refcount dv m (icache s1) = refcount dv m (icache s)).
  { intros dv m. rewrite I1, (refcount_insert dv m _ i ip) by done. destruct Hat as (ip0 & Hi0 & (Hr & Hd & Hin)%names_spec).
    assert (ip0 = ip) as -> by congruence. rewrite !share_spec by (done || lia). rewrite R1, Fi, Hin. simpl. lia. }
  unfold name_round. rewrite (bind_ret _ _ _ _ _ E1), (bind_ret _ _ _ _ _ (geti_ret _ _ _ Hi1)), Ft.
  destruct (Z.eqb_spec (i_type d) T_DIR) as [HT|HT]; cbn [negb].
  2:{ destruct (iunlockput_ret s1 i inum ip1 Q1 L1 Hl1) as (s2 & E2 & _ & Q2 & V2 & C2). rewrite (bind_ret _ _ _ _ _ E2).
      exists s2. split_and!; [done|done|by eapply same_view_trans|]. intros dv m. by rewrite C2, Er. }
  destruct (Hdir HT) as (Hsz & Hrd & _).
  destruct (dirlookup_read s1 i ip1 name) as (s2 & S2 & E2); [done|apply Q1|congruence|by rewrite Fs| |].
  { intros b Hb. unfold dir_blocks in *. rewrite Fs in Hb. assert (Hs : fs_same s (FsSt (fb s1) (icache s))) by (split; [apply Q1|done|done]).
    pose proof (readable_same _ _ _ _ Hs (Hrd b Hb)) as Hx. unfold readable in *. by rewrite Fd, Fa. }
  destruct (entry_ext s s1 d ip1 name) as [He Hf]; [intros; apply V1|done|done|done|]. rewrite Hf in E2.
  pose proof (quiet_same _ _ _ Q1 S2) as Q2. pose proof (locked_same _ _ _ _ _ L1 S2) as L2. pose proof (fs_view _ _ S2) as V2.
  assert (Hd2 : dnode s2 inum = d) by (rewrite (dnode_same s1); done). pose proof (fs_icache _ _ S2) as I2.
  unfold entry. destruct (dir_find s d name (seq 0 (dir_blocks d))) as [[bn k]|]; cbn [lookup_result] in E2.
  2:{ destruct (iunlockput_ret s2 i inum ip1 Q2 L2) as (s3 & E3 & _ & Q3 & V3 & C3); [by rewrite Hd2|].
      rewrite (bind_ret _ _ _ _ _ E2), (bind_ret _ _ _ _ _ E3). exists s3.
      split_and!; [done|done|by do 2 (eapply same_view_trans; [done|])|]. intros dv m. by rewrite C3, I2, Er. }
  rewrite He, Fd in E2. set (n := (dir_entry s d bn k).1) in *.
  assert (Hni : nidle (icache s2) = nidle (icache s) /\ nidle_but i (icache s2) = nidle_but i (icache s)).
  { rewrite I2, I1. pose proof (nidle_insert _ _ _ ip1 Hi) as Hc. unfold nidle_but, idle_slot, last_ref in *.
    rewrite list_lookup_insert_eq, Hi, R1 in * by (by eapply lookup_lt_Some). lia. }
  destruct Hni as [Hn2 Hb2]. assert (Hpos : (0 < nidle (icache s2))%nat).
  { rewrite Hn2. unfold nidle_but, last_ref in Hid. rewrite Hi in Hid. repeat zcase; lia. }
  destruct (exchange s2 i inum ip1 n Q2 L2) as (j & s3 & s4 & E3 & E4 & Q4 & V4 & A4 & C4 & N4); [by rewrite Hd2|done|].
  assert (Ed : dirlookup i name s1 = Ret (Some (j, BSIZE * Z.of_nat bn + DIRENT_SIZE * Z.of_nat k)) s3).
  { rewrite E2. change (i_dev d) with ROOTDEV. by rewrite (bind_ret _ _ _ _ _ E3). }
  rewrite (bind_ret _ _ _ _ _ Ed), (bind_ret _ _ _ _ _ E4). exists j, s4.
  split_and!; [done|done|by do 2 (eapply same_view_trans; [done|])|done| |by rewrite N4].
  intros dv m. rewrite C4, I2, Er. lia.
Qed.
End round.

(** ** namei *)

(** The names namei looks up. *)
Definition elems (path : list Z) : list (list Z) := map (take DIRSIZ) (components path).

(** The references a lookup leaves: one to the inode it found. *)
Definition found_ref (r : option Z) (dv m : Z) : Z := match r with Some n => one_ref n dv m | None => 0 end.

Lemma namei_loop_ret fuel : forall path i inum s,
  (length path <= fuel)%nat -> quiet None s -> at_slot s i inum -> (2 <= nidle_but i (icache s))%nat -> walkable s inum (elems path) ->
  exists r s', namei_loop fuel i path false s = Ret r s' /\ quiet None s' /\ same_view (fb s) (fb s') /\
    match resolve s inum (elems path) with Some n => exists j, r = Some (j, []) /\ at_slot s' j n | None => r = None end /\
    (forall dv m, refcount dv m (icache s') = refcount dv m (icache s) - one_ref inum dv m + found_ref (resolve s inum (elems path)) dv m).
Proof.
  induction fuel as [|fuel IH]; intros path i inum s Hf Hq Hat Hid Hw; pose proof (skipelem_split path) as Hs;
    cbn [namei_loop]; (destruct (skipelem path) as [[name rest]|] eqn:Es;
    [destruct Hs as (e & es & Hc & -> & Hr & Hlt & _)|]).
  - lia.
  - unfold elems. rewrite Hs. exists (Some (i, [])), s. split_and!; [done|done|apply same_view_refl|by exists i|]. intros dv m. simpl. lia.
  - assert (Hel : elems path = take DIRSIZ e :: elems rest) by (unfold elems; by rewrite Hc, Hr). rewrite Hel in *.
    pose proof (name_round_ret i inum _ _ (fun j => namei_loop fuel j rest false) s Hq Hat Hid Hw) as Hround.
    cbn [walkable] in Hw. destruct Hw as (_ & _ & _ & Hd). cbn [resolve]. unfold name_round in Hround.
    destruct (i_type (dnode s inum) =? T_DIR) eqn:ET; [apply Z.eqb_eq in ET; destruct (Hd ET) as (_ & _ & Hwr)|].
    + destruct (entry s (dnode s inum) (take DIRSIZ e)) as [n|].
      * destruct Hround as (j & s1 & E1 & Q1 & V1 & A1 & C1 & N1).
        destruct (IH rest j n s1) as (r & s2 & E2 & Q2 & V2 & R2 & C2); [lia|done|done|lia|by eapply walkable_same; [|apply Q1|]|].
        rewrite (resolve_same s s1) in * by done. exists r, s2. split_and!; [|done|by eapply same_view_trans|done|].
        -- etrans; [exact E1|exact E2].
        -- intros dv m. rewrite C2, C1. lia.
      * destruct Hround as (s1 & E1 & Q1 & V1 & C1). exists None, s1. split_and!; [exact E1|done|done|done|]. intros dv m. rewrite C1. simpl. lia.
    + destruct Hround as (s1 & E1 & Q1 & V1 & C1). exists None, s1. split_and!; [exact E1|done|done|done|]. intros dv m. rewrite C1. simpl. lia.
  - unfold elems. rewrite Hs. exists (Some (i, [])), s. split_and!; [done|done|apply same_view_refl|by exists i|]. intros dv m. simpl. lia.
Qed.

Lemma idup_ret s i inum :
  quiet None s -> at_slot s i inum ->
  exists s', idup i s = Ret i s' /\ fb s' = fb s /\ quiet None s' /\ at_slot s' i inum /\
    (forall dv m, refcount dv m (icache s') = refcount dv m (icache s) + one_ref inum dv m) /\ nidle_but i (icache s') = nidle (icache s).
Proof.
  intros Hq (ip & Hi & (Hr & Hd & <-)%names_spec). pose proof (lookup_lt_Some _ _ _ Hi) as Hlt. unfold idup.
  rewrite (bind_ret _ _ _ _ _ (updi_ret _ _ _ _ Hi)). eexists. split; [done|]. simpl. split_and!; [done| | | |].
  - eapply (quiet_touch None None s (fb s) i ip); [exact Hq|apply Hq|apply same_view_refl|done|done|simpl; lia|done|done| | |done].
    + intros _. by apply (q_busy _ _ Hq i ip).
    + intros _ Hv. apply load_set_ref. by apply (q_synced _ _ Hq i).
  - eexists. split; [by apply list_lookup_insert_eq|]. apply names_spec. simpl. split_and!; [lia|done|done].
  - intros dv m. rewrite (refcount_insert dv m _ i ip) by done. rewrite !share_spec by (simpl; done || lia). simpl. lia.
  - unfold nidle_but. rewrite list_lookup_insert_eq by done. pose proof (nidle_insert _ _ _ (set_ref (i_ref ip + 1) ip) Hi) as Hc.
    unfold idle_slot, last_ref in *. simpl in *. repeat zcase; lia.
Qed.

(** Where a path starts: the root directory, inode 1, or the current
    directory. *)
Definition start_inum (cinum : Z) (path : list Z) : Z :=
  match path with c :: _ => if c =? slash then 1 else cinum | [] => cinum end.

Lemma namei_start s cwd cinum path :
  quiet None s -> at_slot s cwd cinum -> (1 <= nidle (icache s))%nat ->
  let start := start_inum cinum path in
  exists i s1, (match path with c :: _ => if c =? slash then iget ROOTDEV 1 else idup cwd | [] => idup cwd end) s = Ret i s1 /\
    fb s1 = fb s /\ quiet None s1 /\ at_slot s1 i start /\
    (forall dv m, refcount dv m (icache s1) = refcount dv m (icache s) + one_ref start dv m) /\ nidle_but i (icache s1) = nidle (icache s).
Proof.
  intros Hq Hat Hid start.
  assert (Hdup : exists i s1, idup cwd s = Ret i s1 /\ fb s1 = fb s /\ quiet None s1 /\ at_slot s1 i cinum /\
    (forall dv m, refcount dv m (icache s1) = refcount dv m (icache s) + one_ref cinum dv m) /\ nidle_but i (icache s1) = nidle (icache s))
    by (exists cwd; by apply idup_ret).
  unfold start, start_inum. destruct path as [|c path]; [done|]. destruct (c =? slash); [|done].
  destruct (iget_quiet None s 1 Hq) as (i & s1 & E1 & F1 & Q1 & A1 & C1 & N1 & _); [lia|done|]. eauto 10.
Qed.

(** C20: namei resolves a path as the directories on disk say: from the root
    or the current directory, element by element, it returns a reference to
    exactly the inode the chain of first matching entries leads to, and
    nothing when an element is missing or not a directory; it locks nothing,
    writes nothing, keeps the inode cache consistent, and on every path gives
    back each reference it took but the one it returns.  (For a cache with
    two slots free and directories that are linked and readable.) *)
Theorem namei_correct (s : fs_st) (cwd : nat) (cinum : Z) (path : list Z) :
  quiet None s -> at_slot s cwd cinum -> (2 <= nidle (icache s))%nat ->
  let start := start_inum cinum path in
  walkable s start (elems path) ->
  exists r s', namei cwd path s = Ret r s' /\ quiet None s' /\ same_view (fb s) (fb s') /\
    match resolve s start (elems path) with Some n => exists i, r = Some i /\ at_slot s' i n | None => r = None end /\
    (forall dv m, refcount dv m (icache s') = refcount dv m (icache s) + found_ref (resolve s start (elems path)) dv m).
Proof.
  intros Hq Hat Hid start Hw. destruct (namei_start s cwd cinum path Hq Hat) as (i & s1 & E1 & F1 & Q1 & A1 & C1 & N1); [lia|]. fold start in A1, C1.
  assert (V1 : same_view (fb s) (fb s1)) by (rewrite F1; apply same_view_refl).
  destruct (namei_loop_ret (length path) path i start s1) as (r & s2 & E2 & Q2 & V2 & R2 & C2); [done|done|done|lia|by eapply walkable_same; [|apply Q1|]|].
  rewrite (resolve_same s s1) in * by done.
  exists (option_map fst r), s2. split_and!; [|done|by eapply same_view_trans| |].
  - unfold namei, namei_. rewrite (bind_ret _ _ s r s2); [done|]. by rewrite (bind_ret _ _ _ _ _ E1).
  - destruct (resolve s start (elems path)); [|by rewrite R2]. destruct R2 as (j & -> & A2). by exists j.
  - intros dv m. rewrite C2, C1. lia.
Qed.

(** The root directory on disk, with the entry [(5, ab)]. *)
Definition demo_path_fs : fs_st :=
  FsSt (boot 4 (dwrite (dwrite (∅ : image) ROOTDEV 300 demo_dir_block) ROOTDEV (IBLOCK 1) (store_dinode demo_dir zero_block)))
    [Inode ROOTDEV 1 1 0 0 0 0 0 0 []; Inode 0 0 0 0 0 0 0 0 0 []; Inode 0 0 0 0 0 0 0 0 0 []].

Lemma demo_path_quiet : quiet None demo_path_fs.
Proof.
  split.
  - apply calm_boot. lia.
  - split; [|intros [|[|[|j]]] ip Hj; simpl in Hj; [injection Hj as <-; simpl; lia..|done]].
    intros [|[|[|j]]] [|[|[|k]]] jp kp dv m Hj Hk Nj Nk; simpl in Hj, Hk; try done; try (injection Hj as <-); try (injection Hk as <-); done.
  - intros [|[|[|j]]] ip Hj Hr; simpl in Hj; [injection Hj as <-; done|injection Hj as <-; simpl in Hr; lia..|done].
  - intros [|[|[|j]]] ip Hj Hr; simpl in Hj; [injection Hj as <-; done|injection Hj as <-; simpl in Hr; lia..|done].
  - intros [|[|[|j]]] ip Hj Hr; simpl in Hj; [injection Hj as <-; done|injection Hj as <-; simpl in Hr; lia..|done].
Qed.

Lemma demo_path_walkable : walkable demo_path_fs 1 (elems [47; 97; 98]).
Proof.
  change (elems [47; 97; 98]) with [[97; 98]]. cbn [walkable].
  assert (Ed : dnode demo_path_fs 1 = set_iflags 0 (set_ref 0 demo_dir)) by (vm_compute; reflexivity).
  rewrite Ed. split; [apply boot_unheld|]. split; [done|]. split; [done|]. intros _. split; [simpl; lia|]. split.
  - intros b Hb. change (dir_blocks _) with 1%nat in Hb. replace b with 0%nat by lia. split; [change MAXFILE with 16396; lia|].
    split; [apply Forall_nil; exact I|]. exists 300. split; [reflexivity|]. split; [apply boot_unheld|]. vm_compute. reflexivity.
  - by destruct (entry _ _ _).
Qed.

Lemma namei_correct_witness :
  exists i s', namei 0 [47; 97; 98] demo_path_fs = Ret (Some i) s' /\ at_slot s' i 5.
Proof.
  destruct (namei_correct demo_path_fs 0 1 [47; 97; 98]) as (r & s' & E & _ & _ & R & _).
  - apply demo_path_quiet.
  - eexists. split; reflexivity.
  - vm_compute. lia.
  - apply demo_path_walkable.
  - replace (resolve demo_path_fs (start_inum 1 [47; 97; 98]) (elems [47; 97; 98])) with (Some 5) in R by (vm_compute; reflexivity).
    destruct R as (i & -> & Hi). exists i, s'. split; [exact E|exact Hi].
Defined.
