(* ===== verification/FsWrite.v ===== *)
(** * fs.c: writing files

    writei over blocks the file already has, inside a transaction: which
    blocks it puts into the transaction, and what the file holds afterwards. *)

From S2P Require Import Prelude CString Layout Ide Bio Cache Journal Recover Crash Txn Fs FsInode FsNames FsRead.

(** ** One block *)

(** Whoever writes a block of the root device reads it, changes it, and calls
    bwrite and brelse. *)
Lemma fs_write_block s N t sec :
  calm (fb s) -> (2 <= nfree (fb s))%nat -> unheld s ROOTDEV sec -> open_txn (fb s) N t -> Z.of_nat (length t) < 2 ^ 31 ->
  exists bp s1, bio (bread ROOTDEV sec) s = Ret bp s1 /\ bdata bp s1 = Ret (view s ROOTDEV sec) s1 /\ icache s1 = icache s /\
    forall d, exists s2, icache s2 = icache s /\ grown (fb s) (fb s2) [(sec, d)] /\
      forall A (k : M fs_st A), (set_bdata bp d ;; bio (bwrite bp) ;; bio (brelse bp) ;; k) s1 = k s2.
Proof.
  intros Hc Hnf Hu Ho Ht. destruct (write_block (fb s) sec Hc Hnf Hu) as (i & b & s1 & E1 & Hb & Hd & Hput).
  { rewrite (open_txn_size _ _ _ Ho). unfold u32_mod. lia. }
  exists i, (set_fb s1 s). split; [by apply bio_ret|]. split.
  { unfold bdata, bio, zoom. unfold bind. simpl. rewrite (getb_ret _ _ _ Hb). simpl. rewrite Hd. by destruct s. }
  split; [done|]. intros d. destruct (Hput d) as (s2 & E2 & G). exists (set_fb s2 s). split; [done|]. split; [done|]. intros A k.
  unfold put_data in E2. apply bind_inv in E2 as (? & sa & Ea & E2). apply bind_inv in E2 as (? & sb & Eb & E2).
  rewrite (bind_ret _ _ _ _ _ (bio_ret (updb i (set_data d)) (set_fb s1 s) _ _ Ea)).
  rewrite (bind_ret _ _ _ _ _ (bio_ret (bwrite i) (set_fb sa s) _ _ Eb)).
  by rewrite (bind_ret _ _ _ _ _ (bio_ret (brelse i) (set_fb sb s) _ _ E2)).
Qed.

(** ** The blocks of a range *)

Definition file_sec (s : fs_st) (ip : inode) (bn : Z) : Z := baddr (walk (view s (i_dev ip)) (i_addrs ip) bn).2.
Definition file_path (s : fs_st) (ip : inode) (bn : Z) : list Z := (walk (view s (i_dev ip)) (i_addrs ip) bn).1.

(** Data sectors are distinct, and none is an indirect block of the file. *)
Definition separate (s : fs_st) (ip : inode) (bns : list Z) : Prop :=
  NoDup (file_sec s ip <$> bns) /\ forall b b', b ∈ bns -> b' ∈ bns -> file_sec s ip b ∉ file_path s ip b'.

(** The blocks that bytes [off .. off+n-1] lie in. *)
Definition range_blocks (off n : Z) : list Z :=
  seqZ (off / BSIZE) (if 0 <? n then (off + n - 1) / BSIZE - off / BSIZE + 1 else 0).

(** Block [bn] of a file with the bytes [src] put at offset [off]. *)
Definition patch (old : block) (bn off : Z) (src : list Z) : block :=
  (fun j : nat => let k := BSIZE * bn + Z.of_nat j in
     if (off <=? k) && (k <? off + Z.of_nat (length src)) then nth (Z.to_nat (k - off)) src 0 else default 0 (old !! j)) <$> seq 0 512.

(** What writei puts into the transaction, latest first. *)
Definition writes (s : fs_st) (ip : inode) (off : Z) (src : list Z) (bns : list Z) : txn :=
  (fun bn => (file_sec s ip bn, patch (file_block s ip bn) bn off src)) <$> bns.

Lemma writes_keys s ip off src bns : (rev (writes s ip off src bns)).*1 = rev (file_sec s ip <$> bns).
Proof. unfold writes. etrans; [apply map_rev|]. f_equal. by rewrite <-list_fmap_compose. Qed.

Lemma range_blocks_step off n :
  0 <= off -> 0 < n -> let m := Z.min n (BSIZE - off mod BSIZE) in
  range_blocks off n = off / BSIZE :: range_blocks (off + m) (n - m).
Proof.
  intros Ho Hn m. unfold range_blocks. destruct (Z.ltb_spec 0 n) as [_|]; [|lia]. unfold BSIZE in *.
  rewrite seqZ_cons by (Z.div_mod_to_equations; lia). f_equal.
  destruct (Z.ltb_spec 0 (n - m)) as [Hr|Hr].
  - assert (m = 512 - off mod 512) by lia.
    assert (E : (off + m) / 512 = Z.succ (off / 512)) by (Z.div_mod_to_equations; lia).
    replace (off + m + (n - m) - 1) with (off + n - 1) by lia. rewrite E. f_equal. lia.
  - assert (E : (off + n - 1) / 512 = off / 512) by (Z.div_mod_to_equations; lia).
    rewrite E. replace (Z.pred (off / 512 - off / 512 + 1)) with 0 by lia. by rewrite !seqZ_nil by lia.
Qed.

Lemma range_blocks_elem off n bn : bn ∈ range_blocks off n -> 0 < n /\ off / BSIZE <= bn <= (off + n - 1) / BSIZE.
Proof. unfold range_blocks. rewrite elem_of_seqZ. destruct (Z.ltb_spec 0 n); lia. Qed.

Lemma lookup_default (l : list Z) j : (j < length l)%nat -> l !! j = Some (default 0 (l !! j)).
Proof. intros H. by destruct (lookup_lt_is_Some_2 l j H) as [x ->]. Qed.

(** The first block of a range, as the loop computes it. *)
Lemma patch_first old off src :
  length old = 512%nat -> 0 <= off -> (0 < length src)%nat ->
  let m := Z.min (Z.of_nat (length src)) (BSIZE - off mod BSIZE) in
  splice (Z.to_nat (off mod BSIZE)) (take (Z.to_nat m) src) old = patch old (off / BSIZE) off src.
Proof.
  intros Hl Ho Hs m. unfold BSIZE in *. pose proof (Z.mod_pos_bound off 512 ltac:(lia)) as Hm.
  pose proof (Z.div_mod off 512 ltac:(lia)) as Hd. unfold splice, patch, BSIZE.
  assert (Hlt : length (take (Z.to_nat m) src) = Z.to_nat m) by (rewrite length_take; lia).
  apply list_eq. intros j. rewrite list_lookup_fmap. destruct (decide (j < 512)%nat) as [Hj|Hj].
  2:{ rewrite lookup_seq_ge by lia. apply lookup_ge_None. rewrite !length_app, Hlt, length_take, length_drop. lia. }
  rewrite lookup_seq_lt by done. cbn [fmap option_fmap option_map]. change (0 + j)%nat with j.
  replace (512 * (off / 512) + Z.of_nat j) with (off + (Z.of_nat j - off mod 512)) by lia.
  destruct (Z.leb_spec off (off + (Z.of_nat j - off mod 512))), (Z.ltb_spec (off + (Z.of_nat j - off mod 512)) (off + Z.of_nat (length src))); cbn [andb].
  - rewrite lookup_app_r by (rewrite length_take; lia). rewrite lookup_app_l by (rewrite Hlt, length_take; lia).
    rewrite length_take, Nat.min_l by lia. rewrite lookup_take_lt by lia.
    replace (Z.to_nat (off + (Z.of_nat j - off mod 512) - off)) with (j - Z.to_nat (off mod 512))%nat by lia.
    rewrite nth_lookup. destruct (lookup_lt_is_Some_2 src (j - Z.to_nat (off mod 512))) as [x ->]; [lia|done].
  - rewrite lookup_app_r by (rewrite length_take; lia). rewrite lookup_app_r by (rewrite Hlt, length_take; lia).
    rewrite Hlt, lookup_drop. rewrite length_take, Nat.min_l by lia.
    replace (Z.to_nat (off mod 512) + Z.to_nat m + (j - Z.to_nat (off mod 512) - Z.to_nat m))%nat with j by lia.
    apply lookup_default. lia.
  - rewrite lookup_app_l by (rewrite length_take; lia). rewrite lookup_take_lt by lia.
    apply lookup_default. lia.
  - lia.
Qed.

Lemma patch_byte old bn off src (j : nat) :
  (j < 512)%nat -> let k := BSIZE * bn + Z.of_nat j in
  default 0 (patch old bn off src !! j) =
    if (off <=? k) && (k <? off + Z.of_nat (length src)) then nth (Z.to_nat (k - off)) src 0 else default 0 (old !! j).
Proof. intros Hj k. unfold patch. unfold block in *. by rewrite list_lookup_fmap, lookup_seq_lt by done. Qed.

Lemma length_patch old bn off src : length (patch old bn off src) = 512%nat.
Proof. unfold patch. apply (length_fmap _ (seq 0 512)). Qed.

(** A later block does not depend on what has been written before it. *)
Lemma patch_rest old bn off src m :
  0 <= m <= Z.of_nat (length src) -> off + m <= BSIZE * bn -> patch old bn (off + m) (drop (Z.to_nat m) src) = patch old bn off src.
Proof.
  intros Hm Hb. unfold patch. apply list_fmap_ext. intros ? j [-> _]%lookup_seq. cbn zeta. rewrite length_drop.
  destruct (Z.leb_spec (off + m) (BSIZE * bn + Z.of_nat (0 + i))), (Z.leb_spec off (BSIZE * bn + Z.of_nat (0 + i))); try lia.
  destruct (Z.ltb_spec (BSIZE * bn + Z.of_nat (0 + i)) (off + m + Z.of_nat (length src - Z.to_nat m))),
    (Z.ltb_spec (BSIZE * bn + Z.of_nat (0 + i)) (off + Z.of_nat (length src))); try lia; cbn [andb]; [|done].
  rewrite !nth_lookup, lookup_drop. do 2 f_equal. lia.
Qed.

(** ** The loop of writei *)

Lemma walk_agree f g addrs bn : (forall x, x ∈ (walk f addrs bn).1 -> f x = g x) -> walk g addrs bn = walk f addrs bn.
Proof.
  unfold walk. intros H. case_match; [done|]. case_match; [|done].
  assert (E : f z = g z) by (apply H; case_match; constructor). rewrite <-E in *. case_match; [|done].
  rewrite <-(H z0); [done|]. apply list_elem_of_further. constructor.
Qed.

(** Writing one block of the file leaves the others, and the way to them. *)
Lemma file_other s s' ip sec d bn :
  i_dev ip = ROOTDEV -> grown (fb s) (fb s') [(sec, d)] -> readable s ip bn -> sec <> file_sec s ip bn -> sec ∉ file_path s ip bn ->
  readable s' ip bn /\ file_sec s' ip bn = file_sec s ip bn /\ file_path s' ip bn = file_path s ip bn /\
  file_block s' ip bn = file_block s ip bn.
Proof.
  intros Hd G (Hb & Hw & a & Ha & Hu & Hl) Hs Hp.
  assert (Hv : forall x, x <> sec -> view s' ROOTDEV x = view s ROOTDEV x).
  { intros x Hx. unfold view. rewrite (gr_view _ _ _ G). unfold tx_view. rewrite tx_map_cons.
    by rewrite lookup_insert_ne by done. }
  assert (Hh : forall x, x <> sec -> unheld s ROOTDEV x -> unheld s' ROOTDEV x).
  { intros x Hx Hux [H|H%list_elem_of_singleton]%(gr_held _ _ _ G); done. }
  unfold file_sec, file_path, readable, file_block in *. rewrite Hd in *.
  assert (Ew : walk (view s' ROOTDEV) (i_addrs ip) bn = walk (view s ROOTDEV) (i_addrs ip) bn).
  { apply walk_agree. intros x Hx. symmetry. apply Hv. by intros ->. }
  rewrite Ew, Ha in *. simpl in Hs. split_and!; try done; try apply Hb.
  - rewrite Forall_forall in Hw |- *. intros x Hx. apply Hh; [by intros ->|by apply Hw].
  - exists a. split; [done|]. split; [by apply Hh|]. by rewrite Hv.
  - by apply Hv.
Qed.

Lemma readable_sec s ip bn : readable s ip bn -> (walk (view s (i_dev ip)) (i_addrs ip) bn).2 = Some (file_sec s ip bn).
Proof. intros (_ & _ & a & Ha & _). unfold file_sec. by rewrite Ha. Qed.

(** One turn of the loop. *)
Lemma writei_turn N i ip s t0 src off :
  let n := Z.of_nat (length src) in
  let bn := off / BSIZE in
  let m := Z.min n (BSIZE - off mod BSIZE) in
  icache s !! i = Some ip -> i_dev ip = ROOTDEV -> calm (fb s) -> open_txn (fb s) N t0 -> 0 <= off -> 0 < n ->
  readable s ip bn -> (2 <= nfree (fb s))%nat -> Z.of_nat (length t0) < 2 ^ 31 ->
  exists s', icache s' = icache s /\
    grown (fb s) (fb s') [(file_sec s ip bn, patch (file_block s ip bn) bn off src)] /\
    forall fuel, writei_loop (S fuel) i src off n s = writei_loop fuel i (drop (Z.to_nat m) src) (off + m) (n - m) s'.
Proof.
  intros n bn m Hi Hdv Hc Ho Hoff Hn Hr Hnf Ht. pose proof (readable_sec _ _ _ Hr) as Ha.
  destruct Hr as (Hbn & Hpath & a & Ha' & Hua & Hla). rewrite Ha in Ha'. injection Ha' as <-.
  destruct (bmap_read s i ip bn true Hi Hc Hbn Hpath) as (s1 & E1 & S1); [right; by rewrite Ha|].
  assert (Hi1 : icache s1 !! i = Some ip) by (by rewrite (fs_icache _ _ S1)). rewrite Ha in E1.
  destruct (fs_write_block s1 N t0 (file_sec s ip bn)) as (bp & s2 & E2 & Ed & _ & Hput).
  { apply (fs_calm _ _ S1). }
  { by rewrite (sv_nfree _ _ (fs_view _ _ S1)). }
  { rewrite <-Hdv. by apply (unheld_same s). }
  { by eapply open_txn_same; [apply (fs_view _ _ S1)|]. }
  { done. }
  set (d := patch (file_block s ip bn) bn off src).
  destruct (Hput d) as (s3 & I3 & G3 & K3). rewrite (fs_icache _ _ S1) in I3. exists s3. split; [done|]. split.
  { apply (txn_grown_trans (fb s) (fb s1) (fb s3) [] [(file_sec s ip bn, d)]); [|done].
    apply grown_same; [apply (fs_calm _ _ S1)|apply (fs_view _ _ S1)]. }
  intros fuel. cbn [writei_loop]. destruct (Z.leb_spec n 0); [lia|].
  rewrite (bind_ret _ _ _ _ _ E1), (bind_ret _ _ _ _ _ (geti_ret _ _ _ Hi1)), Hdv.
  change (baddr (Some ?x)) with x. rewrite (bind_ret _ _ _ _ _ E2), (bind_ret _ _ _ _ _ Ed).
  assert (Hblk : view s1 ROOTDEV (file_sec s ip bn) = file_block s ip bn)
    by (rewrite (view_same s s1) by done; unfold file_block, file_sec; by rewrite Hdv).
  rewrite Hblk. fold m. unfold m, n at 1 2. rewrite (patch_first (file_block s ip bn) off src); [apply K3| |done|lia].
  unfold file_block, file_sec in *. by rewrite Ha in *.
Qed.

(** What is left after a turn. *)
Lemma separate_rest s s' ip b bns d :
  i_dev ip = ROOTDEV -> grown (fb s) (fb s') [(file_sec s ip b, d)] -> Forall (readable s ip) bns -> separate s ip (b :: bns) ->
  Forall (fun bn => readable s' ip bn /\ file_sec s' ip bn = file_sec s ip bn /\
    file_path s' ip bn = file_path s ip bn /\ file_block s' ip bn = file_block s ip bn) bns /\ separate s' ip bns.
Proof.
  intros Hdv G Hr [Hnd Hp]. rewrite fmap_cons in Hnd. apply NoDup_cons in Hnd as [Hnin Hnd].
  assert (Hother : Forall (fun bn => readable s' ip bn /\ file_sec s' ip bn = file_sec s ip bn /\
    file_path s' ip bn = file_path s ip bn /\ file_block s' ip bn = file_block s ip bn) bns).
  { rewrite Forall_forall in Hr |- *. intros bn Hin. apply (file_other s s' ip _ _ bn Hdv G); [by apply Hr| |].
    - intros E. apply Hnin. rewrite E. by apply list_elem_of_fmap_2.
    - apply Hp; [constructor|by constructor]. }
  split; [done|]. rewrite Forall_forall in Hother. split.
  - replace (file_sec s' ip <$> bns) with (file_sec s ip <$> bns); [done|].
    apply list_fmap_ext. intros k bn Hk%list_elem_of_lookup_2. symmetry. by apply Hother.
  - intros x y Hx Hy. destruct (Hother x Hx) as (_ & -> & _). destruct (Hother y Hy) as (_ & _ & -> & _). apply Hp; by constructor.
Qed.

Lemma writei_loop_ret N i ip fuel : forall s t0 src off,
  let n := Z.of_nat (length src) in
  let bns := range_blocks off n in
  icache s !! i = Some ip -> i_dev ip = ROOTDEV -> calm (fb s) -> open_txn (fb s) N t0 -> 0 <= off ->
  n / BSIZE + 2 <= Z.of_nat fuel \/ n <= 0 \/ (0 < Z.of_nat fuel /\ off mod BSIZE = 0 /\ n / BSIZE + 1 <= Z.of_nat fuel) ->
  Forall (readable s ip) bns -> separate s ip bns -> (length bns < nfree (fb s))%nat ->
  Z.of_nat (length bns + length t0) < 2 ^ 31 ->
  exists s', writei_loop fuel i src off n s = Ret (off + n) s' /\ icache s' = icache s /\
    grown (fb s) (fb s') (rev (writes s ip off src bns)).
Proof.
  induction fuel as [|fuel IH]; intros s t0 src off n bns Hi Hdv Hc Ho Hoff Hf Hr Hsep Hnf Ht; destruct (Z.leb_spec n 0) as [Hn|Hn].
  1,3: exists s; assert (n = 0) by lia; unfold bns, range_blocks, ret; cbn [writei_loop]; destruct (Z.ltb_spec 0 n), (Z.leb_spec n 0); try lia;
    rewrite seqZ_nil by lia; split; [unfold ret; f_equal; lia|]; split; [done|by apply grown_refl].
  { exfalso. unfold BSIZE in *. pose proof (Z.div_pos n 512). lia. }
  set (m := Z.min n (BSIZE - off mod BSIZE)).
  assert (Hm : 0 < m <= BSIZE - off mod BSIZE) by (pose proof (Z.mod_pos_bound off BSIZE); unfold m, BSIZE in *; lia).
  set (src' := drop (Z.to_nat m) src). set (bns' := range_blocks (off + m) (n - m)).
  assert (Hbns : bns = off / BSIZE :: bns') by (unfold bns, bns', m; by apply range_blocks_step).
  assert (Hn' : n - m = Z.of_nat (length src')) by (unfold src'; rewrite length_drop; lia).
  rewrite Hbns in *. apply Forall_cons in Hr as [Hr0 Hr]. cbn [length] in Hnf, Ht.
  destruct (writei_turn N i ip s t0 src off Hi Hdv Hc Ho Hoff Hn Hr0) as (s3 & I3 & G & K3); [lia|lia|].
  destruct (separate_rest s s3 ip _ bns' _ Hdv G Hr Hsep) as [Hother Hsep']. rewrite Forall_forall in Hother.
  destruct (IH s3 ([(file_sec s ip (off / BSIZE), patch (file_block s ip (off / BSIZE)) (off / BSIZE) off src)] ++ t0) src' (off + m))
    as (s4 & E4 & I4 & G4); rewrite <-?Hn'; fold bns'.
  - by rewrite I3.
  - done.
  - apply (gr_calm _ _ _ G).
  - by apply (gr_open _ _ _ G).
  - lia.
  - unfold BSIZE in *. destruct (decide (n <= m)) as [?|Hgt]; [lia|]. right. right.
    assert (Em : m = 512 - off mod 512) by lia.
    split; [Z.div_mod_to_equations; lia|]. split; Z.div_mod_to_equations; lia.
  - apply Forall_forall. intros bn Hin. by apply Hother.
  - done.
  - pose proof (gr_free _ _ _ G) as Hfr. cbn [length] in Hfr. lia.
  - simpl. lia.
  - rewrite <-Hn' in E4, G4. fold bns' in G4. exists s4. split; [|split; [congruence|]].
    + rewrite K3. unfold n, m in E4 |- *. fold src'. etrans; [exact E4|]. f_equal. lia.
    + pose proof (txn_grown_trans _ _ _ _ _ G G4) as Gt.
      assert (Ew : writes s3 ip (off + m) src' bns' = writes s ip off src bns'); [|by rewrite Ew in Gt].
      apply list_fmap_ext. intros k bn Hk%list_elem_of_lookup_2. destruct (Hother bn Hk) as (_ & -> & _ & ->). f_equal.
      apply patch_rest; [lia|]. apply range_blocks_elem in Hk as [Hgt Hk].
      assert (Em : m = BSIZE - off mod BSIZE) by lia. unfold BSIZE in *. Z.div_mod_to_equations. lia.
Qed.

(** ** writei *)

Section devices.
Context (devsw_write : Z -> option (nat -> list Z -> M fs_st Z)).

(** The inode after the write, and the blocks the write puts into the
    transaction: the data, and the inode if the file has grown. *)
Definition inode_after (ip : inode) (off : Z) (src : list Z) : inode :=
  if i_size ip <? off + Z.of_nat (length src) then set_size (off + Z.of_nat (length src)) ip else ip.
Definition write_txn (s : fs_st) (ip : inode) (off : Z) (src : list Z) : txn :=
  (if i_size ip <? off + Z.of_nat (length src)
   then [(IBLOCK (i_inum ip), store_dinode (inode_after ip off src) (view s ROOTDEV (IBLOCK (i_inum ip))))] else [])
  ++ rev (writes s ip off src (range_blocks off (Z.of_nat (length src)))).

Lemma iupdate_ret N t0 s i ip :
  icache s !! i = Some ip -> i_dev ip = ROOTDEV -> calm (fb s) -> (2 <= nfree (fb s))%nat -> unheld s ROOTDEV (IBLOCK (i_inum ip)) ->
  open_txn (fb s) N t0 -> Z.of_nat (length t0) < 2 ^ 31 ->
  exists s', iupdate i s = Ret tt s' /\ icache s' = icache s /\
    grown (fb s) (fb s') [(IBLOCK (i_inum ip), store_dinode ip (view s ROOTDEV (IBLOCK (i_inum ip))))].
Proof.
  intros Hi Hd Hc Hnf Hu Ho Ht. destruct (fs_write_block s N t0 _ Hc Hnf Hu Ho Ht) as (bp & s1 & E1 & Ed & I1 & Hput).
  destruct (Hput (store_dinode ip (view s ROOTDEV (IBLOCK (i_inum ip))))) as (s2 & I2 & G & K).
  exists s2. split; [|done]. unfold iupdate. rewrite (bind_ret _ _ _ _ _ (geti_ret _ _ _ Hi)), Hd.
  rewrite (bind_ret _ _ _ _ _ E1), (bind_ret _ _ _ _ _ Ed). pose proof (K unit (ret tt)) as K'.
  unfold bind, ret in K' |- *. destruct (set_bdata bp _ s1); [|done..]. destruct (bio (bwrite bp) s0); [|done..].
  by destruct (bio (brelse bp) s3) as [[] ?| | | |].
Qed.

Lemma writei_ret N t0 s i ip src off :
  let n := Z.of_nat (length src) in
  let bns := range_blocks off n in
  icache s !! i = Some ip -> i_type ip <> T_DEV -> i_dev ip = ROOTDEV -> calm (fb s) -> open_txn (fb s) N t0 ->
  0 <= off -> 0 < n -> off + n <= MAXFILE * BSIZE ->
  Forall (readable s ip) bns -> separate s ip bns ->
  unheld s ROOTDEV (IBLOCK (i_inum ip)) -> IBLOCK (i_inum ip) ∉ (file_sec s ip <$> bns) ->
  (length bns + 1 < nfree (fb s))%nat -> Z.of_nat (length bns + length t0) < 2 ^ 31 ->
  exists s', writei devsw_write i src off s = Ret n s' /\ icache s' = <[i := inode_after ip off src]> (icache s) /\
    grown (fb s) (fb s') (write_txn s ip off src).
Proof.
  intros n bns Hi Ht Hd Hc Ho Hoff Hn Hmax Hr Hsep Hui Hib Hnf Hsm. change (MAXFILE * BSIZE) with 8394752 in Hmax.
  destruct (writei_loop_ret N i ip (Z.to_nat (n / BSIZE + 2)) s t0 src off Hi Hd Hc Ho Hoff) as (s1 & E1 & I1 & G1); fold n; fold bns; [|done|done|lia|done|].
  { left. pose proof (Z.div_pos n BSIZE). unfold BSIZE in *. lia. }
  assert (Hlw : length (rev (writes s ip off src bns)) = length bns) by (by rewrite length_rev; apply length_fmap).
  assert (Hi1 : icache s1 !! i = Some ip) by (by rewrite I1).
  assert (E : writei devsw_write i src off s =
    ((if i_size ip <? off + n then updi i (set_size (off + n)) ;; iupdate i else ret tt) ;; ret n) s1).
  { unfold writei. rewrite (bind_ret _ _ _ _ _ (geti_ret _ _ _ Hi)). destruct (Z.eqb_spec (i_type ip) T_DEV); [done|]. fold n.
    rewrite (u32_small (off + n)) by (unfold u32_mod; lia). destruct (Z.ltb_spec (off + n) off); [lia|].
    change (MAXFILE * BSIZE) with 8394752. destruct (Z.ltb_spec 8394752 (off + n)); [lia|]. fold n in E1.
    rewrite (bind_ret _ _ _ _ _ E1), (bind_ret _ _ _ _ _ (geti_ret _ _ _ Hi1)).
    destruct (Z.ltb_spec 0 n); [|lia]. cbn [andb]. by rewrite s32_small by lia. }
  rewrite E. unfold write_txn, inode_after. fold n. fold bns. destruct (Z.ltb_spec (i_size ip) (off + n)) as [Hgrow|Hfit].
  2:{ exists s1. rewrite list_insert_id by done. done. }
  set (ip' := set_size (off + n) ip). set (s1' := set_icache (<[i := ip']> (icache s1)) s1).
  assert (Hi' : icache s1' !! i = Some ip') by (apply list_lookup_insert_eq; by eapply lookup_lt_Some).
  assert (Hv : view s1 ROOTDEV (IBLOCK (i_inum ip)) = view s ROOTDEV (IBLOCK (i_inum ip))).
  { unfold view. rewrite (gr_view _ _ _ G1). unfold tx_view, tx_map. rewrite not_elem_of_list_to_map_1; [done|].
    by rewrite writes_keys, <-Permutation_rev. }
  destruct (iupdate_ret N (rev (writes s ip off src bns) ++ t0) s1' i ip' Hi' Hd) as (s2 & E2 & I2 & G2).
  { apply (gr_calm _ _ _ G1). }
  { pose proof (gr_free _ _ _ G1) as Hfr. fold n in Hfr. fold bns in Hfr. rewrite Hlw in Hfr. change (fb s1') with (fb s1). lia. }
  { change (unheld s1 ROOTDEV (IBLOCK (i_inum ip))). intros [H|H]%(gr_held _ _ _ G1); [done|].
    apply Hib. by rewrite writes_keys, <-Permutation_rev in H. }
  { by apply (gr_open _ _ _ G1). }
  { rewrite length_app, Hlw. lia. }
  exists s2. rewrite (bind_ret _ _ s1 tt s2); [|by rewrite (bind_ret _ _ _ _ _ (updi_ret i _ _ _ Hi1))].
  split; [done|]. split; [rewrite I2; unfold s1'; simpl; by rewrite I1|].
  pose proof (txn_grown_trans _ _ _ _ _ G1 G2) as Gt. simpl in Gt. unfold view, s1' in Gt. simpl in Gt. fold (view s1 ROOTDEV (IBLOCK (i_inum ip))) in Gt.
  by rewrite Hv in Gt.
Qed.
End devices.
