(* ===== verification/FsCrash.v ===== *)
(** * Writing a file across a crash

    writei, the end of its transaction and the checkpoint, with the machine
    stopping anywhere: the kernel that boots next reads the file as it was or
    as it was to become. *)

From S2P Require Import Prelude CString Layout Ide Bio Cache Journal Recover Crash Reboot Txn Commit Fs FsInode FsRead FsPath FsWrite.

(** ** The contents of a file as a function of the sectors *)

Definition vbyte (v : Z -> block) (addrs : list Z) (k : Z) : Z :=
  default 0 (v (baddr (walk v addrs (k / BSIZE)).2) !! Z.to_nat (k mod BSIZE)).

Lemma file_byte_view s ip k : file_byte s ip k = vbyte (view s (i_dev ip)) (i_addrs ip) k.
Proof. done. Qed.

(** The blocks of [nb] blocks of a file: data and the way to it. *)
Definition file_sectors (s : fs_st) (ip : inode) (nb : Z) : list Z :=
  (file_sec s ip <$> seqZ 0 nb) ++ (seqZ 0 nb ≫= file_path s ip).

Lemma vbyte_ext v v' addrs k :
  v' (baddr (walk v addrs (k / BSIZE)).2) = v (baddr (walk v addrs (k / BSIZE)).2) ->
  (forall x, x ∈ (walk v addrs (k / BSIZE)).1 -> v' x = v x) -> vbyte v' addrs k = vbyte v addrs k.
Proof. intros Hs Hp. unfold vbyte. rewrite (walk_agree v v'), Hs; [done|]. intros x Hx. symmetry. by apply Hp. Qed.

Lemma file_sectors_sec s ip nb bn : 0 <= bn < nb -> file_sec s ip bn ∈ file_sectors s ip nb.
Proof. intros H. unfold file_sectors. apply elem_of_app. left. apply list_elem_of_fmap_2, elem_of_seqZ. lia. Qed.
Lemma file_sectors_path s ip nb bn x : 0 <= bn < nb -> x ∈ file_path s ip bn -> x ∈ file_sectors s ip nb.
Proof.
  intros H Hx. unfold file_sectors. apply elem_of_app. right. apply list_elem_of_bind. exists bn. split; [done|]. apply elem_of_seqZ. lia.
Qed.

Section content.
(** A file of [nb] blocks in which [src] is written at [off]. *)
Context (s : fs_st) (ip : inode) (off : Z) (src : list Z) (nb : Z).
Let n := Z.of_nat (length src).
Let bns := range_blocks off n.
Let ib := IBLOCK (i_inum ip).
Context (Hdev : i_dev ip = ROOTDEV) (Hoff : 0 <= off) (Hn : 0 < n) (Hfit : off + n <= BSIZE * nb).
Context (Hsep : separate s ip (seqZ 0 nb)) (Hib : ib ∉ file_sectors s ip nb).

Lemma range_in bn : bn ∈ bns -> 0 <= bn < nb.
Proof using Hoff Hn Hfit.
  intros (_ & H)%range_blocks_elem. clear - H Hoff Hn Hfit. unfold BSIZE in *. Z.div_mod_to_equations. lia.
Qed.

Lemma sec_inj b b' : 0 <= b < nb -> 0 <= b' < nb -> file_sec s ip b = file_sec s ip b' -> b = b'.
Proof using Hsep.
  intros Hb Hb' E. destruct Hsep as [Hnd _]. rewrite NoDup_alt in Hnd.
  assert (L : forall x, 0 <= x < nb -> (file_sec s ip <$> seqZ 0 nb) !! Z.to_nat x = Some (file_sec s ip x)).
  { clear. intros x Hx. rewrite list_lookup_fmap, lookup_seqZ_lt by lia. simpl. do 2 f_equal. lia. }
  pose proof (L b Hb) as H. rewrite E in H. pose proof (Hnd _ _ _ H (L b' Hb')) as Hz. clear - Hz Hb Hb'. lia.
Qed.

Lemma write_txn_keys x : x ∈ (write_txn s ip off src).*1 -> x = ib \/ exists bn, bn ∈ bns /\ x = file_sec s ip bn.
Proof.
  unfold write_txn. rewrite fmap_app, writes_keys, elem_of_app, <-Permutation_rev. intros [H|H].
  - left. case_match; simpl in H; [by apply list_elem_of_singleton in H|by apply not_elem_of_nil in H].
  - right. apply list_elem_of_fmap in H as (bn & -> & Hbn). by exists bn.
Qed.

Lemma write_txn_nodup : NoDup (write_txn s ip off src).*1.
Proof using Hsep Hib Hoff Hn Hfit.
  unfold write_txn. rewrite fmap_app, writes_keys. fold n. fold bns. apply NoDup_app. split_and!.
  - case_match; [apply NoDup_singleton|constructor].
  - intros x Hx Hx'. rewrite <-Permutation_rev in Hx'. apply list_elem_of_fmap in Hx' as (bn & -> & Hbn%range_in).
    case_match; [|by apply not_elem_of_nil in Hx]. apply list_elem_of_singleton in Hx. apply Hib. unfold ib.
    change (file_sec s ip bn = IBLOCK (i_inum ip)) in Hx. rewrite <-Hx. by apply file_sectors_sec.
  - rewrite <-Permutation_rev. apply NoDup_fmap_2_strong; [|apply NoDup_seqZ].
    intros x y Hx%range_in Hy%range_in. by apply sec_inj.
Qed.

Lemma write_txn_data bn : bn ∈ bns -> tx_map (write_txn s ip off src) !! file_sec s ip bn = Some (patch (file_block s ip bn) bn off src).
Proof using Hsep Hib Hoff Hn Hfit.
  intros Hbn. apply elem_of_list_to_map_1; [apply write_txn_nodup|]. unfold write_txn. fold n. fold bns.
  apply elem_of_app. right. rewrite <-Permutation_rev. unfold writes.
  by apply (list_elem_of_fmap_2 (fun bn => (file_sec s ip bn, patch (file_block s ip bn) bn off src))).
Qed.

Lemma write_txn_path bn x : 0 <= bn < nb -> x ∈ file_path s ip bn -> tx_map (write_txn s ip off src) !! x = None.
Proof using Hsep Hib Hoff Hn Hfit.
  intros Hbn Hx. apply not_elem_of_list_to_map_1. intros [->|(b & Hb%range_in & ->)]%write_txn_keys.
  - apply Hib. by eapply file_sectors_path.
  - destruct Hsep as [_ Hp]. apply (Hp b bn); [apply elem_of_seqZ; lia..|done].
Qed.

Lemma write_txn_other bn : 0 <= bn < nb -> bn ∉ bns -> tx_map (write_txn s ip off src) !! file_sec s ip bn = None.
Proof using Hsep Hib Hoff Hn Hfit.
  intros Hbn Hx. apply not_elem_of_list_to_map_1. intros [E|(b & Hb & E)]%write_txn_keys.
  - apply Hib. rewrite <-E. by apply file_sectors_sec.
  - apply Hx. apply sec_inj in E as ->; [done|done|by apply range_in].
Qed.

(** Every byte of the file once the transaction is in the sectors [v]. *)
Lemma vbyte_written v k :
  (forall x, x ∈ file_sectors s ip nb -> v x = tx_view (write_txn s ip off src) (view s ROOTDEV) x) -> 0 <= k < BSIZE * nb ->
  vbyte v (i_addrs ip) k = if (off <=? k) && (k <? off + n) then nth (Z.to_nat (k - off)) src 0 else file_byte s ip k.
Proof using Hdev Hsep Hib Hoff Hn Hfit.
  intros Hv Hk. assert (Hbn : 0 <= k / BSIZE < nb) by (clear - Hk; unfold BSIZE in *; Z.div_mod_to_equations; lia).
  assert (Ew : walk v (i_addrs ip) (k / BSIZE) = walk (view s (i_dev ip)) (i_addrs ip) (k / BSIZE)).
  { apply walk_agree. intros x Hx. rewrite Hv by (by eapply file_sectors_path). unfold tx_view.
    rewrite (write_txn_path (k / BSIZE)) by done. by rewrite Hdev. }
  unfold vbyte. rewrite Ew. fold (file_sec s ip (k / BSIZE)). rewrite Hv by (by apply file_sectors_sec). unfold tx_view.
  assert (Hj : (Z.to_nat (k mod BSIZE) < 512)%nat) by (pose proof (Z.mod_pos_bound k BSIZE); unfold BSIZE in *; lia).
  destruct (decide (k / BSIZE ∈ bns)) as [Hin|Hout].
  - rewrite write_txn_data by done. etrans; [by apply patch_byte|]. cbv zeta.
    replace (BSIZE * (k / BSIZE) + Z.of_nat (Z.to_nat (k mod BSIZE))) with k
      by (clear; unfold BSIZE; Z.div_mod_to_equations; lia). by fold n.
  - rewrite write_txn_other by done. simpl.
    destruct (Z.leb_spec off k), (Z.ltb_spec k (off + n)); cbn [andb]; try (unfold file_byte, file_block, file_sec; by rewrite Hdev).
    exfalso. apply Hout. unfold bns, range_blocks. apply elem_of_seqZ. destruct (Z.ltb_spec 0 n); [|lia].
    clear - H H0 Hoff. unfold BSIZE in *. Z.div_mod_to_equations. lia.
Qed.
End content.

(** ** The disk after a crash *)

(** A kernel that shows the sectors outside the journal of a disk. *)
Record shows (N : nat) (d : image) (s : fs_st) : Prop := {
  sh_calm : calm (fb s);
  sh_free x : outside_journal N x -> unheld s ROOTDEV x;
  sh_view x : outside_journal N x -> view s ROOTDEV x = dread d ROOTDEV x }.

Lemma view_disk s x :
  calm (fb s) -> unheld s ROOTDEV x -> 0 <= x < 2 ^ 28 -> view s ROOTDEV x = dread (h_image (bdisk (fb s))) ROOTDEV x.
Proof. intros Hc Hu Hx. unfold view. rewrite view_unheld by done. unfold disk_block. by rewrite Z.mod_small. Qed.

(** A file whose [nb] blocks are allocated, unlocked and disjoint, whose inode
    is cached and agrees with the disk. *)
Record file_ready (N : nat) (s : fs_st) (i : nat) (ip : inode) (nb : Z) : Prop := {
  fr_cached : icache s !! i = Some ip;
  fr_calm : calm (fb s);
  fr_type : i_type ip <> T_DEV /\ i_type ip <> 0;
  fr_dev : i_dev ip = ROOTDEV;
  fr_fields : storable ip;
  fr_iblock : is_block (view s ROOTDEV (IBLOCK (i_inum ip)));
  fr_synced : ip = load_dinode (view s ROOTDEV (IBLOCK (i_inum ip))) ip;
  fr_unheld : unheld s ROOTDEV (IBLOCK (i_inum ip));
  fr_blocks : Forall (readable s ip) (seqZ 0 nb);
  fr_separate : separate s ip (seqZ 0 nb);
  fr_inode : IBLOCK (i_inum ip) ∉ file_sectors s ip nb;
  fr_outside : Forall (outside_journal N) (IBLOCK (i_inum ip) :: file_sectors s ip nb);
  fr_size : i_size ip <= BSIZE * nb }.

(** The bytes of the file. *)
Definition contents (s : fs_st) (ip : inode) : list Z := file_bytes s ip 0 (Z.to_nat (i_size ip)).

Lemma length_file_contents s ip : length (contents s ip) = Z.to_nat (i_size ip).
Proof. unfold contents, file_bytes. by rewrite length_map, length_seq. Qed.

Lemma contents_lookup s ip k : 0 <= k < i_size ip -> contents s ip !! Z.to_nat k = Some (file_byte s ip k).
Proof. intros Hk. unfold contents. rewrite file_bytes_lookup, decide_True by lia. do 2 f_equal. lia. Qed.

Lemma ready_max N s i ip nb : file_ready N s i ip nb -> nb <= MAXFILE.
Proof.
  intros Hf. destruct (decide (nb <= MAXFILE)) as [|Hbig]; [done|]. exfalso. pose proof (fr_blocks _ _ _ _ _ Hf) as Hr.
  change MAXFILE with 16396 in *. rewrite Forall_forall in Hr. destruct (Hr 16396) as [Hb _]; [apply elem_of_seqZ; lia|].
  change MAXFILE with 16396 in *. lia.
Qed.

Section crash.
Context (N : nat) (s : fs_st) (i : nat) (ip : inode) (nb off : Z) (src : list Z).
Let n := Z.of_nat (length src).
Let t := write_txn s ip off src.
Context (Hf : file_ready N s i ip nb) (Hoff : 0 <= off <= i_size ip) (Hn : 0 < n) (Hfit : off + n <= BSIZE * nb).

(** The file before and after the write. *)
Definition outcome (new : bool) : list Z := if new then splice (Z.to_nat off) src (contents s ip) else contents s ip.

Lemma length_outcome new : Z.of_nat (length (outcome new)) = if new then Z.max (i_size ip) (off + n) else i_size ip.
Proof using Hoff Hn.
  unfold outcome. destruct new; [|rewrite length_file_contents; lia]. unfold splice.
  rewrite !length_app, length_take, length_drop, length_file_contents. fold n. unfold n. lia.
Qed.

(** The sectors of the file and its inode after the crash. *)
Context (new : bool) (s2 : fs_st).
Hypothesis after : calm (fb s2) /\ forall x, outside_journal N x -> unheld s2 ROOTDEV x /\
  (x ∈ IBLOCK (i_inum ip) :: file_sectors s ip nb ->
   view s2 ROOTDEV x = if new then tx_view t (view s ROOTDEV) x else view s ROOTDEV x).

Lemma after_view x : x ∈ IBLOCK (i_inum ip) :: file_sectors s ip nb ->
  unheld s2 ROOTDEV x /\ view s2 ROOTDEV x = if new then tx_view t (view s ROOTDEV) x else view s ROOTDEV x.
Proof using Hf after.
  intros Hx. pose proof (fr_outside _ _ _ _ _ Hf) as Ho. rewrite Forall_forall in Ho. destruct after as [_ H].
  destruct (H x (Ho x Hx)) as [Hu Hv]. auto.
Qed.

Lemma after_byte k : 0 <= k < Z.of_nat (length (outcome new)) ->
  outcome new !! Z.to_nat k = Some (vbyte (view s2 ROOTDEV) (i_addrs ip) k).
Proof using Hf Hoff Hn Hfit after.
  intros Hk. pose proof after_view as Hav. clear after. pose proof (length_outcome new) as Hl. pose proof (fr_size _ _ _ _ _ Hf) as Hsz.
  assert (Hkb : 0 <= k < BSIZE * nb) by (destruct new; lia).
  assert (Hbn : 0 <= k / BSIZE < nb) by (clear - Hkb; unfold BSIZE in *; Z.div_mod_to_equations; lia).
  unfold outcome in *. destruct new.
  - rewrite (vbyte_written s ip off src nb); try apply Hf; try done; try lia.
    2:{ intros x Hx. apply Hav. by constructor. }
    fold n. unfold splice. destruct (Z.leb_spec off k), (Z.ltb_spec k (off + n)); cbn [andb].
    + rewrite lookup_app_r by (rewrite length_take; lia). rewrite length_take, length_file_contents, Nat.min_l by lia.
      rewrite lookup_app_l by lia. replace (Z.to_nat (k - off)) with (Z.to_nat k - Z.to_nat off)%nat by lia.
      rewrite nth_lookup. apply lookup_default. lia.
    + rewrite lookup_app_r by (rewrite length_take; lia). rewrite length_take, length_file_contents, Nat.min_l by lia.
      rewrite lookup_app_r by lia. rewrite lookup_drop. etrans; [|apply contents_lookup; lia]. f_equal. lia.
    + rewrite lookup_app_l by (rewrite length_take, length_file_contents; lia). rewrite lookup_take_lt by lia. apply contents_lookup. lia.
    + lia.
  - rewrite contents_lookup by lia. f_equal. rewrite file_byte_view, (fr_dev _ _ _ _ _ Hf). symmetry. apply vbyte_ext.
    + pose proof (file_sectors_sec s ip nb (k / BSIZE) Hbn) as Hx. unfold file_sec in Hx. rewrite (fr_dev _ _ _ _ _ Hf) in Hx.
      apply Hav. by constructor.
    + intros x Hx. apply Hav. constructor. apply (file_sectors_path s ip nb (k / BSIZE)); [done|].
      unfold file_path. by rewrite (fr_dev _ _ _ _ _ Hf).
Qed.

(** The inode the next kernel loads. *)
Lemma after_inode i2 ip2 :
  loaded s2 i2 (i_inum ip) ip2 ->
  i_dev ip2 = ROOTDEV /\ i_type ip2 = i_type ip /\ i_addrs ip2 = i_addrs ip /\ i_size ip2 = Z.of_nat (length (outcome new)).
Proof using Hf Hoff Hn Hfit after.
  intros (_ & Hd & Hi & El). destruct (after_view (IBLOCK (i_inum ip))) as [_ Hv]; [constructor|]. clear after.
  rewrite length_outcome. pose proof (fr_fields _ _ _ _ _ Hf) as Hst. pose proof (ready_max _ _ _ _ _ Hf) as Hmx.
  change MAXFILE with 16396 in Hmx.
  assert (Hold : forall d, d = view s ROOTDEV (IBLOCK (i_inum ip)) -> view s2 ROOTDEV (IBLOCK (i_inum ip)) = d ->
    i_type ip2 = i_type ip /\ i_addrs ip2 = i_addrs ip /\ i_size ip2 = i_size ip).
  { intros d Ed E2. rewrite E2 in El. pose proof (fr_synced _ _ _ _ _ Hf) as Es. rewrite <-Ed in Es. unfold load_dinode in El, Es.
    rewrite Hi in El. rewrite El, Es. done. }
  split; [done|]. destruct new; [|destruct (Hold _ eq_refl Hv) as (-> & -> & ->); done].
  unfold tx_view in Hv. destruct (Z.ltb_spec (i_size ip) (off + n)) as [Hg|Hg].
  - assert (Eib : tx_map t !! IBLOCK (i_inum ip) = Some (store_dinode (inode_after ip off src) (view s ROOTDEV (IBLOCK (i_inum ip))))).
    { apply elem_of_list_to_map_1; [apply (write_txn_nodup s ip off src nb); try apply Hf; try done; lia|]. unfold t, write_txn. fold n.
      destruct (Z.ltb_spec (i_size ip) (off + n)); [|lia]. apply elem_of_app. left. constructor. }
    rewrite Eib in Hv. simpl in Hv. rewrite Hv in El. unfold inode_after in *. fold n in El. destruct (Z.ltb_spec (i_size ip) (off + n)); [|lia].
    destruct (dinode_roundtrip (set_size (off + n) ip) ip2 (view s ROOTDEV (IBLOCK (i_inum ip)))) as [Hrt _].
    + apply Hf.
    + destruct Hst as (H1 & H2 & H3 & H4). split_and!; try done; simpl; unfold u32_mod, BSIZE in *; lia.
    + specialize (Hrt Hi). cbn zeta in Hrt. rewrite <-El in Hrt. destruct Hrt as (-> & _ & _ & _ & -> & ->). simpl.
      split_and!; [done|done|lia].
  - assert (Eib : tx_map t !! IBLOCK (i_inum ip) = None).
    { apply not_elem_of_list_to_map_1. unfold t, write_txn. fold n. destruct (Z.ltb_spec (i_size ip) (off + n)); [lia|]. simpl.
      rewrite writes_keys, <-Permutation_rev. intros (bn & E & Hbn)%list_elem_of_fmap. apply (fr_inode _ _ _ _ _ Hf). rewrite E.
      apply file_sectors_sec. apply (range_in off src nb) in Hbn; [done|lia|done|done]. }
    rewrite Eib in Hv. destruct (Hold _ eq_refl Hv) as (-> & -> & ->). split_and!; [done|done|lia].
Qed.

Lemma after_readable ip2 bn : i_dev ip2 = ROOTDEV -> i_addrs ip2 = i_addrs ip -> 0 <= bn < nb -> readable s2 ip2 bn.
Proof using Hf Hoff Hn Hfit after.
  intros Hd Ha Hbn. pose proof (fr_blocks _ _ _ _ _ Hf) as Hr. rewrite Forall_forall in Hr.
  pose proof (Hr bn ltac:(apply elem_of_seqZ; lia)) as Hrb. pose proof (readable_sec _ _ _ Hrb) as Hsec. destruct Hrb as (Hb & Hp & a & Ea & _ & Hl).
  rewrite Hsec in Ea. injection Ea as <-.
  pose proof (fr_dev _ _ _ _ _ Hf) as Hdv. pose proof after_view as Hav. clear after.
  assert (Ew : walk (view s2 ROOTDEV) (i_addrs ip) bn = walk (view s (i_dev ip)) (i_addrs ip) bn).
  { apply walk_agree. intros x Hx. destruct (Hav x) as [_ ->]; [constructor; by apply (file_sectors_path s ip nb bn)|].
    rewrite Hdv. destruct new; [|done]. unfold tx_view, t. rewrite (write_txn_path s ip off src nb ltac:(lia) Hn Hfit) with (bn := bn); try apply Hf; done. }
  unfold readable. rewrite Hd, Ha, Ew. split; [done|]. split.
  - apply Forall_forall. intros x Hx. apply Hav. constructor. by apply (file_sectors_path s ip nb bn).
  - exists (file_sec s ip bn). destruct (Hav (file_sec s ip bn)) as [Hu ->]; [constructor; by apply file_sectors_sec|].
    split; [done|]. split; [done|]. rewrite Hdv in Hl. destruct new; [|done]. unfold tx_view.
    destruct (decide (bn ∈ range_blocks off n)) as [Hin|Hout].
    + unfold t. rewrite (write_txn_data s ip off src nb); try apply Hf; try apply length_patch; try done; lia.
    + unfold t. rewrite (write_txn_other s ip off src nb); try apply Hf; try done; lia.
Qed.

(** What the next kernel reads. *)
Lemma after_readi devsw i2 ip2 o m :
  loaded s2 i2 (i_inum ip) ip2 -> let len := Z.of_nat (length (outcome new)) in
  0 <= o <= len -> 0 <= m -> o + m < u32_mod ->
  exists s3, readi devsw i2 o m s2 = Ret (Z.min m (len - o), slice (Z.to_nat o) (Z.to_nat (Z.min m (len - o))) (outcome new)) s3.
Proof using Hf Hoff Hn Hfit after.
  intros Hl len Ho Hm Hw. destruct (after_inode i2 ip2 Hl) as (Hd & Ht & Ha & Hsz). destruct Hl as (Hi & _).
  pose proof (ready_max _ _ _ _ _ Hf) as Hmx. change MAXFILE with 16396 in Hmx. pose proof (fr_size _ _ _ _ _ Hf) as Hfs.
  assert (Hlen : len <= BSIZE * nb) by (unfold len; rewrite length_outcome; destruct new; lia). unfold BSIZE in Hlen.
  destruct (readi_file devsw s2 i2 ip2 o m) as (s3 & E & _); rewrite ?Hsz; fold len; try done.
  - apply after.
  - rewrite Ht. apply Hf.
  - unfold u32_mod. lia.
  - intros bn Hbn. apply after_readable; [done|done|]. unfold BSIZE in Hbn. clear - Hbn Hlen Ho Hm. Z.div_mod_to_equations. lia.
  - exists s3. rewrite E, Hsz. fold len. rewrite s32_small by lia. do 2 f_equal. apply list_eq. intros j.
    rewrite file_bytes_lookup. unfold slice. case_decide as Hj.
    + rewrite lookup_take_lt, lookup_drop by lia. pose proof (after_byte (o + Z.of_nat j) ltac:(fold len; lia)) as Eb.
      replace (Z.to_nat (o + Z.of_nat j)) with (Z.to_nat o + j)%nat in Eb by lia. rewrite Eb, file_byte_view. by rewrite Hd, Ha.
    + by rewrite lookup_take_ge by lia.
Qed.
End crash.

(** ** The next kernel *)

(** What a kernel with the blocks of [b] and an unused inode cache delivers
    for the file [inum]: the bytes [data]. *)
Definition file_on (b : bst) (inum : Z) (data : list Z) : Prop :=
  forall devsw ic o m, (0 < length ic)%nat -> Forall (fun ip => i_ref ip = 0) ic ->
  let len := Z.of_nat (length data) in
  0 <= o <= len -> 0 <= m -> o + m < u32_mod ->
  exists s', (let! i := iget ROOTDEV inum in ilock i ;; readi devsw i o m) (FsSt b ic)
    = Ret (Z.min m (len - o), slice (Z.to_nat o) (Z.to_nat (Z.min m (len - o))) data) s'.

Lemma fresh_quiet b ic : calm b -> Forall (fun ip => i_ref ip = 0) ic -> quiet None (FsSt b ic).
Proof.
  intros Hc Hr. rewrite Forall_lookup in Hr. split; simpl; [done| |intros i ip Hi; rewrite (Hr i ip Hi); lia..].
  split; [|intros i ip Hi; rewrite (Hr i ip Hi); lia]. intros i j ip jp dv m Hi _ (H0 & _)%names_spec. rewrite (Hr i ip Hi) in H0. lia.
Qed.

Lemma fresh_idle ic : (0 < length ic)%nat -> Forall (fun ip => i_ref ip = 0) ic -> (0 < nidle ic)%nat.
Proof. intros Hl Hr. destruct Hr as [|ip ic H0 _]; [done|]. unfold nidle. simpl. unfold idle_slot. rewrite H0. simpl. lia. Qed.

Lemma locked_loaded s i inum ip : locked s i inum ip -> loaded s i inum ip.
Proof.
  intros [Hi _ _ _ Hn]. split; [done|]. rewrite Hn. unfold dnode. split_and!; done.
Qed.

Lemma booted_shows N nbuf b ic : booted N nbuf b -> 1 <= Z.of_nat N -> shows N (h_image (bdisk b)) (FsSt b ic).
Proof.
  intros Hb HN. assert (Hu : forall x, outside_journal N x -> unheld (FsSt b ic) ROOTDEV x).
  { intros x [_ Ho] Hh. apply (bt_held _ _ _ Hb) in Hh. lia. }
  split; [apply Hb|done|]. intros x Hx. apply (view_disk (FsSt b ic)); [apply Hb|by apply Hu|apply Hx].
Qed.

Lemma shows_same N d s s' : shows N d s -> calm (fb s') -> same_view (fb s) (fb s') -> shows N d s'.
Proof.
  intros [Hc Hf Hv] Hc' Hs. split; [done| |].
  - intros x Hx Hh%(sv_held _ _ Hs). by apply (Hf x Hx).
  - intros x Hx. unfold view. rewrite (sv_view _ _ Hs). by apply Hv.
Qed.

Section survive.
Context (N nbuf : nat) (s : fs_st) (i : nat) (ip : inode) (nb off : Z) (src : list Z).
Let n := Z.of_nat (length src).
Let t := write_txn s ip off src.
Context (Hf : file_ready N s i ip nb) (Hoff : 0 <= off <= i_size ip) (Hn : 0 < n) (Hfit : off + n <= BSIZE * nb).
Context (HN : 1 <= Z.of_nat N < 2 ^ 26) (Ht126 : (length t <= 126)%nat) (HtN : (length t + 1 <= N)%nat).

Lemma write_good : good_txn N t.
Proof using Hf Hoff Hn Hfit Ht126 HtN.
  split_and!; [|done|done| |].
  - unfold t, write_txn. rewrite length_app, length_rev. unfold writes. rewrite length_fmap. unfold range_blocks, n in *.
    destruct (Z.ltb_spec 0 (Z.of_nat (length src))); [|lia]. rewrite length_seqZ.
    assert (off / BSIZE <= (off + Z.of_nat (length src) - 1) / BSIZE) by (apply Z.div_le_mono; unfold BSIZE; lia). lia.
  - apply (write_txn_nodup s ip off src nb); try apply Hf; try done; lia.
  - pose proof (fr_outside _ _ _ _ _ Hf) as Ho. rewrite Forall_forall in Ho. apply Forall_forall. intros sd Hsd.
    apply Ho. destruct (write_txn_keys s ip off src sd.1) as [->|(bn & Hbn & ->)]; [by apply list_elem_of_fmap_2|constructor|].
    constructor. apply file_sectors_sec. by apply (range_in off src nb) in Hbn; [|lia..|done].
Qed.

(** Before the write the cache shows the file as it is on disk. *)
Lemma ready_on_disk x :
  x ∈ IBLOCK (i_inum ip) :: file_sectors s ip nb -> view s ROOTDEV x = dread (h_image (bdisk (fb s))) ROOTDEV x.
Proof using Hf.
  intros Hx. pose proof (fr_outside _ _ _ _ _ Hf) as Ho. rewrite Forall_forall in Ho. apply view_disk; [apply Hf| |apply (Ho x Hx)].
  pose proof (fr_blocks _ _ _ _ _ Hf) as Hr. rewrite Forall_forall in Hr. pose proof (fr_dev _ _ _ _ _ Hf) as Hd.
  apply elem_of_cons in Hx as [->|Hx]; [apply Hf|]. unfold file_sectors in Hx. apply elem_of_app in Hx as [Hx|Hx].
  - apply list_elem_of_fmap in Hx as (bn & -> & Hbn). pose proof (readable_sec _ _ _ (Hr bn Hbn)) as Hs. destruct (Hr bn Hbn) as (_ & _ & a & Ea & Hu & _).
    rewrite Hs in Ea. injection Ea as <-. by rewrite <-Hd.
  - apply list_elem_of_bind in Hx as (bn & Hx & Hbn). destruct (Hr bn Hbn) as (_ & Hp & _). rewrite Forall_forall in Hp. rewrite <-Hd. by apply Hp.
Qed.

(** Whatever repaired disk the next kernel shows, it shows the file before
    or after the write. *)
Lemma repaired_after new d' s2 :
  repaired (h_image (bdisk (fb s))) N t new d' -> shows N d' s2 ->
  calm (fb s2) /\ forall x, outside_journal N x -> unheld s2 ROOTDEV x /\
    (x ∈ IBLOCK (i_inum ip) :: file_sectors s ip nb ->
     view s2 ROOTDEV x = if new then tx_view t (view s ROOTDEV) x else view s ROOTDEV x).
Proof using Hf Hoff Hn Hfit Ht126 HtN.
  intros Hrep Hs. split; [apply Hs|]. intros x Ho. split; [by apply (sh_free _ _ _ Hs)|]. intros Hx.
  rewrite (sh_view _ _ _ Hs x Ho), (repaired_view _ _ _ _ _ x Hrep Ho) by apply write_good.
  destruct new; unfold tx_view; by rewrite ready_on_disk.
Qed.

Lemma after_file new b :
  booted N nbuf b -> repaired (h_image (bdisk (fb s))) N t new (h_image (bdisk b)) -> file_on b (i_inum ip) (outcome s ip off src new).
Proof using Hf Hoff Hn Hfit HN Ht126 HtN.
  intros Hb Hrep devsw ic o m Hl Hr len Ho Hm Hw. pose proof (bt_calm _ _ _ Hb) as Hc.
  pose proof (booted_shows N nbuf b ic Hb ltac:(lia)) as Hs0. pose proof (fr_outside _ _ _ _ _ Hf) as Hou. apply Forall_cons in Hou as [Hib _].
  destruct (iget_quiet None (FsSt b ic) (i_inum ip) (fresh_quiet b ic Hc Hr) (fresh_idle ic Hl Hr)) as (i2 & s1 & E1 & F1 & Q1 & A1 & _); [done|].
  assert (Hs1 : shows N (h_image (bdisk b)) s1) by (eapply shows_same; [exact Hs0|rewrite F1; done|rewrite F1; apply same_view_refl]).
  assert (Hty : forall s2 ip2, shows N (h_image (bdisk b)) s2 -> loaded s2 i2 (i_inum ip) ip2 -> i_type ip2 = i_type ip).
  { intros s2 ip2 Hs2 Hl2. by destruct (after_inode N s i ip nb off src Hf Hoff Hn Hfit new s2 (repaired_after new _ s2 Hrep Hs2) i2 ip2 Hl2) as (_ & ? & _). }
  set (d1 := dnode s1 (i_inum ip)). assert (Hd1 : i_type d1 <> 0).
  { rewrite (Hty (FsSt (fb s1) (<[i2 := d1]> (icache s1))) d1); [apply Hf|eapply shows_same; [exact Hs1|apply Hs1|apply same_view_refl]|].
    destruct A1 as (jp & Hj & _). split_and!; [apply list_lookup_insert_eq; by eapply lookup_lt_Some|done|done|done]. }
  destruct (ilock_ret s1 i2 (i_inum ip) Q1 A1) as (s2 & jp & ip2 & E2 & _ & _ & _ & Q2 & V2 & L2); [by apply (sh_free _ _ _ Hs1)|done|].
  assert (Hs2 : shows N (h_image (bdisk b)) s2) by (by eapply shows_same; [exact Hs1|apply Q2|]).
  destruct (after_readi N s i ip nb off src Hf Hoff Hn Hfit new s2 (repaired_after new _ s2 Hrep Hs2) devsw i2 ip2 o m (locked_loaded _ _ _ _ L2) Ho Hm Hw) as (s3 & E3).
  exists s3. rewrite (bind_ret _ _ _ _ _ E1), (bind_ret _ _ _ _ _ E2). exact E3.
Qed.
End survive.
