(* ===== verification/FsAlloc.v ===== *)
(** * fs.c: the free-block bitmap

    balloc and bfree in the middle of a transaction, which both of them
    commit: the first free block is taken, a block is given back, and nothing
    else changes. *)

From S2P Require Import Prelude CString Layout Ide Bio Cache Journal Recover Crash Reboot Txn Commit Fs FsInode FsRead FsPath FsWrite FsCrash.

(** ** Bits of a bitmap block *)

Lemma bit_used_testbit d b : bit_used d b = Z.testbit (bit_byte d b) (b mod 8).
Proof. unfold bit_used, bit_mask. rewrite Z.shiftl_1_l. apply has_bit. apply Z.mod_pos_bound. lia. Qed.

Lemma lor_byte a j : is_byte a -> 0 <= j < 8 -> is_byte (Z.lor a (Z.shiftl 1 j)).
Proof.
  unfold is_byte. intros Ha Hj. assert (Z.lor a (Z.shiftl 1 j) = Z.lor a (Z.shiftl 1 j) mod 2 ^ 8) as ->; [|apply Z.mod_pos_bound; lia].
  symmetry. apply Z.bits_inj'. intros k Hk. destruct (Z.lt_ge_cases k 8); [by apply Z.mod_pow2_bits_low|].
  rewrite Z.mod_pow2_bits_high, Z.lor_spec, Z.shiftl_spec, (Z.bits_above_log2 1) by (simpl; lia). rewrite orb_false_r.
  symmetry. rewrite <-(Z.mod_small a (2 ^ 8)) by lia. apply Z.mod_pow2_bits_high. lia.
Qed.

Lemma bit_byte_insert (d : block) k v b :
  (k < length d)%nat -> bit_byte (<[k := v]> d) b = if decide (k = Z.to_nat (b / 8)) then v else bit_byte d b.
Proof.
  intros H. unfold bit_byte, block in *. case_decide as E; [subst; by rewrite list_lookup_insert_eq|by rewrite list_lookup_insert_ne].
Qed.

Lemma bit_set_spec d b b' :
  is_block d -> 0 <= b < 4096 -> 0 <= b' < 4096 ->
  is_block (bit_set d b) /\ bit_used (bit_set d b) b' = (b' =? b) || bit_used d b'.
Proof.
  intros [Hl Hb] H1 H2. pose proof (Z.mod_pos_bound b 8). pose proof (Z.mod_pos_bound b' 8).
  assert (Hlt : (Z.to_nat (b / 8) < 512)%nat) by (Z.div_mod_to_equations; lia).
  assert (Hby : is_byte (bit_byte d b)).
  { unfold bit_byte. destruct (d !! Z.to_nat (b / 8)) eqn:E; simpl; [by eapply Forall_lookup_1|]. unfold is_byte. lia. }
  split.
  - split; [etrans; [apply length_insert|done]|]. apply Forall_insert; [done|]. apply lor_byte; [done|lia].
  - rewrite !bit_used_testbit. unfold bit_set. rewrite bit_byte_insert by lia. case_decide as E.
    + rewrite Z.lor_spec, orb_comm. unfold bit_byte. rewrite E. f_equal. unfold bit_mask. rewrite Z.shiftl_spec by lia.
      destruct (Z.eqb_spec b' b) as [->|]; [by rewrite Z.sub_diag|].
      assert (b' mod 8 <> b mod 8) by (Z.div_mod_to_equations; lia). destruct (Z.lt_ge_cases (b' mod 8) (b mod 8)).
      * apply Z.testbit_neg_r. lia.
      * apply Z.bits_above_log2; simpl; lia.
    + destruct (Z.eqb_spec b' b) as [->|]; done.
Qed.

Lemma land_byte a m : is_byte a -> is_byte (Z.land a m).
Proof.
  unfold is_byte. intros Ha. assert (Z.land a m = Z.land a m mod 2 ^ 8) as ->; [|apply Z.mod_pos_bound; lia].
  symmetry. apply Z.bits_inj'. intros k Hk. destruct (Z.lt_ge_cases k 8); [by apply Z.mod_pow2_bits_low|].
  rewrite Z.mod_pow2_bits_high, Z.land_spec by lia. rewrite <-(Z.mod_small a (2 ^ 8)) by lia. by rewrite Z.mod_pow2_bits_high by lia.
Qed.

Lemma mask_testbit b b' : 0 <= b -> 0 <= b' -> Z.testbit (bit_mask b) (b' mod 8) = (b' mod 8 =? b mod 8).
Proof.
  intros Hb Hb'. pose proof (Z.mod_pos_bound b 8). pose proof (Z.mod_pos_bound b' 8). unfold bit_mask.
  rewrite Z.shiftl_1_l, Z.pow2_bits_eqb by lia. apply Z.eqb_sym.
Qed.

Lemma bit_clear_spec d b b' :
  is_block d -> 0 <= b < 4096 -> 0 <= b' < 4096 ->
  is_block (bit_clear d b) /\ bit_used (bit_clear d b) b' = negb (b' =? b) && bit_used d b'.
Proof.
  intros [Hl Hb] H1 H2. pose proof (Z.mod_pos_bound b' 8).
  assert (Hlt : (Z.to_nat (b / 8) < 512)%nat) by (Z.div_mod_to_equations; lia).
  assert (Hby : is_byte (bit_byte d b)).
  { unfold bit_byte. destruct (d !! Z.to_nat (b / 8)) eqn:E; simpl; [by eapply Forall_lookup_1|]. unfold is_byte. lia. }
  split.
  - split; [etrans; [apply length_insert|done]|]. apply Forall_insert; [done|]. by apply land_byte.
  - rewrite !bit_used_testbit. unfold bit_clear. rewrite bit_byte_insert by lia. case_decide as E.
    + rewrite Z.land_spec, Z.lnot_spec, mask_testbit, andb_comm by lia. unfold bit_byte. rewrite E. f_equal. f_equal.
      assert (b / 8 = b' / 8) by (Z.div_mod_to_equations; lia). apply Bool.eq_iff_eq_true. rewrite !Z.eqb_eq. Z.div_mod_to_equations. lia.
    + destruct (Z.eqb_spec b' b) as [->|]; done.
Qed.

(** ** Writing a block and committing *)

Lemma open_held s N t x : open_txn s N t -> x ∈ t.*1 -> held s ROOTDEV x.
Proof.
  intros (lr & j & h & ms & tl & l & bs & d & w & fj & jd & fh & hd & -> & Hh & _) ([x' b] & -> & [k Hk]%list_elem_of_lookup_1)%list_elem_of_fmap.
  destruct (Forall2_lookup_r _ _ _ _ _ Hh Hk) as (i & _ & fa & Hb & _). exists i, (Buf 7 ROOTDEV x' fa b).
  split; [done|]. split; [by apply caches_spec|by left].
Qed.

Lemma open_nodup s N t : calm s -> open_txn s N t -> NoDup t.*1.
Proof.
  intros Hc (lr & j & h & ms & tl & l & bs & d & w & fj & jd & fh & hd & -> & Hh & Hnd & _). apply NoDup_alt. intros k k' x Hk Hk'.
  rewrite list_lookup_fmap in Hk, Hk'. apply fmap_Some in Hk as (sd & Hk & ->). apply fmap_Some in Hk' as (sd' & Hk' & E).
  destruct (Forall2_lookup_r _ _ _ _ _ Hh Hk) as (i & Hi & fa & Hb & _). destruct (Forall2_lookup_r _ _ _ _ _ Hh Hk') as (i' & Hi' & fa' & Hb' & _).
  assert (i = i') as <- by (by apply (inv_unique _ (calm_wf _ Hc) i i' _ _ Hb Hb')). by eapply NoDup_lookup.
Qed.

(** The blocks [t] have been written and, with the blocks [t0] of the
    transaction that was open, committed; the next transaction is empty.  A
    crash on the way leaves the blocks before or after. *)
Record flushes (N : nat) (t0 t : txn) (s s' : fs_st) : Prop := {
  fl_calm : calm (fb s');
  fl_open : open_txn (fb s') N [];
  fl_view x : outside_journal N x -> view s' ROOTDEV x = tx_view t (view s ROOTDEV) x;
  fl_held x : outside_journal N x -> held (fb s') ROOTDEV x -> held (fb s) ROOTDEV x /\ (x ∉ t.*1) /\ (x ∉ t0.*1);
  fl_free : nfree (fb s') = (nfree (fb s) + length t0)%nat;
  fl_header : is_block (dread (h_image (bdisk (fb s'))) ROOTDEV 3);
  fl_crash Q : 1 <= Z.of_nat N < 2 ^ 26 -> is_block (dread (h_image (bdisk (fb s))) ROOTDEV 3) -> respects N Q ->
    Q (dread (h_image (bdisk (fb s))) ROOTDEV) -> Q (dread (h_image (bdisk (fb s'))) ROOTDEV) ->
    survives N Q (bdisk (fb s)) (bdisk (fb s')) }.

(** What the open transaction must leave room for: [n] more blocks. *)
Definition room (N n : nat) (t0 : txn) : Prop :=
  (length t0 + n <= 126)%nat /\ (length t0 + n + 1 <= N)%nat /\ Forall (fun sd => outside_journal N sd.1) t0.

Lemma fs_commit s N t :
  calm (fb s) -> open_txn (fb s) N t -> good_txn N t ->
  exists s', icache s' = icache s /\ commits N t (fb s) (fb s') /\
    (bio end_trans ;; bio jfull_flush) s = Ret tt s' /\
    (forall A (k : M fs_st A), (bio end_trans ;; bio jfull_flush ;; k) s = k s').
Proof.
  intros Hc Ho Hg. destruct (commit_ret (fb s) N t Ho Hg Hc) as (sm & E1 & E2). destruct (E2 (wakes sm)) as (b & E3 & Hcm).
  assert (Ew : set_wakes (wakes sm) sm = sm) by (by destruct sm). rewrite Ew in E3.
  assert (E4 : bio jfull_flush (set_fb sm s) = Ret tt (set_fb b s)) by (unfold bio, zoom; simpl; by rewrite E3).
  exists (set_fb b s). split; [done|]. split; [done|]. split.
  - by rewrite (bind_ret _ _ _ _ _ (bio_ret _ s _ _ E1)).
  - intros A k. by rewrite (bind_ret _ _ _ _ _ (bio_ret _ s _ _ E1)), (bind_ret _ _ _ _ _ E4).
Qed.

(** A transaction grown by [t] and committed. *)
Lemma grown_flushes N t0 t s s1 s2 :
  grown (fb s) (fb s1) t -> commits N (t ++ t0) (fb s1) (fb s2) -> flushes N t0 t s s2.
Proof.
  intros G C. split.
  - apply C.
  - apply C.
  - intros x Hx. unfold view. rewrite (cm_view _ _ _ _ C x Hx). apply (gr_view _ _ _ G).
  - intros x Hx Hh. destruct (cm_held _ _ _ _ C x Hx Hh) as [H1 H2]. rewrite fmap_app, not_elem_of_app in H2.
    destruct (gr_held _ _ _ G x H1); tauto.
  - rewrite (cm_free _ _ _ _ C), length_app. pose proof (gr_free _ _ _ G). lia.
  - apply C.
  - intros Q. rewrite <-(gr_disk _ _ _ G). by apply (survives_commit N (t ++ t0)).
Qed.

Lemma put_commit s N t0 sec :
  calm (fb s) -> (2 <= nfree (fb s))%nat -> unheld s ROOTDEV sec -> open_txn (fb s) N t0 -> room N 1 t0 -> outside_journal N sec ->
  exists bp s1, bio (bread ROOTDEV sec) s = Ret bp s1 /\ bdata bp s1 = Ret (view s ROOTDEV sec) s1 /\ icache s1 = icache s /\
    forall d, exists s2, icache s2 = icache s /\ flushes N t0 [(sec, d)] s s2 /\
      (forall A (k : M fs_st A), (set_bdata bp d ;; bio (bwrite bp) ;; bio (brelse bp) ;; bio end_trans ;; bio jfull_flush ;; k) s1 = k s2) /\
      (set_bdata bp d ;; bio (bwrite bp) ;; bio (brelse bp) ;; bio end_trans ;; bio jfull_flush) s1 = Ret tt s2.
Proof.
  intros Hc Hnf Hu Ho (H126 & HN & Hout) Hs. destruct (fs_write_block s N t0 sec Hc Hnf Hu Ho) as (bp & s1 & E1 & Ed & Hic & Hput); [lia|].
  exists bp, s1. do 3 (split; [done|]). intros d. destruct (Hput d) as (s2 & I2 & G & K).
  destruct (fs_commit s2 N ((sec, d) :: t0)) as (s3 & I3 & C & E3 & K3); [apply G|by apply G| |].
  { split_and!; [simpl; lia|simpl; lia|simpl; lia| |by constructor]. apply NoDup_cons. split; [|by eapply open_nodup].
    intros Hx. apply Hu. by eapply open_held. }
  exists s3. split_and!; [congruence|by apply (grown_flushes N t0 [(sec, d)] s s2)| |].
  - intros A k. by rewrite K, K3.
  - by rewrite K.
Qed.

(** ** The bitmap *)

Definition fs_sb (s : fs_st) : superblock := decode_sb (view s ROOTDEV 1).

(** The bit of block [b], and the bits balloc looks at: those of the bitmap
    blocks that the disk's size reaches. *)
Definition bitmap (s : fs_st) (b : Z) : Z := BBLOCK b (sb_ninodes (fs_sb s)).
Definition block_used (s : fs_st) (b : Z) : bool := bit_used (view s ROOTDEV (bitmap s b)) (b mod BPB).
Definition bits (s : fs_st) : Z := BPB * ((sb_size (fs_sb s) + BPB - 1) / BPB).
Definition first_unused (s : fs_st) (b : Z) : Prop :=
  0 <= b < bits s /\ block_used s b = false /\ forall b', 0 <= b' < b -> block_used s b' = true.

(** The superblock and the bitmap can be read, and a bitmap block written
    in the open transaction [t0]. *)
Record alloc_ready (N : nat) (t0 : txn) (s : fs_st) : Prop := {
  al_calm : calm (fb s);
  al_free : (2 <= nfree (fb s))%nat;
  al_open : open_txn (fb s) N t0;
  al_room : room N 1 t0;
  al_sb : unheld s ROOTDEV 1;
  al_bitmap b : 0 <= b < bits s -> unheld s ROOTDEV (bitmap s b) /\ outside_journal N (bitmap s b) /\
    bitmap s b <> 1 /\ is_block (view s ROOTDEV (bitmap s b)) }.

Lemma alloc_ready_same N t0 s s' : fs_same s s' -> alloc_ready N t0 s -> alloc_ready N t0 s'.
Proof.
  intros Hs [H1 H2 H3 H4 H5 H6]. assert (Esb : fs_sb s' = fs_sb s) by (unfold fs_sb; by rewrite (view_same s s')).
  split; [apply Hs|by rewrite (sv_nfree _ _ (fs_view _ _ Hs))|by eapply open_txn_same; [apply Hs|]|done|by eapply unheld_same|].
  intros b Hb. unfold bits, bitmap in *. rewrite Esb in *. destruct (H6 b Hb) as (A1 & A2 & A3 & A4).
  split_and!; [by eapply unheld_same|done|done|by rewrite (view_same s s')].
Qed.

Lemma first_free_spec n d : forall b0,
  match first_free n d b0 with
  | Some bi => b0 <= bi < b0 + Z.of_nat n /\ bit_used d bi = false /\ forall k, b0 <= k < bi -> bit_used d k = true
  | None => forall k, b0 <= k < b0 + Z.of_nat n -> bit_used d k = true
  end.
Proof.
  induction n as [|n IH]; intros b0; cbn [first_free]; [intros; lia|]. destruct (bit_used d b0) eqn:E.
  - specialize (IH (b0 + 1)). destruct (first_free n d (b0 + 1)) as [bi|].
    + destruct IH as (H1 & H2 & H3). split_and!; [lia|lia|done|]. intros k Hk. destruct (decide (k = b0)) as [->|]; [done|]. apply H3. lia.
    + intros k Hk. destruct (decide (k = b0)) as [->|]; [done|]. apply IH. lia.
  - split_and!; [lia|lia|done|]. intros; lia.
Qed.

Lemma readsb_ret s : calm (fb s) -> unheld s ROOTDEV 1 -> exists s', readsb ROOTDEV s = Ret (fs_sb s) s' /\ fs_same s s'.
Proof.
  intros Hc Hu. destruct (read_block s ROOTDEV 1 Hc Hu) as (bp & s1 & s2 & E1 & Ed & E2 & Hs & _).
  exists s2. split; [|done]. unfold readsb. by rewrite (bind_ret _ _ _ _ _ E1), (bind_ret _ _ _ _ _ Ed), (bind_ret _ _ _ _ _ E2).
Qed.

(** Bits of one bitmap block. *)
Lemma bitmap_row s j k : 0 <= k < BPB -> bitmap s (BPB * j + k) = bitmap s (BPB * j) /\ (BPB * j + k) mod BPB = k.
Proof.
  intros Hk. unfold bitmap, BBLOCK. change BPB with 4096 in *. split; [|Z.div_mod_to_equations; lia].
  replace ((4096 * j + k) / 4096) with j by (Z.div_mod_to_equations; lia). by replace (4096 * j / 4096) with j by (Z.div_mod_to_equations; lia).
Qed.

Lemma row_used s j k : 0 <= k < BPB -> block_used s (BPB * j + k) = bit_used (view s ROOTDEV (bitmap s (BPB * j))) k.
Proof. intros Hk. unfold block_used. by destruct (bitmap_row s j k Hk) as [-> ->]. Qed.

(** *** The blocks of a file system whose bitmap has bit [b] changed *)

Lemma bitmap_eq s b b' : bitmap s b' = bitmap s b <-> b' / BPB = b / BPB.
Proof. unfold bitmap, BBLOCK. lia. Qed.

(** One bit of the bitmap written. *)
Lemma bit_written N t0 s s' b d' :
  alloc_ready N t0 s -> 0 <= b < bits s -> flushes N t0 [(bitmap s b, d')] s s' ->
  fs_sb s' = fs_sb s /\ forall b', 0 <= b' < bits s ->
    block_used s' b' = if b' / BPB =? b / BPB then bit_used d' (b' mod BPB) else block_used s b'.
Proof.
  intros Ha Hb F. assert (O1 : 0 < Z.of_nat N -> outside_journal N 1) by (intros; split; lia).
  destruct (al_room _ _ _ Ha) as (_ & HN & _). destruct (al_bitmap _ _ _ Ha b Hb) as (_ & Ob & Nb & _).
  assert (Esb : fs_sb s' = fs_sb s).
  { unfold fs_sb. rewrite (fl_view _ _ _ _ _ F 1) by (apply O1; lia). unfold tx_view. rewrite tx_map_cons, lookup_insert_ne by done. done. }
  split; [done|]. intros b' Hb'. destruct (al_bitmap _ _ _ Ha b' Hb') as (_ & Ob' & _).
  unfold block_used, bitmap. rewrite Esb. fold (bitmap s b'). rewrite (fl_view _ _ _ _ _ F) by done. unfold tx_view. rewrite tx_map_cons.
  destruct (Z.eqb_spec (b' / BPB) (b / BPB)) as [E|E].
  - rewrite (proj2 (bitmap_eq s b b') E), lookup_insert_eq. done.
  - rewrite lookup_insert_ne by (intros E'; by apply E, (bitmap_eq s)). done.
Qed.

Lemma flushes_same N t0 t s s1 s2 : fs_same s s1 -> flushes N t0 t s1 s2 -> flushes N t0 t s s2.
Proof.
  intros Hs [F1 F2 F3 F4 F5 F6 F7]. split; [done|done| | |by rewrite F5, (sv_nfree _ _ (fs_view _ _ Hs))|done|by rewrite (sv_disk _ _ (fs_view _ _ Hs)) in F7].
  - intros x Hx. rewrite F3 by done. apply tx_view_ext. by apply view_same.
  - intros x Hx Hh. destruct (F4 x Hx Hh) as [H Hr]. split; [by apply (sv_held _ _ (fs_view _ _ Hs))|done].
Qed.

Lemma fs_sb_same s s' : fs_same s s' -> fs_sb s' = fs_sb s.
Proof. intros H. unfold fs_sb. by rewrite (view_same s s'). Qed.
Lemma block_used_same s s' b : fs_same s s' -> block_used s' b = block_used s b.
Proof. intros H. unfold block_used, bitmap. by rewrite (fs_sb_same s s'), (view_same s s'). Qed.
Lemma first_unused_same s s' b : fs_same s s' -> first_unused s b -> first_unused s' b.
Proof.
  intros H (H1 & H2 & H3). unfold first_unused, bits. rewrite (fs_sb_same s s'), (block_used_same s s') by done.
  split_and!; [apply H1..|done|]. intros b' Hb. rewrite (block_used_same s s') by done. auto.
Qed.

(** The effect of balloc when [b] is the block it finds. *)
Definition allocates (N : nat) (t0 : txn) (b : Z) (s s' : fs_st) : Prop :=
  flushes N t0 [(bitmap s b, bit_set (view s ROOTDEV (bitmap s b)) (b mod BPB))] s s' /\ icache s' = icache s.

Lemma bits_row s j : BPB * j < sb_size (fs_sb s) <-> BPB * j < bits s.
Proof. unfold bits. change BPB with 4096. generalize (sb_size (fs_sb s)). intros n. Z.div_mod_to_equations. lia. Qed.

Lemma balloc_loop_found N t0 fuel : forall s b j,
  alloc_ready N t0 s -> first_unused s b -> 0 <= j -> BPB * j <= b -> bits s <= BPB * (j + Z.of_nat fuel) ->
  exists s', allocates N t0 b s s' /\
    balloc_loop fuel ROOTDEV (fs_sb s) (BPB * j) s = if b =? 1 then Panic "b+bi is 1" s' else Ret b s'.
Proof.
  induction fuel as [|fuel IH]; intros s b j Ha Hf Hj Hb Hn; pose proof Hf as (Hr & Hun & Hus); [change BPB with 4096 in *; lia|].
  cbn [balloc_loop]. destruct (Z.ltb_spec (BPB * j) (sb_size (fs_sb s))) as [Hlt|Hge]; [|pose proof (bits_row s j); lia].
  assert (Hrow : 0 <= BPB * j < bits s) by (pose proof (bits_row s j); change BPB with 4096 in *; lia).
  destruct (al_bitmap _ _ _ Ha _ Hrow) as (Hu & Ho & _ & _). fold (bitmap s (BPB * j)). set (d := view s ROOTDEV (bitmap s (BPB * j))).
  pose proof (first_free_spec (Z.to_nat BPB) d 0) as Hff. rewrite Z2Nat.id in Hff by (change BPB with 4096; lia).
  destruct (first_free (Z.to_nat BPB) d 0) as [bi|] eqn:Eff.
  - destruct Hff as (H1 & H2 & H3). assert (Eb : b = BPB * j + bi).
    { destruct (Z.lt_trichotomy b (BPB * j + bi)) as [H|[H|H]]; [|done|].
      - specialize (H3 (b - BPB * j) ltac:(lia)). unfold d in H3. rewrite <-row_used in H3 by lia.
        replace (BPB * j + (b - BPB * j)) with b in H3 by lia. congruence.
      - specialize (Hus (BPB * j + bi) ltac:(change BPB with 4096 in *; lia)). rewrite row_used in Hus by lia. fold d in Hus. congruence. }
    destruct (bitmap_row s j bi ltac:(lia)) as [Er Em]. rewrite <-Eb in Er, Em. unfold allocates. rewrite Er, Em. fold d.
    destruct (put_commit s N t0 (bitmap s (BPB * j))) as (bp & s1 & E1 & Ed & _ & Hput); try apply Ha; try done.
    destruct (Hput (bit_set d bi)) as (s2 & I2 & F & K & _). exists s2. split; [by split|].
    rewrite (bind_ret _ _ _ _ _ E1), (bind_ret _ _ _ _ _ Ed). fold d. rewrite Eff, K, <-Eb. by destruct (b =? 1).
  - destruct (read_block s ROOTDEV (bitmap s (BPB * j)) (al_calm _ _ _ Ha) Hu) as (bp & s1 & s2 & E1 & Ed & E2 & Hs & _).
    assert (Hbig : BPB * (j + 1) <= b).
    { destruct (Z.le_gt_cases (BPB * (j + 1)) b) as [|H]; [done|]. specialize (Hff (b - BPB * j) ltac:(change BPB with 4096 in *; lia)).
      unfold d in Hff. rewrite <-row_used in Hff by (change BPB with 4096 in *; lia). replace (BPB * j + (b - BPB * j)) with b in Hff by lia. congruence. }
    assert (Eb2 : bits s2 = bits s) by (unfold bits; by rewrite (fs_sb_same s s2)).
    destruct (IH s2 b (j + 1)) as (s' & [F I] & E); [by eapply alloc_ready_same|by eapply first_unused_same|lia|done|rewrite Eb2; change BPB with 4096 in *; lia|].
    exists s'. split.
    + unfold allocates, bitmap in *. rewrite (fs_sb_same s s2), (view_same s s2) in F by done. split; [by eapply flushes_same|]. by rewrite I, (fs_icache _ _ Hs).
    + rewrite (bind_ret _ _ _ _ _ E1), (bind_ret _ _ _ _ _ Ed). fold d. rewrite Eff, (bind_ret _ _ _ _ _ E2).
      rewrite (fs_sb_same s s2) in E by done. replace (BPB * j + BPB) with (BPB * (j + 1)) by lia. exact E.
Qed.

Lemma balloc_loop_full N t0 fuel : forall s j,
  alloc_ready N t0 s -> (forall b, 0 <= b < bits s -> block_used s b = true) -> 0 <= j -> bits s <= BPB * (j + Z.of_nat fuel) ->
  exists s', fs_same s s' /\ balloc_loop fuel ROOTDEV (fs_sb s) (BPB * j) s = Panic "balloc: out of blocks" s'.
Proof.
  induction fuel as [|fuel IH]; intros s j Ha Hall Hj Hn; cbn [balloc_loop];
    destruct (Z.ltb_spec (BPB * j) (sb_size (fs_sb s))) as [Hlt|Hge]; try (exists s; split; [apply fs_same_refl, Ha|done]).
  { pose proof (bits_row s j). change BPB with 4096 in *. lia. }
  assert (Hrow : 0 <= BPB * j < bits s) by (pose proof (bits_row s j); change BPB with 4096 in *; lia).
  destruct (al_bitmap _ _ _ Ha _ Hrow) as (Hu & _). fold (bitmap s (BPB * j)).
  destruct (read_block s ROOTDEV (bitmap s (BPB * j)) (al_calm _ _ _ Ha) Hu) as (bp & s1 & s2 & E1 & Ed & E2 & Hs & _).
  rewrite (bind_ret _ _ _ _ _ E1), (bind_ret _ _ _ _ _ Ed).
  pose proof (first_free_spec (Z.to_nat BPB) (view s ROOTDEV (bitmap s (BPB * j))) 0) as Hff. rewrite Z2Nat.id in Hff by (change BPB with 4096; lia).
  destruct (first_free _ _ 0) as [bi|].
  { exfalso. destruct Hff as (H1 & H2 & _). rewrite <-row_used in H2 by lia. rewrite Hall in H2; [done|].
    revert H1 Hrow. unfold bits. change BPB with 4096. generalize ((sb_size (fs_sb s) + 4096 - 1) / 4096). intros z ? ?. lia. }
  rewrite (bind_ret _ _ _ _ _ E2). assert (Eb2 : bits s2 = bits s) by (unfold bits; by rewrite (fs_sb_same s s2)).
  destruct (IH s2 (j + 1)) as (s' & S' & E); [by eapply alloc_ready_same| |lia|rewrite Eb2; change BPB with 4096 in *; lia|].
  { intros b Hb. rewrite (block_used_same s s2) by done. apply Hall. by rewrite <-Eb2. }
  exists s'. split; [by eapply fs_same_trans|]. rewrite (fs_sb_same s s2) in E by done. replace (BPB * j + BPB) with (BPB * (j + 1)) by lia. exact E.
Qed.

(** ** balloc *)

Lemma balloc_fuel s : bits s <= BPB * (0 + Z.of_nat (S (Z.to_nat (sb_size (fs_sb s) / BPB)))).
Proof. unfold bits. change BPB with 4096. generalize (sb_size (fs_sb s)). intros n. Z.div_mod_to_equations. lia. Qed.

Lemma balloc_found N t0 s b :
  alloc_ready N t0 s -> first_unused s b ->
  exists s', allocates N t0 b s s' /\ balloc ROOTDEV s = if b =? 1 then Panic "b+bi is 1" s' else Ret b s'.
Proof.
  intros Ha Hf. destruct (readsb_ret s (al_calm _ _ _ Ha) (al_sb _ _ _ Ha)) as (s1 & E1 & S1).
  destruct (balloc_loop_found N t0 (S (Z.to_nat (sb_size (fs_sb s1) / BPB))) s1 b 0) as (s' & [F I] & E);
    [by eapply alloc_ready_same|by eapply first_unused_same|lia|destruct Hf; lia|apply balloc_fuel|].
  exists s'. split.
  - unfold allocates, bitmap in *. rewrite (fs_sb_same s s1), (view_same s s1) in F by done. split; [by eapply flushes_same|]. by rewrite I, (fs_icache _ _ S1).
  - unfold balloc. rewrite (bind_ret _ _ _ _ _ E1), <-(fs_sb_same s s1) by done. exact E.
Qed.

(** A sector outside the journal that nobody holds is on the disk as it is
    seen. *)
Lemma flushes_durable N t0 t s s' x :
  flushes N t0 t s s' -> outside_journal N x -> unheld s ROOTDEV x \/ x ∈ t.*1 \/ x ∈ t0.*1 ->
  unheld s' ROOTDEV x /\ dread (h_image (bdisk (fb s'))) ROOTDEV x = tx_view t (view s ROOTDEV) x.
Proof.
  intros F Hx Hu. assert (H : unheld s' ROOTDEV x).
  { intros Hh. destruct (fl_held _ _ _ _ _ F x Hx Hh) as (H1 & H2 & H3). destruct Hu as [H|[H|H]]; [by apply H|done|done]. }
  split; [done|]. rewrite <-(fl_view _ _ _ _ _ F x Hx). symmetry. apply view_disk; [apply F|done|apply Hx].
Qed.

Lemma allocates_used N t0 s s' b b' :
  alloc_ready N t0 s -> 0 <= b < bits s -> allocates N t0 b s s' -> 0 <= b' < bits s -> block_used s' b' = (b' =? b) || block_used s b'.
Proof.
  intros Ha Hb [F _] Hb'. destruct (bit_written _ _ _ _ _ _ Ha Hb F) as [_ H]. rewrite H by done.
  destruct (al_bitmap _ _ _ Ha b Hb) as (_ & _ & _ & Bb). change BPB with 4096 in *.
  pose proof (Z.mod_pos_bound b 4096 ltac:(lia)). pose proof (Z.mod_pos_bound b' 4096 ltac:(lia)).
  destruct (Z.eqb_spec (b' / 4096) (b / 4096)) as [E|E].
  - rewrite (proj2 (bit_set_spec _ (b mod 4096) (b' mod 4096) Bb H0 H1)). unfold block_used. change BPB with 4096.
    rewrite (proj2 (bitmap_eq s b b') E). f_equal. apply Bool.eq_iff_eq_true. rewrite !Z.eqb_eq. Z.div_mod_to_equations. lia.
  - destruct (Z.eqb_spec b' b) as [->|]; done.
Qed.

(** C17: balloc allocates the first free block.  With the superblock and the
    bitmap readable and room in the open transaction [t0], it returns the
    lowest block number whose bit is clear, having set this bit and no other
    and changed no other block outside the journal; on return the bitmap
    block and the blocks of [t0] are unlocked, on the disk, and the next
    transaction is empty.  With every bit set it panics. *)
Theorem balloc_correct (N : nat) (t0 : txn) (s : fs_st) :
  alloc_ready N t0 s ->
  (forall b, first_unused s b -> b <> 1 -> exists s', balloc ROOTDEV s = Ret b s' /\ icache s' = icache s /\
     (forall b', 0 <= b' < bits s -> block_used s' b' = (b' =? b) || block_used s b') /\
     (forall x, outside_journal N x -> x <> bitmap s b -> view s' ROOTDEV x = view s ROOTDEV x) /\
     (forall x, outside_journal N x -> x = bitmap s b \/ x ∈ t0.*1 ->
        unheld s' ROOTDEV x /\ dread (h_image (bdisk (fb s'))) ROOTDEV x = view s' ROOTDEV x) /\
     calm (fb s') /\ open_txn (fb s') N []) /\
  ((forall b, 0 <= b < bits s -> block_used s b = true) -> exists s', balloc ROOTDEV s = Panic "balloc: out of blocks" s').
Proof.
  intros Ha. split.
  - intros b Hf Hb1. destruct (balloc_found N t0 s b Ha Hf) as (s' & Al & E). destruct (Z.eqb_spec b 1) as [|_]; [done|].
    pose proof Al as [F I]. exists s'. split_and!; [done|done| | | |apply F|apply F].
    + intros b' Hb'. apply (allocates_used N t0 s s'); try done. apply Hf.
    + intros x Hx Hne. rewrite (fl_view _ _ _ _ _ F x Hx). unfold tx_view. by rewrite tx_map_cons, lookup_insert_ne.
    + intros x Hx Hin. rewrite (fl_view _ _ _ _ _ F x Hx). apply (flushes_durable N t0 _ s); [done|done|].
      destruct Hin as [->|]; [right; left; constructor|by right; right].
  - intros Hall. destruct (readsb_ret s (al_calm _ _ _ Ha) (al_sb _ _ _ Ha)) as (s1 & E1 & S1).
    destruct (balloc_loop_full N t0 (S (Z.to_nat (sb_size (fs_sb s1) / BPB))) s1 0) as (s' & _ & E);
      [by eapply alloc_ready_same| |lia|apply balloc_fuel|].
    { intros b Hb. rewrite (block_used_same s s1) by done. apply Hall. unfold bits in *. by rewrite (fs_sb_same s s1) in Hb. }
    exists s'. unfold balloc. rewrite (bind_ret _ _ _ _ _ E1), <-(fs_sb_same s s1) by done. exact E.
Qed.

(** ** bfree *)

Lemma bfree_ret N t0 s b :
  alloc_ready N t0 s -> room N 2 t0 -> (3 <= nfree (fb s))%nat -> 0 <= b < bits s -> outside_journal N b -> unheld s ROOTDEV b ->
  b <> 1 -> b <> bitmap s b ->
  exists s', icache s' = icache s /\
    if block_used s b
    then bfree ROOTDEV b s = Ret tt s' /\
         flushes N t0 [(bitmap s b, bit_clear (view s ROOTDEV (bitmap s b)) (b mod BPB)); (b, zero_block)] s s'
    else bfree ROOTDEV b s = Panic "freeing free block" s'.
Proof.
  intros Ha (R1 & R2 & R3) Hnf Hb Ob Hu H1 Hbm. destruct (al_bitmap _ _ _ Ha b Hb) as (Um & Om & M1 & _).
  destruct (fs_write_block s N t0 b) as (bp & s1 & E1 & _ & _ & Hput); try apply Ha; [done|lia|].
  destruct (Hput zero_block) as (s2 & I2 & G & K). pose proof (gr_free _ _ _ G) as Hf2. simpl in Hf2.
  assert (Hv2 : forall x, x <> b -> view s2 ROOTDEV x = view s ROOTDEV x).
  { intros x Hx. unfold view. rewrite (gr_view _ _ _ G). unfold tx_view. by rewrite tx_map_cons, lookup_insert_ne. }
  assert (Hu2 : forall x, x <> b -> unheld s ROOTDEV x -> unheld s2 ROOTDEV x).
  { intros x Hx Hux [H|H%list_elem_of_singleton]%(gr_held _ _ _ G); done. }
  assert (Esb : fs_sb s2 = fs_sb s) by (unfold fs_sb; by rewrite Hv2).
  destruct (readsb_ret s2 (gr_calm _ _ _ G)) as (s3 & E3 & S3); [apply Hu2; [done|apply Ha]|].
  set (t1 := ((b, zero_block) :: t0) : txn). set (bm := bitmap s b) in *.
  destruct (put_commit s3 N t1 bm) as (bp2 & s4 & E4 & Ed & I4 & Hput2).
  { apply S3. } { rewrite (sv_nfree _ _ (fs_view _ _ S3)). lia. } { eapply unheld_same; [done|]. by apply Hu2. }
  { eapply open_txn_same; [apply S3|]. apply (gr_open _ _ _ G), Ha. } { split_and!; [simpl; lia..|by constructor]. } { done. }
  assert (Ev : view s3 ROOTDEV bm = view s ROOTDEV bm) by (by rewrite (view_same s2), Hv2). rewrite Ev in Ed.
  unfold bfree, bzero. fold bm. unfold block_used. fold bm.
  assert (Estart : forall A (k : M fs_st A), ((let! bp := bio (bread ROOTDEV b) in set_bdata bp zero_block ;; bio (bwrite bp) ;; bio (brelse bp)) ;; k) s = k s2).
  { intros A k. rewrite bind_assoc, (bind_ret _ _ _ _ _ E1), bind_assoc. etrans; [|apply (K A k)]. unfold bind. destruct (set_bdata bp zero_block s1); try done.
    destruct (bio (bwrite bp) s0); done. }
  destruct (bit_used (view s ROOTDEV bm) (b mod BPB)) eqn:Eu.
  - destruct (Hput2 (bit_clear (view s ROOTDEV bm) (b mod BPB))) as (s5 & I5 & F & K5 & E5). exists s5.
    split; [by rewrite I5, (fs_icache _ _ S3)|]. split.
    + rewrite Estart, (bind_ret _ _ _ _ _ E3), Esb. fold (bitmap s b). fold bm. rewrite (bind_ret _ _ _ _ _ E4), (bind_ret _ _ _ _ _ Ed), Eu. exact E5.
    + apply flushes_same with (s := s2) in F; [|done]. destruct F as [F1 F2 F3 F4 F5 F6 F7]. split; [done|done| | |rewrite F5; simpl; lia|done|by rewrite (gr_disk _ _ _ G) in F7].
      * intros x Hx. rewrite F3 by done. change [(bm, ?c); (b, zero_block)] with ([(bm, c)] ++ [(b, zero_block)]). rewrite tx_view_app.
        apply tx_view_ext. apply (gr_view _ _ _ G).
      * intros x Hx Hh. destruct (F4 x Hx Hh) as (A1 & A2 & A3). unfold t1 in A3. simpl in A2, A3 |- *.
        apply not_elem_of_cons in A2 as [A2 _]. apply not_elem_of_cons in A3 as [A3 A4].
        destruct (gr_held _ _ _ G x A1) as [A5|A5%list_elem_of_singleton]; [|done]. split; [done|]. split; [|done].
        rewrite !not_elem_of_cons. split_and!; [done|done|apply not_elem_of_nil].
  - exists s4. split; [|rewrite Estart, (bind_ret _ _ _ _ _ E3), Esb; fold (bitmap s b); fold bm; by rewrite (bind_ret _ _ _ _ _ E4), (bind_ret _ _ _ _ _ Ed), Eu].
    by rewrite I4, (fs_icache _ _ S3).
Qed.

(** ** A disk with 230 blocks in use *)

(** The superblock says [size] blocks and 200 inodes; the journal has four
    blocks, and recovery has run. *)
Definition demo_bitmap : block := splice 0 (replicate 28 255 ++ [63]) zero_block.
Definition demo_adisk (size : Z) : image :=
  dwrite (dwrite (dwrite (∅ : image) ROOTDEV 2 demo_jsb) ROOTDEV 1 (put_u32 0 size (put_u32 8 200 zero_block)))
    ROOTDEV 229 demo_bitmap.
Definition demo_afs (size : Z) : fs_st :=
  FsSt (match pbjFSck true ROOTDEV (boot 8 (demo_adisk size)) with Ret _ b => b | _ => boot 8 ∅ end) [].

Lemma demo_bitmap_block : is_block demo_bitmap.
Proof. split; [reflexivity|]. apply Forall_forall. intros x Hx. unfold is_byte. assert (H : forallb (fun x => (0 <=? x) && (x <? 256)) demo_bitmap = true) by (vm_compute; reflexivity).
  rewrite forallb_forall in H. specialize (H x ltac:(by apply list_elem_of_In)). lia. Qed.

Lemma demo_bitmap_used b : 0 <= b < 230 -> bit_used demo_bitmap b = true.
Proof.
  intros Hb. assert (H : forallb (bit_used demo_bitmap) (seqZ 0 230) = true) by (vm_compute; reflexivity).
  rewrite forallb_forall in H. apply H. apply list_elem_of_In, elem_of_seqZ. lia.
Qed.

(** A kernel booted from a disk with this superblock and bitmap. *)
Section demo.
Context (N nbuf : nat) (d : image) (b : bst) (ic : list inode) (size : Z).
Context (Hb : booted N nbuf b) (Hd : h_image (bdisk b) = d) (HN : (2 <= N < 200)%nat) (Hnb : (4 <= nbuf)%nat) (Hsz : 0 < size <= 4096).
Context (D1 : dread d ROOTDEV 1 = put_u32 0 size (put_u32 8 200 zero_block)) (D2 : dread d ROOTDEV 229 = demo_bitmap).
Let s := FsSt b ic.

Lemma demo_shows : shows N d s.
Proof using All. rewrite <-Hd. apply (booted_shows N nbuf); [done|lia]. Qed.

Lemma demo_sb : fs_sb s = Superblock size 0 200.
Proof using All.
  unfold fs_sb, decode_sb. rewrite (sh_view _ _ _ demo_shows), D1 by (split; lia).
  assert (B : is_block (put_u32 8 200 zero_block)) by (apply put_u32_block; [lia|apply zero_block_ok]).
  rewrite get_put_u32 by (lia || exact B). rewrite !get_put_u32_ne by (lia || exact B || exact zero_block_ok).
  rewrite get_put_u32 by (lia || exact zero_block_ok). rewrite u32_small by (unfold u32_mod; lia). reflexivity.
Qed.

Lemma demo_bits : bits s = 4096.
Proof using All.
  unfold bits. rewrite demo_sb. cbn [sb_size]. change BPB with 4096. replace ((size + 4096 - 1) / 4096) with 1; [done|]. Z.div_mod_to_equations. lia.
Qed.

Lemma demo_bm k : 0 <= k < 4096 -> bitmap s k = 229 /\ view s ROOTDEV 229 = demo_bitmap /\ unheld s ROOTDEV 229.
Proof using All.
  intros Hk. split; [|split; [|apply (sh_free _ _ _ demo_shows); split; lia]].
  - unfold bitmap, BBLOCK. rewrite demo_sb. cbn [sb_ninodes]. change BPB with 4096. rewrite Z.div_small by done. done.
  - by rewrite (sh_view _ _ _ demo_shows) by (split; lia).
Qed.

Lemma demo_used k : 0 <= k < 4096 -> block_used s k = bit_used demo_bitmap k.
Proof using All. intros Hk. destruct (demo_bm k Hk) as (E1 & E2 & _). unfold block_used. rewrite E1, E2. change BPB with 4096. by rewrite Z.mod_small. Qed.

Lemma demo_alloc_ready : alloc_ready N [] s.
Proof using All.
  split; [apply Hb|change (fb s) with b; rewrite (bt_free _ _ _ Hb); lia|apply Hb|split_and!; [simpl; lia|simpl; lia|by apply Forall_nil]|apply (sh_free _ _ _ demo_shows); split; lia|].
  rewrite demo_bits. intros k Hk. destruct (demo_bm k Hk) as (-> & -> & U).
  split; [exact U|]. split; [split; lia|]. split; [lia|apply demo_bitmap_block].
Qed.
End demo.

Lemma demo_afs_ready size :
  0 < size <= 4096 ->
  alloc_ready 4 [] (demo_afs size) /\ fs_sb (demo_afs size) = Superblock size 0 200 /\ bits (demo_afs size) = 4096 /\
  first_unused (demo_afs size) 230.
Proof.
  intros Hsz. assert (Hr : replayable (demo_adisk size) 4 []).
  { assert (E : dread (demo_adisk size) ROOTDEV 2 = demo_jsb) by (unfold demo_adisk; rewrite !(dread_dwrite_ne (D := image)) by done; by rewrite (dread_dwrite_eq (D := image))).
    split; rewrite ?E; [apply demo_jsb_block|vm_compute; done..|constructor]. }
  destruct (reboot (demo_adisk size) 8 4 [] Hr) as (b & E & Hb & Hd); [apply NoDup_nil_2|lia|lia| |].
  { unfold demo_adisk. rewrite !(dread_dwrite_ne (D := image)) by done. apply zero_block_ok. }
  assert (Es : demo_afs size = FsSt b []) by (unfold demo_afs; by rewrite E). rewrite Es.
  assert (Hd' : h_image (bdisk b) = demo_adisk size) by (by rewrite Hd).
  assert (D1 : dread (demo_adisk size) ROOTDEV 1 = put_u32 0 size (put_u32 8 200 zero_block)).
  { unfold demo_adisk. rewrite (dread_dwrite_ne (D := image)) by done. by rewrite (dread_dwrite_eq (D := image)). }
  assert (D2 : dread (demo_adisk size) ROOTDEV 229 = demo_bitmap) by (unfold demo_adisk; by rewrite (dread_dwrite_eq (D := image))).
  pose proof (demo_bits 4 8 _ b [] size Hb Hd' ltac:(lia) ltac:(lia) Hsz D1 D2) as Ebits.
  pose proof (demo_used 4 8 _ b [] size Hb Hd' ltac:(lia) ltac:(lia) Hsz D1 D2) as Eused.
  split; [by apply (demo_alloc_ready 4 8 (demo_adisk size) b [] size Hb Hd' ltac:(lia) ltac:(lia) Hsz)|]. split; [by apply (demo_sb 4 8 (demo_adisk size) b [] size Hb Hd' ltac:(lia) ltac:(lia) Hsz)|].
  split; [exact Ebits|]. unfold first_unused. rewrite Ebits. split; [lia|]. split; [rewrite Eused by lia; vm_compute; reflexivity|]. intros b' Hb'. rewrite Eused by lia. by apply demo_bitmap_used.
Qed.

Lemma balloc_correct_witness :
  exists s', balloc ROOTDEV (demo_afs 1024) = Ret 230 s' /\ block_used s' 230 = true /\ block_used s' 231 = false.
Proof.
  destruct (demo_afs_ready 1024) as (Ha & _ & Eb & Hf); [lia|].
  destruct (balloc_correct 4 [] (demo_afs 1024) Ha) as [H _]. destruct (H 230 Hf) as (s' & E & _ & Hu & _); [discriminate|].
  exists s'. split; [exact E|]. rewrite Eb in Hu. rewrite !Hu by lia. split; [reflexivity|].
  vm_compute. reflexivity.
Defined.

(** The scan does not stop at the size of the disk: when the blocks that
    exist are all in use, balloc hands out one that does not exist. *)
Lemma balloc_past_end : sb_size (fs_sb (demo_afs 230)) = 230 /\ exists s', balloc ROOTDEV (demo_afs 230) = Ret 230 s'.
Proof.
  destruct (demo_afs_ready 230) as (Ha & Esb & _ & Hf); [lia|]. split; [by rewrite Esb|].
  destruct (balloc_found 4 [] (demo_afs 230) 230 Ha Hf) as (s' & _ & E). by exists s'.
Qed.
