(* ===== verification/FsGrow.v ===== *)
(** * fs.c: writes that extend a file

    writei over direct blocks of which some are not there yet: bmap gets them
    from balloc, which commits what has been written so far; the file holds
    the new bytes at the end, the bitmap the new blocks, and no other block
    has changed. *)

From S2P Require Import Prelude CString Layout Ide Bio Cache Journal Recover Crash Reboot Txn Commit Fs FsInode FsRead FsPath FsWrite FsCrash FsAlloc.

(** The lowest free block, if there is one. *)
Lemma first_unused_exists s b : 0 <= b < bits s -> block_used s b = false -> exists b0, first_unused s b0 /\ b0 <= b.
Proof.
  intros Hb. assert (Hi : exists k : nat, b = Z.of_nat k) by (exists (Z.to_nat b); lia). destruct Hi as [k ->]. revert Hb.
  induction (lt_wf k) as [k _ IH]. intros Hb Hu.
  destruct (decide (Exists (fun b' => block_used s b' = false) (seqZ 0 (Z.of_nat k)))) as [He|Hn].
  - apply Exists_exists in He as (b' & Hin & Hu'). apply elem_of_seqZ in Hin. rewrite <-(Z2Nat.id b') in Hu' by lia.
    destruct (IH (Z.to_nat b')) as (b0 & H0 & Hle); [lia|lia|done|]. exists b0. split; [done|lia].
  - exists (Z.of_nat k). split; [|lia]. split_and!; [lia|lia|done|]. intros b' Hb'. destruct (block_used s b') eqn:E; [done|]. exfalso. apply Hn.
    apply Exists_exists. exists b'. split; [apply elem_of_seqZ; lia|done].
Qed.

(** The address of direct block [bn]. *)
Definition addr (ip : inode) (bn : Z) : Z := default 0 (i_addrs ip !! Z.to_nat bn).

Lemma addr_set ip k a bn : length (i_addrs ip) = 13%nat -> 0 <= k < NDIRECT -> 0 <= bn ->
  addr (set_addr (Z.to_nat k) a ip) bn = if bn =? k then a else addr ip bn.
Proof.
  intros Hl Hk Hb. unfold addr, set_addr, NDIRECT in *. simpl. destruct (Z.eqb_spec bn k) as [->|Hne].
  - by rewrite list_lookup_insert_eq by lia.
  - rewrite list_lookup_insert_ne by lia. done.
Qed.

Lemma file_block_direct s ip bn :
  i_dev ip = ROOTDEV -> 0 <= bn < NDIRECT -> addr ip bn <> 0 -> file_block s ip bn = view s ROOTDEV (addr ip bn).
Proof.
  intros Hd Hb Ha. unfold file_block, walk. rewrite Hd. destruct (Z.ltb_spec bn NDIRECT); [|lia]. cbn [snd]. fold (addr ip bn).
  unfold nz. destruct (Z.eqb_spec (addr ip bn) 0); [done|]. done.
Qed.

Section grow.
Context (N i : nat).

(** A sector for data: not the superblock, a bitmap block or the block of
    the inode, and outside the journal. *)
Definition plain (s : fs_st) (inum x : Z) : Prop :=
  outside_journal N x /\ x <> 0 /\ x <> 1 /\ x <> IBLOCK inum /\ (forall b, 0 <= b < bits s -> bitmap s b <> x) /\
  length (view s ROOTDEV x) = 512%nat.

(** A file being extended: the blocks below [bn0] have been written.  Free
    blocks are plain and unlocked; so are the file's, which are distinct and
    marked in the bitmap. *)
Record growing (s : fs_st) (t : txn) (ip : inode) (bn0 : Z) : Prop := {
  gw_cached : icache s !! i = Some ip;
  gw_dev : i_dev ip = ROOTDEV;
  gw_addrs : length (i_addrs ip) = 13%nat;
  gw_ready : alloc_ready N t s;
  gw_len : Z.of_nat (length t) <= bn0 <= NDIRECT;
  gw_cap : (16 <= nfree (fb s) + length t)%nat;
  gw_free b : 0 <= b < bits s -> block_used s b = false -> plain s (i_inum ip) b /\ unheld s ROOTDEV b;
  gw_block bn : 0 <= bn < NDIRECT -> addr ip bn <> 0 ->
    plain s (i_inum ip) (addr ip bn) /\ (addr ip bn < bits s -> block_used s (addr ip bn) = true) /\
    (unheld s ROOTDEV (addr ip bn) \/ bn < bn0 /\ addr ip bn ∈ t.*1);
  gw_distinct bn bn' : 0 <= bn < NDIRECT -> 0 <= bn' < NDIRECT -> addr ip bn <> 0 -> addr ip bn = addr ip bn' -> bn = bn';
  gw_inode : unheld s ROOTDEV (IBLOCK (i_inum ip)) /\ outside_journal N (IBLOCK (i_inum ip)) /\ IBLOCK (i_inum ip) <> 1 /\
    (forall b, 0 <= b < bits s -> bitmap s b <> IBLOCK (i_inum ip)) /\ is_block (view s ROOTDEV (IBLOCK (i_inum ip)));
  gw_header : is_block (dread (h_image (bdisk (fb s))) ROOTDEV 3) }.

Context (HN : (16 <= N)%nat).

(** *** A new block *)

Section alloc.
Context (s s1 : fs_st) (t : txn) (ip : inode) (bn0 b : Z).
Context (G : growing s t ip bn0) (Hbn : 0 <= bn0 < NDIRECT) (Hz : addr ip bn0 = 0) (Hf : first_unused s b) (A : allocates N t b s s1).
Let ip1 : inode := set_addr (Z.to_nat bn0) b ip.
Let s2 : fs_st := set_icache (<[i := ip1]> (icache s1)) s1.

Lemma alloc_sb : fs_sb s2 = fs_sb s.
Proof using All. by apply (bit_written N t s s1 b _ (gw_ready _ _ _ _ G) (proj1 Hf) (proj1 A)). Qed.

Lemma alloc_view x : outside_journal N x -> x <> bitmap s b -> view s2 ROOTDEV x = view s ROOTDEV x.
Proof using All.
  intros Hx Hne. change (view s1 ROOTDEV x = view s ROOTDEV x). rewrite (fl_view _ _ _ _ _ (proj1 A) x Hx). unfold tx_view.
  by rewrite tx_map_cons, lookup_insert_ne.
Qed.

Lemma alloc_used b' : 0 <= b' < bits s -> block_used s2 b' = (b' =? b) || block_used s b'.
Proof using All. apply (allocates_used N t s s1); [apply G|apply Hf|exact A]. Qed.

Lemma alloc_unheld x : outside_journal N x -> unheld s ROOTDEV x \/ x ∈ t.*1 -> unheld s2 ROOTDEV x.
Proof using All. intros Hx Hu. apply (flushes_durable N t _ s s1 x (proj1 A) Hx). tauto. Qed.

Lemma alloc_plain x : plain s (i_inum ip) x -> plain s2 (i_inum ip) x.
Proof using All.
  intros (H1 & H2 & H3 & H4 & H5 & H6). unfold plain, bits, bitmap in *. rewrite alloc_sb. split_and!; try done; [apply H1..|].
  rewrite alloc_view; [done|done|]. intros E. by apply (H5 b (proj1 Hf)).
Qed.

Lemma alloc_addr bn : 0 <= bn -> addr ip1 bn = if bn =? bn0 then b else addr ip bn.
Proof using All. intros H. by apply addr_set; [apply G| |]. Qed.

Lemma alloc_growing : growing s2 [] ip1 bn0.
Proof using All.
  destruct A as [F I]. pose proof (gw_ready _ _ _ _ G) as Ha. pose proof (proj1 Hf) as Hb. destruct (gw_free _ _ _ _ G b Hb (proj1 (proj2 Hf))) as [Hpl Hub].
  destruct (gw_inode _ _ _ _ G) as (J1 & J2 & J3 & J4 & J5). pose proof (gw_len _ _ _ _ G) as Hlen. pose proof alloc_sb as Esb.
  assert (Ebits : bits s2 = bits s) by (unfold bits; by rewrite Esb). assert (Ebm : forall x, bitmap s2 x = bitmap s x) by (intros; unfold bitmap; by rewrite Esb).
  pose proof (fl_free _ _ _ _ _ F) as Hfr. pose proof (gw_cap _ _ _ _ G) as Hcap. split; simpl length; try apply G.
  - apply list_lookup_insert_eq. rewrite I. eapply lookup_lt_Some, G.
  - unfold ip1, set_addr. simpl. rewrite length_insert. apply G.
  - split; [apply F|change (fb s2) with (fb s1); change NDIRECT with 12 in *; lia|apply F|split_and!; [simpl; lia..|by apply Forall_nil]| |].
    + apply alloc_unheld; [split; lia|left; apply Ha].
    + rewrite Ebits. intros b' Hb'. rewrite Ebm. destruct (al_bitmap _ _ _ Ha b' Hb') as (B1 & B2 & B3 & B4). split_and!; try done; [by apply alloc_unheld; [|left]|apply B2..|].
      destruct (decide (bitmap s b' = bitmap s b)) as [E|E]; [|by rewrite alloc_view].
      change (is_block (view s1 ROOTDEV (bitmap s b'))). rewrite (fl_view _ _ _ _ _ F) by done. rewrite E. unfold tx_view. rewrite tx_map_cons, lookup_insert_eq.
      cbn [default]. rewrite E in B4. pose proof (Z.mod_pos_bound b BPB ltac:(done)). by apply (bit_set_spec _ (b mod BPB) 0 B4).
  - lia.
  - change (fb s2) with (fb s1). lia.
  - rewrite Ebits. intros b' Hb' Hu'. rewrite alloc_used in Hu' by done. apply orb_false_iff in Hu' as [_ Hu'].
    destruct (gw_free _ _ _ _ G b' Hb' Hu') as [P U]. split; [by apply alloc_plain|]. apply alloc_unheld; [apply P|by left].
  - intros bn Hr Ha0. rewrite alloc_addr in * by lia. rewrite Ebits. destruct (Z.eqb_spec bn bn0) as [->|Hne].
    + split; [by apply alloc_plain|]. split; [intros _; rewrite alloc_used, Z.eqb_refl by done; done|]. left. apply alloc_unheld; [apply Hpl|by left].
    + destruct (gw_block _ _ _ _ G bn Hr Ha0) as (P & U & H). pose proof P as ((? & _) & _). split; [by apply alloc_plain|]. split.
      * intros Hlt. rewrite alloc_used by lia. by rewrite U, orb_true_r.
      * left. apply alloc_unheld; [apply P|]. destruct H as [|[]]; auto.
  - intros bn bn' Hr Hr' Ha0 E. rewrite !alloc_addr in * by lia.
    assert (Hold : forall k, 0 <= k < NDIRECT -> addr ip k <> 0 -> addr ip k <> b).
    { intros k Hk Hk0 E'. destruct (gw_block _ _ _ _ G k Hk Hk0) as (_ & U & _). destruct Hf as (_ & Hu & _). rewrite E' in U. rewrite U in Hu by lia. done. }
    destruct (Z.eqb_spec bn bn0) as [->|], (Z.eqb_spec bn' bn0) as [->|]; [done| | |by apply (gw_distinct _ _ _ _ G)].
    + exfalso. destruct (decide (addr ip bn' = 0)); [congruence|by apply (Hold bn' Hr')].
    + exfalso. by apply (Hold bn Hr).
  - change (i_inum ip1) with (i_inum ip). split_and!; try done; [by apply alloc_unheld; [|left]|apply J2..| |].
    + rewrite Ebits. intros b' Hb'. rewrite Ebm. by apply J4.
    + rewrite alloc_view; [done|done|]. intros E. by apply (J4 b Hb).
  - apply F.
Qed.
End alloc.

(** What bmap does for block [bn0]: the block that was there, or a free one
    that is now marked. *)
Record took (s : fs_st) (ip : inode) (bn0 a : Z) (s1 : fs_st) (ip1 : inode) : Prop := {
  tk_inode : ip1 = ip \/ ip1 = set_addr (Z.to_nat bn0) a ip;
  tk_some : a <> 0;
  tk_addr bn : 0 <= bn -> addr ip1 bn = if bn =? bn0 then a else addr ip bn;
  tk_old : addr ip bn0 <> 0 -> a = addr ip bn0;
  tk_new : addr ip bn0 = 0 -> 0 <= a < bits s /\ block_used s a = false;
  tk_sb : fs_sb s1 = fs_sb s;
  tk_used b : 0 <= b < bits s -> block_used s1 b = (b =? a) || block_used s b;
  tk_view x : outside_journal N x -> (forall b, 0 <= b < bits s -> bitmap s b <> x) -> view s1 ROOTDEV x = view s ROOTDEV x;
  tk_crash Q : 1 <= Z.of_nat N < 2 ^ 26 -> respects N Q ->
    Q (dread (h_image (bdisk (fb s))) ROOTDEV) -> Q (dread (h_image (bdisk (fb s1))) ROOTDEV) ->
    survives N Q (bdisk (fb s)) (bdisk (fb s1)) }.

Lemma bmap_grow s t ip bn0 :
  growing s t ip bn0 -> 0 <= bn0 < NDIRECT -> (addr ip bn0 = 0 -> exists b, 0 <= b < bits s /\ block_used s b = false) ->
  exists a s1 t1 ip1, bmap i bn0 true s = Ret (Some a) s1 /\ growing s1 t1 ip1 bn0 /\ took s ip bn0 a s1 ip1 /\ (t1 = [] \/ s1 = s).
Proof using HN.
  intros G Hbn Hfree. unfold bmap. destruct (Z.ltb_spec bn0 NDIRECT); [|lia]. unfold bmap_addr.
  rewrite (bind_ret _ _ _ _ _ (geti_ret _ _ _ (gw_cached _ _ _ _ G))). fold (addr ip bn0). cbn [negb].
  destruct (Z.eqb_spec (addr ip bn0) 0) as [Hz|Hnz].
  - destruct (Hfree Hz) as (b & Hb & Hu). destruct (first_unused_exists s b Hb Hu) as (b0 & Hf & _). clear b Hb Hu.
    destruct (balloc_found N t s b0 (gw_ready _ _ _ _ G) Hf) as (s1 & A & E).
    destruct (gw_free _ _ _ _ G b0 (proj1 Hf) (proj1 (proj2 Hf))) as [(_ & P0 & P1 & _) _]. destruct (Z.eqb_spec b0 1) as [|_]; [done|].
    assert (Hi1 : icache s1 !! i = Some ip) by (rewrite (proj2 A); apply G).
    eexists b0, _, [], _. split; [|split; [by apply (alloc_growing s s1 t ip bn0 b0 G Hbn Hz Hf A)|split; [|by left]]].
    + rewrite (gw_dev _ _ _ _ G), (bind_ret _ _ _ _ _ E). by rewrite (bind_ret _ _ _ _ _ (updi_ret i _ _ _ Hi1)).
    + split; [by right|done|by intros; apply (alloc_addr s s1 t ip bn0 b0 G Hbn Hz Hf A)|done|intros _; split; apply Hf|..].
      * apply (alloc_sb s s1 t ip bn0 b0 G Hbn Hz Hf A).
      * intros b'. apply (alloc_used s s1 t ip bn0 b0 G Hbn Hz Hf A).
      * intros x Hx Hnb. apply (alloc_view s s1 t ip bn0 b0 G Hbn Hz Hf A x Hx). intros E'. by apply (Hnb b0 (proj1 Hf)).
      * intros Q HNb HR. apply (fl_crash _ _ _ _ _ (proj1 A)); [done|apply G|done].
  - exists (addr ip bn0), s, t, ip. split; [done|]. split; [done|]. split; [|by right]. split; try done; [by left| | |].
    + intros bn _. by destruct (Z.eqb_spec bn bn0) as [->|].
    + intros b Hb. destruct (Z.eqb_spec b (addr ip bn0)) as [->|]; [|done].
      destruct (gw_block _ _ _ _ G bn0 Hbn Hnz) as (_ & U & _). by rewrite U by lia.
    + intros Q HNb _ HQ _. eapply survives_idle; [apply (gw_ready _ _ _ _ G)|done|apply G|done].
Qed.

(** *** Writing the block *)

Lemma put_growing s t ip bn0 s' d :
  growing s t ip bn0 -> 0 <= bn0 < NDIRECT -> addr ip bn0 <> 0 -> length d = 512%nat ->
  grown (fb s) (fb s') [(addr ip bn0, d)] -> icache s' = icache s ->
  growing s' ((addr ip bn0, d) :: t) ip (bn0 + 1) /\ fs_sb s' = fs_sb s /\
  (forall b, 0 <= b < bits s -> block_used s' b = block_used s b) /\
  (forall x, x <> addr ip bn0 -> view s' ROOTDEV x = view s ROOTDEV x) /\ view s' ROOTDEV (addr ip bn0) = d.
Proof using HN.
  intros G Hbn Hnz Hd Gr I. destruct (gw_block _ _ _ _ G bn0 Hbn Hnz) as ((P1 & P2 & P3 & P4 & P5 & P6) & U & _). set (a := addr ip bn0) in *.
  assert (Hv : forall x, x <> a -> view s' ROOTDEV x = view s ROOTDEV x).
  { intros x Hx. unfold view. rewrite (gr_view _ _ _ Gr). unfold tx_view. by rewrite tx_map_cons, lookup_insert_ne. }
  assert (Hva : view s' ROOTDEV a = d) by (unfold view; rewrite (gr_view _ _ _ Gr); unfold tx_view; by rewrite tx_map_cons, lookup_insert_eq).
  assert (Hu : forall x, x <> a -> unheld s ROOTDEV x -> unheld s' ROOTDEV x).
  { intros x Hx Hux [H|H%list_elem_of_singleton]%(gr_held _ _ _ Gr); done. }
  assert (Esb : fs_sb s' = fs_sb s) by (unfold fs_sb; by rewrite Hv).
  assert (Ebits : bits s' = bits s) by (unfold bits; by rewrite Esb). assert (Ebm : forall x, bitmap s' x = bitmap s x) by (intros; unfold bitmap; by rewrite Esb).
  assert (Eus : forall b, 0 <= b < bits s -> block_used s' b = block_used s b).
  { intros b Hb. unfold block_used. rewrite Ebm, Hv; [done|]. by apply P5. }
  assert (Hpl : forall x, plain s (i_inum ip) x -> plain s' (i_inum ip) x).
  { intros x (A1 & A2 & A3 & A4 & A5 & A6). unfold plain. rewrite Ebits. split_and!; try done; [apply A1..|intros b; rewrite Ebm; apply A5|].
    destruct (decide (x = a)) as [->|]; [by rewrite Hva|by rewrite Hv]. }
  split_and!; try done. pose proof (gr_free _ _ _ Gr) as Hfr. simpl in Hfr. pose proof (gw_len _ _ _ _ G) as Hlen. pose proof (gw_cap _ _ _ _ G) as Hcap.
  pose proof (gw_ready _ _ _ _ G) as Ha. destruct (al_room _ _ _ Ha) as (R1 & R2 & R3). change NDIRECT with 12 in *. split; simpl length; try apply G.
  - rewrite I. apply G.
  - split; [apply Gr|lia|by apply (gr_open _ _ _ Gr), Ha|split_and!; [simpl; lia..|by constructor]|apply Hu; [done|apply Ha]|].
    rewrite Ebits. intros b Hb. rewrite Ebm. destruct (al_bitmap _ _ _ Ha b Hb) as (B1 & B2 & B3 & B4).
    split_and!; try done; [by apply Hu; [apply P5|]|apply B2..|by rewrite Hv by (by apply P5)].
  - change NDIRECT with 12. lia.
  - lia.
  - rewrite Ebits. intros b Hb Hub. rewrite Eus in Hub by done. destruct (gw_free _ _ _ _ G b Hb Hub) as [P Q]. split; [auto|].
    apply Hu; [|done]. intros ->. by rewrite U in Hub by lia.
  - intros bn Hr Hb0. destruct (gw_block _ _ _ _ G bn Hr Hb0) as (P & Q & R). rewrite Ebits. pose proof P as ((? & _) & _).
    split; [auto|]. split; [intros; rewrite Eus by lia; auto|]. destruct (decide (bn = bn0)) as [->|Hne]; [right; split; [lia|constructor]|].
    destruct R as [R|[R1' R2']]; [left|right; split; [lia|by constructor]]. apply Hu; [|done].
    intros E. by apply (gw_distinct _ _ _ _ G) in E.
  - destruct (gw_inode _ _ _ _ G) as (J1 & J2 & J3 & J4 & J5). split_and!; try done; [by apply Hu|apply J2..|intros b; rewrite Ebits, Ebm; apply J4|by rewrite Hv].
  - rewrite (gr_disk _ _ _ Gr). apply G.
Qed.

(** ** What a write leaves *)

Definition with_addrs (l : list Z) (ip : inode) : inode :=
  Inode (i_dev ip) (i_inum ip) (i_ref ip) (i_flags ip) (i_type ip) (i_major ip) (i_minor ip) (i_nlink ip) (i_size ip) l.

(** Byte [k] of the file, in a direct block. *)
Definition dbyte (s : fs_st) (ip : inode) (k : Z) : Z :=
  default 0 (view s ROOTDEV (addr ip (k / BSIZE)) !! Z.to_nat (k mod BSIZE)).

(** Block [bn] has bytes of the [n] bytes from [off] on. *)
Definition touches (off n bn : Z) : Prop := 0 < n /\ BSIZE * bn < off + n /\ off < BSIZE * (bn + 1).

(** [src] has been written at [off]: new blocks come from the free ones, the
    bytes of [src] are there, the others of the file and all other blocks but
    the bitmap as they were. *)
Record wrote (s : fs_st) (ip : inode) (off : Z) (src : list Z) (s' : fs_st) (ip' : inode) : Prop := {
  wr_inode : ip' = with_addrs (i_addrs ip') ip;
  wr_sb : fs_sb s' = fs_sb s;
  wr_keep bn : 0 <= bn -> addr ip bn <> 0 -> addr ip' bn = addr ip bn;
  wr_new bn : 0 <= bn -> addr ip' bn <> addr ip bn ->
    bn < NDIRECT /\ 0 <= addr ip' bn < bits s /\ block_used s (addr ip' bn) = false /\ block_used s' (addr ip' bn) = true;
  wr_used b : 0 <= b < bits s -> block_used s b = true -> block_used s' b = true;
  wr_only b : 0 <= b < bits s -> block_used s b = false -> block_used s' b = true -> b <> 0 /\ exists bn, 0 <= bn /\ addr ip bn = 0 /\ addr ip' bn = b;
  wr_there bn : 0 <= bn < NDIRECT -> touches off (Z.of_nat (length src)) bn -> addr ip' bn <> 0;
  wr_byte k : 0 <= k < BSIZE * NDIRECT -> off <= k < off + Z.of_nat (length src) \/ addr ip (k / BSIZE) <> 0 ->
    dbyte s' ip' k = if (off <=? k) && (k <? off + Z.of_nat (length src)) then nth (Z.to_nat (k - off)) src 0 else dbyte s ip k;
  wr_frame x : outside_journal N x -> (forall b, 0 <= b < bits s -> bitmap s b <> x) ->
    (forall bn, 0 <= bn < NDIRECT -> touches off (Z.of_nat (length src)) bn -> addr ip' bn <> x) -> view s' ROOTDEV x = view s ROOTDEV x }.

Lemma wrote_nil s ip off : wrote s ip off [] s ip.
Proof using HN.
  split; try done; simpl.
  - by destruct ip.
  - intros b _ -> . done.
  - intros bn _ H Ha. unfold touches, BSIZE in H. lia.
  - intros k _ _. destruct (Z.leb_spec off k), (Z.ltb_spec k (off + Z.of_nat 0)); try done; lia.
Qed.

Lemma wrote_app s ip off a s1 ip1 b s2 ip2 :
  0 <= off -> off + Z.of_nat (length (a ++ b)) <= BSIZE * NDIRECT ->
  wrote s ip off a s1 ip1 -> wrote s1 ip1 (off + Z.of_nat (length a)) b s2 ip2 -> wrote s ip off (a ++ b) s2 ip2.
Proof using HN.
  intros Ho Hmax [A1 A2 A3 A4 A5 A6 A7 A8 A9] [B1 B2 B3 B4 B5 B6 B7 B8 B9]. rewrite length_app, Nat2Z.inj_add in *.
  assert (Ebits : bits s1 = bits s) by (unfold bits; by rewrite A2). assert (Ebm : forall x, bitmap s1 x = bitmap s x) by (intros; unfold bitmap; by rewrite A2).
  rewrite Ebits in *. set (la := Z.of_nat (length a)) in *. set (lb := Z.of_nat (length b)) in *.
  assert (Hfirst : forall bn, 0 <= bn < NDIRECT -> touches off la bn -> addr ip2 bn = addr ip1 bn /\ addr ip1 bn <> 0).
  { intros bn Hr Ht. pose proof (A7 bn Hr Ht). split; [apply B3; [lia|done]|done]. }
  split; rewrite ?length_app, ?Nat2Z.inj_add; fold la lb.
  - rewrite B1, A1. done.
  - congruence.
  - intros bn Hb Hn. rewrite B3; [by apply A3|done|]. by rewrite A3.
  - intros bn Hb Hne. destruct (decide (addr ip1 bn = addr ip bn)) as [E|E].
    + destruct (B4 bn Hb) as (C1 & C2 & C3 & C4); [congruence|]. split_and!; [done|apply C2..| |done].
      destruct (block_used s (addr ip2 bn)) eqn:Eu; [|done]. rewrite A5 in C3; [done|done|done].
    + destruct (A4 bn Hb E) as (C1 & C2 & C3 & C4). assert (E2 : addr ip2 bn = addr ip1 bn).
      { apply B3; [done|]. intros E0. destruct (decide (addr ip bn = 0)) as [E1|E1]; [congruence|]. apply E. by apply A3. }
      rewrite E2. split_and!; [done|apply C2..|done|]. by apply B5.
  - auto.
  - intros x Hx Hu Hu2. destruct (block_used s1 x) eqn:E1.
    + destruct (A6 x Hx Hu E1) as (C0 & bn & C1 & C2 & C3). split; [done|]. exists bn. split_and!; [done|done|]. by rewrite B3 by congruence.
    + destruct (B6 x Hx E1 Hu2) as (C0 & bn & C1 & C2 & C3). split; [done|]. exists bn. split_and!; [done| |done].
      destruct (decide (addr ip bn = 0)) as [|E]; [done|]. rewrite A3 in C2 by done. done.
  - intros bn Hr Ht. destruct (decide (touches off la bn)) as [H|H]; [by destruct (Hfirst bn Hr H) as [-> ?]|].
    apply B7; [done|]. unfold touches, BSIZE in *. lia.
  - intros k Hk Hor. unfold BSIZE, NDIRECT in *. destruct (decide (off <= k < off + la)) as [H1|H1].
    + assert (Ht : touches off la (k / 512)) by (unfold touches, BSIZE; Z.div_mod_to_equations; lia).
      destruct (Hfirst (k / 512)) as [E1 E2]; [unfold NDIRECT; Z.div_mod_to_equations; lia|done|].
      rewrite B8 by (unfold BSIZE; auto; lia). destruct (Z.leb_spec (off + la) k); [lia|]. cbn [andb]. rewrite A8 by (unfold BSIZE; auto; lia).
      destruct (Z.leb_spec off k), (Z.ltb_spec k (off + la)), (Z.ltb_spec k (off + (la + lb))); try lia. cbn [andb].
      rewrite app_nth1 by lia. done.
    + destruct (decide (off + la <= k < off + (la + lb))) as [H2|H2].
      * rewrite B8 by (unfold BSIZE; auto; lia).
        destruct (Z.leb_spec (off + la) k), (Z.ltb_spec k (off + la + lb)), (Z.leb_spec off k), (Z.ltb_spec k (off + (la + lb))); try lia. cbn [andb].
        rewrite app_nth2 by lia. f_equal. lia.
      * assert (Hn : addr ip (k / BSIZE) <> 0) by (destruct Hor; [lia|done]).
        assert (Hq : 0 <= k / BSIZE) by (unfold BSIZE; Z.div_mod_to_equations; lia).
        rewrite B8 by (unfold BSIZE in *; rewrite ?A3 by done; auto; lia).
        destruct (Z.leb_spec (off + la) k), (Z.ltb_spec k (off + la + lb)), (Z.leb_spec off k), (Z.ltb_spec k (off + (la + lb))); try lia; cbn [andb];
          (rewrite A8 by (unfold BSIZE in *; auto; lia)); destruct (Z.leb_spec off k), (Z.ltb_spec k (off + la)); try lia; done.
  - intros x Hx Hb Hn. rewrite B9; [apply A9|done|by intros y Hy; rewrite Ebm; apply Hb|]; try done.
    + intros bn Hr Ht. destruct (Hfirst bn Hr Ht) as [<- _]. apply Hn; [done|]. unfold touches, BSIZE in *. lia.
    + intros bn Hr Ht. apply Hn; [done|]. unfold touches, BSIZE in *. lia.
Qed.

(** ** The loop *)

Lemma touches_first off m bn : 0 <= off -> 0 < m <= BSIZE - off mod BSIZE -> touches off m bn <-> bn = off / BSIZE.
Proof using. clear HN. intros Ho Hm. unfold touches, BSIZE in *. Z.div_mod_to_equations. lia. Qed.

Section turn.
Context (s s1 s3 : fs_st) (t t1 : txn) (ip ip1 : inode) (a off : Z) (src : list Z).
Let n := Z.of_nat (length src).
Let bn := off / BSIZE.
Let m := Z.min n (BSIZE - off mod BSIZE).
Context (G : growing s t ip bn) (G1 : growing s1 t1 ip1 bn) (T : took s ip bn a s1 ip1).
Context (Ho : 0 <= off) (Hn : 0 < n) (Hbn : 0 <= bn < NDIRECT) (Hsb : fs_sb s3 = fs_sb s1).
Context (Hus : forall b, 0 <= b < bits s -> block_used s3 b = block_used s1 b).
Context (Hv : forall x, x <> a -> view s3 ROOTDEV x = view s1 ROOTDEV x) (Hva : view s3 ROOTDEV a = patch (view s1 ROOTDEV a) bn off src).

Lemma turn_m : 0 < m <= BSIZE - off mod BSIZE.
Proof using All. pose proof (Z.mod_pos_bound off BSIZE). unfold m, BSIZE in *. lia. Qed.

(** A block the file had shows its old contents to bmap's caller. *)
Lemma turn_old : addr ip bn <> 0 -> view s1 ROOTDEV a = view s ROOTDEV (addr ip bn).
Proof using All.
  intros Hnz. destruct (gw_block _ _ _ _ G bn Hbn Hnz) as ((P1 & _ & _ & _ & P5 & _) & _). rewrite (tk_old _ _ _ _ _ _ T Hnz).
  by apply (tk_view _ _ _ _ _ _ T).
Qed.

Lemma turn_other x : outside_journal N x -> (forall b, 0 <= b < bits s -> bitmap s b <> x) -> x <> a -> view s3 ROOTDEV x = view s ROOTDEV x.
Proof using All. intros Hx Hb Hne. rewrite Hv by done. by apply (tk_view _ _ _ _ _ _ T). Qed.

Lemma turn_byte k :
  0 <= k < BSIZE * NDIRECT -> off <= k < off + m \/ addr ip (k / BSIZE) <> 0 ->
  dbyte s3 ip1 k = if (off <=? k) && (k <? off + m) then nth (Z.to_nat (k - off)) (take (Z.to_nat m) src) 0 else dbyte s ip k.
Proof using All.
  intros Hk Hor. pose proof turn_m as Hm. unfold dbyte. assert (Hr : 0 <= k / BSIZE < NDIRECT) by (clear - Hk; unfold BSIZE, NDIRECT in *; Z.div_mod_to_equations; lia).
  rewrite (tk_addr _ _ _ _ _ _ T) by lia. destruct (Z.eqb_spec (k / BSIZE) bn) as [E|E].
  - rewrite Hva. assert (Hj : (Z.to_nat (k mod BSIZE) < 512)%nat) by (pose proof (Z.mod_pos_bound k BSIZE); unfold BSIZE in *; lia).
    etrans; [by apply patch_byte|]. cbv zeta.
    replace (BSIZE * bn + Z.of_nat (Z.to_nat (k mod BSIZE))) with k by (rewrite <-E; clear; unfold BSIZE; Z.div_mod_to_equations; lia).
    assert (Eend : (k <? off + Z.of_nat (length src)) = (k <? off + m)).
    { apply Bool.eq_iff_eq_true. rewrite !Z.ltb_lt. unfold m, n, bn, BSIZE in *. clear - E Ho. Z.div_mod_to_equations. lia. }
    rewrite Eend. destruct (Z.leb_spec off k), (Z.ltb_spec k (off + m)); cbn [andb];
      [rewrite !nth_lookup, lookup_take_lt by lia; done|..]; (rewrite turn_old, E; [done|]; destruct Hor; [lia|congruence]).
  - assert (Hnot : ~ (off <= k < off + m)) by (intros H; apply E; unfold bn, BSIZE in *; clear - H Hm Ho; Z.div_mod_to_equations; lia).
    assert (Hnz : addr ip (k / BSIZE) <> 0) by (destruct Hor; [lia|done]).
    replace ((off <=? k) && (k <? off + m)) with false by (destruct (Z.leb_spec off k), (Z.ltb_spec k (off + m)); cbn [andb]; try lia; done).
    destruct (gw_block _ _ _ _ G _ Hr Hnz) as ((Q1 & _ & _ & _ & Q5 & _) & _). rewrite turn_other; [done|done|done|].
    intros E'. apply E. symmetry. apply (gw_distinct _ _ _ _ G1); [done|done|..]; rewrite !(tk_addr _ _ _ _ _ _ T), Z.eqb_refl by lia.
    + apply T.
    + by destruct (Z.eqb_spec (k / BSIZE) bn).
Qed.

Lemma turn_wrote : wrote s ip off (take (Z.to_nat m) src) s3 ip1.
Proof using All.
  pose proof turn_m as Hm. pose proof (tk_addr _ _ _ _ _ _ T) as K3. pose proof (tk_used _ _ _ _ _ _ T) as K7.
  assert (Hlt : Z.of_nat (length (take (Z.to_nat m) src)) = m) by (rewrite length_take; unfold m, n in *; lia). split; rewrite ?Hlt.
  - destruct (tk_inode _ _ _ _ _ _ T) as [-> | ->]; [by destruct ip|done].
  - rewrite Hsb. apply T.
  - intros b Hb Hnz. rewrite K3 by done. destruct (Z.eqb_spec b bn) as [->|]; [by apply T|done].
  - intros b Hb Hne. rewrite K3 in * by done. destruct (Z.eqb_spec b bn) as [->|]; [|done].
    destruct (decide (addr ip bn = 0)) as [Hz|Hz]; [|by rewrite (tk_old _ _ _ _ _ _ T Hz) in Hne]. destruct (tk_new _ _ _ _ _ _ T Hz) as [H1 H2].
    split_and!; [lia|lia|lia|done|]. rewrite Hus, K7, Z.eqb_refl by done. done.
  - intros b Hb Hub. rewrite Hus, K7, Hub by done. by rewrite orb_true_r.
  - intros b Hb Hub Hub'. rewrite Hus, K7, Hub, orb_false_r in Hub' by done. apply Z.eqb_eq in Hub' as ->. split; [apply T|]. exists bn.
    rewrite K3, Z.eqb_refl by lia. split_and!; [lia| |done]. destruct (decide (addr ip bn = 0)) as [|Hz]; [done|].
    exfalso. destruct (gw_block _ _ _ _ G bn Hbn Hz) as (_ & U & _). rewrite <-(tk_old _ _ _ _ _ _ T Hz) in U. rewrite U in Hub by lia. done.
  - intros b Hb Ht. apply touches_first in Ht as ->; [|done|done]. rewrite K3, Z.eqb_refl by lia. apply T.
  - apply turn_byte.
  - intros x Hx Hb Hn0. apply turn_other; [done|done|]. intros ->. apply (Hn0 bn Hbn); [by apply touches_first|]. by rewrite K3, Z.eqb_refl by lia.
Qed.
End turn.

(** One turn: bmap, and the block with its new bytes. *)
Lemma grow_turn s t ip src off :
  let n := Z.of_nat (length src) in
  let m := Z.min n (BSIZE - off mod BSIZE) in
  growing s t ip (off / BSIZE) -> 0 <= off -> 0 < n -> off / BSIZE < NDIRECT ->
  (addr ip (off / BSIZE) = 0 -> exists b, 0 <= b < bits s /\ block_used s b = false) ->
  exists s' t' ip', growing s' t' ip' (off / BSIZE + 1) /\ wrote s ip off (take (Z.to_nat m) src) s' ip' /\
    (exists a s1 t1, growing s1 t1 ip' (off / BSIZE) /\ took s ip (off / BSIZE) a s1 ip' /\ (t1 = [] \/ s1 = s) /\
       bdisk (fb s') = bdisk (fb s1) /\ (forall b, 0 <= b < bits s -> b <> a -> block_used s' b = block_used s b)) /\
    (forall fuel, writei_loop (S fuel) i src off n s = writei_loop fuel i (drop (Z.to_nat m) src) (off + m) (n - m) s').
Proof using HN.
  intros n m G Ho Hn Hmax Hfree. set (bn := off / BSIZE) in *. assert (Hbn : 0 <= bn < NDIRECT) by (unfold bn, BSIZE in *; Z.div_mod_to_equations; lia).
  destruct (bmap_grow s t ip bn G Hbn Hfree) as (a & s1 & t1 & ip1 & E1 & G1 & T & Hmid).
  assert (Ea : addr ip1 bn = a) by (rewrite (tk_addr _ _ _ _ _ _ T), Z.eqb_refl by lia; done). pose proof (tk_some _ _ _ _ _ _ T) as Ha0.
  destruct (gw_block _ _ _ _ G1 bn Hbn) as ((_ & _ & _ & _ & _ & P6) & _ & Hu); [congruence|]. rewrite Ea in *.
  pose proof (gw_ready _ _ _ _ G1) as Ha. destruct (al_room _ _ _ Ha) as (R1 & _).
  destruct (fs_write_block s1 N t1 a) as (bp & s2 & E2 & Ed & _ & Hput); try apply Ha; [destruct Hu as [|[? _]]; [done|lia]|lia|].
  set (d := patch (view s1 ROOTDEV a) bn off src). destruct (Hput d) as (s3 & I3 & Gr & K). subst a.
  destruct (put_growing s1 t1 ip1 bn s3 d G1 Hbn Ha0 (length_patch _ _ _ _) Gr I3) as (G3 & Esb & Eus & Hv & Hva).
  assert (Ebits : bits s1 = bits s) by (unfold bits; by rewrite (tk_sb _ _ _ _ _ _ T)). rewrite Ebits in Eus.
  exists s3, ((addr ip1 bn, d) :: t1), ip1. split; [done|]. split; [by apply (turn_wrote s s1 s3 t t1 ip ip1 (addr ip1 bn) off src)|]. split.
  - exists (addr ip1 bn), s1, t1. do 3 (split; [done|]). split; [apply Gr|]. intros b Hb Hne. rewrite Eus, (tk_used _ _ _ _ _ _ T) by done. destruct (Z.eqb_spec b (addr ip1 bn)); done.
  - intros fuel. cbn [writei_loop]. destruct (Z.leb_spec n 0); [lia|]. fold bn.
    rewrite (bind_ret _ _ _ _ _ E1), (bind_ret _ _ _ _ _ (geti_ret _ _ _ (gw_cached _ _ _ _ G1))), (gw_dev _ _ _ _ G1).
    change (baddr (Some (addr ip1 bn))) with (addr ip1 bn). rewrite (bind_ret _ _ _ _ _ E2), (bind_ret _ _ _ _ _ Ed). fold m.
    unfold m, n at 1 2. rewrite (patch_first (view s1 ROOTDEV (addr ip1 bn)) off src); [apply K|done|done|lia].
Qed.

(** Free blocks in stock. *)
Definition stock (s : fs_st) (l : list Z) : Prop := NoDup l /\ forall b, b ∈ l -> 0 <= b < bits s /\ block_used s b = false.

Lemma length_without (l : list Z) a : NoDup l -> (length l <= S (length (filter (fun b => b <> a) l)))%nat.
Proof using.
  clear HN. induction 1 as [|x l Hx Hnd IH]; simpl; [lia|]. destruct (decide (x = a)) as [->|Hne].
  - rewrite filter_cons_False by naive_solver. apply le_n_S. assert (E : filter (fun b => b <> a) l = l); [|by rewrite E].
    clear - Hx. induction l as [|y l IH]; [done|]. apply not_elem_of_cons in Hx as [H1 H2]. rewrite filter_cons_True by done. by rewrite IH.
  - rewrite filter_cons_True by done. simpl. lia.
Qed.

Lemma stock_rest s s' l a :
  stock s l -> bits s' = bits s -> (forall b, 0 <= b < bits s -> b <> a -> block_used s' b = block_used s b) ->
  stock s' (filter (fun b => b <> a) l) /\ (length l <= S (length (filter (fun b => b <> a) l)))%nat.
Proof using.
  clear HN. intros [Hnd Hl] Eb Hu. split; [|by apply length_without]. split; [by apply NoDup_filter|]. intros b [Hne Hb]%list_elem_of_filter.
  destruct (Hl b Hb) as [H1 H2]. rewrite Eb, Hu by done. done.
Qed.

(** bmap alone is a write of nothing. *)
Lemma took_wrote s t ip bn a s1 ip1 off :
  growing s t ip bn -> 0 <= bn < NDIRECT -> took s ip bn a s1 ip1 -> wrote s ip off [] s1 ip1.
Proof using HN.
  intros G Hbn T. pose proof (tk_addr _ _ _ _ _ _ T) as K3. pose proof (tk_used _ _ _ _ _ _ T) as K7. split; simpl.
  - destruct (tk_inode _ _ _ _ _ _ T) as [-> | ->]; [by destruct ip|done].
  - apply T.
  - intros b Hb Hnz. rewrite K3 by done. destruct (Z.eqb_spec b bn) as [->|]; [by apply T|done].
  - intros b Hb Hne. rewrite K3 in * by done. destruct (Z.eqb_spec b bn) as [->|]; [|done].
    destruct (decide (addr ip bn = 0)) as [Hz|Hz]; [|by rewrite (tk_old _ _ _ _ _ _ T Hz) in Hne]. destruct (tk_new _ _ _ _ _ _ T Hz) as [H1 H2].
    split_and!; [lia|lia|lia|done|]. by rewrite K7, Z.eqb_refl by done.
  - intros b Hb Hub. rewrite K7, Hub by done. by rewrite orb_true_r.
  - intros b Hb Hub Hub'. rewrite K7, Hub, orb_false_r in Hub' by done. apply Z.eqb_eq in Hub' as ->. split; [apply T|]. exists bn.
    rewrite K3, Z.eqb_refl by lia. split_and!; [lia| |done]. destruct (decide (addr ip bn = 0)) as [|Hz]; [done|].
    exfalso. destruct (gw_block _ _ _ _ G bn Hbn Hz) as (_ & U & _). rewrite <-(tk_old _ _ _ _ _ _ T Hz) in U. rewrite U in Hub by lia. done.
  - intros b _ [H _]. lia.
  - intros k Hk Hor. destruct (Z.leb_spec off k), (Z.ltb_spec k (off + Z.of_nat 0)); cbn [andb]; try lia.
    all: assert (Hnz : addr ip (k / BSIZE) <> 0) by (destruct Hor; [lia|done]); unfold dbyte.
    all: assert (Hr : 0 <= k / BSIZE < NDIRECT) by (clear - Hk; unfold BSIZE, NDIRECT in *; Z.div_mod_to_equations; lia).
    all: destruct (gw_block _ _ _ _ G _ Hr Hnz) as ((Q1 & _ & _ & _ & Q5 & _) & _); rewrite K3 by lia.
    all: replace (if k / BSIZE =? bn then a else addr ip (k / BSIZE)) with (addr ip (k / BSIZE))
      by (destruct (Z.eqb_spec (k / BSIZE) bn) as [E|]; [rewrite (tk_old _ _ _ _ _ _ T); rewrite <-E; done|done]).
    all: by rewrite (tk_view _ _ _ _ _ _ T).
  - intros x Hx Hb _. by apply (tk_view _ _ _ _ _ _ T).
Qed.

(** *** The file as it was *)

Section keeps.
Context (s0 : fs_st) (t0 : txn) (ip0 : inode) (off0 : Z).
Context (G0 : growing s0 t0 ip0 (off0 / BSIZE)) (Hoff0 : 0 <= i_size ip0 <= off0) (Hmax0 : off0 <= BSIZE * NDIRECT).
Context (Hall : forall bn, 0 <= bn -> BSIZE * bn < i_size ip0 -> addr ip0 bn <> 0).

(** Sectors in which the inode and the bytes up to its size are those of the
    file [ip0] of [s0]. *)
Definition keeps (v : Z -> block) : Prop :=
  v (IBLOCK (i_inum ip0)) = view s0 ROOTDEV (IBLOCK (i_inum ip0)) /\
  forall k, 0 <= k < i_size ip0 -> default 0 (v (addr ip0 (k / BSIZE)) !! Z.to_nat (k mod BSIZE)) = dbyte s0 ip0 k /\
    length (v (addr ip0 (k / BSIZE))) = 512%nat.

Lemma old_block k : 0 <= k < i_size ip0 -> 0 <= k / BSIZE < NDIRECT /\ addr ip0 (k / BSIZE) <> 0.
Proof using All.
  intros Hk. split; [|apply Hall]; unfold BSIZE, NDIRECT in *; Z.div_mod_to_equations; lia.
Qed.

Lemma old_outside k : 0 <= k < i_size ip0 -> outside_journal N (addr ip0 (k / BSIZE)).
Proof using All. intros Hk. destruct (old_block k Hk) as [H1 H2]. apply (gw_block _ _ _ _ G0 _ H1 H2). Qed.

Lemma keeps_respects : respects N keeps.
Proof using All.
  intros v v' E [H1 H2]. split.
  - rewrite <-E; [done|]. apply (gw_inode _ _ _ _ G0).
  - intros k Hk. rewrite <-E by (by apply old_outside). by apply H2.
Qed.

(** A state reached by writing from [off0] on shows it, *)
Lemma keeps_view s t ip bn pre : growing s t ip bn -> wrote s0 ip0 off0 pre s ip -> keeps (view s ROOTDEV).
Proof using All.
  intros G W. split.
  - destruct (gw_inode _ _ _ _ G0) as (_ & J2 & _ & J4 & _). apply (wr_frame _ _ _ _ _ _ W); [done|done|].
    intros k Hk Hto E. destruct (gw_block _ _ _ _ G k Hk (wr_there _ _ _ _ _ _ W k Hk Hto)) as ((_ & _ & _ & P4 & _) & _).
    assert (Enum : i_inum ip = i_inum ip0) by (by rewrite (wr_inode _ _ _ _ _ _ W)). rewrite Enum in P4. done.
  - intros k Hk. destruct (old_block k Hk) as [H1 H2]. pose proof (wr_byte _ _ _ _ _ _ W k) as Hb.
    pose proof (wr_keep _ _ _ _ _ _ W (k / BSIZE) ltac:(lia) H2) as Ea. unfold dbyte in Hb at 1. rewrite Ea in Hb. split.
    + rewrite Hb; [|lia|by right]. destruct (Z.leb_spec off0 k); [lia|done].
    + rewrite <-Ea. by apply (gw_block _ _ _ _ G (k / BSIZE) H1); rewrite Ea.
Qed.

(** and right after a commit so does its disk. *)
Lemma keeps_disk s ip bn pre : growing s [] ip bn -> wrote s0 ip0 off0 pre s ip -> keeps (dread (h_image (bdisk (fb s))) ROOTDEV).
Proof using All.
  intros G W. destruct (keeps_view s [] ip bn pre G W) as [H1 H2]. pose proof (gw_ready _ _ _ _ G) as Ha.
  assert (Hd : forall x, outside_journal N x -> unheld s ROOTDEV x -> dread (h_image (bdisk (fb s))) ROOTDEV x = view s ROOTDEV x).
  { intros x Hx Hu. symmetry. apply view_disk; [apply Ha|done|apply Hx]. }
  assert (Enum : i_inum ip = i_inum ip0) by (by rewrite (wr_inode _ _ _ _ _ _ W)). destruct (gw_inode _ _ _ _ G) as (J1 & J2 & _). rewrite Enum in *.
  split; [by rewrite Hd|]. intros k Hk. destruct (old_block k Hk) as [K1 K2]. pose proof (wr_keep _ _ _ _ _ _ W (k / BSIZE) ltac:(lia) K2) as Ea.
  rewrite Hd; [by apply H2|by apply old_outside|]. rewrite <-Ea.
  destruct (gw_block _ _ _ _ G (k / BSIZE) K1) as (_ & _ & [?|[_ []%not_elem_of_nil]]); [by rewrite Ea|done].
Qed.
End keeps.

(** ** The loop *)

(** The crash behaviour of a piece of a write that started at [off0] from
    [s0]: if the file did not reach [off0], every disk on the way stands for
    the file as it was. *)
Definition crash_keeps (s0 : fs_st) (t0 : txn) (ip0 : inode) (off0 : Z) (s s' : fs_st) : Prop :=
  growing s0 t0 ip0 (off0 / BSIZE) -> 0 <= i_size ip0 <= off0 -> (forall bn, 0 <= bn -> BSIZE * bn < i_size ip0 -> addr ip0 bn <> 0) ->
  1 <= Z.of_nat N < 2 ^ 26 -> keeps s0 ip0 (dread (h_image (bdisk (fb s))) ROOTDEV) ->
  survives N (keeps s0 ip0) (bdisk (fb s)) (bdisk (fb s')) /\ keeps s0 ip0 (dread (h_image (bdisk (fb s'))) ROOTDEV).

Lemma crash_keeps_trans s0 t0 ip0 off0 a b c :
  crash_keeps s0 t0 ip0 off0 a b -> crash_keeps s0 t0 ip0 off0 b c -> crash_keeps s0 t0 ip0 off0 a c.
Proof using.
  intros H1 H2 G Hs Ha HNb K. destruct (H1 G Hs Ha HNb K) as [S1 K1]. destruct (H2 G Hs Ha HNb K1) as [S2 K2].
  split; [by eapply survives_trans|done].
Qed.

(** A turn of the loop. *)
Lemma turn_keeps s0 t0 ip0 off0 pre s t ip bn a s1 t1 ip1 s' :
  0 <= off0 -> off0 + Z.of_nat (length pre) <= BSIZE * NDIRECT ->
  wrote s0 ip0 off0 pre s ip -> growing s t ip bn -> 0 <= bn < NDIRECT -> growing s1 t1 ip1 bn -> took s ip bn a s1 ip1 -> t1 = [] \/ s1 = s ->
  bdisk (fb s') = bdisk (fb s1) -> crash_keeps s0 t0 ip0 off0 s s'.
Proof using HN.
  intros Ho Hmax W G Hbn G1 T Hmid Hd G0 Hs Ha HNb K. rewrite Hd.
  assert (K1 : keeps s0 ip0 (dread (h_image (bdisk (fb s1))) ROOTDEV)).
  { destruct Hmid as [-> | ->]; [|done]. apply (keeps_disk s0 t0 ip0 off0 G0 Hs) with (ip := ip1) (bn := bn) (pre := pre ++ []); [lia|done|done|].
    apply (wrote_app s0 ip0 off0 pre s ip); [lia|rewrite app_nil_r; lia|done|]. by eapply took_wrote. }
  split; [|done]. apply (tk_crash _ _ _ _ _ _ T); [done| |done|done]. apply (keeps_respects s0 t0 ip0 off0 G0 Hs); [lia|done].
Qed.

Lemma writei_loop_grow s0 t0 ip0 off0 fuel : forall pre s t ip src off l,
  let n := Z.of_nat (length src) in
  wrote s0 ip0 off0 pre s ip -> 0 <= off0 -> off = off0 + Z.of_nat (length pre) ->
  growing s t ip (off / BSIZE) -> 0 < n -> off + n <= BSIZE * NDIRECT ->
  n / BSIZE + 2 <= Z.of_nat fuel \/ (0 < Z.of_nat fuel /\ off mod BSIZE = 0 /\ n / BSIZE + 1 <= Z.of_nat fuel) ->
  stock s l -> (length (range_blocks off n) <= length l)%nat ->
  exists s' t' ip' bn, writei_loop fuel i src off n s = Ret (off + n) s' /\ growing s' t' ip' bn /\ wrote s0 ip0 off0 (pre ++ src) s' ip' /\
    crash_keeps s0 t0 ip0 off0 s s' /\ (exists l', stock s' l' /\ (length l <= length l' + length (range_blocks off n))%nat).
Proof using HN.
  induction fuel as [|fuel IH]; intros pre s t ip src off l n W0 Ho0 Eoff0 G Hn Hmax Hf Hst Hl.
  { exfalso. unfold BSIZE in *. pose proof (Z.div_pos n 512). lia. }
  assert (Ho : 0 <= off) by lia. set (m := Z.min n (BSIZE - off mod BSIZE)).
  assert (Hm : 0 < m <= BSIZE - off mod BSIZE) by (pose proof (Z.mod_pos_bound off BSIZE); unfold m, BSIZE in *; lia).
  set (src' := drop (Z.to_nat m) src). assert (Hn' : n - m = Z.of_nat (length src')) by (unfold src'; rewrite length_drop; lia).
  assert (Hbns : range_blocks off n = off / BSIZE :: range_blocks (off + m) (n - m)) by (unfold m; by apply range_blocks_step).
  rewrite Hbns in *. cbn [length] in *. assert (Hbn : 0 <= off / BSIZE < NDIRECT) by (unfold BSIZE, NDIRECT in *; Z.div_mod_to_equations; lia).
  destruct (grow_turn s t ip src off G Ho Hn) as (s1 & t1 & ip1 & G1 & W1 & (a & sm & tm & Gm & Tm & Hmid & Hdm & Hu) & K); [lia| |].
  { intros _. destruct l as [|b l]; [simpl in Hl; lia|]. exists b. apply Hst. constructor. }
  assert (Ebits : bits s1 = bits s) by (unfold bits; by rewrite (wr_sb _ _ _ _ _ _ W1)). fold n in K, W1. fold m in K, W1. fold src' in K.
  assert (C1 : crash_keeps s0 t0 ip0 off0 s s1) by (eapply turn_keeps; [| |exact W0|exact G|exact Hbn|exact Gm|exact Tm|exact Hmid|exact Hdm]; lia).
  assert (Hlt : Z.of_nat (length (take (Z.to_nat m) src)) = m) by (rewrite length_take; lia).
  assert (W01 : wrote s0 ip0 off0 (pre ++ take (Z.to_nat m) src) s1 ip1).
  { apply (wrote_app s0 ip0 off0 pre s ip); [done|rewrite length_app, Nat2Z.inj_add, Hlt; lia|done|by rewrite <-Eoff0]. }
  destruct (stock_rest s s1 l a Hst Ebits Hu) as [Hst1 Hl1]. destruct (decide (n = m)) as [Enm|Hgt].
  { assert (Hnil : src' = []) by (apply nil_length_inv; lia). exists s1, t1, ip1, (off / BSIZE + 1). split_and!; [|done| |done|eexists; split; [exact Hst1|lia]].
    - unfold n in *. rewrite K, Hnil. replace (Z.of_nat (length src) - m) with 0 by lia. rewrite <-Enm. by destruct fuel.
    - rewrite take_ge in W01 by lia. done. }
  assert (Em : m = BSIZE - off mod BSIZE) by lia.
  assert (Eoff : (off + m) / BSIZE = off / BSIZE + 1) by (unfold BSIZE in *; Z.div_mod_to_equations; lia).
  destruct (IH (pre ++ take (Z.to_nat m) src) s1 t1 ip1 src' (off + m) (filter (fun b => b <> a) l)) as (s2 & t2 & ip2 & bn & E2 & G2 & W2 & C2 & l' & Hst2 & Hl2);
    rewrite <-?Hn', ?Eoff; try done; [rewrite length_app, Nat2Z.inj_add, Hlt; lia|lia|lia| |lia|].
  { right. unfold BSIZE in *. split; [Z.div_mod_to_equations; lia|]. split; Z.div_mod_to_equations; lia. }
  rewrite <-Hn' in Hl2. exists s2, t2, ip2, bn. split_and!; [|done| |by eapply crash_keeps_trans|exists l'; split; [done|lia]].
  - unfold n in K. rewrite K. rewrite <-Hn' in E2. fold n. etrans; [exact E2|]. f_equal. lia.
  - unfold src' in W2. by rewrite <-app_assoc, take_drop in W2.
Qed.

(** ** writei *)

Context (devsw_write : Z -> option (nat -> list Z -> M fs_st Z)).

(** The write has grown the file: the inode is in the transaction with its
    new size and blocks. *)
Lemma writei_grow s t ip src off l :
  let n := Z.of_nat (length src) in
  growing s t ip (off / BSIZE) -> i_type ip <> T_DEV -> 0 <= off -> 0 < n -> i_size ip < off + n -> off + n <= BSIZE * NDIRECT ->
  stock s l -> (length (range_blocks off n) <= length l)%nat ->
  exists s1 t1 ip1 bn s2, growing s1 t1 ip1 bn /\ wrote s ip off src s1 ip1 /\ crash_keeps s t ip off s s1 /\
    writei devsw_write i src off s = Ret n s2 /\ icache s2 = <[i := set_size (off + n) ip1]> (icache s1) /\
    grown (fb s1) (fb s2) [(IBLOCK (i_inum ip), store_dinode (set_size (off + n) ip1) (view s ROOTDEV (IBLOCK (i_inum ip))))] /\
    (exists l', stock s1 l' /\ (length l <= length l' + length (range_blocks off n))%nat).
Proof using HN.
  intros n G Ht Ho Hn Hgrow Hmax Hst Hl.
  destruct (writei_loop_grow s t ip off (Z.to_nat (n / BSIZE + 2)) [] s t ip src off l (wrote_nil s ip off) Ho) as (s1 & t1 & ip1 & bn & E1 & G1 & W & C & Hleft);
    [simpl; lia|done|done|done| |done|done|].
  { left. pose proof (Z.div_pos n BSIZE). unfold BSIZE, n in *. lia. }
  fold n in E1. pose proof (gw_cached _ _ _ _ G1) as Hi1. pose proof (wr_inode _ _ _ _ _ _ W) as Eip.
  assert (Esz : i_size ip1 = i_size ip) by (by rewrite Eip). assert (Enum : i_inum ip1 = i_inum ip) by (by rewrite Eip).
  set (ip2 := set_size (off + n) ip1). set (s1' := set_icache (<[i := ip2]> (icache s1)) s1).
  assert (Hi2 : icache s1' !! i = Some ip2) by (apply list_lookup_insert_eq; by eapply lookup_lt_Some).
  destruct (gw_inode _ _ _ _ G1) as (J1 & J2 & J3 & J4 & J5). rewrite Enum in *. pose proof (gw_len _ _ _ _ G1) as Hlen. change NDIRECT with 12 in Hlen.
  pose proof (gw_cap _ _ _ _ G1) as Hcap. pose proof (gw_ready _ _ _ _ G1) as Ha.
  destruct (iupdate_ret N t1 s1' i ip2 Hi2 (gw_dev _ _ _ _ G1)) as (s2 & E2 & I2 & Gr).
  { apply Ha. } { change (fb s1') with (fb s1). lia. } { change (unheld s1 ROOTDEV (IBLOCK (i_inum ip1))). by rewrite Enum. } { apply Ha. } { lia. }
  change (i_inum ip2) with (i_inum ip1) in Gr. rewrite Enum in Gr. set (ib := IBLOCK (i_inum ip)) in *.
  assert (Hib : view s1' ROOTDEV ib = view s ROOTDEV ib).
  { change (view s1 ROOTDEV ib = view s ROOTDEV ib). destruct (gw_inode _ _ _ _ G) as (_ & J2' & _ & J4' & _). apply (wr_frame _ _ _ _ _ _ W); [done|done|].
    intros k Hk Hto E. destruct (gw_block _ _ _ _ G1 k Hk (wr_there _ _ _ _ _ _ W k Hk Hto)) as ((_ & _ & _ & P4 & _) & _). rewrite Enum in P4. done. }
  rewrite Hib in Gr. exists s1, t1, ip1, bn, s2. do 3 (split; [done|]). split; [|split; [exact I2|split; [exact Gr|exact Hleft]]].
  unfold writei. rewrite (bind_ret _ _ _ _ _ (geti_ret _ _ _ (gw_cached _ _ _ _ G))). destruct (Z.eqb_spec (i_type ip) T_DEV); [done|]. fold n.
  change (BSIZE * NDIRECT) with 6144 in Hmax. rewrite (u32_small (off + n)) by (unfold u32_mod; lia). destruct (Z.ltb_spec (off + n) off); [lia|].
  change (MAXFILE * BSIZE) with 8394752. destruct (Z.ltb_spec 8394752 (off + n)); [lia|].
  rewrite (bind_ret _ _ _ _ _ E1), (bind_ret _ _ _ _ _ (geti_ret _ _ _ Hi1)), Esz.
  destruct (Z.ltb_spec 0 n); [|lia]. destruct (Z.ltb_spec (i_size ip) (off + n)); [|lia]. cbn [andb].
  rewrite (bind_ret _ _ s1 tt s2); [by rewrite s32_small by lia|]. by rewrite (bind_ret _ _ _ _ _ (updi_ret i _ _ _ Hi1)).
Qed.
End grow.
