(* ===== verification/FsAppend.v ===== *)
(** * Appending to a file across a crash

    A write at the end of a file takes a transaction for each block it
    allocates and one for the inode, and yet a crash leaves the file as it
    was or as it was to become: nothing of it is seen before the inode. *)

From S2P Require Import Prelude CString Layout Ide Bio Cache Journal Recover Crash Reboot Txn Commit History.
From S2P Require Import Fs FsInode FsRead FsPath FsWrite FsCrash FsAlloc FsGrow.

(** ** A file in the sectors of a disk *)

(** The sectors [v] hold the file [inum], with the bytes [data], in direct
    blocks. *)
Definition holds_file (N : nat) (v : Z -> block) (inum : Z) (data : list Z) : Prop :=
  let d := load_dinode (v (IBLOCK inum)) (Inode ROOTDEV inum 0 0 0 0 0 0 0 []) in
  outside_journal N (IBLOCK inum) /\ i_type d <> 0 /\ i_type d <> T_DEV /\ i_size d = Z.of_nat (length data) /\
  Z.of_nat (length data) <= BSIZE * NDIRECT /\
  forall k, 0 <= k < Z.of_nat (length data) -> let a := addr d (k / BSIZE) in
    a <> 0 /\ outside_journal N a /\ length (v a) = 512%nat /\ data !! Z.to_nat k = Some (default 0 (v a !! Z.to_nat (k mod BSIZE))).

Lemma rest_shows N k b ic : at_rest N k b -> shows N (h_image (bdisk b)) (FsSt b ic).
Proof.
  intros [Hc _ _ Hu _]. split; [done|exact Hu|]. intros x Hx. apply (view_disk (FsSt b ic)); [done|by apply Hu|apply Hx].
Qed.

Section file.
Context (N : nat) (d : image) (v : Z -> block) (inum : Z) (data : list Z).
Context (Hv : forall x, outside_journal N x -> dread d ROOTDEV x = v x) (Hf : holds_file N v inum data).
Let len := Z.of_nat (length data).

(** The inode, loaded by a kernel that shows the disk. *)
Lemma file_inode s i ip :
  shows N d s -> loaded s i inum ip ->
  i_dev ip = ROOTDEV /\ i_type ip <> 0 /\ i_type ip <> T_DEV /\ i_size ip = len /\
  i_addrs ip = i_addrs (load_dinode (v (IBLOCK inum)) (Inode ROOTDEV inum 0 0 0 0 0 0 0 [])).
Proof using Hv Hf.
  intros Hs (_ & Hd & Hi & El). destruct Hf as (Ho & Ht & Ht' & Hsz & _). rewrite (sh_view _ _ _ Hs _ Ho), (Hv _ Ho) in El.
  split; [done|]. rewrite El. unfold load_dinode in *. rewrite Hi. done.
Qed.

Lemma file_readable s i ip k :
  shows N d s -> loaded s i inum ip -> 0 <= k < len -> readable s ip (k / BSIZE) /\ data !! Z.to_nat k = Some (file_byte s ip k).
Proof using Hv Hf.
  intros Hs Hl Hk. destruct (file_inode s i ip Hs Hl) as (Hd & _ & _ & _ & Ea). destruct Hf as (_ & _ & _ & _ & Hmax & Hb).
  destruct (Hb k Hk) as (Hnz & Ho & Hlen & Hdata). set (dn := load_dinode _ _) in *.
  assert (Eaddr : addr ip (k / BSIZE) = addr dn (k / BSIZE)) by (unfold addr; by rewrite Ea). rewrite <-Eaddr in *.
  assert (Hr : 0 <= k / BSIZE < NDIRECT) by (unfold len in *; clear - Hk Hmax; unfold BSIZE, NDIRECT in *; Z.div_mod_to_equations; lia).
  assert (Hview : view s ROOTDEV (addr ip (k / BSIZE)) = v (addr ip (k / BSIZE))) by (by rewrite (sh_view _ _ _ Hs), Hv).
  split.
  - unfold readable, walk. rewrite Hd. destruct (Z.ltb_spec (k / BSIZE) NDIRECT); [|lia]. cbn [fst snd]. fold (addr ip (k / BSIZE)).
    split; [change MAXFILE with 16396; change NDIRECT with 12 in *; lia|]. split; [by apply Forall_nil|]. exists (addr ip (k / BSIZE)).
    unfold nz. destruct (Z.eqb_spec (addr ip (k / BSIZE)) 0); [done|]. split; [done|]. split; [by apply (sh_free _ _ _ Hs)|by rewrite Hview].
  - rewrite Hdata. unfold file_byte. by rewrite (file_block_direct s ip (k / BSIZE) Hd Hr Hnz), Hview.
Qed.
End file.

(** Reading it on the kernel that boots from the disk. *)
Lemma holds_file_on N k b v inum data :
  at_rest N k b -> (forall x, outside_journal N x -> dread (h_image (bdisk b)) ROOTDEV x = v x) -> holds_file N v inum data ->
  file_on b inum data.
Proof.
  intros Hr Hv Hf devsw ic o m Hl Hrefs len Ho Hm Hw. pose proof (ar_calm _ _ _ Hr) as Hc. pose proof (rest_shows N k b ic Hr) as Hs0.
  pose proof Hf as (Oib & Ht & _ & _ & Hmax & _). change (BSIZE * NDIRECT) with 6144 in Hmax.
  destruct (iget_quiet None (FsSt b ic) inum (fresh_quiet b ic Hc Hrefs) (fresh_idle ic Hl Hrefs)) as (i & s1 & E1 & F1 & Q1 & A1 & _); [done|].
  assert (Hs1 : shows N (h_image (bdisk b)) s1) by (eapply shows_same; [exact Hs0|rewrite F1; done|rewrite F1; apply same_view_refl]).
  assert (Hd1 : i_type (dnode s1 inum) <> 0) by (unfold dnode; by rewrite (sh_view _ _ _ Hs1 _ Oib), (Hv _ Oib)).
  destruct (ilock_ret s1 i inum Q1 A1) as (s2 & jp & ip & E2 & _ & _ & _ & Q2 & V2 & L2); [by apply (sh_free _ _ _ Hs1)|done|].
  assert (Hs2 : shows N (h_image (bdisk b)) s2) by (by eapply shows_same; [exact Hs1|apply Q2|]). apply locked_loaded in L2.
  destruct (file_inode N _ v inum data Hv Hf s2 i ip Hs2 L2) as (Hd & _ & Htd & Hsz & _). fold len in Hsz.
  pose proof (fun k => file_readable N _ v inum data Hv Hf s2 i ip k Hs2 L2) as Hk. fold len in Hk.
  destruct (readi_file devsw s2 i ip o m) as (s3 & E3 & _); rewrite ?Hsz; try done.
  - apply L2.
  - apply Q2.
  - unfold u32_mod. lia.
  - intros bn Hbn. assert (Hx : exists x, 0 <= x < len /\ x / BSIZE = bn).
    { unfold BSIZE in *. destruct (decide (0 < Z.min m (len - o))) as [Hp|Hp]; [exists (Z.max (512 * bn) o)|exists (o - 1)]; clear - Hbn Ho Hm Hp; Z.div_mod_to_equations; lia. }
    destruct Hx as (x & Hx & <-). by apply Hk.
  - exists s3. rewrite (bind_ret _ _ _ _ _ E1), (bind_ret _ _ _ _ _ E2), E3, Hsz. rewrite s32_small by lia. do 2 f_equal. apply list_eq. intros j.
    rewrite file_bytes_lookup. unfold slice. case_decide as Hj; [|by rewrite lookup_take_ge by lia].
    rewrite lookup_take_lt, lookup_drop by lia. destruct (Hk (o + Z.of_nat j)) as [_ Hb]; [lia|]. rewrite <-Hb. f_equal. lia.
Qed.

(** It depends on the inode and the blocks the inode names. *)
Lemma holds_file_ext N v v' inum data :
  v' (IBLOCK inum) = v (IBLOCK inum) ->
  (forall k, 0 <= k < Z.of_nat (length data) ->
     let a := addr (load_dinode (v (IBLOCK inum)) (Inode ROOTDEV inum 0 0 0 0 0 0 0 [])) (k / BSIZE) in v' a = v a) ->
  holds_file N v inum data -> holds_file N v' inum data.
Proof.
  intros E1 E2 (H1 & H2 & H3 & H4 & H5 & H6). unfold holds_file. rewrite E1. split_and!; [apply H1..|done|done|done|done|].
  intros k Hk. rewrite (E2 k Hk). by apply H6.
Qed.

Lemma holds_file_unique N v inum a b : holds_file N v inum a -> holds_file N v inum b -> a = b.
Proof.
  intros (_ & _ & _ & A4 & _ & A6) (_ & _ & _ & B4 & _ & B6). assert (El : length a = length b) by lia.
  apply list_eq. intros k. destruct (decide (k < length a)%nat) as [Hk|Hk]; [|by rewrite !lookup_ge_None_2 by lia].
  destruct (A6 (Z.of_nat k)) as (_ & _ & _ & A); [lia|]. destruct (B6 (Z.of_nat k)) as (_ & _ & _ & B); [lia|].
  rewrite Nat2Z.id in A, B. by rewrite A, B.
Qed.

(** ** Appending *)

Section append.
Context (N i : nat).
Context (HN : (16 <= N)%nat) (HNb : Z.of_nat N < 2 ^ 26).

(** A file between transactions that may be extended: its blocks up to the
    size are there, and its inode is as on the disk. *)
Record append_ready (s : fs_st) (ip : inode) : Prop := {
  ap_growing : growing N i s [] ip (i_size ip / BSIZE);
  ap_size : 0 <= i_size ip;
  ap_blocks bn : 0 <= bn -> BSIZE * bn < i_size ip -> addr ip bn <> 0;
  ap_type : i_type ip <> 0 /\ i_type ip <> T_DEV;
  ap_fields : storable ip;
  ap_synced : ip = load_dinode (view s ROOTDEV (IBLOCK (i_inum ip))) ip }.

Lemma ap_max s ip : append_ready s ip -> i_size ip < BSIZE * (NDIRECT + 1).
Proof. intros [G H0 _ _ _ _]. pose proof (gw_len _ _ _ _ _ _ G). unfold BSIZE, NDIRECT in *. Z.div_mod_to_equations. lia. Qed.

(** The number a kernel gets from the inode block. *)
Lemma dnode_fields (d : block) (ip : inode) :
  i_dev ip = ROOTDEV -> ip = load_dinode d ip ->
  let dn := load_dinode d (Inode ROOTDEV (i_inum ip) 0 0 0 0 0 0 0 []) in
  i_type dn = i_type ip /\ i_size dn = i_size ip /\ i_addrs dn = i_addrs ip.
Proof. intros Hd E. cbv zeta. rewrite E. done. Qed.

Lemma contents_byte s ip k :
  i_dev ip = ROOTDEV -> 0 <= k < i_size ip -> 0 <= k / BSIZE < NDIRECT -> addr ip (k / BSIZE) <> 0 -> contents s ip !! Z.to_nat k = Some (dbyte s ip k).
Proof.
  intros Hd Hk Hr Hnz. rewrite contents_lookup by done. f_equal. unfold file_byte, dbyte. by rewrite (file_block_direct s ip _ Hd Hr Hnz).
Qed.

(** The file before the write. *)
Lemma old_file s ip v :
  append_ready s ip -> i_size ip <= BSIZE * NDIRECT -> keeps s ip v -> holds_file N v (i_inum ip) (contents s ip).
Proof.
  clear HN HNb. intros [G H0 Hb [T1 T2] _ Sy] Hmax [K1 K2]. pose proof (gw_dev _ _ _ _ _ _ G) as Hd. destruct (gw_inode _ _ _ _ _ _ G) as (_ & Oi & _).
  unfold holds_file. rewrite K1. destruct (dnode_fields _ ip Hd Sy) as (-> & -> & Ea). set (dn := load_dinode _ (Inode _ _ _ _ _ _ _ _ _ _)) in *.
  assert (Eaddr : forall bn, addr dn bn = addr ip bn) by (intros; unfold addr; by rewrite Ea).
  rewrite length_file_contents, Z2Nat.id by done. split_and!; try done; [apply Oi..|]. intros k Hk. rewrite Eaddr.
  assert (Hr : 0 <= k / BSIZE < NDIRECT) by (clear - Hk Hmax; unfold BSIZE, NDIRECT in *; Z.div_mod_to_equations; lia).
  assert (Hnz : addr ip (k / BSIZE) <> 0) by (apply Hb; unfold BSIZE in *; Z.div_mod_to_equations; lia).
  destruct (gw_block _ _ _ _ _ _ G _ Hr Hnz) as ((P1 & _) & _). destruct (K2 k Hk) as [B1 B2].
  split_and!; [done|apply P1..|done|]. rewrite B1. by apply contents_byte.
Qed.

Lemma keeps_self s ip : append_ready s ip -> i_size ip <= BSIZE * NDIRECT -> keeps s ip (view s ROOTDEV).
Proof.
  intros A Hmax. split; [done|]. intros k Hk. split; [done|].
  assert (Hr : 0 <= k / BSIZE < NDIRECT) by (clear - Hk Hmax; unfold BSIZE, NDIRECT in *; Z.div_mod_to_equations; lia).
  assert (Hnz : addr ip (k / BSIZE) <> 0) by (apply (ap_blocks _ _ A); unfold BSIZE in *; Z.div_mod_to_equations; lia).
  by apply (gw_block _ _ _ _ _ _ (ap_growing _ _ A) _ Hr Hnz).
Qed.

Section after.
Context (s s1 s2 s3 : fs_st) (ip ip1 : inode) (t1 : txn) (bn : Z) (src : list Z).
Let n := Z.of_nat (length src).
Let size := i_size ip + n.
Let ib := IBLOCK (i_inum ip).
Let ip3 := set_size size ip1.
Let dn := store_dinode ip3 (view s ROOTDEV ib).
Let t2 := ((ib, dn) :: t1) : txn.
Context (A : append_ready s ip) (Hn : 0 < n) (Hmax : size <= BSIZE * NDIRECT).
Context (G1 : growing N i s1 t1 ip1 bn) (W : wrote N s ip (i_size ip) src s1 ip1).
Context (Gr : grown (fb s1) (fb s2) [(ib, dn)]) (C : commits N t2 (fb s2) (fb s3)) (I3 : icache s3 = <[i := ip3]> (icache s1)).

Lemma app_inode : i_dev ip3 = ROOTDEV /\ i_inum ip3 = i_inum ip /\ i_type ip3 = i_type ip /\ i_size ip3 = size /\ length (i_addrs ip3) = 13%nat.
Proof using All.
  pose proof (gw_addrs _ _ _ _ _ _ G1) as Ha. pose proof (gw_dev _ _ _ _ _ _ G1) as Hd. pose proof (wr_inode _ _ _ _ _ _ _ W) as E. unfold ip3.
  split_and!; [done|by rewrite E|by rewrite E|done|done].
Qed.

(** The sectors of the file are on the disk and unlocked. *)
Lemma app_unheld x : outside_journal N x -> unheld s1 ROOTDEV x \/ x = ib \/ x ∈ t1.*1 -> unheld s3 ROOTDEV x.
Proof using All.
  intros Hx Hor Hh. destruct (cm_held _ _ _ _ C x Hx Hh) as [H2 H3]. apply not_elem_of_cons in H3 as [H3 H4]. simpl in H3.
  destruct (gr_held _ _ _ Gr x H2) as [H1|H1%list_elem_of_singleton]; [|done]. destruct Hor as [H|[H|H]]; [by apply H|done|done].
Qed.

Lemma app_view x : outside_journal N x -> view s3 ROOTDEV x = if decide (x = ib) then dn else view s1 ROOTDEV x.
Proof using All.
  intros Hx. unfold view at 1. rewrite (cm_view _ _ _ _ C x Hx), (gr_view _ _ _ Gr). unfold tx_view. rewrite tx_map_cons.
  case_decide as E; [by rewrite E, lookup_insert_eq|by rewrite lookup_insert_ne].
Qed.

(** A block of the extended file. *)
Lemma app_block k : 0 <= k < NDIRECT -> addr ip3 k <> 0 ->
  plain N s1 (i_inum ip) (addr ip3 k) /\ unheld s3 ROOTDEV (addr ip3 k) /\ view s3 ROOTDEV (addr ip3 k) = view s1 ROOTDEV (addr ip3 k).
Proof using All.
  intros Hk Hnz. destruct (gw_block _ _ _ _ _ _ G1 k Hk Hnz) as (P & _ & Hu). assert (Enum : i_inum ip1 = i_inum ip) by (by rewrite (wr_inode _ _ _ _ _ _ _ W)).
  rewrite Enum in P. split; [done|]. change (addr ip3 k) with (addr ip1 k). pose proof P as (P1 & _ & _ & P4 & _).
  split; [apply app_unheld; [done|tauto]|]. rewrite app_view by done. by rewrite decide_False.
Qed.

Lemma app_storable : storable ip3.
Proof using All.
  destruct (ap_fields _ _ A) as (F1 & F2 & F3 & F4). pose proof (wr_inode _ _ _ _ _ _ _ W) as E. change (BSIZE * NDIRECT) with 6144 in Hmax. pose proof (ap_size _ _ A).
  unfold storable, ip3, set_size. cbn [i_type i_major i_minor i_nlink i_size i_addrs]. split_and!.
  - rewrite E. exact F1.
  - unfold size in *. lia.
  - unfold size, u32_mod in *. lia.
  - apply G1.
  - apply Forall_lookup. intros k a Hk. simpl in Hk. pose proof (lookup_lt_Some _ _ _ Hk) as Hlt. rewrite (gw_addrs _ _ _ _ _ _ G1) in Hlt.
    assert (Ea : addr ip1 (Z.of_nat k) = a) by (unfold addr; by rewrite Nat2Z.id, Hk).
    destruct (decide (addr ip1 (Z.of_nat k) = addr ip (Z.of_nat k))) as [E1|E1].
    + rewrite <-Ea, E1. unfold addr. rewrite Nat2Z.id. destruct (i_addrs ip !! k) as [x|] eqn:Ex; [|unfold u32_mod; simpl; lia].
      rewrite Forall_lookup in F4. by apply (F4 k).
    + destruct (wr_new _ _ _ _ _ _ _ W (Z.of_nat k)) as (H1 & H2 & _); [lia|done|]. destruct (decide (a = 0)) as [->|Hnz]; [unfold u32_mod; lia|].
      destruct (gw_block _ _ _ _ _ _ G1 (Z.of_nat k)) as (((H3 & _) & _) & _); [lia|by rewrite Ea|]. rewrite Ea in H3. unfold u32_mod. lia.
Qed.

Lemma app_loaded : view s3 ROOTDEV ib = dn /\ ip3 = load_dinode dn ip3.
Proof using All.
  destruct (gw_inode _ _ _ _ _ _ (ap_growing _ _ A)) as (_ & O & _ & _ & B). destruct app_inode as (_ & En & _).
  split; [rewrite app_view by done; by rewrite decide_True|].
  destruct (dinode_roundtrip ip3 ip3 (view s ROOTDEV ib)) as [H _]; [done|apply app_storable|]. destruct (H eq_refl) as (H1 & H2 & H3 & H4 & H5 & H6).
  fold dn in H1, H2, H3, H4, H5, H6. unfold load_dinode in *. cbn [i_type i_major i_minor i_nlink i_size i_addrs] in *.
  rewrite H1, H2, H3, H4, H5, H6. by destruct ip3.
Qed.

(** The file after the write. *)
Lemma new_file : holds_file N (view s3 ROOTDEV) (i_inum ip) (contents s ip ++ src).
Proof using All.
  destruct (gw_inode _ _ _ _ _ _ (ap_growing _ _ A)) as (_ & O & _). pose proof (ap_size _ _ A) as H0. destruct app_inode as (I1 & I2 & I4 & I5 & _).
  destruct app_loaded as [V L]. destruct (dnode_fields dn ip3 I1 L) as (D1 & D2 & D3). rewrite I2 in *. destruct (ap_type _ _ A) as [T1 T2].
  unfold holds_file. fold ib. rewrite V. set (d := load_dinode dn (Inode _ _ _ _ _ _ _ _ _ _)) in *.
  assert (Ea : forall bn, addr d bn = addr ip1 bn) by (intros; unfold addr; by rewrite D3).
  assert (Hl : Z.of_nat (length (contents s ip ++ src)) = size) by (rewrite length_app, length_file_contents; unfold size, n; lia). rewrite Hl.
  split_and!; [apply O..|congruence|congruence|congruence|done|]. intros k Hk. rewrite Ea. change (BSIZE * NDIRECT) with 6144 in Hmax.
  assert (Hr : 0 <= k / BSIZE < NDIRECT) by (clear - Hk Hmax; unfold BSIZE, NDIRECT in *; Z.div_mod_to_equations; lia).
  assert (Hold : k < i_size ip -> addr ip (k / BSIZE) <> 0) by (intros; apply (ap_blocks _ _ A); clear - Hk H; unfold BSIZE in *; Z.div_mod_to_equations; lia).
  assert (Hnz : addr ip1 (k / BSIZE) <> 0).
  { destruct (decide (k < i_size ip)) as [Hlt|Hge]; [rewrite (wr_keep _ _ _ _ _ _ _ W); auto; lia|].
    apply (wr_there _ _ _ _ _ _ _ W); [done|]. unfold touches. fold n. clear - Hge Hk Hn H0. unfold size, BSIZE in *. Z.div_mod_to_equations. lia. }
  destruct (app_block (k / BSIZE) Hr Hnz) as ((P1 & _ & _ & _ & _ & P6) & _ & Hv). change (addr ip3 (k / BSIZE)) with (addr ip1 (k / BSIZE)) in *. rewrite Hv.
  split_and!; [done|apply P1..|done|]. change (default 0 _) with (dbyte s1 ip1 k). unfold size in Hk.
  rewrite (wr_byte _ _ _ _ _ _ _ W); fold n; [|change (BSIZE * NDIRECT) with 6144; unfold size in *; lia|destruct (decide (k < i_size ip)); [right; auto|left; lia]].
  destruct (Z.leb_spec (i_size ip) k), (Z.ltb_spec k (i_size ip + n)); cbn [andb]; try lia.
  - rewrite lookup_app_r by (rewrite length_file_contents; lia). rewrite length_file_contents, nth_lookup, <-Z2Nat.inj_sub by lia.
    destruct (lookup_lt_is_Some_2 src (Z.to_nat (k - i_size ip))) as [x ->]; [unfold n in *; lia|done].
  - rewrite lookup_app_l by (rewrite length_file_contents; lia). apply contents_byte; auto; [apply (ap_growing _ _ A)|lia].
Qed.

Lemma new_file_disk : holds_file N (dread (h_image (bdisk (fb s3))) ROOTDEV) (i_inum ip) (contents s ip ++ src).
Proof using All.
  assert (Hd : forall x, outside_journal N x -> unheld s3 ROOTDEV x -> dread (h_image (bdisk (fb s3))) ROOTDEV x = view s3 ROOTDEV x).
  { intros x Hx Hu. symmetry. apply view_disk; [apply C|done|apply Hx]. }
  destruct (gw_inode _ _ _ _ _ _ (ap_growing _ _ A)) as (_ & O & _). pose proof new_file as Hf. pose proof Hf as (_ & _ & _ & _ & Hm & Hk).
  destruct app_inode as (I1 & I2 & _). destruct app_loaded as [V L]. destruct (dnode_fields dn ip3 I1 L) as (_ & _ & D3). rewrite I2 in *.
  apply (holds_file_ext N (view s3 ROOTDEV)); [|intros k Hkr; destruct (Hk k Hkr) as (Hnz & Ho & _)|done].
  - apply Hd; [done|]. apply app_unheld; [done|auto].
  - cbv zeta in Hnz, Ho |- *. fold ib in Hnz, Ho |- *. rewrite V in Hnz, Ho |- *. set (d := load_dinode dn (Inode _ _ _ _ _ _ _ _ _ _)) in *.
    assert (Ea : addr d (k / BSIZE) = addr ip3 (k / BSIZE)) by (unfold addr; by rewrite D3). rewrite Ea in *. apply Hd; [done|].
    apply app_block; [|done]. clear - Hkr Hm. change (BSIZE * NDIRECT) with 6144 in Hm. unfold BSIZE, NDIRECT in *. Z.div_mod_to_equations. lia.
Qed.

(** The rest of the file system is as it was, so the file may be extended
    again. *)
Lemma app_sb : fs_sb s3 = fs_sb s1.
Proof using All.
  unfold fs_sb. rewrite app_view by (split; lia). rewrite decide_False; [done|]. intros E. by destruct (gw_inode _ _ _ _ _ _ (ap_growing _ _ A)) as (_ & _ & J & _).
Qed.

Lemma app_bitmap b : 0 <= b < bits s3 -> 0 <= b < bits s1 /\ bitmap s3 b = bitmap s1 b /\ outside_journal N (bitmap s1 b) /\
  unheld s3 ROOTDEV (bitmap s1 b) /\ view s3 ROOTDEV (bitmap s1 b) = view s1 ROOTDEV (bitmap s1 b).
Proof using All.
  unfold bits, bitmap. rewrite app_sb. fold (bits s1) (bitmap s1 b). intros Hb. destruct (al_bitmap _ _ _ (gw_ready _ _ _ _ _ _ G1) b Hb) as (B1 & B2 & _).
  destruct (gw_inode _ _ _ _ _ _ G1) as (_ & _ & _ & J & _). assert (Enum : i_inum ip1 = i_inum ip) by (by rewrite (wr_inode _ _ _ _ _ _ _ W)). rewrite Enum in J.
  do 3 (split; [done|]). split; [by apply app_unheld; [|left]|]. rewrite app_view by done. rewrite decide_False; [done|]. by apply J.
Qed.

Lemma app_used b : 0 <= b < bits s3 -> block_used s3 b = block_used s1 b.
Proof using All. intros Hb. destruct (app_bitmap b Hb) as (_ & E & _ & _ & V). unfold block_used. by rewrite E, V. Qed.

Lemma app_stock l : stock s1 l -> stock s3 l.
Proof using All.
  assert (Ebits : bits s3 = bits s1) by (unfold bits; by rewrite app_sb). intros [H1 H2]. split; [done|].
  intros b Hb. destruct (H2 b Hb) as [H3 H4]. rewrite app_used, Ebits by (by rewrite Ebits). done.
Qed.

Lemma app_plain x : plain N s1 (i_inum ip) x -> plain N s3 (i_inum ip) x.
Proof using All.
  intros (H1 & H2 & H3 & H4 & H5 & H6). unfold plain. split_and!; [apply H1..|done|done|done| |].
  - intros b Hb. destruct (app_bitmap b Hb) as (Hb' & -> & _). by apply H5.
  - rewrite app_view by done. by rewrite decide_False.
Qed.

Lemma app_alloc : alloc_ready N [] s3.
Proof using All.
  pose proof (gw_ready _ _ _ _ _ _ G1) as Ha. pose proof (gw_cap _ _ _ _ _ _ G1). pose proof (gr_free _ _ _ Gr). pose proof (cm_free _ _ _ _ C) as Hf. simpl in *.
  split; [apply C|lia|apply C|split_and!; [simpl; lia..|by apply Forall_nil]|apply app_unheld; [split; lia|left; apply Ha]|].
  intros b Hb. destruct (app_bitmap b Hb) as (Hb' & -> & _ & U & ->). destruct (al_bitmap _ _ _ Ha b Hb') as (B1 & B2 & B3 & B4). by split_and!.
Qed.

Lemma app_growing : growing N i s3 [] ip3 (size / BSIZE).
Proof using All.
  assert (Enum : i_inum ip1 = i_inum ip) by (by rewrite (wr_inode _ _ _ _ _ _ _ W)). assert (Ebits : bits s3 = bits s1) by (unfold bits; by rewrite app_sb).
  pose proof (gw_cap _ _ _ _ _ _ G1). pose proof (gr_free _ _ _ Gr). pose proof (cm_free _ _ _ _ C) as Hf. simpl in *.
  split; try apply G1.
  - rewrite I3. apply list_lookup_insert_eq. eapply lookup_lt_Some, G1.
  - apply app_alloc.
  - pose proof (ap_size _ _ A). simpl. unfold size, BSIZE, NDIRECT in *. Z.div_mod_to_equations. lia.
  - simpl. lia.
  - change (i_inum ip3) with (i_inum ip1). rewrite Enum. intros b Hb Hu. rewrite app_used in Hu by done. rewrite Ebits in Hb.
    destruct (gw_free _ _ _ _ _ _ G1 b Hb Hu) as [P U]. rewrite Enum in P. split; [by apply app_plain|]. apply app_unheld; [apply P|by left].
  - change (i_inum ip3) with (i_inum ip1). rewrite Enum. intros k Hk Hnz. destruct (app_block k Hk Hnz) as (P & U & _). pose proof P as ((? & _) & _).
    split; [by apply app_plain|]. split; [|by left]. intros Hlt. rewrite app_used by lia. apply (gw_block _ _ _ _ _ _ G1 k Hk Hnz). by rewrite <-Ebits.
  - change (i_inum ip3) with (i_inum ip1). rewrite Enum. destruct (gw_inode _ _ _ _ _ _ (ap_growing _ _ A)) as (_ & O & J3 & _ & B). fold ib in O, J3, B |- *.
    split; [by apply app_unheld; [|auto]|]. split; [done|]. split; [done|]. split.
    + intros b Hb. destruct (app_bitmap b Hb) as (Hb' & -> & _). destruct (gw_inode _ _ _ _ _ _ G1) as (_ & _ & _ & J & _). rewrite Enum in J. by apply J.
    + rewrite (proj1 app_loaded). apply store_dinode_block; [done|apply G1].
  - apply C.
Qed.

Lemma app_ready : append_ready s3 ip3.
Proof using All.
  destruct app_inode as (I1 & I2 & I4 & I5 & _). pose proof (ap_size _ _ A) as H0. split; rewrite ?I2, ?I4, ?I5.
  - apply app_growing.
  - unfold size. lia.
  - intros k Hk Hlt. change (addr ip3 k) with (addr ip1 k). destruct (decide (BSIZE * k < i_size ip)) as [H|H].
    + pose proof (ap_blocks _ _ A k Hk H). by rewrite (wr_keep _ _ _ _ _ _ _ W).
    + apply (wr_there _ _ _ _ _ _ _ W); unfold touches; fold n; unfold size, BSIZE, NDIRECT in *; lia.
  - apply A.
  - apply app_storable.
  - fold ib. rewrite (proj1 app_loaded). apply app_loaded.
Qed.
End after.

(** *** The last commit *)

Lemma grown_txn s t ip bn : growing N i s t ip bn -> NoDup t.*1.
Proof. intros G. pose proof (gw_ready _ _ _ _ _ _ G) as Ha. apply (open_nodup (fb s) N); apply Ha. Qed.

Lemma app_good s1 t1 ip1 bn d :
  growing N i s1 t1 ip1 bn -> good_txn N ((IBLOCK (i_inum ip1), d) :: t1).
Proof.
  intros G. pose proof (gw_len _ _ _ _ _ _ G) as Hlen. change NDIRECT with 12 in Hlen. pose proof (gw_ready _ _ _ _ _ _ G) as Ha.
  destruct (gw_inode _ _ _ _ _ _ G) as (J1 & J2 & _). destruct (al_room _ _ _ Ha) as (R1 & R2 & R3).
  split_and!; [simpl; lia|simpl; lia|simpl; lia| |by constructor]. apply NoDup_cons. split; [|by eapply grown_txn].
  intros Hx. apply J1. by eapply open_held; [apply Ha|].
Qed.

Section theorem.
Context (devsw_write : Z -> option (nat -> list Z -> M fs_st Z)).

(** The write and the end of its last transaction, as sys_write has them. *)
Definition append_write (src : list Z) (off : Z) : M fs_st Z :=
  let! r := writei devsw_write i src off in bio end_trans ;; bio jfull_flush ;; ret r.

Lemma append_runs s ip src l :
  let n := Z.of_nat (length src) in
  append_ready s ip -> 0 < n -> i_size ip + n <= BSIZE * NDIRECT ->
  stock s l -> (length (range_blocks (i_size ip) n) <= length l)%nat ->
  exists s' ip', append_write src (i_size ip) s = Ret n s' /\ append_ready s' ip' /\ i_inum ip' = i_inum ip /\ contents s' ip' = contents s ip ++ src /\ i_size ip' = i_size ip + n /\
    (exists l', stock s' l' /\ (length l <= length l' + length (range_blocks (i_size ip) n))%nat) /\
    exists ws k, bdisk (fb s') = app_writes ws (bdisk (fb s)) /\ (k <= length ws)%nat /\
      forall c, exists v, stands_for N (replay_writes (take c ws) (h_image (bdisk (fb s)))) v /\
        holds_file N v (i_inum ip) (if decide (c < k)%nat then contents s ip else contents s ip ++ src).
Proof using HN HNb.
  intros n A Hn Hmax Hst Hl. pose proof (ap_growing _ _ A) as G. pose proof (ap_size _ _ A) as H0.
  destruct (writei_grow N i HN devsw_write s [] ip src (i_size ip) l G) as (s1 & t1 & ip1 & bn & s2 & G1 & W & CK & E & I2 & Gr & l' & Hst' & Hl'); try done; [apply A|fold n; lia|].
  fold n in E, I2, Gr. set (ip3 := set_size (i_size ip + n) ip1) in *. set (dn := store_dinode _ _) in Gr.
  assert (Enum : i_inum ip1 = i_inum ip) by (by rewrite (wr_inode _ _ _ _ _ _ _ W)). pose proof (app_good s1 t1 ip1 bn dn G1) as Hg. rewrite Enum in Hg.
  destruct (fs_commit s2 N ((IBLOCK (i_inum ip), dn) :: t1)) as (s3 & I3 & C & _ & K); [apply Gr|apply Gr, G1|done|].
  rewrite I2 in I3. pose proof (app_ready s s1 s2 s3 ip ip1 t1 bn src A Hn Hmax G1 W Gr C I3) as A3.
  assert (Hs3 : i_size ip3 <= BSIZE * NDIRECT) by done.
  exists s3, ip3. split; [unfold append_write; by rewrite (bind_ret _ _ _ _ _ E), K|]. split; [done|]. split; [done|]. split.
  { eapply holds_file_unique; [apply (old_file s3 ip3 _ A3 Hs3), (keeps_self s3 ip3 A3 Hs3)|].
    change (i_inum ip3) with (i_inum ip1). rewrite Enum. apply (new_file s s1 s2 s3 ip ip1 t1 bn src A Hn Hmax G1 W Gr C I3). }
  split; [done|]. split; [exists l'; split; [|done]; by apply (app_stock s s1 s2 s3 ip ip1 t1 bn src A Hn Hmax G1 W Gr C I3)|].
  destruct CK as [(w1 & D1 & Hc1) K1]; [done|lia|apply A|lia| |].
  { apply (keeps_disk N i HN s [] ip (i_size ip) G) with (ip := ip) (bn := i_size ip / BSIZE) (pre := []); [lia|lia|apply A|done|by apply wrote_nil]. }
  destruct (cm_crash _ _ _ _ C) as (w2 & D2 & L2 & Hc2); [lia|rewrite (gr_disk _ _ _ Gr); apply G1|]. rewrite (gr_disk _ _ _ Gr), D1 in D2, Hc2.
  exists (w1 ++ w2), (length w1 + (length t1 + 3))%nat. split; [by rewrite D2, app_writes_app|]. split; [rewrite length_app; simpl in L2; lia|].
  intros c. rewrite replay_take_app. destruct (decide (c < length w1)%nat) as [Hlt|Hge].
  - replace (c - length w1)%nat with 0%nat by lia. rewrite take_0, decide_True by lia. destruct (Hc1 c) as (v & Hv & Hk). exists v. split; [done|]. apply old_file; [done|lia|done].
  - rewrite (take_ge w1), <-app_writes_image by lia. specialize (Hc2 (c - length w1)%nat). simpl length in Hc2.
    destruct (decide (c < length w1 + (length t1 + 3))%nat) as [Hlt|Hge2].
    + rewrite decide_True in Hc2 by lia. eexists. split; [exact Hc2|]. rewrite <-D1. apply old_file; [done|lia|done].
    + rewrite decide_False in Hc2 by lia. exists (dread (h_image (bdisk (fb s3))) ROOTDEV). split.
      * eapply stands_for_ext; [|exact Hc2]. intros x Hx. rewrite (cm_disk _ _ _ _ C x Hx), (gr_disk _ _ _ Gr), D1. done.
      * apply (new_file_disk s s1 s2 s3 ip ip1 t1 bn src A Hn Hmax G1 W Gr C I3).
Qed.

(** ** Any number of appends *)

(** Writes at the end of the file, one after the other. *)
Fixpoint append_all (srcs : list (list Z)) : M fs_st (list Z) :=
  match srcs with
  | [] => ret []
  | src :: srcs =>
      let! ip := geti i in
      let! r := append_write src (i_size ip) in
      let! rs := append_all srcs in
      ret (r :: rs)
  end.

(** The blocks they may take. *)
Fixpoint blocks_needed (off : Z) (srcs : list (list Z)) : nat :=
  match srcs with
  | [] => 0
  | src :: srcs => length (range_blocks off (Z.of_nat (length src))) + blocks_needed (off + Z.of_nat (length src)) srcs
  end.

(** After [c] writes of those of the calls, [wss], the file has the bytes of
    the calls that were over and at most of the one under way. *)
Definition in_order (wss : list (list (Z * Z * block))) (c j : nat) : Prop :=
  (j <= length wss)%nat /\ (forall m, (m <= length wss)%nat -> (length (concat (take m wss)) <= c)%nat -> (m <= j)%nat) /\
  (0 < j -> length (concat (take (j - 1) wss)) <= c)%nat.

Lemma in_order_nil c : in_order [] c 0.
Proof. split_and!; [done| |lia]. intros m Hm _. simpl in Hm. lia. Qed.

Lemma in_order_first w wss c j : (c < length w)%nat -> (j <= 1)%nat -> in_order (w :: wss) c j.
Proof.
  intros Hc Hj. split_and!; [simpl; lia| |].
  - intros [|m] _ Hm; [lia|]. simpl in Hm. rewrite length_app in Hm. lia.
  - intros Hj0. replace (j - 1)%nat with 0%nat by lia. simpl. lia.
Qed.

Lemma in_order_next w wss c j : (length w <= c)%nat -> in_order wss (c - length w) j -> in_order (w :: wss) c (S j).
Proof.
  intros Hc (H1 & H2 & H3). split_and!; [simpl; lia| |].
  - intros [|m] Hm Hl; [lia|]. simpl in Hm, Hl. rewrite length_app in Hl. apply le_n_S, H2; lia.
  - intros _. replace (S j - 1)%nat with j by lia. destruct j as [|j]; [simpl; lia|]. simpl. rewrite length_app.
    replace (S j - 1)%nat with j in H3 by lia. specialize (H3 ltac:(lia)). lia.
Qed.

Lemma appends_run srcs : forall s ip l,
  append_ready s ip -> Forall (fun src => 0 < Z.of_nat (length src)) srcs -> i_size ip + Z.of_nat (length (concat srcs)) <= BSIZE * NDIRECT ->
  stock s l -> (blocks_needed (i_size ip) srcs <= length l)%nat ->
  exists s' ip' wss, append_all srcs s = Ret ((fun src => Z.of_nat (length src)) <$> srcs) s' /\ append_ready s' ip' /\ i_inum ip' = i_inum ip /\ contents s' ip' = contents s ip ++ concat srcs /\
    length wss = length srcs /\ bdisk (fb s') = app_writes (concat wss) (bdisk (fb s)) /\
    forall c, exists v j, stands_for N (replay_writes (take c (concat wss)) (h_image (bdisk (fb s)))) v /\ in_order wss c j /\
      holds_file N v (i_inum ip) (contents s ip ++ concat (take j srcs)).
Proof using HN HNb.
  induction srcs as [|src srcs IH]; intros s ip l A Hpos Hmax Hst Hl.
  - exists s, ip, []. simpl. rewrite app_nil_r, app_writes_nil. do 6 (split; [done|]). intros c. rewrite take_nil. pose proof (ap_growing _ _ A) as G.
    exists (dread (h_image (bdisk (fb s))) ROOTDEV), 0%nat. split; [|split; [apply in_order_nil|]].
    + eapply idle_stands; [apply (gw_ready _ _ _ _ _ _ G)|lia|apply G].
    + simpl. rewrite app_nil_r. simpl in Hmax. apply old_file; [done|lia|]. pose proof (ap_size _ _ A).
      apply (keeps_disk N i HN s [] ip (i_size ip) G) with (ip := ip) (bn := i_size ip / BSIZE) (pre := []); [lia|lia|apply A|done|by apply wrote_nil].
  - apply Forall_cons in Hpos as [Hp Hpos]. cbn [concat blocks_needed] in *. rewrite length_app in Hmax.
    destruct (append_runs s ip src l A Hp) as (s1 & ip1 & E1 & A1 & N1 & C1 & S1 & (l' & St1 & L1) & w & k & D1 & Hk & Hc1); [lia|done|lia|].
    destruct (IH s1 ip1 l' A1 Hpos) as (s2 & ip2 & wss & E2 & A2 & N2 & C2 & L2 & D2 & Hc2); [lia|done|rewrite S1; lia|].
    exists s2, ip2, (w :: wss). split_and!; [|done|congruence|by rewrite C2, C1, <-app_assoc|by simpl; rewrite L2|by rewrite D2, D1; simpl; rewrite app_writes_app|].
    + cbn [append_all]. rewrite (bind_ret _ _ _ _ _ (geti_ret _ _ _ (gw_cached _ _ _ _ _ _ (ap_growing _ _ A)))), (bind_ret _ _ _ _ _ E1), (bind_ret _ _ _ _ _ E2). done.
    + intros c. cbn [concat]. rewrite replay_take_app. destruct (decide (c < length w)%nat) as [Hlt|Hge].
      * replace (c - length w)%nat with 0%nat by lia. rewrite take_0. destruct (Hc1 c) as (v & Hv & Hf). exists v.
        exists (if decide (c < k)%nat then 0%nat else 1%nat). split; [exact Hv|]. split; [apply in_order_first; [done|by case_decide; lia]|].
        case_decide; simpl; rewrite ?take_0; simpl; by rewrite app_nil_r.
      * rewrite (take_ge w), <-app_writes_image, <-D1 by lia. destruct (Hc2 (c - length w)%nat) as (v & j & Hv & Ho & Hf). exists v, (S j).
        split; [exact Hv|]. split; [by apply in_order_next; [lia|]|]. cbn [take concat]. by rewrite app_assoc, <-C1, <-N1.
Qed.
End theorem.
End append.


(** ** An empty file on a disk with a journal of sixteen blocks *)

Definition demo_ip : inode := Inode ROOTDEV 8 1 1 T_FILE 0 0 1 0 (replicate 13 0).
Definition demo_jsb16 : block := put_u32 0 16 demo_jsb.
Definition demo_fdisk : image :=
  dwrite (dwrite (dwrite (dwrite (∅ : image) ROOTDEV 2 demo_jsb16) ROOTDEV 1 (put_u32 0 1024 (put_u32 8 200 zero_block)))
    ROOTDEV 229 demo_bitmap) ROOTDEV 204 (store_dinode demo_ip zero_block).
Definition demo_ffs : fs_st :=
  FsSt (match pbjFSck true ROOTDEV (boot 20 demo_fdisk) with Ret _ b => b | _ => boot 20 ∅ end) [demo_ip].

Lemma demo_fdisk_sectors :
  dread demo_fdisk ROOTDEV 1 = put_u32 0 1024 (put_u32 8 200 zero_block) /\ dread demo_fdisk ROOTDEV 2 = demo_jsb16 /\
  dread demo_fdisk ROOTDEV 204 = store_dinode demo_ip zero_block /\ dread demo_fdisk ROOTDEV 229 = demo_bitmap /\
  forall x, x <> 1 -> x <> 2 -> x <> 204 -> x <> 229 -> dread demo_fdisk ROOTDEV x = zero_block.
Proof.
  unfold demo_fdisk. split_and!; [..|intros x H1 H2 H3 H4]; rewrite ?(dread_dwrite_ne (D := image)) by congruence; try (by rewrite (dread_dwrite_eq (D := image))).
  reflexivity.
Qed.

Lemma demo_ip_storable : storable demo_ip.
Proof.
  split_and!; [repeat (apply Forall_cons; split; [simpl; unfold T_FILE; lia|]); by apply Forall_nil|simpl; lia|simpl; unfold u32_mod; lia|reflexivity|].
  apply Forall_replicate. unfold u32_mod. lia.
Qed.

Lemma demo_addr bn : addr demo_ip bn = 0.
Proof. unfold addr. destruct (i_addrs demo_ip !! Z.to_nat bn) as [x|] eqn:E; [|reflexivity]. change (replicate 13 0 !! Z.to_nat bn = Some x) in E. by apply lookup_replicate in E as [-> _]. Qed.

Lemma demo_fdisk_replayable : replayable demo_fdisk 16 [].
Proof.
  pose proof demo_fdisk_sectors as (_ & E & _). split; rewrite ?E; [apply put_u32_block; [lia|apply demo_jsb_block]|vm_compute; done..|constructor].
Qed.

Lemma demo_ffs_ready : append_ready 16 0 demo_ffs demo_ip /\ stock demo_ffs [230; 231; 232; 233].
Proof.
  pose proof demo_fdisk_sectors as (D1 & _ & D3 & D4 & D5).
  destruct (reboot demo_fdisk 20 16 [] demo_fdisk_replayable) as (b & E & Hb & Hd); [apply NoDup_nil_2|lia|lia|rewrite D5 by lia; apply zero_block_ok|].
  assert (Es : demo_ffs = FsSt b [demo_ip]) by (unfold demo_ffs; by rewrite E). rewrite Es. assert (Hd' : h_image (bdisk b) = demo_fdisk) by (by rewrite Hd).
  clear E Hd Es. set (ic := [demo_ip]). assert (HN : (2 <= 16 < 200)%nat) by lia. assert (Hn : (4 <= 20)%nat) by lia. assert (Hs : 0 < 1024 <= 4096) by lia.
  pose proof (demo_bits 16 20 _ b ic 1024 Hb Hd' HN Hn Hs D1 D4) as Ebits. pose proof (demo_used 16 20 _ b ic 1024 Hb Hd' HN Hn Hs D1 D4) as Eu.
  pose proof (demo_bm 16 20 _ b ic 1024 Hb Hd' HN Hn Hs D1 D4) as Ebm. pose proof (demo_shows 16 20 _ b ic 1024 Hb Hd' HN Hn Hs D1 D4) as Hsh.
  pose proof (demo_alloc_ready 16 20 _ b ic 1024 Hb Hd' HN Hn Hs D1 D4) as Ha. set (s := FsSt b ic) in *.
  assert (Hin : view s ROOTDEV 204 = store_dinode demo_ip zero_block) by (rewrite (sh_view _ _ _ Hsh) by (split; lia); done).
  assert (Hst : is_block (store_dinode demo_ip zero_block)) by (apply store_dinode_block; [apply zero_block_ok|reflexivity]).
  split.
  - split; [split|..].
    + reflexivity.
    + reflexivity.
    + reflexivity.
    + exact Ha.
    + change (0 <= 0 <= 12). lia.
    + change (fb s) with b. rewrite (bt_free _ _ _ Hb). simpl. lia.
    + rewrite Ebits. intros x Hx Hu. rewrite Eu in Hu by done. assert (Hge : 230 <= x).
      { destruct (decide (230 <= x)); [done|]. rewrite demo_bitmap_used in Hu by lia. done. }
      split; [|apply (sh_free _ _ _ Hsh); split; lia]. unfold plain. rewrite Ebits. change (IBLOCK (i_inum demo_ip)) with 204.
      split; [split; lia|]. split; [lia|]. split; [lia|]. split; [lia|]. split; [intros y Hy; destruct (Ebm y Hy) as (-> & _); lia|].
      rewrite (sh_view _ _ _ Hsh) by (split; lia). rewrite D5 by lia. reflexivity.
    + intros bn _ H. by rewrite demo_addr in H.
    + intros bn bn' _ _ H. by rewrite demo_addr in H.
    + change (IBLOCK (i_inum demo_ip)) with 204. rewrite Ebits, Hin. split; [apply (sh_free _ _ _ Hsh); split; lia|]. split; [split; lia|]. split; [lia|].
      split; [intros y Hy; destruct (Ebm y Hy) as (-> & _); lia|exact Hst].
    + change (fb s) with b. rewrite Hd', D5 by lia. apply zero_block_ok.
    + change (0 <= 0). lia.
    + intros bn Hbn H. exfalso. change (i_size demo_ip) with 0 in H. unfold BSIZE in H. lia.
    + split; discriminate.
    + apply demo_ip_storable.
    + change (IBLOCK (i_inum demo_ip)) with 204. rewrite Hin. vm_compute. reflexivity.
  - split; [apply (bool_decide_unpack _); vm_compute; exact I|]. rewrite Ebits. intros x Hx.
    assert (Hr : 230 <= x < 234) by (rewrite !elem_of_cons in Hx; destruct Hx as [->|[->|[->|[->|[]%not_elem_of_nil]]]]; lia).
    split; [lia|]. rewrite Eu by lia. assert (H : forallb (fun b => negb (bit_used demo_bitmap b)) (seqZ 230 4) = true) by (vm_compute; reflexivity).
    rewrite forallb_forall in H. apply negb_true_iff, H, list_elem_of_In, elem_of_seqZ. lia.
Qed.


(** Past the direct blocks a write that needs one new block returns, and one
    that needs two waits for itself: bmap reads again the block of addresses
    that the open transaction has written. *)
Lemma indirect_growth_sleeps :
  stop_of (writei (fun _ => None) 0 (replicate 512 7) (BSIZE * NDIRECT) demo_ffs) = "returned"%string /\
  stop_of (writei (fun _ => None) 0 (replicate 1024 7) (BSIZE * NDIRECT) demo_ffs) = "asleep"%string.
Proof. split; vm_compute; reflexivity. Qed.
