(* ===== verification/FsCreate.v ===== *)
(** * fs.c: inodes and directory entries made

    icreate, the lock of the inode it returns, and dirlink into an unused
    entry: what the disk inode and the directory are afterwards. *)

From S2P Require Import Prelude CString Layout Ide Bio Cache Journal Recover Crash Reboot Txn Commit Fs FsInode FsNames FsRead FsPath FsWrite FsCrash FsAlloc.

(** ** The disk inode icreate writes *)

(** An inode with no contents. *)
Definition fresh_inode (inum type major minor nlink : Z) : inode :=
  Inode ROOTDEV inum 0 0 type major minor nlink 0 (replicate 13 0).

Lemma splice_snoc o a b (d : block) :
  (o + length a + length b <= length d)%nat -> splice (o + length a) b (splice o a d) = splice o (a ++ b) d.
Proof.
  intros H. unfold splice. rewrite (app_assoc (take o d)), take_app_length' by (rewrite length_app, length_take; lia).
  rewrite drop_app_ge by (rewrite length_app, length_take; lia). rewrite length_app, length_take, Nat.min_l, drop_drop by lia.
  rewrite <-!(app_assoc (take o d)), <-(app_assoc a), length_app. do 4 f_equal. lia.
Qed.

Lemma splice_in o j a z (d : block) :
  (j + length a <= length z)%nat -> (o + length z <= length d)%nat ->
  splice (o + j) a (splice o z d) = splice o (splice j a z) d.
Proof.
  intros Ha Hd. unfold splice. rewrite take_app_ge by (rewrite length_take; lia). rewrite length_take, Nat.min_l by lia.
  replace (o + j - o)%nat with j by lia. rewrite take_app_le by lia.
  rewrite drop_app_ge by (rewrite length_take; lia). rewrite length_take, Nat.min_l by lia.
  replace (o + j + length a - o)%nat with (j + length a)%nat by lia. rewrite drop_app_le by lia.
  rewrite <-!app_assoc, !length_app, length_take, length_drop. do 6 f_equal. lia.
Qed.

(** The fields of a disk inode as icreate and iupdate lay them out. *)
Definition dinode_bytes (type major minor nlink size : Z) (addrs : list Z) : list Z :=
  le_bytes 2 type ++ le_bytes 2 major ++ le_bytes 2 minor ++ le_bytes 2 nlink ++ le_bytes 4 size ++ concat (le_bytes 4 <$> addrs).

Lemma put_words_splice o a l (d : block) :
  (o + length a + 4 * length l <= length d)%nat ->
  put_words (Z.of_nat (o + length a)) l (splice o a d) = splice o (a ++ concat (le_bytes 4 <$> l)) d.
Proof.
  revert a. induction l as [|x l IH]; intros a H; cbn [put_words fmap list_fmap concat]; [by rewrite app_nil_r|].
  simpl length in H. unfold put_u32, putz. rewrite Nat2Z.id, splice_snoc by (rewrite length_le_bytes; lia).
  replace (Z.of_nat (o + length a) + 4) with (Z.of_nat (o + length (a ++ le_bytes 4 x))) by (rewrite length_app, length_le_bytes; lia).
  rewrite IH by (rewrite length_app, length_le_bytes; lia). by rewrite <-app_assoc.
Qed.

Lemma store_dinode_splice ip (d : block) :
  is_block d -> length (i_addrs ip) = 13%nat ->
  store_dinode ip d = splice (Z.to_nat (dinode_off (i_inum ip)))
    (dinode_bytes (i_type ip) (i_major ip) (i_minor ip) (i_nlink ip) (i_size ip) (i_addrs ip)) d.
Proof.
  intros [Hd _] Hl. pose proof (dinode_off_range (i_inum ip)). unfold store_dinode, put_u16, put_u32, putz, dinode_bytes.
  set (o := dinode_off (i_inum ip)) in *. set (n := Z.to_nat o).
  replace (Z.to_nat (o + 2)) with (n + length (le_bytes 2 (i_type ip)))%nat by (rewrite length_le_bytes; lia).
  rewrite splice_snoc by (rewrite !length_le_bytes; lia). set (a2 := _ ++ le_bytes 2 (i_major ip)).
  assert (L2 : length a2 = 4%nat) by (unfold a2; by rewrite length_app, !length_le_bytes).
  replace (Z.to_nat (o + 4)) with (n + length a2)%nat by lia. rewrite splice_snoc by (rewrite L2, !length_le_bytes; lia). set (a3 := _ ++ le_bytes 2 (i_minor ip)).
  assert (L3 : length a3 = 6%nat) by (unfold a3; by rewrite length_app, L2, !length_le_bytes).
  replace (Z.to_nat (o + 6)) with (n + length a3)%nat by lia. rewrite splice_snoc by (rewrite L3, !length_le_bytes; lia). set (a4 := _ ++ le_bytes 2 (i_nlink ip)).
  assert (L4 : length a4 = 8%nat) by (unfold a4; by rewrite length_app, L3, !length_le_bytes).
  replace (Z.to_nat (o + 8)) with (n + length a4)%nat by lia. rewrite splice_snoc by (rewrite L4, !length_le_bytes; lia). set (a5 := _ ++ le_bytes 4 (i_size ip)).
  assert (L5 : length a5 = 12%nat) by (unfold a5; by rewrite length_app, L4, !length_le_bytes).
  replace (o + 12) with (Z.of_nat (n + length a5)) by lia. rewrite put_words_splice by lia.
  unfold a5, a4, a3, a2. by rewrite <-!app_assoc.
Qed.

(** What icreate writes is the fresh inode, as iupdate would store it. *)
Lemma new_dinode_store inum type major minor nlink d :
  is_block d -> new_dinode inum type major minor nlink d = store_dinode (fresh_inode inum type major minor nlink) d.
Proof.
  intros Hd. rewrite store_dinode_splice by done. destruct Hd as [Hd _]. pose proof (dinode_off_range inum). simpl i_inum.
  unfold new_dinode, put_u16, putz. change (Z.to_nat DINODE_SIZE) with 64%nat. set (o := dinode_off inum) in *.
  set (n := Z.to_nat o). set (z := replicate 64 0).
  assert (Lz : length z = 64%nat) by done. assert (Lb : forall x, length (le_bytes 2 x) = 2%nat) by (intros; apply length_le_bytes).
  replace (Z.to_nat (o + 2)) with (n + 2)%nat by lia. replace (Z.to_nat (o + 4)) with (n + 4)%nat by lia.
  replace (Z.to_nat (o + 6)) with (n + 6)%nat by lia.
  pose proof (splice_in n 0 (le_bytes 2 type) z d) as E0. rewrite Nat.add_0_r in E0. rewrite E0 by (rewrite ?Lb, ?Lz; lia).
  set (z1 := splice 0 _ z). assert (L1 : length z1 = 64%nat) by done. rewrite (splice_in n 2) by (rewrite ?Lb, ?L1; lia).
  set (z2 := splice 2 _ z1). assert (L2 : length z2 = 64%nat) by done. rewrite (splice_in n 4) by (rewrite ?Lb, ?L2; lia).
  set (z3 := splice 4 _ z2). assert (L3 : length z3 = 64%nat) by done. rewrite (splice_in n 6) by (rewrite ?Lb, ?L3; lia).
  done.
Qed.

(** ** icreate *)

(** Inode [inum] is the first that is not in use, in a kernel between
    transactions in which nobody holds the blocks icreate reads. *)
Record first_free_inode (N : nat) (s : fs_st) (inum : Z) : Prop := {
  ff_calm : calm (fb s);
  ff_bufs : (2 <= nfree (fb s))%nat;
  ff_open : open_txn (fb s) N [];
  ff_sb : unheld s ROOTDEV 1;
  ff_unheld j : 1 <= j <= inum -> unheld s ROOTDEV (IBLOCK j);
  ff_outside : outside_journal N (IBLOCK inum);
  ff_range : 1 <= inum < sb_ninodes (fs_sb s);
  ff_free : dinode_type inum (view s ROOTDEV (IBLOCK inum)) = 0;
  ff_used j : 1 <= j < inum -> dinode_type j (view s ROOTDEV (IBLOCK j)) <> 0 }.

Lemma first_free_inode_same N s s' inum : fs_same s s' -> first_free_inode N s inum -> first_free_inode N s' inum.
Proof.
  intros Hs [H1 H2 H3 H4 H5 H6 H7 H8 H9]. pose proof (fs_view _ _ Hs) as V.
  split; [apply Hs|by rewrite (sv_nfree _ _ V)|by eapply open_txn_same|by eapply unheld_same| |done| | |].
  - intros j Hj. eapply unheld_same; [done|by apply H5].
  - unfold fs_sb. by rewrite (view_same s s').
  - by rewrite (view_same s s').
  - intros j Hj. rewrite (view_same s s') by done. by apply H9.
Qed.

Section icreate.
Context (N : nat) (inum type major minor nlink : Z).
Hypothesis HN : (2 <= N)%nat.

Lemma icreate_loop_ret fuel : forall s j,
  first_free_inode N s inum -> 1 <= j <= inum -> inum - j < Z.of_nat fuel ->
  let ib := IBLOCK inum in
  exists s', icreate_loop fuel ROOTDEV (fs_sb s) j type major minor nlink s = iget ROOTDEV inum s' /\ icache s' = icache s /\
    flushes N [] [(ib, new_dinode inum type major minor nlink (view s ROOTDEV ib))] s s'.
Proof using HN.
  induction fuel as [|fuel IH]; intros s j F Hj Hf ib; [lia|]. cbn [icreate_loop]. pose proof (ff_range _ _ _ F).
  destruct (Z.ltb_spec j (sb_ninodes (fs_sb s))); [|lia]. destruct (decide (j = inum)) as [->|Hne].
  - destruct (put_commit s N [] ib (ff_calm _ _ _ F) (ff_bufs _ _ _ F) (ff_unheld _ _ _ F _ Hj) (ff_open _ _ _ F)) as (bp & s1 & E1 & Ed & I1 & Hput).
    { split_and!; [simpl; lia|simpl; lia|constructor]. }
    { apply (ff_outside _ _ _ F). }
    destruct (Hput (new_dinode inum type major minor nlink (view s ROOTDEV ib))) as (s2 & I2 & Fl & K & _). exists s2.
    rewrite (bind_ret _ _ _ _ _ E1), (bind_ret _ _ _ _ _ Ed). unfold ib at 1. rewrite (ff_free _ _ _ F). cbn [Z.eqb]. split; [apply K|done].
  - destruct (read_block s ROOTDEV (IBLOCK j) (ff_calm _ _ _ F) (ff_unheld _ _ _ F _ Hj)) as (bp & s1 & s2 & E1 & Ed & E2 & S & _).
    rewrite (bind_ret _ _ _ _ _ E1), (bind_ret _ _ _ _ _ Ed).
    destruct (Z.eqb_spec (dinode_type j (view s ROOTDEV (IBLOCK j))) 0) as [E0|_]; [by destruct (ff_used _ _ _ F j); [lia|]|].
    rewrite (bind_ret _ _ _ _ _ E2). destruct (IH s2 (j + 1)) as (s3 & E3 & I3 & F3); [by eapply first_free_inode_same|lia|lia|].
    unfold fs_sb in E3. rewrite !(view_same s s2) in * by done. exists s3. split_and!; [exact E3|by rewrite I3, (fs_icache _ _ S)|by eapply flushes_same].
Qed.

Lemma icreate_ret s :
  first_free_inode N s inum ->
  let ib := IBLOCK inum in
  exists s', icreate ROOTDEV type major minor nlink s = iget ROOTDEV inum s' /\ icache s' = icache s /\
    flushes N [] [(ib, new_dinode inum type major minor nlink (view s ROOTDEV ib))] s s'.
Proof using HN.
  intros F ib. destruct (readsb_ret s (ff_calm _ _ _ F) (ff_sb _ _ _ F)) as (s1 & E1 & S1). pose proof (ff_range _ _ _ F).
  destruct (icreate_loop_ret (Z.to_nat (sb_ninodes (fs_sb s))) s1 1) as (s2 & E2 & I2 & F2); [by eapply first_free_inode_same|lia|lia|].
  exists s2. unfold icreate. rewrite (bind_ret _ _ _ _ _ E1). unfold fs_sb in E2 at 2. rewrite (view_same s s1) in * by done.
  split_and!; [exact E2|by rewrite I2, (fs_icache _ _ S1)|by eapply flushes_same].
Qed.
End icreate.

(** ** The lock of an inode nobody has read yet *)

Lemma ilock_fresh s i ip :
  icache s !! i = Some ip -> i_dev ip = ROOTDEV -> i_ref ip = 1 -> i_flags ip = 0 ->
  calm (fb s) -> unheld s ROOTDEV (IBLOCK (i_inum ip)) ->
  let ip' := load_dinode (view s ROOTDEV (IBLOCK (i_inum ip))) (set_iflags (Z.lor I_BUSY I_VALID) ip) in
  i_type ip' <> 0 ->
  exists s', ilock i s = Ret tt s' /\ icache s' = <[i := ip']> (icache s) /\ calm (fb s') /\ same_view (fb s) (fb s').
Proof.
  intros Hi Hd Hr Hf Hc Hu ip' Ht. pose proof (lookup_lt_Some _ _ _ Hi) as Hlt.
  set (s1 := set_icache (<[i := set_iflags I_BUSY ip]> (icache s)) s).
  assert (Hi1 : icache s1 !! i = Some (set_iflags I_BUSY ip)) by (by apply list_lookup_insert_eq).
  destruct (read_block s1 ROOTDEV (IBLOCK (i_inum ip)) Hc Hu) as (bp & s2 & s3 & E1 & Ed & E2 & S3 & I2).
  set (d := view s1 ROOTDEV (IBLOCK (i_inum ip))) in *. set (jp := load_dinode d (set_iflags I_BUSY ip)).
  assert (Hi2 : icache s2 !! i = Some (set_iflags I_BUSY ip)) by (by rewrite I2).
  set (l3 := <[i := jp]> (icache s2)). assert (Hl3 : l3 = <[i := jp]> (icache s)) by (unfold l3, s1; rewrite I2; apply list_insert_insert_eq).
  assert (Hi3 : icache (set_icache l3 s3) !! i = Some jp) by (simpl; rewrite Hl3; by apply list_lookup_insert_eq).
  set (s4 := set_icache (<[i := ip']> l3) s3).
  assert (Hi4 : icache s4 !! i = Some ip') by (simpl; rewrite Hl3, list_insert_insert_eq; by apply list_lookup_insert_eq).
  exists s4. split; [|split; [simpl; by rewrite Hl3, list_insert_insert_eq|split; [apply S3|apply (fs_view _ _ S3)]]].
  unfold ilock. rewrite (bind_ret _ _ _ _ _ (geti_ret _ _ _ Hi)), Hr. unfold ihas at 1. rewrite Hf. cbn [Z.ltb Z.compare Pos.compare Pos.compare_cont].
  change (ctrue (Z.land 0 I_BUSY)) with false. cbn iota.
  rewrite (bind_ret _ _ _ _ _ (updi_ret _ _ _ _ Hi)), Hf. change (Z.lor 0 I_BUSY) with I_BUSY. fold s1.
  rewrite (bind_ret _ _ _ _ _ (geti_ret _ _ _ Hi1)). change (negb (ihas I_VALID (set_iflags I_BUSY ip))) with true. cbn iota.
  simpl i_dev. simpl i_inum. rewrite Hd, (bind_ret _ _ _ _ _ E1), (bind_ret _ _ _ _ _ Ed), (bind_ret _ _ _ _ _ (updi_ret _ _ _ _ Hi2)).
  rewrite (bind_ret _ _ _ _ _ (bio_frame _ _ _ _ l3 E2)), (bind_ret _ _ _ _ _ (updi_ret _ _ _ _ Hi3)).
  change (set_icache _ _) with s4. rewrite (bind_ret _ _ _ _ _ (geti_ret _ _ _ Hi4)). by destruct (Z.eqb_spec (i_type ip') 0).
Qed.

(** ** The first unused entry of a directory *)

(** Entry number [e], over all blocks. *)
Definition nth_entry (s : fs_st) (ip : inode) (e : nat) : Z * list Z := dir_entry s ip (e / DPB) (e mod DPB).

Record first_unused_entry (s : fs_st) (ip : inode) (e : nat) : Prop := {
  fu_inside : DIRENT_SIZE * (Z.of_nat e + 1) <= i_size ip;
  fu_unused : (nth_entry s ip e).1 = 0;
  fu_used e' : (e' < e)%nat -> (nth_entry s ip e').1 <> 0 }.

(** A directory that can be searched. *)
Record searchable (s : fs_st) (ip : inode) : Prop := {
  se_type : i_type ip = T_DIR;
  se_dev : i_dev ip = ROOTDEV;
  se_size : 0 <= i_size ip <= MAXFILE * BSIZE;
  se_readable b : (b < dir_blocks ip)%nat -> readable s ip (Z.of_nat b) }.

Lemma entry_block ip e : 0 <= i_size ip -> DIRENT_SIZE * (Z.of_nat e + 1) <= i_size ip -> (e / DPB < dir_blocks ip)%nat.
Proof.
  unfold dir_blocks, DIRENT_SIZE, BSIZE, DPB. intros. pose proof (Nat.div_mod_eq e 32) as He. pose proof (Nat.mod_upper_bound e 32) as Hm.
  generalize dependent (e / 32)%nat. generalize dependent (e mod 32)%nat. intros. Z.div_mod_to_equations. lia.
Qed.

Lemma entry_offset e :
  DIRENT_SIZE * Z.of_nat e / BSIZE = Z.of_nat (e / DPB) /\ DIRENT_SIZE * Z.of_nat e mod BSIZE = DIRENT_SIZE * Z.of_nat (e mod DPB) /\
  (e mod DPB < 32)%nat.
Proof.
  unfold DIRENT_SIZE, BSIZE, DPB. pose proof (Nat.div_mod_eq e 32) as He. pose proof (Nat.mod_upper_bound e 32) as Hm.
  generalize dependent (e / 32)%nat. generalize dependent (e mod 32)%nat. intros. split_and!; Z.div_mod_to_equations; lia.
Qed.

(** The inode number of an entry is in the first two of the bytes read. *)
Lemma entry_inum s ip e :
  searchable s ip -> DIRENT_SIZE * (Z.of_nat e + 1) <= i_size ip ->
  le_val (take 2 (file_bytes s ip (DIRENT_SIZE * Z.of_nat e) 16)) = (nth_entry s ip e).1.
Proof.
  intros Hse Hin. pose proof (se_readable _ _ Hse _ (entry_block ip e ltac:(apply Hse) Hin)) as (Hb & Hp & a & Ha & Hu & Hl).
  destruct (entry_offset e) as (Ed & Em & Hk). unfold nth_entry, dir_entry, de_inum, get_u16, getz. cbn [fst]. f_equal.
  pose proof (file_bytes_chunk s ip (DIRENT_SIZE * Z.of_nat e) 16 a) as Hch. rewrite Ed, Em in Hch. change (Z.to_nat 16) with 16%nat in Hch.
  rewrite <-Hch; [|unfold DIRENT_SIZE; lia|unfold DIRENT_SIZE, BSIZE; lia|done|done].
  unfold file_block. rewrite Ha. unfold slice. rewrite take_take. done.
Qed.

Section dirlink.
Context (devsw_read : Z -> option (nat -> Z -> M fs_st (Z * list Z))) (devsw_write : Z -> option (nat -> list Z -> M fs_st Z)).

Lemma searchable_same s s' ip : fs_same s s' -> searchable s ip -> searchable s' ip.
Proof. intros Hs [H1 H2 H3 H4]. split; [done..|]. intros b Hb. eapply readable_same; [done|by apply H4]. Qed.

Lemma nth_entry_same s s' ip e : fs_same s s' -> nth_entry s' ip e = nth_entry s ip e.
Proof. intros Hs. unfold nth_entry, dir_entry. by rewrite (file_block_ext s s' ip ip) by (done || intros; by apply view_same). Qed.

Lemma empty_dirent_ret e fuel : forall s dp ip e0,
  icache s !! dp = Some ip -> calm (fb s) -> searchable s ip -> first_unused_entry s ip e ->
  (e0 <= e)%nat -> (e - e0 < fuel)%nat ->
  exists s', empty_dirent devsw_read fuel dp (DIRENT_SIZE * Z.of_nat e0) s = Ret (DIRENT_SIZE * Z.of_nat e) s' /\ fs_same s s'.
Proof.
  induction fuel as [|fuel IH]; intros s dp ip e0 Hi Hc Hse Hfu He Hf; [lia|]. cbn [empty_dirent].
  rewrite (bind_ret _ _ _ _ _ (geti_ret _ _ _ Hi)). pose proof (fu_inside _ _ _ Hfu) as Hin. pose proof (se_size _ _ Hse) as Hsz.
  change (MAXFILE * BSIZE) with 8394752 in Hsz. unfold DIRENT_SIZE in Hin |- *.
  destruct (Z.ltb_spec (16 * Z.of_nat e0) (i_size ip)); [|lia].
  destruct (readi_file devsw_read s dp ip (16 * Z.of_nat e0) 16 Hi Hc) as (s1 & E1 & S1);
    [by rewrite (se_type _ _ Hse)|unfold u32_mod; lia|lia|lia|unfold u32_mod; lia| |].
  { intros bn Hbn. destruct (entry_offset e0) as (Ed & Em & Hk). unfold DIRENT_SIZE in Ed, Em.
    assert (bn = Z.of_nat (e0 / DPB)) as ->; [|apply Hse, entry_block; unfold DIRENT_SIZE; lia].
    rewrite <-Ed. unfold BSIZE in *. Z.div_mod_to_equations. lia. }
  rewrite Z.min_l in E1 by lia. change (Z.to_nat 16) with 16%nat in E1. change (s32 16) with 16 in E1.
  rewrite (bind_ret _ _ _ _ _ E1). cbn [fst snd Z.eqb Pos.eqb negb]. pose proof (entry_inum s ip e0 Hse) as En. unfold DIRENT_SIZE in En. rewrite En by lia.
  destruct (decide (e0 = e)) as [->|Hne].
  - rewrite (fu_unused _ _ _ Hfu). exists s1. done.
  - destruct (Z.eqb_spec (nth_entry s ip e0).1 0) as [E0|_]; [by destruct (fu_used _ _ _ Hfu e0); [lia|]|].
    destruct (IH s1 dp ip (S e0)) as (s2 & E2 & S2); [by rewrite (fs_icache _ _ S1)|apply S1|by eapply searchable_same| |lia|lia|].
    { destruct Hfu as [H1 H2 H3]. split; [done|by rewrite (nth_entry_same s s1)|]. intros e' He'. rewrite (nth_entry_same s s1) by done. by apply H3. }
    exists s2. split; [|by eapply fs_same_trans]. unfold DIRENT_SIZE in E2.
    replace (16 * Z.of_nat e0 + 16) with (16 * Z.of_nat (S e0)) by lia. exact E2.
Qed.

(** ** dirlink *)

(** The sector of entry [e], and its block with the entry filled in. *)
Definition entry_sec (s : fs_st) (ip : inode) (e : nat) : Z := file_sec s ip (Z.of_nat (e / DPB)).
Definition linked_block (s : fs_st) (ip : inode) (e : nat) (ino : Z) (name : list Z) : block :=
  patch (file_block s ip (Z.of_nat (e / DPB))) (Z.of_nat (e / DPB)) (DIRENT_SIZE * Z.of_nat e) (encode_dirent ino name).

Lemma length_encode_dirent ino name : length (encode_dirent ino name) = 16%nat.
Proof. unfold encode_dirent. by rewrite length_app, length_map, length_seq, length_le_bytes. Qed.

Lemma entry_range e : range_blocks (DIRENT_SIZE * Z.of_nat e) 16 = [Z.of_nat (e / DPB)].
Proof.
  destruct (entry_offset e) as (Ed & Em & Hk). unfold range_blocks. change (0 <? 16) with true. cbn iota. rewrite Ed.
  replace ((DIRENT_SIZE * Z.of_nat e + 16 - 1) / BSIZE) with (Z.of_nat (e / DPB)).
  - rewrite Z.sub_diag. done.
  - unfold DIRENT_SIZE, BSIZE in *. Z.div_mod_to_equations. lia.
Qed.

(** Writing an entry of a directory that has room for it. *)
Lemma writei_entry N t0 s dp ip e ino name :
  icache s !! dp = Some ip -> calm (fb s) -> open_txn (fb s) N t0 -> Z.of_nat (length t0) < 2 ^ 30 -> (2 <= nfree (fb s))%nat ->
  searchable s ip -> DIRENT_SIZE * (Z.of_nat e + 1) <= i_size ip -> entry_sec s ip e ∉ file_path s ip (Z.of_nat (e / DPB)) ->
  exists s', writei devsw_write dp (encode_dirent ino name) (DIRENT_SIZE * Z.of_nat e) s = Ret DIRENT_SIZE s' /\ icache s' = icache s /\
    grown (fb s) (fb s') [(entry_sec s ip e, linked_block s ip e ino name)].
Proof.
  intros Hi Hc Ho Ht Hnf Hse Hin Hp. set (off := DIRENT_SIZE * Z.of_nat e). set (src := encode_dirent ino name).
  assert (Hn : Z.of_nat (length src) = 16) by (unfold src; by rewrite length_encode_dirent).
  pose proof (se_size _ _ Hse) as Hsz. change (MAXFILE * BSIZE) with 8394752 in Hsz. unfold DIRENT_SIZE in Hin.
  assert (Hoff : off = 16 * Z.of_nat e) by done.
  destruct (writei_loop_ret N dp ip (Z.to_nat (16 / BSIZE + 2)) s t0 src off Hi (se_dev _ _ Hse) Hc Ho) as (s1 & E1 & I1 & G1);
    rewrite ?Hn; unfold off at 1; try rewrite entry_range.
  - lia.
  - left. unfold BSIZE. simpl. lia.
  - apply Forall_singleton, Hse, entry_block; unfold DIRENT_SIZE; lia.
  - split; [apply NoDup_singleton|]. intros b b' ->%list_elem_of_singleton ->%list_elem_of_singleton. exact Hp.
  - simpl. lia.
  - simpl. lia.
  - exists s1. rewrite Hn in E1, G1. unfold off in G1 at 2. rewrite entry_range in G1. split; [|split; [done|exact G1]].
    unfold writei. rewrite (bind_ret _ _ _ _ _ (geti_ret _ _ _ Hi)), Hn, (se_type _ _ Hse). cbn [Z.eqb T_DIR T_DEV Pos.eqb].
    fold off. rewrite (u32_small (off + 16)) by (unfold u32_mod; lia). destruct (Z.ltb_spec (off + 16) off); [lia|].
    change (MAXFILE * BSIZE) with 8394752. destruct (Z.ltb_spec 8394752 (off + 16)); [lia|].
    rewrite (bind_ret _ _ _ _ _ E1), (bind_ret _ _ _ _ _ (geti_ret _ _ _ ltac:(by rewrite I1))).
    change (0 <? 16) with true. cbn [andb]. by destruct (Z.ltb_spec (i_size ip) (off + 16)); [lia|].
Qed.

Lemma dirlink_ret N t0 s dp ip e ino name :
  icache s !! dp = Some ip -> calm (fb s) -> open_txn (fb s) N t0 -> Z.of_nat (length t0) < 2 ^ 30 -> (2 <= nfree (fb s))%nat ->
  searchable s ip -> first_unused_entry s ip e -> entry s ip name = None -> entry_sec s ip e ∉ file_path s ip (Z.of_nat (e / DPB)) ->
  exists s', dirlink devsw_read devsw_write dp name ino s = Ret 0 s' /\ icache s' = icache s /\
    grown (fb s) (fb s') [(entry_sec s ip e, linked_block s ip e ino name)].
Proof.
  intros Hi Hc Ho Ht Hnf Hse Hfu Hen Hp.
  destruct (dirlookup_read s dp ip name Hi Hc (se_type _ _ Hse) (proj1 (se_size _ _ Hse)) (se_readable _ _ Hse)) as (s1 & S1 & E1).
  unfold entry in Hen. destruct (dir_find s ip name _) as [[??]|]; [done|]. cbn [lookup_result] in E1.
  assert (Hi1 : icache s1 !! dp = Some ip) by (by rewrite (fs_icache _ _ S1)).
  assert (Hfu1 : first_unused_entry s1 ip e).
  { destruct Hfu as [H1 H2 H3]. split; [done|by rewrite (nth_entry_same s s1)|]. intros e' He'. rewrite (nth_entry_same s s1) by done. by apply H3. }
  destruct (empty_dirent_ret e (Z.to_nat (i_size ip / DIRENT_SIZE + 1)) s1 dp ip 0 Hi1 (fs_calm _ _ S1)) as (s2 & E2 & S2);
    [by eapply searchable_same|done|lia| |].
  { pose proof (fu_inside _ _ _ Hfu). unfold DIRENT_SIZE in *. Z.div_mod_to_equations. lia. }
  pose proof (fs_same_trans _ _ _ S1 S2) as S12. pose proof (fs_view _ _ S12) as V12.
  assert (Ew : walk (view s2 (i_dev ip)) (i_addrs ip) (Z.of_nat (e / DPB)) = walk (view s (i_dev ip)) (i_addrs ip) (Z.of_nat (e / DPB)))
    by (apply walk_ext; intros; by apply view_same).
  assert (Ep : file_path s2 ip (Z.of_nat (e / DPB)) = file_path s ip (Z.of_nat (e / DPB))) by (unfold file_path; by rewrite Ew).
  assert (Es : entry_sec s2 ip e = entry_sec s ip e) by (unfold entry_sec, file_sec; by rewrite Ew).
  destruct (writei_entry N t0 s2 dp ip e ino name) as (s3 & E3 & I3 & G3);
    [by rewrite (fs_icache _ _ S12)|apply S12|by eapply open_txn_same|done|by rewrite (sv_nfree _ _ V12)|by eapply searchable_same|apply Hfu|by rewrite Ep, Es|].
  exists s3. split; [|split; [by rewrite I3, (fs_icache _ _ S12)|]].
  - unfold dirlink. rewrite (bind_ret _ _ _ _ _ E1), (bind_ret _ _ _ _ _ (geti_ret _ _ _ Hi1)).
    rewrite (bind_ret _ _ _ _ _ E2). by rewrite (bind_ret _ _ _ _ _ E3).
  - apply (txn_grown_trans (fb s) (fb s2) (fb s3) [] [(entry_sec s ip e, linked_block s ip e ino name)]); [by apply grown_same; [apply S12|]|].
    unfold linked_block in G3 |- *. by rewrite Es, (file_block_ext s s2 ip ip) in G3 by (done || intros; by apply view_same).
Qed.
End dirlink.

(** ** The directory with one more entry *)

Lemma block_find_some s ip name bn ks k : block_find s ip name bn ks = Some k -> k ∈ ks /\ matches name (dir_entry s ip bn k) = true.
Proof.
  induction ks as [|x ks IH]; cbn [block_find]; [done|]. destruct (matches name (dir_entry s ip bn x)) eqn:E.
  - intros [= <-]. split; [constructor|done].
  - intros [H1 H2]%IH. split; [by constructor|done].
Qed.
Lemma block_find_none s ip name bn ks k : block_find s ip name bn ks = None -> k ∈ ks -> matches name (dir_entry s ip bn k) = false.
Proof.
  induction ks as [|x ks IH]; cbn [block_find]; [by intros _ ?%not_elem_of_nil|].
  destruct (matches name (dir_entry s ip bn x)) eqn:E; [done|]. intros Hn [->|Hk]%elem_of_cons; [done|by apply IH].
Qed.
Lemma dir_find_some s ip name bns bn k :
  dir_find s ip name bns = Some (bn, k) -> bn ∈ bns /\ (k < DPB)%nat /\ matches name (dir_entry s ip bn k) = true.
Proof.
  induction bns as [|x bns IH]; cbn [dir_find]; [done|]. destruct (block_find s ip name x (seq 0 DPB)) as [j|] eqn:E.
  - intros [= <- <-]. apply block_find_some in E as [[_ Hj]%elem_of_seq Hm]. split; [constructor|done].
  - intros (H1 & H2 & H3)%IH. split; [by constructor|done].
Qed.
Lemma dir_find_none s ip name bns bn k :
  dir_find s ip name bns = None -> bn ∈ bns -> (k < DPB)%nat -> matches name (dir_entry s ip bn k) = false.
Proof.
  induction bns as [|x bns IH]; cbn [dir_find]; [by intros _ ?%not_elem_of_nil|].
  destruct (block_find s ip name x (seq 0 DPB)) as [j|] eqn:E; [done|]. intros Hn [->|Hx]%elem_of_cons Hk; [|by apply IH].
  apply (block_find_none _ _ _ _ _ _ E). apply elem_of_seq. lia.
Qed.

(** The search depends on which entries match, and finds the only one that
    does. *)
Lemma dir_find_agree s s' ip ip' name name' bns :
  (forall bn k, bn ∈ bns -> (k < DPB)%nat -> matches name' (dir_entry s' ip' bn k) = matches name (dir_entry s ip bn k)) ->
  dir_find s' ip' name' bns = dir_find s ip name bns.
Proof.
  induction bns as [|bn bns IH]; intros H; [done|]. cbn [dir_find]. rewrite IH by (intros; apply H; [by constructor|done]).
  assert (Hb : forall ks, (forall k, k ∈ ks -> (k < DPB)%nat) -> block_find s' ip' name' bn ks = block_find s ip name bn ks).
  { induction ks as [|k ks IHk]; intros Hk; [done|]. cbn [block_find]. rewrite (H bn k); [|constructor|apply Hk; constructor].
    by rewrite IHk by (intros; apply Hk; by constructor). }
  rewrite Hb; [done|]. intros k [_ Hk]%elem_of_seq. lia.
Qed.
Lemma dir_find_only s ip name bns bn0 k0 :
  bn0 ∈ bns -> (k0 < DPB)%nat ->
  (forall bn k, bn ∈ bns -> (k < DPB)%nat -> matches name (dir_entry s ip bn k) = true <-> bn = bn0 /\ k = k0) ->
  dir_find s ip name bns = Some (bn0, k0).
Proof.
  intros Hb Hk H. destruct (dir_find s ip name bns) as [[bn k]|] eqn:E.
  - apply dir_find_some in E as (H1 & H2 & H3). by apply (H bn k) in H3 as [-> ->].
  - pose proof (dir_find_none _ _ _ _ bn0 k0 E Hb Hk) as Hf. by rewrite (proj2 (H bn0 k0 Hb Hk)) in Hf.
Qed.

(** Names that namecmp does not tell apart. *)
Definition same_name (a b : list Z) : bool := bool_decide (cut_name DIRSIZ (of_bytes a) = cut_name DIRSIZ (of_bytes b)).

(** The name as strncpy stores it. *)
Definition stored_name (name : list Z) : list Z := map (fun k => nth k name 0) (seq 0 DIRSIZ).
Lemma stored_cut name : cut_name DIRSIZ (of_bytes (stored_name name)) = cut_name DIRSIZ (of_bytes name).
Proof.
  apply cut_name_ext. intros i Hi. unfold of_bytes, stored_name. rewrite (nth_lookup (map _ _)), list_lookup_fmap, lookup_seq_lt by done. done.
Qed.

(** The entries of a block in which one has been written. *)
Lemma linked_block_entries s ip e ino name k :
  searchable s ip -> DIRENT_SIZE * (Z.of_nat e + 1) <= i_size ip -> 0 < ino < 65536 -> (k < DPB)%nat ->
  (de_inum k (linked_block s ip e ino name), de_name k (linked_block s ip e ino name)) =
  if decide (k = e mod DPB)%nat then (ino, stored_name name) else dir_entry s ip (e / DPB) k.
Proof.
  intros Hse Hin Hino Hk. pose proof (se_readable _ _ Hse _ (entry_block ip e ltac:(apply Hse) Hin)) as (Hb & Hp & a & Ha & Hu & Hl).
  destruct (entry_offset e) as (Ed & Em & Hk').
  assert (Hold : length (file_block s ip (Z.of_nat (e / DPB))) = 512%nat) by (unfold file_block; by rewrite Ha).
  assert (E : linked_block s ip e ino name = splice (16 * (e mod DPB)) (encode_dirent ino name) (file_block s ip (Z.of_nat (e / DPB)))).
  { unfold linked_block. rewrite <-Ed at 2. rewrite <-patch_first; [|done|unfold DIRENT_SIZE; lia|rewrite length_encode_dirent; lia].
    rewrite Em, length_encode_dirent, take_ge; [|rewrite length_encode_dirent; unfold DIRENT_SIZE, BSIZE; lia].
    f_equal. unfold DIRENT_SIZE. lia. }
  unfold de_inum, get_u16, getz, dir_entry. replace (Z.to_nat (DIRENT_SIZE * Z.of_nat k)) with (16 * k)%nat by (unfold DIRENT_SIZE; lia).
  rewrite E. change DPB with 32%nat in *. unfold de_name. case_decide as Ek.
  - subst k. assert (Ln : length (stored_name name) = 14%nat) by (unfold stored_name; by rewrite length_map, length_seq).
    unfold encode_dirent. fold (stored_name name). rewrite <-splice_snoc by (rewrite length_le_bytes, Hold, Ln; lia).
    rewrite length_le_bytes. set (b1 := splice _ (le_bytes 2 ino) _).
    assert (L1 : length b1 = 512%nat) by (unfold b1; rewrite length_splice; rewrite ?length_le_bytes; lia). f_equal.
    + rewrite slice_splice_ne by lia. pose proof (slice_splice_eq (16 * (e mod 32)) (le_bytes 2 ino) (file_block s ip (Z.of_nat (e / 32)))) as Es.
      rewrite length_le_bytes in Es. unfold b1. rewrite Es, le_val_bytes by lia. apply Z.mod_small. simpl. lia.
    + pose proof (slice_splice_eq (16 * (e mod 32) + 2) (stored_name name) b1) as Es. rewrite Ln in Es. apply Es. lia.
  - unfold de_inum, get_u16, getz, de_name. replace (Z.to_nat (DIRENT_SIZE * Z.of_nat k)) with (16 * k)%nat by (unfold DIRENT_SIZE; lia).
    rewrite !slice_splice_ne by (rewrite ?length_encode_dirent; unfold DIRSIZ; lia). done.
Qed.

(** A directory that differs from another one in entry [e] only, unused
    before, has its entries and the new one. *)
Section linked.
Context (s s' : fs_st) (d d' : inode) (e : nat) (ino : Z) (name : list Z).
Hypothesis Hse : searchable s d.
Hypothesis Hfu : first_unused_entry s d e.
Hypothesis Hno : entry s d name = None.
Hypothesis Hino : 0 < ino < 65536.
Hypothesis Hsz : dir_blocks d' = dir_blocks d.
Hypothesis Hbl : forall b, (b < dir_blocks d)%nat ->
  file_block s' d' (Z.of_nat b) = if decide (b = e / DPB)%nat then linked_block s d e ino name else file_block s d (Z.of_nat b).

Lemma linked_entries bn k :
  (bn < dir_blocks d)%nat -> (k < DPB)%nat ->
  dir_entry s' d' bn k = if decide (bn = e / DPB /\ k = e mod DPB)%nat then (ino, stored_name name) else dir_entry s d bn k.
Proof using Hse Hfu Hino Hbl.
  intros Hb Hk. unfold dir_entry at 1. rewrite Hbl by done. case_decide as E1.
  - subst bn. rewrite linked_block_entries by (done || apply Hfu). repeat case_decide; naive_solver.
  - rewrite decide_False by naive_solver. done.
Qed.

Lemma entry_linked name' : entry s' d' name' = if same_name name' name then Some ino else entry s d name'.
Proof using Type*.
  assert (Hin : forall bn, bn ∈ seq 0 (dir_blocks d) <-> (bn < dir_blocks d)%nat) by (intros bn; rewrite elem_of_seq; lia).
  assert (Hb0 : (e / DPB < dir_blocks d)%nat) by (apply entry_block; [apply Hse|apply Hfu]).
  assert (Hk0 : (e mod DPB < DPB)%nat) by (apply entry_offset). pose proof (fu_unused _ _ _ Hfu) as H0. unfold nth_entry in H0.
  assert (Hold : forall nm, matches nm (dir_entry s d (e / DPB) (e mod DPB)) = false) by (intros nm; unfold matches; by rewrite H0).
  assert (Hnew : forall nm, matches nm (ino, stored_name name) = same_name nm name).
  { intros nm. unfold matches, same_name. cbn [fst snd]. rewrite stored_cut. destruct (Z.eqb_spec ino 0); [lia|done]. }
  unfold entry at 1. rewrite Hsz. destruct (same_name name' name) eqn:En.
  - rewrite (dir_find_only _ _ _ _ (e / DPB) (e mod DPB)); [|by apply Hin|done|].
    { rewrite linked_entries, decide_True by done. done. }
    intros bn k Hbn%Hin Hk. rewrite linked_entries by done. case_decide as Ed; [by rewrite Hnew, En|]. split; [|done].
    unfold entry in Hno. destruct (dir_find s d name _) as [[??]|] eqn:Ef; [done|].
    pose proof (dir_find_none _ _ _ _ bn k Ef (proj2 (Hin bn) Hbn) Hk) as Hf. unfold matches, same_name in *.
    apply bool_decide_eq_true in En. rewrite En. by rewrite Hf.
  - assert (Hm : forall bn k, (bn < dir_blocks d)%nat -> (k < DPB)%nat -> matches name' (dir_entry s' d' bn k) = matches name' (dir_entry s d bn k)).
    { intros bn k Hbn Hk. rewrite linked_entries by done. case_decide as Ed; [|done]. destruct Ed as [-> ->]. by rewrite Hnew, En, Hold. }
    rewrite (dir_find_agree s s' d d' name' name') by (intros bn k Hbn%Hin Hk; by apply Hm).
    unfold entry. destruct (dir_find s d name' _) as [[bn k]|] eqn:Ef; [|done].
    apply dir_find_some in Ef as (Hbn%Hin & Hk & Hmk). rewrite linked_entries by done. case_decide as Ed; [|done].
    destruct Ed as [-> ->]. by rewrite Hold in Hmk.
Qed.
End linked.

(** ** nameiparent *)

Lemma components_nonempty c path : c <> slash -> components (c :: path) <> [].
Proof.
  intros Hc E. pose proof (skipelem_split (c :: path)) as H. unfold skipelem in H. cbn [skip_slashes] in H.
  destruct (Z.eqb_spec c slash); [done|]. destruct (span_elem (c :: path)) as [e r]. destruct H as (? & ? & H & _). by rewrite E in H.
Qed.

Lemma iunlock_quiet s i inum ip :
  quiet (Some i) s -> locked s i inum ip ->
  exists s', iunlock i s = Ret tt s' /\ icache s' = <[i := clear_ibusy ip]> (icache s) /\ quiet None s' /\ same_view (fb s) (fb s').
Proof.
  intros Hq [Hi Hr Hb Hv Hnode]. destruct (iflags_spec ip) as (_ & _ & _ & _ & F5 & F6).
  rewrite (iunlock_ret _ _ _ Hi Hr Hb). eexists. split; [done|]. split; [done|]. split; [|apply same_view_wakes].
  eapply (quiet_touch (Some i) None s _ i ip); [exact Hq|apply calm_wakes, Hq|apply same_view_wakes|done|done|simpl; lia|done|done| | |].
  - intros _. by rewrite bool_decide_false.
  - intros _ Hv'. apply load_set_iflags. by apply (q_synced _ _ Hq i).
  - intros j Hj. split; [done|intros [= E]; congruence].
Qed.

(** The parent's inode, and the last element of the path. *)
Lemma parent_loop_ret fuel ps name dinum : forall path i inum s,
  (length path <= fuel)%nat -> quiet None s -> at_slot s i inum -> (2 <= nidle_but i (icache s))%nat ->
  walkable s inum (elems path) -> elems path = ps ++ [name] -> resolve s inum ps = Some dinum -> i_type (dnode s dinum) = T_DIR ->
  exists j s', namei_loop fuel i path true s = Ret (Some (j, name)) s' /\ quiet None s' /\ same_view (fb s) (fb s') /\ at_slot s' j dinum /\
    (forall dv m, refcount dv m (icache s') = refcount dv m (icache s) - one_ref inum dv m + one_ref dinum dv m) /\
    nidle_but j (icache s') = nidle_but i (icache s).
Proof.
  revert ps. induction fuel as [|fuel IH]; intros ps path i inum s Hf Hq Hat Hid Hw Hel Hres HT; pose proof (skipelem_split path) as Hs;
    cbn [namei_loop]; (destruct (skipelem path) as [[nm rest]|] eqn:Es;
    [destruct Hs as (e & es & Hc & -> & Hr & Hlt & Hrest)|unfold elems in Hel; rewrite Hs in Hel; by destruct ps]); [lia|].
  assert (Hel' : elems path = take DIRSIZ e :: elems rest) by (unfold elems; by rewrite Hc, Hr). rewrite Hel' in *.
  destruct rest as [|c rest].
  - destruct ps as [|p ps]; [|by destruct ps]. injection Hel as <-. injection Hres as ->. cbn [walkable] in Hw. destruct Hw as (Hu & Ht & _).
    destruct (ilock_ret s i dinum Hq Hat Hu Ht) as (s1 & ip & ip1 & E1 & Hi & I1 & R1 & Q1 & V1 & L1).
    destruct (iunlock_quiet s1 i dinum ip1 Q1 L1) as (s2 & E2 & I2 & Q2 & V2). pose proof (lookup_lt_Some _ _ _ Hi) as Hlt'.
    destruct (node_fields _ _ (lk_node _ _ _ _ L1)) as (Hd1 & Hm1 & Hn1 & _). rewrite (dnode_same s s1), HT in Hn1 by done.
    assert (I3 : icache s2 = <[i := clear_ibusy ip1]> (icache s)) by (rewrite I2, I1; apply list_insert_insert_eq).
    destruct Hat as (ip0 & Hi0 & (Hr0 & Hd0 & Hn0)%names_spec). assert (ip0 = ip) as -> by congruence.
    change (i_dev (dnode s1 dinum)) with ROOTDEV in Hd1. change (i_inum (dnode s1 dinum)) with dinum in Hm1.
    exists i, s2. rewrite (bind_ret _ _ _ _ _ E1), (bind_ret _ _ _ _ _ (geti_ret _ _ _ (lk_slot _ _ _ _ L1))), Hn1. cbn [Z.eqb Pos.eqb T_DIR negb andb].
    rewrite (bind_ret _ _ _ _ _ E2). split_and!; [done|done|by eapply same_view_trans| | |].
    + exists (clear_ibusy ip1). rewrite I3, list_lookup_insert_eq by done. split; [done|]. apply names_spec. simpl. split_and!; [lia|done|done].
    + intros dv m. rewrite I3, (refcount_insert dv m _ i ip) by done. rewrite !share_spec by (simpl; done || lia). simpl. rewrite R1, Hm1, Hn0. lia.
    + rewrite I3. unfold nidle_but. rewrite list_lookup_insert_eq, Hi by done. pose proof (nidle_insert _ _ _ (clear_ibusy ip1) Hi) as Hni.
      unfold idle_slot, last_ref in *. simpl in *. rewrite R1 in *. lia.
  - destruct ps as [|p ps]; [destruct (components_nonempty c rest Hrest); injection Hel as _ E; unfold elems in E; by destruct (components (c :: rest))|].
    injection Hel as <- Hel. pose proof (name_round_ret i inum _ _ (fun j => namei_loop fuel j (c :: rest) true) s Hq Hat Hid Hw) as Hround.
    cbn [walkable] in Hw. destruct Hw as (_ & _ & _ & Hd). cbn [resolve] in Hres. unfold name_round in Hround. cbn [andb].
    destruct (Z.eqb_spec (i_type (dnode s inum)) T_DIR) as [ET|]; [|done]. destruct (Hd ET) as (_ & _ & Hwr).
    destruct (entry s (dnode s inum) (take DIRSIZ e)) as [n|]; [|done]. destruct Hround as (j & s1 & E1 & Q1 & V1 & A1 & C1 & N1).
    destruct (IH ps (c :: rest) j n s1) as (j2 & s2 & E2 & Q2 & V2 & A2 & C2 & N2);
      [lia|done|done|lia|by eapply walkable_same; [|apply Q1|]|done|by rewrite (resolve_same s s1)|by rewrite (dnode_same s s1)|].
    exists j2, s2. split_and!; [etrans; [exact E1|exact E2]|done|by eapply same_view_trans|done| |by rewrite N2].
    intros dv m. rewrite C2, C1. lia.
Qed.

Lemma nameiparent_ret s cwd cinum path ps name dinum :
  quiet None s -> at_slot s cwd cinum -> (2 <= nidle (icache s))%nat ->
  let start := start_inum cinum path in
  walkable s start (elems path) -> elems path = ps ++ [name] -> resolve s start ps = Some dinum -> i_type (dnode s dinum) = T_DIR ->
  exists j s', nameiparent cwd path s = Ret (Some (j, name)) s' /\ quiet None s' /\ same_view (fb s) (fb s') /\ at_slot s' j dinum /\
    (forall dv m, refcount dv m (icache s') = refcount dv m (icache s) + one_ref dinum dv m) /\ nidle_but j (icache s') = nidle (icache s).
Proof.
  intros Hq Hat Hid start Hw Hel Hres HT.
  destruct (namei_start s cwd cinum path Hq Hat) as (i & s1 & E1 & F1 & Q1 & A1 & C1 & N1); [lia|]. fold start in A1, C1.
  assert (V1 : same_view (fb s) (fb s1)) by (rewrite F1; apply same_view_refl).
  destruct (parent_loop_ret (length path) ps name dinum path i start s1) as (j & s2 & E2 & Q2 & V2 & A2 & C2 & N2);
    [done|done|done|lia|by eapply walkable_same; [|apply Q1|]|done|by rewrite (resolve_same s s1)|by rewrite (dnode_same s s1)|].
  exists j, s2. split_and!; [|done|by eapply same_view_trans|done| |by rewrite N2].
  - unfold nameiparent, namei_. by rewrite (bind_ret _ _ _ _ _ E1).
  - intros dv m. rewrite C2, C1. lia.
Qed.

(** ** What a new name is on disk *)

(** A directory, its blocks, the unused entry [e] and the unused inode
    [inum]: the sectors they are in are outside the journal and do not
    overlap. *)
Record apart (N : nat) (s : fs_st) (dinum inum : Z) (e : nat) : Prop := {
  ap_dir : searchable s (dnode s dinum);
  ap_entry : first_unused_entry s (dnode s dinum) e;
  ap_inum : 0 < inum < 65536 /\ inum <> dinum /\ 0 < dinum;
  ap_outside : Forall (outside_journal N) (IBLOCK dinum :: IBLOCK inum :: file_sectors s (dnode s dinum) (Z.of_nat (dir_blocks (dnode s dinum))));
  ap_inodes : (IBLOCK dinum ∉ file_sectors s (dnode s dinum) (Z.of_nat (dir_blocks (dnode s dinum)))) /\
    (IBLOCK inum ∉ file_sectors s (dnode s dinum) (Z.of_nat (dir_blocks (dnode s dinum))));
  ap_separate : separate s (dnode s dinum) (seqZ 0 (Z.of_nat (dir_blocks (dnode s dinum))));
  ap_block : is_block (view s ROOTDEV (IBLOCK inum)) }.

(** The sectors after a new inode and a new entry were written, or before
    the entry was, when the inode is anything. *)
Definition block_of_inode (inum : Z) (old blk : block) : Prop :=
  is_block blk /\ forall jp, i_inum jp mod IPB <> inum mod IPB -> load_dinode blk jp = load_dinode old jp.
Record made_sectors (N : nat) (s : fs_st) (dinum inum : Z) (e : nat) (name : list Z) (ip : inode) (new : bool) (v : Z -> block) : Prop := {
  md_inode : block_of_inode inum (view s ROOTDEV (IBLOCK inum)) (v (IBLOCK inum));
  md_fresh : new = true -> load_dinode (v (IBLOCK inum)) ip = ip;
  md_entry : v (entry_sec s (dnode s dinum) e) =
    if new then linked_block s (dnode s dinum) e inum name else view s ROOTDEV (entry_sec s (dnode s dinum) e);
  md_other x : outside_journal N x -> x <> IBLOCK inum -> x <> entry_sec s (dnode s dinum) e -> v x = view s ROOTDEV x }.

(** What the directory and the inode are in a kernel that shows them. *)
Record made (s : fs_st) (dinum inum : Z) (name : list Z) (ip : inode) (new : bool) (s' : fs_st) : Prop := {
  mk_dir : dnode s' dinum = dnode s dinum;
  mk_entries nm : entry s' (dnode s' dinum) nm = if new && same_name nm name then Some inum else entry s (dnode s dinum) nm;
  mk_inode : new = true -> dnode s' inum = ip }.

Section made.
Context (N : nat) (s : fs_st) (dinum inum : Z) (e : nat) (name : list Z).
Hypothesis Ap : apart N s dinum inum e.
Hypothesis Hno : entry s (dnode s dinum) name = None.
Local Abbreviation d := (dnode s dinum).

Lemma entry_sec_in : entry_sec s d e ∈ file_sectors s d (Z.of_nat (dir_blocks d)).
Proof using Ap.
  apply file_sectors_sec. pose proof (entry_block d e (proj1 (se_size _ _ (ap_dir _ _ _ _ _ Ap))) (fu_inside _ _ _ (ap_entry _ _ _ _ _ Ap))). lia.
Qed.

Lemma sector_outside x : x ∈ file_sectors s d (Z.of_nat (dir_blocks d)) -> outside_journal N x /\ x <> IBLOCK inum /\ x <> IBLOCK dinum.
Proof using Ap.
  intros Hx. destruct (ap_inodes _ _ _ _ _ Ap) as [H1 H2]. pose proof (ap_outside _ _ _ _ _ Ap) as Ho.
  apply Forall_cons in Ho as [_ [_ Ho]%Forall_cons]. rewrite Forall_forall in Ho. split_and!; [by apply Ho|by intros ->|by intros ->].
Qed.

Lemma dinum_mod : IBLOCK dinum = IBLOCK inum -> dinum mod IPB <> inum mod IPB.
Proof using Ap. destruct (ap_inum _ _ _ _ _ Ap) as (H1 & H2 & H3). unfold IBLOCK. change IPB with 8. Z.div_mod_to_equations. lia. Qed.

Section view.
Context (ip : inode) (new : bool) (v : Z -> block) (s' : fs_st).
Hypothesis Hv : made_sectors N s dinum inum e name ip new v.
Hypothesis Hs' : forall x, outside_journal N x -> view s' ROOTDEV x = v x.
Hypothesis Hip : i_dev ip = ROOTDEV /\ i_inum ip = inum /\ i_ref ip = 0 /\ i_flags ip = 0.

Lemma made_dir : dnode s' dinum = d.
Proof using Ap Hv Hs'.
  pose proof (ap_outside _ _ _ _ _ Ap) as Ho. apply Forall_cons in Ho as [Ho _]. unfold dnode. rewrite Hs' by done.
  destruct (decide (IBLOCK dinum = IBLOCK inum)) as [E|E].
  - rewrite E. apply (md_inode _ _ _ _ _ _ _ _ _ Hv). by apply dinum_mod.
  - rewrite (md_other _ _ _ _ _ _ _ _ _ Hv); [done|done|done|]. intros E'. destruct (sector_outside _ entry_sec_in) as (_ & _ & H). by apply H.
Qed.

Lemma dir_block_in b : (b < dir_blocks d)%nat -> Z.of_nat b ∈ seqZ 0 (Z.of_nat (dir_blocks d)).
Proof using Type. intros Hb. apply elem_of_seqZ. lia. Qed.

Lemma entry_in : (e / DPB < dir_blocks d)%nat.
Proof using Ap. apply entry_block; [apply (ap_dir _ _ _ _ _ Ap)|apply (ap_entry _ _ _ _ _ Ap)]. Qed.

Lemma made_walk b : (b < dir_blocks d)%nat ->
  walk (view s' ROOTDEV) (i_addrs d) (Z.of_nat b) = walk (view s ROOTDEV) (i_addrs d) (Z.of_nat b).
Proof using Ap Hv Hs'.
  intros Hb. apply walk_agree. intros x Hx. change (x ∈ file_path s d (Z.of_nat b)) in Hx.
  destruct (sector_outside x) as (O1 & O2 & _); [eapply file_sectors_path; [|done]; lia|]. rewrite Hs' by done. symmetry.
  apply (md_other _ _ _ _ _ _ _ _ _ Hv); [done|done|]. intros ->.
  by apply (proj2 (ap_separate _ _ _ _ _ Ap) (Z.of_nat (e / DPB)) (Z.of_nat b)); auto using dir_block_in, entry_in.
Qed.

Lemma made_blocks b : (b < dir_blocks d)%nat ->
  file_block s' d (Z.of_nat b) =
    if decide (b = e / DPB)%nat then (if new then linked_block s d e inum name else file_block s d (Z.of_nat b)) else file_block s d (Z.of_nat b).
Proof using Ap Hv Hs'.
  intros Hb. unfold file_block at 1. change (i_dev d) with ROOTDEV. rewrite made_walk by done. change (baddr _) with (file_sec s d (Z.of_nat b)).
  destruct (sector_outside (file_sec s d (Z.of_nat b))) as (O1 & O2 & _); [apply file_sectors_sec; lia|]. rewrite Hs' by done. case_decide as Eb.
  - subst b. fold (entry_sec s d e). rewrite (md_entry _ _ _ _ _ _ _ _ _ Hv). by destruct new.
  - apply (md_other _ _ _ _ _ _ _ _ _ Hv); [done|done|]. unfold entry_sec. intros E. apply Eb. pose proof entry_in.
    apply (NoDup_lookup (file_sec s d <$> seqZ 0 (Z.of_nat (dir_blocks d))) b (e / DPB) (file_sec s d (Z.of_nat b)) (proj1 (ap_separate _ _ _ _ _ Ap)));
      rewrite list_lookup_fmap, lookup_seqZ_lt by lia; simpl; [done|by rewrite E].
Qed.

Lemma made_ok : made s dinum inum name ip new s'.
Proof using Type*.
  pose proof made_dir as Hd. pose proof made_blocks as Hbl. pose proof (md_fresh _ _ _ _ _ _ _ _ _ Hv) as Hf. pose proof (ap_outside _ _ _ _ _ Ap) as Ho. apply Forall_cons in Ho as [_ [Ho _]%Forall_cons]. split; [done| |].
  - intros nm. rewrite Hd. clear Hv Hf. destruct new; cbn [andb].
    + apply (entry_linked s s' d d e); [apply Ap|apply Ap|done|apply Ap|done|]. intros b Hb. by rewrite Hbl.
    + assert (He : forall bn k, (bn < dir_blocks d)%nat -> dir_entry s' d bn k = dir_entry s d bn k).
      { intros bn k Hb. unfold dir_entry. rewrite Hbl by done. by case_decide. }
      assert (Hin : forall bn, bn ∈ seq 0 (dir_blocks d) -> (bn < dir_blocks d)%nat) by (intros bn; rewrite elem_of_seq; lia).
      unfold entry. rewrite (dir_find_agree s s' d d nm nm) by (intros bn k Hb%Hin _; by rewrite He).
      destruct (dir_find s d nm _) as [[bn k]|] eqn:Ef; [|done]. apply dir_find_some in Ef as (Hb%Hin & _). by rewrite He.
  - intros En. unfold dnode. rewrite Hs' by done. destruct Hip as (H1 & H2 & H3 & H4).
    transitivity (load_dinode (v (IBLOCK inum)) ip); [|by apply Hf]. unfold load_dinode. by rewrite H1, H2, H3, H4.
Qed.
End view.

(** Until the entry is written the directory can be searched as before. *)
Lemma unmade_dir ip v s' :
  made_sectors N s dinum inum e name ip false v -> (forall x, outside_journal N x -> view s' ROOTDEV x = v x) ->
  (forall x, x ∈ file_sectors s d (Z.of_nat (dir_blocks d)) -> unheld s' ROOTDEV x) ->
  searchable s' d /\ first_unused_entry s' d e /\ entry s' d name = None /\
  entry_sec s' d e = entry_sec s d e /\ linked_block s' d e inum name = linked_block s d e inum name /\
  file_path s' d (Z.of_nat (e / DPB)) = file_path s d (Z.of_nat (e / DPB)).
Proof using Ap Hno.
  intros Hv Hs' Hu. pose proof (ap_dir _ _ _ _ _ Ap) as Hse. pose proof (ap_entry _ _ _ _ _ Ap) as Hfu.
  assert (Ew : forall b, (b < dir_blocks d)%nat -> walk (view s' ROOTDEV) (i_addrs d) (Z.of_nat b) = walk (view s ROOTDEV) (i_addrs d) (Z.of_nat b))
    by exact (made_walk ip false v s' Hv Hs').
  assert (Eb : forall b, (b < dir_blocks d)%nat -> file_block s' d (Z.of_nat b) = file_block s d (Z.of_nat b)).
  { intros b Hb. rewrite (made_blocks ip false v s' Hv Hs') by done. by case_decide. }
  pose proof entry_in as He. assert (Ee : forall e', (e' <= e)%nat -> nth_entry s' d e' = nth_entry s d e').
  { intros e' He'. unfold nth_entry, dir_entry. rewrite Eb; [done|]. eapply Nat.le_lt_trans; [|exact He]. by apply Nat.Div0.div_le_mono. }
  split_and!.
  - destruct Hse as [H1 H2 H3 H4]. split; [done|done|done|]. intros b Hb. destruct (H4 b Hb) as (R1 & R2 & a & R3 & R4 & R5).
    change (i_dev d) with ROOTDEV in *. pose proof (Eb b Hb) as Ebb. unfold file_block in Ebb. change (i_dev d) with ROOTDEV in Ebb.
    unfold readable. change (i_dev d) with ROOTDEV. rewrite Ew in Ebb |- * by done. rewrite R3 in Ebb. simpl in Ebb. split_and!; [apply R1|apply R1| |].
    + apply Forall_forall. intros x Hx. apply Hu. eapply file_sectors_path; [|exact Hx]. lia.
    + exists a. split; [done|]. split; [|by rewrite Ebb]. apply Hu.
      pose proof (file_sectors_sec s d (Z.of_nat (dir_blocks d)) (Z.of_nat b) ltac:(lia)) as Hi. unfold file_sec in Hi. change (i_dev d) with ROOTDEV in Hi.
      by rewrite R3 in Hi.
  - destruct Hfu as [H1 H2 H3]. split; [done|by rewrite Ee|]. intros e' He'. rewrite Ee by lia. by apply H3.
  - rewrite <-Hno. unfold entry.
    rewrite (dir_find_agree s s' d d name name); [|intros bn k [_ Hb]%elem_of_seq _; unfold dir_entry; by rewrite Eb by lia].
    destruct (dir_find s d name _) as [[bn k]|] eqn:Ef; [|done]. apply dir_find_some in Ef as ([_ Hb]%elem_of_seq & _). unfold dir_entry. by rewrite Eb by lia.
  - unfold entry_sec, file_sec. change (i_dev d) with ROOTDEV. by rewrite Ew.
  - unfold linked_block. by rewrite Eb.
  - unfold file_path. change (i_dev d) with ROOTDEV. by rewrite Ew.
Qed.
End made.
