(* ===== verification/File.v ===== *)
(** * file.c and pipealloc: open files

    The table of open files over inodes and pipes.  A pipe is named by the
    address of its page; [killed] is the caller's flag, for the calls that
    wait on a pipe. *)

From S2P Require Import Prelude CString Kalloc Layout Ide Bio Fs Pipe.

Inductive ftype : Type := FD_CLOSED | FD_NONE | FD_PIPE | FD_INODE.
#[export] Instance ftype_eq_dec : EqDecision ftype.
Proof. solve_decision. Defined.

(** [struct file] *)
Record file : Type := File {
  f_type : ftype; f_ref : Z; f_readable : Z; f_writable : Z; f_pipe : Z; f_ip : option nat; f_off : Z }.

Definition NFILE : nat := 100.

Definition set_ftype x f := File x (f_ref f) (f_readable f) (f_writable f) (f_pipe f) (f_ip f) (f_off f).
Definition set_fref x f := File (f_type f) x (f_readable f) (f_writable f) (f_pipe f) (f_ip f) (f_off f).
Definition set_foff x f := File (f_type f) (f_ref f) (f_readable f) (f_writable f) (f_pipe f) (f_ip f) x.

(** Inodes below, open files, pipes by address, and the page allocator
    pipes come from. *)
Record fl_st : Type := FlSt { f_fs : fs_st; files : list file; pipes : gmap Z pipe; pages : freelist }.
Definition set_ffs x s := FlSt x (files s) (pipes s) (pages s).
Definition set_files x s := FlSt (f_fs s) x (pipes s) (pages s).
Definition set_pipes x s := FlSt (f_fs s) (files s) x (pages s).
Definition set_pages x s := FlSt (f_fs s) (files s) (pipes s) x.

Definition fs {A} (m : M fs_st A) : M fl_st A := zoom f_fs set_ffs m.
Definition alloc {A} (m : M freelist A) : M fl_st A := zoom pages set_pages m.

Definition getf (i : nat) : M fl_st file := let! s := get in of_option "wild file pointer" (files s !! i).
Definition updf (i : nat) (g : file -> file) : M fl_st unit :=
  let! f := getf i in modify (fun s => set_files (<[i := g f]> (files s)) s).

Definition pchan (p : Z) (w : pwait) : chan := match w with OnRead => ChPipeRead p | OnWrite => ChPipeWrite p end.
Definition wakes (p : Z) (l : list pwait) : M fl_st unit := mfor l (fun w => fs (Fs.wakeup (pchan p w))).
Definition getpipe (p : Z) : M fl_st pipe := let! s := get in of_option "wild pipe pointer" (pipes s !! p).
Definition putpipe (p : Z) (x : pipe) : M fl_st unit := modify (fun s => set_pipes (<[p := x]> (pipes s)) s).

(** ** The file table *)

(** The first closed slot. *)
Fixpoint find_closed (i : nat) (l : list file) : option nat :=
  match l with
  | [] => None
  | f :: l => if decide (f_type f = FD_CLOSED) then Some i else find_closed (S i) l
  end.

Definition filealloc : M fl_st (option nat) :=
  let! s := get in
  match find_closed 0 (files s) with
  | Some i => updf i (fun f => set_fref 1 (set_ftype FD_NONE f)) ;; ret (Some i)
  | None => ret None
  end.

Definition filedup (i : nat) : M fl_st nat :=
  let! f := getf i in
  if (f_ref f <? 1) || bool_decide (f_type f = FD_CLOSED) then panic "filedup"
  else updf i (fun f => set_fref (f_ref f + 1) f) ;; ret i.

(** pipeclose with the page given back at the last close. *)
Definition pipe_close (p writable : Z) : M fl_st unit :=
  let! x := getpipe p in
  let '(x, w, gone) := pipeclose x writable in
  putpipe p x ;;
  wakes p w ;;
  if (gone : bool) then alloc (kfree p PAGE) ;; modify (fun s => set_pipes (delete p (pipes s)) s) else ret tt.

Definition fileclose (i : nat) : M fl_st unit :=
  let! f := getf i in
  if (f_ref f <? 1) || bool_decide (f_type f = FD_CLOSED) then panic "fileclose"
  else
    updf i (fun f => set_fref (f_ref f - 1) f) ;;
    if 0 <? f_ref f - 1 then ret tt
    else
      updf i (fun f => set_ftype FD_CLOSED (set_fref 0 f)) ;;
      match f_type f with
      | FD_PIPE => pipe_close (f_pipe f) (f_writable f)
      | FD_INODE => let! ip := of_option "null inode" (f_ip f) in fs (iput ip)
      | _ => panic "fileclose"
      end.

Definition filestat (i : nat) : M fl_st (option stat) :=
  let! f := getf i in
  if decide (f_type f = FD_INODE) then
    let! ip := of_option "null inode" (f_ip f) in
    fs (ilock ip) ;;
    let! st := fs (stati ip) in
    fs (iunlock ip) ;;
    ret (Some st)
  else ret None.

(** What pipealloc does once it has two files and a page of memory. *)
Definition setup_pipe (f0 f1 : nat) (p : Z) (data : list Z) : M fl_st unit :=
  putpipe p (new_pipe data) ;;
  updf f0 (fun f => File FD_PIPE (f_ref f) 1 0 p (f_ip f) (f_off f)) ;;
  updf f1 (fun f => File FD_PIPE (f_ref f) 0 1 p (f_ip f) (f_off f)).

(** [data] is what the fresh page holds where the ring buffer lies. *)
Definition pipealloc (data : list Z) : M fl_st (option (nat * nat)) :=
  let bad (f0 f1 : option nat) (p : Z) : M fl_st (option (nat * nat)) :=
    (if ctrue p then alloc (kfree p PAGE) else ret tt) ;;
    (match f0 with Some f => updf f (set_ftype FD_NONE) ;; fileclose f | None => ret tt end) ;;
    (match f1 with Some f => updf f (set_ftype FD_NONE) ;; fileclose f | None => ret tt end) ;;
    ret None in
  let! f0 := filealloc in
  match f0 with
  | None => bad None None 0
  | Some a =>
      let! f1 := filealloc in
      match f1 with
      | None => bad (Some a) None 0
      | Some b =>
          let! p := alloc (kalloc PAGE) in
          if p =? 0 then bad (Some a) (Some b) 0
          else setup_pipe a b p data ;; ret (Some (a, b))
      end
  end.

(** ** Reading and writing *)

Section io.
Context (devsw_read : Z -> option (nat -> Z -> M fs_st (Z * list Z))).
Context (devsw_write : Z -> option (nat -> list Z -> M fs_st Z)).
(** [cp->killed] *)
Context (killed : bool).

Definition pipe_read (p n : Z) : M fl_st (Z * list Z) :=
  let! x := getpipe p in
  let '(r, x, l, w) := piperead killed n x in
  putpipe p x ;;
  wakes p w ;;
  match r with
  | PRet r => ret (r, l)
  | PSleep c _ => sleep_on (pchan p c)
  end.

(** A write that has to wait sleeps with what fits already in the pipe. *)
Definition pipe_write (p : Z) (addr : Z -> Z) (n : Z) : M fl_st Z :=
  let! x := getpipe p in
  let '(r, x, w) := pipewrite killed addr n 0 x in
  putpipe p x ;;
  wakes p w ;;
  match r with
  | PRet r => ret r
  | PSleep c _ => sleep_on (pchan p c)
  end.

Definition fileread (i : nat) (n : Z) : M fl_st (Z * list Z) :=
  let! f := getf i in
  if f_readable f =? 0 then ret (-1, [])
  else match f_type f with
       | FD_PIPE => pipe_read (f_pipe f) n
       | FD_INODE =>
           let! ip := of_option "null inode" (f_ip f) in
           fs (ilock ip) ;;
           let! r := fs (readi devsw_read ip (f_off f) (u32 n)) in
           (if 0 <? fst r then updf i (fun f => set_foff (u32 (f_off f + fst r)) f) else ret tt) ;;
           fs (iunlock ip) ;;
           ret r
       | _ => panic "fileread"
       end.

(** [addr k] is byte [k] at the address written from.  Inodes take the count
    as unsigned. *)
Definition filewrite (i : nat) (addr : Z -> Z) (n : Z) : M fl_st Z :=
  let! f := getf i in
  if f_writable f =? 0 then ret (-1)
  else match f_type f with
       | FD_PIPE => pipe_write (f_pipe f) addr n
       | FD_INODE =>
           let! ip := of_option "null inode" (f_ip f) in
           fs (ilock ip) ;;
           let src := map (fun k => addr (Z.of_nat k)) (seq 0 (Z.to_nat (u32 n))) in
           let! r := fs (writei devsw_write ip src (f_off f)) in
           (if 0 <? r then updf i (fun f => set_foff (u32 (f_off f + r)) f) else ret tt) ;;
           fs (iunlock ip) ;;
           ret r
       | _ => panic "filewrite"
       end.
End io.

Definition filecheck (i : nat) (n : Z) : M fl_st Z :=
  let! f := getf i in
  if (f_readable f =? 0) && (f_writable f =? 0) then ret (-1)
  else match f_type f with
       | FD_PIPE => ret 0
       | FD_INODE =>
           let! ip := of_option "null inode" (f_ip f) in
           fs (ilock ip) ;;
           let! r := fs (checki ip n) in
           fs (iunlock ip) ;;
           ret r
       | _ => panic "filecheck"
       end.
