(* ===== verification/FileRefs.v ===== *)
(** * Reference counts of open files

    [held] lists the references processes hold on open files, one entry per
    reference.  The counters of the table agree with it under every
    operation, a file in use is never handed out again, and a pipe's page
    goes back to the allocator when both of its ends are closed. *)

From S2P Require Import Prelude CString Kalloc Layout Ide Bio Fs Pipe File.

Definition nrefs (i : nat) (held : list nat) : Z := Z.of_nat (count_occ Nat.eq_dec held i).

(** Every counter is the number of references held, a slot is closed exactly
    when there are none, and references are to slots of the table. *)
Definition refs_ok (s : fl_st) (held : list nat) : Prop :=
  (forall i f, files s !! i = Some f -> f_ref f = nrefs i held /\ (f_type f = FD_CLOSED <-> f_ref f = 0)) /\
  (forall i, i ∈ held -> (i < length (files s))%nat).

Lemma nrefs_cons i j held : nrefs i (j :: held) = (if decide (i = j) then 1 else 0) + nrefs i held.
Proof. unfold nrefs. simpl. destruct (Nat.eq_dec j i), (decide (i = j)); subst; try done; lia. Qed.

Lemma nrefs_pos i held : i ∈ held <-> 0 < nrefs i held.
Proof.
  unfold nrefs. rewrite list_elem_of_In, (count_occ_In Nat.eq_dec). lia.
Qed.

Lemma nrefs_perm i h h' : h ≡ₚ h' -> nrefs i h = nrefs i h'.
Proof. intros H. unfold nrefs. f_equal. by apply Permutation_count_occ. Qed.

Lemma getf_ret i f s : files s !! i = Some f -> getf i s = Ret f s.
Proof. intros H. unfold getf, bind, get, of_option. by rewrite H. Qed.

Lemma updf_ret i g f s : files s !! i = Some f -> updf i g s = Ret tt (set_files (<[i := g f]> (files s)) s).
Proof. intros H. unfold updf, bind. by rewrite (getf_ret _ _ _ H). Qed.

Lemma find_closed_some k l i :
  find_closed k l = Some i ->
  (k <= i)%nat /\ exists f, l !! (i - k)%nat = Some f /\ f_type f = FD_CLOSED.
Proof.
  revert k. induction l as [|f l IH]; intros k; simpl; [done|]. case_decide.
  - intros [= ->]. split; [done|]. exists f. by rewrite Nat.sub_diag.
  - intros H'. destruct (IH _ H') as (Hk & g & Hg & ?). split; [lia|]. exists g.
    by replace (i - k)%nat with (S (i - S k)) by lia.
Qed.

Lemma find_closed_none k l : find_closed k l = None -> Forall (fun f => f_type f <> FD_CLOSED) l.
Proof.
  revert k. induction l as [|f l IH]; intros k; simpl; [by constructor|].
  case_decide; [done|]. eauto.
Qed.

(** Changing one slot's counter and the references on it together. *)
Lemma refs_ok_update s s' held held' i f f' :
  refs_ok s held -> files s !! i = Some f -> files s' = <[i := f']> (files s) ->
  f_ref f' = nrefs i held' -> (f_type f' = FD_CLOSED <-> f_ref f' = 0) ->
  (forall j, j <> i -> nrefs j held' = nrefs j held) ->
  refs_ok s' held'.
Proof.
  intros [H1 H2] Hf Hs' Hr Ht Hj. split.
  - intros j g. rewrite Hs'. destruct (decide (j = i)) as [->|Hne].
    + rewrite list_lookup_insert_eq by (by eapply lookup_lt_Some). by intros [= <-].
    + rewrite list_lookup_insert_ne by done. intros Hg. rewrite Hj by done. by apply H1.
  - intros j Hin. rewrite Hs', length_insert. destruct (decide (j = i)) as [->|Hne].
    + by eapply lookup_lt_Some.
    + apply H2. rewrite nrefs_pos, <-Hj by done. by apply nrefs_pos.
Qed.

Lemma refs_ok_held s held i :
  refs_ok s held -> i ∈ held ->
  exists f, files s !! i = Some f /\ f_ref f = nrefs i held /\ 1 <= f_ref f /\ f_type f <> FD_CLOSED.
Proof.
  intros [H1 H2] Hi. destruct (lookup_lt_is_Some_2 _ _ (H2 _ Hi)) as [f Hf].
  destruct (H1 _ _ Hf) as [Hr Ht]. apply nrefs_pos in Hi. exists f. split_and!; [done..|lia|].
  intros E. apply Ht in E. lia.
Qed.

(** The guard of filedup and fileclose on a file in use. *)
Lemma in_use_guard f : 1 <= f_ref f -> f_type f <> FD_CLOSED -> ((f_ref f <? 1) || bool_decide (f_type f = FD_CLOSED)) = false.
Proof. intros. rewrite bool_decide_false by done. destruct (Z.ltb_spec (f_ref f) 1); [lia|done]. Qed.

Lemma filealloc_refs s held :
  refs_ok s held ->
  match filealloc s with
  | Ret (Some i) s' => (i ∉ held) /\ refs_ok s' (i :: held)
  | Ret None s' => s' = s /\ forall i f, files s !! i = Some f -> i ∈ held
  | _ => False
  end.
Proof.
  intros Hok. unfold filealloc, bind, get. destruct (find_closed 0 (files s)) as [i|] eqn:E; unfold ret.
  - destruct (find_closed_some _ _ _ E) as (_ & f & Hf & Ht). rewrite Nat.sub_0_r in Hf.
    rewrite (updf_ret _ _ _ _ Hf). simpl. destruct (proj1 Hok _ _ Hf) as [Hr Hc].
    assert (Hn : nrefs i held = 0) by (rewrite <-Hr; by apply Hc). split.
    + rewrite nrefs_pos. lia.
    + eapply refs_ok_update; [done|done|done|..]; simpl.
      * rewrite nrefs_cons, decide_True by done. lia.
      * done.
      * intros j Hj. by rewrite nrefs_cons, decide_False by done.
  - split; [done|]. intros i f Hf. pose proof (find_closed_none _ _ E) as Hall.
    rewrite Forall_lookup in Hall. pose proof (Hall _ _ Hf) as Hne. destruct (proj1 Hok _ _ Hf) as [Hr Hc].
    rewrite nrefs_pos, <-Hr. assert (f_ref f <> 0) by (by intros E0; apply Hne, Hc).
    unfold nrefs in Hr. lia.
Qed.

Lemma filedup_refs s held i :
  refs_ok s held -> i ∈ held -> wp (filedup i) s (fun j s' => j = i /\ refs_ok s' (i :: held)).
Proof.
  intros Hok Hi. destruct (refs_ok_held _ _ _ Hok Hi) as (f & Hf & Hr & H1 & Ht).
  unfold wp, filedup, bind. rewrite (getf_ret _ _ _ Hf), (in_use_guard _ H1 Ht), (updf_ret _ _ _ _ Hf).
  split; [done|]. eapply refs_ok_update; [done..| | |]; simpl.
  - rewrite nrefs_cons, decide_True by done. lia.
  - split; [done|lia].
  - intros j Hj. by rewrite nrefs_cons, decide_False by done.
Qed.

Lemma fileclose_step s i f :
  files s !! i = Some f -> 1 <= f_ref f -> f_type f <> FD_CLOSED ->
  fileclose i s =
    if 1 <? f_ref f then Ret tt (set_files (<[i := set_fref (f_ref f - 1) f]> (files s)) s)
    else match f_type f with
         | FD_PIPE => pipe_close (f_pipe f) (f_writable f)
         | FD_INODE => let! ip := of_option "null inode" (f_ip f) in fs (iput ip)
         | _ => panic "fileclose"
         end (set_files (<[i := set_ftype FD_CLOSED (set_fref 0 f)]> (files s)) s).
Proof.
  intros Hf H1 Ht. unfold fileclose, bind at 1.
  rewrite (getf_ret _ _ _ Hf), (in_use_guard _ H1 Ht). unfold bind at 1. rewrite (updf_ret _ _ _ _ Hf).
  destruct (Z.ltb_spec 1 (f_ref f)), (Z.ltb_spec 0 (f_ref f - 1)); try lia; [reflexivity|].
  unfold bind at 1. erewrite updf_ret
    by (cbn [files set_files]; apply list_lookup_insert_eq; by eapply lookup_lt_Some).
  cbn [files set_files f_type f_fs pipes pages]. rewrite list_insert_insert_eq. done.
Qed.

(** What runs below the file table leaves the table alone, whatever its
    outcome. *)
Lemma fs_files {A} (m : M fs_st A) s : files (final (fs m s)) = files s.
Proof. unfold fs, zoom. by destruct (m (f_fs s)). Qed.

Lemma wakes_ret p l s :
  exists b, wakes p l s = Ret tt (set_ffs b s).
Proof.
  revert s. induction l as [|w l IH]; intros s.
  - exists (f_fs s). by destruct s.
  - destruct (IH (set_ffs (final (Fs.wakeup (pchan p w) (f_fs s))) s)) as [b Hb]. exists b.
    unfold wakes in *. simpl. unfold bind. exact Hb.
Qed.

Lemma getpipe_eq p s :
  getpipe p s = match pipes s !! p with Some x => Ret x s | None => Undef "wild pipe pointer" s end.
Proof. unfold getpipe, bind, get, of_option. by destruct (pipes s !! p). Qed.

Lemma pipe_close_files p w s : files (final (pipe_close p w s)) = files s.
Proof.
  unfold pipe_close, bind. rewrite getpipe_eq. destruct (pipes s !! p) as [x|]; [|done].
  destruct (pipeclose x w) as [[x' l] gone]. unfold putpipe, modify.
  destruct (wakes_ret p l (set_pipes (<[p:=x']> (pipes s)) s)) as [b ->].
  destruct gone; [|done]. unfold alloc, zoom. simpl. by destruct (kfree p PAGE (pages s)).
Qed.

Lemma fileclose_refs s held i :
  refs_ok s (i :: held) ->
  refs_ok (final (fileclose i s)) held /\
  (i ∈ held -> exists s', fileclose i s = Ret tt s' /\ f_fs s' = f_fs s /\ pipes s' = pipes s /\ pages s' = pages s).
Proof.
  intros Hok. destruct (refs_ok_held _ _ _ Hok (list_elem_of_here _ _)) as (f & Hf & Hr & H1 & Ht).
  rewrite (fileclose_step _ _ _ Hf H1 Ht). rewrite nrefs_cons, decide_True in Hr by done.
  assert (Hj : forall j, j <> i -> nrefs j held = nrefs j (i :: held))
    by (intros j Hj; by rewrite nrefs_cons, decide_False by done).
  destruct (Z.ltb_spec 1 (f_ref f)) as [Hlt|Hle].
  - split; [|intros _; by eexists]. eapply refs_ok_update; [exact Hok|exact Hf|done|..]; simpl; [lia|split; [done|lia]|done].
  - split; [|rewrite nrefs_pos; lia]. eapply refs_ok_update; [exact Hok|exact Hf| |..].
    + instantiate (1 := set_ftype FD_CLOSED (set_fref 0 f)).
      destruct (f_type f); [done|done|by rewrite pipe_close_files|].
      destruct (f_ip f) as [ip|]; [|done]. apply (fs_files (iput ip)).
    + simpl. lia.
    + done.
    + done.
Qed.

(** C28: the counters of the file table are the numbers of references held.
    filealloc hands out a slot nobody holds with one reference, and fails
    only when every slot is held; filedup of a held file returns it with one
    more reference; fileclose drops one, and while others remain touches
    neither inodes, pipes nor pages. *)
Theorem file_refcounts (s : fl_st) (held : list nat) :
  refs_ok s held ->
  match filealloc s with
  | Ret (Some i) s' => (i ∉ held) /\ refs_ok s' (i :: held)
  | Ret None s' => s' = s /\ forall i f, files s !! i = Some f -> i ∈ held
  | _ => False
  end /\
  (forall i, i ∈ held -> wp (filedup i) s (fun j s' => j = i /\ refs_ok s' (i :: held))) /\
  (forall i rest, held ≡ₚ i :: rest ->
     refs_ok (final (fileclose i s)) rest /\
     (i ∈ rest -> exists s', fileclose i s = Ret tt s' /\ f_fs s' = f_fs s /\ pipes s' = pipes s /\ pages s' = pages s)).
Proof.
  intros Hok. split_and!; [by apply filealloc_refs|intros; by apply filedup_refs|].
  intros i rest Hp. apply fileclose_refs. destruct Hok as [H1 H2]. split.
  - intros j f Hf. rewrite <-(nrefs_perm _ _ _ Hp). by apply H1.
  - intros j. rewrite <-Hp. apply H2.
Qed.

(** ** The life of a pipe *)

Lemma pipe_close_ret p w s x :
  pipes s !! p = Some x ->
  let '(x', l, gone) := pipeclose x w in
  exists b, pipe_close p w s =
    if gone then (alloc (kfree p PAGE) ;; modify (fun s => set_pipes (delete p (pipes s)) s))
                   (set_ffs b (set_pipes (<[p := x']> (pipes s)) s))
    else Ret tt (set_ffs b (set_pipes (<[p := x']> (pipes s)) s)).
Proof.
  intros H. destruct (pipeclose x w) as [[x' l] gone] eqn:E.
  destruct (wakes_ret p l (set_pipes (<[p:=x']> (pipes s)) s)) as [b Hb]. exists b.
  unfold pipe_close, bind. rewrite getpipe_eq, H, E.
  unfold putpipe, modify. rewrite Hb. by destruct gone.
Qed.

Lemma alloc_kfree p s l :
  kfree p PAGE (pages s) = Ret tt l ->
  (alloc (kfree p PAGE) ;; modify (fun s => set_pipes (delete p (pipes s)) s)) s
    = Ret tt (FlSt (f_fs s) (files s) (delete p (pipes s)) l).
Proof. intros H. unfold bind, alloc, zoom. by rewrite H. Qed.

(** The two ends of a pipe, each with its only reference. *)
Definition pipe_end (p w : Z) (f : file) : Prop :=
  f_type f = FD_PIPE /\ f_ref f = 1 /\ f_pipe f = p /\ f_writable f = w.

Lemma close_end s i f p w :
  files s !! i = Some f -> pipe_end p w f ->
  fileclose i s = pipe_close p w (set_files (<[i := set_ftype FD_CLOSED (set_fref 0 f)]> (files s)) s).
Proof.
  intros Hf (Ht & Hr & Hp & Hw). rewrite (fileclose_step _ _ _ Hf) by (rewrite ?Ht, ?Hr; done || lia).
  by rewrite Hr, Ht, Hp, Hw.
Qed.

(** Closing an end while the other is open, and closing the last one. *)
Lemma close_first s i f p w x :
  files s !! i = Some f -> pipe_end p w f -> pipes s !! p = Some x -> snd (pipeclose x w) = false ->
  exists b, fileclose i s = Ret tt (FlSt b (<[i := set_ftype FD_CLOSED (set_fref 0 f)]> (files s))
                                        (<[p := fst (fst (pipeclose x w))]> (pipes s)) (pages s)).
Proof.
  intros Hf He Hp Hg. rewrite (close_end _ _ _ _ _ Hf He).
  pose proof (pipe_close_ret p w (set_files (<[i := set_ftype FD_CLOSED (set_fref 0 f)]> (files s)) s) x Hp) as H.
  destruct (pipeclose x w) as [[x' l] gone]. simpl in Hg. subst gone. destruct H as [b ->]. by exists b.
Qed.

Lemma close_last s i f p w x l :
  files s !! i = Some f -> pipe_end p w f -> pipes s !! p = Some x -> snd (pipeclose x w) = true ->
  kfree p PAGE (pages s) = Ret tt l ->
  exists b, fileclose i s = Ret tt (FlSt b (<[i := set_ftype FD_CLOSED (set_fref 0 f)]> (files s)) (delete p (pipes s)) l).
Proof.
  intros Hf He Hp Hg Hk. rewrite (close_end _ _ _ _ _ Hf He).
  pose proof (pipe_close_ret p w (set_files (<[i := set_ftype FD_CLOSED (set_fref 0 f)]> (files s)) s) x Hp) as H.
  destruct (pipeclose x w) as [[x' l'] gone]. simpl in Hg. subst gone. destruct H as [b ->]. exists b.
  erewrite alloc_kfree by exact Hk. simpl. by rewrite delete_insert_eq.
Qed.

Lemma close_both s a b p fa fb d l wa :
  a <> b -> files s !! a = Some fa -> files s !! b = Some fb ->
  (wa = 0 \/ wa = 1) -> pipe_end p wa fa -> pipe_end p (1 - wa) fb ->
  pipes s !! p = Some (Pipe 1 1 0 0 d) -> kfree p PAGE (pages s) = Ret tt l ->
  exists fs', (fileclose a ;; fileclose b) s =
    Ret tt (FlSt fs' (<[b := set_ftype FD_CLOSED (set_fref 0 fb)]> (<[a := set_ftype FD_CLOSED (set_fref 0 fa)]> (files s)))
                 (delete p (pipes s)) l).
Proof.
  intros Hab Ha Hb Hwa Hea Heb Hp Hk. unfold bind.
  destruct (close_first _ _ _ _ _ _ Ha Hea Hp) as [b1 ->]; [by destruct Hwa as [-> | ->]|].
  set (x := fst _). assert (Hx : snd (pipeclose x (1 - wa)) = true) by (by destruct Hwa as [-> | ->]).
  set (s1 := FlSt _ _ _ _).
  destruct (close_last s1 b fb p (1 - wa) x l) as [b2 ->]; simpl; [by rewrite list_lookup_insert_ne|done| |done..|].
  - by rewrite lookup_insert_eq.
  - exists b2. by rewrite delete_insert_eq.
Qed.

Lemma find_closed_files s i s1 :
  filealloc s = Ret (Some i) s1 ->
  exists f, files s !! i = Some f /\ f_type f = FD_CLOSED /\
    s1 = set_files (<[i := set_fref 1 (set_ftype FD_NONE f)]> (files s)) s.
Proof.
  unfold filealloc, bind, get. destruct (find_closed 0 (files s)) as [j|] eqn:E; [|done].
  destruct (find_closed_some _ _ _ E) as (_ & f & Hf & Ht). rewrite Nat.sub_0_r in Hf.
  rewrite (updf_ret _ _ _ _ Hf). intros [= <- <-]. eauto.
Qed.

(** What a successful pipealloc leaves behind. *)
Lemma pipealloc_ret s data a b s' :
  pipealloc data s = Ret (Some (a, b)) s' ->
  a <> b /\ exists p l fa fb, kalloc PAGE (pages s) = Ret p l /\ p <> 0 /\
    f_type <$> files s !! a = Some FD_CLOSED /\ f_type <$> files s !! b = Some FD_CLOSED /\
    pipe_end p 0 fa /\ pipe_end p 1 fb /\
    s' = FlSt (f_fs s) (<[b := fb]> (<[a := fa]> (files s))) (<[p := new_pipe data]> (pipes s)) l.
Proof.
  unfold pipealloc. intros (fa0 & s1 & H1 & H)%bind_inv. destruct fa0 as [a'|].
  2: { by repeat (apply bind_inv in H as (? & ? & _ & H)). }
  apply bind_inv in H as (fb0 & s2 & H2 & H). destruct fb0 as [b'|].
  2: { by repeat (apply bind_inv in H as (? & ? & _ & H)). }
  apply bind_inv in H as (p & s3 & H3 & H). destruct (Z.eqb_spec p 0) as [|Hp].
  { by repeat (apply bind_inv in H as (? & ? & _ & H)). }
  destruct (find_closed_files _ _ _ H1) as (fa & Hfa & Hta & ->).
  destruct (find_closed_files _ _ _ H2) as (fb & Hfb & Htb & ->). simpl in Hfb.
  assert (Hab : a' <> b').
  { intros ->. rewrite list_lookup_insert_eq in Hfb by (by eapply lookup_lt_Some). by injection Hfb as <-. }
  rewrite list_lookup_insert_ne in Hfb by done.
  unfold alloc, zoom in H3. simpl in H3. destruct (kalloc PAGE (pages s)) as [q l| | | |] eqn:Hk; try discriminate.
  injection H3 as <- <-. apply bind_inv in H as (u & s4 & H4 & [= <- <- <-]). split; [done|].
  unfold setup_pipe, bind, putpipe, modify in H4. simpl in H4.
  assert (La : (a' < length (files s))%nat) by (by eapply lookup_lt_Some).
  assert (Lb : (b' < length (files s))%nat) by (by eapply lookup_lt_Some).
  erewrite updf_ret in H4 by (simpl; rewrite list_lookup_insert_ne by done; by apply list_lookup_insert_eq). simpl in H4.
  erewrite updf_ret in H4 by (simpl; rewrite list_lookup_insert_ne by done; apply list_lookup_insert_eq; by rewrite length_insert).
  injection H4 as _ <-. simpl.
  eexists q, l, _, _. rewrite Hfa, Hfb. split_and!; [done|done|simpl; by f_equal|simpl; by f_equal| | |].
  3: { f_equal. rewrite (list_insert_insert_ne _ b' a') by done. rewrite list_insert_insert_eq.
       rewrite (list_insert_insert_ne _ a' b') by done. rewrite list_insert_insert_eq.
       rewrite (list_insert_insert_ne _ a' b') by done. reflexivity. }
  all: done.
Qed.

(** A pipe's page lives exactly as long as the pipe.  After pipealloc,
    closing its two files, in either order, closes both slots, removes the
    pipe and gives the page back: the allocator is as it was before. *)
Theorem pipe_lifecycle (s s' : fl_st) (data : list Z) (a b x y : nat) :
  wf (pages s) -> pipealloc data s = Ret (Some (a, b)) s' ->
  (x = a /\ y = b \/ x = b /\ y = a) ->
  wp (fileclose x ;; fileclose y) s' (fun _ s'' =>
    pages s'' = pages s /\ (forall p, pipes s !! p = None -> pipes s'' !! p = None) /\
    f_type <$> files s'' !! a = Some FD_CLOSED /\ f_type <$> files s'' !! b = Some FD_CLOSED /\
    forall i, i <> a -> i <> b -> files s'' !! i = files s !! i).
Proof.
  intros Hwf H Hxy. destruct (pipealloc_ret _ _ _ _ _ H) as (Hab & p & l & fa & fb & Hk & Hp & Ha & Hb & Hea & Heb & ->).
  assert (Hf : kfree p PAGE l = Ret tt (pages s)) by (by eapply kfree_kalloc).
  destruct (files s !! a) eqn:La; [|done]. destruct (files s !! b) eqn:Lb; [|done].
  apply lookup_lt_Some in La, Lb. apply wp_returns.
  destruct Hxy as [[-> ->] | [-> ->]];
    [edestruct (close_both (FlSt (f_fs s) (<[b := fb]> (<[a := fa]> (files s))) (<[p := new_pipe data]> (pipes s)) l)
       a b p fa fb data (pages s) 0) as [fs' Hc]
    |edestruct (close_both (FlSt (f_fs s) (<[b := fb]> (<[a := fa]> (files s))) (<[p := new_pipe data]> (pipes s)) l)
       b a p fb fa data (pages s) 1) as [fs' Hc]]; simpl; try done;
    try (rewrite list_lookup_insert_ne by done); try (apply list_lookup_insert_eq; by rewrite ?length_insert);
    try (apply lookup_insert_eq); [by left|idtac|by right|idtac]; (exists tt; eexists; split; [exact Hc|]); simpl;
    (split_and!; [done|intros q; rewrite delete_insert_eq; destruct (decide (q = p)) as [->|];
       [by rewrite lookup_delete_eq|by rewrite lookup_delete_ne]|..]).
  all: try (intros i Hi1 Hi2; by rewrite !list_lookup_insert_ne by done).
  all: repeat ((rewrite list_lookup_insert_eq by (by rewrite ?length_insert)) || (rewrite list_lookup_insert_ne by done)); done.
Qed.

(** Three slots, the second an open inode with two references. *)
Definition demo_files : fl_st :=
  FlSt (FsSt (boot 2 ∅) [])
    [File FD_CLOSED 0 0 0 0 None 0; File FD_INODE 2 1 1 0 (Some O) 0; File FD_CLOSED 0 0 0 0 None 0]
    ∅ [Run 4096 4096; Run 12288 12288].

Lemma file_refcounts_witness :
  (exists s', fileclose 1 demo_files = Ret tt s' /\ refs_ok s' [1%nat]) /\
  wp (filedup 1) demo_files (fun j s' => j = 1%nat /\ refs_ok s' [1; 1; 1]%nat).
Proof.
  destruct (file_refcounts demo_files [1; 1]%nat) as (_ & Hd & Hc).
  { split.
    - intros [|[|[|i]]] f; [intros [= <-]; split; done..|done].
    - intros i. rewrite !elem_of_cons, elem_of_nil. simpl. lia. }
  split; [|by apply Hd, list_elem_of_here].
  destruct (Hc 1%nat [1%nat]) as [Hr Hk]; [done|].
  destruct (Hk (list_elem_of_here _ _)) as (s' & E & _). rewrite E in Hr. eauto.
Defined.

Lemma pipe_lifecycle_witness :
  exists s', pipealloc [] demo_files = Ret (Some (0, 2)%nat) s' /\
    wp (fileclose 2 ;; fileclose 0) s' (fun _ s'' => pages s'' = pages demo_files).
Proof.
  eexists. split; [reflexivity|].
  eapply wp_mono; [eapply (pipe_lifecycle demo_files _ [] 0 2 2 0)|by intros ? ? [? _]].
  - split; [simpl; unfold rend; simpl; lia|]. repeat constructor; simpl; [by exists 1|by exists 3].
  - reflexivity.
  - by right.
Defined.
