(* ===== verification/Mmu.v ===== *)
(** * mmu.h: segment and gate descriptors

    Bit fields are integers cut to their width, as the compiler stores them.
    What the processor reads back from a descriptor ([seg_base],
    [seg_limit], [gate_offset]) is the x86 definition of the format. *)

From S2P Require Import Prelude.

Definition STA_X : Z := 8.
Definition STA_W : Z := 2.
Definition STA_R : Z := 2.
Definition STS_T32A : Z := 9.
Definition STS_IG32 : Z := 14.
Definition STS_TG32 : Z := 15.
Definition DPL_USER : Z := 3.

(** [struct segdesc] *)
Record segdesc : Type := Segdesc {
  lim_15_0 : Z; base_15_0 : Z; base_23_16 : Z; sd_type : Z; sd_s : Z; sd_dpl : Z; sd_p : Z;
  lim_19_16 : Z; sd_avl : Z; sd_rsv1 : Z; sd_db : Z; sd_g : Z; base_31_24 : Z }.

(** A value stored in a bit field of [w] bits. *)
Definition field (w z : Z) : Z := z mod 2 ^ w.

Definition SEG_NULL : segdesc := Segdesc 0 0 0 0 0 0 0 0 0 0 0 0 0.

Definition SEG (type base lim dpl : Z) : segdesc :=
  Segdesc (field 16 (Z.land (Z.shiftr lim 12) 65535)) (field 16 (Z.land base 65535))
          (field 8 (Z.land (Z.shiftr base 16) 255)) (field 4 type) 1 (field 2 dpl) 1
          (field 4 (Z.shiftr (u32 lim) 28)) 0 0 1 1 (field 8 (Z.shiftr (u32 base) 24)).

Definition SEG16 (type base lim dpl : Z) : segdesc :=
  Segdesc (field 16 (Z.land lim 65535)) (field 16 (Z.land base 65535))
          (field 8 (Z.land (Z.shiftr base 16) 255)) (field 4 type) 1 (field 2 dpl) 1
          (field 4 (Z.shiftr (u32 lim) 16)) 0 0 1 0 (field 8 (Z.shiftr (u32 base) 24)).

Definition set_s (x : Z) (d : segdesc) : segdesc :=
  Segdesc (lim_15_0 d) (base_15_0 d) (base_23_16 d) (sd_type d) x (sd_dpl d) (sd_p d) (lim_19_16 d)
          (sd_avl d) (sd_rsv1 d) (sd_db d) (sd_g d) (base_31_24 d).

(** [struct gatedesc] and [SETGATE]. *)
Record gatedesc : Type := Gatedesc {
  off_15_0 : Z; gd_cs : Z; gd_args : Z; gd_rsv1 : Z; gd_type : Z; gd_s : Z; gd_dpl : Z; gd_p : Z; off_31_16 : Z }.

Definition SETGATE (istrap sel off d : Z) : gatedesc :=
  Gatedesc (field 16 (Z.land (u32 off) 65535)) (field 16 sel) 0 0
           (if ctrue istrap then STS_TG32 else STS_IG32) 0 (field 2 d) 1 (field 16 (Z.shiftr (u32 off) 16)).

(** ** What the processor makes of a descriptor *)

Definition seg_base (d : segdesc) : Z := base_15_0 d + 65536 * base_23_16 d + 16777216 * base_31_24 d.
Definition seg_limit (d : segdesc) : Z :=
  let l := lim_15_0 d + 65536 * lim_19_16 d in if ctrue (sd_g d) then l * 4096 + 4095 else l.
Definition gate_offset (g : gatedesc) : Z := off_15_0 g + 65536 * off_31_16 g.

(** Three bit fields put back together. *)
Lemma split_base b : 0 <= b < u32_mod -> b mod 65536 + 65536 * (b / 65536 mod 256) + 16777216 * (b / 16777216) = b.
Proof.
  intros Hb. pose proof (Z.div_mod b 65536 ltac:(done)). pose proof (Z.div_mod (b / 65536) 256 ltac:(done)).
  rewrite Z.div_div in * by done. change (65536 * 256) with 16777216 in *. lia.
Qed.

Lemma field_land w z : 0 <= w -> field w (Z.land z (Z.ones w)) = z mod 2 ^ w.
Proof. intros. unfold field. rewrite Z.land_ones by done. apply Z.mod_mod. pose proof (Z.pow_pos_nonneg 2 w). lia. Qed.

Lemma seg_base_SEG ty b lim dpl : 0 <= b < u32_mod -> seg_base (SEG ty b lim dpl) = b.
Proof.
  intros Hb. unfold seg_base, SEG. cbn [base_15_0 base_23_16 base_31_24].
  change 65535 with (Z.ones 16). change 255 with (Z.ones 8). rewrite !field_land by done.
  rewrite (u32_small b), !Z.shiftr_div_pow2 by done. change (2 ^ 16) with 65536. change (2 ^ 24) with 16777216.
  unfold field. change (2 ^ 8) with 256. rewrite (Z.mod_small (b / 16777216)).
  - by apply split_base.
  - unfold u32_mod in Hb. split; [apply Z.div_pos; lia|apply Z.div_lt_upper_bound; lia].
Qed.

(** The limit is exact when it ends a page: [lim + 1] a multiple of 4096. *)
Lemma seg_limit_SEG ty b lim dpl :
  0 <= lim < u32_mod -> (4096 | lim + 1) -> seg_limit (SEG ty b lim dpl) = lim.
Proof.
  intros Hl [k Hk]. unfold seg_limit, SEG. cbn [lim_15_0 lim_19_16 sd_g]. change (ctrue 1) with true. cbv iota zeta.
  change 65535 with (Z.ones 16). rewrite field_land by done. rewrite (u32_small lim), !Z.shiftr_div_pow2 by done.
  change (2 ^ 16) with 65536. change (2 ^ 12) with 4096. change (2 ^ 28) with (4096 * 65536).
  assert (E : lim / 4096 = k - 1) by (symmetry; apply (Z.div_unique lim 4096 _ 4095); lia).
  rewrite <-Z.div_div, E by done. unfold field. change (2 ^ 4) with 16.
  unfold u32_mod in Hl. pose proof (Z.div_mod (k - 1) 65536 ltac:(done)).
  assert ((k - 1) / 65536 < 16) by (apply Z.div_lt_upper_bound; lia).
  assert (0 <= (k - 1) / 65536) by (apply Z.div_pos; lia).
  rewrite (Z.mod_small ((k - 1) / 65536)) by lia. lia.
Qed.

Lemma gate_offset_SETGATE istrap sel off d : 0 <= off < u32_mod -> gate_offset (SETGATE istrap sel off d) = off.
Proof.
  intros Ho. unfold gate_offset, SETGATE. cbn [off_15_0 off_31_16]. change 65535 with (Z.ones 16).
  rewrite field_land by done. rewrite (u32_small off), Z.shiftr_div_pow2 by done.
  unfold field. change (2 ^ 16) with 65536. rewrite (Z.mod_small (off / 65536)).
  - pose proof (Z.div_mod off 65536 ltac:(done)). lia.
  - unfold u32_mod in Ho. split; [apply Z.div_pos; lia|apply Z.div_lt_upper_bound; lia].
Qed.
