(* ===== verification/Proc.v ===== *)
(** * proc.c: processes

    The process table, the ticket count, memory and the segment registers of
    the processor, over open files and the page allocator.  A process and the
    current one are table indices.  The trap frame is a record of its own
    rather than bytes of the kernel stack (SysPath relates the two).  The
    saved context of a process (always [forkret] for a new one) is the subject
    of Asm.

    A component below records the wakeup calls it makes; [kfl] delivers them
    to the table.  A component that sleeps stops the run; [kfl] puts the
    current process to sleep on the channel.  Routines run with
    [proc_table_lock] held as the source holds it; the lock itself is the
    subject of [Spinlock]. *)

From S2P Require Import Prelude CString Kalloc Layout Ide Bio Fs Pipe File Mmu Spinlock.

Definition NPROC : nat := 64.
Definition NOFILE : nat := 16.
Definition KSTACKSIZE : Z := PAGE.
Definition SEG_KCODE : Z := 1.
Definition SEG_KDATA : Z := 2.
Definition SEG_UCODE : Z := 3.
Definition SEG_UDATA : Z := 4.
Definition SEG_TSS : Z := 5.

Inductive proc_state : Type := UNUSED | EMBRYO | SLEEPING | RUNNABLE | RUNNING | ZOMBIE.
#[export] Instance proc_state_eq_dec : EqDecision proc_state.
Proof. solve_decision. Defined.

(** [struct trapframe], padding apart. *)
Record trapframe : Type := Trapframe {
  edi : Z; esi : Z; ebp : Z; oesp : Z; ebx : Z; edx : Z; ecx : Z; eax : Z;
  tf_es : Z; tf_ds : Z; trapno : Z; err : Z; eip : Z; tf_cs : Z; tf_eflags : Z; esp : Z; tf_ss : Z }.
Definition zero_tf : trapframe := Trapframe 0 0 0 0 0 0 0 0 0 0 0 0 0 0 0 0 0.
Definition set_ebp x t := Trapframe (edi t) (esi t) x (oesp t) (ebx t) (edx t) (ecx t) (eax t) (tf_es t) (tf_ds t) (trapno t) (err t) (eip t) (tf_cs t) (tf_eflags t) (esp t) (tf_ss t).
Definition set_eax x t := Trapframe (edi t) (esi t) (ebp t) (oesp t) (ebx t) (edx t) (ecx t) x (tf_es t) (tf_ds t) (trapno t) (err t) (eip t) (tf_cs t) (tf_eflags t) (esp t) (tf_ss t).
Definition set_eip x t := Trapframe (edi t) (esi t) (ebp t) (oesp t) (ebx t) (edx t) (ecx t) (eax t) (tf_es t) (tf_ds t) (trapno t) (err t) x (tf_cs t) (tf_eflags t) (esp t) (tf_ss t).
Definition set_esp x t := Trapframe (edi t) (esi t) (ebp t) (oesp t) (ebx t) (edx t) (ecx t) (eax t) (tf_es t) (tf_ds t) (trapno t) (err t) (eip t) (tf_cs t) (tf_eflags t) x (tf_ss t).

(** [struct proc] *)
Record proc : Type := Proc {
  p_mem : Z; p_sz : Z; p_kstack : Z; p_state : proc_state; p_pid : Z; p_parent : option nat;
  p_chan : option chan; p_killed : Z; p_ofile : list (option nat); p_cwd : option nat;
  p_tf : trapframe; p_name : list Z; p_tctcnt : Z; p_cond_addr : Z; p_ct : mem_trans }.
Definition set_p_mem x p := Proc x (p_sz p) (p_kstack p) (p_state p) (p_pid p) (p_parent p) (p_chan p) (p_killed p) (p_ofile p) (p_cwd p) (p_tf p) (p_name p) (p_tctcnt p) (p_cond_addr p) (p_ct p).
Definition set_p_sz x p := Proc (p_mem p) x (p_kstack p) (p_state p) (p_pid p) (p_parent p) (p_chan p) (p_killed p) (p_ofile p) (p_cwd p) (p_tf p) (p_name p) (p_tctcnt p) (p_cond_addr p) (p_ct p).
Definition set_p_kstack x p := Proc (p_mem p) (p_sz p) x (p_state p) (p_pid p) (p_parent p) (p_chan p) (p_killed p) (p_ofile p) (p_cwd p) (p_tf p) (p_name p) (p_tctcnt p) (p_cond_addr p) (p_ct p).
Definition set_p_state x p := Proc (p_mem p) (p_sz p) (p_kstack p) x (p_pid p) (p_parent p) (p_chan p) (p_killed p) (p_ofile p) (p_cwd p) (p_tf p) (p_name p) (p_tctcnt p) (p_cond_addr p) (p_ct p).
Definition set_p_pid x p := Proc (p_mem p) (p_sz p) (p_kstack p) (p_state p) x (p_parent p) (p_chan p) (p_killed p) (p_ofile p) (p_cwd p) (p_tf p) (p_name p) (p_tctcnt p) (p_cond_addr p) (p_ct p).
Definition set_p_parent x p := Proc (p_mem p) (p_sz p) (p_kstack p) (p_state p) (p_pid p) x (p_chan p) (p_killed p) (p_ofile p) (p_cwd p) (p_tf p) (p_name p) (p_tctcnt p) (p_cond_addr p) (p_ct p).
Definition set_p_chan x p := Proc (p_mem p) (p_sz p) (p_kstack p) (p_state p) (p_pid p) (p_parent p) x (p_killed p) (p_ofile p) (p_cwd p) (p_tf p) (p_name p) (p_tctcnt p) (p_cond_addr p) (p_ct p).
Definition set_p_killed x p := Proc (p_mem p) (p_sz p) (p_kstack p) (p_state p) (p_pid p) (p_parent p) (p_chan p) x (p_ofile p) (p_cwd p) (p_tf p) (p_name p) (p_tctcnt p) (p_cond_addr p) (p_ct p).
Definition set_p_ofile x p := Proc (p_mem p) (p_sz p) (p_kstack p) (p_state p) (p_pid p) (p_parent p) (p_chan p) (p_killed p) x (p_cwd p) (p_tf p) (p_name p) (p_tctcnt p) (p_cond_addr p) (p_ct p).
Definition set_p_cwd x p := Proc (p_mem p) (p_sz p) (p_kstack p) (p_state p) (p_pid p) (p_parent p) (p_chan p) (p_killed p) (p_ofile p) x (p_tf p) (p_name p) (p_tctcnt p) (p_cond_addr p) (p_ct p).
Definition set_p_tf x p := Proc (p_mem p) (p_sz p) (p_kstack p) (p_state p) (p_pid p) (p_parent p) (p_chan p) (p_killed p) (p_ofile p) (p_cwd p) x (p_name p) (p_tctcnt p) (p_cond_addr p) (p_ct p).
Definition set_p_name x p := Proc (p_mem p) (p_sz p) (p_kstack p) (p_state p) (p_pid p) (p_parent p) (p_chan p) (p_killed p) (p_ofile p) (p_cwd p) (p_tf p) x (p_tctcnt p) (p_cond_addr p) (p_ct p).
Definition set_p_tctcnt x p := Proc (p_mem p) (p_sz p) (p_kstack p) (p_state p) (p_pid p) (p_parent p) (p_chan p) (p_killed p) (p_ofile p) (p_cwd p) (p_tf p) (p_name p) x (p_cond_addr p) (p_ct p).
Definition set_p_cond_addr x p := Proc (p_mem p) (p_sz p) (p_kstack p) (p_state p) (p_pid p) (p_parent p) (p_chan p) (p_killed p) (p_ofile p) (p_cwd p) (p_tf p) (p_name p) (p_tctcnt p) x (p_ct p).
Definition set_p_ct x p := Proc (p_mem p) (p_sz p) (p_kstack p) (p_state p) (p_pid p) (p_parent p) (p_chan p) (p_killed p) (p_ofile p) (p_cwd p) (p_tf p) (p_name p) (p_tctcnt p) (p_cond_addr p) x.

(** The transaction a process starts with. *)
Definition empty_ct : mem_trans := MemTrans [] true 0.

(** The kernel.  The transaction of the current process is the one the
    buffer cache works on; [p_ct] of the others is where theirs waits. *)
Record kst : Type := Kst {
  k_fl : fl_st; kmem : mem; procs : list proc; initproc : option nat; nextpid : Z; ttltcts : Z;
  cur : option nat; ticks : Z; gdt : list segdesc; esp0 : Z }.
Definition set_k_fl x s := Kst x (kmem s) (procs s) (initproc s) (nextpid s) (ttltcts s) (cur s) (ticks s) (gdt s) (esp0 s).
Definition set_kmem x s := Kst (k_fl s) x (procs s) (initproc s) (nextpid s) (ttltcts s) (cur s) (ticks s) (gdt s) (esp0 s).
Definition set_procs x s := Kst (k_fl s) (kmem s) x (initproc s) (nextpid s) (ttltcts s) (cur s) (ticks s) (gdt s) (esp0 s).
Definition set_initproc x s := Kst (k_fl s) (kmem s) (procs s) x (nextpid s) (ttltcts s) (cur s) (ticks s) (gdt s) (esp0 s).
Definition set_nextpid x s := Kst (k_fl s) (kmem s) (procs s) (initproc s) x (ttltcts s) (cur s) (ticks s) (gdt s) (esp0 s).
Definition set_ttltcts x s := Kst (k_fl s) (kmem s) (procs s) (initproc s) (nextpid s) x (cur s) (ticks s) (gdt s) (esp0 s).
Definition set_cur x s := Kst (k_fl s) (kmem s) (procs s) (initproc s) (nextpid s) (ttltcts s) x (ticks s) (gdt s) (esp0 s).
Definition set_ticks x s := Kst (k_fl s) (kmem s) (procs s) (initproc s) (nextpid s) (ttltcts s) (cur s) x (gdt s) (esp0 s).
Definition set_gdt x s := Kst (k_fl s) (kmem s) (procs s) (initproc s) (nextpid s) (ttltcts s) (cur s) (ticks s) x (esp0 s).
Definition set_esp0 x s := Kst (k_fl s) (kmem s) (procs s) (initproc s) (nextpid s) (ttltcts s) (cur s) (ticks s) (gdt s) x.

Definition getp (i : nat) : M kst proc := let! s := get in of_option "wild proc pointer" (procs s !! i).
Definition updp (i : nat) (g : proc -> proc) : M kst unit :=
  let! p := getp i in modify (fun s => set_procs (<[i := g p]> (procs s)) s).

(** [cp], as a pointer and as what it points to. *)
Definition cp : M kst nat := let! s := get in of_option "no current process" (cur s).
Definition cproc : M kst proc := let! i := cp in getp i.
Definition updcp (g : proc -> proc) : M kst unit := let! i := cp in updp i g.

(** ** Sleep and wakeup *)

(** A null channel is [None]. *)
Definition wake (c : option chan) (p : proc) : proc :=
  if decide (p_state p = SLEEPING) then if decide (p_chan p = c) then set_p_state RUNNABLE p else p else p.
Definition wakeup1 (c : option chan) : M kst unit := modify (fun s => set_procs (wake c <$> procs s) s).
Definition wakeup (c : chan) : M kst unit := wakeup1 (Some c).

(** sleep, up to the switch to the scheduler. *)
Definition go_to_sleep (c : chan) (s : kst) : kst :=
  match cur s with
  | Some i => set_procs (alter (fun p => set_p_state SLEEPING (set_p_chan (Some c) p)) i (procs s)) s
  | None => s
  end.
Definition sleep {A} (c : chan) : M kst A := fun s =>
  match cur s with
  | None => Panic "sleep" s
  | Some _ => Sleep c (go_to_sleep c s)
  end.
(** What sleep does when the scheduler switches back. *)
Definition wake_tidy : M kst unit := updcp (set_p_chan None).

(** The wakeups a component below issued reach the table, oldest first. *)
Definition take_wakes (t : fl_st) : list chan * fl_st :=
  let b := fb (f_fs t) in (rev (Bio.wakes b), set_ffs (FsSt (set_wakes [] b) (icache (f_fs t))) t).
Definition deliver (t : fl_st) (s : kst) : kst :=
  let '(l, t) := take_wakes t in
  set_k_fl t (set_procs (foldl (fun ps c => wake (Some c) <$> ps) (procs s) l) s).

(** Running a component below on behalf of the current process. *)
Definition kfl {A} (m : M fl_st A) : M kst A := fun s =>
  match m (k_fl s) with
  | Ret a t => Ret a (deliver t s)
  | Panic e t => Panic e (deliver t s)
  | Undef e t => Undef e (deliver t s)
  | Sleep c t => Sleep c (go_to_sleep c (deliver t s))
  | Spin t => Spin (deliver t s)
  end.
Definition kfs {A} (m : M fs_st A) : M kst A := kfl (fs m).
Definition kpages {A} (m : M freelist A) : M kst A := kfl (alloc m).

(** ** Memory *)

Definition modmem (f : mem -> mem) : M kst unit := modify (fun s => set_kmem (f (kmem s)) s).

(** ** Process creation *)

Fixpoint find_unused (i : nat) (l : list proc) : option nat :=
  match l with
  | [] => None
  | p :: l => if decide (p_state p = UNUSED) then Some i else find_unused (S i) l
  end.

Definition allocproc : M kst (option nat) :=
  let! s := get in
  match find_unused 0 (procs s) with
  | Some i =>
      updp i (fun p => set_p_ct empty_ct (set_p_tctcnt 100 (set_p_pid (nextpid s) (set_p_state EMBRYO p)))) ;;
      modify (fun s => set_ttltcts (s32 (ttltcts s + 100)) (set_nextpid (s32 (nextpid s + 1)) s)) ;;
      ret (Some i)
  | None => ret None
  end.

(** The descriptors setupsegs builds; [ts] is the address of the task state. *)
Definition gdt_of (ts : Z) (p : option proc) : list segdesc :=
  [SEG_NULL;
   SEG (Z.lor STA_X STA_R) 0 (1048576 + 64 * 1024 - 1) 0;
   SEG STA_W 0 4294967295 0] ++
  (match p with
   | Some p => [SEG (Z.lor STA_X STA_R) (p_mem p) (u32 (p_sz p - 1)) DPL_USER;
                SEG STA_W (p_mem p) (u32 (p_sz p - 1)) DPL_USER]
   | None => [SEG_NULL; SEG_NULL]
   end) ++ [set_s 0 (SEG16 STS_T32A ts 103 0)].

(** Path names of the current process: [cp->cwd] is the directory a relative
    path starts from. *)
Definition cwd : M kst nat := let! p := cproc in of_option "null inode" (p_cwd p).
Definition k_namei (path : list Z) : M kst (option nat) := let! d := cwd in kfs (namei d path).
Definition k_nameiparent (path : list Z) : M kst (option (nat * list Z)) := let! d := cwd in kfs (nameiparent d path).

Section params.
(** Address of the processor's task state, and the initial program. *)
Context (ts : Z) (initcode : list Z).

Definition setupsegs (p : option proc) : M kst unit :=
  modify (fun s => set_gdt (gdt_of ts p)
    (set_esp0 (match p with Some p => u32 (p_kstack p + KSTACKSIZE) | None => 4294967295 end) s)).

Definition growproc (n : Z) : M kst Z :=
  let! p := cproc in
  let! newmem := kpages (kalloc (s32 (p_sz p + n))) in
  if newmem =? 0 then ret (-1)
  else
    modmem (memmove newmem (p_mem p) (p_sz p)) ;;
    modmem (memset (newmem + p_sz p) 0 (u32 n)) ;;
    kpages (kfree (p_mem p) (s32 (p_sz p))) ;;
    updcp (fun p => set_p_sz (u32 (p_sz p + n)) (set_p_mem newmem p)) ;;
    let! p := cproc in
    setupsegs (Some p) ;;
    ret (s32 (p_sz p - n)).

(** Duplicating the open files of [p] into those of [np], slot by slot; a
    slot empty in [p] is left as it is in [np]. *)
Fixpoint dup_ofiles (l nl : list (option nat)) : M kst (list (option nat)) :=
  match l, nl with
  | o :: l, no :: nl =>
      let! x := (match o with Some f => let! g := kfl (filedup f) in ret (Some g) | None => ret no end) in
      let! r := dup_ofiles l nl in
      ret (x :: r)
  | _, _ => ret nl
  end.

Definition copyproc (parent : option nat) : M kst (option nat) :=
  let! r := allocproc in
  match r with
  | None => ret None
  | Some np =>
      let! k := kpages (kalloc KSTACKSIZE) in
      updp np (set_p_kstack k) ;;
      if k =? 0 then updp np (set_p_state UNUSED) ;; ret None
      else
        let finish : M kst (option nat) :=
          updp np (fun q => set_p_tf (set_eax 0 (p_tf q)) q) ;; ret (Some np) in
        match parent with
        | None => finish
        | Some pi =>
            let! p := getp pi in
            updp np (fun q => set_p_sz (p_sz p) (set_p_tf (p_tf p) (set_p_parent (Some pi) q))) ;;
            let! m := kpages (kalloc (s32 (p_sz p))) in
            updp np (set_p_mem m) ;;
            if m =? 0 then
              kpages (kfree k KSTACKSIZE) ;;
              updp np (fun q => set_p_parent None (set_p_state UNUSED (set_p_kstack 0 q))) ;;
              ret None
            else
              modmem (memmove m (p_mem p) (p_sz p)) ;;
              let! q := getp np in
              let! files := dup_ofiles (p_ofile p) (p_ofile q) in
              updp np (set_p_ofile files) ;;
              let! c := of_option "null inode" (p_cwd p) in
              let! c := kfs (idup c) in
              updp np (set_p_cwd (Some c)) ;;
              finish
        end
  end.

(** A thread shares memory, open files and directory with its creator, no
    reference counted. *)
Definition share_ofiles (l nl : list (option nat)) : list (option nat) :=
  zip_with (fun o no => match o with Some f => Some f | None => no end) l nl.

Definition copyproc_thread (pi : nat) (usrstck : Z) : M kst (option nat) :=
  let! r := allocproc in
  match r with
  | None => ret None
  | Some np =>
      let! k := kpages (kalloc KSTACKSIZE) in
      updp np (set_p_kstack k) ;;
      if k =? 0 then updp np (set_p_state UNUSED) ;; ret None
      else
        let! p := getp pi in
        updp np (fun q => set_p_cwd (p_cwd p) (set_p_ofile (share_ofiles (p_ofile p) (p_ofile q))
                            (set_p_mem (p_mem p) (set_p_sz (p_sz p) (set_p_tf (p_tf p) (set_p_parent (Some pi) q)))))) ;;
        updp np (fun q => set_p_tf (set_esp (u32 (usrstck + 980)) (set_ebp (u32 (usrstck + 1008)) (p_tf q))) q) ;;
        modmem (memmove (p_mem p + u32 (usrstck + 980)) (p_mem p + esp (p_tf p)) 44) ;;
        updp np (fun q => set_p_tf (set_eax 0 (p_tf q)) q) ;;
        ret (Some np)
  end.

(** The frame userinit starts the first process with. *)
Definition init_tf (sz : Z) : trapframe :=
  let ds := Z.lor (Z.shiftl SEG_UDATA 3) DPL_USER in
  Trapframe 0 0 0 0 0 0 0 0 ds ds 0 0 0 (Z.lor (Z.shiftl SEG_UCODE 3) DPL_USER) FL_IF (u32 (sz - 4)) ds.

(** An absolute path is looked up without the current directory. *)
Definition userinit : M kst unit :=
  let! r := copyproc None in
  let! p := of_option "null process" r in
  let! m := kpages (kalloc PAGE) in
  let! d := kfs (namei 0 [slash]) in
  updp p (fun q => set_p_cwd d (set_p_mem m (set_p_sz PAGE q))) ;;
  updp p (set_p_tf (init_tf PAGE)) ;;
  modmem (store32 (m + (PAGE - 4)) 4025479151) ;;
  modmem (store_bytes m initcode) ;;
  updp p (fun q => set_p_state RUNNABLE (set_p_name [105; 110; 105; 116; 99; 111; 100; 101] q)) ;;
  modify (set_initproc (Some p)).

(** ** Scheduling *)

(** rand.S *)
Definition fastrand (s : Z) : Z :=
  let prod := u32 s * 33614 in
  let eax := u32 (u32 prod + prod / u32_mod) in
  if 0 <=? s32 eax then u32 (Z.shiftr (u32 (Z.shiftl eax 1)) 1 + 1) else eax.

(** The walk of lottery_scheduler over the table: the winner of [random],
    [curtct] tickets having been passed. *)
Fixpoint lottery_pick (random curtct : Z) (i : nat) (l : list proc) : option nat :=
  match l with
  | [] => None
  | p :: l =>
      if bool_decide (p_state p = UNUSED) || bool_decide (p_state p = ZOMBIE) then lottery_pick random curtct (S i) l
      else
        let nxttct := u32 (curtct + p_tctcnt p) in
        if (curtct <=? random) && (random <? nxttct) then Some i
        else lottery_pick random nxttct (S i) l
  end.

(** Switching to process [i], and back: the processor's current process,
    its segments, and the transaction the buffer cache works on. *)
Definition set_bct (x : mem_trans) (s : kst) : kst :=
  let t := k_fl s in set_k_fl (set_ffs (FsSt (set_ct x (fb (f_fs t))) (icache (f_fs t))) t) s.
Definition switch_to (i : nat) : M kst unit :=
  let! p := getp i in
  modify (fun s => set_bct (p_ct p) (set_cur (Some i) s)) ;;
  setupsegs (Some p) ;;
  updp i (set_p_state RUNNING).
Definition switch_back : M kst unit :=
  let! i := cp in
  let! s := get in
  updp i (set_p_ct (ct (fb (f_fs (k_fl s))))) ;;
  modify (set_cur None) ;;
  setupsegs None.

(** One round of lottery_scheduler, [run] being what the chosen process does
    until it calls sched. *)
Definition lottery_round (run : M kst unit) : M kst unit :=
  let! s := get in
  if u32 (ttltcts s) =? 0 then undef "division by zero"
  else
    let random := fastrand (ticks s) mod u32 (ttltcts s) in
    match lottery_pick random 0 0 (procs s) with
    | None => ret tt
    | Some i =>
        let! p := getp i in
        if decide (p_state p = RUNNABLE) then switch_to i ;; run ;; switch_back else ret tt
    end.

(** One round of rr_scheduler. *)
Definition rr_round (run : M kst unit) : M kst unit :=
  mfor (seq 0 NPROC) (fun i =>
    let! p := getp i in
    if decide (p_state p = RUNNABLE) then switch_to i ;; run ;; switch_back else ret tt).

(** The guards of sched, on the locks of processor [me]. *)
Definition sched (me : nat) (st : proc_state) : M lst unit :=
  let! fl := read_eflags me in
  if ctrue (Z.land fl FL_IF) then panic "sched interruptible"
  else if decide (st = RUNNING) then panic "sched running"
  else
    let! s := get in
    if negb (holding me (lk s)) then panic "sched proc_table_lock"
    else
      let! c := get_cpu me in
      if negb (ncli c =? 1) then panic "sched locks" else ret tt.

(** yield, up to the switch. *)
Definition yield : M kst unit := updcp (set_p_state RUNNABLE).

(** ** Kill, exit and wait *)

Fixpoint find_pid (pid : Z) (i : nat) (l : list proc) : option nat :=
  match l with
  | [] => None
  | p :: l => if p_pid p =? pid then Some i else find_pid pid (S i) l
  end.

Definition kill (pid : Z) : M kst Z :=
  let! s := get in
  match find_pid pid 0 (procs s) with
  | Some i =>
      updp i (fun p => let p := set_p_killed 1 p in
                       if decide (p_state p = SLEEPING) then set_p_state RUNNABLE p else p) ;;
      ret 0
  | None => ret (-1)
  end.

Definition close_fd (fd : nat) : M kst unit :=
  let! p := cproc in
  match p_ofile p !! fd with
  | Some (Some f) => kfl (fileclose f) ;; updcp (fun p => set_p_ofile (<[fd := None]> (p_ofile p)) p)
  | _ => ret tt
  end.

(** Handing the children of [me] to init. *)
Definition abandon (me : nat) (i : nat) : M kst unit :=
  let! p := getp i in
  if decide (p_parent p = Some me) then
    let! s := get in
    updp i (set_p_parent (initproc s)) ;;
    if decide (p_state p = ZOMBIE) then wakeup1 (option_map ChProc (initproc s)) else ret tt
  else ret tt.

(** exit, up to the last switch to the scheduler. *)
Definition exit : M kst unit :=
  let! me := cp in
  let! p := getp me in
  let! par := of_option "null parent" (p_parent p) in
  let! pp := getp par in
  let isThread := p_mem pp =? p_mem p in
  modify (fun s => set_ttltcts (s32 (ttltcts s - p_tctcnt p)) s) ;;
  let! s := get in
  if decide (initproc s = Some me) then panic "init exiting"
  else
    (if isThread then ret tt
     else
       mfor (seq 0 NOFILE) close_fd ;;
       let! c := of_option "null inode" (p_cwd p) in
       kfs (iput c) ;;
       updp me (set_p_cwd None)) ;;
    wakeup1 (Some (ChProc par)) ;;
    mfor (seq 0 NPROC) (abandon me) ;;
    updp me (fun p => set_p_state ZOMBIE (set_p_killed 0 p)).

(** The scan of wait: a zombie child, or whether there are children. *)
Fixpoint find_zombie (me i : nat) (kids : bool) (l : list proc) : option nat * bool :=
  match l with
  | [] => (None, kids)
  | p :: l =>
      if decide (p_state p = UNUSED) then find_zombie me (S i) kids l
      else if decide (p_parent p = Some me) then
        if decide (p_state p = ZOMBIE) then (Some i, kids) else find_zombie me (S i) true l
      else find_zombie me (S i) kids l
  end.

Definition reap (me i : nat) : M kst Z :=
  let! c := getp me in
  let! p := getp i in
  (if p_mem c =? p_mem p then ret tt else kpages (kfree (p_mem p) (s32 (p_sz p)))) ;;
  kpages (kfree (p_kstack p) KSTACKSIZE) ;;
  updp i (fun p => set_p_name [] (set_p_parent None (set_p_pid 0 (set_p_state UNUSED p)))) ;;
  ret (p_pid p).

(** wait, from the top of its loop to its return or to its sleep, after
    which it starts over. *)
Definition wait : M kst Z :=
  let! me := cp in
  let! s := get in
  let! c := getp me in
  match find_zombie me 0 false (procs s) with
  | (Some i, _) => reap me i
  | (None, havekids) => if negb havekids || ctrue (p_killed c) then ret (-1) else sleep (ChProc me)
  end.

(** ** Counting files, and condition variables *)

Definition fcount : M kst Z :=
  let! p := cproc in ret (Z.of_nat (length (filter (fun o => is_Some o) (p_ofile p)))).

Definition wake_on_cond (cond_addr : Z) : M kst Z :=
  let! c := cproc in
  modify (fun s => set_procs
    ((fun p => if decide (p_state p = SLEEPING) then
                 if (p_mem p =? p_mem c) && (p_cond_addr p =? cond_addr) then set_p_state RUNNABLE p else p
               else p) <$> procs s) s) ;;
  ret 0.

(** sleep_on_cond, up to the switch. *)
Definition sleep_on_cond (cond_addr mutex_lock : Z) : M kst Z :=
  updcp (fun p => set_p_state SLEEPING (set_p_cond_addr cond_addr p)) ;;
  let! p := cproc in
  modmem (store32 (p_mem p + mutex_lock) 0) ;;
  ret 0.
End params.
