(* ===== verification/Sched.v ===== *)
(** * The lottery, and what a scheduled process may touch

    The walk of lottery_scheduler gives each process an interval of draws as
    long as its ticket count, and the descriptors setupsegs builds confine a
    process to its own memory. *)

From S2P Require Import Prelude CString Kalloc Layout Ide Bio Fs Pipe File Mmu Spinlock Proc.

(** The states lottery_scheduler does not skip. *)
Definition live (p : proc) : bool :=
  negb (bool_decide (p_state p = UNUSED) || bool_decide (p_state p = ZOMBIE)).
Definition tct (p : proc) : Z := if live p then p_tctcnt p else 0.
Definition tickets (l : list proc) : Z := foldr (fun p n => tct p + n) 0 l.

Lemma tickets_app l k : tickets (l ++ k) = tickets l + tickets k.
Proof. induction l; simpl; lia. Qed.

Lemma tickets_nonneg l : Forall (fun p => 0 <= p_tctcnt p) l -> 0 <= tickets l.
Proof. induction 1; simpl; [done|]. unfold tct. destruct (live _); lia. Qed.

(** The interval of draws of the [j]th process. *)
Definition lot (l : list proc) (j : nat) : Z := tickets (take j l).

Lemma lottery_pick_cons r c i p l :
  0 <= c -> c + tct p < u32_mod -> 0 <= p_tctcnt p -> c <= r ->
  lottery_pick r c i (p :: l) = if live p && (r <? c + tct p) then Some i else lottery_pick r (c + tct p) (S i) l.
Proof.
  intros Hc Hs Hp Hr. simpl. unfold tct, live in *. destruct (_ || _); simpl in *; [by rewrite Z.add_0_r|].
  rewrite u32_small by lia. destruct (Z.leb_spec c r); [|lia]. simpl. done.
Qed.

Lemma lottery_pick_shift r c i l : lottery_pick r c i l = Nat.add i <$> lottery_pick r c 0 l.
Proof.
  revert c i. induction l as [|p l IH]; intros c i; [done|]. cbn [lottery_pick].
  rewrite !(IH _ (S i)), !(IH _ 1%nat). repeat case_match; simplify_eq/=;
    try (f_equal; lia); rewrite <-option_fmap_compose; apply option_fmap_ext; intros; simpl; lia.
Qed.

Lemma lottery_pick_iff r c l j :
  0 <= c -> Forall (fun p => 0 <= p_tctcnt p) l -> c + tickets l < u32_mod -> c <= r ->
  lottery_pick r c 0 l = Some j <->
  exists p, l !! j = Some p /\ live p = true /\ c + lot l j <= r < c + lot l j + p_tctcnt p.
Proof.
  intros Hc Hl. revert c j Hc. induction Hl as [|p l Hp Hl IH]; intros c j Hc Hs Hr; simpl in Hs.
  { simpl. split; [done|]. by intros (? & ? & _). }
  pose proof (tickets_nonneg _ Hl). assert (Ht : 0 <= tct p) by (unfold tct; destruct (live p); lia).
  rewrite lottery_pick_cons by (done || lia). rewrite lottery_pick_shift.
  destruct j as [|j]; unfold lot; cbn [take tickets foldr lookup]; [|change (foldr _ 0 (take j l)) with (lot l j)].
  - destruct (live p && (r <? c + tct p)) eqn:E.
    + apply andb_true_iff in E as [El E%Z.ltb_lt]. unfold tct in E. rewrite El in E.
      split; [|done]. intros _. exists p. split_and!; [done..|lia|lia].
    + split; [intros (? & ? & ?)%fmap_Some; lia|]. intros (q & [= <-] & El & Hlo).
      rewrite El in E. unfold tct in E. rewrite El in E. apply Z.ltb_ge in E. lia.
  - destruct (live p && (r <? c + tct p)) eqn:E.
    + split; [done|]. apply andb_true_iff in E as [El E%Z.ltb_lt].
      intros (q & Hq & _ & Hlo). pose proof (tickets_nonneg _ (Forall_take _ j _ Hl)). unfold lot in Hlo. lia.
    + assert (Hge : c + tct p <= r).
      { unfold tct in *. destruct (live p); [by apply Z.ltb_ge in E|lia]. }
      rewrite fmap_Some. rewrite Z.add_assoc. simpl. split.
      * intros (k & Hk & [= ->]). apply (IH (c + tct p)) in Hk; [done|lia..].
      * intros Hx. exists j. split; [|done]. apply (IH (c + tct p)); [lia..|done].
Qed.

(** Some process has every draw below the total. *)
Lemma lottery_pick_some r c l :
  0 <= c -> Forall (fun p => 0 <= p_tctcnt p) l -> c + tickets l < u32_mod -> c <= r < c + tickets l ->
  is_Some (lottery_pick r c 0 l).
Proof.
  intros Hc Hl. revert c Hc. induction Hl as [|p l Hp Hl IH]; intros c Hc Hs Hr; simpl in *; [lia|].
  pose proof (tickets_nonneg _ Hl). assert (Ht : 0 <= tct p) by (unfold tct; destruct (live p); lia).
  pose proof (lottery_pick_cons r c 0 p l Hc ltac:(lia) Hp ltac:(lia)) as E. simpl in E. rewrite E.
  destruct (live p && (r <? c + tct p)) eqn:E1; [by eexists|]. rewrite lottery_pick_shift.
  apply fmap_is_Some, IH; [lia..|]. unfold tct in *. destruct (live p); [apply Z.ltb_ge in E1; simpl in E1|]; lia.
Qed.

(** The scheduler's total is the tickets in the table. *)
Definition tickets_ok (s : kst) : Prop := ttltcts s = s32 (tickets (procs s)).

(** C21: the lottery is fair.  With the ticket total right, the draws below
    it are divided among the live processes: each has an interval of them as
    long as its ticket count, every draw has a winner, and the winner is the
    live process whose interval the draw is in. *)
Theorem lottery_fair (s : kst) :
  tickets_ok s -> Forall (fun p => 0 <= p_tctcnt p) (procs s) -> 0 < tickets (procs s) < 2147483648 ->
  (forall j p, procs s !! j = Some p -> live p = true ->
     exists lo, 0 <= lo /\ lo + p_tctcnt p <= u32 (ttltcts s) /\
       forall r, 0 <= r < u32 (ttltcts s) -> lottery_pick r 0 0 (procs s) = Some j <-> lo <= r < lo + p_tctcnt p) /\
  (forall r, 0 <= r < u32 (ttltcts s) ->
     exists j p, lottery_pick r 0 0 (procs s) = Some j /\ procs s !! j = Some p /\ live p = true).
Proof.
  intros Ht Hnn Hs. unfold tickets_ok in Ht. rewrite s32_small in Ht by lia. rewrite Ht, u32_small by (unfold u32_mod; lia).
  assert (Hu : 0 + tickets (procs s) < u32_mod) by (unfold u32_mod; lia). split.
  - intros j p Hp Hl. exists (lot (procs s) j). split_and!.
    + apply tickets_nonneg. by apply Forall_take.
    + rewrite <-(take_drop j (procs s)) at 2. rewrite (drop_S _ _ _ Hp), tickets_app. simpl. fold (lot (procs s) j).
      pose proof (tickets_nonneg _ (Forall_drop _ (S j) _ Hnn)). unfold tct. rewrite Hl. lia.
    + intros r Hr. rewrite lottery_pick_iff by (done || lia). simpl. split; [|by exists p].
      intros (q & Hq & _ & ?). by simplify_eq.
  - intros r Hr. destruct (lottery_pick_some r 0 (procs s)) as [j Hj]; [done..|]. exists j.
    pose proof Hj as Hj'. rewrite lottery_pick_iff in Hj' by (done || lia).
    destruct Hj' as (p & Hp & Hl & _). eauto.
Qed.

(** A process table for examples: init sleeping with 100 tickets, an unused
    slot, and a runnable process with 50. *)
Definition demo_proc (m : Z) (st : proc_state) (pid : Z) (par : option nat) (t : Z) : proc :=
  Proc m 8192 (m + 8192) st pid par None 0 (replicate NOFILE None) (Some O) zero_tf [] t 0 empty_ct.
Definition demo_kst : kst :=
  Kst (FlSt (FsSt (boot 2 ∅) [Inode 1 1 4 2 1 0 0 1 0 []]) [] ∅ [Run 1048576 65536]) (fun _ => 0)
      [demo_proc 65536 SLEEPING 1 None 100; demo_proc 0 UNUSED 0 None 0; demo_proc 131072 RUNNABLE 2 (Some O) 50]
      (Some O) 3 150 None 7 [] 0.

Lemma lottery_fair_witness :
  tickets_ok demo_kst /\
  exists lo, forall r, 0 <= r < u32 (ttltcts demo_kst) ->
    lottery_pick r 0 0 (procs demo_kst) = Some 2%nat <-> lo <= r < lo + 50.
Proof.
  split; [reflexivity|].
  destruct (lottery_fair demo_kst) as [H _]; [reflexivity|by repeat constructor|vm_compute; split; reflexivity|].
  destruct (H 2%nat (demo_proc 131072 RUNNABLE 2 (Some O) 50)) as (lo & _ & _ & Hlo); [reflexivity..|].
  exists lo. exact Hlo.
Defined.

(** exit takes the tickets of the process off the total before it closes its
    files, which may sleep.  A process asleep there is still walked over: when
    the total has dropped to the start of its interval or below, no draw
    picks it. *)
Lemma unaccounted_starves l j total r :
  Forall (fun p => 0 <= p_tctcnt p) l -> tickets l < u32_mod -> total <= lot l j ->
  0 <= r < total -> lottery_pick r 0 0 l <> Some j.
Proof.
  intros Hl Hs Ht Hr E. rewrite lottery_pick_iff in E by (done || lia).
  destruct E as (p & _ & _ & ?). lia.
Qed.

(** ** Segments *)

(** The linear addresses a descriptor reaches. *)
Definition reaches (d : segdesc) (a : Z) : Prop := exists off, 0 <= off <= seg_limit d /\ a = u32 (seg_base d + off).

Lemma reaches_user ty m sz a :
  0 <= m -> 0 < sz -> m + sz <= u32_mod -> (PAGE | sz) ->
  reaches (SEG ty m (u32 (sz - 1)) DPL_USER) a <-> m <= a < m + sz.
Proof.
  intros Hm Hsz Hmax [k Hk]. unfold reaches. rewrite (u32_small (sz - 1)) by lia.
  rewrite seg_base_SEG, seg_limit_SEG; [|lia|exists k; unfold PAGE in *; lia|lia]. split.
  - intros (off & Hoff & ->). rewrite u32_small by lia. lia.
  - intros Ha. exists (a - m). rewrite u32_small by lia. lia.
Qed.

Lemma getp_ret i p s : procs s !! i = Some p -> getp i s = Ret p s.
Proof. intros H. unfold getp, bind, get, of_option. by rewrite H. Qed.

Lemma updp_ret i g p s : procs s !! i = Some p -> updp i g s = Ret tt (set_procs (<[i := g p]> (procs s)) s).
Proof. intros H. unfold updp, bind. by rewrite (getp_ret _ _ _ H). Qed.

(** C22: switching to a process confines it.  The process becomes the current
    one and RUNNING, and the only descriptors user code may load (privilege
    level 3) reach exactly the bytes of its memory; its system calls enter on
    its own kernel stack. *)
Theorem switch_confines (ts : Z) (s : kst) (i : nat) (p : proc) :
  procs s !! i = Some p ->
  0 <= p_mem p -> 0 < p_sz p -> p_mem p + p_sz p <= u32_mod -> (PAGE | p_sz p) ->
  wp (switch_to ts i) s (fun _ s' =>
    cur s' = Some i /\ procs s' !! i = Some (set_p_state RUNNING p) /\
    (forall d, d ∈ gdt s' -> sd_dpl d = DPL_USER -> forall a, reaches d a <-> p_mem p <= a < p_mem p + p_sz p) /\
    (exists c d, gdt s' !! 3%nat = Some c /\ gdt s' !! 4%nat = Some d /\
       sd_dpl c = DPL_USER /\ sd_type c = STA_X + STA_R /\ sd_dpl d = DPL_USER /\ sd_type d = STA_W) /\
    esp0 s' = u32 (p_kstack p + KSTACKSIZE)).
Proof.
  intros Hp Hm Hsz Hmax Hpg. unfold wp, switch_to, bind at 1. rewrite (getp_ret _ _ _ Hp).
  unfold bind, modify, setupsegs. unfold modify.
  match goal with |- context [updp i ?g ?x] => rewrite (updp_ret i g p x Hp) end. cbn [cur set_cur gdt esp0 set_gdt set_esp0 set_procs set_bct set_k_fl procs].
  split_and!; [done|apply list_lookup_insert_eq; by eapply lookup_lt_Some| | |done].
  - intros d Hd Hu a. unfold gdt_of in Hd. simpl in Hd. rewrite !elem_of_cons, elem_of_nil in Hd.
    destruct Hd as [-> |[-> |[-> |[-> |[-> |[-> |[]]]]]]]; try discriminate Hu; by apply reaches_user.
  - eexists _, _. split_and!; reflexivity.
Qed.

Lemma switch_confines_witness :
  exists s', switch_to 0 2 demo_kst = Ret tt s' /\ cur s' = Some 2%nat /\
    forall d, d ∈ gdt s' -> sd_dpl d = DPL_USER -> forall a, reaches d a <-> 131072 <= a < 139264.
Proof.
  destruct (proj1 (wp_returns _ _ _) (switch_confines 0 demo_kst 2 (demo_proc 131072 RUNNABLE 2 (Some O) 50)
    eq_refl ltac:(done) ltac:(done) ltac:(done) ltac:(by exists 2))) as (u & s' & E & Hc & _ & Hr & _).
  exists s'. destruct u. split; [exact E|]. split; [exact Hc|]. exact Hr.
Defined.

(** ** The guards of sched

    From a processor with interrupts on and no lock held, acquiring the lock
    satisfies every guard of sched for a process that has left RUNNING. *)
Lemma sched_after_acquire me s c st :
  cpus s !! me = Some c -> ncli c = 0 -> locked (lk s) = 0 -> st <> RUNNING ->
  wp (acquire me ;; sched me st) s (fun _ s' => holding me (lk s') = true).
Proof.
  intros Hc Hn Hl Hst. pose proof (lookup_lt_Some _ _ _ Hc) as Hlt.
  destruct (acquire_free me (int_on c) 0 c s Hc) as (c1 & E1 & H1); [done|lia|done|].
  set (s1 := Lst (<[me := c1]> (cpus s)) (Spinlock 1 (Z.of_nat me + 10))) in *.
  assert (Hc1 : get_cpu me s1 = Ret c1 s1).
  { unfold get_cpu, bind, get, s1. simpl. by rewrite list_lookup_insert_eq. }
  assert (Hh : holding me (lk s1) = true) by (unfold holding; simpl; by rewrite Z.eqb_refl).
  destruct H1 as (Hn1 & Hoff & _).
  unfold wp, bind. rewrite E1. unfold sched, read_eflags, bind. rewrite Hc1. unfold ret.
  rewrite land_if. unfold int_on in Hoff. rewrite Hoff. simpl. rewrite decide_False by done. unfold get. rewrite Hh. simpl. rewrite Hc1, Hn1. done.
Qed.
