(* ===== verification/Syscall.v ===== *)
(** * syscall.c: system call arguments and dispatch

    Arguments lie on the user stack, in the memory of the current process. *)

From S2P Require Import Prelude CString Kalloc Layout Ide Bio Fs Pipe File Mmu Spinlock Proc.

(** The int at user address [addr] of [p]; [None] is the return value -1. *)
Definition fetchint (m : mem) (p : proc) (addr : Z) : option Z :=
  if (p_sz p <=? addr) || (p_sz p <? u32 (addr + 4)) then None
  else Some (s32 (load32 m (p_mem p + addr))).

(** The loop of fetchstr over the bytes up to [ep], [n] of them left and [k]
    passed. *)
Fixpoint scan_nul (m : mem) (s : Z) (k : Z) (n : nat) : option Z :=
  match n with
  | O => None
  | S n => if m s =? 0 then Some k else scan_nul m (s + 1) (k + 1) n
  end.

(** The pointer [*pp] and the length returned. *)
Definition fetchstr (m : mem) (p : proc) (addr : Z) : option (Z * Z) :=
  if p_sz p <=? addr then None
  else (fun len => (p_mem p + addr, len)) <$> scan_nul m (p_mem p + addr) 0 (Z.to_nat (p_sz p - addr)).

Definition argint (n : Z) : M kst (option Z) :=
  let! p := cproc in
  let! s := get in
  ret (fetchint (kmem s) p (u32 (esp (p_tf p) + 4 + 4 * n))).

Definition argptr (n size : Z) : M kst (option Z) :=
  let! r := argint n in
  match r with
  | None => ret None
  | Some i =>
      let! p := cproc in
      if (p_sz p <=? u32 i) || (p_sz p <=? u32 (u32 i + size)) then ret None
      else ret (Some (u32 (p_mem p + i)))
  end.

(** The bytes of the string, up to its NUL. *)
Definition bytes_at (m : mem) (a : Z) (n : nat) : list Z := map (fun k => m (a + Z.of_nat k)) (seq 0 n).

Definition argstr (n : Z) : M kst (option (Z * Z)) :=
  let! r := argint n in
  match r with
  | None => ret None
  | Some addr =>
      let! p := cproc in
      let! s := get in
      ret (fetchstr (kmem s) p (u32 addr))
  end.

(** A string argument as its bytes. *)
Definition argpath (n : Z) : M kst (option (list Z)) :=
  let! r := argstr n in
  let! s := get in
  ret ((fun '(a, len) => bytes_at (kmem s) a (Z.to_nat len)) <$> r).

(** [syscalls], a table generated by the build, is a parameter. *)
Definition syscall (syscalls : list (option (M kst Z))) : M kst unit :=
  let! p := cproc in
  let num := s32 (eax (p_tf p)) in
  match (if 0 <=? num then syscalls !! Z.to_nat num else None) with
  | Some (Some f) =>
      let! r := f in
      updcp (fun p => set_p_tf (set_eax (u32 r) (p_tf p)) p)
  | _ => updcp (fun p => set_p_tf (set_eax (u32 (-1)) (p_tf p)) p)
  end.

(** ** Arguments stay inside the caller's memory *)

Lemma scan_nul_some m s k n r :
  scan_nul m s k n = Some r <->
  k <= r < k + Z.of_nat n /\ m (s + (r - k)) = 0 /\ forall j, 0 <= j < r - k -> m (s + j) <> 0.
Proof.
  revert s k. induction n as [|n IH]; intros s k; cbn [scan_nul]; [split; [done|lia]|].
  destruct (Z.eqb_spec (m s) 0) as [E|E].
  - split.
    + intros [= <-]. rewrite Z.sub_diag, Z.add_0_r. split_and!; [lia|lia|done|intros; lia].
    + intros (Hr & _ & Hj). destruct (decide (r = k)) as [->|]; [done|].
      exfalso. apply (Hj 0); [lia|]. by rewrite Z.add_0_r.
  - rewrite IH. replace (s + 1 + (r - (k + 1))) with (s + (r - k)) by lia. split.
    + intros (Hr & Hz & Hj). split_and!; [lia|lia|done|]. intros j Hjr. destruct (decide (j = 0)) as [->|].
      * by rewrite Z.add_0_r.
      * replace (s + j) with (s + 1 + (j - 1)) by lia. apply Hj. lia.
    + intros (Hr & Hz & Hj). destruct (decide (r = k)) as [->|].
      { exfalso. rewrite Z.sub_diag, Z.add_0_r in Hz. done. }
      split_and!; [lia|lia|done|]. intros j Hjr. replace (s + 1 + j) with (s + (j + 1)) by lia. apply Hj. lia.
Qed.


(** A process with a stack holding the string pointer 16 and "hi" there. *)
Definition demo_args : kst :=
  Kst (FlSt (FsSt (boot 2 ∅) []) [] ∅ [])
      (store32 (65536 + 4100) 16 (store_bytes (65536 + 16) [104; 105; 0] (fun _ => 1)))
      [Proc 65536 8192 0 RUNNING 1 None None 0 [] None (set_esp 4096 zero_tf) [] 100 0 empty_ct]
      (Some O) 2 100 (Some O) 0 [] 0.

