(* ===== verification/Sysproc.v ===== *)
(** * sysproc.c: system calls on processes *)

From S2P Require Import Prelude CString Kalloc Layout Ide Bio Fs Pipe File Mmu Spinlock Proc Syscall.

Definition sys_fork : M kst Z :=
  let! me := cp in
  let! r := copyproc (Some me) in
  match r with
  | None => ret (-1)
  | Some np =>
      let! p := getp np in
      updp np (set_p_state RUNNABLE) ;;
      ret (p_pid p)
  end.

Definition sys_thread_fork : M kst Z :=
  let! stack := argint 0 in
  match stack with
  | None => ret (-1)
  | Some stack =>
      let! me := cp in
      let! r := copyproc_thread me stack in
      match r with
      | None => ret (-1)
      | Some np =>
          let! p := getp np in
          updp np (set_p_state RUNNABLE) ;;
          ret (p_pid p)
      end
  end.

(** The update of the ticket counts, under [ticketslock]. *)
Definition set_tickets (n : Z) : M kst unit :=
  let! p := cproc in
  modify (fun s => set_ttltcts (s32 (ttltcts s - p_tctcnt p)) s) ;;
  updcp (set_p_tctcnt n) ;;
  modify (fun s => set_ttltcts (s32 (ttltcts s + n)) s).

Definition sys_proc_tickets : M kst Z :=
  let! n := argint 0 in
  match n with
  | None => ret (-1)
  | Some n =>
      if 0 <? n then set_tickets n ;; let! p := cproc in ret (p_tctcnt p)
      else if n <? 0 then ret (-1)
      else let! p := cproc in ret (p_tctcnt p)
  end.

Definition sys_exit : M kst Z := exit ;; ret 0.
Definition sys_wait : M kst Z := wait.

Definition sys_kill : M kst Z :=
  let! pid := argint 0 in match pid with None => ret (-1) | Some pid => kill pid end.

Definition sys_getpid : M kst Z := let! p := cproc in ret (p_pid p).

Definition sys_sbrk (ts : Z) : M kst Z :=
  let! n := argint 0 in
  match n with
  | None => ret (-1)
  | Some n => let! addr := growproc ts n in if addr <? 0 then ret (-1) else ret addr
  end.

(** The loop of sys_sleep: one pass, to its return or to its sleep. *)
Definition sleep_loop (ticks0 n : Z) : M kst Z :=
  let! s := get in
  if s32 (ticks s - ticks0) <? n then
    let! p := cproc in
    if ctrue (p_killed p) then ret (-1) else sleep ChTicks
  else ret 0.

Definition sys_sleep : M kst Z :=
  let! n := argint 0 in
  match n with
  | None => ret (-1)
  | Some n => let! s := get in sleep_loop (ticks s) n
  end.

Definition sys_fcount : M kst Z :=
  let! fc := argint 0 in match fc with None => ret (-1) | Some _ => fcount end.

Definition sys_tickcount_sc : M kst Z := gets ticks.
Definition sys_thread_wait : M kst Z := wait.

Definition sys_cond_sleep_and_unlock_mutex : M kst Z :=
  let! a := argint 0 in
  match a with
  | None => ret (-1)
  | Some a => let! m := argint 1 in match m with None => ret (-1) | Some m => sleep_on_cond a m end
  end.

Definition sys_cond_signal : M kst Z :=
  let! a := argint 0 in match a with None => ret (-1) | Some a => wake_on_cond a end.
