(* ===== verification/ProcTable.v ===== *)
(** * What the process table promises

    An abstract table: per slot, whether it is free, held by a live process
    or by a dead one not yet waited for, with its pid, parent and tickets.
    The routines of proc.c that run to their end refine its six kinds of
    step, and its invariant is that of the kernel: the ticket total is right,
    pids are distinct, and every process has a live parent. *)

From S2P Require Import Prelude CString Kalloc Layout Ide Bio Fs Pipe File Mmu Spinlock Proc Sched Syscall Sysproc.

Inductive life : Type := Free | Live | Dead.
Record entry : Type := Entry { e_life : life; e_pid : Z; e_parent : option nat; e_tct : Z }.
Record table : Type := Table {
  entries : list entry; t_init : option nat; t_next : Z; t_total : Z; t_cur : option nat }.

Definition life_of (st : proc_state) : life := match st with UNUSED => Free | ZOMBIE => Dead | _ => Live end.
Definition key (p : proc) : entry := Entry (life_of (p_state p)) (p_pid p) (p_parent p) (p_tctcnt p).
Definition abs (s : kst) : table := Table (key <$> procs s) (initproc s) (nextpid s) (ttltcts s) (cur s).

Definition aupd (i : nat) (f : entry -> entry) (t : table) : table :=
  Table (alter f i (entries t)) (t_init t) (t_next t) (t_total t) (t_cur t).
Definition set_parent (x : option nat) (e : entry) : entry := Entry (e_life e) (e_pid e) x (e_tct e).
Definition set_life (x : life) (e : entry) : entry := Entry x (e_pid e) (e_parent e) (e_tct e).
Definition reparent (me : nat) (init : option nat) (e : entry) : entry :=
  if decide (e_parent e = Some me) then set_parent init e else e.

Lemma list_alter_alter {A} (f g : A -> A) i (l : list A) : alter f i (alter g i l) = alter (fun x => f (g x)) i l.
Proof.
  apply list_eq. intros j. destruct (decide (j = i)) as [->|].
  - rewrite !list_lookup_alter_eq. by destruct (l !! i).
  - by rewrite !list_lookup_alter_ne.
Qed.

Lemma list_alter_at {A} (f : A -> A) i (l : list A) x : l !! i = Some x -> alter f i l = <[i := f x]> l.
Proof.
  intros Hx. apply list_eq. intros j. destruct (decide (j = i)) as [->|].
  - rewrite list_lookup_alter_eq, list_lookup_insert_eq, Hx; [done|by eapply lookup_lt_Some].
  - by rewrite list_lookup_alter_ne, list_lookup_insert_ne.
Qed.

(** ** The abstract steps *)

Inductive astep : table -> table -> Prop :=
| A_quiet t : astep t t
| A_switch t c :
    (forall i, c = Some i -> exists e, entries t !! i = Some e /\ e_life e = Live) ->
    astep t (Table (entries t) (t_init t) (t_next t) (t_total t) c)
| A_fork t me np e :
    t_cur t = Some me -> entries t !! np = Some e -> e_life e = Free -> t_next t < 2147483647 ->
    astep t (Table (<[np := Entry Live (t_next t) (Some me) 100]> (entries t)) (t_init t) (t_next t + 1)
                   (s32 (t_total t + 100)) (t_cur t))
| A_exit t me e :
    t_cur t = Some me -> t_init t <> Some me -> entries t !! me = Some e ->
    astep t (Table (alter (set_life Dead) me (reparent me (t_init t) <$> entries t)) (t_init t) (t_next t)
                   (s32 (t_total t - e_tct e)) None)
| A_wait t me i e :
    t_cur t = Some me -> entries t !! i = Some e -> e_life e = Dead -> e_parent e = Some me ->
    astep t (Table (<[i := Entry Free 0 None (e_tct e)]> (entries t)) (t_init t) (t_next t) (t_total t) (t_cur t))
| A_tickets t me e n :
    t_cur t = Some me -> entries t !! me = Some e -> 0 < n ->
    astep t (Table (<[me := Entry (e_life e) (e_pid e) (e_parent e) n]> (entries t)) (t_init t) (t_next t)
                   (s32 (s32 (t_total t - e_tct e) + n)) (t_cur t)).

(** ** The invariant *)

Definition atickets (l : list entry) : Z :=
  foldr (fun e n => (match e_life e with Live => e_tct e | _ => 0 end) + n) 0 l.

Record table_ok (t : table) : Prop := {
  ok_length : length (entries t) = NPROC;
  ok_total : t_total t = s32 (atickets (entries t));
  ok_parent : forall i e j, entries t !! i = Some e -> e_life e <> Free -> e_parent e = Some j ->
    exists f, entries t !! j = Some f /\ e_life f = Live;
  ok_cur : forall i, t_cur t = Some i -> exists e, entries t !! i = Some e /\ e_life e = Live;
  ok_init : exists i e, t_init t = Some i /\ entries t !! i = Some e /\ e_life e = Live;
  ok_pid : forall i e, entries t !! i = Some e -> e_life e <> Free -> 0 < e_pid e < t_next t;
  ok_nodup : forall i j e f, entries t !! i = Some e -> entries t !! j = Some f ->
    e_life e <> Free -> e_life f <> Free -> e_pid e = e_pid f -> i = j;
  ok_next : 0 < t_next t }.

(** ** Quiet code: what leaves the abstract table alone *)

Definition quiet {A} (m : M kst A) : Prop := forall s, wlp m s (fun _ s' => abs s' = abs s).

Lemma quiet_ret {A} (a : A) : quiet (ret a).
Proof. done. Qed.
Lemma quiet_get : quiet get.
Proof. done. Qed.
Lemma quiet_panic {A} e : quiet (panic e : M kst A).
Proof. done. Qed.
Lemma quiet_of_option {A} w (o : option A) : quiet (of_option w o).
Proof. intros s. unfold of_option. by destruct o. Qed.
Lemma quiet_bind {A B} (m : M kst A) (k : A -> M kst B) : quiet m -> (forall a, quiet (k a)) -> quiet (bind m k).
Proof.
  intros Hm Hk s. apply wlp_bind. eapply wlp_mono; [apply Hm|]. intros a s1 H1.
  eapply wlp_mono; [apply Hk|]. simpl. by intros _ s2 ->.
Qed.
Lemma quiet_modify f : (forall s, abs (f s) = abs s) -> quiet (modify f).
Proof. intros H s. apply H. Qed.
Lemma quiet_getp i : quiet (getp i).
Proof. apply quiet_bind; [apply quiet_get|]. intros. apply quiet_of_option. Qed.
Lemma quiet_cp : quiet cp.
Proof. apply quiet_bind; [apply quiet_get|]. intros. apply quiet_of_option. Qed.
Lemma quiet_cproc : quiet cproc.
Proof. apply quiet_bind; [apply quiet_cp|apply quiet_getp]. Qed.

(** An update of one slot, seen from the abstract table. *)
Lemma updp_abs i g f s :
  (forall p, key (g p) = f (key p)) -> wlp (updp i g) s (fun _ s' => abs s' = aupd i f (abs s)).
Proof.
  intros H. unfold updp. apply wlp_bind. unfold wlp, getp, bind, get, of_option.
  destruct (procs s !! i) as [p|] eqn:E; [|done]. simpl. unfold abs, aupd. simpl. f_equal.
  rewrite list_fmap_insert. apply list_eq. intros j. destruct (decide (j = i)) as [->|].
  - rewrite list_lookup_insert_eq by (rewrite length_fmap; by eapply lookup_lt_Some).
    rewrite list_lookup_alter_eq, list_lookup_fmap, E. simpl. by rewrite H.
  - by rewrite list_lookup_insert_ne, list_lookup_alter_ne by done.
Qed.

Lemma aupd_id i t : aupd i id t = t.
Proof. unfold aupd. rewrite list_alter_id by done. by destruct t. Qed.

Lemma quiet_updp i g : (forall p, key (g p) = key p) -> quiet (updp i g).
Proof. intros H s. pose proof (updp_abs i g id s H) as Hw. by rewrite aupd_id in Hw. Qed.
Lemma quiet_updcp g : (forall p, key (g p) = key p) -> quiet (updcp g).
Proof. intros H. apply quiet_bind; [apply quiet_cp|]. intros. by apply quiet_updp. Qed.

(** Wakeups only turn sleepers into runnable processes. *)
Lemma key_wake c p : key (wake c p) = key p.
Proof. unfold wake. repeat case_decide; [|done|done]. unfold key. by destruct p; simpl in *; subst. Qed.
Lemma keys_wake c (l : list proc) : key <$> (wake c <$> l) = key <$> l.
Proof. rewrite <-list_fmap_compose. apply list_fmap_ext. intros. apply key_wake. Qed.
Lemma quiet_wakeup1 c : quiet (wakeup1 c).
Proof. apply quiet_modify. intros s. unfold abs. simpl. by rewrite keys_wake. Qed.

Lemma abs_deliver t s : abs (deliver t s) = abs s.
Proof.
  unfold deliver, take_wakes, abs. simpl. f_equal. generalize (rev (Bio.wakes (fb (f_fs t)))) as l. intros l.
  generalize (procs s) as ps. induction l as [|c l IH]; intros ps; simpl; [done|]. by rewrite IH, keys_wake.
Qed.
Lemma quiet_kfl {A} (m : M fl_st A) : quiet (kfl m).
Proof. intros s. unfold wlp, kfl. destruct (m (k_fl s)); try done. apply abs_deliver. Qed.

Create HintDb quiet.
#[export] Hint Resolve quiet_ret quiet_get quiet_panic quiet_of_option quiet_getp quiet_cp quiet_cproc quiet_wakeup1 quiet_kfl : quiet.
#[export] Hint Extern 1 (quiet (updp _ _)) => apply quiet_updp; intros; reflexivity : quiet.
#[export] Hint Extern 1 (quiet (updcp _)) => apply quiet_updcp; intros; reflexivity : quiet.
#[export] Hint Extern 1 (quiet (modify _)) => apply quiet_modify; intros; reflexivity : quiet.
#[export] Hint Extern 1 (quiet (modmem _)) => apply quiet_modify; intros; reflexivity : quiet.
#[export] Hint Extern 2 (quiet (bind _ _)) => apply quiet_bind; [|intros] : quiet.
#[export] Hint Extern 3 (quiet (kpages _)) => apply quiet_kfl : quiet.
#[export] Hint Extern 3 (quiet (kfs _)) => apply quiet_kfl : quiet.
#[export] Hint Extern 4 (quiet (match ?x with _ => _ end)) => destruct x : quiet.
Ltac quiet := auto 20 with quiet.

(** Stepping over quiet code: the abstract table is still [t]. *)
Lemma wlp_skip {A B} (m : M kst A) (k : A -> M kst B) s t Q :
  quiet m -> abs s = t -> (forall a s', abs s' = t -> wlp (k a) s' Q) -> wlp (bind m k) s Q.
Proof.
  intros Hm Ht Hk. apply wlp_bind. eapply wlp_mono; [apply Hm|]. intros a s' E. apply Hk. by rewrite E.
Qed.

Lemma wlp_slot {B} i g f (k : unit -> M kst B) s t Q :
  (forall p, key (g p) = f (key p)) -> abs s = t ->
  (forall s', abs s' = aupd i f t -> wlp (k tt) s' Q) -> wlp (bind (updp i g) k) s Q.
Proof.
  intros Hg Ht Hk. apply wlp_bind. eapply wlp_mono; [by apply updp_abs|]. intros [] s' E. apply Hk. by rewrite E, Ht.
Qed.

Lemma wlp_any {A B} (m : M kst A) (k : A -> M kst B) s Q : (forall a s', wlp (k a) s' Q) -> wlp (bind m k) s Q.
Proof. intros Hk. apply wlp_bind. unfold wlp at 1. destruct (m s); auto. Qed.

Ltac skip := eapply wlp_skip; [solve [quiet]|eassumption|intros ? ? ?].

(** ** Creating a process *)

Lemma find_unused_some k l i :
  find_unused k l = Some i -> (k <= i)%nat /\ exists p, l !! (i - k)%nat = Some p /\ p_state p = UNUSED.
Proof.
  revert k. induction l as [|p l IH]; intros k; simpl; [done|]. case_decide as Hu.
  - intros [= ->]. split; [done|]. exists p. by rewrite Nat.sub_diag.
  - intros H'. destruct (IH _ H') as (Hk & q & Hq & ?). split; [lia|]. exists q.
    by replace (i - k)%nat with (S (i - S k)) by lia.
Qed.

(** The table with slot [np] given to a new process, its parent not set. *)
Definition born (np : nat) (t : table) : table :=
  Table (alter (fun e => Entry Live (t_next t) (e_parent e) 100) np (entries t)) (t_init t) (s32 (t_next t + 1))
        (s32 (t_total t + 100)) (t_cur t).
Definition free_slot (t : table) (np : nat) : Prop := exists e, entries t !! np = Some e /\ e_life e = Free.

Lemma allocproc_abs s :
  wlp allocproc s (fun r s' =>
    match r with None => abs s' = abs s | Some np => free_slot (abs s) np /\ abs s' = born np (abs s) end).
Proof.
  unfold allocproc. apply wlp_bind. unfold wlp at 1, get. destruct (find_unused 0 (procs s)) as [i|] eqn:E; [|done].
  destruct (find_unused_some _ _ _ E) as (_ & p & Hp & Hu). rewrite Nat.sub_0_r in Hp.
  eapply (wlp_slot _ _ (fun e => Entry Live (nextpid s) (e_parent e) 100)); [done|done|]. intros s' Hs'.
  unfold wlp. simpl. split.
  - exists (key p). unfold abs. simpl. rewrite list_lookup_fmap, Hp. split; [done|]. unfold key. simpl. by rewrite Hu.
  - unfold abs, aupd in Hs'. simpl in Hs'. injection Hs' as H1 H2 H3 H4 H5.
    unfold abs, born. simpl. by rewrite H1, H2, H3, H4, H5.
Qed.

Definition forked (pi : nat) (s : kst) (r : option nat) (s' : kst) : Prop :=
  forall np, r = Some np -> free_slot (abs s) np /\ abs s' = aupd np (set_parent (Some pi)) (born np (abs s)).

Lemma quiet_dup_ofiles l nl : quiet (dup_ofiles l nl).
Proof. revert nl. induction l as [|o l IH]; intros [|no nl]; simpl; quiet. Qed.
#[export] Hint Resolve quiet_dup_ofiles : quiet.

Lemma copyproc_abs pi s : wlp (copyproc (Some pi)) s (forked pi s).
Proof.
  unfold copyproc. apply wlp_bind. eapply wlp_mono; [apply allocproc_abs|]. intros [np|] s1; [|by intros _ ?].
  intros [Hf H1]. skip. skip. case_match; [by apply wlp_any|]. skip.
  eapply (wlp_slot _ _ (set_parent (Some pi))); [done|eassumption|]. intros s2 Hs2.
  skip. skip. case_match; [by do 2 (apply wlp_any; intros)|]. repeat skip.
  intros np' [= <-]. split; [done|]. congruence.
Qed.

Lemma copyproc_thread_abs pi stk s : wlp (copyproc_thread pi stk) s (forked pi s).
Proof.
  unfold copyproc_thread. apply wlp_bind. eapply wlp_mono; [apply allocproc_abs|]. intros [np|] s1; [|by intros _ ?].
  intros [Hf H1]. skip. skip. case_match; [by apply wlp_any|]. skip.
  eapply (wlp_slot _ _ (set_parent (Some pi))); [done|eassumption|]. intros s2 Hs2.
  repeat skip. intros np' [= <-]. split; [done|]. congruence.
Qed.

(** ** The kernel's steps

    Calls of the current process run to their return or to the point where
    they put it to sleep, and the scheduler's switches.  exit is taken
    together with the switch it ends in.  Creation is a step when it
    succeeds, and while pids have not wrapped around. *)
Inductive kstep (ts : Z) : kst -> kst -> Prop :=
| K_fork s r s' : nextpid s < 2147483647 -> sys_fork s = Ret r s' -> r <> -1 -> kstep ts s s'
| K_thread_fork s r s' : nextpid s < 2147483647 -> sys_thread_fork s = Ret r s' -> r <> -1 -> kstep ts s s'
| K_exit s s' : (exit ;; switch_back ts) s = Ret tt s' -> kstep ts s s'
| K_wait s r s' : sys_wait s = Ret r s' -> kstep ts s s'
| K_wait_sleep s c s' : sys_wait s = Sleep c s' -> kstep ts s s'
| K_tickets s r s' : sys_proc_tickets s = Ret r s' -> kstep ts s s'
| K_kill s pid r s' : kill pid s = Ret r s' -> kstep ts s s'
| K_sbrk s r s' : sys_sbrk ts s = Ret r s' -> kstep ts s s'
| K_wakeup s c s' : wakeup c s = Ret tt s' -> kstep ts s s'
| K_sleep s c s' : (sleep c : M kst unit) s = Sleep c s' -> kstep ts s s'
| K_file {A} (m : M fl_st A) s a s' : kfl m s = Ret a s' -> kstep ts s s'
| K_file_sleep {A} (m : M fl_st A) s c s' : kfl m s = Sleep c s' -> kstep ts s s'
| K_cond_sleep s a m r s' : sleep_on_cond a m s = Ret r s' -> kstep ts s s'
| K_cond_signal s a r s' : wake_on_cond a s = Ret r s' -> kstep ts s s'
| K_yield s s' : yield s = Ret tt s' -> kstep ts s s'
| K_switch s i p s' :
    procs s !! i = Some p -> p_state p = RUNNABLE -> switch_to ts i s = Ret tt s' -> kstep ts s s'
| K_switch_back s s' : switch_back ts s = Ret tt s' -> kstep ts s s'.

(** ** Each refines an abstract step *)

Lemma cur_live s : table_ok (abs s) -> forall i, cur s = Some i ->
  exists p, procs s !! i = Some p /\ life_of (p_state p) = Live.
Proof.
  intros H i Hi. destruct (ok_cur _ H i Hi) as (e & He & Hl). unfold abs in He. simpl in He.
  rewrite list_lookup_fmap in He. destruct (procs s !! i) as [p|]; [|done]. injection He as <-. eauto.
Qed.

(** An update of the current process that keeps it live and nothing else of
    its entry. *)
Lemma updcp_live g s :
  table_ok (abs s) -> (forall p, life_of (p_state p) = Live -> key (g p) = key p) ->
  wlp (updcp g) s (fun _ s' => abs s' = abs s).
Proof.
  intros Hok Hg. unfold updcp, cp, wlp, bind, get, of_option. destruct (cur s) as [i|] eqn:Hc; [|done].
  destruct (cur_live _ Hok _ Hc) as (p & Hp & Hl). simpl. rewrite (updp_ret _ _ _ _ Hp). unfold abs. simpl.
  f_equal. rewrite list_fmap_insert, Hg by done. apply list_insert_id. by rewrite list_lookup_fmap, Hp.
Qed.

Lemma go_to_sleep_abs c s : table_ok (abs s) -> abs (go_to_sleep c s) = abs s.
Proof.
  intros Hok. unfold go_to_sleep. destruct (cur s) as [i|] eqn:Hc; [|done].
  destruct (cur_live _ Hok _ Hc) as (p & Hp & Hl). unfold abs. simpl. f_equal.
  apply list_eq. intros j. rewrite !list_lookup_fmap. destruct (decide (j = i)) as [->|].
  - rewrite list_lookup_alter_eq, Hp. simpl. unfold key. simpl. by rewrite Hl.
  - by rewrite list_lookup_alter_ne.
Qed.

(** A pid handed out is the next one. *)
Lemma forked_step pi s np s' :
  table_ok (abs s) -> cur s = Some pi -> nextpid s < 2147483647 -> forked pi s (Some np) s' -> astep (abs s) (abs s').
Proof.
  intros Hok Hc Hn Hf. destruct (Hf np eq_refl) as ((e & He & Hfree) & ->).
  pose proof (ok_next _ Hok) as H0. simpl in H0.
  replace (aupd np (set_parent (Some pi)) (born np (abs s))) with
    (Table (<[np := Entry Live (t_next (abs s)) (Some pi) 100]> (entries (abs s))) (t_init (abs s)) (t_next (abs s) + 1)
           (s32 (t_total (abs s) + 100)) (t_cur (abs s))); [by eapply A_fork|].
  unfold aupd, born. cbn [entries t_init t_next t_total t_cur abs].
  rewrite (s32_small (nextpid s + 1)) by lia. f_equal. cbn [entries abs] in He. apply list_eq. intros j. destruct (decide (j = np)) as [->|].
  - rewrite list_lookup_insert_eq by (by eapply lookup_lt_Some). rewrite !list_lookup_alter_eq, He. done.
  - by rewrite list_lookup_insert_ne, !list_lookup_alter_ne by done.
Qed.

Lemma key_to_runnable p : life_of (p_state p) = Live -> key (set_p_state RUNNABLE p) = key p.
Proof. intros H. unfold key. simpl. by rewrite H. Qed.

(** The end of a fork: the new process made runnable. *)
Lemma fork_finish pi s np :
  table_ok (abs s) -> forall s1, forked pi s (Some np) s1 ->
  wlp (let! p := getp np in updp np (set_p_state RUNNABLE) ;; ret (p_pid p)) s1 (fun _ s' => forked pi s (Some np) s').
Proof.
  intros Hok s1 Hf. destruct (Hf np eq_refl) as (Hfree & E).
  eapply wlp_skip; [quiet|exact E|]. intros p s2 H2.
  eapply (wlp_slot _ _ (set_life Live)); [done|exact H2|]. intros s3 H3 np' [= <-]. split; [done|]. rewrite H3.
  unfold aupd, born. cbn [entries t_init t_next t_total t_cur]. f_equal.
  by rewrite !list_alter_alter.
Qed.

(** Reading the state before code that uses what was read. *)
Lemma wlp_cp {B} (k : nat -> M kst B) s Q : (forall i, cur s = Some i -> wlp (k i) s Q) -> wlp (bind cp k) s Q.
Proof.
  intros H. apply wlp_bind. unfold cp. unfold bind, get, of_option, wlp at 1. destruct (cur s); [by apply H|done].
Qed.
Lemma wlp_getp {B} i (k : proc -> M kst B) s Q :
  (forall p, procs s !! i = Some p -> wlp (k p) s Q) -> wlp (bind (getp i) k) s Q.
Proof.
  intros H. apply wlp_bind. unfold getp, bind, get, of_option, wlp at 1. destruct (procs s !! i); [by apply H|done].
Qed.
Lemma wlp_cproc {B} (k : proc -> M kst B) s Q :
  (forall i p, cur s = Some i -> procs s !! i = Some p -> wlp (k p) s Q) -> wlp (bind cproc k) s Q.
Proof.
  intros H. apply wlp_bind, wlp_cp. intros i Hi. unfold wlp at 1, getp, bind, get, of_option.
  destruct (procs s !! i) as [p|] eqn:Hp; [by eapply H|done].
Qed.

Lemma abs_lookup s i p : procs s !! i = Some p -> entries (abs s) !! i = Some (key p).
Proof. intros H. simpl. by rewrite list_lookup_fmap, H. Qed.

(** ** exit *)

Lemma abandon_abs me i s : wlp (abandon me i) s (fun _ s' => abs s' = aupd i (reparent me (initproc s)) (abs s)).
Proof.
  unfold abandon. apply wlp_getp. intros p Hp. pose proof (abs_lookup _ _ _ Hp) as He. case_decide as Hpar.
  - apply wlp_bind. unfold wlp at 1, get.
    eapply (wlp_slot _ _ (set_parent (initproc s))); [done|done|]. intros s1 H1.
    assert (Hq : quiet (if decide (p_state p = ZOMBIE) then wakeup1 (option_map ChProc (initproc s)) else ret tt)) by quiet.
    eapply wlp_mono; [apply Hq|]. cbv beta. intros _ s2 ->. rewrite H1. unfold aupd. f_equal.
    apply list_eq. intros j. destruct (decide (j = i)) as [->|]; [|by rewrite !list_lookup_alter_ne].
    rewrite !list_lookup_alter_eq, He. unfold reparent. simpl. by rewrite decide_True.
  - unfold wlp, ret. destruct s; unfold abs, aupd. simpl in *. f_equal. symmetry.
    apply list_eq. intros j. destruct (decide (j = i)) as [->|]; [|by rewrite !list_lookup_alter_ne].
    rewrite !list_lookup_alter_eq, He. unfold reparent. simpl. by rewrite decide_False.
Qed.

Definition aupds (f : entry -> entry) (l : list nat) (t : table) : table := foldl (fun t i => aupd i f t) t l.

Lemma abandon_loop_abs me l s :
  wlp (mfor l (abandon me)) s (fun _ s' => abs s' = aupds (reparent me (initproc s)) l (abs s)).
Proof.
  revert s. induction l as [|i l IH]; intros s; simpl; [done|]. apply wlp_bind.
  eapply wlp_mono; [apply abandon_abs|]. intros [] s1 H1. eapply wlp_mono; [apply IH|]. cbv beta. intros _ s2 ->.
  rewrite <-H1. by replace (initproc s1) with (initproc s) by (by injection H1).
Qed.

Lemma alter_take_drop {A} (f : A -> A) (l : list A) n k :
  (k + n = length l)%nat ->
  foldl (fun x i => alter f i x) ((f <$> take k l) ++ drop k l) (seq k n) = f <$> l.
Proof.
  revert k. induction n as [|n IH]; intros k Hk; simpl.
  - by rewrite drop_ge, take_ge, app_nil_r by lia.
  - destruct (lookup_lt_is_Some_2 l k) as [x Hx]; [lia|]. rewrite (drop_S _ _ _ Hx).
    rewrite <-(IH (S k)) by lia. f_equal. rewrite (take_S_r _ _ _ Hx), fmap_app, <-app_assoc. simpl.
    apply list_eq. intros j. destruct (decide (j = k)) as [->|].
    + assert (length (f <$> take k l) = k) by (rewrite length_fmap, length_take; lia).
      rewrite list_lookup_alter_eq, !lookup_app_r by lia. by rewrite H, Nat.sub_diag.
    + rewrite list_lookup_alter_ne by done. destruct (decide (j < k)%nat) as [Hlt|Hge].
      * rewrite !lookup_app_l by (rewrite length_fmap, length_take; lia). done.
      * rewrite !lookup_app_r by (rewrite length_fmap, length_take; lia).
        rewrite length_fmap, length_take, Nat.min_l by lia. by destruct (j - k)%nat eqn:E; [lia|].
Qed.

Lemma aupds_all f t : length (entries t) = NPROC ->
  aupds f (seq 0 NPROC) t = Table (f <$> entries t) (t_init t) (t_next t) (t_total t) (t_cur t).
Proof.
  intros Hl. rewrite <-(alter_take_drop f (entries t) NPROC 0) by done. simpl app. unfold aupds.
  change (drop 0 (entries t)) with (entries t). generalize (seq 0 NPROC) as l. clear Hl.
  intros l. revert t. induction l as [|i l IH]; intros t; [by destruct t|]. simpl. by rewrite IH.
Qed.

Lemma quiet_close_fd fd : quiet (close_fd fd).
Proof. unfold close_fd. quiet. Qed.
Lemma quiet_mfor {A} (l : list A) f : (forall x, quiet (f x)) -> quiet (mfor l f).
Proof. intros H. induction l; simpl; quiet. Qed.
#[export] Hint Resolve quiet_close_fd quiet_mfor : quiet.

Lemma switch_back_abs ts s :
  wlp (switch_back ts) s (fun _ s' => abs s' = Table (entries (abs s)) (t_init (abs s)) (t_next (abs s)) (t_total (abs s)) None).
Proof.
  unfold switch_back. apply wlp_cp. intros i Hi. apply wlp_bind. unfold wlp at 1, get.
  eapply wlp_skip; [quiet|reflexivity|]. intros _ s1 H1. rewrite <-H1. done.
Qed.

(** The table after exit. *)
Definition exited (me : nat) (e : entry) (t : table) : table :=
  Table (alter (set_life Dead) me (reparent me (t_init t) <$> entries t)) (t_init t) (t_next t) (s32 (t_total t - e_tct e)) None.

Lemma exit_table ts s me p :
  table_ok (abs s) -> cur s = Some me -> procs s !! me = Some p ->
  wlp (exit ;; switch_back ts) s (fun _ s' => initproc s <> Some me /\ abs s' = exited me (key p) (abs s)).
Proof.
  intros Hok Hc Hp. apply wlp_bind. unfold exit. apply wlp_cp. intros me' Hc'. apply wlp_getp. intros p' Hp'. simplify_eq.
  apply wlp_bind, wlp_of_option. intros par Hpar. apply wlp_getp. intros pp _.
  set (s0 := set_ttltcts (s32 (ttltcts s - p_tctcnt p)) s).
  apply wlp_bind. change (wlp (modify _) s ?Q) with (Q tt s0). cbv beta.
  apply wlp_bind. change (wlp get s0 ?Q) with (Q s0 s0). cbv beta. case_decide as Hinit; [done|].
  eapply (wlp_skip _ _ _ (abs s0)); [case_match; quiet|reflexivity|]. intros [] s1 H1.
  eapply wlp_skip; [quiet|exact H1|]. intros [] s2 H2.
  apply wlp_bind. eapply wlp_mono; [apply abandon_loop_abs|]. intros [] s3 H3.
  rewrite H2, aupds_all in H3 by (apply (ok_length _ Hok)).
  replace (initproc s2) with (initproc s) in H3 by (by injection H2).
  eapply wlp_mono; [apply (updp_abs _ _ (set_life Dead)); done|]. cbv beta. intros [] s4 H4.
  eapply wlp_mono; [apply switch_back_abs|]. cbv beta. intros [] s5 ->. rewrite H4, H3. done.
Qed.

Lemma exit_abs ts s s' : table_ok (abs s) -> (exit ;; switch_back ts) s = Ret tt s' -> astep (abs s) (abs s').
Proof.
  intros Hok E. destruct (cur s) as [me|] eqn:Hc.
  2: { unfold bind in E at 1. unfold exit, cp, bind, get, of_option in E. by rewrite Hc in E. }
  destruct (cur_live _ Hok _ Hc) as (p & Hp & _).
  destruct (wlp_use _ _ _ _ _ (exit_table ts s me p Hok Hc Hp) E) as [Hi ->].
  apply (A_exit (abs s) me (key p)); [done|done|by apply abs_lookup].
Qed.

(** ** wait *)

Lemma find_zombie_some me k kids l i b :
  find_zombie me k kids l = (Some i, b) ->
  (k <= i)%nat /\ exists p, l !! (i - k)%nat = Some p /\ p_state p = ZOMBIE /\ p_parent p = Some me.
Proof.
  revert k kids. induction l as [|p l IH]; intros k kids; simpl; [done|].
  repeat case_decide; try (intros H'; destruct (IH _ _ H') as (Hk & q & Hq & ?); split; [lia|]; exists q;
    by replace (i - k)%nat with (S (i - S k)) by lia).
  intros [= <- <-]. split; [done|]. exists p. by rewrite Nat.sub_diag.
Qed.

Lemma cp_ret s i : cur s = Some i -> cp s = Ret i s.
Proof. intros H. unfold cp, bind, get, of_option. by rewrite H. Qed.

Lemma wait_run s me c :
  cur s = Some me -> procs s !! me = Some c ->
  wait s = match find_zombie me 0 false (procs s) with
           | (Some i, _) => reap me i
           | (None, havekids) => if negb havekids || ctrue (p_killed c) then ret (-1) else sleep (ChProc me)
           end s.
Proof.
  intros Hc Hp. unfold wait. rewrite (bind_ret _ _ _ _ _ (cp_ret _ _ Hc)).
  rewrite (bind_ret _ _ _ s s) by done. by rewrite (bind_ret _ _ _ _ _ (getp_ret _ _ _ Hp)).
Qed.

(** reap returns or fails; it does not sleep. *)
Lemma reap_abs me i p s :
  cur s = Some me -> procs s !! i = Some p -> p_state p = ZOMBIE -> p_parent p = Some me ->
  wlp (reap me i) s (fun _ s' => astep (abs s) (abs s')).
Proof.
  intros Hc Hi Hz Hpar. unfold reap. apply wlp_getp. intros c' _. apply wlp_getp. intros p' Hp'. simplify_eq.
  eapply wlp_skip; [case_match; quiet|reflexivity|]. intros _ s1 H1. eapply wlp_skip; [quiet|exact H1|]. intros _ s2 H2.
  eapply (wlp_slot _ _ (fun e => Entry Free 0 None (e_tct e))); [done|exact H2|]. intros s3 H3.
  change (astep (abs s) (abs s3)). rewrite H3. unfold aupd.
  rewrite (list_alter_at _ _ _ _ (abs_lookup _ _ _ Hi)). eapply A_wait; [done|by apply abs_lookup|simpl; by rewrite Hz|done].
Qed.

(** Code that does not sleep. *)
Definition awake {A} (m : M kst A) : Prop := forall s c s', m s <> Sleep c s'.

Lemma awake_bind {A B} (m : M kst A) (k : A -> M kst B) : awake m -> (forall a, awake (k a)) -> awake (bind m k).
Proof. intros Hm Hk s c s'. unfold bind. destruct (m s) eqn:E; try done; [apply Hk|]. by apply Hm in E. Qed.
Lemma awake_getp i : awake (getp i).
Proof. intros s c s'. unfold getp, bind, get, of_option. by destruct (procs s !! i). Qed.
Lemma awake_updp i g : awake (updp i g).
Proof. apply awake_bind; [apply awake_getp|done]. Qed.
Lemma awake_kfree p n : awake (kpages (kfree p n)).
Proof. intros s c s'. unfold kpages, kfl, alloc, zoom, kfree. repeat case_match; done. Qed.

Lemma reap_awake me i : awake (reap me i).
Proof.
  unfold reap. apply awake_bind; [apply awake_getp|]. intros c. apply awake_bind; [apply awake_getp|]. intros p.
  apply awake_bind; [destruct (_ =? _); [done|apply awake_kfree]|]. intros _.
  apply awake_bind; [apply awake_kfree|]. intros _. apply awake_bind; [apply awake_updp|done].
Qed.

Lemma wait_abs s : table_ok (abs s) ->
  match wait s with Ret _ s' | Sleep _ s' => astep (abs s) (abs s') | _ => True end.
Proof.
  intros Hok. destruct (cur s) as [me|] eqn:Hc; [|unfold wait, cp, bind, get, of_option; by rewrite Hc].
  destruct (cur_live _ Hok _ Hc) as (c & Hp & _). rewrite (wait_run _ _ _ Hc Hp).
  destruct (find_zombie me 0 false (procs s)) as [[i|] kids] eqn:E.
  - destruct (find_zombie_some _ _ _ _ _ _ E) as (_ & p & Hi & Hz & Hpar). rewrite Nat.sub_0_r in Hi.
    pose proof (reap_abs me i p s Hc Hi Hz Hpar) as Hw. pose proof (reap_awake me i s) as Ha.
    unfold wlp in Hw. destruct (reap me i s); try done. by destruct (Ha _ _ eq_refl).
  - destruct (negb kids || ctrue (p_killed c)); [apply A_quiet|]. unfold sleep. rewrite Hc.
    rewrite go_to_sleep_abs by done. apply A_quiet.
Qed.

(** ** Tickets and switches *)

Lemma argint_pure n s : wlp (argint n) s (fun _ s' => s' = s).
Proof. unfold argint. by apply wlp_cproc. Qed.

Lemma tickets_abs s : wlp sys_proc_tickets s (fun _ s' => astep (abs s) (abs s')).
Proof.
  unfold sys_proc_tickets. apply wlp_bind. eapply wlp_mono; [apply argint_pure|]. cbv beta. intros [n|] ? ->; [|apply A_quiet].
  assert (Hq : forall s1 t, abs s1 = t -> wlp (let! p := cproc in ret (p_tctcnt p)) s1 (fun _ s' => abs s' = t)).
  { intros s1 t <-. by apply wlp_cproc. }
  destruct (Z.ltb_spec 0 n) as [Hn|]; [|case_match; [apply A_quiet|]].
  2: { eapply wlp_mono; [by apply Hq|]. cbv beta. intros _ s' ->. apply A_quiet. }
  unfold set_tickets. apply wlp_bind, wlp_cproc. intros me p Hc Hp.
  set (s0 := set_ttltcts (s32 (ttltcts s - p_tctcnt p)) s).
  apply wlp_bind. change (wlp (modify _) s ?Q) with (Q tt s0). cbv beta. apply wlp_bind. unfold updcp.
  apply wlp_cp. intros i Hi. assert (i = me) as -> by (change (cur s0) with (cur s) in Hi; congruence).
  eapply wlp_mono; [apply (updp_abs _ _ (fun e => Entry (e_life e) (e_pid e) (e_parent e) n)); done|]. intros [] s1 H1.
  unfold aupd in H1. rewrite (list_alter_at _ _ _ _ (abs_lookup s0 _ _ Hp)) in H1.
  set (s2 := set_ttltcts (s32 (ttltcts s1 + n)) s1). change (wlp (modify _) s1 ?Q) with (Q tt s2). cbv beta.
  eapply wlp_mono; [by apply Hq|]. cbv beta. intros _ s' ->. injection H1 as E1 E2 E3 E4 E5.
  unfold abs at 2. unfold s2. cbn [procs initproc nextpid ttltcts cur set_ttltcts]. rewrite E1, E2, E3, E4, E5.
  apply (A_tickets (abs s) me (key p)); [done|by apply abs_lookup|done].
Qed.

Lemma switch_to_abs ts i p s :
  procs s !! i = Some p -> p_state p = RUNNABLE -> wlp (switch_to ts i) s (fun _ s' => astep (abs s) (abs s')).
Proof.
  intros Hp Hr. unfold switch_to. apply wlp_getp. intros p' Hp'. simplify_eq.
  unfold wlp, bind, modify, setupsegs. unfold modify.
  match goal with |- context [updp i ?g ?x] => rewrite (updp_ret i g p x Hp) end.
  unfold abs at 2. cbn [procs initproc nextpid ttltcts cur set_procs set_gdt set_esp0 set_bct set_k_fl set_cur].
  rewrite list_fmap_insert. replace (key (set_p_state RUNNING p)) with (key p) by (unfold key; simpl; by rewrite Hr).
  rewrite list_insert_id by (by apply abs_lookup).
  apply (A_switch (abs s) (Some i)). intros j [= <-]. exists (key p). split; [by apply abs_lookup|]. simpl. by rewrite Hr.
Qed.

Lemma quiet_kill pid : quiet (kill pid).
Proof.
  apply quiet_bind; [quiet|]. intros s. case_match; [|quiet]. apply quiet_bind; [|quiet]. apply quiet_updp.
  intros p. simpl. case_decide as Hs; [|done]. unfold key. simpl. by rewrite Hs.
Qed.

Lemma quiet_growproc ts n : quiet (growproc ts n).
Proof. unfold growproc, setupsegs. quiet. Qed.

Lemma quiet_wake_on_cond a : quiet (wake_on_cond a).
Proof.
  apply quiet_bind; [quiet|]. intros c. apply quiet_bind; [|quiet]. apply quiet_modify. intros s. unfold abs. simpl. f_equal.
  rewrite <-list_fmap_compose. apply list_fmap_ext. intros i p _. simpl. repeat case_match; try done. unfold key. simpl. by rewrite e.
Qed.

Lemma fork_abs s r s' :
  table_ok (abs s) -> nextpid s < 2147483647 -> sys_fork s = Ret r s' -> r <> -1 -> astep (abs s) (abs s').
Proof.
  intros Hok Hn Hs Hr. revert Hr. eapply (wlp_use _ _ (fun r s' => r <> -1 -> astep (abs s) (abs s'))); [|exact Hs].
  unfold sys_fork. apply wlp_cp. intros me Hc. apply wlp_bind. eapply wlp_mono; [apply copyproc_abs|].
  intros [np|] s1 Hf; [|intros Hx; by destruct (Hx eq_refl)]. eapply wlp_mono; [by apply (fork_finish me s np)|]. cbv beta.
  intros _ s2 Hf' _. by eapply forked_step.
Qed.

Lemma thread_fork_abs s r s' :
  table_ok (abs s) -> nextpid s < 2147483647 -> sys_thread_fork s = Ret r s' -> r <> -1 -> astep (abs s) (abs s').
Proof.
  intros Hok Hn Hs Hr. revert Hr. eapply (wlp_use _ _ (fun r s' => r <> -1 -> astep (abs s) (abs s'))); [|exact Hs].
  unfold sys_thread_fork. apply wlp_bind. eapply wlp_mono; [apply argint_pure|]. cbv beta. intros [stk|] ? ->; [|by intros []].
  apply wlp_cp. intros me Hc. apply wlp_bind. eapply wlp_mono; [apply copyproc_thread_abs|].
  intros [np|] s1 Hf; [|by intros []]. eapply wlp_mono; [by apply (fork_finish me s np)|]. cbv beta.
  intros _ s2 Hf' _. by eapply forked_step.
Qed.

Lemma quiet_step {A} (m : M kst A) s a s' : quiet m -> m s = Ret a s' -> astep (abs s) (abs s').
Proof. intros Hq E. rewrite <-(wlp_use _ _ _ _ _ (Hq s) E). apply A_quiet. Qed.

Lemma live_step g s s' :
  table_ok (abs s) -> (forall p, life_of (p_state p) = Live -> key (g p) = key p) ->
  updcp g s = Ret tt s' -> astep (abs s) (abs s').
Proof. intros Hok Hg E. rewrite <-(wlp_use _ _ _ _ _ (updcp_live g s Hok Hg) E). apply A_quiet. Qed.

Lemma sbrk_abs ts s r s' : sys_sbrk ts s = Ret r s' -> astep (abs s) (abs s').
Proof.
  intros E. eapply (wlp_use _ _ (fun _ s' => astep (abs s) (abs s'))); [|exact E]. unfold sys_sbrk. apply wlp_bind.
  eapply wlp_mono; [apply argint_pure|]. cbv beta. intros [n|] ? ->; [|apply A_quiet].
  apply wlp_bind. eapply wlp_mono; [apply quiet_growproc|]. cbv beta. intros a s1 H1.
  case_match; unfold wlp, ret; rewrite <-H1; apply A_quiet.
Qed.

Lemma cond_sleep_abs s a m r s' : table_ok (abs s) -> sleep_on_cond a m s = Ret r s' -> astep (abs s) (abs s').
Proof.
  intros Hok E. eapply (wlp_use _ _ (fun _ s' => astep (abs s) (abs s'))); [|exact E]. unfold sleep_on_cond. apply wlp_bind.
  eapply wlp_mono; [apply updcp_live; [done|]|].
  { intros p Hl. unfold key. simpl. by rewrite Hl. }
  intros [] s1 H1. eapply wlp_skip; [quiet|exact H1|]. intros p s2 H2. eapply wlp_skip; [quiet|exact H2|].
  intros [] s3 H3. unfold wlp, ret. rewrite H3. apply A_quiet.
Qed.

(** Every step of the kernel is a step of the abstract table. *)
Lemma kstep_astep ts s s' : table_ok (abs s) -> kstep ts s s' -> astep (abs s) (abs s').
Proof.
  intros Hok. destruct 1 as [s r s' Hn E Hr|s r s' Hn E Hr|s s' E|s r s' E|s c s' E|s r s' E|s pid r s' E|s r s' E
    |s c s' E|s c s' E|A m s a s' E|A m s c s' E|s a m r s' E|s a r s' E|s s' E|s i p s' Hp Hr E|s s' E].
  - by eapply fork_abs.
  - by eapply thread_fork_abs.
  - by eapply exit_abs.
  - pose proof (wait_abs s Hok) as H. unfold sys_wait in E. by rewrite E in H.
  - pose proof (wait_abs s Hok) as H. unfold sys_wait in E. by rewrite E in H.
  - apply (wlp_use _ _ _ _ _ (tickets_abs s) E).
  - by apply (quiet_step _ _ _ _ (quiet_kill pid) E).
  - by eapply sbrk_abs.
  - by apply (quiet_step _ _ _ _ (quiet_wakeup1 (Some c)) E).
  - unfold sleep in E. destruct (cur s); [|done]. injection E as <-. rewrite go_to_sleep_abs by done. apply A_quiet.
  - by apply (quiet_step _ _ _ _ (quiet_kfl m) E).
  - unfold kfl in E. destruct (m (k_fl s)); try done. injection E as <- <-.
    rewrite go_to_sleep_abs by (by rewrite abs_deliver). rewrite abs_deliver. apply A_quiet.
  - by eapply cond_sleep_abs.
  - by apply (quiet_step _ _ _ _ (quiet_wake_on_cond a) E).
  - by eapply live_step; [|apply key_to_runnable|].
  - by apply (wlp_use _ _ _ _ _ (switch_to_abs ts i p s Hp Hr) E).
  - rewrite (wlp_use _ _ _ _ _ (switch_back_abs ts s) E). by apply A_switch.
Qed.

(** ** The abstract steps keep the invariant *)

Definition weight (e : entry) : Z := match e_life e with Live => e_tct e | _ => 0 end.

Lemma atickets_insert l i e e' : l !! i = Some e -> atickets (<[i := e']> l) = atickets l - weight e + weight e'.
Proof.
  revert i. induction l as [|x l IH]; intros [|i] H; try done; simpl in *; fold (weight x).
  - injection H as ->. fold (weight e). fold (weight e'). lia.
  - rewrite (IH _ H). lia.
Qed.

Lemma atickets_reparent me init l : atickets (reparent me init <$> l) = atickets l.
Proof. induction l as [|e l IH]; [done|]. cbn. fold (atickets l). unfold atickets in IH at 1. rewrite IH. unfold reparent. by case_decide. Qed.

Lemma s32_add a b : s32 (s32 a + b) = s32 (a + b).
Proof.
  unfold s32. f_equal.
  replace ((a + 2147483648) mod u32_mod - 2147483648 + b + 2147483648) with ((a + 2147483648) mod u32_mod + b) by lia.
  rewrite Zplus_mod_idemp_l. f_equal. lia.
Qed.

Lemma fork_ok t me np e :
  table_ok t -> t_cur t = Some me -> entries t !! np = Some e -> e_life e = Free -> t_next t < 2147483647 ->
  table_ok (Table (<[np := Entry Live (t_next t) (Some me) 100]> (entries t)) (t_init t) (t_next t + 1)
                  (s32 (t_total t + 100)) (t_cur t)).
Proof.
  intros Hok Hc He Hf Hn. pose proof (lookup_lt_Some _ _ _ He) as Hlt. destruct (ok_cur _ Hok _ Hc) as (m & Hm & Hml).
  assert (Hup : forall j f, entries t !! j = Some f -> e_life f = Live ->
    <[np := Entry Live (t_next t) (Some me) 100]> (entries t) !! j = Some f).
  { intros j f Hj Hl. rewrite list_lookup_insert_ne; [done|]. intros ->. simplify_eq. congruence. }
  assert (Hdown : forall j f, <[np := Entry Live (t_next t) (Some me) 100]> (entries t) !! j = Some f ->
    j = np /\ f = Entry Live (t_next t) (Some me) 100 \/ j <> np /\ entries t !! j = Some f).
  { intros j f. destruct (decide (j = np)) as [->|]; [rewrite list_lookup_insert_eq by done|rewrite list_lookup_insert_ne by done];
      naive_solver. }
  split; simpl.
  - rewrite length_insert. apply (ok_length _ Hok).
  - rewrite (atickets_insert _ _ _ _ He), (ok_total _ Hok), s32_add. f_equal. unfold weight. rewrite Hf. simpl. lia.
  - intros i f j Hi Hl Hp. apply Hdown in Hi as [[-> ->]|[_ Hi]].
    + injection Hp as <-. eauto.
    + destruct (ok_parent _ Hok _ _ _ Hi Hl Hp) as (g & ? & ?). eauto.
  - intros i Hi. destruct (ok_cur _ Hok _ Hi) as (g & ? & ?). eauto.
  - destruct (ok_init _ Hok) as (i & g & ? & ? & ?). eauto 6.
  - pose proof (ok_next _ Hok). intros i f Hi Hl. apply Hdown in Hi as [[-> ->]|[_ Hi]]; simpl; [lia|].
    pose proof (ok_pid _ Hok _ _ Hi Hl). lia.
  - intros i j f g Hi Hj Hfl Hgl Hpid.
    apply Hdown in Hi as [[-> ->]|[_ Hi]]; apply Hdown in Hj as [[-> ->]|[_ Hj]]; simpl in *.
    + done.
    + pose proof (ok_pid _ Hok _ _ Hj Hgl). lia.
    + pose proof (ok_pid _ Hok _ _ Hi Hfl). lia.
    + by eapply (ok_nodup _ Hok).
  - pose proof (ok_next _ Hok). lia.
Qed.

Lemma wait_ok t me i e :
  table_ok t -> t_cur t = Some me -> entries t !! i = Some e -> e_life e = Dead -> e_parent e = Some me ->
  table_ok (Table (<[i := Entry Free 0 None (e_tct e)]> (entries t)) (t_init t) (t_next t) (t_total t) (t_cur t)).
Proof.
  intros Hok Hc He Hd Hp. pose proof (lookup_lt_Some _ _ _ He) as Hlt.
  assert (Hup : forall j f, entries t !! j = Some f -> e_life f = Live -> <[i := Entry Free 0 None (e_tct e)]> (entries t) !! j = Some f).
  { intros j f Hj Hl. rewrite list_lookup_insert_ne; [done|]. intros ->. simplify_eq. congruence. }
  assert (Hdown : forall j f, <[i := Entry Free 0 None (e_tct e)]> (entries t) !! j = Some f -> e_life f <> Free ->
    entries t !! j = Some f).
  { intros j f. destruct (decide (j = i)) as [->|]; [rewrite list_lookup_insert_eq by done|rewrite list_lookup_insert_ne by done];
      naive_solver. }
  split; simpl.
  - rewrite length_insert. apply (ok_length _ Hok).
  - rewrite (atickets_insert _ _ _ _ He), (ok_total _ Hok). f_equal. unfold weight. rewrite Hd. simpl. lia.
  - intros k f j Hk Hl Hpar. destruct (ok_parent _ Hok k f j) as (g & ? & ?); eauto.
  - intros k Hk. destruct (ok_cur _ Hok _ Hk) as (g & ? & ?). eauto.
  - destruct (ok_init _ Hok) as (k & g & ? & ? & ?). eauto 6.
  - intros k f Hk Hl. by apply (ok_pid _ Hok k f); eauto.
  - intros k j f g Hk Hj Hfl Hgl Hpid. by eapply (ok_nodup _ Hok); eauto.
  - apply (ok_next _ Hok).
Qed.

Lemma exit_ok t me e :
  table_ok t -> t_cur t = Some me -> t_init t <> Some me -> entries t !! me = Some e ->
  table_ok (Table (alter (set_life Dead) me (reparent me (t_init t) <$> entries t)) (t_init t) (t_next t)
                  (s32 (t_total t - e_tct e)) None).
Proof.
  intros Hok Hc Hi He. destruct (ok_cur _ Hok _ Hc) as (e' & He' & Hl). simplify_eq.
  destruct (ok_init _ Hok) as (ini & ie & Hini & Hie & Hil). rewrite Hini in *.
  set (l := alter (set_life Dead) me (reparent me (Some ini) <$> entries t)).
  assert (Hlk : forall j, l !! j = (if decide (j = me) then set_life Dead else id) <$> (reparent me (Some ini) <$> entries t !! j)).
  { intros j. unfold l. case_decide; [subst; by rewrite list_lookup_alter_eq, list_lookup_fmap|].
    rewrite list_lookup_alter_ne, list_lookup_fmap by done. by destruct (entries t !! j). }
  assert (Hrl : forall x, e_life (reparent me (Some ini) x) = e_life x) by (intros; unfold reparent; by case_decide).
  assert (Hrp : forall x, e_pid (reparent me (Some ini) x) = e_pid x) by (intros; unfold reparent; by case_decide).
  assert (Hdown : forall j f, l !! j = Some f -> exists x, entries t !! j = Some x /\ e_pid f = e_pid x /\
     (e_life f <> Free -> e_life x <> Free) /\ e_parent f = e_parent (reparent me (Some ini) x)).
  { intros j f. rewrite Hlk. destruct (entries t !! j) as [x|] eqn:Ex; [|by case_decide]. simpl. intros [= <-]. exists x.
    case_decide; simpl; [subst; simplify_eq; rewrite Hrp, Hl; done|]. rewrite Hrp, Hrl. done. }
  assert (Hup : forall j f, entries t !! j = Some f -> e_life f = Live -> j <> me -> exists g, l !! j = Some g /\ e_life g = Live).
  { intros j f Hj Hf Hne. rewrite Hlk, Hj, decide_False by done. simpl. eexists. split; [done|]. simpl. by rewrite Hrl. }
  assert (Hinime : ini <> me) by congruence.
  split; simpl; fold l.
  - unfold l. rewrite length_alter, length_fmap. apply (ok_length _ Hok).
  - unfold l. rewrite (list_alter_at _ _ _ (reparent me (Some ini) e)) by (by rewrite list_lookup_fmap, He).
    rewrite (atickets_insert _ _ (reparent me (Some ini) e)) by (by rewrite list_lookup_fmap, He).
    rewrite atickets_reparent, (ok_total _ Hok). unfold Z.sub at 1. rewrite s32_add. f_equal.
    unfold weight. rewrite Hrl, Hl. simpl. unfold reparent. case_decide; simpl; lia.
  - intros i f j Hf Hfl Hp. destruct (Hdown _ _ Hf) as (x & Hx & _ & Hxl & Hxp). rewrite Hxp in Hp. unfold reparent in Hp.
    case_decide as Hme; simpl in Hp; [injection Hp as <-; eauto|].
    destruct (ok_parent _ Hok _ _ _ Hx (Hxl Hfl) Hp) as (g & Hg & Hgl). apply (Hup _ _ Hg Hgl). congruence.
  - done.
  - destruct (Hup _ _ Hie Hil Hinime) as (g & ? & ?). eauto 6.
  - intros i f Hf Hfl. destruct (Hdown _ _ Hf) as (x & Hx & -> & Hxl & _). by apply (ok_pid _ Hok i x); auto.
  - intros i j f g Hf Hg Hfl Hgl Hpid. destruct (Hdown _ _ Hf) as (x & Hx & Ex & Hxl & _).
    destruct (Hdown _ _ Hg) as (y & Hy & Ey & Hyl & _). apply (ok_nodup _ Hok i j x y); auto; congruence.
  - apply (ok_next _ Hok).
Qed.
