(* ===== verification/ProcInv.v ===== *)
(** * The process table's theorems

    The kernel's steps refine the abstract table and keep its invariant from
    the first process on; and a process waiting for a child gets it when the
    child exits. *)

From S2P Require Import Prelude CString Kalloc Layout Ide Bio Fs Pipe File Mmu Spinlock Proc Sched Syscall Sysproc ProcTable.

Lemma tickets_set_ok t me e n :
  table_ok t -> t_cur t = Some me -> entries t !! me = Some e -> 0 < n ->
  table_ok (Table (<[me := Entry (e_life e) (e_pid e) (e_parent e) n]> (entries t)) (t_init t) (t_next t)
                  (s32 (s32 (t_total t - e_tct e) + n)) (t_cur t)).
Proof.
  intros Hok Hc He Hn. pose proof (lookup_lt_Some _ _ _ He) as Hlt.
  destruct (ok_cur _ Hok _ Hc) as (e' & He' & Hl). simplify_eq.
  set (e1 := Entry (e_life e) (e_pid e) (e_parent e) n). set (l := <[me := e1]> (entries t)).
  assert (Hup : forall j f, entries t !! j = Some f -> exists g, l !! j = Some g /\ e_life g = e_life f).
  { intros j f Hj. unfold l. destruct (decide (j = me)) as [->|].
    - rewrite list_lookup_insert_eq by done. simplify_eq. by exists e1.
    - rewrite list_lookup_insert_ne by done. eauto. }
  assert (Hdown : forall j f, l !! j = Some f -> exists g, entries t !! j = Some g /\ e_life g = e_life f /\
    e_pid g = e_pid f /\ e_parent g = e_parent f).
  { intros j f. unfold l. destruct (decide (j = me)) as [->|].
    - rewrite list_lookup_insert_eq by done. intros [= <-]. exists e. done.
    - rewrite list_lookup_insert_ne by done. eauto. }
  split; simpl; fold e1; fold l.
  - unfold l. rewrite length_insert. apply (ok_length _ Hok).
  - unfold l. rewrite (atickets_insert _ _ _ _ He), (ok_total _ Hok). rewrite s32_add. unfold Z.sub at 1. rewrite <-Z.add_assoc, s32_add. f_equal.
    unfold weight. simpl. rewrite Hl. lia.
  - intros i f j Hf Hfl Hp. destruct (Hdown _ _ Hf) as (g & Hg & El & _ & Ep). rewrite <-El in Hfl. rewrite <-Ep in Hp.
    destruct (ok_parent _ Hok _ _ _ Hg Hfl Hp) as (h & Hh & Hhl). destruct (Hup _ _ Hh) as (x & ? & ?). exists x. split; congruence.
  - intros i Hi. destruct (ok_cur _ Hok _ Hi) as (h & Hh & Hhl). destruct (Hup _ _ Hh) as (x & ? & ?). exists x. split; congruence.
  - destruct (ok_init _ Hok) as (i & h & Hi & Hh & Hhl). destruct (Hup _ _ Hh) as (x & ? & ?). exists i, x. split_and!; congruence.
  - intros i f Hf Hfl. destruct (Hdown _ _ Hf) as (g & Hg & El & <- & _). apply (ok_pid _ Hok i g Hg). congruence.
  - intros i j f g Hf Hg Hfl Hgl Hpid. destruct (Hdown _ _ Hf) as (x & Hx & Ex & Px & _).
    destruct (Hdown _ _ Hg) as (y & Hy & Ey & Py & _). apply (ok_nodup _ Hok i j x y); congruence.
  - apply (ok_next _ Hok).
Qed.

Lemma switch_ok t c :
  table_ok t -> (forall i, c = Some i -> exists e, entries t !! i = Some e /\ e_life e = Live) ->
  table_ok (Table (entries t) (t_init t) (t_next t) (t_total t) c).
Proof. intros [] Hc. split; simpl; try done. Qed.

Lemma astep_ok t t' : table_ok t -> astep t t' -> table_ok t'.
Proof.
  intros Hok. destruct 1.
  - done.
  - by apply switch_ok.
  - by eapply fork_ok.
  - by apply exit_ok.
  - by eapply wait_ok.
  - by apply tickets_set_ok.
Qed.

Lemma kstep_ok ts s s' : table_ok (abs s) -> kstep ts s s' -> table_ok (abs s').
Proof. intros Hok Hk. eapply astep_ok; [done|]. by eapply kstep_astep. Qed.

Lemma ksteps_ok ts s s' : table_ok (abs s) -> rtc (kstep ts) s s' -> table_ok (abs s').
Proof. intros Hok Hr. induction Hr as [|x y z Hxy Hyz IH]; [done|]. apply IH. by eapply kstep_ok. Qed.


Lemma tickets_abs_eq l : atickets (key <$> l) = tickets l.
Proof.
  induction l as [|p l IH]; [done|].
  change (weight (key p) + atickets (key <$> l) = tct p + tickets l). rewrite IH. f_equal.
  unfold weight, tct, live. simpl. by destruct (p_state p).
Qed.


(** ** The first process *)

Definition unused_proc : proc := Proc 0 0 0 UNUSED 0 None None 0 (replicate NOFILE None) None zero_tf [] 0 0 empty_ct.
Definition boot_kst : kst :=
  Kst (FlSt (FsSt (boot 2 ∅) (replicate 4 (Inode 0 0 0 0 0 0 0 0 0 []))) (replicate 8 (File FD_CLOSED 0 0 0 0 None 0)) ∅
            [Run 1048576 1048576])
      (fun _ => 0) (replicate NPROC unused_proc) None 1 0 None 0 [] 0.
Definition first_kst : kst := final (userinit [144; 144] boot_kst).

Lemma first_ok_table c : c = None \/ c = Some O ->
  table_ok (Table (Entry Live 1 None 100 :: replicate 63 (Entry Free 0 None 0)) (Some O) 2 100 c).
Proof.
  intros Hc. assert (Hl : forall i e, (Entry Live 1 None 100 :: replicate 63 (Entry Free 0 None 0)) !! i = Some e ->
    i = O /\ e = Entry Live 1 None 100 \/ e_life e = Free).
  { intros [|i] e; cbn [lookup list_lookup]; [by intros [= <-]; left|]. intros [-> _]%lookup_replicate. by right. }
  split; cbn [entries t_init t_next t_total t_cur]; try done.
  - intros i e j He Hf Hp. destruct (Hl _ _ He) as [[-> ->]|]; done.
  - intros i ->. destruct Hc as [|[= ->]]; [done|]. by eexists.
  - exists O. by eexists.
  - intros i e He Hf. destruct (Hl _ _ He) as [[-> ->]|]; [simpl; lia|done].
  - intros i j e f He Hf H1 H2 _. destruct (Hl _ _ He) as [[-> _]|]; [|done]. by destruct (Hl _ _ Hf) as [[-> _]|].
Qed.

Lemma first_ok : table_ok (abs first_kst).
Proof.
  replace (abs first_kst) with (Table (Entry Live 1 None 100 :: replicate 63 (Entry Free 0 None 0)) (Some O) 2 100 None)
    by (vm_compute; reflexivity).
  apply first_ok_table. by left.
Qed.

(** The first process scheduled, and then forking. *)
Definition running_kst : kst := final (switch_to 0 0 first_kst).
Definition forked_kst : kst := final (sys_fork running_kst).

(** Evaluating an outcome without evaluating the state it carries. *)
Lemma ret_final {S A} (r : res S A) a : match r with Ret x _ => x = a | _ => False end -> r = Ret a (final r).
Proof. destruct r; [by intros ->|done..]. Qed.

Lemma demo_switch : switch_to 0 0 first_kst = Ret tt running_kst.
Proof. unfold running_kst. apply ret_final. vm_compute. reflexivity. Qed.
Lemma demo_fork : sys_fork running_kst = Ret 2 forked_kst.
Proof. unfold forked_kst. apply ret_final. vm_compute. reflexivity. Qed.
Lemma demo_runnable : exists p, procs first_kst !! 0%nat = Some p /\ p_state p = RUNNABLE.
Proof. vm_compute. eauto. Qed.

Lemma demo_steps : rtc (kstep 0) first_kst forked_kst.
Proof.
  destruct demo_runnable as (p & Hp & Hr). apply rtc_l with running_kst; [|apply rtc_once].
  - exact (K_switch 0 first_kst 0%nat p running_kst Hp Hr demo_switch).
  - refine (K_fork 0 running_kst 2 forked_kst _ demo_fork _); [|done]. vm_compute. reflexivity.
Qed.



(** ** exit and wait meet *)

(** A parent in wait: asleep on itself, or already woken. *)
Definition waiting (par : nat) (p : proc) : Prop :=
  p_state p = SLEEPING /\ p_chan p = Some (ChProc par) \/ p_state p = RUNNABLE.
Definition slot (j : nat) (P : proc -> Prop) (s : kst) : Prop := exists p, procs s !! j = Some p /\ P p.

(** Code that leaves what [P] says of slot [j] alone. *)
Definition keeps {A} (j : nat) (P : proc -> Prop) (m : M kst A) : Prop :=
  forall s, slot j P s -> wlp m s (fun _ s' => slot j P s').

Lemma keeps_bind {A B} j P (m : M kst A) (k : A -> M kst B) :
  keeps j P m -> (forall a, keeps j P (k a)) -> keeps j P (bind m k).
Proof. intros Hm Hk s Hs. apply wlp_bind. eapply wlp_mono; [by apply Hm|]. intros a s' H. by apply Hk. Qed.
Lemma keeps_read {A} j P (m : M kst A) : (forall s, wlp m s (fun _ s' => procs s' = procs s)) -> keeps j P m.
Proof. intros Hm s (p & Hp & HP). eapply wlp_mono; [apply Hm|]. simpl. intros _ s' E. exists p. by rewrite E. Qed.
Lemma keeps_updp j P i g : (forall p, P p -> P (g p)) -> keeps j P (updp i g).
Proof.
  intros Hg s (p & Hp & HP). unfold wlp, updp, bind. destruct (getp i s) as [q s0| | | |] eqn:E; try done.
  unfold getp, bind, get, of_option in E. destruct (procs s !! i) as [q'|] eqn:Ei; [|done]. injection E as <- <-.
  unfold slot. simpl. destruct (decide (i = j)) as [->|].
  - rewrite list_lookup_insert_eq by (by eapply lookup_lt_Some). simplify_eq. eauto.
  - rewrite list_lookup_insert_ne by done. eauto.
Qed.
Lemma keeps_updp_ne j P i g : i <> j -> keeps j P (updp i g).
Proof.
  intros Hne s (p & Hp & HP). unfold wlp, updp, bind. destruct (getp i s) as [q s0| | | |] eqn:E; try done.
  unfold getp, bind, get, of_option in E. destruct (procs s !! i) as [q'|] eqn:Ei; [|done]. injection E as <- <-.
  exists p. simpl. by rewrite list_lookup_insert_ne.
Qed.

Section wakes.
Context (j : nat) (P : proc -> Prop) (Hwake : forall c p, P p -> P (wake c p)).

Lemma slot_wake c s : slot j P s -> slot j P (set_procs (wake c <$> procs s) s).
Proof. intros (p & Hp & HP). exists (wake c p). simpl. rewrite list_lookup_fmap, Hp. auto. Qed.
Lemma keeps_wakeup1 c : keeps j P (wakeup1 c).
Proof. intros s Hs. by apply slot_wake. Qed.
Lemma keeps_kfl {A} (m : M fl_st A) : keeps j P (kfl m).
Proof using Hwake.
  intros s Hs. unfold wlp, kfl. destruct (m (k_fl s)) as [a t| | | |]; try done.
  unfold deliver, take_wakes. destruct Hs as (p & Hp & HP). unfold slot. simpl.
  revert p Hp HP. generalize (rev (Bio.wakes (fb (f_fs t)))) as l. generalize (procs s) as ps. intros ps l. revert ps.
  induction l as [|c l IH]; intros ps p Hp HP; simpl; [eauto|].
  apply (IH _ (wake (Some c) p)); [by rewrite list_lookup_fmap, Hp|auto].
Qed.
End wakes.

Lemma waiting_wake par c p : waiting par p -> waiting par (wake c p).
Proof. unfold waiting, wake. intros [[H1 H2]|H1]; repeat case_decide; simpl; auto. Qed.

Lemma keeps_mfor {A} j P (l : list A) f : (forall x, keeps j P (f x)) -> keeps j P (mfor l f).
Proof. intros H. induction l; simpl; [by apply keeps_read|]. by apply keeps_bind. Qed.

Definition runnable (p : proc) : Prop := p_state p = RUNNABLE.
Lemma runnable_wake c p : runnable p -> runnable (wake c p).
Proof. unfold runnable, wake. intros H. repeat case_decide; done. Qed.

Lemma keeps_cp {B} j P (k : nat -> M kst B) : (forall i, keeps j P (k i)) -> keeps j P (bind cp k).
Proof. intros H s Hs. apply wlp_cp. intros i _. by apply H. Qed.
Lemma keeps_getp {B} j P i (k : proc -> M kst B) : (forall p, keeps j P (k p)) -> keeps j P (bind (getp i) k).
Proof. intros H s Hs. apply wlp_getp. intros p _. by apply H. Qed.
Lemma keeps_opt {A} j P w (o : option A) : keeps j P (of_option w o).
Proof. intros s Hs. apply wlp_of_option. by intros a ->. Qed.

Lemma keeps_cproc j P : keeps j P cproc.
Proof.
  apply keeps_cp. intros i. apply keeps_read. intros s. unfold wlp, getp, bind, get, of_option. by destruct (procs s !! i).
Qed.

Lemma keeps_close_fd par fd : keeps par (waiting par) (close_fd fd).
Proof.
  unfold close_fd. apply keeps_bind; [apply keeps_cproc|]. intros p.
  repeat case_match; try by apply keeps_read.
  apply keeps_bind; [apply keeps_kfl, waiting_wake|]. intros _. apply keeps_cp. intros i. by apply keeps_updp.
Qed.

Lemma keeps_abandon par me i : keeps par runnable (abandon me i).
Proof.
  unfold abandon. apply keeps_getp. intros p. case_decide; [|by apply keeps_read].
  apply keeps_bind; [by apply keeps_read|]. intros s. apply keeps_bind; [by apply keeps_updp|]. intros _.
  case_decide; [apply keeps_wakeup1, runnable_wake|by apply keeps_read].
Qed.

Lemma wakeup_parent par s : slot par (waiting par) s -> wlp (wakeup1 (Some (ChProc par))) s (fun _ s' => slot par runnable s').
Proof.
  intros (p & Hp & HP). unfold wlp, wakeup1, modify. exists (wake (Some (ChProc par)) p). simpl.
  rewrite list_lookup_fmap, Hp. split; [done|]. unfold runnable, wake.
  destruct HP as [[H1 H2]|H1]; [by rewrite !decide_True|]. by rewrite decide_False by congruence.
Qed.

(** The part of exit that releases files and directory. *)
Lemma keeps_exit_close me p par (b : bool) :
  keeps par (waiting par)
    (if b then ret tt
     else mfor (seq 0 NOFILE) close_fd ;; let! c := of_option "null inode" (p_cwd p) in kfs (iput c) ;; updp me (set_p_cwd None)).
Proof.
  destruct b; [by apply keeps_read|]. apply keeps_bind; [apply keeps_mfor, keeps_close_fd|]. intros _.
  apply keeps_bind; [apply keeps_opt|]. intros c. apply keeps_bind; [apply keeps_kfl, waiting_wake|]. intros _.
  by apply keeps_updp.
Qed.

Lemma exit_wakes ts s me p par :
  cur s = Some me -> procs s !! me = Some p -> p_parent p = Some par -> par <> me -> slot par (waiting par) s ->
  wlp (exit ;; switch_back ts) s (fun _ s' => slot par runnable s').
Proof.
  intros Hc Hp Hpar Hne Hw. apply wlp_bind. unfold exit. apply wlp_cp. intros me' Hc'. simplify_eq.
  apply wlp_getp. intros p' Hp'. simplify_eq. apply wlp_bind, wlp_of_option. intros par' Hpar'. simplify_eq.
  apply wlp_getp. intros pp _. apply wlp_bind. set (s0 := set_ttltcts (s32 (ttltcts s - p_tctcnt p)) s).
  change (wlp (modify _) s ?Q) with (Q tt s0). cbv beta. apply wlp_bind. change (wlp get s0 ?Q) with (Q s0 s0). cbv beta.
  case_decide; [done|]. apply wlp_bind. eapply wlp_mono; [apply keeps_exit_close; exact Hw|]. intros [] s1 H1.
  apply wlp_bind. eapply wlp_mono; [by apply wakeup_parent|]. intros [] s2 H2.
  apply wlp_bind. eapply wlp_mono; [apply keeps_mfor; [apply keeps_abandon|done]|]. intros [] s3 H3.
  eapply wlp_mono; [apply keeps_updp_ne; [|exact H3]; congruence|]. intros [] s4 H4.
  unfold switch_back. apply keeps_cp; [|exact H4]. intros i.
  apply keeps_bind; [by apply keeps_read|]. intros x. apply keeps_bind; [by apply keeps_updp|]. intros _.
  apply keeps_bind; [by apply keeps_read|]. intros _. by apply keeps_read.
Qed.

Lemma find_zombie_complete me k kids l i p :
  l !! i = Some p -> p_state p = ZOMBIE -> p_parent p = Some me -> exists j b, find_zombie me k kids l = (Some j, b).
Proof.
  revert k kids i. induction l as [|q l IH]; intros k kids [|i] Hi Hz Hpar; try done; simpl in *.
  - injection Hi as ->. rewrite decide_False by congruence. rewrite !decide_True by done. eauto.
  - repeat case_decide; eauto.
Qed.

(** reap returns the pid and frees the slot, if the pages can be freed. *)
Lemma reap_result me i p s :
  procs s !! i = Some p -> wlp (reap me i) s (fun r s' => r = p_pid p /\ slot i (fun q => p_state q = UNUSED) s').
Proof.
  intros Hi. unfold reap. apply wlp_getp. intros c _. apply wlp_getp. intros p' Hp'. simplify_eq.
  assert (Hk : forall m : M kst unit, keeps i (fun _ => True) m -> forall (k : unit -> M kst Z) Q,
    (forall s', slot i (fun _ => True) s' -> wlp (k tt) s' Q) -> wlp (bind m k) s Q).
  { intros m Hm k Q HQ. apply wlp_bind. eapply wlp_mono; [apply Hm; by eexists|]. intros [] s' H'. by apply HQ. }
  apply Hk; [case_match; [by apply keeps_read|by apply keeps_kfl]|]. clear Hk. intros s1 H1.
  apply wlp_bind. eapply wlp_mono; [by apply (keeps_kfl i (fun _ => True)); [|exact H1]|]. cbv beta. intros [] s2 (q & Hq & _).
  unfold wlp, bind. rewrite (updp_ret _ _ _ _ Hq). split; [done|]. eexists. simpl.
  rewrite list_lookup_insert_eq by (by eapply lookup_lt_Some). done.
Qed.

(** The zombie exit leaves. *)
Lemma zombie_left s s1 me p par :
  procs s !! me = Some p -> p_parent p = Some par -> par <> me -> abs s1 = exited me (key p) (abs s) ->
  exists z, procs s1 !! me = Some z /\ p_state z = ZOMBIE /\ p_parent z = Some par.
Proof.
  intros Hp Hpar Hne Habs. assert (H : entries (abs s1) !! me = Some (set_life Dead (key p))).
  { rewrite Habs. unfold exited. cbn [entries]. rewrite list_lookup_alter_eq, list_lookup_fmap, (abs_lookup _ _ _ Hp).
    unfold reparent. simpl. rewrite decide_False by congruence. done. }
  simpl in H. rewrite list_lookup_fmap in H. destruct (procs s1 !! me) as [z|]; [|done].
  injection H as H1 H2 H3 H4. exists z. split; [done|]. split; [|congruence]. by destruct (p_state z).
Qed.


(** The first process waits for its child, which runs. *)
Definition wait_kst : kst := final (sys_wait forked_kst).
Definition idle_kst : kst := final (switch_back 0 wait_kst).
Definition child_kst : kst := final (switch_to 0 1 idle_kst).
Definition gone_kst : kst := final ((exit ;; switch_back 0) child_kst).

Lemma demo_wait : sys_wait forked_kst = Sleep (ChProc 0) wait_kst.
Proof.
  unfold wait_kst. assert (H : match sys_wait forked_kst with Sleep c _ => c = ChProc 0 | _ => False end) by (vm_compute; reflexivity).
  destruct (sys_wait forked_kst); try done. by subst.
Qed.
Lemma demo_back : switch_back 0 wait_kst = Ret tt idle_kst.
Proof. unfold idle_kst. apply ret_final. vm_compute. reflexivity. Qed.
Lemma demo_child : switch_to 0 1 idle_kst = Ret tt child_kst.
Proof. unfold child_kst. apply ret_final. vm_compute. reflexivity. Qed.
Lemma demo_child_runnable : exists p, procs idle_kst !! 1%nat = Some p /\ p_state p = RUNNABLE.
Proof. vm_compute. eauto. Qed.

Lemma child_ok : table_ok (abs child_kst).
Proof.
  destruct demo_child_runnable as (p & Hp & Hr).
  apply (kstep_ok 0 idle_kst); [|exact (K_switch 0 idle_kst 1 p child_kst Hp Hr demo_child)].
  apply (kstep_ok 0 wait_kst); [|exact (K_switch_back 0 wait_kst idle_kst demo_back)].
  apply (kstep_ok 0 forked_kst); [|exact (K_wait_sleep 0 forked_kst _ wait_kst demo_wait)].
  apply (ksteps_ok 0 first_kst); [exact first_ok|exact demo_steps].
Qed.


(** ** Where the table goes wrong

    A fork that fails for lack of memory frees the slot but keeps its 100
    tickets in the total: the draws above the tickets in the table have no
    winner. *)
Definition starved_kst : kst := set_k_fl (set_pages [] (k_fl running_kst)) running_kst.
Lemma failed_fork_leaks_tickets :
  match sys_fork starved_kst with
  | Ret r s' => r = -1 /\ tickets (procs s') = 100 /\ ttltcts s' = 200 /\ lottery_pick 150 0 0 (procs s') = None
  | _ => False
  end.
Proof. vm_compute. done. Qed.

(** kill looks through unused slots, whose pid is 0: kill(0) succeeds and the
    next process created in the slot is born killed. *)
Lemma kill_zero_marks_unused_slot :
  match (kill 0 ;; sys_fork) running_kst with
  | Ret pid s' => pid = 2 /\ (p_killed <$> procs s' !! 1%nat) = Some 1
  | _ => False
  end.
Proof. vm_compute. done. Qed.

(** copyproc leaves a descriptor of the slot's previous user where the parent
    has none; exit of a thread does not clear its descriptors. *)
Lemma stale_descriptor_inherited f s : dup_ofiles [None] [Some f] s = Ret [Some f] s.
Proof. done. Qed.
