(* ===== verification/Main.v ===== *)
(** * main.c: the state the kernel starts in

    main on the kernel's own data, from zeroed memory: the calls that only
    set locks and devices are elsewhere (Irq, Spinlock), the rest in order.
    The state it leaves satisfies the invariant of every component. *)

From S2P Require Import Prelude CString Kalloc Layout Ide Bio Cache Fs FsInode FsRead FsPath Pipe File FileRefs Mmu Spinlock Proc ProcTable ProcInv.


(** The data segment as main finds it, with the memory [m] and the disk [d]. *)
Definition zero_inode : inode := Inode 0 0 0 0 0 0 0 0 0 [].
Definition zero_file : file := File FD_CLOSED 0 0 0 0 None 0.
Definition bss_kst (m : mem) (d : image) : kst :=
  Kst (FlSt (FsSt (Bst (replicate NBUF zero_buf) [] (Hist d []) true [] None None 3 false [] Null Null (MemTrans [] true 0) 0)
                  (replicate NINODE zero_inode)) (replicate NFILE zero_file) ∅ [])
      m (replicate NPROC unused_proc) None 1 0 None 0 [] 0.

(** binit, kinit and userinit; [end_] is the address where the kernel ends. *)
Definition main_kernel (end_ : Z) (initcode : list Z) : M kst unit :=
  kfs (bio (modify (binit NBUF))) ;;
  kpages (kinit end_) ;;
  userinit initcode.

(** ** Running a component with no wakeups outstanding *)

Lemma deliver_none t s : Bio.wakes (fb (f_fs t)) = [] -> deliver t s = set_k_fl t s.
Proof.
  destruct t as [[b ic] fl pp pg], b, s. simpl. intros ->. done.
Qed.

Lemma kpages_ret {A} (m : M freelist A) s a l :
  Bio.wakes (fb (f_fs (k_fl s))) = [] -> m (pages (k_fl s)) = Ret a l -> kpages m s = Ret a (set_k_fl (set_pages l (k_fl s)) s).
Proof.
  intros Hw E. unfold kpages, kfl, alloc, zoom. rewrite E. rewrite deliver_none; [done|]. destruct s as [[[? ?] ? ? ?] ? ? ? ? ? ? ? ? ?]. exact Hw.
Qed.

Lemma kfs_ret {A} (m : M fs_st A) s a t :
  m (f_fs (k_fl s)) = Ret a t -> Bio.wakes (fb t) = [] -> kfs m s = Ret a (set_k_fl (set_ffs t (k_fl s)) s).
Proof. intros E Hw. unfold kfs, kfl, fs, zoom. rewrite E. by rewrite deliver_none. Qed.

(** The first page above the kernel. *)
Definition first_page (end_ : Z) : Z := Z.land (u32 (end_ + PAGE)) (Z.lnot (PAGE - 1)).

Lemma first_page_nonneg end_ : 0 <= first_page end_.
Proof. apply Z.land_nonneg. left. unfold u32, u32_mod. apply Z.mod_pos_bound. lia. Qed.

(** The inode cache with the root directory in its first slot. *)
Definition root_icache : list inode := Inode ROOTDEV 1 1 0 0 0 0 0 0 [] :: replicate 49 zero_inode.

Lemma namei_root b : namei 0 [slash] (FsSt b (replicate NINODE zero_inode)) = Ret (Some 0%nat) (FsSt b root_icache).
Proof. reflexivity. Qed.

(** The process userinit sets up, with its stack [k] and memory [m]. *)
Definition first_proc (k m : Z) : proc :=
  Proc m PAGE k RUNNABLE 1 None None 0 (replicate NOFILE None) (Some 0%nat) (init_tf PAGE)
       [105; 110; 105; 116; 99; 111; 100; 101] 100 0 empty_ct.

(** The kernel after main. *)
Definition booted_kst (end_ : Z) (initcode : list Z) (m : mem) (d : image) : kst :=
  let a := first_page end_ in
  Kst (FlSt (FsSt (boot NBUF d) root_icache) (replicate NFILE zero_file) ∅ [Run a (254 * PAGE)])
      (store_bytes (a + 254 * PAGE) initcode (store32 (a + 254 * PAGE + (PAGE - 4)) 4025479151 m))
      (first_proc (a + 255 * PAGE) (a + 254 * PAGE) :: replicate 63 unused_proc) (Some 0%nat) 2 100 None 0 [] 0.

Lemma main_kernel_ret end_ initcode m d : main_kernel end_ initcode (bss_kst m d) = Ret tt (booted_kst end_ initcode m d).
Proof.
  pose proof (first_page_nonneg end_) as Ha. unfold main_kernel.
  set (b := boot NBUF d). set (s1 := Kst (FlSt (FsSt b (replicate NINODE zero_inode)) (replicate NFILE zero_file) ∅ []) m (replicate NPROC unused_proc) None 1 0 None 0 [] 0).
  rewrite (bind_ret _ _ _ tt s1) by (apply (kfs_ret _ (bss_kst m d) tt (FsSt b (replicate NINODE zero_inode))); done).
  set (s2 := set_k_fl (set_pages [Run (first_page end_) (256 * PAGE)] (k_fl s1)) s1).
  rewrite (bind_ret _ _ _ tt s2) by (by apply kpages_ret).
  set (a := first_page end_) in *. set (q := unused_proc). set (rest := replicate 63 q).
  (* copyproc *)
  set (q1 := set_p_ct empty_ct (set_p_tctcnt 100 (set_p_pid 1 (set_p_state EMBRYO q)))).
  set (st := fun pg mm pr nx tt ip => Kst (FlSt (FsSt b (replicate NINODE zero_inode)) (replicate NFILE zero_file) ∅ pg) mm (pr :: rest) ip nx tt None 0 [] 0).
  assert (E1 : allocproc s2 = Ret (Some 0%nat) (st [Run a (256 * PAGE)] m q1 2 100 None)) by reflexivity.
  set (q2 := set_p_kstack (a + 255 * PAGE) q1). set (q3 := set_p_tf (set_eax 0 (p_tf q2)) q2).
  assert (E2 : copyproc None s2 = Ret (Some 0%nat) (st [Run a (255 * PAGE)] m q3 2 100 None)).
  { unfold copyproc. rewrite (bind_ret _ _ _ _ _ E1). cbv iota.
    rewrite (bind_ret _ _ _ _ _ (kpages_ret (kalloc KSTACKSIZE) (st [Run a (256 * PAGE)] m q1 2 100 None) (a + 255 * PAGE) [Run a (255 * PAGE)] eq_refl eq_refl)).
    rewrite (bind_ret _ _ _ tt (st [Run a (255 * PAGE)] m q2 2 100 None)) by reflexivity.
    destruct (Z.eqb_spec (a + 255 * PAGE) 0); [unfold PAGE in *; lia|]. reflexivity. }
  unfold userinit. rewrite (bind_ret _ _ _ _ _ E2).
  rewrite (bind_ret _ _ _ 0%nat (st [Run a (255 * PAGE)] m q3 2 100 None)) by reflexivity.
  rewrite (bind_ret _ _ _ _ _ (kpages_ret (kalloc PAGE) (st [Run a (255 * PAGE)] m q3 2 100 None) (a + 254 * PAGE) [Run a (254 * PAGE)] eq_refl eq_refl)).
  rewrite (bind_ret _ _ _ _ _ (kfs_ret (namei 0 [slash]) (st [Run a (254 * PAGE)] m q3 2 100 None) (Some 0%nat) (FsSt b root_icache) (namei_root b) eq_refl)). reflexivity.
Qed.

Lemma root_quiet d : FsPath.quiet None (FsSt (boot NBUF d) root_icache).
Proof.
  assert (Hl : forall i ip, root_icache !! i = Some ip -> i = 0%nat /\ ip = Inode ROOTDEV 1 1 0 0 0 0 0 0 [] \/ i_ref ip = 0).
  { intros [|i] ip; cbn [root_icache lookup list_lookup]; [by intros [= <-]; left|]. intros [-> _]%lookup_replicate. by right. }
  split; cbn [fb icache].
  - apply calm_boot. unfold NBUF. lia.
  - split; [|intros i ip Hi; destruct (Hl i ip Hi) as [[_ ->]|E]; [done|lia]].
    intros i j ip jp dv m Hi Hj (Ri & _)%names_spec (Rj & _)%names_spec.
    destruct (Hl i ip Hi) as [[-> _]|E]; [|lia]. destruct (Hl j jp Hj) as [[-> _]|E]; [done|lia].
  - intros i ip Hi Hr. destruct (Hl i ip Hi) as [[-> ->]|E]; [done|lia].
  - intros i ip Hi Hr. destruct (Hl i ip Hi) as [[-> ->]|E]; [done|lia].
  - intros i ip Hi Hr. destruct (Hl i ip Hi) as [[-> ->]|E]; [done|lia].
Qed.


