(* ===== verification/Exec.v ===== *)
(** * exec.c: loading a program

    exec as it runs on the current process: the size of the image from the
    program headers and the arguments, the segments read into fresh memory,
    the argument strings and pointers on the new stack, and the switch to the
    new image. *)

From S2P Require Import Prelude CString Kalloc Layout Ide Bio Fs Pipe File Mmu Spinlock Proc Syscall.

Definition ELF_MAGIC : Z := 1179403647.
Definition ELF_PROG_LOAD : Z := 1.
Definition ELFHDR_SIZE : Z := 52.
Definition PROGHDR_SIZE : Z := 32.

(** The fields of [struct elfhdr] and [struct proghdr] exec uses. *)
Record elfhdr : Type := Elfhdr { elf_magic : Z; elf_entry : Z; elf_phoff : Z; elf_phnum : Z }.
Record proghdr : Type := Proghdr { ph_type : Z; ph_offset : Z; ph_va : Z; ph_filesz : Z; ph_memsz : Z }.
Definition decode_elf (l : list Z) : elfhdr := Elfhdr (get_u32 0 l) (get_u32 24 l) (get_u32 28 l) (get_u16 44 l).
Definition decode_ph (l : list Z) : proghdr :=
  Proghdr (get_u32 0 l) (get_u32 4 l) (get_u32 8 l) (get_u32 16 l) (get_u32 20 l).

(** ** Arguments *)

(** [arglen += strlen(argv[argc]) + 1] over the arguments. *)
Definition args_total (args : list (list Z)) : Z := foldr (fun a n => Z.of_nat (length a) + 1 + n) 0 args.
Definition arglen (args : list (list Z)) : Z := Z.land (args_total args + 3) (Z.lnot 3).

(** [for(i=argc-1; i>=0; i--)]: the arguments last first, [i] the index of
    the first of them; the memory and [sp]. *)
Fixpoint copy_args (mem argp : Z) (rargs : list (list Z)) (sp : Z) (m : CString.mem) : CString.mem * Z :=
  match rargs with
  | [] => (m, sp)
  | a :: r =>
      let i := Z.of_nat (length r) in
      let sp := u32 (sp - (Z.of_nat (length a) + 1)) in
      let m := store_bytes (mem + sp) (a ++ [0]) m in
      let m := store32 (mem + argp + 4 * i) sp m in
      copy_args mem argp r sp m
  end.

(** The stack of main(argc, argv): the memory and the stack pointer. *)
Definition push_args (mem sz : Z) (args : list (list Z)) (m : CString.mem) : CString.mem * Z :=
  let argc := Z.of_nat (length args) in
  let argp := u32 (sz - arglen args - 4 * (argc + 1)) in
  let m := store32 (mem + argp + 4 * argc) 0 m in
  let m := fst (copy_args mem argp (rev args) sz m) in
  let sp := u32 (argp - 4) in
  let m := store32 (mem + sp) argp m in
  let sp := u32 (sp - 4) in
  let m := store32 (mem + sp) argc m in
  let sp := u32 (sp - 4) in
  (store32 (mem + sp) 4294967295 m, sp).

(** ** The program's segments *)

Section devices.
Context (devsw_read : Z -> option (nat -> Z -> M fs_st (Z * list Z))).
Context (ts : Z).

(** The first pass over [n] headers from [off]: the size, or a failure. *)
Fixpoint size_pass (n : nat) (ip : nat) (off sz : Z) : M fs_st (option Z) :=
  match n with
  | O => ret (Some sz)
  | S n =>
      let! r := readi devsw_read ip (u32 off) PROGHDR_SIZE in
      if negb (fst r =? PROGHDR_SIZE) then ret None
      else
        let ph := decode_ph (snd r) in
        if negb (ph_type ph =? ELF_PROG_LOAD) then size_pass n ip (off + PROGHDR_SIZE) sz
        else if ph_memsz ph <? ph_filesz ph then ret None
        else size_pass n ip (off + PROGHDR_SIZE) (u32 (sz + ph_memsz ph))
  end.

(** The second pass: each segment read to [mem + va], the rest of it zeroed. *)
Fixpoint load_pass (n : nat) (ip : nat) (off mem sz : Z) : M kst bool :=
  match n with
  | O => ret true
  | S n =>
      let! r := kfs (readi devsw_read ip (u32 off) PROGHDR_SIZE) in
      if negb (fst r =? PROGHDR_SIZE) then ret false
      else
        let ph := decode_ph (snd r) in
        if negb (ph_type ph =? ELF_PROG_LOAD) then load_pass n ip (off + PROGHDR_SIZE) mem sz
        else if sz <? u32 (ph_va ph + ph_memsz ph) then ret false
        else
          let! d := kfs (readi devsw_read ip (ph_offset ph) (ph_filesz ph)) in
          modmem (store_bytes (mem + ph_va ph) (snd d)) ;;
          if negb (u32 (fst d) =? ph_filesz ph) then ret false
          else
            modmem (memset (mem + ph_va ph + ph_filesz ph) 0 (u32 (ph_memsz ph - ph_filesz ph))) ;;
            load_pass n ip (off + PROGHDR_SIZE) mem sz
  end.

(** The last component of the path, cut to the name's 15 bytes. *)
Fixpoint last_name (path last : list Z) : list Z :=
  match path with
  | [] => last
  | c :: path => last_name path (if c =? slash then path else last)
  end.

(** Everything after the arguments are copied. *)
Definition commit_image (path : list Z) (mem sz sp entry : Z) : M kst Z :=
  let! p := cproc in
  updcp (set_p_name (take 15 (last_name path path))) ;;
  kpages (kfree (p_mem p) (s32 (p_sz p))) ;;
  updcp (fun p => set_p_tf (set_esp sp (set_eip entry (p_tf p))) (set_p_sz sz (set_p_mem mem p))) ;;
  let! p := cproc in
  setupsegs ts (Some p) ;;
  ret 0.

Definition bad (ip : nat) (mem sz : Z) : M kst Z :=
  (if ctrue mem then kpages (kfree mem (s32 sz)) else ret tt) ;;
  kfs (iunlockput ip) ;;
  ret (-1).

(** [readi(..) < sizeof(elf)] compares as unsigned: a read that fails with -1
    goes on with a header that was never read. *)
Definition exec (path : list Z) (argv : list (list Z)) : M kst Z :=
  let! ip := k_namei path in
  match ip with
  | None => ret (-1)
  | Some ip =>
      kfs (ilock ip) ;;
      let! r := kfs (readi devsw_read ip 0 ELFHDR_SIZE) in
      if u32 (fst r) <? ELFHDR_SIZE then bad ip 0 0
      else if fst r <? 0 then undef "uninitialised ELF header"
      else
        let elf := decode_elf (snd r) in
        if negb (elf_magic elf =? ELF_MAGIC) then bad ip 0 0
        else
          let! sz := kfs (size_pass (Z.to_nat (elf_phnum elf)) ip (elf_phoff elf) 0) in
          match sz with
          | None => bad ip 0 0
          | Some sz =>
              let sz := u32 (sz + arglen argv + 4 * (Z.of_nat (length argv) + 1)) in
              let sz := u32 (sz + PAGE) in
              let sz := Z.land (u32 (sz + PAGE - 1)) (u32 (Z.lnot (PAGE - 1))) in
              let! mem := kpages (kalloc (s32 sz)) in
              if mem =? 0 then bad ip 0 sz
              else
                modmem (memset mem 0 sz) ;;
                let! ok := load_pass (Z.to_nat (elf_phnum elf)) ip (elf_phoff elf) mem sz in
                if negb ok then bad ip mem sz
                else
                  kfs (iunlockput ip) ;;
                  let! s := get in
                  let '(m, sp) := push_args mem sz argv (kmem s) in
                  modmem (fun _ => m) ;;
                  commit_image path mem sz sp (elf_entry elf)
          end
  end.
End devices.

(** ** What main finds on its stack *)


(** The string [a] with its NUL lies at [p]. *)
Definition string_at (m : mem) (p : Z) (a : list Z) : Prop :=
  forall k c, (a ++ [0]) !! k = Some c -> m (p + Z.of_nat k) = c.

Lemma string_at_ext m m' p a : string_at m p a -> (forall x, p <= x < p + Z.of_nat (length a) + 1 -> m' x = m x) -> string_at m' p a.
Proof.
  intros Hs He k c Hk. pose proof (lookup_lt_Some _ _ _ Hk) as Hl. rewrite length_app in Hl. simpl in Hl.
  rewrite He by lia. by apply Hs.
Qed.

Lemma args_total_nonneg l : 0 <= args_total l.
Proof. induction l; simpl; lia. Qed.

Lemma args_total_rev l : args_total (rev l) = args_total l.
Proof.
  assert (Happ : forall a b, args_total (a ++ b) = args_total a + args_total b) by (induction a; intros; simpl; rewrite ?IHa; lia).
  induction l as [|a l IH]; simpl; [done|]. rewrite Happ, IH. simpl. lia.
Qed.

Lemma copy_args_spec base argp rargs sp m :
  0 <= argp -> argp + 4 * Z.of_nat (length rargs) <= sp - args_total rargs -> sp < u32_mod ->
  let '(m', sp') := copy_args base argp rargs sp m in
  sp' = sp - args_total rargs /\
  (forall x, x < base + argp \/ base + argp + 4 * Z.of_nat (length rargs) <= x < base + sp' \/ base + sp <= x -> m' x = m x) /\
  forall j a, rev rargs !! j = Some a ->
    exists p, load32 m' (base + argp + 4 * Z.of_nat j) = p /\ sp' <= p /\ p + Z.of_nat (length a) + 1 <= sp /\
      string_at m' (base + p) a.
Proof.
  intros Hargp. revert sp m. induction rargs as [|a r IH]; intros sp m Hroom Hsp; cbn [copy_args].
  - simpl. split; [lia|]. split; [done|]. by intros j a.
  - simpl in Hroom. set (i := Z.of_nat (length r)). pose proof (args_total_nonneg r).
    rewrite u32_small by lia. set (sp1 := sp - (Z.of_nat (length a) + 1)).
    set (m1 := store_bytes (base + sp1) (a ++ [0]) m). set (m2 := store32 (base + argp + 4 * i) sp1 m1).
    specialize (IH sp1 m2 ltac:(lia) ltac:(lia)). destruct (copy_args base argp r sp1 m2) as [m' sp'].
    destruct IH as (Hsp' & Hout & Hin). assert (Hla : Z.of_nat (length (a ++ [0])) = Z.of_nat (length a) + 1)
      by (rewrite length_app; simpl; lia). simpl.
    assert (Hm2 : forall x, x < base + argp \/ base + argp + 4 * (i + 1) <= x < base + sp1 \/ base + sp <= x -> m2 x = m x).
    { intros x Hx. unfold m2. rewrite store32_out by lia. unfold m1. apply store_bytes_out. lia. }
    split; [lia|]. split; [intros x Hx; rewrite Hout by lia; apply Hm2; lia|].
    intros j b Hj. destruct (decide (j < length (rev r))%nat) as [Hlt|Hge].
    + rewrite lookup_app_l in Hj by done. destruct (Hin j b Hj) as (p & Hp & H1 & H2 & Hs). exists p. split_and!; [done|lia|lia|done].
    + rewrite lookup_app_r in Hj by lia. rewrite length_rev in *.
      assert (j = length r) as -> by (apply lookup_lt_Some in Hj as Hj'; simpl in Hj'; lia).
      rewrite Nat.sub_diag in Hj. injection Hj as <-. exists sp1. fold i. split_and!; [|lia|lia|].
      * rewrite (load32_ext m2) by (intros x Hx; apply Hout; lia). unfold m2. apply load32_store32. lia.
      * eapply (string_at_ext m2); [|intros x Hx; apply Hout; lia].
        intros k c Hk. pose proof (lookup_lt_Some _ _ _ Hk). unfold m2. rewrite store32_out by lia. by apply store_bytes_in.
Qed.

Lemma arglen_bounds args : args_total args <= arglen args <= args_total args + 3.
Proof.
  assert (Hl : arglen args = (args_total args + 3) / 4 * 4).
  { unfold arglen. change (Z.lnot 3) with (Z.lnot (Z.ones 2)). rewrite <-Z.ldiff_land, Z.ldiff_ones_r by lia.
    by rewrite Z.shiftr_div_pow2, Z.shiftl_mul_pow2 by lia. }
  pose proof (Z.div_mod (args_total args + 3) 4 ltac:(lia)). pose proof (Z.mod_pos_bound (args_total args + 3) 4 ltac:(lia)). lia.
Qed.

(** C31: main gets its arguments.  For an image of [sz] bytes at [base] with
    room for them, the stack exec builds holds a return address, argc and
    argv; argv[i] points into the image at the [i]th argument, NUL-terminated,
    argv[argc] is null, and nothing outside the image is written. *)
Theorem exec_stack (base sz : Z) (args : list (list Z)) (m : mem) :
  0 <= sz < u32_mod -> arglen args + 4 * (Z.of_nat (length args) + 1) + 12 <= sz ->
  let '(m', sp) := push_args base sz args m in
  let argc := Z.of_nat (length args) in
  let argp := load32 m' (base + sp + 8) in
  0 <= sp /\ load32 m' (base + sp) = 4294967295 /\ load32 m' (base + sp + 4) = argc /\ argp = sp + 12 /\
  (forall i a, args !! i = Some a -> exists p, load32 m' (base + argp + 4 * Z.of_nat i) = p /\
     argp + 4 * (argc + 1) <= p /\ p + Z.of_nat (length a) + 1 <= sz /\ string_at m' (base + p) a) /\
  load32 m' (base + argp + 4 * argc) = 0 /\
  (forall x, x < base + sp \/ base + sz <= x -> m' x = m x).
Proof.
  intros Hsz Hroom. unfold push_args. pose proof (arglen_bounds args). pose proof (args_total_nonneg args).
  set (argc := Z.of_nat (length args)) in *. assert (Hargc : 0 <= argc) by lia.
  rewrite (u32_small (sz - arglen args - 4 * (argc + 1))) by lia. set (argp := sz - arglen args - 4 * (argc + 1)).
  set (m0 := store32 (base + argp + 4 * argc) 0 m).
  pose proof (copy_args_spec base argp (rev args) sz m0 ltac:(lia)) as Hc. rewrite length_rev, args_total_rev in Hc. fold argc in Hc.
  specialize (Hc ltac:(lia) ltac:(lia)). destruct (copy_args base argp (rev args) sz m0) as [m1 sp']. cbn [fst].
  destruct Hc as (Hsp' & Hout & Hin). rewrite rev_involutive in Hin.
  rewrite (u32_small (argp - 4)) by lia. rewrite (u32_small (argp - 4 - 4)) by lia. rewrite (u32_small (argp - 4 - 4 - 4)) by lia.
  set (m2 := store32 (base + (argp - 4)) argp m1). set (m3 := store32 (base + (argp - 4 - 4)) argc m2).
  set (m4 := store32 (base + (argp - 4 - 4 - 4)) 4294967295 m3). set (sp := argp - 4 - 4 - 4).
  assert (Hm4 : forall x, base + argp <= x -> m4 x = m1 x).
  { intros x Hx. unfold m4, m3, m2. by rewrite !store32_out by lia. }
  assert (Hargp : load32 m4 (base + sp + 8) = argp).
  { replace (base + sp + 8) with (base + (argp - 4)) by (unfold sp; lia).
    rewrite (load32_ext m2) by (intros x Hx; unfold m4, m3; by rewrite !store32_out by lia). apply load32_store32. lia. }
  cbv zeta. rewrite Hargp. split_and!.
  - unfold sp. lia.
  - unfold m4, sp. apply load32_store32. unfold u32_mod. lia.
  - replace (base + sp + 4) with (base + (argp - 4 - 4)) by (unfold sp; lia).
    rewrite (load32_ext m3) by (intros x Hx; unfold m4; by rewrite store32_out by lia). apply load32_store32. lia.
  - unfold sp. lia.
  - intros i a Hi. destruct (Hin i a Hi) as (p & Hp & H1 & H2 & Hs). exists p. split_and!; [|lia|lia|].
    + rewrite (load32_ext m1); [done|]. intros x Hx. apply Hm4. lia.
    + eapply string_at_ext; [exact Hs|]. intros x Hx. apply Hm4. lia.
  - rewrite (load32_ext m0).
    + unfold m0. apply load32_store32. unfold u32_mod. lia.
    + intros x Hx. rewrite Hm4 by lia. apply Hout. lia.
  - intros x Hx. unfold m4, m3, m2. rewrite !store32_out by (unfold sp in Hx; lia). rewrite Hout by (unfold sp in Hx; lia).
    unfold m0. apply store32_out. unfold sp in Hx. lia.
Qed.

Lemma exec_stack_witness :
  let '(m', sp) := push_args 65536 8192 [[108; 115]; [45; 108]] (fun _ => 0) in
  load32 m' (65536 + sp + 4) = 2 /\
  exists p, load32 m' (65536 + load32 m' (65536 + sp + 8) + 4 * Z.of_nat 1) = p /\ string_at m' (65536 + p) [45; 108].
Proof.
  pose proof (exec_stack 65536 8192 [[108; 115]; [45; 108]] (fun _ => 0) ltac:(done) ltac:(done)) as H.
  destruct (push_args 65536 8192 [[108; 115]; [45; 108]] (fun _ => 0)) as [m' sp]. cbv zeta in H.
  destruct H as (_ & _ & Hargc & _ & Hargs & _). split; [exact Hargc|].
  destruct (Hargs 1%nat [45; 108] eq_refl) as (p & Hp & _ & _ & Hs). exists p. split; [exact Hp|exact Hs].
Defined.
