(* ===== verification/Sysfile.v ===== *)
(** * sysfile.c: system calls on files

    Each call on the current process, its descriptors being indices of the
    file table.  Where a call ends its transaction, it ends it here. *)

From S2P Require Import Prelude CString Kalloc Layout Ide Bio Fs Pipe File Mmu Spinlock Proc Syscall Exec.

Definition O_RDONLY : Z := 0.
Definition O_WRONLY : Z := 1.
Definition O_RDWR : Z := 2.
Definition O_CREATE : Z := 512.

Definition commit : M kst unit := kfs (bio end_trans).
Definition fail : M kst Z := commit ;; ret (-1).

(** The descriptor and the file it stands for. *)
Definition argfd (n : Z) : M kst (option (Z * nat)) :=
  let! fd := argint n in
  match fd with
  | None => ret None
  | Some fd =>
      let! p := cproc in
      if (fd <? 0) || (Z.of_nat NOFILE <=? fd) then ret None
      else match p_ofile p !! Z.to_nat fd with
           | Some (Some f) => ret (Some (fd, f))
           | _ => ret None
           end
  end.

Fixpoint find_free_fd (i : nat) (l : list (option nat)) : option nat :=
  match l with
  | [] => None
  | None :: _ => Some i
  | Some _ :: l => find_free_fd (S i) l
  end.

Definition set_fd (fd : nat) (o : option nat) : M kst unit :=
  updcp (fun p => set_p_ofile (<[fd := o]> (p_ofile p)) p).

Definition fdalloc (f : nat) : M kst (option nat) :=
  let! p := cproc in
  match find_free_fd 0 (p_ofile p) with
  | Some fd => set_fd fd (Some f) ;; ret (Some fd)
  | None => ret None
  end.

Section devices.
Context (devsw_read : Z -> option (nat -> Z -> M fs_st (Z * list Z))).
Context (devsw_write : Z -> option (nat -> list Z -> M fs_st Z)).

(** The arguments of read and write: the file, the count and the buffer. *)
Definition rw_args : M kst (option (nat * Z * Z)) :=
  let! f := argfd 0 in
  match f with
  | None => ret None
  | Some (_, f) =>
      let! n := argint 2 in
      match n with
      | None => ret None
      | Some n =>
          let! p := argptr 1 n in
          match p with None => ret None | Some p => ret (Some (f, n, p)) end
      end
  end.

Definition sys_read : M kst Z :=
  let! a := rw_args in
  match a with
  | None => ret (-1)
  | Some (f, n, p) =>
      let! c := cproc in
      let! r := kfl (fileread devsw_read (ctrue (p_killed c)) f n) in
      modmem (store_bytes p (snd r)) ;;
      ret (fst r)
  end.

Definition sys_write : M kst Z :=
  let! a := rw_args in
  match a with
  | None => ret (-1)
  | Some (f, n, p) =>
      let! c := cproc in
      let! s := get in
      let! rv := kfl (filewrite devsw_write (ctrue (p_killed c)) f (fun k => kmem s (p + k)) n) in
      commit ;;
      ret rv
  end.

Definition sys_check : M kst Z :=
  let! f := argfd 0 in
  match f with
  | None => ret (-1)
  | Some (_, f) =>
      let! off := argint 1 in
      match off with None => ret (-1) | Some off => kfl (filecheck f off) end
  end.

Definition sys_fsync : M kst unit := kfs (bio jfull_flush).

Definition sys_dup : M kst Z :=
  let! f := argfd 0 in
  match f with
  | None => ret (-1)
  | Some (_, f) =>
      let! fd := fdalloc f in
      match fd with
      | None => fail
      | Some fd => kfl (filedup f) ;; commit ;; ret (Z.of_nat fd)
      end
  end.

Definition sys_close : M kst Z :=
  let! f := argfd 0 in
  match f with
  | None => ret (-1)
  | Some (fd, f) => set_fd (Z.to_nat fd) None ;; kfl (fileclose f) ;; commit ;; ret 0
  end.

(** [struct stat] in memory. *)
Definition encode_stat (st : stat) : list Z :=
  le_bytes 4 (st_dev st) ++ le_bytes 4 (st_ino st) ++ le_bytes 2 (st_type st) ++ le_bytes 2 (st_nlink st) ++
  le_bytes 4 (st_size st).

Definition sys_fstat : M kst Z :=
  let! f := argfd 0 in
  match f with
  | None => ret (-1)
  | Some (_, f) =>
      let! p := argptr 1 16 in
      match p with
      | None => ret (-1)
      | Some p =>
          let! r := kfl (filestat f) in
          match r with
          | Some st => modmem (store_bytes p (encode_stat st)) ;; ret 0
          | None => ret (-1)
          end
      end
  end.

(** The failure path of sys_link once the count has been raised. *)
Definition link_bad (dp : option nat) (ip : nat) : M kst Z :=
  (match dp with Some dp => kfs (iunlockput dp) | None => ret tt end) ;;
  kfs (ilock ip) ;;
  kfs (updi ip (fun x => set_nlink (s16 (i_nlink x - 1)) x)) ;;
  kfs (iupdate ip) ;;
  kfs (iunlockput ip) ;;
  fail.

Definition sys_link : M kst Z :=
  let! old := argpath 0 in
  match old with
  | None => ret (-1)
  | Some old =>
      let! new := argpath 1 in
      match new with
      | None => ret (-1)
      | Some new =>
          let! ip := k_namei old in
          match ip with
          | None => fail
          | Some ip =>
              kfs (ilock ip) ;;
              let! x := kfs (geti ip) in
              if i_type x =? T_DIR then kfs (iunlockput ip) ;; fail
              else
                kfs (updi ip (fun x => set_nlink (s16 (i_nlink x + 1)) x)) ;;
                kfs (iupdate ip) ;;
                kfs (iunlock ip) ;;
                let! dp := k_nameiparent new in
                match dp with
                | None => link_bad None ip
                | Some (dp, name) =>
                    kfs (ilock dp) ;;
                    let! d := kfs (geti dp) in
                    let! x := kfs (geti ip) in
                    if negb (i_dev d =? i_dev x) then link_bad (Some dp) ip
                    else
                      let! r := kfs (dirlink devsw_read devsw_write dp name (i_inum x)) in
                      if r <? 0 then link_bad (Some dp) ip
                      else kfs (iunlockput dp) ;; kfs (iput ip) ;; commit ;; ret 0
                end
          end
      end
  end.

(** Entries from [off] on; true when all are unused. *)
Fixpoint isdirempty_loop (fuel : nat) (dp : nat) (off : Z) : M fs_st bool :=
  let! ip := geti dp in
  if off <? i_size ip then
    match fuel with
    | O => fun s => Spin s
    | S fuel =>
        let! r := readi devsw_read dp off DIRENT_SIZE in
        if negb (fst r =? DIRENT_SIZE) then panic "isdirempty: readi"
        else if negb (get_u16 0 (snd r) =? 0) then ret false
        else isdirempty_loop fuel dp (off + DIRENT_SIZE)
    end
  else ret true.
Definition isdirempty (dp : nat) : M fs_st bool :=
  let! ip := geti dp in isdirempty_loop (Z.to_nat (i_size ip / DIRENT_SIZE + 1)) dp (2 * DIRENT_SIZE).

Definition dot : list Z := [46].
Definition dotdot : list Z := [46; 46].

Definition sys_unlink : M kst Z :=
  let! path := argpath 0 in
  match path with
  | None => ret (-1)
  | Some path =>
      let! dp := k_nameiparent path in
      match dp with
      | None => fail
      | Some (dp, name) =>
          kfs (ilock dp) ;;
          if (namecmp name dot =? 0) || (namecmp name dotdot =? 0) then kfs (iunlockput dp) ;; fail
          else
            let! r := kfs (dirlookup dp name) in
            match r with
            | None => kfs (iunlockput dp) ;; fail
            | Some (ip, off) =>
                kfs (ilock ip) ;;
                let! x := kfs (geti ip) in
                if i_nlink x <? 1 then panic "unlink: nlink < 1"
                else
                  let! full := (if i_type x =? T_DIR then let! e := kfs (isdirempty ip) in ret (negb e) else ret false) in
                  if full : bool then kfs (iunlockput ip) ;; kfs (iunlockput dp) ;; fail
                  else
                    let! w := kfs (writei devsw_write dp (replicate 16 0) off) in
                    if negb (w =? DIRENT_SIZE) then panic "unlink: writei"
                    else
                      kfs (iunlockput dp) ;;
                      kfs (updi ip (fun x => set_nlink (s16 (i_nlink x - 1)) x)) ;;
                      kfs (iupdate ip) ;;
                      kfs (iunlockput ip) ;;
                      commit ;;
                      ret 0
            end
      end
  end.

(** The inode create finds or makes, locked. *)
Definition create (path : list Z) (canexist : bool) (type major minor : Z) : M kst (option nat) :=
  let! dp := k_nameiparent path in
  match dp with
  | None => ret None
  | Some (dp, name) =>
      kfs (ilock dp) ;;
      let! found := (if canexist then kfs (dirlookup dp name) else ret None) in
      match found with
      | Some (ip, _) =>
          kfs (iunlockput dp) ;;
          kfs (ilock ip) ;;
          let! x := kfs (geti ip) in
          if negb (i_type x =? type) || negb (i_major x =? major) || negb (i_minor x =? minor)
          then kfs (iunlockput ip) ;; ret None
          else ret (Some ip)
      | None =>
          let! d := kfs (geti dp) in
          let! ip := kfs (icreate (i_dev d) type major minor 1) in
          kfs (ilock ip) ;;
          kfs (updi ip (fun x => set_nlink 1 (set_mm major minor x))) ;;
          kfs (iupdate ip) ;;
          let! x := kfs (geti ip) in
          let! r := kfs (dirlink devsw_read devsw_write dp name (i_inum x)) in
          if r <? 0 then
            kfs (updi ip (set_nlink 0)) ;; kfs (iunlockput ip) ;; kfs (iunlockput dp) ;; ret None
          else
            (if type =? T_DIR then
               kfs (updi dp (fun x => set_nlink (s16 (i_nlink x + 1)) x)) ;;
               kfs (iupdate dp) ;;
               let! r := kfs (dirlink devsw_read devsw_write ip dot (i_inum x)) in
               if r <? 0 then panic "create dots"
               else
                 let! r := kfs (dirlink devsw_read devsw_write ip dotdot (i_inum d)) in
                 if r <? 0 then panic "create dots" else ret tt
             else ret tt) ;;
            kfs (iunlockput dp) ;;
            commit ;;
            kfs (bio jfull_flush) ;;
            ret (Some ip)
      end
  end.

(** The inode sys_open works on, locked. *)
Definition open_inode (path : list Z) (omode : Z) : M kst (option nat) :=
  if ctrue (Z.land omode O_CREATE) then create path true T_FILE 0 0
  else
    let! ip := k_namei path in
    match ip with
    | None => ret None
    | Some ip =>
        kfs (ilock ip) ;;
        let! x := kfs (geti ip) in
        if (i_type x =? T_DIR) && ctrue (Z.land omode (Z.lor O_RDWR O_WRONLY))
        then kfs (iunlockput ip) ;; ret None
        else ret (Some ip)
    end.

Definition sys_open : M kst Z :=
  let! path := argpath 0 in
  match path with
  | None => ret (-1)
  | Some path =>
      let! omode := argint 1 in
      match omode with
      | None => ret (-1)
      | Some omode =>
          let! ip := open_inode path omode in
          match ip with
          | None => fail
          | Some ip =>
              let! f := kfl filealloc in
              match f with
              | None => kfs (iunlockput ip) ;; fail
              | Some f =>
                  let! fd := fdalloc f in
                  match fd with
                  | None => kfl (fileclose f) ;; kfs (iunlockput ip) ;; fail
                  | Some fd =>
                      kfs (iunlock ip) ;;
                      kfl (updf f (fun x => File FD_INODE (f_ref x)
                             (cbool (negb (ctrue (Z.land omode O_WRONLY))))
                             (cbool (ctrue (Z.land omode O_WRONLY) || ctrue (Z.land omode O_RDWR)))
                             (f_pipe x) (Some ip) 0)) ;;
                      commit ;;
                      ret (Z.of_nat fd)
                  end
              end
          end
      end
  end.

Definition sys_mknod : M kst Z :=
  let! path := argpath 0 in
  match path with
  | None => fail
  | Some path =>
      let! major := argint 1 in
      match major with
      | None => fail
      | Some major =>
          let! minor := argint 2 in
          match minor with
          | None => fail
          | Some minor =>
              let! ip := create path false T_DEV (s16 major) (s16 minor) in
              match ip with
              | None => fail
              | Some ip => kfs (iput ip) ;; commit ;; ret 0
              end
          end
      end
  end.

Definition sys_mkdir : M kst Z :=
  let! path := argpath 0 in
  match path with
  | None => fail
  | Some path =>
      let! ip := create path false T_DIR 0 0 in
      match ip with
      | None => fail
      | Some ip => commit ;; kfs (iunlockput ip) ;; ret 0
      end
  end.

Definition sys_chdir : M kst Z :=
  let! path := argpath 0 in
  match path with
  | None => fail
  | Some path =>
      let! ip := k_namei path in
      match ip with
      | None => fail
      | Some ip =>
          kfs (ilock ip) ;;
          let! x := kfs (geti ip) in
          if negb (i_type x =? T_DIR) then commit ;; kfs (iunlockput ip) ;; ret (-1)
          else
            kfs (iunlock ip) ;;
            let! d := cwd in
            kfs (iput d) ;;
            updcp (set_p_cwd (Some ip)) ;;
            commit ;;
            ret 0
      end
  end.

(** The argument strings of exec: at most 20 pointers up to a null one. *)
Fixpoint exec_args (n : nat) (i uargv : Z) : M kst (option (list (list Z))) :=
  match n with
  | O => ret None
  | S n =>
      let! p := cproc in
      let! s := get in
      match fetchint (kmem s) p (u32 (uargv + 4 * i)) with
      | None => ret None
      | Some uarg =>
          if uarg =? 0 then ret (Some [])
          else match fetchstr (kmem s) p (u32 uarg) with
               | None => ret None
               | Some (a, len) =>
                   let! r := exec_args n (i + 1) uargv in
                   ret ((fun l => bytes_at (kmem s) a (Z.to_nat len) :: l) <$> r)
               end
      end
  end.
Definition NELEM_argv : nat := 20.

(** [ts]: the address of the processor's task state. *)
Definition sys_exec (ts : Z) : M kst Z :=
  let! path := argpath 0 in
  match path with
  | None => ret (-1)
  | Some path =>
      let! uargv := argint 1 in
      match uargv with
      | None => ret (-1)
      | Some uargv =>
          let! argv := exec_args NELEM_argv 0 (u32 uargv) in
          match argv with None => ret (-1) | Some argv => exec devsw_read ts path argv end
      end
  end.

Definition sys_pipe (data : list Z) : M kst Z :=
  let! a := argptr 0 8 in
  match a with
  | None => ret (-1)
  | Some a =>
      let! r := kfl (pipealloc data) in
      match r with
      | None => fail
      | Some (rf, wf) =>
          let! fd0 := fdalloc rf in
          match fd0 with
          | None => kfl (fileclose rf) ;; kfl (fileclose wf) ;; fail
          | Some fd0 =>
              let! fd1 := fdalloc wf in
              match fd1 with
              | None => set_fd fd0 None ;; kfl (fileclose rf) ;; kfl (fileclose wf) ;; fail
              | Some fd1 =>
                  modmem (store32 a (Z.of_nat fd0)) ;;
                  modmem (store32 (a + 4) (Z.of_nat fd1)) ;;
                  commit ;;
                  ret 0
              end
          end
      end
  end.
End devices.

Definition sys_set_write_panic : M kst unit :=
  let! v := argint 0 in
  match v with
  | None => ret tt
  | Some v => kfs (bio (modify (fun s => Bst (bufs s) (lru s) (bdisk s) (present s) (Bio.wakes s) (jsblock_buf s)
      (jtrans_header_buf s) (jtail_bnum s) (trans_write_lock s) (mtns s) (mtn_head s) (mtn_tail s) (ct s) v)))
  end.

(** [fresh]: whether the node recovery allocates first is zeroed. *)
Definition sys_pbjFSck (fresh : bool) : M kst unit := kfs (bio (pbjFSck fresh ROOTDEV)).
