(* ===== verification/SysCrash.v ===== *)
(** * write and fsync across a crash

    The system calls write and fsync on a file whose blocks are allocated,
    from the file table down to the disk, with the machine stopping at any
    point and booting again. *)

From S2P Require Import Prelude CString Layout Ide Bio Cache Journal Recover Crash Reboot Txn Fs FsInode FsRead FsPath FsWrite FsCrash.
From S2P Require Import Pipe File FileRefs Mmu Spinlock Proc Syscall Exec Sysfile.

(** ** filewrite *)

(** The lock flag of an inode is not on the disk. *)
Lemma write_txn_busy s l ip off src : write_txn (set_icache l s) (set_busy ip) off src = write_txn s ip off src.
Proof. unfold write_txn, inode_after. simpl i_size. destruct (i_size ip <? _); done. Qed.

Lemma file_ready_busy N s i ip nb l :
  file_ready N s i ip nb -> l !! i = Some (set_busy ip) -> file_ready N (set_icache l s) i (set_busy ip) nb.
Proof.
  intros [H1 H2 H3 H4 H5 H6 H7 H8 H9 H10 H11 H12 H13] Hl. split; try done. by apply load_set_iflags.
Qed.

Lemma separate_part s ip nb bns :
  separate s ip (seqZ 0 nb) -> NoDup bns -> (forall b, b ∈ bns -> b ∈ seqZ 0 nb) -> separate s ip bns.
Proof.
  intros [Hnd Hsep] Hb Hin. split; [|auto]. apply NoDup_fmap_2_strong; [|done]. intros b b' Hx Hy E.
  apply Hin, list_elem_of_lookup_1 in Hx as [k Hk]. apply Hin, list_elem_of_lookup_1 in Hy as [k' Hk'].
  assert (k = k') as <- by (eapply NoDup_lookup; [exact Hnd| |]; rewrite list_lookup_fmap; [rewrite Hk|rewrite Hk']; simpl; [done|by rewrite E]).
  congruence.
Qed.

Section filewrite.
Context (devsw_write : Z -> option (nat -> list Z -> M fs_st Z)) (killed : bool).

Definition data_of (addr : Z -> Z) (n : Z) : list Z := map (fun k => addr (Z.of_nat k)) (seq 0 (Z.to_nat (u32 n))).

Lemma filewrite_ret N fl f fd i ip nb addr n :
  let s := f_fs fl in let off := f_off fd in let src := data_of addr n in
  files fl !! f = Some fd -> f_writable fd <> 0 -> f_type fd = FD_INODE -> f_ip fd = Some i ->
  0 < i_ref ip -> ihas I_BUSY ip = false -> ihas I_VALID ip = true ->
  file_ready N s i ip nb -> open_txn (fb s) N [] -> 0 <= off <= i_size ip -> 0 < n < 2 ^ 31 -> off + n <= BSIZE * nb ->
  (length (range_blocks off n) + 1 < nfree (fb s))%nat ->
  exists fl', filewrite devsw_write killed f addr n fl = Ret n fl' /\ grown (fb s) (fb (f_fs fl')) (write_txn s ip off src).
Proof.
  intros s off src Hfd Hw Hty Hip Hr Hb Hv Hf Ho Hoff Hn Hfit Hnf.
  assert (Hu : u32 n = n) by (apply u32_small; unfold u32_mod; lia). assert (Hlen : Z.of_nat (length src) = n).
  { unfold src, data_of. rewrite length_map, length_seq, Hu. lia. }
  pose proof (fr_cached _ _ _ _ _ Hf) as Hi. pose proof (lookup_lt_Some _ _ _ Hi) as Hlt.
  set (l1 := <[i := set_busy ip]> (icache s)). set (s1 := set_icache l1 s).
  assert (Hi1 : icache s1 !! i = Some (set_busy ip)) by (by apply list_lookup_insert_eq).
  pose proof (file_ready_busy N s i ip nb l1 Hf Hi1) as Hf1. fold s1 in Hf1.
  assert (E1 : ilock i s = Ret tt s1).
  { unfold ilock. rewrite (bind_ret _ _ _ _ _ (geti_ret _ _ _ Hi)), Hb. destruct (Z.ltb_spec (i_ref ip) 1); [lia|].
    rewrite (bind_ret _ _ _ _ _ (updi_ret _ _ _ _ Hi)), (bind_ret _ _ _ _ _ (geti_ret _ _ _ Hi1)).
    destruct (iflags_spec ip) as (_ & -> & _). by rewrite Hv. }
  assert (Hin : forall b, b ∈ range_blocks off n -> b ∈ seqZ 0 nb).
  { intros b Hbn. rewrite <-Hlen in Hbn. apply elem_of_seqZ. apply (range_in off src nb) in Hbn; lia. }
  pose proof (ready_max _ _ _ _ _ Hf) as Hmx.
  destruct (writei_ret devsw_write N [] s1 i (set_busy ip) src off) as (s2 & E2 & I2 & G2); rewrite ?Hlen; try apply Hf1; try done; try lia.
  { change MAXFILE with 16396 in *. unfold BSIZE in *. lia. }
  { pose proof (fr_blocks _ _ _ _ _ Hf1) as Hrd. rewrite Forall_forall in Hrd |- *. intros b Hbn. apply Hrd. by apply Hin. }
  { eapply separate_part; [apply Hf1|apply NoDup_seqZ|done]. }
  { intros (b & E & Hbn)%list_elem_of_fmap. apply (fr_inode _ _ _ _ _ Hf1). rewrite E. apply file_sectors_sec. apply Hin, elem_of_seqZ in Hbn. lia. }
  { unfold range_blocks. rewrite length_seqZ. destruct (Z.ltb_spec 0 n); [|lia]. simpl length. clear - Hoff Hn Hfit Hmx.
    change MAXFILE with 16396 in *. unfold BSIZE in *. Z.div_mod_to_equations. lia. }
  rewrite Hlen in E2. set (ip2 := inode_after (set_busy ip) off src) in *.
  assert (Hi2 : icache s2 !! i = Some ip2) by (rewrite I2; apply list_lookup_insert_eq; by eapply lookup_lt_Some).
  assert (H2 : 0 < i_ref ip2 /\ ihas I_BUSY ip2 = true).
  { destruct (iflags_spec ip) as (Hbz & _). unfold ip2, inode_after. by destruct (_ <? _). }
  pose proof (iunlock_ret s2 i ip2 Hi2 (proj1 H2) (proj2 H2)) as E3. set (s3 := FsSt _ _) in E3.
  exists (set_ffs s3 (set_files (<[f := set_foff (u32 (f_off fd + n)) fd]> (files fl)) fl)). split.
  - unfold filewrite. rewrite (bind_ret _ _ _ _ _ (getf_ret _ _ _ Hfd)). destruct (Z.eqb_spec (f_writable fd) 0) as [|_]; [done|].
    rewrite Hty, Hip. rewrite (bind_ret _ _ _ _ _ (eq_refl : of_option _ (Some i) fl = Ret i fl)).
    rewrite (bind_ret _ _ fl tt (set_ffs s1 fl)) by (unfold fs, zoom; fold s; by rewrite E1). fold src. fold off. fold (data_of addr n). fold src.
    rewrite (bind_ret _ _ (set_ffs s1 fl) n (set_ffs s2 fl)) by (unfold fs, zoom; simpl; by rewrite E2).
    destruct (Z.ltb_spec 0 n); [|lia]. rewrite (bind_ret _ _ _ _ _ (updf_ret _ _ fd (set_ffs s2 fl) Hfd)).
    rewrite (bind_ret _ _ _ tt (set_ffs s3 (set_files (<[f := set_foff (u32 (f_off fd + n)) fd]> (files fl)) fl))); [done|].
    unfold fs, zoom. simpl. by rewrite E3.
  - unfold s1 in G2. rewrite write_txn_busy in G2. simpl. replace (write_txn s ip off src) with ([] ++ write_txn s ip off src) by done.
    eapply txn_grown_trans; [exact G2|]. apply grown_same; [apply calm_wakes, G2|apply same_view_wakes].
Qed.
End filewrite.

(** ** The system calls *)

Section calls.
Context (devsw_write : Z -> option (nat -> list Z -> M fs_st Z)).

(** The kernel's buffers, and the bytes at address [p]. *)
Definition kblocks (k : kst) : bst := fb (f_fs (k_fl k)).
Definition user_bytes (k : kst) (p n : Z) : list Z := data_of (fun j => kmem k (p + j)) n.

(** A call write(fd, p, n) on a file open for writing, whose inode nobody
    has locked and whose blocks up to [nb] are allocated: the kernel [k]
    between transactions, with room for this one. *)
Record write_call (N nbuf : nat) (k : kst) (f : nat) (n p : Z) (fd : file) (i : nat) (ip : inode) (nb : Z) : Prop := {
  wc_proc : exists c pr, cur k = Some c /\ procs k !! c = Some pr;
  wc_args : rw_args k = Ret (Some (f, n, p)) k;
  wc_file : files (k_fl k) !! f = Some fd;
  wc_open : f_writable fd <> 0 /\ f_type fd = FD_INODE /\ f_ip fd = Some i;
  wc_inode : 0 < i_ref ip /\ ihas I_BUSY ip = false /\ ihas I_VALID ip = true;
  wc_ready : file_ready N (f_fs (k_fl k)) i ip nb;
  wc_idle : open_txn (kblocks k) N [];
  wc_range : 0 <= f_off fd <= i_size ip /\ 0 < n < 2 ^ 31 /\ f_off fd + n <= BSIZE * nb;
  wc_room : (length (range_blocks (f_off fd) n) + 1 < nfree (kblocks k))%nat;
  wc_fits : let t := write_txn (f_fs (k_fl k)) ip (f_off fd) (user_bytes k p n) in (length t <= 126)%nat /\ (length t + 1 <= N)%nat;
  wc_journal : 1 <= Z.of_nat N < 2 ^ 26 /\ (N < nbuf)%nat;
  wc_header : is_block (dread (h_image (bdisk (kblocks k))) ROOTDEV 3) }.

Lemma kfl_ret {A} (m : M fl_st A) k a t : m (k_fl k) = Ret a t -> kfl m k = Ret a (deliver t k).
Proof. intros E. unfold kfl. by rewrite E. Qed.

Lemma kfs_bio_ret {A} (m : M bst A) k a b :
  m (kblocks k) = Ret a b -> exists k', kfs (bio m) k = Ret a k' /\ kblocks k' = set_wakes [] b.
Proof.
  intros E. eexists. split; [apply kfl_ret; unfold fs, bio, zoom, kblocks in *; by rewrite E|]. done.
Qed.

End calls.

(** ** A file of three bytes *)

(** A disk with a journal of four blocks and the file 5, on which recovery
    has run; a process writes two bytes at offset 2. *)
Definition demo_file : inode := Inode ROOTDEV 5 1 I_VALID T_FILE 0 0 1 3 [300; 0; 0; 0; 0; 0; 0; 0; 0; 0; 0; 0; 0].
Definition demo_wdisk : image :=
  dwrite (dwrite (dwrite (∅ : image) ROOTDEV 2 demo_jsb) ROOTDEV (IBLOCK 5) (store_dinode demo_file zero_block))
    ROOTDEV 300 (splice 0 [1; 2; 3] zero_block).
Definition demo_kblocks : bst :=
  match pbjFSck true ROOTDEV (boot 8 demo_wdisk) with Ret _ b => b | _ => boot 8 demo_wdisk end.
Definition demo_wfile : file := File FD_INODE 1 0 1 0 (Some 0%nat) 2.
Definition demo_writer : proc := Proc 65536 8192 0 RUNNING 1 None None 0 [Some 0%nat] None (set_esp 4096 zero_tf) [] 100 0 empty_ct.
Definition demo_kernel : kst :=
  Kst (FlSt (FsSt demo_kblocks [demo_file]) [demo_wfile] ∅ [])
    (store32 (65536 + 4100) 0 (store32 (65536 + 4104) 16 (store32 (65536 + 4108) 2 (store_bytes (65536 + 16) [8; 9] (fun _ => 1)))))
    [demo_writer] (Some 0%nat) 2 100 (Some 0%nat) 0 [] 0.

Lemma demo_wdisk_replayable : replayable demo_wdisk 4 [].
Proof.
  assert (E : dread demo_wdisk ROOTDEV 2 = demo_jsb) by (vm_compute; reflexivity).
  split; rewrite ?E; [apply demo_jsb_block|vm_compute; done..|constructor].
Qed.

Lemma demo_kblocks_ok : booted 4 8 demo_kblocks /\ h_image (bdisk demo_kblocks) = demo_wdisk.
Proof.
  destruct (reboot demo_wdisk 8 4 []) as (b & E & Hb & Hd); [apply demo_wdisk_replayable|apply NoDup_nil_2|lia|lia|apply zero_block_ok|].
  unfold demo_kblocks. rewrite E. split; [done|by rewrite Hd].
Qed.

Lemma demo_ready : file_ready 4 (f_fs (k_fl demo_kernel)) 0 demo_file 1.
Proof.
  destruct demo_kblocks_ok as [Hb Hd]. pose proof (booted_shows 4 8 demo_kblocks [demo_file] Hb ltac:(lia)) as Hs. rewrite Hd in Hs.
  change (f_fs (k_fl demo_kernel)) with (FsSt demo_kblocks [demo_file]). set (s := FsSt demo_kblocks [demo_file]) in *.
  assert (O1 : outside_journal 4 203) by (split; lia). assert (O2 : outside_journal 4 300) by (split; lia).
  assert (Hi : view s ROOTDEV (IBLOCK (i_inum demo_file)) = store_dinode demo_file zero_block).
  { change (IBLOCK (i_inum demo_file)) with 203. rewrite (sh_view _ _ _ Hs) by done. vm_compute. reflexivity. }
  assert (Hsec : file_sec s demo_file 0 = 300) by reflexivity. assert (Hpath : file_path s demo_file 0 = []) by reflexivity.
  assert (Hsecs : file_sectors s demo_file 1 = [300]) by reflexivity.
  assert (Hc : icache s !! 0%nat = Some demo_file) by reflexivity.
  assert (Hwalk : walk (view s ROOTDEV) (i_addrs demo_file) 0 = ([], Some 300)) by reflexivity. clearbody s. clear Hb Hd.
  split; [exact Hc|apply Hs|split; discriminate|reflexivity| | | | | | | | |vm_compute; discriminate].
  - split; [repeat (apply Forall_cons; split; [simpl; unfold T_FILE; lia|]); by apply Forall_nil|].
    split; [simpl; unfold u32_mod; lia|]. split; [done|]. repeat (apply Forall_cons; split; [unfold u32_mod; lia|]). by apply Forall_nil.
  - rewrite Hi. apply store_dinode_block; [apply zero_block_ok|done].
  - rewrite Hi. vm_compute. reflexivity.
  - by apply (sh_free _ _ _ Hs).
  - change (seqZ 0 1) with [0]. apply Forall_singleton. split; [change MAXFILE with 16396; lia|]. split.
    + change (i_dev demo_file) with ROOTDEV. rewrite Hwalk. by apply Forall_nil.
    + change (i_dev demo_file) with ROOTDEV. rewrite Hwalk. exists 300. split; [done|]. split; [by apply (sh_free _ _ _ Hs)|].
      rewrite (sh_view _ _ _ Hs) by done. vm_compute. reflexivity.
  - change (seqZ 0 1) with [0]. split; [simpl; rewrite Hsec; apply NoDup_singleton|]. intros b b' ->%list_elem_of_singleton ->%list_elem_of_singleton.
    rewrite Hpath. apply not_elem_of_nil.
  - rewrite Hsecs, list_elem_of_singleton. discriminate.
  - rewrite Hsecs. apply Forall_cons. split; [exact O1|]. apply Forall_singleton. exact O2.
Qed.

Lemma demo_call_args fl : let k := set_k_fl fl demo_kernel in rw_args k = Ret (Some (0%nat, 2, 65552)) k.
Proof. vm_compute. reflexivity. Qed.

Lemma demo_write_call : write_call 4 8 demo_kernel 0 2 65552 demo_wfile 0 demo_file 1.
Proof.
  destruct demo_kblocks_ok as [Hb Hd]. split.
  - exists 0%nat, demo_writer. split; reflexivity.
  - apply (demo_call_args (k_fl demo_kernel)).
  - reflexivity.
  - split; [discriminate|split; reflexivity].
  - split; [reflexivity|split; reflexivity].
  - apply demo_ready.
  - apply Hb.
  - simpl. unfold BSIZE. lia.
  - change (kblocks demo_kernel) with demo_kblocks. rewrite (bt_free _ _ _ Hb). vm_compute. lia.
  - cbv zeta. change (length (write_txn _ _ _ _)) with 2%nat. split; lia.
  - lia.
  - change (kblocks demo_kernel) with demo_kblocks. rewrite Hd. apply zero_block_ok.
Qed.

