(* ===== verification/SysCreate.v ===== *)
(** * Creating a file across a crash

    create, as open with O_CREATE and mknod call it, from the path to the
    disk: the inode and the directory entry it makes, with the machine
    stopping at any point and booting again. *)

From S2P Require Import Prelude CString Layout Ide Bio Cache Journal Recover Crash Reboot Txn Commit History.
From S2P Require Import Fs FsInode FsNames FsRead FsPath FsWrite FsCrash FsAlloc FsCreate.
From S2P Require Import Pipe File FileRefs Mmu Proc Syscall Exec Sysfile SysCrash.

(** ** File system calls on behalf of a process *)

Definition kf (k : kst) : fs_st := f_fs (k_fl k).

Lemma kfs_step {A} (m : M fs_st A) k a s' :
  m (kf k) = Ret a s' -> calm (fb s') -> exists k', kfs m k = Ret a k' /\ fs_same s' (kf k').
Proof.
  intros E Hc. eexists. split; [apply kfl_ret; unfold fs, zoom, kf in *; by rewrite E|].
  split; [by apply calm_wakes|apply same_view_wakes|done].
Qed.

Lemma flushes_after N t0 t s s1 s2 : flushes N t0 t s s1 -> fs_same s1 s2 -> flushes N t0 t s s2.
Proof.
  intros [F1 F2 F3 F4 F5 F6 F7] Hs. pose proof (fs_view _ _ Hs) as V. pose proof (sv_disk _ _ V) as D.
  split; [apply Hs|by eapply open_txn_same| | |by rewrite (sv_nfree _ _ V)|by rewrite D|by rewrite D].
  - intros x Hx. rewrite (view_same s1 s2) by done. by apply F3.
  - intros x Hx Hh%(sv_held _ _ V). by apply F4.
Qed.

Lemma grown_after N s s1 s2 t : grown (fb s) (fb s1) t -> fs_same s1 s2 -> open_txn (fb s) N [] -> grown (fb s) (fb s2) t /\ open_txn (fb s2) N t.
Proof.
  intros G Hs Ho. assert (G2 : grown (fb s) (fb s2) t).
  { apply (txn_grown_trans (fb s) (fb s1) (fb s2) t []); [done|]. apply grown_same; apply Hs. }
  split; [done|]. pose proof (gr_open _ _ _ G2 N [] Ho) as H. by rewrite app_nil_r in H.
Qed.

Lemma refcount_zero dv m l : icache_ok l -> refcount dv m l = 0 -> forall j jp, l !! j = Some jp -> names dv m jp = false.
Proof.
  intros [_ Hnn]. assert (Hpos : forall l, (forall i ip, l !! i = Some ip -> 0 <= i_ref ip) -> 0 <= refcount dv m l /\
    (refcount dv m l = 0 -> forall j jp, l !! j = Some jp -> names dv m jp = false)).
  2:{ apply Hpos. intros i ip. apply Hnn. }
  clear. induction l as [|x l IH]; intros Hnn; [done|]. destruct IH as [H1 H2]; [intros i ip; apply (Hnn (S i))|].
  pose proof (Hnn 0%nat x eq_refl) as Hx. change (refcount dv m (x :: l)) with (share dv m x + refcount dv m l). unfold share.
  destruct (names dv m x) eqn:E.
  - apply names_spec in E as (E & _). split; lia.
  - split; [lia|]. intros H0 [|j] jp Hj; [by injection Hj as <-|]. apply (H2 ltac:(lia) j jp Hj).
Qed.

Lemma release_ret s i ip :
  icache s !! i = Some ip -> 0 < i_ref ip -> ihas I_BUSY ip = true -> i_nlink ip <> 0 -> calm (fb s) ->
  exists s', iunlockput i s = Ret tt s' /\ icache s' = <[i := set_ref (i_ref ip - 1) (clear_ibusy ip)]> (icache s) /\ calm (fb s') /\ same_view (fb s) (fb s').
Proof.
  intros Hi Hr Hb Hl Hc. unfold iunlockput. rewrite (bind_ret _ _ _ _ _ (iunlock_ret _ _ _ Hi Hr Hb)).
  erewrite iput_ret; [|simpl; apply list_lookup_insert_eq; by eapply lookup_lt_Some|by left].
  eexists. split; [done|]. split; [apply list_insert_insert_eq|]. split; [by apply calm_wakes|apply same_view_wakes].
Qed.

Lemma entry_node s d ip name : is_node d ip -> entry s ip name = entry s d name.
Proof.
  intros (Fd & _ & _ & _ & Fs & Fa)%node_fields. destruct (entry_ext s s d ip name) as [He Hf]; [done..|]. unfold entry. rewrite Hf.
  destruct (dir_find s d name _) as [[bn k]|]; [by rewrite He|done].
Qed.

(** ** The calls create makes *)

Section create.
Context (devsw_read : Z -> option (nat -> Z -> M fs_st (Z * list Z))) (devsw_write : Z -> option (nat -> list Z -> M fs_st Z)).

(** A call create(path, 1, ...) of a kernel between transactions: the path's
    directory is [dinum], in which [name] is not, entry [e] is the first
    unused one, and [inum] the first unused inode. *)
Record create_call (N nf : nat) (k : kst) (path name : list Z) (ps : list (list Z)) (dinum inum : Z) (e : nat) : Prop := {
  cc_path : exists c pr cwd cinum, cur k = Some c /\ procs k !! c = Some pr /\ p_cwd pr = Some cwd /\ at_slot (kf k) cwd cinum /\
    walkable (kf k) (start_inum cinum path) (elems path) /\ resolve (kf k) (start_inum cinum path) ps = Some dinum;
  cc_elems : elems path = ps ++ [name];
  cc_quiet : quiet None (kf k);
  cc_rest : at_rest N nf (kblocks k);
  cc_bufs : (3 <= nf)%nat;
  cc_slots : (2 <= nidle (icache (kf k)))%nat;
  cc_journal : (3 <= N)%nat /\ Z.of_nat N < 2 ^ 26;
  cc_dir : i_nlink (dnode (kf k) dinum) <> 0;
  cc_apart : apart N (kf k) dinum inum e;
  cc_absent : entry (kf k) (dnode (kf k) dinum) name = None;
  cc_inodes : inum < sb_ninodes (fs_sb (kf k));
  cc_uncached : refcount ROOTDEV inum (icache (kf k)) = 0;
  cc_free : dinode_type inum (view (kf k) ROOTDEV (IBLOCK inum)) = 0;
  cc_used j : 1 <= j < inum -> outside_journal N (IBLOCK j) /\ dinode_type j (view (kf k) ROOTDEV (IBLOCK j)) <> 0 }.

Section steps.
Context (N nf : nat) (k : kst) (path name : list Z) (ps : list (list Z)) (dinum inum : Z) (e : nat).
Hypothesis Hcc : create_call N nf k path name ps dinum inum e.
Local Abbreviation s0 := (kf k).
Local Abbreviation d := (dnode s0 dinum).

(** The directory found and locked, and the name not found in it. *)
Record at_dir (dp : nat) (dpi : inode) (s : fs_st) : Prop := {
  ad_same : same_view (fb s0) (fb s);
  ad_quiet : quiet (Some dp) s;
  ad_locked : locked s dp dinum dpi;
  ad_idle : (1 <= nidle (icache s))%nat;
  ad_refs dv m : refcount dv m (icache s) = refcount dv m (icache s0) + one_ref dinum dv m }.

Lemma at_dir_same dp dpi s s' : at_dir dp dpi s -> fs_same s s' -> at_dir dp dpi s'.
Proof using Type.
  intros [H1 H2 H3 H4 H5] Hs. pose proof (fs_icache _ _ Hs) as I. split; rewrite ?I; try done.
  - eapply same_view_trans; [done|apply Hs].
  - by eapply quiet_same.
  - by eapply locked_same.
Qed.

Lemma searchable_node s s' ip : is_node d ip -> searchable s d -> same_view (fb s) (fb s') -> calm (fb s') -> searchable s' ip.
Proof using Type.
  intros -> [H1 H2 H3 H4] Hv Hc. split; [done|done|done|]. intros b Hb.
  assert (Hs : fs_same s (FsSt (fb s') (icache s))) by (by split). exact (readable_same _ _ _ _ Hs (H4 b Hb)).
Qed.

Lemma create_parent :
  exists dp dpi k1 k2 k3, k_nameiparent path k = Ret (Some (dp, name)) k1 /\ kfs (ilock dp) k1 = Ret tt k2 /\
    kfs (dirlookup dp name) k2 = Ret None k3 /\ at_dir dp dpi (kf k2) /\ at_dir dp dpi (kf k3).
Proof using Hcc.
  destruct Hcc as [(c & pr & cwd & cinum & Hcur & Hpr & Hcwd & Hat & Hw & Hres) Hel Hq Hrest Hbf Hsl [HN HNb] Hl Hap Habs Hin Hun Hfr Hus].
  pose proof (ap_dir _ _ _ _ _ Hap) as Hse.
  destruct (nameiparent_ret s0 cwd cinum path ps name dinum Hq Hat Hsl Hw Hel Hres (se_type _ _ Hse)) as (dp & s1 & E1 & Q1 & V1 & A1 & C1 & N1).
  destruct (kfs_step (nameiparent cwd path) k _ s1 E1 (q_calm _ _ Q1)) as (k1 & K1 & S1).
  pose proof (quiet_same _ _ _ Q1 S1) as Q1'. pose proof (same_view_trans _ _ _ V1 (fs_view _ _ S1)) as V1'. pose proof (fs_icache _ _ S1) as I1.
  assert (A1' : at_slot (kf k1) dp dinum) by (unfold at_slot; by rewrite I1).
  pose proof (ap_outside _ _ _ _ _ Hap) as Ho. apply Forall_cons in Ho as [Ho _].
  destruct (ilock_ret (kf k1) dp dinum Q1' A1') as (s2 & ip & ip1 & E2 & Hi & I2 & R2 & Q2 & V2 & L2).
  { intros Hh%(sv_held _ _ V1'). by apply (ar_unheld _ _ _ Hrest (IBLOCK dinum)). }
  { rewrite (dnode_same s0) by done. by rewrite (se_type _ _ Hse). }
  destruct (kfs_step (ilock dp) k1 tt s2 E2 (q_calm _ _ Q2)) as (k2 & K2 & S2).
  pose proof (same_view_trans _ _ _ V1' V2) as V2'. pose proof (same_view_trans _ _ _ V2' (fs_view _ _ S2)) as V2''.
  pose proof (locked_same _ _ _ _ _ L2 S2) as L2'. pose proof (quiet_same _ _ _ Q2 S2) as Q2'.
  assert (Hnode : is_node d ip1) by (rewrite <-(dnode_same s0 (kf k2)) by done; apply L2').
  assert (Hse2 : searchable (kf k2) ip1) by (by apply (searchable_node s0); [| | |apply Q2']).
  destruct (dirlookup_read (kf k2) dp ip1 name (lk_slot _ _ _ _ L2') (q_calm _ _ Q2') (se_type _ _ Hse2) (proj1 (se_size _ _ Hse2)) (se_readable _ _ Hse2)) as (s3 & S3 & E3).
  destruct (node_fields _ _ Hnode) as (Fd & Fi & Ft & Fl & Fs & Fa).
  destruct (entry_ext s0 (kf k2) d ip1 name) as [_ Ef]; [intros; apply V2''|done|done|done|]. unfold entry in Habs. rewrite Ef in E3.
  destruct (dir_find s0 d name _) as [[??]|]; [done|]. destruct (kfs_step (dirlookup dp name) k2 None s3 E3 (fs_calm _ _ S3)) as (k3 & K3 & S3').
  assert (Had : at_dir dp ip1 (kf k2)); [|exists dp, ip1, k1, k2, k3; split_and!; [|done|done|done|exact (at_dir_same _ _ _ _ Had (fs_same_trans _ _ _ S3 S3'))]].
  - pose proof (fs_icache _ _ S2) as I2'. rewrite I2 in I2'. split; rewrite ?I2'; try done.
    + pose proof (nidle_insert _ _ _ ip1 Hi) as Hn. rewrite <-I1 in N1. unfold nidle_but in N1. rewrite Hi in N1.
      unfold idle_slot, last_ref in *. rewrite R2 in Hn. repeat zcase; lia.
    + intros dv m. destruct A1' as (ip0 & Hi0 & (Hr0 & Hd0 & Hn0)%names_spec). assert (ip0 = ip) as -> by congruence.
      rewrite (refcount_insert dv m _ dp ip), I1, C1 by done. rewrite !share_spec by (done || lia). rewrite R2, Fi, Hn0. simpl. lia.
  - unfold k_nameiparent, Proc.cwd. rewrite (bind_ret _ _ k cwd k); [done|].
    rewrite (bind_ret _ _ k pr k) by (unfold cproc, cp, getp, bind, get, of_option; rewrite Hcur; simpl; by rewrite Hpr). by rewrite Hcwd.
Qed.

(** ** The inode *)

Context (type major minor : Z).
Hypothesis Htype : 0 < type < 32768.
Hypothesis Hmm : (-32768 <= major < 32768) /\ (-32768 <= minor < 32768).
Local Abbreviation ib := (IBLOCK inum).

(** What icreate writes, the inode as create fills it in, and what iupdate
    writes. *)
Definition node0 : block := new_dinode inum type major minor 1 (view s0 ROOTDEV ib).
Definition ip_new : inode := Inode ROOTDEV inum 1 (Z.lor I_BUSY I_VALID) type major minor 1 0 (replicate 13 0).
Definition node1 : block := store_dinode ip_new node0.

Lemma new_storable : storable ip_new /\ storable (fresh_inode inum type major minor 1).
Proof using Htype Hmm.
  destruct Hmm. unfold storable, u32_mod. simpl. split; (split_and!; [repeat constructor; lia|lia|lia|done|repeat constructor; lia]).
Qed.

Lemma node_blocks : block_of_inode inum (view s0 ROOTDEV ib) node0 /\ block_of_inode inum (view s0 ROOTDEV ib) node1 /\
  load_dinode node1 (fresh_inode inum type major minor 1) = fresh_inode inum type major minor 1.
Proof using Hcc Htype Hmm.
  pose proof (ap_block _ _ _ _ _ (cc_apart _ _ _ _ _ _ _ _ _ Hcc)) as Hb. destruct new_storable as [S1 S0].
  assert (E0 : node0 = store_dinode (fresh_inode inum type major minor 1) (view s0 ROOTDEV ib)) by (by apply new_dinode_store).
  assert (B0 : is_block node0) by (rewrite E0; by apply store_dinode_block).
  split; [split; [done|]|split; [split|]].
  - intros jp Hj. rewrite E0. by apply dinode_roundtrip.
  - by apply store_dinode_block.
  - intros jp Hj. unfold node1. rewrite (proj2 (dinode_roundtrip ip_new jp node0 B0 S1)) by done. rewrite E0. by apply dinode_roundtrip.
  - destruct (proj1 (dinode_roundtrip ip_new (fresh_inode inum type major minor 1) node0 B0 S1) eq_refl) as (F1 & F2 & F3 & F4 & F5 & F6).
    fold node1 in *. simpl in F1, F2, F3, F4, F5, F6. unfold load_dinode. simpl i_inum. simpl in *. unfold fresh_inode. f_equal; done.
Qed.

(** The inode read back by ilock, with create's fields. *)
Lemma new_loaded ip :
  i_dev ip = ROOTDEV -> i_inum ip = inum -> i_ref ip = 1 ->
  let ip' := load_dinode node0 (set_iflags (Z.lor I_BUSY I_VALID) ip) in
  i_type ip' = type /\ set_nlink 1 (set_mm major minor ip') = ip_new.
Proof using Hcc Htype Hmm.
  intros H1 H2 H3 ip'. pose proof (ap_block _ _ _ _ _ (cc_apart _ _ _ _ _ _ _ _ _ Hcc)) as Hb. destruct new_storable as [_ S0].
  pose proof (proj1 (dinode_roundtrip (fresh_inode inum type major minor 1) (set_iflags (Z.lor I_BUSY I_VALID) ip) _ Hb S0)) as Hr.
  rewrite <-new_dinode_store in Hr by done. fold node0 in Hr. fold ip' in Hr. destruct (Hr H2) as (F1 & F2 & F3 & F4 & F5 & F6).
  split; [done|]. unfold ip_new, set_nlink, set_mm. rewrite F1, F5, F6. unfold ip'. simpl. by rewrite H1, H2, H3.
Qed.

Lemma dir_first_free dp dpi s : at_dir dp dpi s -> first_free_inode N s inum.
Proof using Hcc.
  intros [V Q L _ _]. destruct Hcc as [_ _ _ [Rc Ro Rf Ru Rh] Hbf _ [HN HNb] _ Hap _ Hin _ Hfr Hus].
  assert (Hu : forall x, outside_journal N x -> unheld s ROOTDEV x) by (intros x Hx Hh%(sv_held _ _ V); by apply (Ru x)).
  assert (Hv : forall x, view s ROOTDEV x = view s0 ROOTDEV x) by (intros x; apply V).
  pose proof (ap_outside _ _ _ _ _ Hap) as Ho. apply Forall_cons in Ho as [_ [Ho _]%Forall_cons]. destruct (ap_inum _ _ _ _ _ Hap) as (Hr & _).
  split; [apply Q|rewrite (sv_nfree _ _ V); change (fb s0) with (kblocks k); lia|by eapply open_txn_same; [exact V|]| | |done| |by rewrite Hv|].
  - apply Hu. split; lia.
  - intros j Hj. apply Hu. destruct (decide (j = inum)) as [->|]; [done|]. by apply Hus; lia.
  - unfold fs_sb. rewrite Hv. fold (fs_sb s0). lia.
  - intros j Hj. rewrite Hv. by apply Hus.
Qed.

Lemma create_inode dp dpi k3 :
  at_dir dp dpi (kf k3) ->
  exists i ip0 sm k4 k5 k6 k7, kfs (icreate ROOTDEV type major minor 1) k3 = Ret i k4 /\ kfs (ilock i) k4 = Ret tt k5 /\
    kfs (updi i (fun x => set_nlink 1 (set_mm major minor x))) k5 = Ret tt k6 /\ kfs (iupdate i) k6 = Ret tt k7 /\
    icache (kf k3) !! i = Some ip0 /\ i_ref ip0 = 0 /\ icache (kf k7) = <[i := ip_new]> (icache (kf k3)) /\
    flushes N [] [(ib, node0)] (kf k3) sm /\ grown (fb sm) (fb (kf k7)) [(ib, node1)] /\ open_txn (fb (kf k7)) N [(ib, node1)].
Proof using Hcc Htype Hmm.
  intros Had. pose proof (dir_first_free _ _ _ Had) as Hff. destruct (cc_journal _ _ _ _ _ _ _ _ _ Hcc) as [HN HNb].
  pose proof (ff_outside _ _ _ Hff) as Ho. destruct (ap_inum _ _ _ _ _ (cc_apart _ _ _ _ _ _ _ _ _ Hcc)) as (Hir & Hid & _).
  destruct (icreate_ret N inum type major minor 1 ltac:(lia) (kf k3) Hff) as (s4 & E4 & I4 & F4).
  assert (Hv3 : view (kf k3) ROOTDEV ib = view s0 ROOTDEV ib) by apply (ad_same _ _ _ Had). rewrite Hv3 in F4. fold node0 in F4.
  destruct (iget_cases ROOTDEV inum s4) as (i & ip0 & Hi & Hcase); [rewrite I4; apply Had|]. rewrite I4 in Hi.
  assert (Hno : names ROOTDEV inum ip0 = false).
  { eapply (refcount_zero ROOTDEV inum (icache (kf k3))); [apply (ad_quiet _ _ _ Had)| |exact Hi].
    rewrite (ad_refs _ _ _ Had), (cc_uncached _ _ _ _ _ _ _ _ _ Hcc). unfold one_ref. destruct (Z.eqb_spec inum dinum); [done|]. by rewrite andb_false_r. }
  destruct Hcase as [[Hn _]|(H0 & _ & ipf & Fd & Fi & Fr & Ff & E5)]; [congruence|]. rewrite I4 in E5. pose proof (lookup_lt_Some _ _ _ Hi) as Hlt.
  destruct (kfs_step (icreate ROOTDEV type major minor 1) k3 i _ (eq_trans E4 E5) (fl_calm _ _ _ _ _ F4)) as (k4 & K4 & S4).
  pose proof (fs_view _ _ S4 : same_view (fb s4) (fb (kf k4))) as V4.
  assert (Hi4 : icache (kf k4) !! i = Some ipf) by (rewrite (fs_icache _ _ S4); by apply list_lookup_insert_eq).
  assert (Hv4 : view (kf k4) ROOTDEV ib = node0).
  { unfold view. rewrite (sv_view _ _ V4). fold (view s4 ROOTDEV ib). rewrite (fl_view _ _ _ _ _ F4) by done. unfold tx_view. by rewrite tx_map_cons, lookup_insert_eq. }
  assert (Hu4 : unheld s4 ROOTDEV ib) by (intros (_ & Hx & _)%(fl_held _ _ _ _ _ F4); [apply Hx; constructor|done]).
  destruct (new_loaded ipf Fd Fi Fr) as [Ht5 Hn5]. pose proof (ilock_fresh (kf k4) i ipf Hi4 Fd Fr Ff (fs_calm _ _ S4)) as Hlk. rewrite Fi, Hv4 in Hlk.
  destruct Hlk as (s5 & E6 & I5 & C5 & V5); [by intros Hh%(sv_held _ _ V4)|rewrite Ht5; lia|].
  destruct (kfs_step (ilock i) k4 tt s5 E6 C5) as (k5 & K5 & S5). rewrite (fs_icache _ _ S4) in I5. simpl in I5. rewrite list_insert_insert_eq in I5.
  assert (Hi5 : icache (kf k5) !! i = Some (load_dinode node0 (set_iflags (Z.lor I_BUSY I_VALID) ipf))) by (rewrite (fs_icache _ _ S5), I5; by apply list_lookup_insert_eq).
  destruct (kfs_step (updi i (fun x => set_nlink 1 (set_mm major minor x))) k5 tt _ (updi_ret _ _ _ _ Hi5) (fs_calm _ _ S5)) as (k6 & K6 & S6).
  rewrite Hn5 in S6. pose proof (fs_icache _ _ S6) as I6. simpl in I6. rewrite (fs_icache _ _ S5), I5, list_insert_insert_eq in I6.
  pose proof (same_view_trans _ _ _ V4 V5) as V45. pose proof (same_view_trans _ _ _ V45 (fs_view _ _ S5)) as V46.
  pose proof (same_view_trans _ _ _ V46 (fs_view _ _ S6)) as V6. assert (Hv6 : view (kf k6) ROOTDEV ib = node0).
  { unfold view. rewrite (sv_view _ _ V6). rewrite <-Hv4. unfold view. by rewrite (sv_view _ _ V4). }
  destruct (iupdate_ret N [] (kf k6) i ip_new) as (s7 & E7 & I7 & G7);
    [rewrite I6; by apply list_lookup_insert_eq|done|apply S6| |by intros Hh%(sv_held _ _ V6)|by eapply open_txn_same; [exact V6|apply F4]|simpl; lia|].
  { rewrite (sv_nfree _ _ V6), (fl_free _ _ _ _ _ F4). pose proof (ff_bufs _ _ _ Hff). simpl. lia. }
  simpl i_inum in G7. rewrite Hv6 in G7. fold node1 in G7. destruct (kfs_step (iupdate i) k6 tt s7 E7 (gr_calm _ _ _ G7)) as (k7 & K7 & S7).
  assert (G6 : grown (fb s4) (fb s7) [(ib, node1)]) by (apply (txn_grown_trans _ (fb (kf k6)) _ [] [(ib, node1)]); [apply grown_same; [apply S6|done]|done]).
  destruct (grown_after N s4 s7 (kf k7) _ G6 S7 (fl_open _ _ _ _ _ F4)) as [G Ho7].
  exists i, ip0, s4, k4, k5, k6, k7. split_and!; try done. by rewrite (fs_icache _ _ S7), I7.
Qed.

(** ** The entry *)

Local Abbreviation sec := (entry_sec s0 d e).
Local Abbreviation blk := (linked_block s0 d e inum name).
Local Abbreviation made_at := (made_sectors N s0 dinum inum e name (fresh_inode inum type major minor 1)).

Lemma sectors_before nd v : block_of_inode inum (view s0 ROOTDEV ib) nd -> v ib = nd ->
  (forall x, outside_journal N x -> x <> ib -> v x = view s0 ROOTDEV x) -> made_at false v.
Proof using Hcc.
  intros Hb E Hv. pose proof (cc_apart _ _ _ _ _ _ _ _ _ Hcc) as Hap.
  destruct (sector_outside N s0 dinum inum e Hap sec (entry_sec_in N s0 dinum inum e Hap)) as (O1 & O2 & _).
  split; [by rewrite E|done|by apply Hv|]. intros x Hx H1 _. by apply Hv.
Qed.

Lemma sectors_after v : v ib = node1 -> v sec = blk ->
  (forall x, outside_journal N x -> x <> ib -> x <> sec -> v x = view s0 ROOTDEV x) -> made_at true v.
Proof using Hcc Htype Hmm.
  intros E Eb Hv. destruct node_blocks as (_ & B1 & Hl). split; [by rewrite E|by rewrite E|done|]. intros x Hx H1 H2. by apply Hv.
Qed.

(** The sectors while the inode is being made. *)
Lemma filled_view dp dpi k3 sm k7 :
  at_dir dp dpi (kf k3) -> flushes N [] [(ib, node0)] (kf k3) sm -> grown (fb sm) (fb (kf k7)) [(ib, node1)] ->
  view (kf k7) ROOTDEV ib = node1 /\ (forall x, outside_journal N x -> x <> ib -> view (kf k7) ROOTDEV x = view s0 ROOTDEV x) /\
  (forall x, outside_journal N x -> x <> ib -> unheld (kf k7) ROOTDEV x).
Proof using Hcc.
  intros Had F G. split_and!.
  - unfold view. rewrite (gr_view _ _ _ G). unfold tx_view. by rewrite tx_map_cons, lookup_insert_eq.
  - intros x Hx Hne. unfold view. rewrite (gr_view _ _ _ G). unfold tx_view. rewrite tx_map_cons, lookup_insert_ne by done. simpl.
    fold (view sm ROOTDEV x). rewrite (fl_view _ _ _ _ _ F) by done. unfold tx_view. rewrite tx_map_cons, lookup_insert_ne by done. simpl.
    apply (ad_same _ _ _ Had).
  - intros x Hx Hne [Hh|Hh%list_elem_of_singleton]%(gr_held _ _ _ G); [|done]. apply (fl_held _ _ _ _ _ F) in Hh as [Hh _]; [|done].
    apply (sv_held _ _ (ad_same _ _ _ Had)) in Hh. by apply (ar_unheld _ _ _ (cc_rest _ _ _ _ _ _ _ _ _ Hcc) x).
Qed.

Lemma create_entry dp dpi k3 i ip0 sm k7 :
  at_dir dp dpi (kf k3) -> icache (kf k3) !! i = Some ip0 -> i_ref ip0 = 0 -> icache (kf k7) = <[i := ip_new]> (icache (kf k3)) ->
  flushes N [] [(ib, node0)] (kf k3) sm -> grown (fb sm) (fb (kf k7)) [(ib, node1)] -> open_txn (fb (kf k7)) N [(ib, node1)] ->
  exists k8 k9 k10, kfs (geti i) k7 = Ret ip_new k8 /\ kfs (dirlink devsw_read devsw_write dp name inum) k8 = Ret 0 k9 /\
    kfs (iunlockput dp) k9 = Ret tt k10 /\ i <> dp /\
    icache (kf k10) = <[dp := set_ref (i_ref dpi - 1) (clear_ibusy dpi)]> (<[i := ip_new]> (icache (kf k3))) /\
    grown (fb (kf k7)) (fb (kf k10)) [(sec, blk)].
Proof using Hcc Htype Hmm.
  intros Had Hi H0 I7 F G Ho7. pose proof (cc_apart _ _ _ _ _ _ _ _ _ Hcc) as Hap. destruct (filled_view dp dpi k3 sm k7 Had F G) as (W1 & W2 & W3).
  pose proof (lookup_lt_Some _ _ _ Hi) as Hlt. destruct (ad_locked _ _ _ Had) as [Hdp Hr Hb Hv Hnode]. rewrite (dnode_same s0) in Hnode by apply Had.
  assert (Hne : i <> dp) by (intros ->; assert (ip0 = dpi) as -> by congruence; lia).
  destruct (kfs_step (geti i) k7 ip_new (kf k7)) as (k8 & K8 & S8); [apply geti_ret; rewrite I7; by apply list_lookup_insert_eq|apply G|].
  destruct (unmade_dir N s0 dinum inum e name Hap (cc_absent _ _ _ _ _ _ _ _ _ Hcc) _ (view (kf k8) ROOTDEV) (kf k8)
    (sectors_before node1 _ (proj1 (proj2 node_blocks)) ltac:(by rewrite (view_same (kf k7))) ltac:(intros x H1 H2; rewrite (view_same (kf k7)) by done; by apply W2)))
    as (U1 & U2 & U3 & U4 & U5 & U6); [done| |].
  { intros x Hx. destruct (sector_outside N s0 dinum inum e Hap x Hx) as (O1 & O2 & _). eapply unheld_same; [exact S8|]. by apply W3. }
  assert (Hdp8 : icache (kf k8) !! dp = Some dpi) by (rewrite (fs_icache _ _ S8), I7; by rewrite list_lookup_insert_ne).
  assert (Use : searchable (kf k8) dpi) by (by apply (searchable_node (kf k8)); [| |apply same_view_refl|apply S8]).
  assert (Hx : first_unused_entry (kf k8) dpi e /\ entry (kf k8) dpi name = None /\ entry_sec (kf k8) dpi e = sec /\
    linked_block (kf k8) dpi e inum name = blk /\ file_path (kf k8) dpi (Z.of_nat (e / DPB)) = file_path s0 d (Z.of_nat (e / DPB))).
  { rewrite (entry_node _ d dpi) by done. rewrite Hnode. destruct U2 as [A1 A2 A3]. split; [by split|done]. }
  destruct Hx as (X1 & X2 & X3 & X4 & X5). destruct (ap_separate _ _ _ _ _ Hap) as [_ Hsep].
  pose proof (entry_in N s0 dinum inum e Hap) as He. pose proof (dir_block_in s0 dinum _ He) as Hin.
  assert (Hnf : (2 <= nfree (fb (kf k8)))%nat).
  { rewrite (sv_nfree _ _ (fs_view _ _ S8)). pose proof (gr_free _ _ _ G). pose proof (fl_free _ _ _ _ _ F).
    pose proof (sv_nfree _ _ (ad_same _ _ _ Had)). pose proof (ar_free _ _ _ (cc_rest _ _ _ _ _ _ _ _ _ Hcc)) as Hf. pose proof (cc_bufs _ _ _ _ _ _ _ _ _ Hcc).
    unfold kblocks in Hf. fold s0 in Hf. simpl length in *. lia. }
  destruct (dirlink_ret devsw_read devsw_write N [(ib, node1)] (kf k8) dp dpi e inum name) as (s9 & E9 & I9 & G9);
    [done|apply S8|by eapply open_txn_same; [apply S8|]|simpl; lia|done|done|done|done|rewrite X3, X5; by apply Hsep|].
  rewrite X3, X4 in G9. destruct (kfs_step (dirlink devsw_read devsw_write dp name inum) k8 0 s9 E9 (gr_calm _ _ _ G9)) as (k9 & K9 & S9).
  assert (I9' : icache (kf k9) = <[i := ip_new]> (icache (kf k3))) by (by rewrite (fs_icache _ _ S9), I9, (fs_icache _ _ S8), I7).
  assert (Hdp9 : icache (kf k9) !! dp = Some dpi) by (rewrite (fs_icache _ _ S9), I9; done).
  destruct (release_ret _ _ _ Hdp9 Hr Hb) as (sr & Er & Ir & Cr & Vr); [rewrite Hnode; apply (cc_dir _ _ _ _ _ _ _ _ _ Hcc)|apply S9|].
  destruct (kfs_step (iunlockput dp) k9 tt sr Er Cr) as (k10 & K10 & S10).
  exists k8, k9, k10. split_and!; [done|done|done|done|by rewrite (fs_icache _ _ S10), Ir, I9'|].
  apply (txn_grown_trans _ (fb (kf k8)) _ [] [(sec, blk)]); [apply grown_same; apply S8|].
  apply (txn_grown_trans _ (fb s9) _ [(sec, blk)] []); [done|]. apply grown_same; [apply S10|].
  eapply same_view_trans; [apply S9|]. by eapply same_view_trans; [|apply S10].
Qed.

(** ** The end of the transaction *)

Lemma kfs_bio {A} (m : M bst A) k1 a b :
  m (fb (kf k1)) = Ret a b -> exists k', kfs (bio m) k1 = Ret a k' /\ fb (kf k') = set_wakes [] b /\ icache (kf k') = icache (kf k1).
Proof using Type. intros E. eexists. split; [apply kfl_ret; unfold fs, bio, zoom, kf in *; by rewrite E|done]. Qed.

Lemma at_rest_wakes n b w : at_rest N n b -> at_rest N n (set_wakes w b).
Proof using Type.
  intros [H1 H2 H3 H4 H5]. pose proof (same_view_wakes b w) as V. split; [by apply calm_wakes|by eapply open_txn_same|done| |done].
  intros x Hx Hh%(sv_held _ _ V). by apply (H4 x).
Qed.

Lemma rest_view n s x : at_rest N n (fb s) -> outside_journal N x -> view s ROOTDEV x = dread (h_image (bdisk (fb s))) ROOTDEV x.
Proof using Type. intros R Hx. apply view_disk; [apply R|by apply R|apply Hx]. Qed.

Lemma create_end dp dpi k3 sm k7 k10 :
  at_dir dp dpi (kf k3) -> flushes N [] [(ib, node0)] (kf k3) sm -> grown (fb sm) (fb (kf k7)) [(ib, node1)] ->
  open_txn (fb (kf k7)) N [(ib, node1)] -> grown (fb (kf k7)) (fb (kf k10)) [(sec, blk)] ->
  exists k11 k12 b, commit k10 = Ret tt k11 /\ kfs (bio jfull_flush) k11 = Ret tt k12 /\ fb (kf k12) = set_wakes [] b /\ icache (kf k12) = icache (kf k10) /\
    commits N [(sec, blk); (ib, node1)] (fb (kf k10)) b /\ at_rest N nf b.
Proof using Hcc.
  intros Had F G Ho7 G2. pose proof (gr_open _ _ _ G2 N _ Ho7) as Ho. change ([(sec, blk)] ++ [(ib, node1)]) with [(sec, blk); (ib, node1)] in Ho.
  pose proof (cc_apart _ _ _ _ _ _ _ _ _ Hcc) as Hap. destruct (filled_view dp dpi k3 sm k7 Had F G) as (_ & _ & W3).
  destruct (sector_outside N s0 dinum inum e Hap sec (entry_sec_in N s0 dinum inum e Hap)) as (O1 & O2 & _).
  pose proof (ap_outside _ _ _ _ _ Hap) as Hou. apply Forall_cons in Hou as [_ [Hou _]%Forall_cons].
  destruct (commit_ret (fb (kf k10)) N [(sec, blk); (ib, node1)]) as (b1 & E1 & Hfl); [done| |apply G2|].
  { destruct (cc_journal _ _ _ _ _ _ _ _ _ Hcc). split_and!; [simpl; lia..| |by apply Forall_cons; split; [|apply Forall_singleton]].
    apply NoDup_cons. split; [by intros ?%list_elem_of_singleton|apply NoDup_singleton]. }
  destruct (Hfl []) as (b & E2 & C). destruct (kfs_bio end_trans k10 tt b1 E1) as (k11 & K11 & B11 & I11).
  destruct (kfs_bio jfull_flush k11 tt b) as (k12 & K12 & B12 & I12); [by rewrite B11|].
  exists k11, k12, b. split_and!; [done|done|done|by rewrite I12|done|]. split; [apply C|apply C| | |apply C].
  - rewrite (cm_free _ _ _ _ C). pose proof (gr_free _ _ _ G2). pose proof (gr_free _ _ _ G). pose proof (fl_free _ _ _ _ _ F).
    pose proof (sv_nfree _ _ (ad_same _ _ _ Had)). pose proof (ar_free _ _ _ (cc_rest _ _ _ _ _ _ _ _ _ Hcc)) as Hf.
    unfold kblocks in Hf. fold s0 in Hf. simpl length in *. lia.
  - intros x Hx Hh. destruct (cm_held _ _ _ _ C x Hx Hh) as [Hh' Hn]. simpl in Hn. apply not_elem_of_cons in Hn as [N1 N2].
    apply not_elem_of_cons in N2 as [N2 _]. apply (gr_held _ _ _ G2) in Hh' as [Hh'|Hh'%list_elem_of_singleton]; [|done]. by apply (W3 x).
Qed.

(** ** Crashes *)

Lemma made_respects new : respects N (made_at new).
Proof using Hcc.
  pose proof (cc_apart _ _ _ _ _ _ _ _ _ Hcc) as Hap. intros v v' Hv [H1 H2 H3 H4].
  destruct (sector_outside N s0 dinum inum e Hap sec (entry_sec_in N s0 dinum inum e Hap)) as (O1 & _).
  pose proof (ap_outside _ _ _ _ _ Hap) as Hou. apply Forall_cons in Hou as [_ [Hou _]%Forall_cons].
  split; rewrite <-?Hv by done; [done|done|done|]. intros x Hx Hn1 Hn2. rewrite <-Hv by done. by apply H4.
Qed.

(** Wherever the machine stops, the disk stands for the old sectors or the
    new ones: for the new ones from the time the second of the two
    transactions is in the journal. *)
Lemma create_crash dp dpi k3 sm k7 k10 b :
  at_dir dp dpi (kf k3) -> flushes N [] [(ib, node0)] (kf k3) sm -> grown (fb sm) (fb (kf k7)) [(ib, node1)] ->
  grown (fb (kf k7)) (fb (kf k10)) [(sec, blk)] -> commits N [(sec, blk); (ib, node1)] (fb (kf k10)) b ->
  exists ws, bdisk b = app_writes ws (bdisk (fb s0)) /\
    forall c, exists v, stands_for N (replay_writes (take c ws) (h_image (bdisk (fb s0)))) v /\ made_at (bool_decide (length ws <= c + 3)%nat) v.
Proof using Hcc Htype Hmm.
  intros Had F G G2 C. pose proof (cc_apart _ _ _ _ _ _ _ _ _ Hcc) as Hap. pose proof (cc_rest _ _ _ _ _ _ _ _ _ Hcc) as R. change (kblocks k) with (fb s0) in R.
  destruct (cc_journal _ _ _ _ _ _ _ _ _ Hcc) as [HN HNb]. assert (HN' : 1 <= Z.of_nat N < 2 ^ 26) by lia.
  destruct (sector_outside N s0 dinum inum e Hap sec (entry_sec_in N s0 dinum inum e Hap)) as (O1 & O2 & _).
  pose proof (ap_outside _ _ _ _ _ Hap) as Hou. apply Forall_cons in Hou as [_ [Hou _]%Forall_cons].
  pose proof (sv_disk _ _ (ad_same _ _ _ Had)) as D3. assert (D10 : bdisk (fb (kf k10)) = bdisk (fb sm)) by (by rewrite (gr_disk _ _ _ G2), (gr_disk _ _ _ G)).
  destruct node_blocks as (B0 & B1 & _).
  assert (Hsm : forall x, outside_journal N x -> dread (h_image (bdisk (fb sm))) ROOTDEV x = if decide (x = ib) then node0 else view s0 ROOTDEV x).
  { intros x Hx. rewrite <-view_disk; [|apply F| |apply Hx].
    - rewrite (fl_view _ _ _ _ _ F) by done. unfold tx_view. rewrite tx_map_cons. case_decide as E; [subst; by rewrite lookup_insert_eq|].
      rewrite lookup_insert_ne by done. apply (ad_same _ _ _ Had).
    - intros (Hh & _)%(fl_held _ _ _ _ _ F); [|done]. apply (sv_held _ _ (ad_same _ _ _ Had)) in Hh. by apply (ar_unheld _ _ _ R x). }
  assert (Q0 : made_at false (dread (h_image (bdisk (fb s0))) ROOTDEV)).
  { apply (sectors_before (view s0 ROOTDEV ib)); [split; [apply Hap|done]|by rewrite (rest_view nf s0)|]. intros x Hx _. by rewrite (rest_view nf s0). }
  assert (Q1 : made_at false (dread (h_image (bdisk (fb sm))) ROOTDEV)).
  { apply (sectors_before node0); [done|by rewrite Hsm, decide_True|]. intros x Hx Hne. by rewrite Hsm, decide_False. }
  assert (Q2 : made_at true (tx_view [(sec, blk); (ib, node1)] (dread (h_image (bdisk (fb sm))) ROOTDEV))).
  { apply sectors_after; unfold tx_view; rewrite ?tx_map_cons.
    - by rewrite lookup_insert_ne, lookup_insert_eq.
    - by rewrite lookup_insert_eq.
    - intros x Hx Hn1 Hn2. rewrite !lookup_insert_ne by done. transitivity (dread (h_image (bdisk (fb sm))) ROOTDEV x); [done|]. by rewrite Hsm, decide_False. }
  destruct (fl_crash _ _ _ _ _ F (made_at false) HN') as (w1 & D1 & S1); [rewrite D3; apply R|apply made_respects|by rewrite D3|done|]. rewrite D3 in D1, S1.
  destruct (cm_crash _ _ _ _ C HN') as (w2 & D2 & L2 & S2); [rewrite D10; apply F|]. rewrite D10 in D2, S2. simpl length in L2, S2.
  exists (w1 ++ w2). split; [by rewrite D2, D1, app_writes_app|]. intros c. rewrite replay_take_app, length_app, L2.
  destruct (decide (c <= length w1)%nat) as [Hle|Hgt].
  - replace (c - length w1)%nat with 0%nat by lia. rewrite take_0, bool_decide_false by lia. apply S1.
  - rewrite (take_ge w1), <-app_writes_image, <-D1 by lia. eexists. split; [apply S2|]. case_decide; [rewrite bool_decide_false by lia|rewrite bool_decide_true by lia]; done.
Qed.

(** ** create *)

(** The references at the end: the directory's is given back. *)
Lemma refs_end dp dpi s i ip0 :
  at_dir dp dpi s -> icache s !! i = Some ip0 -> i_ref ip0 = 0 -> i <> dp -> forall dv m,
  refcount dv m (<[dp := set_ref (i_ref dpi - 1) (clear_ibusy dpi)]> (<[i := ip_new]> (icache s))) = refcount dv m (icache s0) + one_ref inum dv m.
Proof using Type.
  intros Had Hi H0 Hne dv m. destruct (ad_locked _ _ _ Had) as [Hdp Hr Hb Hv Hnode].
  assert (Hd : i_dev dpi = ROOTDEV /\ i_inum dpi = dinum) by (rewrite Hnode; done). destruct Hd as [Hd Hn].
  rewrite (refcount_insert dv m _ dp dpi) by (by rewrite list_lookup_insert_ne). rewrite (refcount_insert dv m _ i ip0), (ad_refs _ _ _ Had) by done.
  assert (share dv m ip0 = 0) as -> by (unfold share; by destruct (names dv m ip0)). rewrite (share_spec dv m dpi), (share_spec dv m ip_new) by done.
  simpl i_ref. simpl i_inum. rewrite Hn. destruct (decide (i_ref dpi = 1)) as [E1|E1].
  - rewrite E1. unfold share at 1, names. simpl. lia.
  - rewrite share_spec by (simpl; done || lia). simpl. rewrite Hn. lia.
Qed.

Lemma end_view dp dpi k3 sm k7 k10 k12 b :
  at_dir dp dpi (kf k3) -> flushes N [] [(ib, node0)] (kf k3) sm -> grown (fb sm) (fb (kf k7)) [(ib, node1)] ->
  grown (fb (kf k7)) (fb (kf k10)) [(sec, blk)] -> commits N [(sec, blk); (ib, node1)] (fb (kf k10)) b -> fb (kf k12) = set_wakes [] b ->
  made_at true (view (kf k12) ROOTDEV).
Proof using Hcc Htype Hmm.
  intros A F G G2 C B. destruct (filled_view dp dpi k3 sm k7 A F G) as (W1 & W2 & _). pose proof (cc_apart _ _ _ _ _ _ _ _ _ Hcc) as Hap.
  destruct (sector_outside N s0 dinum inum e Hap sec (entry_sec_in N s0 dinum inum e Hap)) as (O1 & O2 & _).
  pose proof (ap_outside _ _ _ _ _ Hap) as Hou. apply Forall_cons in Hou as [_ [Hou _]%Forall_cons].
  assert (Hb : forall x, outside_journal N x -> view (kf k12) ROOTDEV x = tx_view [(sec, blk)] (view (kf k7) ROOTDEV) x).
  { intros x Hx. unfold view at 1. rewrite B. change (block_view (set_wakes [] b) ROOTDEV x) with (block_view b ROOTDEV x).
    rewrite (cm_view _ _ _ _ C) by done. apply G2. }
  apply sectors_after; [rewrite Hb by done|rewrite Hb by done|intros x Hx N1 N2; rewrite Hb by done]; unfold tx_view; rewrite tx_map_cons.
  - by rewrite lookup_insert_ne.
  - by rewrite lookup_insert_eq.
  - rewrite lookup_insert_ne by done. by apply W2.
Qed.

Lemma create_runs canexist :
  type <> T_DIR ->
  exists i k' ws, create devsw_read devsw_write path canexist type major minor k = Ret (Some i) k' /\ at_rest N nf (fb (kf k')) /\
    icache (kf k') !! i = Some ip_new /\ (forall dv m, refcount dv m (icache (kf k')) = refcount dv m (icache s0) + one_ref inum dv m) /\
    made_at true (view (kf k') ROOTDEV) /\ bdisk (fb (kf k')) = app_writes ws (bdisk (fb s0)) /\
    forall c, exists v, stands_for N (replay_writes (take c ws) (h_image (bdisk (fb s0)))) v /\ made_at (bool_decide (length ws <= c + 3)%nat) v.
Proof using Hcc Htype Hmm.
  intros Hty. destruct create_parent as (dp & dpi & k1 & k2 & k3' & K1 & K2 & K3 & A2 & A3).
  assert (Hf : exists k3, (if canexist then kfs (dirlookup dp name) else ret None) k2 = Ret None k3 /\ at_dir dp dpi (kf k3)) by (destruct canexist; eauto).
  clear k3' K3 A2 A3. destruct Hf as (k3 & K3 & A3). pose proof (ad_locked _ _ _ A3) as L3.
  destruct (kfs_step (geti dp) k3 dpi (kf k3) (geti_ret _ _ _ (lk_slot _ _ _ _ L3)) (q_calm _ _ (ad_quiet _ _ _ A3))) as (k4 & K4 & S4).
  pose proof (at_dir_same _ _ _ _ A3 S4) as A4. assert (Hdev : i_dev dpi = ROOTDEV) by (rewrite (lk_node _ _ _ _ L3); done).
  destruct (create_inode dp dpi k4 A4) as (i & ip0 & sm & k5 & k6 & k7 & k8 & K5 & K6 & K7 & K8 & Hi & H0 & I8 & F & G & Ho).
  destruct (create_entry dp dpi k4 i ip0 sm k8 A4 Hi H0 I8 F G Ho) as (k9 & k10 & k11 & K9 & K10 & K11 & Hne & I11 & G2).
  destruct (create_end dp dpi k4 sm k8 k11 A4 F G Ho G2) as (k12 & k13 & b & K12 & K13 & B13 & I13 & C & R).
  destruct (create_crash dp dpi k4 sm k8 k11 b A4 F G G2 C) as (ws & D & Hc).
  exists i, k13, ws. rewrite B13, I13, I11. pose proof (lookup_lt_Some _ _ _ Hi) as Hlt. split_and!.
  - unfold create. rewrite (bind_ret _ _ _ _ _ K1), (bind_ret _ _ _ _ _ K2), (bind_ret _ _ _ _ _ K3), (bind_ret _ _ _ _ _ K4), Hdev.
    rewrite (bind_ret _ _ _ _ _ K5), (bind_ret _ _ _ _ _ K6), (bind_ret _ _ _ _ _ K7), (bind_ret _ _ _ _ _ K8), (bind_ret _ _ _ _ _ K9).
    change (i_inum ip_new) with inum. rewrite (bind_ret _ _ _ _ _ K10). cbn [Z.ltb Z.compare]. destruct (Z.eqb_spec type T_DIR); [done|].
    rewrite (bind_ret _ _ k10 tt k10) by done. by rewrite (bind_ret _ _ _ _ _ K11), (bind_ret _ _ _ _ _ K12), (bind_ret _ _ _ _ _ K13).
  - by apply at_rest_wakes.
  - rewrite list_lookup_insert_ne by done. by apply list_lookup_insert_eq.
  - by eapply refs_end.
  - by eapply end_view.
  - done.
  - done.
Qed.
End steps.

End create.

(** ** A file in the root directory *)

(** A disk with a journal of four blocks whose root directory, inode 1, has
    the entries "." and ".."; a process creates "/ab". *)
Definition demo_root : inode := Inode ROOTDEV 1 1 0 T_DIR 0 0 1 512 [300; 0; 0; 0; 0; 0; 0; 0; 0; 0; 0; 0; 0].
Definition demo_rblock : block := splice 0 (encode_dirent 1 [46] ++ encode_dirent 1 [46; 46]) zero_block.
Definition demo_cdisk : image :=
  dwrite (dwrite (dwrite (dwrite (∅ : image) ROOTDEV 2 demo_jsb) ROOTDEV 1 (put_u32 8 200 zero_block))
    ROOTDEV 203 (store_dinode demo_root zero_block)) ROOTDEV 300 demo_rblock.
Definition demo_cblocks : bst :=
  match pbjFSck true ROOTDEV (boot 8 demo_cdisk) with Ret _ b => b | _ => boot 8 demo_cdisk end.
Definition demo_idle : inode := Inode 0 0 0 0 0 0 0 0 0 [].
Definition demo_cfs : fs_st := FsSt demo_cblocks [demo_root; demo_idle; demo_idle].
Definition demo_creator : proc := Proc 65536 8192 0 RUNNING 1 None None 0 [] (Some 0%nat) zero_tf [] 100 0 empty_ct.
Definition demo_ckernel : kst := Kst (FlSt demo_cfs [] ∅ []) (fun _ => 0) [demo_creator] (Some 0%nat) 2 100 (Some 0%nat) 0 [] 0.

(** A disk whose first seven inodes are in use, so that the next one is in
    another block than the root's. *)
Definition demo_full_inodes : block :=
  foldr (fun j d => store_dinode (fresh_inode j T_FILE 0 0 1) d) (store_dinode demo_root zero_block) (seqZ 2 6).
Definition demo_mdisk : image :=
  dwrite (dwrite (dwrite demo_cdisk ROOTDEV 1 (put_u32 0 1024 (put_u32 8 200 zero_block))) ROOTDEV 203 demo_full_inodes) ROOTDEV 229 demo_bitmap.
Definition demo_mkernel : kst :=
  Kst (FlSt (FsSt (match pbjFSck true ROOTDEV (boot 20 demo_mdisk) with Ret _ b => b | _ => boot 20 ∅ end) [demo_root; demo_idle; demo_idle]) [] ∅ [])
    (fun _ => 0) [demo_creator] (Some 0%nat) 2 100 (Some 0%nat) 0 [] 0.

Lemma demo_cblocks_ok : booted 4 8 demo_cblocks /\ h_image (bdisk demo_cblocks) = demo_cdisk.
Proof.
  assert (E : dread demo_cdisk ROOTDEV 2 = demo_jsb) by (vm_compute; reflexivity).
  destruct (reboot demo_cdisk 8 4 []) as (b & Eb & Hb & Hd);
    [split; rewrite ?E; [apply demo_jsb_block|vm_compute; done..|constructor]|apply NoDup_nil_2|lia|lia|apply zero_block_ok|].
  unfold demo_cblocks. rewrite Eb. split; [done|by rewrite Hd].
Qed.

Lemma demo_shown : shows 4 demo_cdisk demo_cfs.
Proof. destruct demo_cblocks_ok as [Hb Hd]. pose proof (booted_shows 4 8 demo_cblocks (icache demo_cfs) Hb ltac:(lia)) as Hs. by rewrite Hd in Hs. Qed.

Lemma demo_cquiet : quiet None demo_cfs.
Proof.
  assert (Hi : forall i ip, icache demo_cfs !! i = Some ip -> 0 < i_ref ip -> i = 0%nat /\ ip = demo_root).
  { intros [|[|[|i]]] ip [= <-] Hr; [done|done|done]. }
  split.
  - apply demo_shown.
  - split.
    + intros i j ip jp dv m Hl Hl' (Hr & _)%names_spec (Hr' & _)%names_spec. destruct (Hi _ _ Hl Hr), (Hi _ _ Hl' Hr'). congruence.
    + intros [|[|[|i]]] ip [= <-]; vm_compute; discriminate.
  - intros i ip Hl Hr. by destruct (Hi _ _ Hl Hr) as [_ ->].
  - intros i ip Hl Hr. by destruct (Hi _ _ Hl Hr) as [_ ->].
  - intros i ip Hl Hr Hv. by destruct (Hi _ _ Hl Hr) as [_ ->].
Qed.

Lemma demo_dnode : dnode demo_cfs 1 = set_ref 0 demo_root.
Proof. vm_compute. reflexivity. Qed.

Lemma demo_searchable : searchable demo_cfs (set_ref 0 demo_root).
Proof.
  pose proof demo_shown as Hs. split; [done|done|simpl; change (MAXFILE * BSIZE) with 8394752; lia|].
  intros b Hb. change (dir_blocks (set_ref 0 demo_root)) with 1%nat in Hb. assert (b = 0%nat) as -> by lia.
  assert (Ew : walk (view demo_cfs ROOTDEV) (i_addrs demo_root) 0 = ([], Some 300)) by reflexivity.
  split; [change MAXFILE with 16396; lia|]. change (i_dev (set_ref 0 demo_root)) with ROOTDEV. change (i_addrs (set_ref 0 demo_root)) with (i_addrs demo_root).
  change (Z.of_nat 0) with 0. rewrite Ew. split; [by apply Forall_nil|]. exists 300. split; [done|].
  split; [apply (sh_free _ _ _ Hs); split; lia|]. rewrite (sh_view _ _ _ Hs) by (split; lia). vm_compute. reflexivity.
Qed.

Lemma demo_apart : apart 4 demo_cfs 1 2 2.
Proof.
  assert (Es : file_sectors demo_cfs (set_ref 0 demo_root) (Z.of_nat (dir_blocks (set_ref 0 demo_root))) = [300]) by (vm_compute; reflexivity).
  split; rewrite ?demo_dnode, ?Es.
  - apply demo_searchable.
  - split; [vm_compute; discriminate|vm_compute; reflexivity|]. intros [|[|e']] He; [vm_compute; discriminate..|lia].
  - lia.
  - repeat (apply Forall_cons; split; [change (IBLOCK 1) with 203; change (IBLOCK 2) with 203; split; lia|]). by apply Forall_nil.
  - rewrite !list_elem_of_singleton. split; discriminate.
  - change (seqZ 0 (Z.of_nat (dir_blocks (set_ref 0 demo_root)))) with [0]. split; [apply NoDup_singleton|].
    intros b b' ->%list_elem_of_singleton ->%list_elem_of_singleton. vm_compute. by intros ?%not_elem_of_nil.
  - change (IBLOCK 2) with 203. rewrite (sh_view _ _ _ demo_shown) by (split; lia).
    replace (dread demo_cdisk ROOTDEV 203) with (store_dinode demo_root zero_block) by (vm_compute; reflexivity).
    by apply store_dinode_block; [apply zero_block_ok|].
Qed.

Lemma demo_create_call : create_call 4 6 demo_ckernel [47; 97; 98] [97; 98] [] 1 2 2.
Proof.
  destruct demo_cblocks_ok as [Hb Hd]. pose proof demo_shown as Hs. assert (Ek : kf demo_ckernel = demo_cfs) by done.
  assert (Hen : entry demo_cfs (set_ref 0 demo_root) [97; 98] = None) by (vm_compute; reflexivity).
  split; rewrite ?Ek, ?demo_dnode.
  - exists 0%nat, demo_creator, 0%nat, 1. split; [reflexivity|]. split; [reflexivity|]. split; [reflexivity|].
    split; [exists demo_root; split; reflexivity|]. split; [|reflexivity].
    change (elems [47; 97; 98]) with [[97; 98]]. change (start_inum 1 [47; 97; 98]) with 1. cbn [walkable]. rewrite demo_dnode, Hen.
    split; [apply (sh_free _ _ _ Hs); change (IBLOCK 1) with 203; split; lia|]. split; [discriminate|]. split; [discriminate|]. intros _.
    split; [discriminate|]. split; [apply demo_searchable|exact I].
  - reflexivity.
  - apply demo_cquiet.
  - apply (booted_at_rest 4 8); [exact Hb|lia].
  - lia.
  - vm_compute. lia.
  - lia.
  - discriminate.
  - apply demo_apart.
  - exact Hen.
  - vm_compute. reflexivity.
  - reflexivity.
  - vm_compute. reflexivity.
  - intros j Hj. assert (j = 1) as -> by lia. split; [change (IBLOCK 1) with 203; split; lia|]. vm_compute. discriminate.
Qed.


(** A directory is not made like a file: create waits for itself.  When the
    new inode is in the block of its parent's, iupdate(dp) reads again the
    block that iupdate(ip) has put into the open transaction; when it is not,
    the entry ".." is looked for in the block "." was just written to. *)
Lemma mkdir_sleeps :
  stop_of (create (fun _ => None) (fun _ => None) [47; 97; 98] false T_FILE 0 0 demo_ckernel) = "returned"%string /\
  stop_of (create (fun _ => None) (fun _ => None) [47; 97; 98] false T_DIR 0 0 demo_ckernel) = "asleep"%string /\
  stop_of (create (fun _ => None) (fun _ => None) [47; 97; 98] false T_FILE 0 0 demo_mkernel) = "returned"%string /\
  stop_of (create (fun _ => None) (fun _ => None) [47; 97; 98] false T_DIR 0 0 demo_mkernel) = "asleep"%string.
Proof. split_and!; vm_compute; reflexivity. Qed.

(** icreate commits the inode in a transaction of its own: after a crash
    between the two, inode 2 is a linked file that no directory names. *)
Lemma crash_leaks_inode :
  match create (fun _ => None) (fun _ => None) [47; 97; 98] true T_FILE 0 0 demo_ckernel with
  | Ret _ k' =>
      let ws := drop (length (h_writes (bdisk demo_cblocks))) (h_writes (bdisk (kblocks k'))) in
      match pbjFSck true ROOTDEV (boot 8 (replay_writes (take 5 ws) demo_cdisk)) with
      | Ret _ b => entry (FsSt b []) (dnode (FsSt b []) 1) [97; 98] = None /\ i_type (dnode (FsSt b []) 2) = T_FILE /\ i_nlink (dnode (FsSt b []) 2) = 1
      | _ => False
      end
  | _ => False
  end.
Proof. vm_compute. split; [reflexivity|]. split; reflexivity. Qed.
