(* ===== verification/Console.v ===== *)
(** * console.c: the console

    The screen, the input buffer with its editing keys and its history, and
    what a reader of the console gets.  [input.buf] is a ring indexed by
    free-running 32-bit counters: up to [r] it has been read, up to [w] it may
    be read, up to [e] it is being edited.  Routines run with [input.lock]
    held as the source holds it.  A [char] is kept as its unsigned byte, which
    is what every use of it sends to a device or compares. *)

From S2P Require Import Prelude Layout.

Definition BACKSPACE : Z := 256.
Definition INPUT_BUF : Z := 128.
Definition HISTMAX : Z := 10.
Definition ctl (x : Z) : Z := x - 64.
Definition nl : Z := 10.
Definition ctl_D : Z := ctl 68.
Definition ctl_H : Z := ctl 72.
Definition ctl_P : Z := ctl 80.
Definition ctl_U : Z := ctl 85.
Definition KEY_UP : Z := 226.
Definition KEY_DN : Z := 227.

(** ** The screen *)

(** CGA text memory, one cell a character, and the cursor the controller
    keeps. *)
Record screen : Type := Screen { pos : Z; crt : list Z }.
Definition CELLS : nat := 2000.
Definition cell (c : Z) : Z := Z.lor (Z.land c 255) 1792.

Definition crt_set (i v : Z) : M screen unit := fun s =>
  if (0 <=? i) && (i <? Z.of_nat (length (crt s))) then Ret tt (Screen (pos s) (<[Z.to_nat i := v]> (crt s)))
  else Undef "outside the text memory" s.

(** The cells [crt[a..a+n)] set to [l]. *)
Definition crt_blit (a : Z) (l : list Z) : M screen unit := fun s =>
  if (0 <=? a) && (a + Z.of_nat (length l) <=? Z.of_nat (length (crt s)))
  then Ret tt (Screen (pos s) (splice (Z.to_nat a) l (crt s)))
  else Undef "outside the text memory" s.

Definition scroll_up (p : Z) : M screen Z :=
  let! s := get in
  crt_blit 0 (slice 80 (23 * 80) (crt s)) ;;
  let p := p - 80 in
  if 24 * 80 - p <? 0 then undef "outside the text memory"
  else crt_blit p (replicate (Z.to_nat (24 * 80 - p)) 0) ;; ret p.

Definition cga_putc (c : Z) : M screen unit :=
  let! s := get in
  let! p := (if c =? nl then ret (pos s + (80 - pos s mod 80))
             else if c =? BACKSPACE then
               if 0 <? pos s then crt_set (pos s - 1) (cell 32) ;; ret (pos s - 1) else ret (pos s)
             else crt_set (pos s) (cell c) ;; ret (pos s + 1)) in
  let! p := (if 24 <=? p / 80 then scroll_up p else ret p) in
  modify (fun s => Screen (u16 p) (crt s)) ;;
  crt_set p (cell 32).

(** ** The input buffer *)

(** [struct input], the history, what cons_putc has been given (the printer
    port and the screen get the same characters), and the wakeups of readers. *)
Record console : Type := Console {
  ibuf : list Z; ir : Z; iw : Z; ie : Z; rhist : list Z; ehist : list Z; hist : Z;
  histIndex : Z; startHistIndex : Z; out : list Z; inwakes : nat }.
Definition set_ibuf x s := Console x (ir s) (iw s) (ie s) (rhist s) (ehist s) (hist s) (histIndex s) (startHistIndex s) (out s) (inwakes s).
Definition set_ir x s := Console (ibuf s) x (iw s) (ie s) (rhist s) (ehist s) (hist s) (histIndex s) (startHistIndex s) (out s) (inwakes s).
Definition set_iw x s := Console (ibuf s) (ir s) x (ie s) (rhist s) (ehist s) (hist s) (histIndex s) (startHistIndex s) (out s) (inwakes s).
Definition set_ie x s := Console (ibuf s) (ir s) (iw s) x (rhist s) (ehist s) (hist s) (histIndex s) (startHistIndex s) (out s) (inwakes s).
Definition set_hists r e h hi s := Console (ibuf s) (ir s) (iw s) (ie s) r e h hi (startHistIndex s) (out s) (inwakes s).
Definition set_histIndex x s := Console (ibuf s) (ir s) (iw s) (ie s) (rhist s) (ehist s) (hist s) x (startHistIndex s) (out s) (inwakes s).
Definition set_startHistIndex x s := Console (ibuf s) (ir s) (iw s) (ie s) (rhist s) (ehist s) (hist s) (histIndex s) x (out s) (inwakes s).
Definition puts l s := Console (ibuf s) (ir s) (iw s) (ie s) (rhist s) (ehist s) (hist s) (histIndex s) (startHistIndex s) (out s ++ l) (inwakes s).
Definition wake_readers s := Console (ibuf s) (ir s) (iw s) (ie s) (rhist s) (ehist s) (hist s) (histIndex s) (startHistIndex s) (out s) (S (inwakes s)).

(** What console_init leaves. *)
Definition console_boot : console :=
  Console (replicate 128 0) 0 0 0 (replicate 10 4294967295) (replicate 10 0) 0 0 0 [] 0.

Definition cons_putc (c : Z) : console -> console := puts [c].

(** [input.buf[i % INPUT_BUF]], read and written. *)
Definition islot (i : Z) : nat := Z.to_nat (i mod INPUT_BUF).
Definition ring_get (s : console) (i : Z) : Z := default 0 (ibuf s !! islot i).
Definition ring_put (i c : Z) (s : console) : console := set_ibuf (<[islot i := u8 c]> (ibuf s)) s.

(** [while(input.e != input.w && input.buf[(input.e-1) % INPUT_BUF] != '\n')]:
    at most [e - w] passes. *)
Fixpoint kill_loop (fuel : nat) (s : console) : console :=
  match fuel with
  | O => s
  | S fuel =>
      if negb (ie s =? iw s) && negb (ring_get s (u32 (ie s - 1)) =? nl)
      then kill_loop fuel (cons_putc BACKSPACE (set_ie (u32 (ie s - 1)) s))
      else s
  end.
Definition kill_line (s : console) : console := kill_loop (Z.to_nat (u32 (ie s - iw s))) s.

(** [input.buf[input.e++ % INPUT_BUF] = c; cons_putc(c);] *)
Definition type_char (c : Z) (s : console) : console := cons_putc c (set_ie (u32 (ie s + 1)) (ring_put (ie s) c s)).

(** The bytes [from] up to [upto] of the ring typed again. *)
Fixpoint recall_loop (fuel : nat) (from upto : Z) (s : console) : console :=
  match fuel with
  | O => s
  | S fuel => if from <? upto then recall_loop fuel (u32 (from + 1)) upto (type_char (ring_get s from) s) else s
  end.
Definition hget (l : list Z) (i : Z) : Z := default 0 (l !! Z.to_nat i).
Definition recall (s : console) : console :=
  let from := hget (rhist s) (histIndex s) in
  let upto := u32 (hget (ehist s) (histIndex s) - 1) in
  recall_loop (Z.to_nat (upto - from)) from upto s.

Definition looping : list Z :=
  (fun a => Z.of_nat (Ascii.nat_of_ascii a)) <$> String.list_ascii_of_string "end of buffer, looping" ++ [Ascii.ascii_of_nat 10].

(** Up arrow; [rhist[histIndex] >= 0] holds of every unsigned value. *)
Definition key_up (s : console) : console :=
  let s := set_startHistIndex (histIndex s) s in
  let i := histIndex s - 1 in
  let s := set_histIndex (if i <? 0 then HISTMAX - 1 else i) s in
  if ctrue (hist s) then
    let s := kill_line s in
    let s := if hist s mod HISTMAX =? histIndex s then puts looping s else s in
    recall s
  else set_histIndex (startHistIndex s) s.

(** Down arrow *)
Definition key_dn (s : console) : console :=
  let s := set_startHistIndex (histIndex s) s in
  let i := histIndex s + 1 in
  let s := set_histIndex (if HISTMAX <=? i then 0 else i) s in
  let s := kill_line s in
  if negb (hist s mod HISTMAX =? histIndex s) then recall s else set_histIndex (startHistIndex s) s.

(** The line is handed to readers and enters the history. *)
Definition commit_line (s : console) : console :=
  let s := set_iw (ie s) s in
  let k := Z.to_nat (hist s mod HISTMAX) in
  let h := u32 (hist s + 1) in
  wake_readers (set_hists (<[k := ir s]> (rhist s)) (<[k := ie s]> (ehist s)) h (h mod HISTMAX) s).

(** One character of console_intr; [dump] is what procdump prints. *)
Definition console_char (dump : list Z) (c : Z) (s : console) : console :=
  if c =? ctl_P then puts dump s
  else if c =? ctl_U then kill_line s
  else if c =? ctl_H then
    if negb (ie s =? iw s) then cons_putc BACKSPACE (set_ie (u32 (ie s - 1)) s) else s
  else if c =? KEY_UP then key_up s
  else if c =? KEY_DN then key_dn s
  else if negb (c =? 0) && (u32 (ie s - ir s) <? INPUT_BUF) then
    let s := type_char c s in
    if (c =? nl) || (c =? ctl_D) || (ie s =? u32 (ir s + INPUT_BUF)) then commit_line s else s
  else s.

(** [cs]: the successive values of [getc()]. *)
Fixpoint console_intr (dump : list Z) (cs : list Z) (s : console) : console :=
  match cs with
  | [] => s
  | c :: cs => if c <? 0 then s else console_intr dump cs (console_char dump c s)
  end.

(** ** Reading *)

(** How a run of console_read ends: with its value and the bytes stored, or
    asleep with [n] bytes still wanted, to be resumed there. *)
Inductive cread : Type := CRet (r : Z) (l : list Z) | CSleep (n : Z) (l : list Z).
Definition cread_cons (c : Z) (r : cread) : cread :=
  match r with CRet v l => CRet v (c :: l) | CSleep n l => CSleep n (c :: l) end.

(** [while(n > 0)]: at most [n] passes.  iunlock and ilock around it are the
    caller's inode. *)
Fixpoint console_read_loop (fuel : nat) (killed : bool) (target n : Z) (s : console) : cread * console :=
  match fuel with
  | O => (CRet (target - n) [], s)
  | S fuel =>
      if ir s =? iw s then if killed then (CRet (-1) [], s) else (CSleep n [], s)
      else
        let c := ring_get s (ir s) in
        let s := set_ir (u32 (ir s + 1)) s in
        if c =? ctl_D then (CRet (target - n) [], if n <? target then set_ir (u32 (ir s - 1)) s else s)
        else if c =? nl then (CRet (target - (n - 1)) [c], s)
        else let '(r, s) := console_read_loop fuel killed target (n - 1) s in (cread_cons c r, s)
  end.
Definition console_read (killed : bool) (target n : Z) (s : console) : cread * console :=
  console_read_loop (Z.to_nat n) killed target n s.

(** console_write: [buf[i] & 0xff] for [n] bytes. *)
Definition console_write (l : list Z) (s : console) : Z * console :=
  (Z.of_nat (length l), foldl (fun s c => cons_putc (Z.land c 255) s) s l).

(** ** The line discipline the console implements

    Bytes handed to readers, and the line being edited. *)
Definition lines : Type := list Z * list Z.

Definition line_key (c : Z) (t : lines) : lines :=
  let '(q, ed) := t in
  if c =? ctl_U then (q, [])
  else if c =? ctl_H then (q, removelast ed)
  else if (c =? ctl_P) || (c =? 0) || (length q + length ed =? 128)%nat then (q, ed)
  else
    let ed := ed ++ [c] in
    if (c =? nl) || (c =? ctl_D) || (length q + length ed =? 128)%nat then (q ++ ed, []) else (q, ed).

(** The next line, at most [n] bytes of it, ended by a newline or before a
    control-D. *)
Fixpoint line_of (n : nat) (q : list Z) : list Z :=
  match n, q with
  | S n, c :: q => if c =? ctl_D then [] else if c =? nl then [c] else c :: line_of n q
  | _, _ => []
  end.

(** A read that wants [n] of [target] bytes takes what is there of the next
    line, sleeps if it has neither all it wants nor a whole line, and leaves
    a control-D that ends a line for the next read. *)
Definition line_read (killed : bool) (target n : Z) (q : list Z) : cread * list Z :=
  let l := line_of (Z.to_nat n) q in
  let left := n - Z.of_nat (length l) in
  let rest := drop (length l) q in
  if (left <=? 0) || bool_decide (last l = Some nl) then (CRet (target - left) l, rest)
  else match rest with
       | [] => (if killed then CRet (-1) l else CSleep left l, [])
       | _ :: rest' => (CRet (target - left) l, if left <? target then rest else rest')
       end.

Inductive event : Type := Key (c : Z) | Read (killed : bool) (target n : Z).
Definition event_ok (e : event) : Prop :=
  match e with Key c => 0 <= c < 256 /\ c <> KEY_UP /\ c <> KEY_DN | Read _ target n => 0 <= n <= target end.

Fixpoint console_run (dump : list Z) (evs : list event) (s : console) : list cread * console :=
  match evs with
  | [] => ([], s)
  | Key c :: evs => console_run dump evs (console_intr dump [c] s)
  | Read k target n :: evs =>
      let '(r, s) := console_read k target n s in
      let '(rs, s) := console_run dump evs s in (r :: rs, s)
  end.
Fixpoint lines_run (evs : list event) (t : lines) : list cread * lines :=
  match evs with
  | [] => ([], t)
  | Key c :: evs => lines_run evs (line_key c t)
  | Read k target n :: evs =>
      let '(r, q) := line_read k target n (fst t) in
      let '(rs, t) := lines_run evs (q, snd t) in (r :: rs, t)
  end.

(** The ring holds [q] from [r] to [w] and [ed] from [w] to [e]. *)
Definition ring (s : console) (q ed : list Z) : Prop :=
  length (ibuf s) = 128%nat /\ 0 <= ir s < u32_mod /\
  iw s = u32 (ir s + Z.of_nat (length q)) /\ ie s = u32 (ir s + Z.of_nat (length q + length ed)) /\
  (length q + length ed <= 128)%nat /\
  forall k c, (q ++ ed) !! k = Some c -> ibuf s !! islot (ir s + Z.of_nat k) = Some c.

Lemma islot_u32 x : islot (u32 x) = islot x.
Proof. unfold islot, u32. f_equal. apply Z.mod_mod_divide. exists 33554432. reflexivity. Qed.

Lemma islot_inj x j k : 0 <= j < 128 -> 0 <= k < 128 -> islot (x + j) = islot (x + k) -> j = k.
Proof.
  intros Hj Hk E. unfold islot, INPUT_BUF in E. apply Z2Nat.inj in E; [|apply Z.mod_pos_bound; lia..].
  Z.div_mod_to_equations. lia.
Qed.

Lemma islot_lt x : (islot x < 128)%nat.
Proof. unfold islot. pose proof (Z.mod_pos_bound x INPUT_BUF). unfold INPUT_BUF in *. lia. Qed.

Lemma u32_add_l x y : u32 (u32 x + y) = u32 (x + y).
Proof. apply Zplus_mod_idemp_l. Qed.

Lemma u32_sub_l x y : u32 (u32 x - y) = u32 (x - y).
Proof. apply Zminus_mod_idemp_l. Qed.

Lemma u32_diff x m n : 0 <= n <= m -> m < u32_mod -> u32 (u32 (x + m) - u32 (x + n)) = m - n.
Proof.
  intros Hn Hm. rewrite u32_sub_l. unfold u32. rewrite Zminus_mod_idemp_r. replace (x + m - (x + n)) with (m - n) by lia.
  apply Z.mod_small. lia.
Qed.

Lemma u32_eqb x m n : 0 <= n <= m -> m < u32_mod -> (u32 (x + m) =? u32 (x + n)) = (m =? n).
Proof.
  intros Hn Hm. pose proof (u32_diff x m n Hn Hm) as D. destruct (Z.eqb_spec m n) as [->|Hne]; [apply Z.eqb_refl|].
  apply Z.eqb_neq. intros E. rewrite E, Z.sub_diag in D. change (u32 0) with 0 in D. lia.
Qed.

Section ring.
Context (s : console) (q ed : list Z).
Hypothesis Hring : ring s q ed.

Lemma ring_used : u32 (ie s - ir s) = Z.of_nat (length q + length ed).
Proof.
  destruct Hring as (_ & Hr & _ & -> & Hl & _). rewrite <-(u32_small (ir s)) at 2 by done.
  rewrite <-(Z.add_0_r (ir s)) at 2. rewrite u32_diff by (unfold u32_mod; lia). lia.
Qed.

Lemma ring_edit_empty : (ie s =? iw s) = (length ed =? 0)%nat.
Proof.
  destruct Hring as (_ & Hr & -> & -> & Hl & _). rewrite u32_eqb by (unfold u32_mod; lia).
  destruct (Z.eqb_spec (Z.of_nat (length q + length ed)) (Z.of_nat (length q))), (Nat.eqb_spec (length ed) 0); lia || done.
Qed.

Lemma ring_queue_empty : (ir s =? iw s) = (length q =? 0)%nat.
Proof.
  destruct Hring as (_ & Hr & -> & _ & Hl & _). rewrite Z.eqb_sym. rewrite <-(u32_small (ir s)) at 2 by done.
  rewrite <-(Z.add_0_r (ir s)) at 2. rewrite u32_eqb by (unfold u32_mod; lia).
  destruct (Z.eqb_spec (Z.of_nat (length q)) 0), (Nat.eqb_spec (length q) 0); lia || done.
Qed.

Lemma ring_type c : (length q + length ed < 128)%nat -> 0 <= c < 256 -> ring (type_char c s) q (ed ++ [c]).
Proof.
  intros Hroom Hc. destruct Hring as (Hlen & Hr & Hw & He & Hl & Hget). unfold ring. cbn.
  rewrite length_insert, length_app. cbn [length]. split_and!; [done|lia|lia|done| |lia|].
  - rewrite He, u32_add_l. f_equal. lia.
  - intros k x Hk. rewrite app_assoc in Hk. rewrite He, islot_u32.
    assert (Hu : u8 c = c) by (apply Z.mod_small; lia). rewrite Hu.
    destruct (decide (k < length (q ++ ed))%nat) as [Hlt|Hge].
    + rewrite lookup_app_l in Hk by done. rewrite length_app in Hlt. rewrite list_lookup_insert_ne; [by apply Hget|].
      intros E. apply islot_inj in E; lia.
    + rewrite lookup_app_r in Hk by lia. apply list_lookup_singleton_Some in Hk as [Hk <-]. rewrite length_app in *.
      replace k with (length q + length ed)%nat by lia. apply list_lookup_insert_eq. rewrite Hlen. apply islot_lt.
Qed.

Lemma ring_commit : ring (commit_line s) (q ++ ed) [].
Proof.
  destruct Hring as (Hlen & Hr & Hw & He & Hl & Hget). unfold ring. cbn. rewrite length_app, Nat.add_0_r, app_nil_r.
  split_and!; [done|lia|lia|done|done|lia|done].
Qed.
End ring.

Lemma ring_erase s q ed c : ring s q (ed ++ [c]) ->
  ring (set_ie (u32 (ie s - 1)) s) q ed /\ ring_get s (u32 (ie s - 1)) = c.
Proof.
  intros (Hlen & Hr & Hw & He & Hl & Hget). rewrite length_app in *. cbn [length] in *.
  assert (E : u32 (ie s - 1) = u32 (ir s + Z.of_nat (length q + length ed))) by (rewrite He, u32_sub_l; f_equal; lia).
  split.
  - unfold ring. cbn. split_and!; [done|lia|lia|done|done|lia|]. intros k x Hk. apply Hget. rewrite app_assoc.
    by apply lookup_app_l_Some.
  - unfold ring_get. rewrite E, islot_u32, (Hget (length q + length ed)%nat c); [done|].
    rewrite app_assoc, lookup_app_r, length_app by (rewrite length_app; lia). by rewrite Nat.sub_diag.
Qed.

Lemma ring_pop s c q ed : ring s (c :: q) ed ->
  ring_get s (ir s) = c /\ ring (set_ir (u32 (ir s + 1)) s) q ed /\
  set_ir (u32 (u32 (ir s + 1) - 1)) (set_ir (u32 (ir s + 1)) s) = s.
Proof.
  intros (Hlen & Hr & Hw & He & Hl & Hget). cbn [length] in *. split_and!.
  - pose proof (Hget O c eq_refl) as H0. rewrite Z.add_0_r in H0. unfold ring_get. by rewrite H0.
  - unfold ring. cbn. split_and!; [done|apply u32_range|apply u32_range| | |lia|].
    + rewrite u32_add_l, Hw. f_equal. lia.
    + rewrite u32_add_l, He. f_equal. lia.
    + intros k x Hk. specialize (Hget (S k) x Hk). rewrite <-islot_u32, u32_add_l, islot_u32.
      replace (ir s + 1 + Z.of_nat k) with (ir s + Z.of_nat (S k)) by lia. done.
  - rewrite u32_sub_l. replace (ir s + 1 - 1) with (ir s) by lia. rewrite u32_small by done. by destruct s.
Qed.

Lemma kill_loop_ring ed s q :
  ring s q ed -> Forall (fun c => c <> nl) ed -> ring (kill_loop (length ed) s) q [].
Proof.
  revert s. induction ed as [|c ed IH] using rev_ind; intros s Hr Hnl; [done|].
  pose proof (ring_edit_empty _ _ _ Hr) as Ee. destruct (ring_erase _ _ _ _ Hr) as [Hr' Eg].
  apply Forall_app in Hnl as [Hnl Hc]. rewrite Forall_singleton in Hc.
  rewrite length_app in *. cbn [length] in *. rewrite Nat.add_1_r in *. cbn [kill_loop].
  rewrite Ee, Eg. cbn [Nat.eqb negb andb]. rewrite (proj2 (Z.eqb_neq c nl)) by done. by apply IH.
Qed.

Lemma console_char_refines dump c s q ed :
  event_ok (Key c) -> ring s q ed -> Forall (fun c => c <> nl) ed ->
  let '(q', ed') := line_key c (q, ed) in
  ring (console_char dump c s) q' ed' /\ Forall (fun c => c <> nl) ed'.
Proof.
  intros (Hc & Hup & Hdn) Hr Hnl. unfold console_char, line_key. pose proof (ring_used _ _ _ Hr) as Hu.
  destruct (Z.eqb_spec c ctl_P) as [->|HP]; [done|].
  destruct (Z.eqb_spec c ctl_U) as [->|HU].
  { split; [|done]. unfold kill_line. destruct Hr as (H1 & H2 & H3 & H4 & H5 & H6) eqn:E. clear E.
    rewrite H3, H4, u32_diff by (unfold u32_mod; lia). replace (Z.to_nat _) with (length ed) by lia. by apply kill_loop_ring. }
  destruct (Z.eqb_spec c ctl_H) as [->|HH].
  { rewrite (ring_edit_empty _ _ _ Hr). destruct ed as [|x ed _] using rev_ind; [done|].
    rewrite length_app, Nat.add_1_r, removelast_last. cbn [Nat.eqb negb]. apply Forall_app in Hnl as [Hnl _].
    split; [|done]. apply (ring_erase _ _ _ _ Hr). }
  rewrite (proj2 (Z.eqb_neq c KEY_UP)), (proj2 (Z.eqb_neq c KEY_DN)) by done. cbn [orb].
  destruct (Z.eqb_spec c 0) as [->|H0]; [done|]. cbn [negb andb orb]. rewrite Hu. unfold INPUT_BUF at 1.
  destruct (Z.ltb_spec (Z.of_nat (length q + length ed)) 128) as [Hlt|Hge].
  2: { assert (Hf : (length q + length ed = 128)%nat) by (destruct Hr as (_ & _ & _ & _ & Hl & _); lia).
       by rewrite Hf. }
  rewrite (proj2 (Nat.eqb_neq (length q + length ed) 128)) by lia.
  pose proof (ring_type _ _ _ Hr c ltac:(lia) Hc) as Ht. pose proof (ring_commit _ _ _ Ht) as Hcm.
  assert (Hfull : (ie (type_char c s) =? u32 (ir (type_char c s) + INPUT_BUF)) = (length q + length (ed ++ [c]) =? 128)%nat).
  { destruct Ht as (_ & _ & _ & -> & Hl & _). rewrite Z.eqb_sym, u32_eqb by (unfold INPUT_BUF, u32_mod; lia). unfold INPUT_BUF.
    destruct (Z.eqb_spec 128 (Z.of_nat (length q + length (ed ++ [c])))), (Nat.eqb_spec (length q + length (ed ++ [c])) 128); lia || done. }
  rewrite Hfull. destruct (Z.eqb_spec c nl) as [->|Hn]; cbn [orb]; [done|].
  destruct (_ || _); [done|]. split; [done|]. apply Forall_app. by rewrite Forall_singleton.
Qed.

Lemma line_of_length n q : (length (line_of n q) <= n)%nat.
Proof. revert q. induction n as [|n IH]; intros [|c q]; simpl; try lia. repeat zcase; simpl; try lia. specialize (IH q). lia. Qed.

(** One byte further, the rest of the read is the same. *)
Lemma line_read_cons killed target n c q :
  0 < n -> c <> ctl_D -> c <> nl ->
  line_read killed target n (c :: q) =
  let '(r, q') := line_read killed target (n - 1) q in (cread_cons c r, q').
Proof.
  intros Hn HD Hnl. unfold line_read. replace (Z.to_nat n) with (S (Z.to_nat (n - 1))) by lia. cbn [line_of].
  rewrite (proj2 (Z.eqb_neq c ctl_D)), (proj2 (Z.eqb_neq c nl)) by done. set (l := line_of _ q).
  cbn [length drop]. replace (n - Z.of_nat (S (length l))) with (n - 1 - Z.of_nat (length l)) by lia.
  assert (Hlast : bool_decide (last (c :: l) = Some nl) = bool_decide (last l = Some nl)).
  { apply bool_decide_ext. destruct l; [|done]. simpl. split; [intros [= ->]|]; done. }
  rewrite Hlast. destruct (_ || _); [done|]. destruct (drop (length l) q); [by destruct killed|done].
Qed.

Lemma console_read_refines killed target n s q ed :
  0 <= n <= target -> ring s q ed ->
  let '(r, s') := console_read killed target n s in
  let '(r', q') := line_read killed target n q in r = r' /\ ring s' q' ed.
Proof.
  unfold console_read. remember (Z.to_nat n) as f eqn:Ef. revert n q s Ef.
  induction f as [|f IH]; intros n q s Ef Hn Hr; cbn [console_read_loop].
  { assert (n = 0) as -> by lia. unfold line_read. simpl. done. }
  rewrite (ring_queue_empty _ _ _ Hr). destruct q as [|c q]; cbn [length Nat.eqb].
  { unfold line_read. rewrite <-Ef. cbn [line_of length drop]. change (Z.of_nat 0) with 0. rewrite Z.sub_0_r.
    destruct (Z.leb_spec n 0); [lia|]. by destruct killed. }
  destruct (ring_pop _ _ _ _ Hr) as (Eg & Hr' & Eback). rewrite Eg.
  destruct (Z.eqb_spec c ctl_D) as [->|HD].
  { unfold line_read. rewrite <-Ef. cbn [line_of]. rewrite Z.eqb_refl. cbn [length drop]. change (Z.of_nat 0) with 0. rewrite Z.sub_0_r.
    destruct (Z.leb_spec n 0); [lia|]. split; [done|]. destruct (Z.ltb_spec n target); [|done]. rewrite <-Eback in Hr. exact Hr. }
  destruct (Z.eqb_spec c nl) as [->|Hnl].
  { unfold line_read. rewrite <-Ef. cbn [line_of]. rewrite Z.eqb_refl. cbn. rewrite orb_true_r. done. }
  rewrite line_read_cons by (lia || done). specialize (IH (n - 1) q _ ltac:(lia) ltac:(lia) Hr').
  destruct (console_read_loop f killed target (n - 1) _) as [r s']. destruct (line_read killed target (n - 1) q) as [r' q'].
  destruct IH as [-> IH]. done.
Qed.

(** C18: the console is a line editor.  Whatever keys are typed (the two history
    keys apart) and whatever reads are made, in whatever order, readers of the
    console get exactly what the line discipline gives them: typed bytes in
    order, erasing undone before a line is ended, a line at a time, at most
    INPUT_BUF bytes held; and the ring buffer with its wrapping counters
    always holds the discipline's state. *)
Theorem console_refines (dump : list Z) (evs : list event) :
  Forall event_ok evs ->
  let '(rs, s) := console_run dump evs console_boot in
  let '(rs', (q, ed)) := lines_run evs ([], []) in
  rs = rs' /\ ring s q ed.
Proof.
  assert (Hboot : ring console_boot [] []) by (unfold ring; split_and!; done || (cbn; lia)).
  revert Hboot. generalize console_boot. assert (Hnl : Forall (fun c => c <> nl) []) by constructor. revert Hnl.
  generalize (@nil Z) at 1 3 5. generalize (@nil Z). induction evs as [|[c|k target n] evs IH]; intros q ed Hnl s Hr Hok; [done| |];
    apply Forall_cons in Hok as [He Hok]; cbn [console_run lines_run].
  - pose proof (console_char_refines dump c s q ed He Hr Hnl) as Hc. cbn [console_intr].
    destruct (Z.ltb_spec c 0); [destruct He as [? _]; lia|]. destruct (line_key c (q, ed)) as [q' ed'].
    destruct Hc as [Hr' Hnl']. by apply IH.
  - pose proof (console_read_refines k target n s q ed He Hr) as Hrd. cbn [fst snd].
    destruct (console_read k target n s) as [r s'], (line_read k target n q) as [r' q']. destruct Hrd as [-> Hr'].
    specialize (IH q' ed Hnl s' Hr' Hok). destruct (console_run dump evs s') as [rs s''].
    destruct (lines_run evs (q', ed)) as [rs' [q'' ed'']]. destruct IH as [-> IH]. done.
Qed.

(** "lz", backspace, "s", newline; then a read of 100 bytes. *)
Definition demo_keys : list event := [Key 108; Key 122; Key 8; Key 115; Key 10; Read false 100 100].

Lemma console_refines_witness :
  fst (console_run [] demo_keys console_boot) = [CRet 3 [108; 115; 10]].
Proof.
  pose proof (console_refines [] demo_keys) as H.
  destruct (console_run [] demo_keys console_boot) as [rs s]. cbn [fst].
  change (lines_run demo_keys ([], [])) with ([CRet 3 [108; 115; 10]], ([], []) : lines) in H.
  apply H. repeat constructor; done.
Defined.

(** The up arrow copies a line of the history without looking for room: with
    100 bytes not yet read it overwrites them, and the reader gets others. *)
Definition demo_line : list Z := (fun i => 33 + Z.of_nat i mod 90) <$> seq 0 99.
Definition demo_unread : console := console_intr [] (demo_line ++ [nl]) console_boot.
Lemma recall_overwrites_unread :
  fst (console_read false 100 100 demo_unread) = CRet 100 (demo_line ++ [nl]) /\
  fst (console_read false 2 2 demo_unread) = CRet 2 [33; 34] /\
  fst (console_read false 2 2 (console_char [] KEY_UP demo_unread)) = CRet 2 [61; 62].
Proof. by vm_compute. Qed.

(** ** The screen stays in its memory *)

Definition screen_ok (s : screen) : Prop := 0 <= pos s < 2000 /\ length (crt s) = CELLS.

Lemma crt_set_ret i v s : 0 <= i < Z.of_nat (length (crt s)) ->
  crt_set i v s = Ret tt (Screen (pos s) (<[Z.to_nat i := v]> (crt s))).
Proof. intros H. unfold crt_set. destruct (Z.leb_spec 0 i); [|lia]. by destruct (Z.ltb_spec i (Z.of_nat (length (crt s)))); [|lia]. Qed.

Lemma crt_blit_ret a l s : 0 <= a -> a + Z.of_nat (length l) <= Z.of_nat (length (crt s)) ->
  crt_blit a l s = Ret tt (Screen (pos s) (splice (Z.to_nat a) l (crt s))) /\
  length (splice (Z.to_nat a) l (crt s)) = length (crt s).
Proof.
  intros Ha Hl. unfold crt_blit. destruct (Z.leb_spec 0 a); [|lia]. destruct (Z.leb_spec (a + Z.of_nat (length l)) (Z.of_nat (length (crt s)))); [|lia].
  split; [done|]. apply length_splice. lia.
Qed.

Lemma scroll_up_ok p s : 1920 <= p <= 2000 -> length (crt s) = CELLS ->
  exists s', scroll_up p s = Ret (p - 80) s' /\ pos s' = pos s /\ length (crt s') = CELLS.
Proof.
  intros Hp Hl. unfold CELLS in *. assert (Hsl : length (slice 80 (23 * 80) (crt s)) = 1840%nat).
  { unfold slice. rewrite length_take, length_drop. lia. }
  destruct (crt_blit_ret 0 (slice 80 (23 * 80) (crt s)) s) as [E1 L1]; [lia|lia|].
  unfold scroll_up, bind, get. rewrite E1. destruct (Z.ltb_spec (24 * 80 - (p - 80)) 0); [lia|].
  set (s1 := Screen _ _). assert (Hs1 : length (crt s1) = 2000%nat) by (cbn [s1 crt]; lia).
  destruct (crt_blit_ret (p - 80) (replicate (Z.to_nat (24 * 80 - (p - 80))) 0) s1) as [E2 L2]; [lia|rewrite length_replicate; lia|].
  rewrite E2. eexists. split; [done|]. split; [done|]. cbn [crt] in *. congruence.
Qed.

Lemma wp_crt_set i v s (Q : unit -> screen -> Prop) :
  0 <= i < Z.of_nat (length (crt s)) -> Q tt (Screen (pos s) (<[Z.to_nat i := v]> (crt s))) -> wp (crt_set i v) s Q.
Proof. intros Hi HQ. unfold wp. by rewrite crt_set_ret. Qed.

Lemma cga_putc_ok c s : screen_ok s -> wp (cga_putc c) s (fun _ s' => screen_ok s').
Proof.
  intros [Hp Hl]. unfold cga_putc. wp_steps.
  apply (wp_mono _ _ (fun p s' => 0 <= p <= 2000 /\ length (crt s') = CELLS)).
  - unfold CELLS in *. destruct (c =? nl); [wp_steps; split; [Z.div_mod_to_equations; lia|done]|].
    destruct (c =? BACKSPACE); [destruct (Z.ltb_spec 0 (pos s)); [|wp_steps; split; [lia|done]]|];
      wp_steps; (apply wp_crt_set; [lia|]); wp_steps; cbn [crt]; rewrite length_insert; (split; [lia|done]).
  - intros p s1 [Hp1 Hl1]. wp_steps. apply (wp_mono _ _ (fun p s' => 0 <= p < 2000 /\ length (crt s') = CELLS)).
    + destruct (Z.leb_spec 24 (p / 80)) as [Hs|Hs]; [|wp_steps; split; [Z.div_mod_to_equations; lia|done]].
      assert (1920 <= p) by (Z.div_mod_to_equations; lia).
      destruct (scroll_up_ok p s1) as (s2 & E & _ & Hl2); [lia|done|].
      unfold wp. rewrite E. split; [lia|done].
    + intros p2 s2 [Hp2 Hl2]. wp_steps. apply wp_crt_set; cbn [crt pos]; [unfold CELLS in *; lia|].
      split; cbn [pos crt]; [unfold u16; rewrite Z.mod_small; lia|by rewrite length_insert].
Qed.

Lemma cga_putc_plain c s : screen_ok s -> c <> nl -> c <> BACKSPACE -> pos s + 1 < 1920 ->
  cga_putc c s = Ret tt (Screen (pos s + 1) (<[Z.to_nat (pos s + 1) := cell 32]> (<[Z.to_nat (pos s) := cell c]> (crt s)))).
Proof.
  intros [Hp Hl] Hn Hb Hroom. unfold CELLS in *. unfold cga_putc, bind, get, modify.
  rewrite (proj2 (Z.eqb_neq c nl)), (proj2 (Z.eqb_neq c BACKSPACE)) by done. rewrite crt_set_ret by lia. unfold ret.
  destruct (Z.leb_spec 24 ((pos s + 1) / 80)); [Z.div_mod_to_equations; lia|].
  rewrite crt_set_ret by (cbn [crt]; rewrite length_insert; lia). cbn [pos crt]. unfold u16. by rewrite Z.mod_small by lia.
Qed.

(** C39: output stays on the screen.  Whatever characters are printed, the
    driver writes only inside the 80 by 25 cells of the text memory and leaves
    the cursor there, scrolling when it must; and a text without newlines that
    fits before the last row appears at the cursor, in order, what is before
    the cursor being left as it was. *)
Theorem screen_shows (cs : list Z) (s : screen) :
  screen_ok s ->
  wp (mfor cs cga_putc) s (fun _ s' => screen_ok s' /\
    (Forall (fun c => c <> nl /\ c <> BACKSPACE) cs -> pos s + Z.of_nat (length cs) < 1920 ->
     pos s' = pos s + Z.of_nat (length cs) /\
     (forall k c, cs !! k = Some c -> crt s' !! (Z.to_nat (pos s) + k)%nat = Some (cell c)) /\
     forall k, (k < Z.to_nat (pos s))%nat -> crt s' !! k = crt s !! k)).
Proof.
  revert s. induction cs as [|c cs IH]; intros s Hs; cbn [mfor].
  { wp_steps. split; [done|]. intros _ _. cbn [length]. split_and!; [lia|done|done]. }
  apply wp_bind. pose proof (cga_putc_ok c s Hs) as Hok. unfold wp in Hok |- *.
  destruct (cga_putc c s) as [[] s1| | | |] eqn:E; try done. specialize (IH s1 Hok). unfold wp in IH.
  destruct (mfor cs cga_putc s1) as [[] s2| | | |]; try done. destruct IH as [Hs2 IH]. split; [done|].
  intros [[Hn Hb] Hcs]%Forall_cons Hroom. cbn [length] in Hroom. destruct Hs as [Hp Hl].
  rewrite cga_putc_plain in E by (done || lia). injection E as <-. cbn [pos crt] in IH.
  destruct (IH Hcs ltac:(lia)) as (Hpos & Hshow & Hkeep). cbn [length]. split_and!; [lia| |].
  - intros [|k] x Hk.
    + injection Hk as <-. rewrite Nat.add_0_r, Hkeep by lia. rewrite list_lookup_insert_ne by lia.
      apply list_lookup_insert_eq. unfold CELLS in Hl. lia.
    + replace (Z.to_nat (pos s) + S k)%nat with (Z.to_nat (pos s + 1) + k)%nat by lia. by apply Hshow.
  - intros k Hk. rewrite Hkeep by lia. by rewrite !list_lookup_insert_ne by lia.
Qed.

Lemma screen_shows_witness :
  wp (mfor [104; 105] cga_putc) (Screen 80 (replicate 2000 0)) (fun _ s => pos s = 82 /\ crt s !! 81%nat = Some 1897).
Proof.
  eapply wp_mono; [apply (screen_shows [104; 105]); split; [cbn [pos]; lia|reflexivity]|].
  intros [] s [_ H]. destruct H as (Hpos & Hc & _); [repeat constructor; done|cbn [pos length]; lia|].
  split; [exact Hpos|]. exact (Hc 1%nat 105 eq_refl).
Defined.
