(* ===== verification/Kbd.v ===== *)
(** * kbd.c: the keyboard

    The scan codes of the keyboard turned into characters, and typing seen
    from the keyboard to the reader of the console. *)

From S2P Require Import Prelude Layout Console.

Definition SHIFT : Z := 1.
Definition CTL : Z := 2.
Definition ALT : Z := 4.
Definition CAPSLOCK : Z := 8.
Definition NUMLOCK : Z := 16.
Definition SCROLLLOCK : Z := 32.
Definition E0ESC : Z := 64.

(** ** Tables *)

(** An array of 256 bytes given by its first elements and by designated ones. *)
Definition table (l : list Z) (des : list (nat * Z)) : list Z :=
  foldl (fun t '(i, v) => <[i := u8 v]> t) ((u8 <$> l) ++ replicate (256 - length l) 0) des.

Definition shiftcode : list Z := table [] [(29%nat, CTL); (42%nat, SHIFT); (54%nat, SHIFT); (56%nat, ALT); (157%nat, CTL); (184%nat, ALT)].
Definition togglecode : list Z := table [] [(58%nat, CAPSLOCK); (69%nat, NUMLOCK); (70%nat, SCROLLLOCK)].

Definition keypad_n : list (nat * Z) := [(156%nat, 10); (181%nat, 47); (200%nat, 226); (208%nat, 227); (201%nat, 230); (209%nat, 231); (203%nat, 228); (205%nat, 229); (151%nat, 224); (207%nat, 225); (210%nat, 232); (211%nat, 233)].
Definition keypad_c : list (nat * Z) := [(156%nat, 13); (181%nat, -17); (200%nat, 226); (208%nat, 227); (201%nat, 230); (209%nat, 231); (203%nat, 228); (205%nat, 229); (151%nat, 224); (207%nat, 225); (210%nat, 232); (211%nat, 233)].
Definition normalmap : list Z := table
  [0; 27; 49; 50; 51; 52; 53; 54; 55; 56; 57; 48; 45; 61; 8; 9;
   113; 119; 101; 114; 116; 121; 117; 105; 111; 112; 91; 93; 10; 0; 97; 115;
   100; 102; 103; 104; 106; 107; 108; 59; 39; 96; 0; 92; 122; 120; 99; 118;
   98; 110; 109; 44; 46; 47; 0; 42; 0; 32; 0; 0; 0; 0; 0; 0;
   0; 0; 0; 0; 0; 0; 0; 55; 56; 57; 45; 52; 53; 54; 43; 49;
   50; 51; 48; 46; 0; 0; 0; 0] keypad_n.

Definition shiftmap : list Z := table
  [0; 27; 33; 64; 35; 36; 37; 94; 38; 42; 40; 41; 95; 43; 8; 9;
   81; 87; 69; 82; 84; 89; 85; 73; 79; 80; 123; 125; 10; 0; 65; 83;
   68; 70; 71; 72; 74; 75; 76; 58; 34; 126; 0; 124; 90; 88; 67; 86;
   66; 78; 77; 60; 62; 63; 0; 42; 0; 32; 0; 0; 0; 0; 0; 0;
   0; 0; 0; 0; 0; 0; 0; 55; 56; 57; 45; 52; 53; 54; 43; 49;
   50; 51; 48; 46; 0; 0; 0; 0] keypad_n.

Definition ctlmap : list Z := table
  [0; 0; 0; 0; 0; 0; 0; 0; 0; 0; 0; 0; 0; 0; 0; 0;
   17; 23; 5; 18; 20; 25; 21; 9; 15; 16; 0; 0; 13; 0; 1; 19;
   4; 6; 7; 8; 10; 11; 12; 0; 0; 0; 0; 28; 26; 24; 3; 22;
   2; 14; 13; 0; 0; (-17); 0; 0] keypad_c.
Definition charcode : list (list Z) := [normalmap; shiftmap; ctlmap; ctlmap].

Definition at_ (l : list Z) (i : Z) : Z := default 0 (l !! Z.to_nat i).

(** ** kbd_getc *)

(** The character of a byte from the data port, and the new [shift]. *)
Definition kbd_byte (shift data : Z) : Z * Z :=
  if data =? 224 then (0, Z.lor shift E0ESC)
  else if ctrue (Z.land data 128) then
    let data := if ctrue (Z.land shift E0ESC) then data else Z.land data 127 in
    (0, Z.land shift (Z.lnot (Z.lor (at_ shiftcode data) E0ESC)))
  else
    let '(data, shift) := if ctrue (Z.land shift E0ESC) then (Z.lor data 128, Z.land shift (Z.lnot E0ESC)) else (data, shift) in
    let shift := Z.lor shift (at_ shiftcode data) in
    let shift := Z.lxor shift (at_ togglecode data) in
    let c := at_ (default [] (charcode !! Z.to_nat (Z.land shift (Z.lor CTL SHIFT)))) data in
    let c := if ctrue (Z.land shift CAPSLOCK) then
               if (97 <=? c) && (c <=? 122) then c + (65 - 97)
               else if (65 <=? c) && (c <=? 90) then c + (97 - 65) else c
             else c in
    (c, shift).

(** The controller's data: the bytes it will deliver; -1 when it has none. *)
Definition kbd_getc (shift : Z) (port : list Z) : Z * Z * list Z :=
  match port with
  | [] => (-1, shift, [])
  | data :: port => let '(c, shift) := kbd_byte shift data in (c, shift, port)
  end.

(** The values of successive calls, up to the first -1. *)
Fixpoint kbd_chars (shift : Z) (port : list Z) : list Z * Z :=
  match port with
  | [] => ([fst (fst (kbd_getc shift port))], shift)
  | _ :: rest =>
      let '(c, shift, _) := kbd_getc shift port in
      let '(cs, shift) := kbd_chars shift rest in (c :: cs, shift)
  end.

(** kbd_intr: console_intr calls kbd_getc until it returns -1. *)
Definition kbd_intr (dump : list Z) (port : list Z) (s : Z * console) : Z * console :=
  let '(shift, c) := s in
  let '(cs, shift) := kbd_chars shift port in (shift, console_intr dump cs c).

(** ** Typing a line *)

(** The scan codes of pressing and releasing the key of a character, with the
    shift key held where the character needs it. *)
Fixpoint position (c : Z) (i : nat) (l : list Z) : option nat :=
  match l with
  | [] => None
  | x :: l => if x =? c then Some i else position c (S i) l
  end.
Definition strokes (c : Z) : list Z :=
  match position c 0 (take 128 normalmap) with
  | Some i => [Z.of_nat i; Z.of_nat i + 128]
  | None =>
      match position c 0 (take 128 shiftmap) with
      | Some i => [42; Z.of_nat i; Z.of_nat i + 128; 170]
      | None => []
      end
  end.

Definition typeable (c : Z) : Prop := 32 <= c <= 126 \/ c = nl.

(** From an idle keyboard, the strokes of a character give it and zeros, and
    leave the keyboard idle. *)
Definition decodes (c : Z) : bool :=
  let '(cs, shift) := kbd_chars 0 (strokes c) in
  (shift =? 0) && bool_decide (last cs = Some (-1)) && forallb (Z.leb 0) (removelast cs) &&
  bool_decide (filter (fun x => x <> 0) (removelast cs) = [c]).

Lemma all_decode : forallb decodes (nl :: ((fun i => 32 + Z.of_nat i) <$> seq 0 95)) = true.
Proof. by vm_compute. Qed.

Lemma strokes_decode c : typeable c ->
  exists cs, kbd_chars 0 (strokes c) = (cs ++ [-1], 0) /\ Forall (fun x => 0 <= x) cs /\ filter (fun x => x <> 0) cs = [c].
Proof.
  intros Hc. assert (Hd : decodes c = true).
  { pose proof all_decode as Ha. rewrite forallb_forall in Ha. apply Ha. destruct Hc as [Hc| ->]; [right|by left].
    apply list_elem_of_In, list_elem_of_fmap. exists (Z.to_nat (c - 32)). split; [lia|]. apply elem_of_seq. lia. }
  unfold decodes in Hd. destruct (kbd_chars 0 (strokes c)) as [cs sh]. rewrite !andb_true_iff, !bool_decide_eq_true in Hd.
  destruct Hd as [[[Hsh Hl] Hpos] Hf]. exists (removelast cs). apply Z.eqb_eq in Hsh as ->. split_and!.
  - f_equal. apply last_Some in Hl as [l ->]. by rewrite removelast_last.
  - rewrite forallb_forall in Hpos. apply Forall_forall. intros x Hx%list_elem_of_In. by apply Z.leb_le, Hpos.
  - done.
Qed.

Lemma kbd_chars_app p1 p2 sh cs1 sh1 cs2 sh2 :
  kbd_chars sh p1 = (cs1 ++ [-1], sh1) -> kbd_chars sh1 p2 = (cs2, sh2) -> kbd_chars sh (p1 ++ p2) = (cs1 ++ cs2, sh2).
Proof.
  revert sh cs1. induction p1 as [|d p1 IH]; intros sh cs1 H1 H2; cbn in H1 |- *.
  { injection H1 as H1 <-. destruct cs1 as [|x cs1]; [by rewrite H2|]. injection H1 as _ H1. by destruct cs1. }
  destruct (kbd_byte sh d) as [c sh0]. destruct (kbd_chars sh0 p1) as [cs sh'] eqn:E. injection H1 as H1 ->.
  destruct cs1 as [|x cs1].
  - injection H1 as -> ->. exfalso. clear -E. destruct p1; cbn in E; [done|].
    destruct (kbd_byte sh0 z) as [? ?]. destruct (kbd_chars z1 p1). done.
  - injection H1 as -> ->. by rewrite (IH _ _ E H2).
Qed.

(** The strokes of a text decode to it. *)
Lemma text_decode text : Forall typeable text ->
  exists cs, kbd_chars 0 (flat_map strokes text) = (cs ++ [-1], 0) /\ Forall (fun x => 0 <= x) cs /\
    filter (fun x => x <> 0) cs = text.
Proof.
  induction 1 as [|c text Hc _ (cs & E & Hpos & Hf)]; [by exists []|]. cbn [flat_map].
  destruct (strokes_decode c Hc) as (cs1 & E1 & Hpos1 & Hf1). exists (cs1 ++ cs).
  rewrite (kbd_chars_app _ _ _ _ _ _ _ E1 E), app_assoc. split; [done|]. split; [by apply Forall_app|].
  by rewrite filter_app, Hf1, Hf.
Qed.

(** The console ignores zeros. *)
Lemma console_intr_filter dump cs s : Forall (fun x => 0 <= x) cs ->
  console_intr dump (cs ++ [-1]) s = foldl (fun s c => console_char dump c s) s (filter (fun x => x <> 0) cs).
Proof.
  intros H. revert s. induction H as [|c cs Hc _ IH]; intros s; [done|]. cbn [app console_intr].
  destruct (Z.ltb_spec c 0); [lia|]. rewrite IH. destruct (decide (c = 0)) as [->|Hne].
  - by rewrite filter_cons_False by tauto.
  - by rewrite filter_cons_True.
Qed.

Definition printable (c : Z) : Prop := 32 <= c <= 126.

Lemma type_text dump text s q ed : Forall printable text -> (length q + length ed + length text < 128)%nat ->
  ring s q ed -> Forall (fun c => c <> nl) ed ->
  ring (foldl (fun s c => console_char dump c s) s text) q (ed ++ text) /\ Forall (fun c => c <> nl) (ed ++ text).
Proof.
  intros Ht. revert s ed. induction Ht as [|c text Hc _ IH]; intros s ed Hroom Hr Hnl; cbn [foldl length] in *.
  { by rewrite app_nil_r. }
  unfold printable in Hc. assert (Hne : forall x, x < 32 \/ 126 < x -> (c =? x) = false) by (intros; apply Z.eqb_neq; lia).
  pose proof (console_char_refines dump c s q ed) as Hk. unfold line_key, nl, ctl_D, ctl_U, ctl_H, ctl_P, ctl in Hk.
  rewrite !Hne in Hk by lia. rewrite !(proj2 (Nat.eqb_neq _ _)) in Hk by (rewrite ?length_app; simpl; lia). cbn [orb] in Hk.
  destruct Hk as [Hr' Hnl']; [unfold event_ok, KEY_UP, KEY_DN; lia|done|done|].
  rewrite cons_middle, app_assoc. apply IH; [rewrite length_app; simpl; lia|done|done].
Qed.

Lemma line_of_text n text : Forall printable text -> (length text < n)%nat -> line_of n (text ++ [nl]) = text ++ [nl].
Proof.
  intros Ht. revert n. induction Ht as [|c text Hc _ IH]; intros [|n] Hn; cbn [length] in Hn; try lia; [done|].
  cbn [app line_of]. unfold printable in Hc. rewrite (proj2 (Z.eqb_neq c ctl_D)), (proj2 (Z.eqb_neq c nl)) by (unfold ctl_D, ctl, nl; lia).
  by rewrite IH by lia.
Qed.

(** What is typed is what is read.  A line of up to 127 printable
    characters typed on an idle keyboard, key by key with the shift key where
    needed and ended with the return key, is what the next read of the console
    returns, and the keyboard is idle again. *)
Theorem typed_line_read (dump text : list Z) (n : Z) (s : console) :
  ring s [] [] -> Forall printable text -> (length text < 128)%nat -> Z.of_nat (length text) < n ->
  let '(shift, s') := kbd_intr dump (flat_map strokes (text ++ [nl])) (0, s) in
  shift = 0 /\ fst (console_read false n n s') = CRet (Z.of_nat (length text) + 1) (text ++ [nl]).
Proof.
  intros Hr Ht Hlen Hn. destruct (text_decode (text ++ [nl])) as (cs & E & Hpos & Hf).
  { apply Forall_app. split; [|by repeat constructor; right]. eapply Forall_impl; [exact Ht|]. intros c Hc. by left. }
  unfold kbd_intr. rewrite E. split; [done|]. rewrite console_intr_filter, Hf, foldl_app by done. cbn [foldl].
  destruct (type_text dump text s [] [] Ht) as [Hr1 Hnl1]; [simpl; lia|done|done|]. rewrite app_nil_l in *.
  pose proof (console_char_refines dump nl _ _ _ ltac:(done) Hr1 Hnl1) as Hk. unfold line_key in Hk.
  rewrite (proj2 (Nat.eqb_neq (length (@nil Z) + length text) 128)) in Hk by (simpl; lia). cbn [app] in Hk.
  destruct Hk as [Hr2 _]. pose proof (console_read_refines false n n _ _ _ ltac:(lia) Hr2) as Hrd.
  destruct (console_read false n n _) as [r s']. unfold line_read in Hrd. rewrite line_of_text in Hrd by (done || lia).
  rewrite last_snoc, bool_decide_true, orb_true_r in Hrd by done. destruct Hrd as [-> _]. cbn [fst].
  f_equal. rewrite length_app. simpl. lia.
Qed.

Definition demo_text : list Z := [76; 115; 33].
Lemma typed_line_read_witness :
  let '(shift, s') := kbd_intr [] (flat_map strokes (demo_text ++ [nl])) (0, console_boot) in
  shift = 0 /\ fst (console_read false 100 100 s') = CRet (Z.of_nat (length demo_text) + 1) (demo_text ++ [nl]).
Proof.
  refine (typed_line_read [] demo_text 100 console_boot _ _ _ _).
  - unfold ring. split_and!; done || (cbn; lia).
  - repeat constructor; done.
  - cbn [length demo_text]. lia.
  - cbn [length demo_text]. lia.
Defined.
