(* ===== verification/Trap.v ===== *)
(** * trap.c: traps and interrupts

    The kernel with its console, entered through the interrupt table.  The
    buffer cache of this development performs a disk request in one step (see
    [Ide.ide_fifo]), so the driver's queue is empty whenever a trap is taken
    and [ide_intr] returns at once.  The local interrupt controller is told of
    the end of an interrupt ([lapic_eoi]), which is hardware state. *)

From S2P Require Import Prelude CString Kalloc Layout Ide Bio Fs Pipe File Mmu Spinlock Proc Sched Syscall Console Kbd.

Definition T_SYSCALL : Z := 48.
Definition IRQ_OFFSET : Z := 32.
Definition IRQ_TIMER : Z := 0.
Definition IRQ_KBD : Z := 1.
Definition IRQ_IDE : Z := 14.
Definition IRQ_SPURIOUS : Z := 31.

(** ** The interrupt table *)

(** [vectors]: the entry points of vectors.S, which the build generates. *)
Definition tvinit (vectors : list Z) : list gatedesc :=
  let idt := (fun v => SETGATE 0 (Z.shiftl SEG_KCODE 3) v 0) <$> vectors in
  <[Z.to_nat T_SYSCALL := SETGATE 1 (Z.shiftl SEG_KCODE 3) (nth (Z.to_nat T_SYSCALL) vectors 0) DPL_USER]> idt.

(** ** The machine a trap runs on *)

Record machine : Type := Machine { mk : kst; mkbd : Z * console }.
Definition kern {A} : M kst A -> M machine A := zoom mk (fun k m => Machine k (mkbd m)).

(** [cp] may be null here. *)
Definition curproc : M kst (option proc) :=
  let! s := get in
  match cur s with
  | None => ret None
  | Some i => let! p := getp i in ret (Some p)
  end.

Definition from_user (tf : trapframe) : bool := Z.land (tf_cs tf) 3 =? DPL_USER.

Section trap.
(** The dispatch table of system calls, what procdump prints, and the number
    of the processor. *)
Context (syscalls : list (option (M kst Z))) (dump : list Z) (cpu : Z).

(** The system call trap; exit does not return. *)
Definition trap_syscall (tf : trapframe) : M kst unit :=
  let! p := cproc in
  if ctrue (p_killed p) then exit
  else
    updcp (set_p_tf tf) ;;
    syscall syscalls ;;
    let! p := cproc in
    if ctrue (p_killed p) then exit else ret tt.

Definition timer_tick : M kst unit :=
  if cpu =? 0 then modify (fun s => set_ticks (s32 (ticks s + 1)) s) ;; wakeup ChTicks else ret tt.

(** The keyboard's bytes; each wakeup of the console's readers wakes the
    processes asleep on it. *)
Definition kbd_trap (port : list Z) : M machine unit :=
  let! m := get in
  let s := kbd_intr dump port (mkbd m) in
  modify (fun m => Machine (mk m) s) ;;
  kern (if (inwakes (snd (mkbd m)) <? inwakes (snd s))%nat then wakeup ChInput else ret tt).

(** The switch on the trap number.  [port]: the bytes the keyboard has. *)
Definition trap_switch (tf : trapframe) (port : list Z) : M machine unit :=
  if trapno tf =? IRQ_OFFSET + IRQ_TIMER then kern timer_tick
  else if trapno tf =? IRQ_OFFSET + IRQ_IDE then ret tt
  else if trapno tf =? IRQ_OFFSET + IRQ_KBD then kbd_trap port
  else if trapno tf =? IRQ_OFFSET + IRQ_SPURIOUS then ret tt
  else
    let! m := get in
    if bool_decide (cur (mk m) = None) || (Z.land (tf_cs tf) 3 =? 0) then panic "trap"
    else kern (updcp (set_p_killed 1)).

Definition trap (tf : trapframe) (port : list Z) : M machine unit :=
  if trapno tf =? T_SYSCALL then kern (trap_syscall tf)
  else
    trap_switch tf port ;;
    let! p := kern curproc in
    match p with
    | None => ret tt
    | Some p =>
        if ctrue (p_killed p) && from_user tf then kern exit
        else if bool_decide (p_state p = RUNNING) && (trapno tf =? IRQ_OFFSET + IRQ_TIMER) then kern yield
        else ret tt
    end.
End trap.

(** ** The table guards the kernel *)

(** Every vector has its handler's entry, in the kernel's code segment, and
    only the system call gate may be entered by an [int] of user code. *)
Lemma tvinit_guards vectors i v :
  length vectors = 256%nat -> Forall (fun v => 0 <= v < u32_mod) vectors -> vectors !! i = Some v ->
  exists g, tvinit vectors !! i = Some g /\ gate_offset g = v /\ gd_cs g = Z.shiftl SEG_KCODE 3 /\ gd_p g = 1 /\
    gd_dpl g = (if decide (i = 48%nat) then DPL_USER else 0).
Proof.
  intros Hl Hv Hi. pose proof (proj1 (Forall_lookup _ _) Hv i v Hi) as Hr. unfold tvinit.
  change (Z.to_nat T_SYSCALL) with 48%nat. destruct (decide (i = 48%nat)) as [->|Hne].
  - rewrite list_lookup_insert_eq by (rewrite length_fmap; lia). rewrite (nth_lookup_Some _ _ _ _ Hi).
    eexists. split; [done|]. by rewrite gate_offset_SETGATE.
  - rewrite list_lookup_insert_ne, list_lookup_fmap, Hi by done.
    eexists. split; [done|]. by rewrite gate_offset_SETGATE.
Qed.

(** ** What a trap does to the process that runs *)

Lemma kern_ret {A} (m : M kst A) s a k : m (mk s) = Ret a k -> kern m s = Ret a (Machine k (mkbd s)).
Proof. intros H. unfold kern, zoom. by rewrite H. Qed.

Lemma curproc_ret s i p : cur s = Some i -> procs s !! i = Some p -> curproc s = Ret (Some p) s.
Proof. intros Hc Hp. unfold curproc, bind, get. rewrite Hc. by rewrite (getp_ret _ _ _ Hp). Qed.

Lemma cproc_ret s i p : cur s = Some i -> procs s !! i = Some p -> cproc s = Ret p s.
Proof. intros Hc Hp. unfold cproc, cp, bind, get, of_option. rewrite Hc. by apply getp_ret. Qed.

Lemma updcp_ret g s i p : cur s = Some i -> procs s !! i = Some p ->
  updcp g s = Ret tt (set_procs (<[i := g p]> (procs s)) s).
Proof. intros Hc Hp. unfold updcp, cp, bind, get, of_option. rewrite Hc. by apply updp_ret. Qed.

Definition is_fault (n : Z) : Prop :=
  n <> T_SYSCALL /\ n <> IRQ_OFFSET + IRQ_TIMER /\ n <> IRQ_OFFSET + IRQ_IDE /\ n <> IRQ_OFFSET + IRQ_KBD /\ n <> IRQ_OFFSET + IRQ_SPURIOUS.

Section running.
Context (syscalls : list (option (M kst Z))) (dump : list Z) (tf : trapframe) (port : list Z).
Context (m : machine) (i : nat) (p : proc).
Hypothesis (Hcur : cur (mk m) = Some i) (Hp : procs (mk m) !! i = Some p) (Hrun : p_state p = RUNNING).

Lemma trap_timer : trapno tf = IRQ_OFFSET + IRQ_TIMER -> p_killed p = 0 ->
  trap syscalls dump 0 tf port m =
  Ret tt (Machine (set_procs (<[i := set_p_state RUNNABLE p]> (wake (Some ChTicks) <$> procs (mk m)))
                             (set_ticks (s32 (ticks (mk m) + 1)) (mk m))) (mkbd m)).
Proof.
  intros Hn Hk. unfold trap, trap_switch. rewrite Hn, Z.eqb_refl. change (IRQ_OFFSET + IRQ_TIMER =? T_SYSCALL) with false. cbv iota.
  set (k1 := set_procs (wake (Some ChTicks) <$> procs (mk m)) (set_ticks (s32 (ticks (mk m) + 1)) (mk m))).
  assert (Hp1 : procs k1 !! i = Some p).
  { unfold k1. cbn. rewrite list_lookup_fmap, Hp. cbn. unfold wake. by rewrite decide_False by congruence. }
  unfold bind at 1. rewrite (kern_ret _ _ tt k1) by done. unfold bind.
  rewrite (kern_ret _ _ (Some p) k1) by (by apply curproc_ret with i). rewrite Hk. cbn [ctrue Z.eqb negb andb].
  rewrite bool_decide_true by done. cbn [andb]. unfold yield. by rewrite (kern_ret _ (Machine k1 (mkbd m)) tt _ (updcp_ret _ k1 i p Hcur Hp1)).
Qed.

Lemma trap_fault : is_fault (trapno tf) ->
  trap syscalls dump 0 tf port m =
  if Z.land (tf_cs tf) 3 =? 0 then Panic "trap" m
  else let m' := Machine (set_procs (<[i := set_p_killed 1 p]> (procs (mk m))) (mk m)) (mkbd m) in
       if from_user tf then kern exit m' else Ret tt m'.
Proof.
  intros (H1 & H2 & H3 & H4 & H5). unfold trap, trap_switch. rewrite !(proj2 (Z.eqb_neq _ _)) by done.
  unfold bind at 1. unfold bind at 1. unfold get. rewrite bool_decide_false by congruence. cbn [orb].
  destruct (Z.land (tf_cs tf) 3 =? 0); [done|]. rewrite (kern_ret _ m tt _ (updcp_ret _ _ i p Hcur Hp)).
  set (k1 := set_procs _ _). assert (Hp1 : procs k1 !! i = Some (set_p_killed 1 p)).
  { apply list_lookup_insert_eq. by eapply lookup_lt_Some. }
  unfold bind. rewrite (kern_ret _ _ (Some (set_p_killed 1 p)) k1) by (by apply curproc_ret with i).
  cbn [ctrue p_killed set_p_killed Z.eqb negb andb]. destruct (from_user tf); [done|]. by rewrite andb_false_r.
Qed.

Lemma trap_killed : trapno tf = T_SYSCALL -> p_killed p <> 0 ->
  trap syscalls dump 0 tf port m = kern exit m.
Proof.
  intros Hn Hk. unfold trap. rewrite Hn, Z.eqb_refl. unfold kern, zoom, trap_syscall, bind.
  rewrite (cproc_ret _ i p) by done. unfold ctrue. by rewrite (proj2 (Z.eqb_neq (p_killed p) 0)).
Qed.
End running.

(** A trap acts on the running process only.  The clock's interrupt makes
    it runnable again, counts a tick and wakes exactly the processes asleep on
    the clock; a fault in user code, or a system call of a killed process,
    makes it exit without running the call; a fault in the kernel panics with
    the kernel as it was. *)
Theorem trap_correct (syscalls : list (option (M kst Z))) (dump : list Z) (tf : trapframe) (port : list Z)
    (m : machine) (i : nat) (p : proc) :
  cur (mk m) = Some i -> procs (mk m) !! i = Some p -> p_state p = RUNNING ->
  (trapno tf = IRQ_OFFSET + IRQ_TIMER -> p_killed p = 0 ->
   wp (trap syscalls dump 0 tf port) m (fun _ m' =>
     mkbd m' = mkbd m /\ ticks (mk m') = s32 (ticks (mk m) + 1) /\
     (k_fl (mk m'), kmem (mk m'), ttltcts (mk m'), cur (mk m')) = (k_fl (mk m), kmem (mk m), ttltcts (mk m), cur (mk m)) /\
     forall j q, procs (mk m) !! j = Some q ->
       procs (mk m') !! j = Some (if decide (j = i \/ p_state q = SLEEPING /\ p_chan q = Some ChTicks)
                                  then set_p_state RUNNABLE q else q))) /\
  (is_fault (trapno tf) -> Z.land (tf_cs tf) 3 = 0 -> trap syscalls dump 0 tf port m = Panic "trap" m) /\
  (is_fault (trapno tf) -> from_user tf = true ->
   trap syscalls dump 0 tf port m =
   kern exit (Machine (set_procs (<[i := set_p_killed 1 p]> (procs (mk m))) (mk m)) (mkbd m))) /\
  (trapno tf = T_SYSCALL -> p_killed p <> 0 -> trap syscalls dump 0 tf port m = kern exit m).
Proof.
  intros Hcur Hp Hrun. split_and!.
  - intros Hn Hk. unfold wp. rewrite (trap_timer _ _ _ _ _ i p) by done. cbn. split_and!; [done..|].
    intros j q Hq. destruct (decide (j = i)) as [->|Hne].
    + rewrite list_lookup_insert_eq by (rewrite length_fmap; by eapply lookup_lt_Some). simplify_eq.
      rewrite decide_True by (by left). done.
    + rewrite list_lookup_insert_ne, list_lookup_fmap, Hq by done. cbn. unfold wake.
      destruct (decide (p_state q = SLEEPING)) as [Hs|Hs]; [destruct (decide (p_chan q = Some ChTicks)) as [Hc|Hc]|].
      * by rewrite decide_True by tauto.
      * by rewrite decide_False by tauto.
      * by rewrite decide_False by tauto.
  - intros Hf Hcs. by rewrite (trap_fault _ _ _ _ _ i p), Hcs by done.
  - intros Hf Hu. rewrite (trap_fault _ _ _ _ _ i p) by done. unfold from_user in *. apply Z.eqb_eq in Hu as ->. done.
  - intros Hn Hk. by apply trap_killed with i p.
Qed.

(** The clock interrupts process 2 while init sleeps on the clock. *)
Definition demo_sleeper : proc := set_p_chan (Some ChTicks) (demo_proc 65536 SLEEPING 1 None 100).
Definition demo_runner : proc := demo_proc 131072 RUNNING 2 (Some O) 50.
Definition demo_machine : machine :=
  Machine (set_cur (Some 1%nat) (set_procs [demo_sleeper; demo_runner] demo_kst)) (0, console_boot).
Definition timer_tf : trapframe := Trapframe 0 0 0 0 0 0 0 0 0 0 32 0 0 27 512 0 0.

Lemma trap_correct_witness :
  wp (trap [] [] 0 timer_tf []) demo_machine (fun _ m =>
    ticks (mk m) = 8 /\ procs (mk m) !! 0%nat = Some (set_p_state RUNNABLE demo_sleeper) /\
    procs (mk m) !! 1%nat = Some (set_p_state RUNNABLE demo_runner)).
Proof.
  destruct (trap_correct [] [] timer_tf [] demo_machine 1 demo_runner eq_refl eq_refl eq_refl) as [H _].
  eapply wp_mono; [apply H; reflexivity|]. intros [] m (_ & Ht & _ & Hj). split; [exact Ht|]. split.
  - exact (Hj 0%nat demo_sleeper eq_refl).
  - exact (Hj 1%nat demo_runner eq_refl).
Defined.
