(* ===== verification/Mp.v ===== *)
(** * mp.c, mp.h: processor discovery

    The search for the tables the firmware leaves in memory, and the walk over
    the configuration table that counts the processors.  Memory is as in
    CString; a null pointer is 0. *)

From S2P Require Import Prelude CString Layout.

Definition NCPU : nat := 8.
Definition MPPROC : Z := 0.
Definition MPBUS : Z := 1.
Definition MPIOAPIC : Z := 2.
Definition MPIOINTR : Z := 3.
Definition MPLINTR : Z := 4.
Definition MPBOOT : Z := 2.

Definition sizeof_mp : Z := 16.
Definition sizeof_mpconf : Z := 44.
Definition sizeof_mpproc : Z := 20.
Definition sizeof_mpioapic : Z := 8.

Definition rd16 (m : mem) (a : Z) : Z := m a + 256 * m (a + 1).
Definition rd32 (m : mem) (a : Z) : Z := rd16 m a + 65536 * rd16 m (a + 2).

(** [struct mp] and [struct mpconf] at an address. *)
Definition mp_physaddr (m : mem) (p : Z) : Z := rd32 m (p + 4).
Definition mp_imcrp (m : mem) (p : Z) : Z := m (p + 12).
Definition conf_length (m : mem) (p : Z) : Z := rd16 m (p + 4).
Definition conf_version (m : mem) (p : Z) : Z := m (p + 6).
Definition conf_lapicaddr (m : mem) (p : Z) : Z := rd32 m (p + 36).

Fixpoint sum_loop (m : mem) (addr : Z) (len : nat) : Z :=
  match len with O => 0 | S len => m addr + sum_loop m (addr + 1) len end.
Definition sum (m : mem) (addr len : Z) : Z := u8 (sum_loop m addr (Z.to_nat len)).

Definition sig_mp : list Z := [95; 77; 80; 95].
Definition sig_conf : list Z := [80; 67; 77; 80].

(** A structure with its signature and a checksum of zero. *)
Definition is_mp (m : mem) (p : Z) : bool :=
  (memcmp (at_addr m p) (of_bytes sig_mp) 4 =? 0) && (sum m p sizeof_mp =? 0).

Fixpoint mp_search1_loop (fuel : nat) (m : mem) (p e : Z) : Z :=
  match fuel with
  | O => 0
  | S fuel => if p <? e then if is_mp m p then p else mp_search1_loop fuel m (p + sizeof_mp) e else 0
  end.
Definition mp_search1 (m : mem) (addr len : Z) : Z :=
  mp_search1_loop (Z.to_nat (len / sizeof_mp + 1)) m addr (addr + len).

Definition mp_search (m : mem) : Z :=
  let bda := 1024 in
  let p := Z.shiftl (Z.lor (Z.shiftl (m (bda + 15)) 8) (m (bda + 14))) 4 in
  let mp :=
    if ctrue p then mp_search1 m p 1024
    else
      let p := Z.lor (Z.shiftl (m (bda + 20)) 8) (m (bda + 19)) * 1024 in
      mp_search1 m (u32 (p - 1024)) 1024 in
  if ctrue mp then mp else mp_search1 m 983040 65536.

(** The pointer structure and the table. *)
Definition mp_config (m : mem) : option (Z * Z) :=
  let mp := mp_search m in
  if (mp =? 0) || (mp_physaddr m mp =? 0) then None
  else
    let conf := mp_physaddr m mp in
    if negb (memcmp (at_addr m conf) (of_bytes sig_conf) 4 =? 0) then None
    else if negb (conf_version m conf =? 1) && negb (conf_version m conf =? 4) then None
    else if negb (sum m conf (conf_length m conf) =? 0) then None
    else Some (mp, conf).

(** The globals; [cpus] are their apicids, [bcpu] is an index, [ports] what has
    been written to I/O ports. *)
Record mp_st : Type := MpSt {
  cpus : list Z; bcpu : Z; ismp : bool; ncpu : Z; ioapic_id : Z; lapic_addr : Z; ports : list (Z * Z) }.

Definition mp_bcpu : M mp_st Z := gets bcpu.

Definition add_proc (m : mem) (p : Z) : M mp_st unit :=
  let! s := get in
  if Z.of_nat NCPU <=? ncpu s then undef "cpus[ncpu]"
  else
    modify (fun s => MpSt (<[Z.to_nat (ncpu s) := m (p + 1)]> (cpus s))
                          (if ctrue (Z.land (m (p + 3)) MPBOOT) then ncpu s else bcpu s)
                          (ismp s) (ncpu s + 1) (ioapic_id s) (lapic_addr s) (ports s)).

Definition set_ioapic (m : mem) (p : Z) : M mp_st unit :=
  modify (fun s => MpSt (cpus s) (bcpu s) (ismp s) (ncpu s) (m (p + 1)) (lapic_addr s) (ports s)).

(** The entries of the table from [p] to [e]; each takes at least 8 bytes. *)
Fixpoint mp_entries (fuel : nat) (m : mem) (p e : Z) : M mp_st unit :=
  if p <? e then
    match fuel with
    | O => fun s => Spin s
    | S fuel =>
        if m p =? MPPROC then add_proc m p ;; mp_entries fuel m (p + sizeof_mpproc) e
        else if m p =? MPIOAPIC then set_ioapic m p ;; mp_entries fuel m (p + sizeof_mpioapic) e
        else if (m p =? MPBUS) || (m p =? MPIOINTR) || (m p =? MPLINTR) then mp_entries fuel m (p + 8) e
        else panic "mp_init"
    end
  else ret tt.

Definition outb (port v : Z) : M mp_st unit :=
  modify (fun s => MpSt (cpus s) (bcpu s) (ismp s) (ncpu s) (ioapic_id s) (lapic_addr s) (ports s ++ [(port, v)])).

(** [imcr] is what reading port 0x23 gives. *)
Definition mp_init (m : mem) (imcr : Z) : M mp_st unit :=
  modify (fun s => MpSt (cpus s) (ncpu s) (ismp s) (ncpu s) (ioapic_id s) (lapic_addr s) (ports s)) ;;
  match mp_config m with
  | None => ret tt
  | Some (mp, conf) =>
      modify (fun s => MpSt (cpus s) (bcpu s) true (ncpu s) (ioapic_id s) (conf_lapicaddr m conf) (ports s)) ;;
      mp_entries (Z.to_nat (conf_length m conf)) m (conf + sizeof_mpconf) (conf + conf_length m conf) ;;
      if ctrue (mp_imcrp m mp) then
        outb 34 112 ;;
        outb 35 (Z.lor imcr 1)
      else ret tt
  end.

(** The globals before main calls mp_init. *)
Definition mp_boot : mp_st := MpSt (replicate NCPU 0) 0 false 0 0 0 [].

(** ** The search *)

Lemma mp_search1_loop_spec m fuel : forall p e,
  (e - p) / 16 < Z.of_nat fuel ->
  let r := mp_search1_loop fuel m p e in
  (r = 0 /\ forall k, 0 <= k -> p + 16 * k < e -> is_mp m (p + 16 * k) = true -> p + 16 * k = 0) \/
  (exists k, 0 <= k /\ (r = p + 16 * k /\ r < e) /\ is_mp m r = true /\ forall j, 0 <= j < k -> is_mp m (p + 16 * j) = false).
Proof.
  induction fuel as [|fuel IH]; intros p e Hf; cbn [mp_search1_loop].
  { left. split; [done|]. intros k Hk Hlt. exfalso. Z.div_mod_to_equations. lia. }
  destruct (Z.ltb_spec p e) as [Hlt|Hge]; [|left; split; [done|]; intros k Hk Hlt; lia].
  destruct (is_mp m p) eqn:E.
  { right. exists 0. rewrite Z.mul_0_r, Z.add_0_r. split_and!; [lia|lia|lia|done|]. intros j Hj. lia. }
  destruct (IH (p + sizeof_mp) e) as [[E0 Hno]|(k & Hk & [Er Hke] & Hm & Hfirst)].
  { unfold sizeof_mp. Z.div_mod_to_equations. lia. }
  - left. split; [done|]. intros k Hk Hke Hm. destruct (decide (k = 0)) as [->|]; [rewrite Z.mul_0_r, Z.add_0_r in Hm; congruence|].
    unfold sizeof_mp in Hno. specialize (Hno (k - 1)). replace (p + 16 + 16 * (k - 1)) with (p + 16 * k) in Hno by lia.
    apply Hno; (done || lia).
  - right. exists (k + 1). unfold sizeof_mp in *. split; [lia|]. split; [lia|]. split; [done|].
    intros j Hj. destruct (decide (j = 0)) as [->|]; [by rewrite Z.mul_0_r, Z.add_0_r|].
    specialize (Hfirst (j - 1)). replace (p + 16 + 16 * (j - 1)) with (p + 16 * j) in Hfirst by lia. apply Hfirst. lia.
Qed.

(** ** The table *)

(** What a table can contain: a processor with its identifier and flags, an
    I/O APIC, or an entry the kernel skips. *)
Inductive entry : Type :=
| Processor (apicid version flags : Z) (rest : list Z)
| IoApic (apicno : Z) (rest : list Z)
| Skipped (type : Z) (rest : list Z).

Definition entry_bytes (e : entry) : list Z :=
  match e with
  | Processor a v f rest => MPPROC :: a :: v :: f :: rest
  | IoApic n rest => MPIOAPIC :: n :: rest
  | Skipped t rest => t :: rest
  end.
Definition entry_ok (e : entry) : Prop :=
  match e with
  | Processor _ _ _ rest => length rest = 16%nat
  | IoApic _ rest => length rest = 6%nat
  | Skipped t rest => (t = MPBUS \/ t = MPIOINTR \/ t = MPLINTR) /\ length rest = 7%nat
  end.

(** The processors of a table, the index of the boot processor among them if
    one is marked, counting from [n], and the last I/O APIC. *)
Fixpoint apicids (es : list entry) : list Z :=
  match es with
  | [] => []
  | Processor a _ _ _ :: es => a :: apicids es
  | _ :: es => apicids es
  end.
Fixpoint boot_index (n b : Z) (es : list entry) : Z :=
  match es with
  | [] => b
  | Processor _ _ f _ :: es => boot_index (n + 1) (if Z.testbit f 1 then n else b) es
  | _ :: es => boot_index n b es
  end.
Fixpoint last_ioapic (i : Z) (es : list entry) : Z :=
  match es with
  | [] => i
  | IoApic n _ :: es => last_ioapic n es
  | _ :: es => last_ioapic i es
  end.

Fixpoint bytes_at (m : mem) (a : Z) (l : list Z) : Prop :=
  match l with [] => True | b :: l => m a = b /\ bytes_at m (a + 1) l end.

Lemma bytes_at_app m a l l' : bytes_at m a (l ++ l') <-> bytes_at m a l /\ bytes_at m (a + Z.of_nat (length l)) l'.
Proof.
  revert a. induction l as [|b l IH]; intros a; cbn [app length bytes_at]; [simpl; rewrite Z.add_0_r; tauto|].
  rewrite IH, Nat2Z.inj_succ. replace (a + Z.succ (Z.of_nat (length l))) with (a + 1 + Z.of_nat (length l)) by lia. tauto.
Qed.

Lemma boot_flag f : ctrue (Z.land f MPBOOT) = Z.testbit f 1.
Proof.
  unfold ctrue, MPBOOT. change 2 with (2 ^ 1). destruct (Z.testbit f 1) eqn:E.
  - apply negb_true_iff, Z.eqb_neq. intros H. assert (Z.testbit (Z.land f (2 ^ 1)) 1 = false) as H1 by (by rewrite H, Z.bits_0).
    by rewrite Z.land_spec, E in H1.
  - apply negb_false_iff, Z.eqb_eq, Z.bits_inj'. intros k Hk. rewrite Z.land_spec, Z.bits_0, Z.pow2_bits_eqb by lia.
    destruct (Z.eqb_spec 1 k) as [<-|]; [by rewrite E|apply andb_false_r].
Qed.

Lemma mp_entries_spec m es : forall fuel p s,
  bytes_at m p (concat (map entry_bytes es)) -> Forall entry_ok es ->
  Z.of_nat (length (concat (map entry_bytes es))) <= Z.of_nat fuel ->
  0 <= ncpu s -> ncpu s + Z.of_nat (length (apicids es)) <= Z.of_nat NCPU -> length (cpus s) = NCPU ->
  mp_entries fuel m p (p + Z.of_nat (length (concat (map entry_bytes es)))) s
    = Ret tt (MpSt (list_inserts (Z.to_nat (ncpu s)) (apicids es) (cpus s)) (boot_index (ncpu s) (bcpu s) es) (ismp s)
                   (ncpu s + Z.of_nat (length (apicids es))) (last_ioapic (ioapic_id s) es) (lapic_addr s) (ports s)).
Proof.
  induction es as [|e es IH]; intros fuel p s Hb Hok Hf Hn Hcap Hlen.
  { simpl. rewrite Z.add_0_r. unfold mp_entries. destruct fuel, s; rewrite Z.ltb_irrefl, ?Z.add_0_r; done. }
  cbn [map concat] in *. apply Forall_cons in Hok as [He Hok]. rewrite length_app in *. apply bytes_at_app in Hb as [Hb Hbs].
  assert (Hl : exists k, length (entry_bytes e) = S k) by (destruct e; eexists; reflexivity). destruct Hl as [k0 Hl].
  destruct fuel as [|fuel]; [lia|]. cbn [mp_entries].
  destruct (Z.ltb_spec p (p + Z.of_nat (length (entry_bytes e) + length (concat (map entry_bytes es))))) as [_|Hbad]; [|lia].
  specialize (IH fuel (p + Z.of_nat (length (entry_bytes e)))). rewrite Nat2Z.inj_add, Z.add_assoc.
  destruct e as [a v f rest|n rest|t rest]; cbn [entry_bytes bytes_at] in Hb; simpl in He.
  - destruct Hb as (-> & Ha & _ & Hfl & _). change (MPPROC =? MPPROC) with true. cbv iota.
    cbn [apicids length] in Hcap |- *. cbn [length entry_bytes] in *. rewrite He in *.
    unfold add_proc. rewrite (bind_ret _ _ _ tt (MpSt (<[Z.to_nat (ncpu s) := a]> (cpus s)) (if Z.testbit f 1 then ncpu s else bcpu s)
      (ismp s) (ncpu s + 1) (ioapic_id s) (lapic_addr s) (ports s))).
    2:{ unfold bind, get. destruct (Z.leb_spec (Z.of_nat NCPU) (ncpu s)); [lia|]. unfold modify. rewrite Ha.
        replace (p + 1 + 1 + 1) with (p + 3) in Hfl by lia. by rewrite Hfl, boot_flag. }
    change sizeof_mpproc with (Z.of_nat 20). rewrite IH; try done; cbn [cpus bcpu ismp ncpu ioapic_id lapic_addr ports].
    + cbn [boot_index last_ioapic list_inserts]. rewrite list_insert_inserts_lt by lia.
      replace (Z.to_nat (ncpu s + 1)) with (S (Z.to_nat (ncpu s))) by lia. do 2 f_equal. lia.
    + lia.
    + lia.
    + lia.
    + by rewrite length_insert.
  - destruct Hb as (-> & Ha & _). change (MPIOAPIC =? MPPROC) with false. change (MPIOAPIC =? MPIOAPIC) with true. cbv iota.
    cbn [apicids length] in Hcap |- *. cbn [length entry_bytes] in *. rewrite He in *.
    unfold set_ioapic. rewrite (bind_ret _ _ _ tt (MpSt (cpus s) (bcpu s) (ismp s) (ncpu s) n (lapic_addr s) (ports s))) by (unfold modify; by rewrite Ha).
    change sizeof_mpioapic with (Z.of_nat 8). rewrite IH; done || (simpl; lia).
  - destruct Hb as (-> & _). destruct He as [Ht He]. cbn [length entry_bytes] in *. rewrite He in *.
    assert ((t =? MPPROC) = false /\ (t =? MPIOAPIC) = false /\ (t =? MPBUS) || (t =? MPIOINTR) || (t =? MPLINTR) = true) as (-> & -> & ->)
      by (destruct Ht as [-> |[-> | ->]]; done).
    change (p + 8) with (p + Z.of_nat 8). rewrite IH; done || (simpl; lia).
Qed.

Lemma mp_search1_spec m addr len :
  let r := mp_search1 m addr len in
  (r = 0 /\ forall k, 0 <= k -> 16 * k < len -> is_mp m (addr + 16 * k) = true -> addr + 16 * k = 0) \/
  (exists k, 0 <= k /\ 16 * k < len /\ r = addr + 16 * k /\ is_mp m r = true /\
     forall j, 0 <= j < k -> is_mp m (addr + 16 * j) = false).
Proof.
  destruct (mp_search1_loop_spec m (Z.to_nat (len / sizeof_mp + 1)) addr (addr + len)) as [[E H]|(k & Hk & [E Hlt] & Hm & Hf)].
  - replace (addr + len - addr) with len by lia. unfold sizeof_mp. Z.div_mod_to_equations. lia.
  - left. split; [done|]. intros k Hk Hlt. apply H; lia.
  - right. exists k. fold (mp_search1 m addr len) in *. split_and!; [lia|lia|done|done|done].
Qed.

Lemma mp_search_found m : mp_search m <> 0 -> is_mp m (mp_search m) = true.
Proof.
  unfold mp_search. set (p := Z.shiftl _ 4). set (q := u32 _). intros H.
  assert (Hs : forall a n, mp_search1 m a n <> 0 -> is_mp m (mp_search1 m a n) = true).
  { intros a n Hne. destruct (mp_search1_spec m a n) as [[E _]|(k & _ & _ & _ & E & _)]; [by rewrite E in Hne|done]. }
  destruct (ctrue (if ctrue p then mp_search1 m p 1024 else mp_search1 m q 1024)) eqn:E; [|by apply Hs].
  unfold ctrue in E at 1. apply negb_true_iff, Z.eqb_neq in E. destruct (ctrue p); by apply Hs.
Qed.

(** ** mp_init *)

(** The processors the firmware describes are the ones the kernel gets.
    If the search finds a configuration table, the structure that led to it
    has its signature and checksum, and when the table is a sequence of
    entries with at most NCPU processors, mp_init records the identifier of
    each processor in order, their number, the boot processor, the I/O APIC
    and the address of the local APIC; if it finds none the machine stays a
    uniprocessor. *)
Theorem mp_init_correct (m : mem) (imcr : Z) (es : list entry) :
  match mp_config m with
  | None => mp_init m imcr mp_boot = Ret tt mp_boot
  | Some (mp, conf) =>
      bytes_at m (conf + sizeof_mpconf) (concat (map entry_bytes es)) -> Forall entry_ok es ->
      conf_length m conf = sizeof_mpconf + Z.of_nat (length (concat (map entry_bytes es))) ->
      (length (apicids es) <= NCPU)%nat ->
      is_mp m mp = true /\
      mp_init m imcr mp_boot
        = Ret tt (MpSt (apicids es ++ replicate (NCPU - length (apicids es)) 0) (boot_index 0 0 es) true
                       (Z.of_nat (length (apicids es))) (last_ioapic 0 es) (conf_lapicaddr m conf)
                       (if ctrue (mp_imcrp m mp) then [(34, 112); (35, Z.lor imcr 1)] else []))
  end.
Proof.
  unfold mp_init. destruct (mp_config m) as [[mp conf]|] eqn:E; [|done]. intros Hb Hok Hlen Hcap. split.
  { unfold mp_config in E. destruct ((mp_search m =? 0) || (mp_physaddr m (mp_search m) =? 0)) eqn:E0; [done|].
    apply orb_false_iff in E0 as [E0%Z.eqb_neq _]. repeat case_match; simplify_eq. by apply mp_search_found. }
  unfold modify, bind at 1 2. rewrite Hlen, Z.add_assoc.
  erewrite bind_ret by (apply mp_entries_spec; done || (unfold sizeof_mpconf; simpl; lia)).
  cbn [cpus bcpu ismp ncpu ioapic_id lapic_addr ports mp_boot]. change (Z.to_nat 0) with 0%nat. rewrite Z.add_0_l.
  replace (replicate NCPU 0) with (replicate (length (apicids es)) 0 ++ replicate (NCPU - length (apicids es)) 0)
    by (rewrite <-replicate_add; f_equal; lia).
  rewrite list_inserts_0_r by (by rewrite length_replicate). by destruct (ctrue (mp_imcrp m mp)).
Qed.

(** ** A machine *)

(** Two processors, the second one the boot processor, and an I/O APIC: the
    pointer structure in the extended BIOS area at 0x9FC00, the table behind. *)
Definition demo_entries : list entry :=
  [Processor 0 17 1 (replicate 16 0); Processor 1 17 3 (replicate 16 0); IoApic 2 (replicate 6 0)].
Definition demo_table : list Z :=
  sig_conf ++ [92; 0; 4; 100] ++ replicate 20 0 ++ replicate 4 0 ++ [0; 0] ++ [3; 0] ++ [0; 0; 224; 254] ++ [0; 0; 0; 0]
  ++ concat (map entry_bytes demo_entries).
Definition demo_mp : list Z := sig_mp ++ [16; 252; 9; 0] ++ [1; 4; 139; 0] ++ [0; 0; 0; 0].
Definition demo_memory : mem := store_bytes 1038 [192; 159] (store_bytes 654352 demo_table (store_bytes 654336 demo_mp (fun _ => 0))).

Lemma mp_init_correct_witness :
  mp_init demo_memory 0 mp_boot = Ret tt (MpSt [0; 1; 0; 0; 0; 0; 0; 0] 1 true 2 2 4276092928 []).
Proof.
  pose proof (mp_init_correct demo_memory 0 demo_entries) as H.
  assert (E : mp_config demo_memory = Some (654336, 654352)) by (vm_compute; reflexivity). rewrite E in H.
  destruct H as [_ H].
  - vm_compute. tauto.
  - repeat (apply Forall_cons; split; [reflexivity|]). apply Forall_nil. exact I.
  - vm_compute. reflexivity.
  - vm_compute. lia.
  - rewrite H. vm_compute. reflexivity.
Defined.

(** With more processors than NCPU the table of processors overflows. *)
Lemma too_many_processors m p s :
  m p = MPPROC -> Z.of_nat NCPU <= ncpu s -> mp_entries 1 m p (p + 20) s = Undef "cpus[ncpu]" s.
Proof.
  intros Hp Hn. cbn [mp_entries]. destruct (Z.ltb_spec p (p + 20)); [|lia]. rewrite Hp.
  change (MPPROC =? MPPROC) with true. cbv iota. unfold add_proc, bind, get. by destruct (Z.leb_spec (Z.of_nat NCPU) (ncpu s)); [|lia].
Qed.
