(* ===== verification/Irq.v ===== *)
(** * picirq.c, ioapic.c, lapic.c, timer.c, main.c: interrupt hardware

    What the kernel writes to the interrupt controllers as it starts.  A
    controller is the registers the code addresses: ports written with [outb]
    are recorded in order, the I/O APIC is a register file behind its select
    register, the local APIC records the writes to its registers.  What the
    hardware answers to reads is a parameter. *)

From S2P Require Import Prelude CString Kalloc Layout Ide Proc Trap Mp.

Definition IRQ_ERROR : Z := 19.

Record dev : Type := Dev {
  irqmask : Z; outs : list (Z * Z); io_sel : Z; io_regs : gmap Z Z; lapic_writes : list (Z * Z);
  pokes : list (Z * Z); disk_1_present : bool }.
Definition set_irqmask x d := Dev x (outs d) (io_sel d) (io_regs d) (lapic_writes d) (pokes d) (disk_1_present d).
Definition set_outs x d := Dev (irqmask d) x (io_sel d) (io_regs d) (lapic_writes d) (pokes d) (disk_1_present d).
Definition set_io x y d := Dev (irqmask d) (outs d) x y (lapic_writes d) (pokes d) (disk_1_present d).
Definition set_lapic_writes x d := Dev (irqmask d) (outs d) (io_sel d) (io_regs d) x (pokes d) (disk_1_present d).
Definition set_pokes x d := Dev (irqmask d) (outs d) (io_sel d) (io_regs d) (lapic_writes d) x (disk_1_present d).
Definition set_disk_1_present x d := Dev (irqmask d) (outs d) (io_sel d) (io_regs d) (lapic_writes d) (pokes d) x.

Definition outb (port v : Z) : M dev unit := modify (fun d => set_outs (outs d ++ [(port, u8 v)]) d).

(** ** picirq.c *)

Definition IO_PIC1 : Z := 32.
Definition IO_PIC2 : Z := 160.
Definition IRQ_SLAVE : Z := 2.
Definition irqmask0 : Z := Z.land 65535 (Z.lnot (Z.shiftl 1 IRQ_SLAVE)).

Definition pic_setmask (mask : Z) : M dev unit :=
  let mask := u16 mask in
  modify (set_irqmask mask) ;;
  outb (IO_PIC1 + 1) mask ;;
  outb (IO_PIC2 + 1) (Z.shiftr mask 8).

Definition pic_enable (irq : Z) : M dev unit :=
  let! d := get in
  pic_setmask (Z.land (irqmask d) (Z.lnot (Z.shiftl 1 irq))).

Definition pic_init : M dev unit :=
  outb (IO_PIC1 + 1) 255 ;;
  outb (IO_PIC2 + 1) 255 ;;
  outb IO_PIC1 17 ;;
  outb (IO_PIC1 + 1) IRQ_OFFSET ;;
  outb (IO_PIC1 + 1) (Z.shiftl 1 IRQ_SLAVE) ;;
  outb (IO_PIC1 + 1) 3 ;;
  outb IO_PIC2 17 ;;
  outb (IO_PIC2 + 1) (IRQ_OFFSET + 8) ;;
  outb (IO_PIC2 + 1) IRQ_SLAVE ;;
  outb (IO_PIC2 + 1) 3 ;;
  outb IO_PIC1 104 ;;
  outb IO_PIC1 10 ;;
  outb IO_PIC2 104 ;;
  outb IO_PIC2 10 ;;
  let! d := get in
  if negb (irqmask d =? 65535) then pic_setmask (irqmask d) else ret tt.

(** ** timer.c *)

Definition IO_TIMER1 : Z := 64.
Definition TIMER_FREQ : Z := 1193182.
Definition TIMER_DIV (x : Z) : Z := (TIMER_FREQ + x / 2) / x.
Definition timer_init : M dev unit :=
  outb (IO_TIMER1 + 3) (Z.lor (Z.lor 0 4) 48) ;;
  outb IO_TIMER1 (TIMER_DIV 100 mod 256) ;;
  outb IO_TIMER1 (TIMER_DIV 100 / 256) ;;
  pic_enable IRQ_TIMER.

(** ** ioapic.c *)

Definition REG_ID : Z := 0.
Definition REG_VER : Z := 1.
Definition REG_TABLE : Z := 16.
Definition INT_DISABLED : Z := 65536.

Definition ioapic_read (reg : Z) : M dev Z :=
  modify (fun d => set_io reg (io_regs d) d) ;;
  gets (fun d => default 0 (io_regs d !! io_sel d)).
Definition ioapic_write (reg data : Z) : M dev unit :=
  modify (fun d => set_io reg (io_regs d) d) ;;
  modify (fun d => set_io (io_sel d) (<[io_sel d := u32 data]> (io_regs d)) d).

Section hardware.
(** The processors found, and what the local APIC answers: its version and
    identifier registers, the successive values of ICRLO. *)
Context (mp : mp_st) (lapic_ver lapic_id : Z) (icr_polls : list Z).

Definition ioapic_init : M dev unit :=
  if negb (ismp mp) then ret tt
  else
    let! v := ioapic_read REG_VER in
    let maxintr := Z.land (Z.shiftr v 16) 255 in
    let! id := ioapic_read REG_ID in
    mfor (seq 0 (Z.to_nat (maxintr + 1))) (fun i =>
      ioapic_write (REG_TABLE + 2 * Z.of_nat i) (Z.lor INT_DISABLED (IRQ_OFFSET + Z.of_nat i)) ;;
      ioapic_write (REG_TABLE + 2 * Z.of_nat i + 1) 0).

Definition ioapic_enable (irq cpunum : Z) : M dev unit :=
  if negb (ismp mp) then ret tt
  else
    ioapic_write (REG_TABLE + 2 * irq) (IRQ_OFFSET + irq) ;;
    ioapic_write (REG_TABLE + 2 * irq + 1) (Z.shiftl cpunum 24).

(** ** lapic.c *)

Definition TPR : Z := 32.
Definition EOI : Z := 44.
Definition SVR : Z := 60.
Definition ESR : Z := 160.
Definition ICRLO : Z := 192.
Definition ICRHI : Z := 196.
Definition TIMER : Z := 200.
Definition PCINT : Z := 208.
Definition LINT0 : Z := 212.
Definition LINT1 : Z := 216.
Definition ERROR : Z := 220.
Definition TICR : Z := 224.
Definition TDCR : Z := 248.
Definition ENABLE : Z := 256.
Definition INIT : Z := 1280.
Definition STARTUP : Z := 1536.
Definition DELIVS : Z := 4096.
Definition ASSERT : Z := 16384.
Definition LEVEL : Z := 32768.
Definition BCAST : Z := 524288.
Definition X1 : Z := 11.
Definition PERIODIC : Z := 131072.
Definition MASKED : Z := 65536.

Definition lapicw (index value : Z) : M dev unit :=
  modify (fun d => set_lapic_writes (lapic_writes d ++ [(index, u32 value)]) d).

(** [while(lapic[ICRLO] & DELIVS) ;] *)
Fixpoint wait_delivery (polls : list Z) : M dev unit :=
  match polls with
  | [] => fun d => Spin d
  | v :: polls => if ctrue (Z.land v DELIVS) then wait_delivery polls else ret tt
  end.

Definition lapic_init : M dev unit :=
  if lapic_addr mp =? 0 then ret tt
  else
    lapicw SVR (Z.lor ENABLE (IRQ_OFFSET + IRQ_SPURIOUS)) ;;
    lapicw TDCR X1 ;;
    lapicw TIMER (Z.lor PERIODIC (IRQ_OFFSET + IRQ_TIMER)) ;;
    lapicw TICR 10000000 ;;
    lapicw LINT0 MASKED ;;
    lapicw LINT1 MASKED ;;
    (if 4 <=? Z.land (Z.shiftr lapic_ver 16) 255 then lapicw PCINT MASKED else ret tt) ;;
    lapicw ERROR (IRQ_OFFSET + IRQ_ERROR) ;;
    lapicw ESR 0 ;;
    lapicw ESR 0 ;;
    lapicw EOI 0 ;;
    lapicw ICRHI 0 ;;
    lapicw ICRLO (Z.lor (Z.lor BCAST INIT) LEVEL) ;;
    wait_delivery icr_polls ;;
    lapicw TPR 0.

Definition cpu : Z := if lapic_addr mp =? 0 then 0 else Z.shiftr lapic_id 24.
Definition lapic_eoi : M dev unit := if lapic_addr mp =? 0 then ret tt else lapicw EOI 0.

(** The 16-bit words written at 40:67, then the interrupts; the delays between
    them do nothing else. *)
Definition lapic_startap (apicid addr : Z) : M dev unit :=
  outb 112 15 ;;
  outb 113 10 ;;
  let wrv := Z.lor (Z.shiftl 64 4) 103 in
  modify (fun d => set_pokes (pokes d ++ [(wrv, 0); (wrv + 2, u16 (Z.shiftr addr 4))]) d) ;;
  lapicw ICRHI (Z.shiftl apicid 24) ;;
  lapicw ICRLO (Z.lor (Z.lor INIT LEVEL) ASSERT) ;;
  lapicw ICRLO (Z.lor INIT LEVEL) ;;
  mfor [0; 1] (fun _ =>
    lapicw ICRHI (Z.shiftl apicid 24) ;;
    lapicw ICRLO (Z.lor STARTUP (Z.shiftr addr 12))).

(** ** ide.c: ide_init *)

(** [polls]: the status port until the disk is ready; [probe]: what it reads
    with disk 1 selected. *)
Definition ide_init (polls probe : list Z) : M dev unit :=
  pic_enable IRQ_IDE ;;
  ioapic_enable IRQ_IDE (ncpu mp - 1) ;;
  match ide_wait_ready polls false with
  | None => fun d => Spin d
  | Some _ =>
      outb 502 (Z.lor 224 (Z.shiftl 1 4)) ;;
      (if existsb ctrue (take 1000 probe) then modify (set_disk_1_present true) else ret tt) ;;
      outb 502 (Z.lor 224 (Z.shiftl 0 4))
  end.

(** console_init's part: its interrupt. *)
Definition console_irq_init : M dev unit :=
  pic_enable IRQ_KBD ;;
  ioapic_enable IRQ_KBD 0.

(** ** main.c *)

(** The calls of main that touch the hardware, in order. *)
Definition main_devices (polls probe : list Z) : M dev unit :=
  lapic_init ;;
  pic_init ;;
  ioapic_init ;;
  console_irq_init ;;
  ide_init polls probe ;;
  if negb (ismp mp) then timer_init else ret tt.

(** The loop of bootothers over the free list and the hardware: each other
    processor gets a stack and the address to start at, below the bootstrap
    code at 0x7000, and is started; [boots]: whether it sets [booted]. *)
Definition KSTACKSIZE : Z := 4096.
Definition bootothers (mpmain : Z) (boots : nat -> bool) : M (freelist * dev) unit :=
  let code := 28672 in
  mfor (seq 0 (Z.to_nat (ncpu mp))) (fun i =>
    if Z.of_nat i =? cpu then ret tt
    else
      let! stack := zoom fst (fun l s => (l, snd s)) (kalloc KSTACKSIZE) in
      zoom snd (fun d s => (fst s, d))
        (modify (fun d => set_pokes (pokes d ++ [(code - 4, u32 (stack + KSTACKSIZE)); (code - 8, mpmain)]) d) ;;
         lapic_startap (default 0 (cpus mp !! i)) code) ;;
      if boots i then ret tt else fun s => Spin s).
End hardware.

(** The controllers as the kernel finds them: the static initial mask, and
    the registers [regs] of the I/O APIC. *)
Definition dev_boot (regs : gmap Z Z) : dev := Dev irqmask0 [] 0 regs [] [] false.

(** ** The interrupt masks *)

Definition last_out (port : Z) (l : list (Z * Z)) : option Z :=
  option_map snd (last (List.filter (fun e => e.1 =? port) l)).

Lemma last_out_snoc port l p v :
  last_out port (l ++ [(p, v)]) = if p =? port then Some v else last_out port l.
Proof.
  unfold last_out. rewrite List.filter_app. simpl. destruct (p =? port); [by rewrite last_snoc|by rewrite app_nil_r].
Qed.

(** The 8259s are told the mask, in which exactly the lines [en] are clear. *)
Record pic_ok (en : list Z) (d : dev) : Prop := {
  pic_range : 0 <= irqmask d < 65536;
  pic_lines k : 0 <= k < 16 -> Z.testbit (irqmask d) k = negb (bool_decide (k ∈ en));
  pic_lo : last_out (IO_PIC1 + 1) (outs d) = Some (irqmask d mod 256);
  pic_hi : last_out (IO_PIC2 + 1) (outs d) = Some (irqmask d / 256) }.

(** What the 8259s do not share with the other controllers. *)
Definition apics_same (d d' : dev) : Prop := io_regs d' = io_regs d /\ lapic_writes d' = lapic_writes d.
Definition pic_same (d d' : dev) : Prop := irqmask d' = irqmask d /\ outs d' = outs d.

Lemma setmask_spec mask d :
  0 <= mask < 65536 ->
  wp (pic_setmask mask) d (fun _ d' => irqmask d' = mask /\ apics_same d d' /\
    last_out (IO_PIC1 + 1) (outs d') = Some (mask mod 256) /\ last_out (IO_PIC2 + 1) (outs d') = Some (mask / 256)).
Proof.
  intros H. unfold pic_setmask, outb. wp_steps. unfold u16. rewrite Z.mod_small by done. simpl.
  split; [done|]. split; [done|]. rewrite !last_out_snoc. simpl. unfold u8.
  rewrite Z.shiftr_div_pow2 by lia. split; [done|]. f_equal. change (2 ^ 8) with 256. apply Z.mod_small.
  Z.div_mod_to_equations. lia.
Qed.

Lemma mask_clear mask irq k :
  0 <= mask < 65536 -> 0 <= irq -> 0 <= k ->
  let m' := Z.land mask (Z.lnot (Z.shiftl 1 irq)) in
  0 <= m' < 65536 /\ Z.testbit m' k = Z.testbit mask k && negb (k =? irq).
Proof.
  intros Hm Hi Hk m'. unfold m'. split.
  - assert (E : Z.land mask (Z.lnot (Z.shiftl 1 irq)) = Z.land mask (Z.lnot (Z.shiftl 1 irq)) mod 2 ^ 16).
    { symmetry. apply Z.bits_inj'. intros j Hj. destruct (Z.lt_ge_cases j 16); [by rewrite Z.mod_pow2_bits_low|].
      rewrite Z.mod_pow2_bits_high by lia. rewrite Z.land_spec.
      rewrite <-(Z.mod_small mask (2 ^ 16)) by lia. by rewrite Z.mod_pow2_bits_high by lia. }
    rewrite E. apply Z.mod_pos_bound. lia.
  - rewrite Z.land_spec, Z.lnot_spec, Z.shiftl_1_l, Z.pow2_bits_eqb by lia. by rewrite (Z.eqb_sym irq k).
Qed.

Lemma pic_enable_spec en irq d :
  pic_ok en d -> 0 <= irq < 16 ->
  wp (pic_enable irq) d (fun _ d' => pic_ok (irq :: en) d' /\ apics_same d d').
Proof.
  intros [Hr Hl _ _] Hi. unfold pic_enable. wp_steps.
  destruct (mask_clear (irqmask d) irq 0 Hr) as [Hr' _]; [lia|lia|].
  eapply wp_mono; [by apply setmask_spec|]. intros _ d' (E & Hs & H1 & H2). split; [|done].
  split; rewrite ?E; [done| |done|done]. intros k Hk.
  rewrite (proj2 (mask_clear (irqmask d) irq k Hr ltac:(lia) ltac:(lia))), Hl by done.
  destruct (Z.eqb_spec k irq) as [->|Hne]; simpl.
  - rewrite andb_false_r. rewrite bool_decide_true by (by left). done.
  - rewrite andb_true_r. f_equal. apply bool_decide_ext. rewrite elem_of_cons. clear -Hne. tauto.
Qed.

Lemma pic_init_spec d :
  irqmask d = irqmask0 -> wp pic_init d (fun _ d' => pic_ok [IRQ_SLAVE] d' /\ apics_same d d').
Proof.
  intros E. unfold pic_init. unfold outb. wp_steps. simpl. rewrite E. change (irqmask0 =? 65535) with false. cbn [negb].
  eapply wp_mono; [apply setmask_spec; vm_compute; split; [discriminate|reflexivity]|].
  intros _ d' (E' & Hs & H1 & H2). split; [|done]. split; rewrite ?E'; [vm_compute; split; [discriminate|reflexivity]| |done|done].
  intros k Hk. assert (Hin : k ∈ (Z.of_nat <$> seq 0 16)) by (apply list_elem_of_fmap; exists (Z.to_nat k); split; [lia|apply elem_of_seq; lia]).
  revert k Hin Hk. rewrite <-Forall_forall. repeat (apply Forall_cons; split; [by intros _|]). by apply Forall_nil.
Qed.

(** Ports other than the mask registers. *)
Lemma pic_ok_outb en port v d :
  pic_ok en d -> port <> IO_PIC1 + 1 -> port <> IO_PIC2 + 1 ->
  wp (outb port v) d (fun _ d' => pic_ok en d' /\ apics_same d d').
Proof.
  intros [H1 H2 H3 H4] N1 N2. unfold outb. wp_steps. split; [|done]. split; simpl; [done|done|..]; rewrite last_out_snoc;
    [destruct (Z.eqb_spec port (IO_PIC1 + 1))|destruct (Z.eqb_spec port (IO_PIC2 + 1))]; done.
Qed.

(** ** The redirection table *)

(** Entry [i] of the table for the routing [f]: disabled, or with its vector
    to a processor. *)
Definition entry_lo (f : Z -> option Z) (i : Z) : Z :=
  match f i with None => u32 (Z.lor INT_DISABLED (IRQ_OFFSET + i)) | Some _ => u32 (IRQ_OFFSET + i) end.
Definition entry_hi (f : Z -> option Z) (i : Z) : Z := match f i with None => 0 | Some c => u32 (Z.shiftl c 24) end.
Definition table_ok (n : Z) (f : Z -> option Z) (d : dev) : Prop :=
  forall i, 0 <= i < n ->
    io_regs d !! (REG_TABLE + 2 * i) = Some (entry_lo f i) /\ io_regs d !! (REG_TABLE + 2 * i + 1) = Some (entry_hi f i).

Definition route (irq c : Z) (f : Z -> option Z) : Z -> option Z := fun i => if i =? irq then Some c else f i.

(** Both registers of an entry written. *)
Lemma write_entry irq lo hi d :
  wp (ioapic_write (REG_TABLE + 2 * irq) lo ;; ioapic_write (REG_TABLE + 2 * irq + 1) hi) d (fun _ d' =>
    pic_same d d' /\ lapic_writes d' = lapic_writes d /\
    io_regs d' = <[REG_TABLE + 2 * irq + 1 := u32 hi]> (<[REG_TABLE + 2 * irq := u32 lo]> (io_regs d))).
Proof. unfold ioapic_write. wp_steps. done. Qed.

Lemma write_entry_lookup irq lo hi (r : gmap Z Z) i :
  let r' := <[REG_TABLE + 2 * irq + 1 := hi]> (<[REG_TABLE + 2 * irq := lo]> r) in
  r' !! (REG_TABLE + 2 * i) = (if i =? irq then Some lo else r !! (REG_TABLE + 2 * i)) /\
  r' !! (REG_TABLE + 2 * i + 1) = (if i =? irq then Some hi else r !! (REG_TABLE + 2 * i + 1)).
Proof.
  unfold REG_TABLE. destruct (Z.eqb_spec i irq) as [->|Hne]; split.
  - by rewrite lookup_insert_ne, lookup_insert_eq by lia.
  - by rewrite lookup_insert_eq.
  - by rewrite !lookup_insert_ne by lia.
  - by rewrite !lookup_insert_ne by lia.
Qed.

Lemma ioapic_enable_spec mp n f irq c d :
  table_ok n f d \/ ismp mp = false ->
  wp (ioapic_enable mp irq c) d (fun _ d' => (table_ok n (route irq c f) d' \/ ismp mp = false) /\ pic_same d d' /\
    lapic_writes d' = lapic_writes d).
Proof.
  intros Ht. unfold ioapic_enable. destruct (ismp mp) eqn:E; cbn [negb]; [|by wp_steps; split; [right|]].
  destruct Ht as [Ht|]; [|done]. eapply wp_mono; [apply write_entry|]. intros _ d' (Hp & Hl & Hr). split; [|done]. left.
  intros i Hi. destruct (write_entry_lookup irq (u32 (IRQ_OFFSET + irq)) (u32 (Z.shiftl c 24)) (io_regs d) i) as [E1 E2].
  rewrite Hr, E1, E2. unfold entry_lo, entry_hi, route. destruct (Z.eqb_spec i irq) as [->|]; [done|]. by apply Ht.
Qed.

Definition no_routes : Z -> option Z := fun _ => None.
Definition maxintr (regs : gmap Z Z) : Z := Z.land (Z.shiftr (default 0 (regs !! REG_VER)) 16) 255.

Lemma maxintr_range regs : 0 <= maxintr regs < 256.
Proof. unfold maxintr. change 255 with (Z.ones 8). rewrite Z.land_ones by lia. apply Z.mod_pos_bound. lia. Qed.

Lemma table_loop n : forall a d,
  table_ok (Z.of_nat a) no_routes d ->
  wp (mfor (seq a n) (fun i =>
      ioapic_write (REG_TABLE + 2 * Z.of_nat i) (Z.lor INT_DISABLED (IRQ_OFFSET + Z.of_nat i)) ;;
      ioapic_write (REG_TABLE + 2 * Z.of_nat i + 1) 0)) d
    (fun _ d' => table_ok (Z.of_nat (a + n)) no_routes d' /\ pic_same d d' /\ lapic_writes d' = lapic_writes d).
Proof.
  induction n as [|n IH]; intros a d Ht; [by rewrite Nat.add_0_r|]. cbn [seq mfor]. apply wp_bind.
  eapply wp_mono; [apply write_entry|]. intros _ d1 ([P1 P2] & Hl & Hr).
  eapply wp_mono; [apply IH|].
  - intros i Hi. destruct (write_entry_lookup (Z.of_nat a) (u32 (Z.lor INT_DISABLED (IRQ_OFFSET + Z.of_nat a))) (u32 0) (io_regs d) i) as [E1 E2].
    rewrite Hr, E1, E2. destruct (Z.eqb_spec i (Z.of_nat a)) as [->|]; [done|]. apply Ht. lia.
  - intros _ d2 (T2 & [Q1 Q2] & L2). replace (a + S n)%nat with (S a + n)%nat by lia.
    split; [done|]. split; [split; congruence|congruence].
Qed.

Lemma ioapic_init_spec mp d :
  wp (ioapic_init mp) d (fun _ d' =>
    (table_ok (maxintr (io_regs d) + 1) no_routes d' \/ ismp mp = false) /\ pic_same d d' /\ lapic_writes d' = lapic_writes d).
Proof.
  unfold ioapic_init. destruct (ismp mp); cbn [negb]; [|by wp_steps; split; [right|]].
  unfold ioapic_read. wp_steps. cbn [io_sel io_regs set_io]. fold (maxintr (io_regs d)). pose proof (maxintr_range (io_regs d)).
  eapply wp_mono; [apply (table_loop _ 0); intros i Hi; simpl in Hi; lia|]. intros _ d' (Ht & Hp & Hl).
  rewrite Nat.add_0_l, Z2Nat.id in Ht by lia. split; [by left|]. done.
Qed.

(** ** The whole of it *)

(** The hardware answers: the local APIC delivers the first interrupt, the
    disk gets ready. *)
Definition delivers (polls : list Z) : bool := existsb (fun v => negb (ctrue (Z.land v DELIVS))) polls.

Lemma wait_delivery_ret polls d : delivers polls = true -> wait_delivery polls d = Ret tt d.
Proof. induction polls as [|v polls IH]; simpl; [done|]. by destruct (ctrue (Z.land v DELIVS)); simpl. Qed.

(** The registers of the local APIC after lapic_init. *)
Definition lapic_ready (l : list (Z * Z)) : Prop :=
  last_out SVR l = Some (Z.lor ENABLE (IRQ_OFFSET + IRQ_SPURIOUS)) /\
  last_out TIMER l = Some (Z.lor PERIODIC (IRQ_OFFSET + IRQ_TIMER)) /\ last_out TICR l = Some 10000000 /\
  last_out LINT0 l = Some MASKED /\ last_out LINT1 l = Some MASKED /\
  last_out ERROR l = Some (IRQ_OFFSET + IRQ_ERROR) /\ last_out TPR l = Some 0.

Lemma lapic_init_spec mp ver polls d :
  lapic_writes d = [] -> delivers polls = true \/ lapic_addr mp = 0 ->
  wp (lapic_init mp ver polls) d (fun _ d' => pic_same d d' /\ io_regs d' = io_regs d /\
    (lapic_ready (lapic_writes d') \/ lapic_addr mp = 0)).
Proof.
  intros Hl Hp. unfold lapic_init. destruct (Z.eqb_spec (lapic_addr mp) 0) as [E|E].
  { wp_steps. split; [done|]. split; [done|by right]. }
  destruct Hp as [Hp|Hp]; [|contradiction]. pose proof (fun d => wait_delivery_ret polls d Hp) as Hw.
  unfold wp, lapicw, bind, modify, ret. cbv beta iota. destruct (4 <=? Z.land (Z.shiftr ver 16) 255); rewrite Hw; cbv beta iota.
  all: split; [split; reflexivity|]; split; [reflexivity|]; left; cbn [lapic_writes set_lapic_writes]; rewrite Hl.
  all: split_and!; vm_compute; reflexivity.
Qed.

(** The three controllers together. *)
Record set_up (mp : mp_st) (n : Z) (en : list Z) (f : Z -> option Z) (l : list (Z * Z)) (d : dev) : Prop := {
  su_pic : pic_ok en d;
  su_table : table_ok n f d \/ ismp mp = false;
  su_lapic : lapic_writes d = l }.

Lemma pic_ok_same en d d' : pic_same d d' -> pic_ok en d -> pic_ok en d'.
Proof. intros [E1 E2] [H1 H2 H3 H4]. split; rewrite ?E1, ?E2; done. Qed.
Lemma table_ok_same n f d d' : apics_same d d' -> table_ok n f d -> table_ok n f d'.
Proof. intros [E _] H i Hi. rewrite E. by apply H. Qed.

(** A line enabled at both controllers. *)
Lemma enable_both mp n en f l irq c d :
  set_up mp n en f l d -> 0 <= irq < 16 ->
  wp (pic_enable irq ;; ioapic_enable mp irq c) d (fun _ d' => set_up mp n (irq :: en) (route irq c f) l d').
Proof.
  intros [Hp Ht Hl] Hi. apply wp_bind. eapply wp_mono; [by apply pic_enable_spec|]. intros _ d1 (P1 & S1).
  eapply wp_mono; [apply (ioapic_enable_spec mp n f)|].
  - destruct Ht as [Ht|]; [left|by right]. by eapply table_ok_same.
  - intros _ d2 (T2 & P2 & L2). split; [by eapply pic_ok_same|done|]. rewrite L2. by rewrite (proj2 S1).
Qed.

Lemma set_up_outb mp n en f l port v d :
  set_up mp n en f l d -> port <> IO_PIC1 + 1 -> port <> IO_PIC2 + 1 -> wp (outb port v) d (fun _ d' => set_up mp n en f l d').
Proof.
  intros [Hp Ht Hl] H1 H2. eapply wp_mono; [by apply (pic_ok_outb en)|]. intros _ d' (P & S). split; [done| |by rewrite (proj2 S)].
  destruct Ht as [Ht|]; [left; by eapply table_ok_same|by right].
Qed.

Lemma set_up_present mp n en f l b d : set_up mp n en f l d -> set_up mp n en f l (set_disk_1_present b d).
Proof. intros [[? ? ? ?] Ht Hl]. by split; [split|..]. Qed.

Lemma ide_init_spec mp n en f l polls probe d :
  set_up mp n en f l d -> is_Some (ide_wait_ready polls false) ->
  wp (ide_init mp polls probe) d (fun _ d' => set_up mp n (IRQ_IDE :: en) (route IRQ_IDE (ncpu mp - 1) f) l d').
Proof.
  intros H [st Hst]. unfold ide_init.
  pose proof (enable_both mp n en f l IRQ_IDE (ncpu mp - 1) d H ltac:(unfold IRQ_IDE; lia)) as H1%wp_bind_inv.
  apply wp_bind. eapply wp_mono; [exact H1|]. intros [] d1 H2. apply wp_bind. eapply wp_mono; [exact H2|]. intros [] d2 H3.
  rewrite Hst. apply wp_bind. eapply wp_mono; [by apply set_up_outb|]. intros [] d3 H4. apply wp_bind.
  assert (Hpr : wp (if existsb ctrue (take 1000 probe) then modify (set_disk_1_present true) else ret tt) d3
                   (fun _ d' => set_up mp n (IRQ_IDE :: en) (route IRQ_IDE (ncpu mp - 1) f) l d')).
  { destruct (existsb ctrue (take 1000 probe)); [by apply set_up_present|done]. }
  eapply wp_mono; [exact Hpr|]. intros [] d4 H5. by apply set_up_outb.
Qed.

Lemma timer_init_spec mp n en f l d :
  set_up mp n en f l d -> wp timer_init d (fun _ d' => set_up mp n (IRQ_TIMER :: en) f l d').
Proof.
  intros H0. unfold timer_init. apply wp_bind. eapply wp_mono; [by apply (set_up_outb _ _ _ _ _ _ _ _ H0)|]. intros [] d1 H1.
  apply wp_bind. eapply wp_mono; [by apply (set_up_outb _ _ _ _ _ _ _ _ H1)|]. intros [] d2 H2.
  apply wp_bind. eapply wp_mono; [by apply (set_up_outb _ _ _ _ _ _ _ _ H2)|]. intros [] d3 [Hp Ht Hl]. eapply wp_mono; [by apply (pic_enable_spec en)|]. intros [] d' (P & S).
  split; [done| |by rewrite (proj2 S)]. destruct Ht as [Ht|]; [left; by eapply table_ok_same|by right].
Qed.

Definition enabled_lines (mp : mp_st) : list Z :=
  if ismp mp then [IRQ_IDE; IRQ_KBD; IRQ_SLAVE] else [IRQ_TIMER; IRQ_IDE; IRQ_KBD; IRQ_SLAVE].

Lemma main_devices_spec mp regs ver icr_polls polls probe :
  delivers icr_polls = true \/ lapic_addr mp = 0 -> is_Some (ide_wait_ready polls false) ->
  wp (main_devices mp ver icr_polls polls probe) (dev_boot regs) (fun _ d =>
    pic_ok (enabled_lines mp) d /\
    (table_ok (maxintr regs + 1) (route IRQ_IDE (ncpu mp - 1) (route IRQ_KBD 0 no_routes)) d \/ ismp mp = false) /\
    (lapic_ready (lapic_writes d) \/ lapic_addr mp = 0)).
Proof.
  intros Hd [st Hw]. unfold main_devices, console_irq_init, ide_init. apply wp_bind.
  eapply wp_mono; [by apply lapic_init_spec|]. intros _ d1 ([P1 _] & I1 & L1). simpl in P1, I1.
  apply wp_bind. eapply wp_mono; [by apply pic_init_spec|]. intros _ d2 (K2 & I2 & L2).
  apply wp_bind. eapply wp_mono; [apply ioapic_init_spec|]. intros _ d3 (T3 & [P3 O3] & L3). rewrite I2, I1 in T3.
  assert (S3 : set_up mp (maxintr regs + 1) [IRQ_SLAVE] no_routes (lapic_writes d1) d3).
  { split; [by apply (pic_ok_same _ d2)|done|congruence]. }
  apply wp_bind. eapply wp_mono; [by apply (enable_both _ _ _ _ _ IRQ_KBD 0 _ S3)|]. intros [] d4 S4.
  apply wp_bind. eapply wp_mono; [by apply (ide_init_spec _ _ _ _ _ polls probe _ S4)|]. intros [] d5 S5.
  unfold enabled_lines. destruct (ismp mp) eqn:E; cbn [negb].
  - wp_steps. destruct S5 as [H1 H2 H3]. rewrite H3. rewrite E in H2. done.
  - eapply wp_mono; [by apply timer_init_spec|]. intros _ d6 [H1 H2 H3]. rewrite H3. split; [done|]. by split; [right|].
Qed.



(** With no memory left the second processor is started all the same, on the
    stack that ends at address 4096. *)
Lemma bootothers_null_stack :
  wp (bootothers (MpSt [0; 1; 0; 0; 0; 0; 0; 0] 0 true 2 2 4276092928 []) 0 1048576 (fun _ => true)) ([], dev_boot ∅)
     (fun _ s => head (pokes (snd s)) = Some (28668, 4096) /\ length (lapic_writes (snd s)) = 7%nat).
Proof. vm_compute. split; reflexivity. Qed.
