(* ===== verification/Asm.v ===== *)
(** * swtch.S, trapasm.S, vectors.pl, initcode.S, bootother.S: assembly

    A small x86: registers, segments with the bases of their descriptors, and
    memory in bytes.  The assembly routines are lists of its instructions;
    what the processor does by itself on an interrupt is [interrupt].  The C
    code they call and return from is any code that keeps the stack. *)

From S2P Require Import Prelude CString Kalloc Layout Mmu Spinlock Proc Syscall Trap.

Inductive reg : Type := EAX | ECX | EDX | EBX | ESP | EBP | ESI | EDI.
Inductive seg : Type := ES | CS | SS | DS | FS | GS.
#[export] Instance reg_eq_dec : EqDecision reg.
Proof. solve_decision. Defined.
#[export] Instance seg_eq_dec : EqDecision seg.
Proof. solve_decision. Defined.

(** One processor and the memory. *)
Record core : Type := Core { gr : reg -> Z; sr : seg -> Z; pc : Z; fl : Z; cr0 : Z; gdtr : list segdesc; ram : mem }.
Definition set_gr r v s := Core (fun x => if bool_decide (x = r) then v else gr s x) (sr s) (pc s) (fl s) (cr0 s) (gdtr s) (ram s).
Definition set_sr g v s := Core (gr s) (fun x => if bool_decide (x = g) then v else sr s x) (pc s) (fl s) (cr0 s) (gdtr s) (ram s).
Definition set_pc v s := Core (gr s) (sr s) v (fl s) (cr0 s) (gdtr s) (ram s).
Definition set_fl v s := Core (gr s) (sr s) (pc s) v (cr0 s) (gdtr s) (ram s).
Definition set_cr0 v s := Core (gr s) (sr s) (pc s) (fl s) v (gdtr s) (ram s).
Definition set_gdtr v s := Core (gr s) (sr s) (pc s) (fl s) (cr0 s) v (ram s).
Definition set_ram v s := Core (gr s) (sr s) (pc s) (fl s) (cr0 s) (gdtr s) v.

(** ** Memory accesses *)

(** Where a segment begins: in real mode, bit 0 of [%cr0] being clear, at sixteen times the selector. *)
Definition base (s : core) (g : seg) : Z :=
  if Z.testbit (cr0 s) 0 then match gdtr s !! Z.to_nat (Z.shiftr (sr s g) 3) with Some d => seg_base d | None => 0 end
  else 16 * sr s g.
Definition lin (s : core) (g : seg) (a : Z) : Z := u32 (base s g + a).

Definition push (v : Z) (s : core) : core :=
  let sp := u32 (gr s ESP - 4) in set_ram (store32 (lin s SS sp) v (ram s)) (set_gr ESP sp s).
Definition top (s : core) : Z := load32 (ram s) (lin s SS (gr s ESP)).
Definition drop4 (s : core) : core := set_gr ESP (u32 (gr s ESP + 4)) s.

(** The segment of [d(b)] is the stack's when the base is one of its registers. *)
Definition ea_seg (b : reg) : seg := match b with ESP | EBP => SS | _ => DS end.
Definition ea (s : core) (d : Z) (b : reg) : Z := lin s (ea_seg b) (u32 (gr s b + d)).

(** ** Instructions, operands in the order of the source *)

Inductive instr : Type :=
  | Cli | Cld
  | Movl_load (d : Z) (b r : reg) | Movl_store (r : reg) (d : Z) (b : reg)
  | Movl_abs (a : Z) (r : reg) | Movl_imm (v : Z) (r : reg)
  | Movw_imm (v : Z) (r : reg) | Movw_seg (r : reg) (g : seg) | Xorw (r r' : reg)
  | Addl_imm (v : Z) (r : reg)
  | Pushl_imm (v : Z) | Pushl (r : reg) | Pushl_mem (d : Z) (b : reg) | Pushl_seg (g : seg)
  | Popl_mem (d : Z) (b : reg) | Popl_seg (g : seg) | Pushal | Popal
  | Lgdt (t : list segdesc) | Movl_cr0 (r : reg) | Movl_to_cr0 (r : reg) | Orl_imm (v : Z) (r : reg) | Ljmp (c a : Z)
  | Jmp (a : Z) | Jmp_reg (r : reg) | Call (f next : Z) | Retl | Iret.

(** The general registers in the order pushal saves them, [%esp] as it was. *)
Definition all_regs (s : core) : list Z := gr s <$> [EAX; ECX; EDX; EBX; ESP; EBP; ESI; EDI].
Definition pushes (l : list Z) (s : core) : core := fold_left (fun s v => push v s) l s.

(** popal, which leaves out the saved [%esp]. *)
Definition pop_reg (s : core) (r : reg) : core :=
  if bool_decide (r = ESP) then drop4 s else set_gr r (top s) (drop4 s).
Definition popal (s : core) : core := fold_left pop_reg [EDI; ESI; EBP; ESP; EBX; EDX; ECX; EAX] s.

Definition low16 (v : Z) : Z := v mod 65536.

(** iret; returning to an outer ring it also pops the stack. *)
Definition iret (s : core) : core :=
  let ip := top s in let s1 := drop4 s in
  let c := low16 (top s1) in let s2 := drop4 s1 in
  let f := top s2 in let s3 := drop4 s2 in
  let s4 :=
    if Z.land (sr s CS) 3 <? Z.land c 3 then
      let sp := top s3 in let s4 := drop4 s3 in
      let ss := low16 (top s4) in set_sr SS ss (set_gr ESP sp s4)
    else s3 in
  set_pc ip (set_sr CS c (set_fl f s4)).

Definition step (s : core) (i : instr) : core :=
  match i with
  | Cli => set_fl (Z.land (fl s) (Z.lnot FL_IF)) s
  | Cld => set_fl (Z.land (fl s) (Z.lnot 1024)) s
  | Movl_load d b r => set_gr r (load32 (ram s) (ea s d b)) s
  | Movl_store r d b => set_ram (store32 (ea s d b) (gr s r) (ram s)) s
  | Movl_abs a r => set_gr r (load32 (ram s) (lin s DS a)) s
  | Movl_imm v r => set_gr r (u32 v) s
  | Movw_imm v r => set_gr r (65536 * (gr s r / 65536) + low16 v) s
  | Movw_seg r g => set_sr g (low16 (gr s r)) s
  | Xorw r r' => set_gr r' (65536 * (gr s r' / 65536) + Z.lxor (low16 (gr s r')) (low16 (gr s r))) s
  | Addl_imm v r => set_gr r (u32 (gr s r + v)) s
  | Pushl_imm v => push (u32 v) s
  | Pushl r => push (gr s r) s
  | Pushl_mem d b => push (load32 (ram s) (ea s d b)) s
  | Pushl_seg g => push (sr s g) s
  | Popl_mem d b => let v := top s in let s := drop4 s in set_ram (store32 (ea s d b) v (ram s)) s
  | Popl_seg g => set_sr g (low16 (top s)) (drop4 s)
  | Pushal => pushes (all_regs s) s
  | Popal => popal s
  | Lgdt t => set_gdtr t s
  | Movl_cr0 r => set_gr r (cr0 s) s
  | Movl_to_cr0 r => set_cr0 (gr s r) s
  | Orl_imm v r => set_gr r (Z.lor (gr s r) v) s
  | Ljmp c a => set_pc a (set_sr CS c s)
  | Jmp a => set_pc a s
  | Jmp_reg r => set_pc (gr s r) s
  | Call f next => set_pc f (push next s)
  | Retl => set_pc (top s) (drop4 s)
  | Iret => iret s
  end.
Definition run (code : list instr) (s : core) : core := fold_left step code s.

(** ** swtch.S *)

Definition swtch : list instr :=
  [Movl_load 4 ESP EAX;
   Popl_mem 0 EAX;
   Movl_store ESP 4 EAX; Movl_store EBX 8 EAX; Movl_store ECX 12 EAX; Movl_store EDX 16 EAX;
   Movl_store ESI 20 EAX; Movl_store EDI 24 EAX; Movl_store EBP 28 EAX;
   Movl_load 4 ESP EAX;
   Movl_load 28 EAX EBP; Movl_load 24 EAX EDI; Movl_load 20 EAX ESI; Movl_load 16 EAX EDX;
   Movl_load 12 EAX ECX; Movl_load 8 EAX EBX; Movl_load 4 EAX ESP;
   Pushl_mem 0 EAX;
   Retl].

(** [struct context] of proc.h, and where it is in memory. *)
Record context : Type := Ctx {
  c_eip : Z; c_esp : Z; c_ebx : Z; c_ecx : Z; c_edx : Z; c_esi : Z; c_edi : Z; c_ebp : Z }.
Definition read_context (m : mem) (a : Z) : context :=
  Ctx (load32 m a) (load32 m (a + 4)) (load32 m (a + 8)) (load32 m (a + 12)) (load32 m (a + 16))
          (load32 m (a + 20)) (load32 m (a + 24)) (load32 m (a + 28)).

(** ** vectors.pl, trapasm.S *)

Section trapasm.
(** Addresses of alltraps, of trap and of the instruction after its call. *)
Context (alltraps_ trap_ back : Z).

Definition SEG_KDATA_SEL : Z := 16.

(** The vectors for which an error code is not pushed by the processor. *)
Definition vector (i : Z) : list instr :=
  (if ((i <? 8) || (14 <? i)) && negb (i =? 17) then [Pushl_imm 0] else []) ++ [Pushl_imm i; Jmp alltraps_].
Definition alltraps : list instr :=
  [Pushl_seg DS; Pushl_seg ES; Pushal;
   Movl_imm SEG_KDATA_SEL EAX; Movw_seg EAX DS; Movw_seg EAX ES;
   Pushl ESP; Call trap_ back].
End trapasm.
Definition trapret : list instr := [Popal; Popl_seg ES; Popl_seg DS; Addl_imm 8 ESP; Iret].
Definition after_trap : list instr := Addl_imm 4 ESP :: trapret.
Definition forkret1 : list instr := Movl_load 4 ESP ESP :: trapret.

(** [struct trapframe] of x86.h in memory. *)
Definition read_frame (m : mem) (a : Z) : trapframe :=
  Trapframe (load32 m a) (load32 m (a + 4)) (load32 m (a + 8)) (load32 m (a + 12)) (load32 m (a + 16))
            (load32 m (a + 20)) (load32 m (a + 24)) (load32 m (a + 28))
            (low16 (load32 m (a + 32))) (low16 (load32 m (a + 36))) (load32 m (a + 40)) (load32 m (a + 44))
            (load32 m (a + 48)) (low16 (load32 m (a + 52))) (load32 m (a + 56)) (load32 m (a + 60))
            (low16 (load32 m (a + 64))).

(** An interrupt or trap through the gate [g], with the error code [e] if
    the processor supplies one; [esp0]: the kernel stack the task state
    names, used when coming from an outer ring. *)
Definition interrupt (g : gatedesc) (e : option Z) (esp0 : Z) (s : core) : core :=
  let s1 :=
    if Z.land (gd_cs g) 3 <? Z.land (sr s CS) 3 then
      pushes [sr s SS; gr s ESP] (set_gr ESP esp0 (set_sr SS (Z.shiftl SEG_KDATA 3) s))
    else s in
  let s2 := pushes ([fl s; sr s CS; pc s] ++ match e with Some c => [c] | None => [] end) s1 in
  set_pc (gate_offset g) (set_sr CS (gd_cs g)
    (set_fl (if gd_type g =? STS_IG32 then Z.land (fl s) (Z.lnot FL_IF) else fl s) s2)).

(** ** initcode.S *)

Section initcode.
(** Addresses of the labels, and the numbers of the system calls, which the
    build generates. *)
Context (init argv SYS_exec SYS_exit : Z).

(** Up to the first system call, and from one to the next. *)
Definition start : list instr := [Pushl_imm argv; Pushl_imm init; Pushl_imm 0; Movl_imm SYS_exec EAX].
Definition exit_loop : list instr := [Movl_imm SYS_exit EAX].
End initcode.

(** ** asm.h, bootother.S, bootasm.S *)

(** The bytes of SEG_ASM, and the descriptor the processor reads from eight bytes. *)
Definition SEG_NULLASM : list Z := replicate 8 0.
Definition SEG_ASM (type base lim : Z) : list Z :=
  le_bytes 2 (Z.land (Z.shiftr lim 12) 65535) ++ le_bytes 2 (Z.land base 65535) ++
  [Z.land (Z.shiftr base 16) 255; Z.lor 144 type; Z.lor 192 (Z.land (Z.shiftr lim 28) 15); Z.land (Z.shiftr base 24) 255].
Definition desc_of (b : list Z) : segdesc :=
  let at_ i := nth i b 0 in
  Segdesc (at_ 0%nat + 256 * at_ 1%nat) (at_ 2%nat + 256 * at_ 3%nat) (at_ 4%nat)
          (at_ 5%nat mod 16) (at_ 5%nat / 16 mod 2) (at_ 5%nat / 32 mod 4) (at_ 5%nat / 128)
          (at_ 6%nat mod 16) (at_ 6%nat / 16 mod 2) (at_ 6%nat / 32 mod 2) (at_ 6%nat / 64 mod 2) (at_ 6%nat / 128) (at_ 7%nat).
Definition boot_gdt : list segdesc :=
  desc_of <$> [SEG_NULLASM; SEG_ASM (Z.lor STA_X STA_R) 0 4294967295; SEG_ASM STA_W 0 4294967295].

Definition PROT_MODE_CSEG : Z := 8.
Definition PROT_MODE_DSEG : Z := 16.
Definition CR0_PE_ON : Z := 1.

Definition boot_real : list instr :=
  [Cli; Cld; Xorw EAX EAX; Movw_seg EAX DS; Movw_seg EAX ES; Movw_seg EAX SS].
Definition boot_prot (protcseg : Z) : list instr :=
  [Lgdt boot_gdt; Movl_cr0 EAX; Orl_imm CR0_PE_ON EAX; Movl_to_cr0 EAX; Ljmp PROT_MODE_CSEG protcseg;
   Movw_imm PROT_MODE_DSEG EAX; Movw_seg EAX DS; Movw_seg EAX ES; Movw_seg EAX FS; Movw_seg EAX GS; Movw_seg EAX SS].
Definition bootother (start protcseg : Z) : list instr :=
  boot_real ++ boot_prot protcseg ++ [Movl_abs (start - 4) ESP; Movl_abs (start - 8) EAX; Jmp_reg EAX].

(** seta20: the keyboard controller is polled until it is not busy, twice;
    [None] when it stays busy.  The bytes written to the ports. *)
Fixpoint seta20_wait (polls : list Z) : option (list Z) :=
  match polls with [] => None | al :: polls => if Z.land al 2 =? 0 then Some polls else seta20_wait polls end.
Definition set_al (v : Z) (s : core) : core := set_gr EAX (256 * (gr s EAX / 256) + v) s.
Definition seta20 (polls : list Z) : option (list (Z * Z)) :=
  match seta20_wait polls with
  | None => None
  | Some polls => match seta20_wait polls with None => None | Some _ => Some [(100, 209); (96, 223)] end
  end.
Definition bootasm (polls : list Z) (start protcseg bootmain spin : Z) (s : core) : option (core * list (Z * Z)) :=
  let s1 := run boot_real s in
  match seta20 polls with
  | None => None
  | Some outs => Some (run (boot_prot protcseg ++ [Movl_imm start ESP; Call bootmain spin]) (set_al 223 s1), outs)
  end.

Lemma run_app c c' s : run (c ++ c') s = run c' (run c s).
Proof. apply fold_left_app. Qed.

(** ** The stack *)

(** A segment that begins at address 0. *)
Definition flat (g : seg) (s : core) : Prop := base s g = 0.

Lemma lin_flat g s a : flat g s -> 0 <= a < u32_mod -> lin s g a = a.
Proof. intros H Ha. unfold lin. rewrite H. by apply u32_small. Qed.

Fixpoint words (n : nat) (m : mem) (a : Z) : list Z :=
  match n with O => [] | S n => load32 m a :: words n m (a + 4) end.

Definition word (v : Z) : Prop := 0 <= v < u32_mod.

(** What pushing leaves alone: everything but [%esp] and memory. *)
Definition same_but_stack (s t : core) : Prop :=
  (forall r, r <> ESP -> gr t r = gr s r) /\ (forall g, sr t g = sr s g) /\ pc t = pc s /\ fl t = fl s /\
  cr0 t = cr0 s /\ gdtr t = gdtr s.

#[export] Instance same_but_stack_refl : Reflexive same_but_stack.
Proof. done. Qed.
#[export] Instance same_but_stack_trans : Transitive same_but_stack.
Proof.
  intros s t u (A1 & A2 & A3 & A4 & A5 & A6) (B1 & B2 & B3 & B4 & B5 & B6). split_and!; try congruence. intros r Hr. by rewrite B1, A1.
Qed.

Lemma same_flat g s t : same_but_stack s t -> flat g s -> flat g t.
Proof. intros (_ & Hs & _ & _ & Hc & Hg) H. unfold flat, base in *. by rewrite Hs, Hc, Hg. Qed.

Lemma gr_set_ne r r' v s : r' <> r -> gr (set_gr r v s) r' = gr s r'.
Proof. intros H. simpl. by rewrite bool_decide_eq_false_2. Qed.

Lemma push_spec v s :
  flat SS s -> 4 <= gr s ESP < u32_mod ->
  same_but_stack s (push v s) /\ gr (push v s) ESP = gr s ESP - 4 /\ ram (push v s) = store32 (gr s ESP - 4) v (ram s).
Proof.
  intros Hf He. unfold push. rewrite (u32_small (gr s ESP - 4)) by lia. rewrite lin_flat by (done || lia).
  split_and!; [|done|done]. split_and!; try done. intros r Hr. simpl. by rewrite bool_decide_eq_false_2.
Qed.

(** Words pushed one after the other lie in memory in reverse order. *)
Lemma words_snoc n m a : words (S n) m a = words n m a ++ [load32 m (a + 4 * Z.of_nat n)].
Proof.
  revert a. induction n as [|n IH]; intros a.
  - simpl. by rewrite Z.add_0_r.
  - change (words (S (S n)) m a) with (load32 m a :: words (S n) m (a + 4)). rewrite IH. simpl. do 4 f_equal. lia.
Qed.

Lemma words_ext n m m' a : (forall x, a <= x < a + 4 * Z.of_nat n -> m' x = m x) -> words n m' a = words n m a.
Proof.
  revert a. induction n as [|n IH]; intros a H; [done|]. simpl. f_equal.
  - apply load32_ext. intros x Hx. apply H. lia.
  - apply IH. intros x Hx. apply H. lia.
Qed.

Lemma pushes_spec l s :
  flat SS s -> 4 * Z.of_nat (length l) <= gr s ESP < u32_mod -> Forall word l ->
  let t := pushes l s in
  same_but_stack s t /\ gr t ESP = gr s ESP - 4 * Z.of_nat (length l) /\
  words (length l) (ram t) (gr t ESP) = rev l /\
  (forall x, x < gr t ESP \/ gr s ESP <= x -> ram t x = ram s x).
Proof.
  revert s. induction l as [|v l IH]; intros s Hf He Hl; cbn [length pushes fold_left].
  { split_and!; try done. lia. }
  cbn [length] in He. apply Forall_cons in Hl as [Hv Hl].
  destruct (push_spec v s Hf ltac:(lia)) as (Hs & Hp & Hr).
  destruct (IH (push v s)) as (Hs' & Hp' & Hw & Ho); [by eapply same_flat|rewrite Hp; lia|done|].
  fold (pushes l (push v s)) in *. rewrite Hp in *.
  split_and!; [by etrans|lia| |].
  - rewrite words_snoc, Hw. simpl. do 2 f_equal. rewrite Hp'.
    rewrite (load32_ext (ram (push v s))) by (intros x Hx; apply Ho; lia). rewrite Hr.
    replace (_ + 4 * _) with (gr s ESP - 4) by lia. by apply load32_store32.
  - intros x Hx. rewrite Ho by lia. rewrite Hr. apply store32_out. lia.
Qed.

(** ** Entering the kernel *)

(** Registers hold words and selectors of 16 bits. *)
Record ranged (s : core) : Prop := {
  rg_gr r : word (gr s r);
  rg_sr g : 0 <= sr s g < 65536;
  rg_pc : word (pc s);
  rg_fl : word (fl s) }.

(** The frame of the interrupted core, pushed from its last field on. *)
Definition frame_of (s : core) (i c o : Z) : trapframe :=
  Trapframe (gr s EDI) (gr s ESI) (gr s EBP) o (gr s EBX) (gr s EDX) (gr s ECX) (gr s EAX)
            (sr s ES) (sr s DS) i c (pc s) (sr s CS) (fl s) (gr s ESP) (sr s SS).
Definition frame_words (f : trapframe) : list Z :=
  [tf_ss f; esp f; tf_eflags f; tf_cs f; eip f; err f; trapno f; tf_ds f; tf_es f;
   eax f; ecx f; edx f; ebx f; oesp f; ebp f; esi f; edi f].

Lemma words_frame m a f :
  words 17 m a = rev (frame_words f) ->
  0 <= tf_es f < 65536 -> 0 <= tf_ds f < 65536 -> 0 <= tf_cs f < 65536 -> 0 <= tf_ss f < 65536 -> read_frame m a = f.
Proof.
  intros H Hes Hds Hcs Hss. destruct f. simpl in *. rewrite <-!Z.add_assoc in H. simpl in H. injection H as ? ? ? ? ? ? ? ? ? ? ? ? ? ? ? ? ?.
  unfold read_frame, low16. by f_equal; subst; try apply Z.mod_small.
Qed.

(** Where the error code comes from: the processor, for the vectors that
    push none. *)
Definition code_of (e : option Z) : Z := default 0 e.
Definition supplies (i : Z) (e : option Z) : Prop :=
  is_Some e <-> ((i <? 8) || (14 <? i)) && negb (i =? 17) = false.

(** Pushing commutes with the changes of control an interrupt makes. *)
Definition enter (p c f : Z) (s : core) : core := set_pc p (set_sr CS c (set_fl f s)).

Lemma pushes_enter l p c f s : pushes l (enter p c f s) = enter p c f (pushes l s).
Proof. revert s. induction l as [|v l IH]; intros s; [done|]. exact (IH (push v s)). Qed.

Lemma pushes_app l l' s : pushes (l ++ l') s = pushes l' (pushes l s).
Proof. apply fold_left_app. Qed.

Lemma pushes_gr l s r : r <> ESP -> gr (pushes l s) r = gr s r.
Proof.
  intros Hr. revert s. induction l as [|v l IH]; intros s; [done|]. unfold pushes in *. simpl. rewrite IH.
  simpl. by rewrite bool_decide_eq_false_2.
Qed.

Lemma pushes_sr l s g : sr (pushes l s) g = sr s g.
Proof. revert s. induction l as [|v l IH]; intros s; [done|]. exact (IH (push v s)). Qed.

(** The core at the call of trap: the frame as one list of pushes. *)
Definition on_kstack (esp0 : Z) (s : core) : core := set_gr ESP esp0 (set_sr SS 16 s).
Definition gate_fl (g : gatedesc) (s : core) : Z := if gd_type g =? STS_IG32 then Z.land (fl s) (Z.lnot FL_IF) else fl s.
Definition at_trap (trap_ back : Z) (t : core) : core :=
  set_pc trap_ (pushes [gr t ESP; back] (set_sr ES 16 (set_sr DS 16 (set_gr EAX 16 t)))).

Lemma run_alltraps alltraps_ trap_ back l p c f k :
  run (alltraps trap_ back) (set_pc alltraps_ (enter p c f (pushes l k))) =
  at_trap trap_ back (enter alltraps_ c f (pushes (l ++ [sr k DS; sr k ES] ++
    [gr k EAX; gr k ECX; gr k EDX; gr k EBX; gr (pushes (l ++ [sr k DS; sr k ES]) k) ESP; gr k EBP; gr k ESI; gr k EDI]) k)).
Proof.
  unfold run, alltraps. cbn [fold_left].
  change (set_pc alltraps_ (enter p c f (pushes l k))) with (enter alltraps_ c f (pushes l k)).
  change (step (step ?s (Pushl_seg DS)) (Pushl_seg ES)) with (pushes [sr s DS; sr s ES] s).
  rewrite pushes_enter. change (sr (enter alltraps_ c f (pushes l k)) ?g) with (sr (pushes l k) g). rewrite !pushes_sr, <-pushes_app.
  set (q := pushes (l ++ _) k). change (step (enter alltraps_ c f q) Pushal) with (pushes (all_regs q) (enter alltraps_ c f q)).
  rewrite pushes_enter. unfold all_regs. simpl fmap. assert (Hq : forall r, r <> ESP -> gr q r = gr k r) by (intros r Hr; by apply pushes_gr).
  rewrite (Hq EAX), (Hq ECX), (Hq EDX), (Hq EBX), (Hq EBP), (Hq ESI), (Hq EDI) by done.
  unfold q at 2. rewrite <-pushes_app, <-app_assoc. fold q. reflexivity.
Qed.

Lemma run_vector a i p c f l k :
  0 <= i < 256 ->
  run (vector a i) (enter p c f (pushes l k)) =
  set_pc a (enter p c f (pushes (l ++ (if ((i <? 8) || (14 <? i)) && negb (i =? 17) then [0] else []) ++ [i]) k)).
Proof.
  intros Hi. unfold vector. assert (Hu : u32 i = i) by (apply u32_small; unfold u32_mod; lia).
  rewrite pushes_app. destruct (((i <? 8) || (14 <? i)) && negb (i =? 17)); unfold run; cbn [app fold_left step]; rewrite Hu.
  - change (push i (push (u32 0) ?s)) with (pushes [0; i] s). by rewrite pushes_enter.
  - change (push i ?s) with (pushes [i] s). by rewrite pushes_enter.
Qed.

(** From the interrupt to the call of trap: [l0] is what the change of stack
    has pushed on [k]. *)
Lemma run_entry alltraps_ trap_ back i e p c f l0 s k :
  0 <= i < 256 -> supplies i e -> sr k DS = sr s DS -> sr k ES = sr s ES -> (forall r, r <> ESP -> gr k r = gr s r) ->
  exists o, run (vector alltraps_ i ++ alltraps trap_ back) (enter p c f (pushes (l0 ++ [fl s; sr s CS; pc s] ++ match e with Some c => [c] | None => [] end) k)) =
    at_trap trap_ back (enter alltraps_ c f (pushes (l0 ++ drop 2 (frame_words (frame_of s i (code_of e) o))) k)) /\
    o = gr (pushes (l0 ++ take 7 (drop 2 (frame_words (frame_of s i (code_of e) 0)))) k) ESP.
Proof.
  intros Hi He Hds Hes Hr. unfold run. rewrite fold_left_app. fold (run (vector alltraps_ i)).
  match goal with |- context [fold_left step (alltraps trap_ back) ?x] => change (fold_left step (alltraps trap_ back) x) with (run (alltraps trap_ back) x) end.
  rewrite run_vector, run_alltraps by done. rewrite Hds, Hes, !Hr by done.
  match goal with |- context [gr (pushes ?l k) ESP] => set (o := gr (pushes l k) ESP); exists o end.
  assert (Hl : (if ((i <? 8) || (14 <? i)) && negb (i =? 17) then [0] else []) = match e with Some _ => [] | None => [0] end).
  { unfold supplies in He. destruct e as [x|], (((i <? 8) || (14 <? i)) && negb (i =? 17)); try done; destruct He as [H1 H2].
    - discriminate H1. by eexists.
    - by destruct (H2 eq_refl). }
  unfold o. rewrite Hl. clear o Hl. split.
  - f_equal. f_equal. rewrite <-!app_assoc. by destruct e.
  - rewrite <-!app_assoc. by destruct e.
Qed.

Lemma at_trap_spec trap_ back p c f L k :
  flat SS k -> word back -> Forall word L -> 4 * Z.of_nat (length L) + 8 <= gr k ESP < u32_mod ->
  let u := at_trap trap_ back (enter p c f (pushes L k)) in
  let a := gr k ESP - 4 * Z.of_nat (length L) in
  pc u = trap_ /\ gr u ESP = a - 8 /\ load32 (ram u) (a - 4) = a /\ load32 (ram u) (a - 8) = back /\
  words (length L) (ram u) a = rev L /\
  sr u CS = c /\ sr u DS = 16 /\ sr u ES = 16 /\ sr u SS = sr k SS /\ fl u = f /\ cr0 u = cr0 k /\ gdtr u = gdtr k /\
  (forall x, x < a - 8 \/ gr k ESP <= x -> ram u x = ram k x).
Proof.
  intros Hf Hb HL He u a. destruct (pushes_spec L k Hf ltac:(lia) HL) as ((Hg1 & Hg2 & _ & Hg4 & Hg5 & Hg6) & Hp & Hw & Ho).
  set (t := pushes L k) in *. set (v := set_sr ES 16 (set_sr DS 16 (set_gr EAX 16 (enter p c f t)))).
  assert (Hu : u = set_pc trap_ (pushes [gr t ESP; back] v)) by done. clearbody u. subst u.
  assert (Ht : gr t ESP = a) by (subst a; lia).
  assert (Hv : gr v ESP = a) by exact Ht.
  assert (Hfv : flat SS v). { unfold flat, base in *. simpl. by rewrite Hg5, Hg6, Hg2. }
  destruct (pushes_spec [gr t ESP; back] v Hfv) as ((_ & Hv2 & _ & Hv4 & Hv5 & Hv6) & Hvp & Hvw & Hvo).
  { simpl. lia. }
  { repeat constructor; try apply Hb; rewrite Ht; lia. }
  generalize dependent (pushes [gr t ESP; back] v). intros w Hv2 Hv4 Hv5 Hv6 Hvp Hvw Hvo.
  rewrite Hv, Ht in *. simpl in Hvp, Hvw. replace (a - 4 * Z.of_nat 2) with (a - 8) in Hvp by lia. rewrite Hvp in *.
  replace (a - 8 + 4) with (a - 4) in Hvw by lia. injection Hvw as Hw1 Hw2. cbn [set_pc pc gr ram sr fl cr0 gdtr]. split_and!; try done.
  - rewrite <-Hw, Hp. apply words_ext. intros x Hx. apply Hvo. lia.
  - rewrite Hv2. exact (Hg2 SS).
  - by rewrite Hv5.
  - by rewrite Hv6.
  - intros x Hx. rewrite Hvo by lia. simpl. apply Ho. lia.
Qed.

(** ** Leaving the kernel *)

Lemma top_flat s : flat SS s -> word (gr s ESP) -> top s = load32 (ram s) (gr s ESP).
Proof. intros Hf He. unfold top. by rewrite lin_flat. Qed.

Lemma drop4_esp s : 0 <= gr s ESP -> gr s ESP + 4 < u32_mod -> gr (drop4 s) ESP = gr s ESP + 4.
Proof. intros H1 H2. apply u32_small. lia. Qed.

(** Registers popped in a row take consecutive words. *)
Lemma pops_spec rs s :
  flat SS s -> NoDup rs -> 0 <= gr s ESP -> gr s ESP + 4 * Z.of_nat (length rs) < u32_mod ->
  let t := fold_left pop_reg rs s in
  (forall i r, rs !! i = Some r -> r <> ESP -> gr t r = load32 (ram s) (gr s ESP + 4 * Z.of_nat i)) /\
  (forall r, r ∉ rs -> r <> ESP -> gr t r = gr s r) /\
  gr t ESP = gr s ESP + 4 * Z.of_nat (length rs) /\
  sr t = sr s /\ pc t = pc s /\ fl t = fl s /\ cr0 t = cr0 s /\ gdtr t = gdtr s /\ ram t = ram s.
Proof.
  revert s. induction rs as [|q rs IH]; intros s Hf Hnd He Hl; cbn [fold_left length].
  { split_and!; try done. lia. }
  apply NoDup_cons in Hnd as [Hq Hnd]. cbn [length] in Hl.
  assert (Hp : gr (pop_reg s q) ESP = gr s ESP + 4 /\ ram (pop_reg s q) = ram s /\ sr (pop_reg s q) = sr s /\ pc (pop_reg s q) = pc s /\
    fl (pop_reg s q) = fl s /\ cr0 (pop_reg s q) = cr0 s /\ gdtr (pop_reg s q) = gdtr s /\
    (q <> ESP -> gr (pop_reg s q) q = load32 (ram s) (gr s ESP)) /\ (forall r, r <> q -> r <> ESP -> gr (pop_reg s q) r = gr s r)).
  { rewrite <-top_flat by (done || split; lia). pose proof (drop4_esp s He ltac:(lia)) as Hd. unfold pop_reg.
    destruct (decide (q = ESP)) as [->|Hne]; [rewrite bool_decide_eq_true_2 by done|rewrite bool_decide_eq_false_2 by done].
    - split_and!; try done. intros r _ Hr. by apply gr_set_ne.
    - split_and!; try done.
      + by rewrite gr_set_ne by congruence.
      + intros _. simpl. by rewrite bool_decide_eq_true_2.
      + intros r Hr Hr'. rewrite gr_set_ne by done. by apply gr_set_ne. }
  destruct Hp as (P1 & P2 & P3 & P4 & P5 & P6 & P7 & P8 & P9).
  destruct (IH (pop_reg s q)) as (I1 & I2 & I3 & I4 & I5 & I6 & I7 & I8 & I9); [|done|lia|lia|].
  { unfold flat, base in *. by rewrite P6, P7, P3. }
  split_and!; try congruence; [| |lia].
  - intros [|i] r Hi Hr; simpl in Hi.
    + injection Hi as <-. rewrite I2 by done. rewrite P8 by done. f_equal. lia.
    + rewrite (I1 i r) by done. rewrite P1, P2. f_equal. lia.
  - intros r Hr Hr'. apply not_elem_of_cons in Hr as [Hr1 Hr2]. rewrite I2 by done. by apply P9.
Qed.

Definition resumed (f : trapframe) (t : core) : Prop :=
  gr t EAX = eax f /\ gr t EBX = ebx f /\ gr t ECX = ecx f /\ gr t EDX = edx f /\
  gr t ESI = esi f /\ gr t EDI = edi f /\ gr t EBP = ebp f /\
  sr t ES = tf_es f /\ sr t DS = tf_ds f /\ sr t CS = tf_cs f /\ pc t = eip f /\ fl t = tf_eflags f.

(** The stack pointer at [b] in a flat stack over the memory [m]. *)
Definition stk (m : mem) (b : Z) (s : core) : Prop := flat SS s /\ gr s ESP = b /\ ram s = m.

Lemma stk_top m b s : stk m b s -> word b -> top s = load32 m b.
Proof. intros (Hf & <- & <-) Hb. by apply top_flat. Qed.

Lemma stk_drop4 m b b' s : stk m b s -> b' = b + 4 -> 0 <= b -> b' < u32_mod -> stk m b' (drop4 s).
Proof. intros (Hf & <- & <-) -> H1 H2. split_and!; [done|by apply drop4_esp|done]. Qed.

Lemma gr_drop4 s r : r <> ESP -> gr (drop4 s) r = gr s r.
Proof. apply gr_set_ne. Qed.

Lemma iret_spec m b s :
  stk m b s -> 0 <= b -> b + 20 < u32_mod ->
  let t := iret s in let c := low16 (load32 m (b + 4)) in
  (forall r, r <> ESP -> gr t r = gr s r) /\ sr t ES = sr s ES /\ sr t DS = sr s DS /\ sr t CS = c /\
  pc t = load32 m b /\ fl t = load32 m (b + 8) /\ ram t = m /\ cr0 t = cr0 s /\ gdtr t = gdtr s /\
  (if Z.land (sr s CS) 3 <? Z.land c 3 then gr t ESP = load32 m (b + 12) /\ sr t SS = low16 (load32 m (b + 16))
   else gr t ESP = b + 12 /\ sr t SS = sr s SS).
Proof.
  intros Hs H0 H1 t c. assert (Ht : t = iret s) by done. clearbody t. unfold iret in Ht.
  pose proof (stk_drop4 _ _ (b + 4) _ Hs ltac:(lia) ltac:(lia) ltac:(lia)) as Hs1.
  pose proof (stk_drop4 _ _ (b + 8) _ Hs1 ltac:(lia) ltac:(lia) ltac:(lia)) as Hs2.
  pose proof (stk_drop4 _ _ (b + 12) _ Hs2 ltac:(lia) ltac:(lia) ltac:(lia)) as Hs3.
  pose proof (stk_drop4 _ _ (b + 16) _ Hs3 ltac:(lia) ltac:(lia) ltac:(lia)) as Hs4.
  assert (E0 := stk_top _ _ _ Hs ltac:(split; lia)). assert (E1 := stk_top _ _ _ Hs1 ltac:(split; lia)).
  assert (E2 := stk_top _ _ _ Hs2 ltac:(split; lia)). assert (E3 := stk_top _ _ _ Hs3 ltac:(split; lia)).
  assert (E4 := stk_top _ _ _ Hs4 ltac:(split; lia)). cbv zeta in Ht. rewrite E0, E1, E2, E3, E4 in Ht. fold c in Ht.
  pose proof (proj2 (proj2 Hs)) as Hm. pose proof (proj1 (proj2 Hs3)) as He.
  assert (Hg : forall r, r <> ESP -> gr (drop4 (drop4 (drop4 s))) r = gr s r) by (intros r Hr; by rewrite !gr_drop4).
  subst t. destruct (Z.land (sr s CS) 3 <? Z.land c 3).
  - split_and!; try done. intros r Hr. cbn [set_pc set_sr set_fl gr]. rewrite gr_set_ne, gr_drop4 by done. by apply Hg.
  - split_and!; try done.
Qed.

Lemma popal_spec s a :
  stk (ram s) a s -> 0 <= a -> a + 32 < u32_mod ->
  let q := popal s in
  stk (ram s) (a + 32) q /\ sr q = sr s /\ cr0 q = cr0 s /\ gdtr q = gdtr s /\
  gr q EDI = load32 (ram s) a /\ gr q ESI = load32 (ram s) (a + 4) /\ gr q EBP = load32 (ram s) (a + 8) /\
  gr q EBX = load32 (ram s) (a + 16) /\ gr q EDX = load32 (ram s) (a + 20) /\ gr q ECX = load32 (ram s) (a + 24) /\
  gr q EAX = load32 (ram s) (a + 28).
Proof.
  intros (Hf & Ha & _) H0 H1 q.
  destruct (pops_spec [EDI; ESI; EBP; ESP; EBX; EDX; ECX; EAX] s Hf) as (P1 & _ & P3 & P4 & _ & _ & P7 & P8 & P9).
  { by apply (bool_decide_unpack _). } { lia. } { simpl. lia. }
  change (fold_left _ _ s) with q in *. clearbody q. rewrite Ha in *. split_and!; try done.
  - split_and!; [|done|done]. unfold flat, base in *. by rewrite P7, P8, P4.
  - rewrite (P1 0%nat EDI) by done. f_equal. lia.
  - by apply (P1 1%nat).
  - by apply (P1 2%nat).
  - by apply (P1 4%nat).
  - by apply (P1 5%nat).
  - by apply (P1 6%nat).
  - by apply (P1 7%nat).
Qed.

Lemma trapret_spec s a :
  stk (ram s) a s -> 0 <= a -> a + 68 < u32_mod ->
  let f := read_frame (ram s) a in let t := run trapret s in
  resumed f t /\ ram t = ram s /\ cr0 t = cr0 s /\ gdtr t = gdtr s /\
  (if Z.land (sr s CS) 3 <? Z.land (tf_cs f) 3 then gr t ESP = esp f /\ sr t SS = tf_ss f
   else gr t ESP = a + 60 /\ sr t SS = sr s SS).
Proof.
  intros Hs H0 H1. destruct (popal_spec s a Hs H0 ltac:(lia)) as (Hq & P4 & P7 & P8 & R0 & R1 & R2 & R4 & R5 & R6 & R7).
  unfold run, trapret. cbn [fold_left]. change (step s Popal) with (popal s).
  revert Hq P4 P7 P8 R0 R1 R2 R4 R5 R6 R7. generalize (popal s). intros q Hq P4 P7 P8 R0 R1 R2 R4 R5 R6 R7.
  set (q1 := step q (Popl_seg ES)). set (q2 := step q1 (Popl_seg DS)). set (q3 := step q2 (Addl_imm 8 ESP)).
  assert (Hq1 : stk (ram s) (a + 36) q1). { exact (stk_drop4 _ (a + 32) (a + 36) q Hq ltac:(lia) ltac:(lia) ltac:(lia)). }
  assert (Hq2 : stk (ram s) (a + 40) q2). { exact (stk_drop4 _ (a + 36) (a + 40) q1 Hq1 ltac:(lia) ltac:(lia) ltac:(lia)). }
  assert (Hq3 : stk (ram s) (a + 48) q3).
  { destruct Hq2 as (F & E & M). split_and!; [exact F| |exact M]. change (u32 (gr q2 ESP + 8) = a + 48). rewrite E, u32_small; lia. }
  destruct (iret_spec _ _ _ Hq3 ltac:(lia) ltac:(lia)) as (I1 & I2 & I3 & I4 & I5 & I6 & I7 & I8 & I9 & I10).
  change (step q3 Iret) with (iret q3). rewrite <-!Z.add_assoc in *. cbn [Z.add Pos.add Pos.succ] in *.
  assert (Hg : forall r, r <> ESP -> gr q3 r = gr q r).
  { intros r Hr. unfold q3. cbn [step]. rewrite gr_set_ne by done. exact (eq_trans (gr_drop4 q1 r Hr) (gr_drop4 q r Hr)). }
  assert (Hcs : sr q3 CS = sr s CS) by (rewrite <-P4; done). assert (Hss : sr q3 SS = sr s SS) by (rewrite <-P4; done).
  rewrite Hcs, Hss in I10. split_and!; [|by rewrite I7|by rewrite I8, <-P7|by rewrite I9, <-P8|exact I10].
  unfold resumed. rewrite !I1, !Hg by done. unfold read_frame. cbn [eax ebx ecx edx esi edi ebp tf_es tf_ds tf_cs eip tf_eflags].
  rewrite R0, R1, R2, R4, R5, R6, R7, I4, I5, I6, I2, I3. split_and!; try done.
  - change (low16 (top q) = low16 (load32 (ram s) (a + 32))). f_equal. apply (stk_top _ _ _ Hq). split; lia.
  - change (low16 (top q1) = low16 (load32 (ram s) (a + 36))). f_equal. apply (stk_top _ _ _ Hq1). split; lia.
Qed.

(** ** A trap, seen from the program it interrupts *)

(** Protected mode with the descriptors setupsegs builds. *)
Definition running (ts : Z) (p : option proc) (s : core) : Prop := Z.testbit (cr0 s) 0 = true /\ gdtr s = gdt_of ts p.

Lemma running_flat ts p s g : running ts p s -> sr s g = 16 -> flat g s.
Proof. intros [Hc Hg] Hs. unfold flat, base. rewrite Hc, Hg, Hs. vm_compute. reflexivity. Qed.

Lemma tvinit_gate vectors i g :
  0 <= i -> tvinit vectors !! Z.to_nat i = Some g ->
  gd_cs g = 8 /\ gd_type g = if i =? T_SYSCALL then STS_TG32 else STS_IG32.
Proof.
  intros Hi H. unfold tvinit in H. cbv zeta in H. apply list_lookup_insert_Some in H as [(E & <- & _)|(E & H)].
  - assert (i = T_SYSCALL) as -> by (unfold T_SYSCALL in *; lia). done.
  - apply list_lookup_fmap_Some in H as (v & -> & _). split; [done|]. destruct (Z.eqb_spec i T_SYSCALL) as [->|]; done.
Qed.

Lemma gate_fl_IF i g s :
  gd_type g = (if i =? T_SYSCALL then STS_TG32 else STS_IG32) ->
  Z.testbit (gate_fl g s) 9 = (i =? T_SYSCALL) && Z.testbit (fl s) 9.
Proof.
  intros Hg. unfold gate_fl. rewrite Hg. destruct (i =? T_SYSCALL); [done|]. change (STS_IG32 =? STS_IG32) with true. cbv iota.
  rewrite Z.land_spec. change (Z.testbit (Z.lnot FL_IF) 9) with false. apply andb_false_r.
Qed.

(** The words of a frame are words when its registers are. *)
Lemma frame_of_words s i e o :
  ranged s -> 0 <= i < 256 -> (forall c, e = Some c -> word c) -> word o ->
  Forall word (frame_words (frame_of s i (code_of e) o)).
Proof.
  intros Hs Hi He Ho. destruct Hs as [Hr Hg Hp Hf]. unfold word, u32_mod in *.
  assert (0 <= code_of e < 4294967296) by (destruct e as [c|]; simpl; [by apply He|lia]).
  unfold frame_words, frame_of. simpl. repeat (constructor; [first [done | apply Hr | pose proof (Hg SS); pose proof (Hg CS); pose proof (Hg DS); pose proof (Hg ES); lia]|]).
  constructor.
Qed.

Lemma pushes_esp l s :
  flat SS s -> 4 * Z.of_nat (length l) <= gr s ESP < u32_mod -> Forall word l -> word (gr (pushes l s) ESP).
Proof. intros Hf He Hl. destruct (pushes_spec l s Hf He Hl) as (_ & -> & _). split; lia. Qed.

(** From user mode: the interrupt changes to the process's kernel stack. *)
Lemma user_entry alltraps_ trap_ back i e g esp0 s ts p :
  running ts p s -> Z.land (sr s CS) 3 = 3 -> gd_cs g = 8 -> ranged s -> 0 <= i < 256 -> supplies i e ->
  (forall c, e = Some c -> word c) -> word back -> 76 <= esp0 < u32_mod ->
  let u := run (vector alltraps_ i ++ alltraps trap_ back) (interrupt g e esp0 s) in
  pc u = trap_ /\ gr u ESP = esp0 - 76 /\ load32 (ram u) (esp0 - 72) = esp0 - 68 /\ load32 (ram u) (esp0 - 76) = back /\
  (exists o, read_frame (ram u) (esp0 - 68) = frame_of s i (code_of e) o) /\
  sr u CS = 8 /\ sr u DS = 16 /\ sr u ES = 16 /\ sr u SS = 16 /\ fl u = gate_fl g s /\ running ts p u /\
  (forall x, x < esp0 - 76 \/ esp0 <= x -> ram u x = ram s x).
Proof.
  intros Hk Hc Hg Hs Hi He Hw Hb H0. unfold interrupt. rewrite Hg, Hc. change (Z.land 8 3 <? 3) with true. cbv iota zeta.
  set (k := set_gr ESP esp0 (set_sr SS (Z.shiftl SEG_KDATA 3) s)). fold (gate_fl g s).
  match goal with |- context [set_pc ?a (set_sr CS 8 (set_fl ?f (pushes ?l2 (pushes ?l1 k))))] =>
    change (set_pc a (set_sr CS 8 (set_fl f (pushes l2 (pushes l1 k))))) with (enter a 8 f (pushes l2 (pushes l1 k))) end.
  rewrite <-pushes_app.
  destruct (run_entry alltraps_ trap_ back i e (gate_offset g) 8 (gate_fl g s) [sr s SS; gr s ESP] s k Hi He eq_refl eq_refl) as (o & -> & Ho).
  { intros r Hr. exact (gr_set_ne ESP r esp0 (set_sr SS 16 s) Hr). }
  assert (Hf : flat SS k) by (apply (running_flat ts p); done).
  assert (Hzero : word 0) by done.
  assert (Hwo : word o).
  { rewrite Ho. apply pushes_esp; [done| |].
    - change (gr k ESP) with esp0. simpl. lia.
    - exact (Forall_take word 9 _ (frame_of_words s i e 0 Hs Hi Hw Hzero)). }
  clear Ho. pose proof (frame_of_words s i e o Hs Hi Hw Hwo) as HL.
  change ([sr s SS; gr s ESP] ++ drop 2 (frame_words (frame_of s i (code_of e) o))) with (frame_words (frame_of s i (code_of e) o)).
  destruct (at_trap_spec trap_ back alltraps_ 8 (gate_fl g s) _ k Hf Hb HL) as (A1 & A2 & A3 & A4 & A5 & A6 & A7 & A8 & A9 & A10 & A11 & A12 & A13).
  { change (gr k ESP) with esp0. simpl. lia. }
  change (gr k ESP) with esp0 in *. change (4 * Z.of_nat (length (frame_words _))) with 68 in *. replace (esp0 - 68 - 8) with (esp0 - 76) in * by lia.
  replace (esp0 - 68 - 4) with (esp0 - 72) in A3 by lia. split_and!; try done.
  exists o. pose proof (rg_sr s Hs) as Hsr. apply words_frame; [exact A5|apply Hsr..].
Qed.

(** The way back, the stack pointer being above the pointer to the frame [f]. *)
Lemma user_exit ts p a f v :
  running ts p v -> sr v SS = 16 -> sr v CS = 8 -> gr v ESP = a - 4 -> 4 <= a -> a + 68 < u32_mod ->
  read_frame (ram v) a = f -> Z.land (tf_cs f) 3 = 3 ->
  let w := run after_trap v in
  resumed f w /\ gr w ESP = esp f /\ sr w SS = tf_ss f /\ ram w = ram v /\ running ts p w.
Proof.
  intros Hk Hss Hcs He H0 H1 Hf Hu. set (v' := step v (Addl_imm 4 ESP)). change (run after_trap v) with (run trapret v').
  destruct (trapret_spec v' a) as (R & M & C & G & E); [|lia|lia|].
  - split_and!; [exact (running_flat ts p v SS Hk Hss)| |done]. change (u32 (gr v ESP + 4) = a). rewrite He, u32_small; lia.
  - change (ram v') with (ram v) in *. rewrite Hf in *. change (sr v' CS) with (sr v CS) in E. rewrite Hcs, Hu in E.
    change (Z.land 8 3 <? 3) with true in E. destruct E as [E1 E2]. destruct Hk as [Hk1 Hk2].
    split_and!; try done. split; [by rewrite C|by rewrite G].
Qed.



(** A system call from a program in user mode, which the kernel answers with 42. *)
Definition demo_proc : proc := Proc 65536 8192 200704 RUNNING 1 None None 0 [] None zero_tf [] 100 0 empty_ct.
Definition demo_core : core :=
  Core (fun r => match r with EAX => 7 | ECX => 1 | EDX => 2 | EBX => 3 | ESP => 8180 | EBP => 8188 | ESI => 4 | EDI => 5 end)
       (fun g => match g with CS => 27 | _ => 35 end) 64 FL_IF 1 (gdt_of 4096 (Some demo_proc)) (fun _ => 0).
Definition demo_gate : gatedesc := SETGATE 1 8 1048576 DPL_USER.
Definition demo_entry : core := run (vector 1049000 48 ++ alltraps 1050000 1049100) (interrupt demo_gate None 204800 demo_core).
Definition demo_back : core := set_ram (store32 (204732 + 28) 42 (ram demo_entry)) (drop4 demo_entry).


(** ** Switching between processes *)

Lemma step_store x d b r s :
  flat (ea_seg b) s -> gr s b = x -> word (x + d) ->
  step s (Movl_store r d b) = set_ram (store32 (x + d) (gr s r) (ram s)) s.
Proof. intros Hf <- Hw. cbn [step]. unfold ea. rewrite (u32_small _ Hw). by rewrite lin_flat. Qed.

Lemma step_load x d b r s :
  flat (ea_seg b) s -> gr s b = x -> word (x + d) -> step s (Movl_load d b r) = set_gr r (load32 (ram s) (x + d)) s.
Proof. intros Hf <- Hw. cbn [step]. unfold ea. rewrite (u32_small _ Hw). by rewrite lin_flat. Qed.

(** Words stored one after the other. *)
Fixpoint store_words (a : Z) (l : list Z) (m : mem) : mem :=
  match l with [] => m | v :: l => store_words (a + 4) l (store32 a v m) end.

Lemma store_words_out a l m x : x < a \/ a + 4 * Z.of_nat (length l) <= x -> store_words a l m x = m x.
Proof.
  revert a m. induction l as [|v l IH]; intros a m Hx; [done|]. cbn [store_words length] in *. rewrite IH by lia. apply store32_out. lia.
Qed.

Lemma words_store_words a l m : Forall word l -> words (length l) (store_words a l m) a = l.
Proof.
  intros Hl. revert a m. induction Hl as [|v l Hv Hl IH]; intros a m; [done|]. cbn [length words store_words]. f_equal; [|apply IH].
  rewrite (load32_ext (store32 a v m)); [by apply load32_store32|]. intros x Hx. apply store_words_out. lia.
Qed.

Definition context_words (c : context) : list Z := [c_eip c; c_esp c; c_ebx c; c_ecx c; c_edx c; c_esi c; c_edi c; c_ebp c].

Lemma words_context m a c : words 8 m a = context_words c -> read_context m a = c.
Proof.
  intros H. destruct c. simpl in H. rewrite <-!Z.add_assoc in H. simpl in H. injection H as ? ? ? ? ? ? ? ?.
  unfold read_context. by f_equal.
Qed.

(** What swtch saves of its caller: the registers as they will be when it returns. *)
Definition context_of (s : core) : context :=
  Ctx (top s) (gr s ESP + 4) (gr s EBX) (gr s ECX) (gr s EDX) (gr s ESI) (gr s EDI) (gr s EBP).

Lemma swtch_save s old :
  flat SS s -> flat DS s -> 0 <= gr s ESP -> gr s ESP + 8 < u32_mod ->
  load32 (ram s) (gr s ESP + 4) = old -> 0 <= old -> old + 32 < u32_mod ->
  run (take 9 swtch) s =
  set_ram (store_words old (context_words (context_of s)) (ram s)) (drop4 (set_gr EAX old s)).
Proof.
  intros Hf Hd H0 H1 Ho O0 O1. unfold run. cbn [take swtch fold_left].
  rewrite (step_load (gr s ESP) 4 ESP EAX s) by (done || split; lia). rewrite Ho.
  set (s1 := set_gr EAX old s). assert (Ht : top s1 = top s) by done.
  assert (E2 : step s1 (Popl_mem 0 EAX) = set_ram (store32 old (top s) (ram s)) (drop4 s1)).
  { cbn [step]. rewrite Ht. unfold ea. change (gr (drop4 s1) EAX) with old. rewrite Z.add_0_r, u32_small by lia.
    rewrite lin_flat; [done|exact Hd|split; lia]. }
  rewrite E2. clear E2. assert (He : gr (drop4 s1) ESP = gr s ESP + 4) by exact (drop4_esp s1 H0 (Z.lt_trans _ _ _ (proj1 (Z.add_lt_mono_l 4 8 (gr s ESP)) eq_refl) H1)).
  repeat match goal with |- context [step ?s (Movl_store ?r ?d EAX)] =>
    rewrite (step_store old d EAX r s) by first [exact Hd | reflexivity | split; lia] end.
  unfold context_words, context_of. cbn [store_words c_eip c_esp c_ebx c_ecx c_edx c_esi c_edi c_ebp].
  rewrite <-He, <-!Z.add_assoc. cbn [Z.add Pos.add Pos.succ]. reflexivity.
Qed.

(** A core that runs from the context [c]. *)
Definition switched (c : context) (t : core) : Prop :=
  pc t = c_eip c /\ gr t ESP = c_esp c /\ gr t EBX = c_ebx c /\ gr t ECX = c_ecx c /\ gr t EDX = c_edx c /\
  gr t ESI = c_esi c /\ gr t EDI = c_edi c /\ gr t EBP = c_ebp c.

Lemma swtch_load t new :
  flat SS t -> flat DS t -> 0 <= gr t ESP -> gr t ESP + 4 < u32_mod ->
  load32 (ram t) (gr t ESP + 4) = new -> 0 <= new -> new + 32 < u32_mod ->
  let c := read_context (ram t) new in let u := run (drop 9 swtch) t in
  4 <= c_esp c -> c_esp c < u32_mod -> word (c_eip c) ->
  switched c u /\ (forall g, sr u g = sr t g) /\ fl u = fl t /\ cr0 u = cr0 t /\ gdtr u = gdtr t /\ ram u = store32 (c_esp c - 4) (c_eip c) (ram t).
Proof.
  intros Hf Hd H0 H1 Hn N0 N1 c. unfold run. cbn [drop swtch fold_left].
  rewrite (step_load (gr t ESP) 4 ESP EAX t) by (done || split; lia). rewrite Hn.
  repeat match goal with |- context [step ?s (Movl_load ?d EAX ?r)] =>
    rewrite (step_load new d EAX r s) by first [exact Hd | reflexivity | split; lia] end.
  set (u1 := set_gr ESP _ _). intros Hc1 Hc2 Hc3.
  assert (E1 : gr u1 ESP = c_esp c) by done. assert (F1 : flat SS u1) by done.
  assert (E2 : step u1 (Pushl_mem 0 EAX) = push (c_eip c) u1).
  { cbn [step]. unfold ea. change (gr u1 EAX) with new. rewrite Z.add_0_r, u32_small by lia. by rewrite (lin_flat DS) by (done || split; lia). }
  rewrite E2. clear E2. destruct (push_spec (c_eip c) u1 F1) as (Hs & Pe & Pr); [lia|].
  assert (F2 : flat SS (push (c_eip c) u1)) by (eapply same_flat; [exact Hs|exact F1]).
  assert (Ht : top (push (c_eip c) u1) = c_eip c).
  { rewrite top_flat by (done || rewrite Pe; split; lia). rewrite Pe, Pr, E1. by apply load32_store32. }
  cbn [step]. rewrite Ht. clear Ht F2. generalize dependent (push (c_eip c) u1). intros u2 (P1 & P2 & P3 & P4 & P5 & P6) Pe Pr.
  rewrite E1 in *. unfold switched. cbn [set_pc pc fl cr0 gdtr ram].
  change (fl (drop4 u2)) with (fl u2). change (cr0 (drop4 u2)) with (cr0 u2).
  change (gdtr (drop4 u2)) with (gdtr u2). change (ram (drop4 u2)) with (ram u2).
  assert (Hg : forall r, r <> ESP -> gr (set_pc (c_eip c) (drop4 u2)) r = gr u1 r) by (intros r Hr; rewrite <-(P1 r Hr); exact (gr_drop4 u2 r Hr)).
  rewrite (Hg EBX), (Hg ECX), (Hg EDX), (Hg ESI), (Hg EDI), (Hg EBP) by done. split_and!; try done.
  change (gr (drop4 u2) ESP = c_esp c). rewrite drop4_esp; lia.
Qed.

(** A call of swtch on a flat stack: its arguments are the addresses of the
    contexts, which do not wrap, the saved one apart from the second argument. *)
Record swtch_call (old new : Z) (s : core) : Prop := {
  sw_ss : flat SS s; sw_ds : flat DS s;
  sw_esp : 0 <= gr s ESP /\ gr s ESP + 12 < u32_mod;
  sw_old : load32 (ram s) (gr s ESP + 4) = old; sw_new : load32 (ram s) (gr s ESP + 8) = new;
  sw_old_room : 0 <= old /\ old + 32 < u32_mod; sw_new_room : 0 <= new /\ new + 32 < u32_mod;
  sw_apart : old + 32 <= gr s ESP + 8 \/ gr s ESP + 12 <= old }.

(** A context that can be switched to. *)
Definition context_ok (c : context) : Prop := 4 <= c_esp c < u32_mod /\ word (c_eip c).

Lemma swtch_spec old new s :
  swtch_call old new s -> ranged s -> word (top s) ->
  let m := store_words old (context_words (context_of s)) (ram s) in
  let c := read_context m new in let u := run swtch s in
  context_ok c ->
  switched c u /\ (forall g, sr u g = sr s g) /\ fl u = fl s /\ cr0 u = cr0 s /\ gdtr u = gdtr s /\
  ram u = store32 (c_esp c - 4) (c_eip c) m /\ words 8 m old = context_words (context_of s) /\
  (forall x, x < old \/ old + 32 <= x -> m x = ram s x).
Proof.
  intros [Hf Hd He Ho Hn Hor Hnr Ha] Hs Ht m c u [Hc1 Hc2].
  assert (E : u = run (drop 9 swtch) (set_ram m (drop4 (set_gr EAX old s)))).
  { unfold u, m. rewrite <-(swtch_save s old) by (done || lia). reflexivity. }
  clearbody u. assert (Hout : forall x, x < old \/ old + 32 <= x -> m x = ram s x) by (intros x Hx; apply store_words_out; simpl; lia).
  assert (H4 : gr (set_ram m (drop4 (set_gr EAX old s))) ESP = gr s ESP + 4).
  { apply (u32_small (gr s ESP + 4)). lia. }
  destruct (swtch_load (set_ram m (drop4 (set_gr EAX old s))) new) as (L1 & L2 & L3 & L4 & L5 & L6); try (done || lia); try (rewrite H4; lia).
  { rewrite H4. change (load32 m (gr s ESP + 4 + 4) = new). rewrite (load32_ext (ram s)); [rewrite <-Hn; f_equal; lia|]. intros x Hx. apply Hout. lia. }
  { exact (proj1 Hc1). } { exact (proj2 Hc1). }
  rewrite E. split_and!; try done.
  apply (words_store_words old (context_words (context_of s))). destruct Hs as [Hr _ _ _].
  unfold context_words, context_of. simpl. repeat (constructor; [first [apply Hr | done | split; lia]|]). constructor.
Qed.

Definition disjoint (a n b k : Z) : Prop := a + n <= b \/ b + k <= a.

Lemma read_context_ext m m' a : (forall x, a <= x < a + 32 -> m' x = m x) -> read_context m' a = read_context m a.
Proof. intros H. unfold read_context. by f_equal; apply load32_ext; intros x Hx; apply H; lia. Qed.

(** C14: a process that calls swtch comes back from it as from any other
    call, however many others run in between.  swtch(old, new) continues in
    the context at new with segments and flags kept and writes nothing but
    the context at old and the word below the new stack pointer; and when
    anything running later calls swtch to switch to old, the context being
    as it was left, the processor is back at the return address of the first
    call, with its stack pointer and every register but %eax. *)
Theorem swtch_returns (old new : Z) (s : core) :
  swtch_call old new s -> ranged s -> word (top s) -> disjoint old 32 new 32 ->
  let c := read_context (ram s) new in let s1 := run swtch s in
  context_ok c -> disjoint old 32 (c_esp c - 4) 4 ->
  switched c s1 /\ (forall g, sr s1 g = sr s g) /\ fl s1 = fl s /\
  (forall x, x < old \/ old + 32 <= x -> x < c_esp c - 4 \/ c_esp c <= x -> ram s1 x = ram s x) /\
  forall other s2, swtch_call other old s2 -> ranged s2 -> word (top s2) -> disjoint other 32 old 32 ->
    read_context (ram s2) old = read_context (ram s1) old ->
    let s3 := run swtch s2 in
    pc s3 = top s /\ gr s3 ESP = gr s ESP + 4 /\ forall r, r <> EAX -> r <> ESP -> gr s3 r = gr s r.
Proof.
  intros Hs Hr Ht Hd c s1 Hc Hdc. unfold disjoint in *. destruct (swtch_spec old new s Hs Hr Ht) as (S1 & S2 & S3 & _ & _ & S6 & S7 & S8).
  { rewrite (read_context_ext (ram s)); [done|]. intros x Hx. apply store_words_out. simpl. lia. }
  assert (E : read_context (store_words old (context_words (context_of s)) (ram s)) new = c).
  { apply read_context_ext. intros x Hx. apply S8. lia. }
  rewrite E in *. fold s1 in S1, S2, S3, S6. split_and!; try done.
  { intros x Hx Hx'. rewrite S6, store32_out by lia. by apply S8. }
  intros other s2 Hs2 Hr2 Ht2 Ho Hold. apply words_context in S7.
  assert (E1 : read_context (ram s1) old = context_of s).
  { rewrite <-S7, S6. apply read_context_ext. intros x Hx. apply store32_out. lia. }
  assert (E2 : read_context (store_words other (context_words (context_of s2)) (ram s2)) old = context_of s).
  { rewrite <-E1, <-Hold. apply read_context_ext. intros x Hx. apply store_words_out. simpl. lia. }
  destruct (swtch_spec other old s2 Hs2 Hr2 Ht2) as ((P1 & P2 & P3 & P4 & P5 & P6 & P7 & P8) & _).
  { rewrite E2. destruct Hs as [_ _ [He1 He2] _ _ _ _ _]. split; [simpl; lia|done]. }
  rewrite E2 in *. split_and!; [done|done|]. intros r Ha He. by destruct r.
Qed.

(** A process switching to the scheduler's context, and the scheduler back. *)
Definition demo_old : core :=
  Core (fun r => match r with EBX => 11 | ESI => 12 | EBP => 13 | ESP => 200000 | _ => 0 end) (fun _ => 16) 900 0 1 (gdt_of 4096 None)
       (store_words 200000 [1000; 16384; 20480] (store_words 20480 [2000; 300000; 0; 0; 0; 0; 0; 0] (fun _ => 0))).
Definition demo_sched : core := run swtch demo_old.
Definition demo_new : core :=
  set_ram (store_words 299988 [3000; 20480; 16384] (ram demo_sched)) (set_gr ESP 299988 (set_gr EBX 77 demo_sched)).

Lemma swtch_returns_witness :
  pc demo_sched = 2000 /\ gr demo_sched ESP = 300000 /\
  pc (run swtch demo_new) = 1000 /\ gr (run swtch demo_new) ESP = 200004 /\ gr (run swtch demo_new) EBX = 11.
Proof.
  destruct (swtch_returns 16384 20480 demo_old) as ((E1 & E2 & _) & _ & _ & _ & H).
  - split; solve [reflexivity | split; reflexivity || discriminate | left; vm_compute; discriminate].
  - split; [intros []|intros []| |]; split; reflexivity || discriminate.
  - split; reflexivity || discriminate.
  - left. discriminate.
  - split; split; reflexivity || discriminate.
  - left. vm_compute. discriminate.
  - split; [exact E1|]. split; [exact E2|]. destruct (H 20480 demo_new) as (P1 & P2 & P3).
    + split; solve [vm_compute; reflexivity | split; vm_compute; reflexivity || discriminate | left; vm_compute; discriminate].
    + split; [intros []|intros []| |]; split; vm_compute; reflexivity || discriminate.
    + split; vm_compute; reflexivity || discriminate.
    + right. discriminate.
    + vm_compute. reflexivity.
    + split; [exact P1|]. split; [exact P2|]. exact (P3 EBX ltac:(discriminate) ltac:(discriminate)).
Defined.

(** ** The first instructions of a process *)

(** A new process: forkret calls forkret1 with its frame. *)
Lemma forkret1_enters ts p a f v :
  running ts p v -> sr v SS = 16 -> sr v CS = 8 -> 0 <= gr v ESP -> gr v ESP + 4 < u32_mod ->
  load32 (ram v) (gr v ESP + 4) = a -> 0 <= a -> a + 68 < u32_mod -> read_frame (ram v) a = f -> Z.land (tf_cs f) 3 = 3 ->
  let w := run forkret1 v in resumed f w /\ gr w ESP = esp f /\ sr w SS = tf_ss f /\ ram w = ram v.
Proof.
  intros Hk Hss Hcs E0 E1 Ea H0 H1 Hf Hu. pose proof (running_flat ts p v SS Hk Hss) as Hfl.
  change (run forkret1 v) with (run trapret (step v (Movl_load 4 ESP ESP))).
  rewrite (step_load (gr v ESP) 4 ESP ESP v) by (done || split; lia). rewrite Ea.
  destruct (trapret_spec (set_gr ESP a v) a) as (R & M & _ & _ & E); [done|lia|lia|].
  change (ram (set_gr ESP a v)) with (ram v) in *. rewrite Hf in *. change (sr (set_gr ESP a v) CS) with (sr v CS) in E.
  rewrite Hcs, Hu in E. change (Z.land 8 3 <? 3) with true in E. destruct E as [E2 E3]. by split_and!.
Qed.

(** The first process pushes the arguments of exec where the system call
    reads them. *)
Lemma initcode_execs ts p init argv SYS_exec s :
  running ts (Some p) s -> sr s SS = 35 -> gr s ESP = PAGE - 4 -> 0 <= p_mem p -> p_mem p + PAGE < u32_mod -> p_sz p = PAGE ->
  word init -> word argv -> word SYS_exec ->
  let u := run (start init argv SYS_exec) s in
  gr u EAX = SYS_exec /\ gr u ESP = PAGE - 16 /\
  fetchint (ram u) p (u32 (gr u ESP + 4)) = Some (s32 init) /\ fetchint (ram u) p (u32 (gr u ESP + 8)) = Some (s32 argv).
Proof.
  intros [Hc Hg] Hs He Hm0 Hm1 Hz Hi Ha Hx.
  assert (Hb : base s SS = p_mem p).
  { unfold base. rewrite Hc, Hg, Hs. change (Z.to_nat (Z.shiftr 35 3)) with 4%nat. unfold gdt_of. cbn [app lookup list_lookup]. apply seg_base_SEG. unfold PAGE in *. lia. }
  assert (Hp : forall v t e, base t SS = p_mem p -> gr t ESP = e -> 4 <= e < PAGE ->
    push v t = set_ram (store32 (p_mem p + (e - 4)) v (ram t)) (set_gr ESP (e - 4) t)).
  { intros v t e Ht <- Hr. unfold push, lin. rewrite Ht. unfold PAGE in *. rewrite (u32_small (gr t ESP - 4)), u32_small by (unfold u32_mod in *; lia). done. }
  unfold run, start. cbn [fold_left step]. rewrite (u32_small argv), (u32_small init), (u32_small SYS_exec) by done.
  rewrite (Hp argv s (PAGE - 4)) by (done || unfold PAGE; lia).
  rewrite (Hp init _ (PAGE - 8)) by (done || unfold PAGE; lia).
  rewrite (Hp (u32 0) _ (PAGE - 12)) by (done || unfold PAGE; lia).
  set (m := ram s). cbn [set_ram set_gr gr ram]. change (u32 0) with 0.
  split; [done|]. split; [done|]. change (if bool_decide (ESP = EAX) then _ else _) with (PAGE - 16).
  unfold fetchint. rewrite Hz. rewrite (u32_small (PAGE - 16 + 4)), (u32_small (PAGE - 16 + 8)) by done.
  change ((PAGE <=? PAGE - 16 + 4) || (PAGE <? u32 (PAGE - 16 + 4 + 4))) with false.
  change ((PAGE <=? PAGE - 16 + 8) || (PAGE <? u32 (PAGE - 16 + 8 + 4))) with false. cbv iota. split; do 2 f_equal.
  - rewrite (load32_ext (store32 (p_mem p + (PAGE - 8 - 4)) init (store32 (p_mem p + (PAGE - 4 - 4)) argv m))) by (intros x Hr; apply store32_out; lia).
    replace (PAGE - 16 + 4) with (PAGE - 8 - 4) by lia. by apply load32_store32.
  - rewrite (load32_ext (store32 (p_mem p + (PAGE - 4 - 4)) argv m)) by (intros x Hr; rewrite !store32_out by lia; done).
    replace (PAGE - 16 + 8) with (PAGE - 4 - 4) by lia. by apply load32_store32.
Qed.

(** ** Starting a processor *)

(** The descriptors of asm.h are those of mmu.h. *)
Lemma boot_gdt_SEG : boot_gdt = [SEG_NULL; SEG (Z.lor STA_X STA_R) 0 4294967295 0; SEG STA_W 0 4294967295 0].
Proof. reflexivity. Qed.

Lemma low16_movw v w : 0 <= v < 65536 -> low16 (65536 * (w / 65536) + low16 v) = v.
Proof. intros H. unfold low16. rewrite (Z.mod_small v) by done. rewrite Z.add_comm, Z.mul_comm, Z.mod_add by done. by apply Z.mod_small. Qed.

(** Protected mode with every data segment the whole memory, interrupts off. *)
Record protected (s : core) : Prop := {
  pr_cs : sr s CS = PROT_MODE_CSEG;
  pr_sr g : g <> CS -> sr s g = PROT_MODE_DSEG;
  pr_flat g : flat g s;
  pr_gdt : gdtr s = boot_gdt;
  pr_if : Z.testbit (fl s) 9 = false }.

Lemma boot_real_spec s : Z.testbit (fl (run boot_real s)) 9 = false /\ ram (run boot_real s) = ram s.
Proof.
  split; [|done]. change (Z.testbit (Z.land (Z.land (fl s) (Z.lnot FL_IF)) (Z.lnot 1024)) 9 = false). rewrite !Z.land_spec.
  change (Z.testbit (Z.lnot FL_IF) 9) with false. by rewrite andb_false_r.
Qed.

Lemma boot_prot_spec protcseg s :
  Z.testbit (fl s) 9 = false ->
  let u := run (boot_prot protcseg) s in protected u /\ ram u = ram s /\ (forall r, r <> EAX -> gr u r = gr s r).
Proof.
  intros Hi u. set (v := run (take 5 (boot_prot protcseg)) s).
  assert (V1 : Z.testbit (cr0 v) 0 = true) by (change (Z.testbit (Z.lor (cr0 s) 1) 0 = true); rewrite Z.lor_spec; apply orb_true_r).
  assert (V2 : gdtr v = boot_gdt /\ sr v CS = 8 /\ fl v = fl s /\ ram v = ram s) by done.
  assert (V3 : forall r, r <> EAX -> gr v r = gr s r) by (intros [] Hr; done).
  assert (Hu : u = run (drop 5 (boot_prot protcseg)) v) by done. clearbody u v. destruct V2 as (G & C & F & M).
  set (x := 65536 * (gr v EAX / 65536) + low16 16).
  assert (Hx : low16 x = 16) by by apply low16_movw.
  assert (Hsr : forall g, g <> CS -> sr u g = 16) by (intros g Hg; subst u; rewrite <-Hx; by destruct g).
  assert (Hrest : sr u CS = 8 /\ cr0 u = cr0 v /\ gdtr u = boot_gdt /\ fl u = fl s /\ ram u = ram s) by (subst u; done).
  destruct Hrest as (R1 & R2 & R3 & R4 & R5). split_and!; [|done|intros r Hr; rewrite <-V3 by done; subst u; by destruct r].
  split; [done|done| |done|by rewrite R4]. intros g. unfold flat, base. rewrite R2, V1, R3.
  destruct (decide (g = CS)) as [->|Hg]; [rewrite R1|rewrite Hsr by done]; reflexivity.
Qed.

Lemma step_abs a r s : flat DS s -> word a -> step s (Movl_abs a r) = set_gr r (load32 (ram s) a) s.
Proof. intros Hf Hw. cbn [step]. by rewrite lin_flat. Qed.

(** A processor that bootothers starts arrives at the address it is given, on
    the stack it is given, in flat protected mode with interrupts off. *)
Lemma bootother_starts protcseg stack mpmain s :
  load32 (ram s) (28672 - 4) = stack -> load32 (ram s) (28672 - 8) = mpmain ->
  let u := run (bootother 28672 protcseg) s in protected u /\ pc u = mpmain /\ gr u ESP = stack /\ ram u = ram s.
Proof.
  intros E1 E2. change (28672 - 4) with 28668 in E1. change (28672 - 8) with 28664 in E2.
  unfold bootother. rewrite !run_app. change (28672 - 4) with 28668. change (28672 - 8) with 28664.
  destruct (boot_real_spec s) as [Hv Hrv]. destruct (boot_prot_spec protcseg (run boot_real s) Hv) as (P & M & G).
  rewrite Hrv in M. rewrite <-M in E1, E2. clear Hv G. revert P M E1 E2. generalize (run (boot_prot protcseg) (run boot_real s)).
  intros w [P1 P2 P3 P4 P5] M E1 E2. unfold run. cbn [fold_left].
  rewrite (step_abs 28668 ESP w), E1 by first [apply P3 | done].
  rewrite (step_abs 28664 EAX (set_gr ESP stack w)) by first [exact (P3 DS) | done].
  change (load32 (ram (set_gr ESP stack w)) 28664) with (load32 (ram w) 28664). rewrite E2.
  split_and!; [split; [exact P1|exact P2|exact P3|exact P4|exact P5]|reflexivity|reflexivity|]. rewrite <-M. reflexivity.
Qed.

(** The boot sector enables A20, once the keyboard controller is ready, and
    calls bootmain below its own code. *)
Lemma bootasm_calls polls outs start protcseg bootmain spin s :
  seta20 polls = Some outs -> 4 <= start -> word start -> word spin ->
  exists u, bootasm polls start protcseg bootmain spin s = Some (u, [(100, 209); (96, 223)]) /\
    protected u /\ pc u = bootmain /\ gr u ESP = start - 4 /\ load32 (ram u) (start - 4) = spin.
Proof.
  intros Ho H4 Hs Hsp. unfold bootasm. rewrite Ho. destruct (boot_real_spec s) as [Hv _].
  assert (outs = [(100, 209); (96, 223)]) as ->.
  { unfold seta20 in Ho. destruct (seta20_wait polls) as [l|]; [|done]. destruct (seta20_wait l); [|done]. by injection Ho. }
  eexists. split; [reflexivity|]. rewrite run_app.
  destruct (boot_prot_spec protcseg (set_al 223 (run boot_real s)) Hv) as (P & _ & _). revert P.
  generalize (run (boot_prot protcseg) (set_al 223 (run boot_real s))). intros w [P1 P2 P3 P4 P5].
  unfold run. cbn [fold_left step]. rewrite (u32_small start Hs).
  destruct (push_spec spin (set_gr ESP start w) (P3 SS)) as ((G1 & G2 & G3 & G4 & G5 & G6) & E & M).
  { change (gr (set_gr ESP start w) ESP) with start. unfold word in Hs. lia. }
  change (gr (set_gr ESP start w) ESP) with start in *. generalize dependent (push spin (set_gr ESP start w)). intros t G1 G2 G3 G4 G5 G6 E M.
  split_and!; [|done|exact E|].
  - split.
    + exact (eq_trans (G2 CS) P1).
    + intros g Hg. exact (eq_trans (G2 g) (P2 g Hg)).
    + intros g. pose proof (P3 g) as Hf. unfold flat, base in *. cbn [set_pc cr0 gdtr sr]. rewrite G5, G6, G2. exact Hf.
    + exact (eq_trans G6 P4).
    + cbn [set_pc fl]. rewrite G4. exact P5.
  - cbn [set_pc ram]. rewrite M. by apply load32_store32.
Qed.

(** ** Interrupts in the kernel *)

Lemma words_frame_kernel m a f :
  words 15 m a = rev (drop 2 (frame_words f)) ->
  0 <= tf_es f < 65536 -> 0 <= tf_ds f < 65536 -> 0 <= tf_cs f < 65536 ->
  exists sp ss, read_frame m a = Trapframe (edi f) (esi f) (ebp f) (oesp f) (ebx f) (edx f) (ecx f) (eax f) (tf_es f) (tf_ds f)
    (trapno f) (err f) (eip f) (tf_cs f) (tf_eflags f) sp ss.
Proof.
  intros H Hes Hds Hcs. destruct f. simpl in *. rewrite <-!Z.add_assoc in H. simpl in H. injection H as ? ? ? ? ? ? ? ? ? ? ? ? ? ? ?.
  exists (load32 m (a + 60)), (low16 (load32 m (a + 64))). unfold read_frame, low16. by f_equal; subst; try apply Z.mod_small.
Qed.

Lemma kernel_exit ts p a f v :
  running ts p v -> sr v SS = 16 -> sr v CS = 8 -> gr v ESP = a - 4 -> 4 <= a -> a + 68 < u32_mod ->
  read_frame (ram v) a = f -> Z.land (tf_cs f) 3 = 0 ->
  let w := run after_trap v in resumed f w /\ gr w ESP = a + 60 /\ sr w SS = 16 /\ ram w = ram v.
Proof.
  intros Hk Hss Hcs He H0 H1 Hf Hu. set (v' := step v (Addl_imm 4 ESP)). change (run after_trap v) with (run trapret v').
  destruct (trapret_spec v' a) as (R & M & _ & _ & E); [|lia|lia|].
  - split_and!; [exact (running_flat ts p v SS Hk Hss)| |done]. change (u32 (gr v ESP + 4) = a). rewrite He, u32_small; lia.
  - change (ram v') with (ram v) in *. rewrite Hf in *. change (sr v' CS) with (sr v CS) in E. change (sr v' SS) with (sr v SS) in E.
    rewrite Hcs, Hu, Hss in E. change (Z.land 8 3 <? 0) with false in E. destruct E as [E1 E2]. by split_and!.
Qed.

(** An interrupt of the kernel builds its frame on the stack in use, and the
    code that was interrupted goes on with every register as it was. *)
Lemma kernel_trap_transparent alltraps_ trap_ back i e g esp0 s ts p :
  running ts p s -> sr s SS = 16 -> Z.land (sr s CS) 3 = 0 -> gd_cs g = 8 -> ranged s -> 0 <= i < 256 -> supplies i e ->
  (forall c, e = Some c -> word c) -> word back -> 68 <= gr s ESP -> gr s ESP + 8 < u32_mod ->
  let u := run (vector alltraps_ i ++ alltraps trap_ back) (interrupt g e esp0 s) in
  pc u = trap_ /\ gr u ESP = gr s ESP - 68 /\ sr u SS = 16 /\ sr u CS = 8 /\
  (forall x, x < gr s ESP - 68 \/ gr s ESP <= x -> ram u x = ram s x) /\
  forall v q, running ts q v -> sr v SS = 16 -> sr v CS = 8 -> gr v ESP = gr u ESP + 4 ->
    (forall x, gr s ESP - 60 <= x < gr s ESP -> ram v x = ram u x) ->
    let w := run after_trap v in
    (forall r, gr w r = gr s r) /\ (forall x, x <> FS -> x <> GS -> sr w x = sr s x) /\ pc w = pc s /\ fl w = fl s /\ ram w = ram v.
Proof.
  intros Hk Hss Hc Hg Hs Hi He Hw Hb H0 H1. unfold interrupt. rewrite Hg, Hc. change (Z.land 8 3 <? 0) with false. cbv iota zeta.
  fold (gate_fl g s). match goal with |- context [set_pc ?a (set_sr CS 8 (set_fl ?f ?t))] => change (set_pc a (set_sr CS 8 (set_fl f t))) with (enter a 8 f t) end.
  destruct (run_entry alltraps_ trap_ back i e (gate_offset g) 8 (gate_fl g s) [] s s Hi He eq_refl eq_refl ltac:(done)) as (o & E & Ho).
  cbn [app] in E |- *. rewrite E. clear E. pose proof (running_flat ts p s SS Hk Hss) as Hf.
  assert (Hwo : word o).
  { rewrite Ho. apply pushes_esp; [done| |].
    - simpl. pose proof (rg_gr s Hs ESP) as Hr. unfold word in Hr. lia.
    - exact (Forall_take word 7 _ (Forall_drop word 2 _ (frame_of_words s i e 0 Hs Hi Hw ltac:(done)))). }
  clear Ho. pose proof (Forall_drop word 2 _ (frame_of_words s i e o Hs Hi Hw Hwo)) as HL. set (fr := frame_of s i (code_of e) o) in *.
  destruct (at_trap_spec trap_ back alltraps_ 8 (gate_fl g s) _ s Hf Hb HL) as (A1 & A2 & A3 & A4 & A5 & A6 & A7 & A8 & A9 & A10 & A11 & A12 & A13).
  { simpl. lia. }
  generalize dependent (at_trap trap_ back (enter alltraps_ 8 (gate_fl g s) (pushes (drop 2 (frame_words fr)) s))).
  intros u A1 A2 A3 A4 A5 A6 A7 A8 A9 A10 A11 A12 A13. change (4 * Z.of_nat (length (drop 2 (frame_words fr)))) with 60 in *.
  change (length (drop 2 (frame_words fr))) with 15%nat in A5. replace (gr s ESP - 60 - 8) with (gr s ESP - 68) in * by lia.
  split_and!; [done|done|by rewrite A9|done|exact A13|]. intros v q Hq V1 V2 V3 V4.
  rewrite <-(words_ext 15 _ (ram v)) in A5 by (intros x Hx; apply V4; lia).
  destruct (words_frame_kernel (ram v) (gr s ESP - 60) fr A5) as (sp & ss & Er); try apply (rg_sr s Hs).
  destruct (kernel_exit ts q (gr s ESP - 60) _ v Hq V1 V2 ltac:(lia) ltac:(lia) ltac:(lia) Er Hc) as (R & Re & Rs & M).
  generalize dependent (run after_trap v). intros w R Re Rs M. destruct R as (R1 & R2 & R3 & R4 & R5 & R6 & R7 & R8 & R9 & R10 & R11 & R12).
  cbn [esp eax ebx ecx edx esi edi ebp tf_es tf_ds tf_cs tf_eflags eip] in *.
  split_and!; try done; [intros r; destruct r; try done; lia|intros x Hx Hx'; destruct x; try done; congruence].
Qed.
