(* ===== verification/Perl.v ===== *)
(** * The Perl that the build scripts use

    Regular expressions as Perl matches them, leftmost and by greedy
    backtracking, with capture groups; and the text operations of
    gensyss.pl. *)

From Stdlib Require Import Ascii String.
From S2P Require Import Prelude.

(** ** Text *)

Definition text : Type := list ascii.
Definition txt : string -> text := list_ascii_of_string.
Definition code (c : ascii) : Z := Z.of_N (N_of_ascii c).

(** The classes [\s], [\w] and [.]. *)
Definition is_space (c : ascii) : bool := (code c =? 32) || ((9 <=? code c) && (code c <=? 13)).
Definition is_digit (c : ascii) : bool := (48 <=? code c) && (code c <=? 57).
Definition is_lower (c : ascii) : bool := (97 <=? code c) && (code c <=? 122).
Definition is_upper (c : ascii) : bool := (65 <=? code c) && (code c <=? 90).
Definition is_word (c : ascii) : bool := is_digit c || is_lower c || is_upper c || (code c =? 95).
Definition is_dot (c : ascii) : bool := negb (code c =? 10).
Definition is_chr (d : ascii) (c : ascii) : bool := Ascii.eqb c d.

(** [\U]. *)
Definition upcase (c : ascii) : ascii := if is_lower c then ascii_of_N (Z.to_N (code c - 32)) else c.

(** The name of the file that a two-argument open opens. *)
Fixpoint skip_spaces (t : text) : text :=
  match t with
  | c :: t' => if is_space c then skip_spaces t' else t
  | [] => []
  end.
Definition strip (t : text) : text := rev (skip_spaces (rev (skip_spaces t))).

Lemma skip_spaces_none t : Forall (fun c => is_space c = false) t -> skip_spaces t = t.
Proof. destruct 1 as [|c t Hc _]; [done|]. simpl. by rewrite Hc. Qed.

Lemma strip_none t : Forall (fun c => is_space c = false) t -> strip t = t.
Proof.
  intros Ht. unfold strip. rewrite (skip_spaces_none t Ht), skip_spaces_none; [apply rev_involutive|]. by apply Forall_rev.
Qed.

(** A number printed in decimal. *)
Fixpoint decimal_loop (fuel : nat) (n : Z) (acc : text) : text :=
  match fuel with
  | O => acc
  | S fuel =>
      let acc := ascii_of_N (Z.to_N (48 + n mod 10)) :: acc in
      if n <? 10 then acc else decimal_loop fuel (n / 10) acc
  end.
Definition decimal (n : Z) : text := decimal_loop (S (Z.to_nat n)) n [].

(** ** Regular expressions *)

Inductive re : Type :=
| Eps
| Bol
| Eol
| Chr (p : ascii -> bool)
| Cat (r1 r2 : re)
| Alt (r1 r2 : re)
| Star (r : re)
| Cap (n : nat) (r : re).

Definition plus (r : re) : re := Cat r (Star r).
Definition opt (r : re) : re := Alt r Eps.

(** What has been passed (in reverse), what is left, and the groups. *)
Record cursor : Type := Cursor { passed : text; ahead : text; groups : list (nat * text) }.

Definition step (c : ascii) (s : cursor) : cursor := Cursor (c :: passed s) (tail (ahead s)) (groups s).
Definition save (n : nat) (t : text) (s : cursor) : cursor := Cursor (passed s) (ahead s) ((n, t) :: groups s).
Definition between (s s' : cursor) : text := take (length (ahead s) - length (ahead s')) (ahead s).

(** A repeated expression is tried again as long as it consumes something. *)
Definition iterate (m : (cursor -> option cursor) -> cursor -> option cursor) (k : cursor -> option cursor) : nat -> cursor -> option cursor :=
  fix loop (fuel : nat) (s : cursor) : option cursor :=
    match fuel with
    | O => k s
    | S fuel =>
        match m (fun s' => if (length (ahead s') <? length (ahead s))%nat then loop fuel s' else None) s with
        | Some x => Some x
        | None => k s
        end
    end.

(** The first way, in Perl's order, to match [r] at the cursor such that the
    continuation [k] succeeds. *)
Fixpoint run (r : re) (k : cursor -> option cursor) (s : cursor) : option cursor :=
  match r with
  | Eps => k s
  | Bol => match passed s with [] => k s | _ => None end
  | Eol => match ahead s with [] => k s | _ => None end
  | Chr p => match ahead s with c :: _ => if p c then k (step c s) else None | [] => None end
  | Cat r1 r2 => run r1 (run r2 k) s
  | Alt r1 r2 => match run r1 k s with Some x => Some x | None => run r2 k s end
  | Star r => iterate (run r) k (length (ahead s)) s
  | Cap n r => run r (fun s' => k (save n (between s s') s')) s
  end.

(** The leftmost match: the text before it, and the cursor after it. *)
Fixpoint search_from (fuel : nat) (r : re) (s : cursor) : option (text * cursor) :=
  match run r Some s with
  | Some s' => Some (rev (passed s), s')
  | None =>
      match fuel, ahead s with
      | S fuel, c :: _ => search_from fuel r (step c s)
      | _, _ => None
      end
  end.
Definition search (r : re) (t : text) : option (text * cursor) := search_from (length t) r (Cursor [] t []).

(** [$n], the last value of the group; a group that took no part is empty. *)
Fixpoint assoc (n : nat) (l : list (nat * text)) : text :=
  match l with
  | [] => []
  | (m, t) :: l => if (n =? m)%nat then t else assoc n l
  end.
Definition group (n : nat) (s : cursor) : text := assoc n (groups s).

(** [s/r//]. *)
Definition delete_match (r : re) (t : text) : text :=
  match search r t with
  | Some (pre, s) => pre ++ ahead s
  | None => t
  end.

(** ** What the matcher decides *)

(** A match of [r] from one cursor to another; a repetition is a sequence of
    matches that consume something. *)
Inductive matches : re -> cursor -> cursor -> Prop :=
| m_eps s : matches Eps s s
| m_bol s : passed s = [] -> matches Bol s s
| m_eol s : ahead s = [] -> matches Eol s s
| m_chr p s c l : ahead s = c :: l -> p c = true -> matches (Chr p) s (step c s)
| m_cat r1 r2 s s1 s2 : matches r1 s s1 -> matches r2 s1 s2 -> matches (Cat r1 r2) s s2
| m_left r1 r2 s s' : matches r1 s s' -> matches (Alt r1 r2) s s'
| m_right r1 r2 s s' : matches r2 s s' -> matches (Alt r1 r2) s s'
| m_done r s : matches (Star r) s s
| m_more r s s1 s2 : matches r s s1 -> (length (ahead s1) < length (ahead s))%nat -> matches (Star r) s1 s2 -> matches (Star r) s s2
| m_cap n r s s' : matches r s s' -> matches (Cap n r) s (save n (between s s') s').

Lemma run_sound r : forall k s x, run r k s = Some x -> exists s', matches r s s' /\ k s' = Some x.
Proof.
  induction r as [| | |p|r1 IH1 r2 IH2|r1 IH1 r2 IH2|r IH|n r IH]; intros k s x E; simpl in E.
  - exists s. by split; [constructor|].
  - destruct (passed s) eqn:Ep; [|done]. exists s. by split; [constructor|].
  - destruct (ahead s) eqn:Ep; [|done]. exists s. by split; [constructor|].
  - destruct (ahead s) as [|c l] eqn:Ea; [done|]. destruct (p c) eqn:Ec; [|done]. eexists. by split; [econstructor|].
  - destruct (IH1 _ _ _ E) as (s1 & M1 & E1). destruct (IH2 _ _ _ E1) as (s2 & M2 & E2). exists s2. by split; [econstructor|].
  - destruct (run r1 k s) eqn:E1; [injection E as ->; destruct (IH1 _ _ _ E1) as (s' & M & Ek)|destruct (IH2 _ _ _ E) as (s' & M & Ek)];
      exists s'; (split; [|done]); by constructor.
  - remember (length (ahead s)) as fuel eqn:Ef. clear Ef. revert s E. induction fuel as [|fuel IHf]; intros s E; simpl in E.
    + exists s. by split; [constructor|].
    + destruct (run r _ s) eqn:E1; [|exists s; by split; [constructor|]]. injection E as ->. destruct (IH _ _ _ E1) as (s1 & M1 & Ek).
      destruct (Nat.ltb_spec (length (ahead s1)) (length (ahead s))); [|done]. destruct (IHf _ Ek) as (s2 & M2 & E2). exists s2. by split; [econstructor|].
  - destruct (IH _ _ _ E) as (s' & M & Ek). eexists. by split; [constructor|].
Qed.

Lemma iterate_more m k fuel s :
  iterate m k (S fuel) s =
  match m (fun s' => if (length (ahead s') <? length (ahead s))%nat then iterate m k fuel s' else None) s with Some x => Some x | None => k s end.
Proof. done. Qed.

Lemma iterate_stop m k fuel s : is_Some (k s) -> is_Some (iterate m k fuel s).
Proof. intros Hk. destruct fuel; [done|]. rewrite iterate_more. by destruct (m _ s). Qed.

Lemma run_complete r : forall k s s', matches r s s' -> is_Some (k s') -> is_Some (run r k s).
Proof.
  induction r as [| | |p|r1 IH1 r2 IH2|r1 IH1 r2 IH2|r IH|n r IH]; intros k s s' M Hk; cbn [run].
  - by inversion M; subst.
  - inversion M as [|? E| | | | | | | |]; subst. by rewrite E.
  - inversion M as [| |? E| | | | | | |]; subst. by rewrite E.
  - inversion M as [| | |? ? c l E Ep| | | | | |]; subst. by rewrite E, Ep.
  - inversion M as [| | | |? ? ? s1 ? M1 M2| | | | |]; subst. apply (IH1 _ _ s1); [done|]. by apply (IH2 _ _ s').
  - inversion M as [| | | | |? ? ? ? M1|? ? ? ? M1| | |]; subst.
    + destruct (IH1 k s s' M1 Hk) as [x ->]. done.
    + destruct (run r1 k s); [done|]. by apply (IH2 _ _ s').
  - generalize (le_n (length (ahead s))). generalize (length (ahead s)) at 2 3 as fuel.
    remember (Star r) as r' eqn:Er. induction M as [| | | | | | |? s|? s s1 s2 M1 _ Hlt M2 IHM|]; try done; injection Er as ->; intros fuel Hf.
    + by apply iterate_stop.
    + destruct fuel as [|fuel]; [lia|]. rewrite iterate_more.
      destruct (IH (fun s' => if (length (ahead s') <? length (ahead s))%nat then iterate (run r) k fuel s' else None) s s1 M1) as [x ->]; [|done].
      destruct (Nat.ltb_spec (length (ahead s1)) (length (ahead s))); [|lia]. apply IHM; [done|done|lia].
  - inversion M as [| | | | | | | | |? ? ? s1 M1]; subst. by apply (IH _ _ s1).
Qed.

(** [m] characters further. *)
Definition advance (t : text) (s : cursor) : cursor := Cursor (rev t ++ passed s) (drop (length t) (ahead s)) (groups s).

(** The search finds a match if there is one, and the leftmost. *)
Lemma search_from_spec fuel r : forall s, (length (ahead s) <= fuel)%nat ->
  match search_from fuel r s with
  | Some (pre, s') => exists t, pre = rev (passed s) ++ t /\ t `prefix_of` ahead s /\ matches r (advance t s) s' /\
      forall t', t' `prefix_of` t -> t' <> t -> forall s'', ~ matches r (advance t' s) s''
  | None => forall t, t `prefix_of` ahead s -> forall s', ~ matches r (advance t s) s'
  end.
Proof.
  assert (Hadv0 : forall s, advance [] s = s) by (by intros []).
  assert (Hno : forall s, run r Some s = None -> forall s', ~ matches r s s').
  { intros s E s' M. destruct (run_complete r Some s s' M) as [x Ex]; [done|congruence]. }
  assert (Hadv : forall c l t s, ahead s = c :: l -> advance (c :: t) s = advance t (step c s)).
  { intros c l t s E. unfold advance, step. cbn [rev passed ahead groups]. rewrite E. simpl. by rewrite <-app_assoc. }
  induction fuel as [|fuel IH]; intros s Hf; cbn [search_from]; destruct (run r Some s) as [s1|] eqn:E.
  1,3: destruct (run_sound _ _ _ _ E) as (s2 & M & [= <-]); exists []; rewrite app_nil_r, Hadv0; split; [done|]; split; [apply prefix_nil|]; split; [done|];
    intros t' Ht Hne; apply prefix_nil_inv in Ht; done.
  - intros t Ht s'. assert (En : ahead s = []) by (apply nil_length_inv; lia). rewrite En in Ht. apply prefix_nil_inv in Ht as ->. rewrite Hadv0. by apply Hno.
  - destruct (ahead s) as [|c l] eqn:Ea.
    { intros t Ht s'. apply prefix_nil_inv in Ht as ->. rewrite Hadv0. by apply Hno. }
    specialize (IH (step c s)). assert (Et : ahead (step c s) = l) by (unfold step; simpl; by rewrite Ea). rewrite Et in IH.
    destruct (search_from fuel r (step c s)) as [[pre s']|].
    + destruct IH as (t & -> & Hp & M & Hl); [simpl in Hf; lia|]. exists (c :: t). split; [simpl; by rewrite <-app_assoc|]. split; [by apply prefix_cons|].
      rewrite (Hadv c l) by done. split; [done|]. intros [|c' t'] Ht Hne s''; [rewrite Hadv0; by apply Hno|].
      apply prefix_cons_inv_1 in Ht as Hc. subst c'. apply prefix_cons_inv_2 in Ht. rewrite (Hadv c l) by done. apply Hl; [done|congruence].
    + intros [|c' t] Ht s'; [rewrite Hadv0; by apply Hno|]. apply prefix_cons_inv_1 in Ht as Hc. subst c'. apply prefix_cons_inv_2 in Ht.
      rewrite (Hadv c l) by done. apply IH; [simpl in Hf; lia|done].
Qed.

(** ** Greedy runs *)

Definition stops (p : ascii -> bool) (t : text) : Prop := match t with c :: _ => p c = false | [] => True end.

Lemma run_chr p k s : run (Chr p) k s = match ahead s with c :: _ => if p c then k (step c s) else None | [] => None end.
Proof. done. Qed.

Lemma run_star r k s : run (Star r) k s = iterate (run r) k (length (ahead s)) s.
Proof. done. Qed.

Lemma iterate_none p k fuel : forall P t g,
  (forall a b, t = a ++ b -> Forall (fun c => p c = true) a -> k (Cursor (rev a ++ P) b g) = None) ->
  iterate (run (Chr p)) k fuel (Cursor P t g) = None.
Proof.
  induction fuel as [|fuel IH]; intros P t g H; [by apply (H [] t)|]. rewrite iterate_more, run_chr. cbn [ahead].
  assert (H0 : k (Cursor P t g) = None) by (by apply (H [] t)). destruct t as [|c t]; [done|]. destruct (p c) eqn:Ec; [|done].
  unfold step. cbn [passed ahead groups tail length]. destruct (Nat.ltb_spec (length t) (S (length t))); [|lia]. rewrite IH; [done|].
  intros a b -> Ha. specialize (H (c :: a) b). simpl in H. rewrite <-app_assoc in H. apply H; [done|by constructor].
Qed.

(** A repeated class takes [a] when no longer stretch lets the rest match. *)
Lemma star_run_until p k a : forall P b g x,
  Forall (fun c => p c = true) a ->
  (forall b1 b2, b = b1 ++ b2 -> b1 <> [] -> Forall (fun c => p c = true) b1 -> k (Cursor (rev (a ++ b1) ++ P) b2 g) = None) ->
  k (Cursor (rev a ++ P) b g) = Some x -> run (Star (Chr p)) k (Cursor P (a ++ b) g) = Some x.
Proof.
  intros P b g x Ha Hb Hk. rewrite run_star. cbn [ahead]. generalize (le_n (length (a ++ b))). generalize (length (a ++ b)) at 2 3 as fuel.
  revert P Hb Hk. induction Ha as [|c a Hc Ha IH]; intros P Hb Hk fuel Hf; cbn [app rev length] in *.
  - destruct fuel as [|fuel]; [exact Hk|]. rewrite iterate_more, run_chr. cbn [ahead]. destruct b as [|c b]; [exact Hk|]. destruct (p c) eqn:Ec; [|exact Hk].
    unfold step. cbn [passed ahead groups tail length]. destruct (Nat.ltb_spec (length b) (S (length b))); [|lia]. rewrite iterate_none; [exact Hk|].
    intros a b' -> Ha. specialize (Hb (c :: a) b'). simpl in Hb. rewrite <-app_assoc in Hb. apply Hb; [done|done|by constructor].
  - destruct fuel as [|fuel]; [lia|]. rewrite iterate_more, run_chr. cbn [ahead]. rewrite Hc. unfold step. cbn [passed ahead groups tail length].
    destruct (Nat.ltb_spec (length (a ++ b)) (S (length (a ++ b)))); [|lia]. rewrite (IH (c :: P)); [done| | |lia].
    + intros b1 b2 Eb Hne Hb1. specialize (Hb b1 b2 Eb Hne Hb1). by rewrite <-app_assoc in Hb.
    + by rewrite <-app_assoc in Hk.
Qed.

Lemma star_run p k P a b g x :
  Forall (fun c => p c = true) a -> stops p b ->
  k (Cursor (rev a ++ P) b g) = Some x -> run (Star (Chr p)) k (Cursor P (a ++ b) g) = Some x.
Proof.
  intros Ha Hb Hk. apply star_run_until; [done| |done]. intros b1 b2 -> Hne Hb1. exfalso. destruct b1 as [|c b1]; [done|].
  apply Forall_cons in Hb1 as [Hc _]. simpl in Hb. congruence.
Qed.

Lemma plus_run p k P a b g x :
  a <> [] -> Forall (fun c => p c = true) a -> stops p b ->
  k (Cursor (rev a ++ P) b g) = Some x -> run (plus (Chr p)) k (Cursor P (a ++ b) g) = Some x.
Proof.
  intros Hne Ha Hb Hk. destruct a as [|c a]; [done|]. apply Forall_cons in Ha as [Hc Ha]. unfold plus. cbn [run ahead app]. rewrite Hc. unfold step.
  cbn [passed ahead groups tail]. simpl in Hk. rewrite <-app_assoc in Hk. by apply star_run.
Qed.

Lemma chr_run p k P c b g : p c = true -> run (Chr p) k (Cursor P (c :: b) g) = k (Cursor (c :: P) b g).
Proof. intros Hc. cbn [run ahead]. by rewrite Hc. Qed.

Lemma between_app P a b g P' g' : between (Cursor P (a ++ b) g) (Cursor P' b g') = a.
Proof. unfold between. cbn [ahead]. rewrite length_app. replace (length a + length b - length b)%nat with (length a) by lia. apply take_app_length. Qed.

(** A class and a literal behind it: up to the last literal. *)
Lemma star_last p q k P a c b g x :
  Forall (fun c => p c = true) a -> q c = true -> p c = true -> Forall (fun c => q c = false) b ->
  k (Cursor (c :: rev a ++ P) b g) = Some x -> run (Star (Chr p)) (run (Chr q) k) (Cursor P (a ++ c :: b) g) = Some x.
Proof.
  intros Ha Hc Hpc Hb Hk. apply star_run_until; [done| |by rewrite chr_run].
  intros b1 b2 E Hne _. destruct b1 as [|c1 b1]; [done|]. injection E as <- ->. cbn [run ahead]. apply Forall_app in Hb as [_ Hb].
  destruct b2 as [|c2 b2]; [done|]. apply Forall_cons in Hb as [-> _]. done.
Qed.

(** ** Inverting a match *)

Lemma matches_star p s s' : matches (Star (Chr p)) s s' -> exists a, Forall (fun c => p c = true) a /\ ahead s = a ++ ahead s' /\ groups s' = groups s.
Proof.
  remember (Star (Chr p)) as r eqn:Er. induction 1 as [| | | | | | |? s|? s s1 s2 M1 _ _ M2 IH|]; try done; injection Er as ->.
  - by exists [].
  - inversion M1 as [| | |? ? c l E Ep| | | | | |]; subst. destruct IH as (a & Ha & Ea & Eg); [done|]. exists (c :: a).
    split; [by constructor|]. unfold step in Ea, Eg. simpl in Ea, Eg. rewrite E in Ea. simpl in Ea. split; [by rewrite E, Ea|done].
Qed.

Lemma matches_plus p s s' : matches (plus (Chr p)) s s' -> exists a, a <> [] /\ Forall (fun c => p c = true) a /\ ahead s = a ++ ahead s' /\ groups s' = groups s.
Proof.
  intros M. inversion M as [| | | |? ? ? s1 ? M1 M2| | | | |]; subst. inversion M1 as [| | |? ? c l E Ep| | | | | |]; subst.
  destruct (matches_star _ _ _ M2) as (a & Ha & Ea & Eg). exists (c :: a). unfold step in Ea, Eg. simpl in Ea, Eg. rewrite E in Ea. simpl in Ea.
  split; [done|]. split; [by constructor|]. split; [by rewrite E, Ea|done].
Qed.

Lemma matches_chr p s s' : matches (Chr p) s s' -> exists c, p c = true /\ ahead s = c :: ahead s' /\ groups s' = groups s.
Proof. intros M. inversion M as [| | |? ? c l E Ep| | | | | |]; subst. exists c. unfold step. simpl. rewrite E. done. Qed.

Lemma matches_cat r1 r2 s s' : matches (Cat r1 r2) s s' -> exists s1, matches r1 s s1 /\ matches r2 s1 s'.
Proof. intros M. inversion M; subst. eauto. Qed.

Lemma matches_suffix r s s' : matches r s s' -> exists a, ahead s = a ++ ahead s'.
Proof.
  induction 1 as [| | |? s c l E| ? ? ? ? ? _ [a Ha] _ [b Hb]|? ? ? ? _ IH|? ? ? ? _ IH| |? ? ? ? _ [a Ha] _ _ [b Hb]|? ? ? ? _ [a Ha]]; try (by exists []); try done.
  - exists [c]. unfold step. simpl. by rewrite E.
  - exists (a ++ b). by rewrite Ha, Hb, <-app_assoc.
  - exists (a ++ b). by rewrite Ha, Hb, <-app_assoc.
  - by exists a.
Qed.

Lemma run_cat r1 r2 k s : run (Cat r1 r2) k s = run r1 (run r2 k) s.
Proof. done. Qed.
Lemma run_cap n r k s : run (Cap n r) k s = run r (fun s' => k (save n (between s s') s')) s.
Proof. done. Qed.

(** Two ways to take a stretch of a class. *)
Lemma span_unique (p : ascii -> bool) a b : forall a' b',
  a ++ b = a' ++ b' -> Forall (fun c => p c = true) a -> Forall (fun c => p c = true) a' -> stops p b -> stops p b' -> a = a' /\ b = b'.
Proof.
  induction a as [|c a IH]; intros [|c' a'] b' E Ha Ha' Hb Hb'; simpl in E.
  - done.
  - subst b. apply Forall_cons in Ha' as [Hc _]. simpl in Hb. congruence.
  - subst b'. apply Forall_cons in Ha as [Hc _]. simpl in Hb'. congruence.
  - injection E as -> E. apply Forall_cons in Ha as [_ Ha]. apply Forall_cons in Ha' as [_ Ha']. by destruct (IH a' b' E) as [-> ->].
Qed.

Lemma short_span (p : ascii -> bool) w x : forall name c u,
  w ++ x = name ++ c :: u -> Forall (fun c => p c = true) w -> Forall (fun c => p c = true) name -> p c = false ->
  exists d x', x = d :: x' /\ (p d = true \/ d = c).
Proof.
  induction w as [|d w IH]; intros name c u E Hw Hn Hc; simpl in E.
  - destruct name as [|e name]; simpl in E; subst x; [by exists c, u; auto|]. exists e, (name ++ c :: u). apply Forall_cons in Hn as [He _]. auto.
  - apply Forall_cons in Hw as [Hd Hw]. destruct name as [|e name]; simpl in E; [congruence|]. injection E as -> E.
    apply Forall_cons in Hn as [_ Hn]. by apply (IH name c u).
Qed.

Lemma cap_star_run n p k P a b g x :
  Forall (fun c => p c = true) a -> stops p b -> k (Cursor (rev a ++ P) b ((n, a) :: g)) = Some x ->
  run (Cap n (Star (Chr p))) k (Cursor P (a ++ b) g) = Some x.
Proof. intros Ha Hb Hk. rewrite run_cap. apply star_run; [done|done|]. by rewrite between_app. Qed.

Lemma cap_plus_run n p k P a b g x :
  a <> [] -> Forall (fun c => p c = true) a -> stops p b -> k (Cursor (rev a ++ P) b ((n, a) :: g)) = Some x ->
  run (Cap n (plus (Chr p))) k (Cursor P (a ++ b) g) = Some x.
Proof. intros Hne Ha Hb Hk. rewrite run_cap. apply plus_run; [done|done|done|]. by rewrite between_app. Qed.

Lemma cap_opt_run n p k P c b g x :
  p c = true -> k (Cursor (c :: P) b ((n, [c]) :: g)) = Some x -> run (Cap n (opt (Chr p))) k (Cursor P (c :: b) g) = Some x.
Proof.
  intros Hc Hk. rewrite run_cap. unfold opt. cbn [run ahead]. rewrite Hc. unfold step. cbn [passed ahead groups tail].
  change (c :: b) with ([c] ++ b). rewrite between_app. unfold save. cbn [passed ahead groups]. unfold text in *. by rewrite Hk.
Qed.
