(* ===== verification/Gensyss.v ===== *)
(** * gensyss.pl: the system call tables

    The build makes user.h, syscall.h, sysjump.h and usys.S from user.h.in,
    one prototype a line. *)

From Stdlib Require Import Ascii String.
From S2P Require Import Prelude Perl.

(** ** The expressions of the script *)

Definition ch (s : string) : re := match s with String c _ => Chr (is_chr c) | EmptyString => Eps end.
Definition seq_re : list re -> re := foldr Cat Eps.
Definition spaces : re := Star (Chr is_space).
Definition stars : re := Star (ch "*").

(** [(#|\/\/).*], [^\s*|\s*$], and the prototype. *)
Definition re_comment : re := Cat (Cap 1 (Alt (ch "#") (Cat (ch "/") (ch "/")))) (Star (Chr is_dot)).
Definition re_trim : re := Alt (Cat Bol spaces) (Cat spaces Eol).
Definition re_proto : re :=
  seq_re [spaces;
    Cap 1 (Cat (plus (Cap 2 (seq_re [stars; plus (Chr is_word); stars; plus (Chr is_space)]))) stars);
    Cap 3 (plus (Chr is_word)); spaces;
    Cap 4 (seq_re [ch "("; Star (Chr is_dot); ch ")"]);
    spaces; Star (ch ";"); spaces; Cap 5 (opt (ch ":")); spaces; Cap 6 (Star (Chr is_word)); Cap 7 (Star (Chr is_dot))].
(** [\s*\?\s*(.+)\s*] and [(.+)\.h]. *)
Definition re_switch : re := seq_re [spaces; ch "?"; spaces; Cap 1 (plus (Chr is_dot)); spaces].
Definition re_dot_h : re := seq_re [Cap 1 (plus (Chr is_dot)); ch "."; ch "h"].

Definition fileNameToMacro (name : text) : text :=
  match search re_dot_h name with
  | Some (_, m) => upcase <$> (txt "__" ++ group 1 m ++ txt "_H_")
  | None => (upcase <$> (txt "__" ++ name)) ++ txt "_"
  end.

(** ** The script *)

(** Its variables and the text it has written: the headers, the one being
    written first, the three other files and the messages. *)
Record gen : Type := Gen {
  syscall_num : Z;
  line_num : Z;
  externs : text;
  syscallArray : text;
  headerMacro : text;
  uh : list (text * text);
  sh : text;
  us : text;
  stderr : text }.

Definition nl : text := [ascii_of_nat 10].
Definition tab : text := [ascii_of_nat 9].

Definition print_uh (t : text) (g : gen) : gen :=
  let uh' := match uh g with (f, u) :: l => (f, u ++ t) :: l | [] => [] end in
  Gen (syscall_num g) (line_num g) (externs g) (syscallArray g) (headerMacro g) uh' (sh g) (us g) (stderr g).
Definition print_err (t : text) (g : gen) : gen :=
  Gen (syscall_num g) (line_num g) (externs g) (syscallArray g) (headerMacro g) (uh g) (sh g) (us g) (stderr g ++ t).
Definition count_line (g : gen) : gen :=
  Gen (syscall_num g) (line_num g + 1) (externs g) (syscallArray g) (headerMacro g) (uh g) (sh g) (us g) (stderr g).
(** The open of the header [f], which is emptied.  A name that Perl takes for
    another mode (one that starts with > or &) is not considered. *)
Definition open_uh (f : text) (g : gen) : gen :=
  Gen (syscall_num g) (line_num g) (externs g) (syscallArray g) (headerMacro g) ((strip f, []) :: uh g) (sh g) (us g) (stderr g).
Definition set_macro (m : text) (g : gen) : gen :=
  Gen (syscall_num g) (line_num g) (externs g) (syscallArray g) m (uh g) (sh g) (us g) (stderr g).

Definition uh_top (m : text) : text := txt "#ifndef " ++ m ++ nl ++ txt "#define " ++ m ++ nl ++ nl.
Definition uh_end (m : text) : text := nl ++ txt "#endif /* " ++ m ++ txt " */" ++ nl.

(** A system call named [name], of return type [ty], implemented by [f]: the
    declaration and the entry of the jump table, the number, the stub. *)
Definition add_call (ty name f : text) (g : gen) : gen :=
  let n := syscall_num g + 1 in
  Gen n (line_num g)
    (externs g ++ txt "extern " ++ ty ++ f ++ txt "(void);" ++ nl)
    (syscallArray g ++ txt "[SYS_" ++ name ++ txt "] " ++ f ++ txt "," ++ nl)
    (headerMacro g) (uh g)
    (sh g ++ txt "#define SYS_" ++ name ++ tab ++ decimal n ++ nl)
    (us g ++ txt "STUB(" ++ name ++ txt ")" ++ nl)
    (stderr g).

Definition gen_proto (m : cursor) (g : gen) : gen :=
  if (length (group 3 m) =? 0)%nat || (0 <? length (group 7 m))%nat then
    print_err (txt "Line " ++ decimal (line_num g) ++ txt " seems like a function definition, but is actually formatted incorrectly." ++ nl ++ tab ++ txt "Skipping." ++ nl) g
  else
    let g := print_uh (group 1 m ++ group 3 m ++ group 4 m ++ txt ";" ++ nl) g in
    if (0 <? length (group 5 m))%nat then
      if (0 <? length (group 6 m))%nat then add_call (group 1 m) (group 3 m) (group 6 m) g else g
    else add_call (group 1 m) (group 3 m) (txt "sys_" ++ group 3 m) g.

Definition gen_switch (m : cursor) (g : gen) : gen :=
  let g := print_uh (uh_end (headerMacro g)) g in
  let g := open_uh (group 1 m) g in
  let g := set_macro (fileNameToMacro (group 1 m)) g in
  print_uh (uh_top (headerMacro g)) g.

Definition gen_other (header line : text) (g : gen) : gen :=
  print_uh (line ++ nl)
    (print_err (txt "Line " ++ decimal (line_num g) ++ txt " does not appear to be blank, a full line comment, or a function prototype." ++ nl ++ tab ++
       txt "Adding the trimmed line without comments to " ++ header ++ txt " anyway." ++ nl) g).

(** Comments are removed and the line trimmed, as far as the expression goes:
    without [/g] only one of its alternatives is applied. *)
Definition clean_line (line : text) : text := delete_match re_trim (delete_match re_comment line).

Definition gen_line (header line : text) (g : gen) : gen :=
  let g := count_line g in
  let line := clean_line line in
  if (0 <? length line)%nat then
    match search re_proto line with
    | Some (_, m) => gen_proto m g
    | None =>
        match search re_switch line with
        | Some (_, m) => gen_switch m g
        | None => gen_other header line g
        end
    end
  else g.

Definition sh_top : text := txt "#ifndef __SYSCALL_H_" ++ nl ++ txt "#define __SYSCALL_H_" ++ nl ++ nl.
Definition us_top : text :=
  txt "#include " ++ [ascii_of_nat 34] ++ txt "syscall.h" ++ [ascii_of_nat 34] ++ nl ++
  txt "#include " ++ [ascii_of_nat 34] ++ txt "traps.h" ++ [ascii_of_nat 34] ++ nl ++ nl ++
  txt "#define STUB(name) \" ++ nl ++ txt "  .globl name; \" ++ nl ++ txt "  name: \" ++ nl ++
  txt "    movl $SYS_ ## name, %eax; \" ++ nl ++ txt "    int $T_SYSCALL; \" ++ nl ++ txt "    ret" ++ nl ++ nl.
Definition sjh_top : text := txt "#ifndef __SYSJUMP_H_" ++ nl ++ txt "#define __SYSJUMP_H_" ++ nl ++ nl.

Definition gen_start (header : text) : gen :=
  let m := fileNameToMacro header in
  Gen 0 0 [] [] m [(strip header, uh_top m)] sh_top us_top [].

Definition gen_lines (header : text) (lines : list text) (g : gen) : gen := foldl (fun g l => gen_line header l g) g lines.

(** The files it leaves. *)
Record generated : Type := Generated { headers : list (text * text); syscall_h : text; sysjump_h : text; usys_S : text; messages : text }.

Definition gensyss (header : text) (lines : list text) : generated :=
  let g := gen_lines header lines (gen_start header) in
  let sjh := sjh_top ++ externs g ++ nl ++ txt "int (" ++ txt "*syscalls[])(void) = {" ++ nl ++ syscallArray g ++ txt "};" ++ nl ++ nl ++
    txt "#endif /* __SYSJUMP_H_ */" ++ nl in
  let g := print_uh (uh_end (headerMacro g)) g in
  Generated (uh g) (sh g ++ txt "#endif /* __SYSCALL_H_ */" ++ nl) sjh (us g) (stderr g).

(** ** Prototypes *)

(** A word of the return type: a name, stars, and blanks. *)
Record tyword : Type := TyWord { tw_word : text; tw_stars : nat; tw_gap : nat }.
(** What implements the function: sys_ and its name, another routine, or the
    library. *)
Inductive link : Type := Own | Other (f : text) | Library.
Record decl : Type := Decl { d_type : list tyword; d_stars : nat; d_name : text; d_args : text; d_semi : bool; d_link : link }.

Definition star : ascii := "*"%char.
Definition tw_text (w : tyword) : text := tw_word w ++ replicate (tw_stars w) star ++ replicate (S (tw_gap w)) " "%char.
Definition type_text (d : decl) : text := concat (tw_text <$> d_type d) ++ replicate (d_stars d) star.
Definition args_text (d : decl) : text := "("%char :: d_args d ++ [")"%char].
Definition link_text (l : link) : text :=
  match l with
  | Own => []
  | Other f => txt " : " ++ f
  | Library => txt " :"
  end.
Definition decl_text (d : decl) : text :=
  type_text d ++ d_name d ++ args_text d ++ (if d_semi d then txt ";" else []) ++ link_text (d_link d).

Definition is_name (t : text) : Prop := t <> [] /\ Forall (fun c => is_word c = true) t.
Definition wf_decl (d : decl) : Prop :=
  d_type d <> [] /\ Forall (fun w => is_name (tw_word w)) (d_type d) /\ is_name (d_name d) /\
  Forall (fun c => is_dot c = true /\ c <> "#"%char /\ c <> "/"%char) (d_args d) /\
  match d_link d with Other f => is_name f | _ => True end.

(** *** The return type *)

Definition re_tyword : re := seq_re [stars; plus (Chr is_word); stars; plus (Chr is_space)].
Definition word_groups (ws : list tyword) (g : list (nat * text)) : list (nat * text) := foldl (fun g w => (2%nat, tw_text w) :: g) g ws.

Lemma name_stops (t u : text) p : is_name t -> (forall c, is_word c = true -> p c = false) -> stops p (t ++ u).
Proof. intros [Hne Ht] Hp. destruct t as [|c t]; [done|]. apply Forall_cons in Ht as [Hc _]. by apply Hp. Qed.

Lemma word_not_star c : is_word c = true -> is_chr star c = false.
Proof. intros Hc. unfold is_chr. destruct (Ascii.eqb_spec c star) as [->|]; done. Qed.

Lemma word_not_space c : is_word c = true -> is_space c = false.
Proof. unfold is_word, is_space, is_digit, is_lower, is_upper. intros Hc. apply not_true_iff_false. intros Hs. lia. Qed.

Lemma replicate_class p (c : ascii) n : p c = true -> Forall (fun c => p c = true) (replicate n c).
Proof. intros Hc. by apply Forall_replicate. Qed.

Lemma tyword_run k P w u g x :
  is_name (tw_word w) -> stops is_space u -> k (Cursor (rev (tw_text w) ++ P) u ((2%nat, tw_text w) :: g)) = Some x ->
  run (Cap 2 re_tyword) k (Cursor P (tw_text w ++ u) g) = Some x.
Proof.
  intros Hw Hu Hk. rewrite run_cap. unfold re_tyword, seq_re. cbn [foldr]. rewrite run_cat. unfold tw_text. rewrite <-!app_assoc.
  pose proof Hw as [Hne Hall].
  apply (star_run _ _ P []); [done|by apply name_stops, word_not_star|]. rewrite run_cat.
  apply plus_run; [done|done|by destruct (tw_stars w)|]. rewrite run_cat.
  apply star_run; [by apply replicate_class|done|]. rewrite run_cat.
  apply plus_run; [done|by apply replicate_class|done|]. cbn [run].
  replace (tw_word w ++ replicate (tw_stars w) star ++ replicate (S (tw_gap w)) " "%char ++ u) with (tw_text w ++ u) by (unfold tw_text; by rewrite <-!app_assoc).
  rewrite between_app. unfold save. cbn [passed ahead groups]. rewrite <-Hk. unfold tw_text. rewrite !rev_app_distr, <-!app_assoc. done.
Qed.

(** The name of the function is not another word of the type: no blank
    follows. *)
Lemma name_no_tyword k P n name u g :
  is_name name -> run (Cap 2 re_tyword) k (Cursor P (replicate n star ++ name ++ "("%char :: u) g) = None.
Proof.
  intros Hname. destruct (run (Cap 2 re_tyword) k _) as [x|] eqn:E; [exfalso|done]. apply run_sound in E as (s' & M & _).
  inversion M as [| | | | | | | | |? ? ? s1 M1]; subst. clear M. apply matches_cat in M1 as (a & Ma & M1). apply matches_cat in M1 as (b & Mb & M1).
  apply matches_cat in M1 as (c & Mc & M1). apply matches_cat in M1 as (d & Md & _).
  apply matches_star in Ma as (ta & Ha & Ea & _). apply matches_plus in Mb as (tb & Nb & Hb & Eb & _).
  apply matches_star in Mc as (tc & Hc & Ec & _). apply matches_plus in Md as (td & Nd & Hd & Ed & _). cbn [ahead] in Ea.
  rewrite Eb, Ec, Ed in Ea. apply (span_unique (is_chr star)) in Ea as [_ Ea]; [|by apply replicate_class|done|by apply name_stops, word_not_star|by apply (name_stops tb _ _ (conj Nb Hb)), word_not_star].
  symmetry in Ea. destruct (short_span is_word tb _ name "("%char u Ea Hb (proj2 Hname) eq_refl) as (e & x' & Ee & He).
  destruct tc as [|e' tc]; simpl in Ee.
  - destruct td as [|e' td]; [done|]. injection Ee as -> _. apply Forall_cons in Hd as [Hd _]. destruct He as [He| ->]; [|done].
    apply word_not_space in He. congruence.
  - injection Ee as -> _. apply Forall_cons in Hc as [Hc _]. change (is_chr star e = true) in Hc. destruct He as [He| ->]; [|done]. apply word_not_star in He. congruence.
Qed.

Lemma tywords_run k ws : forall fuel P n name u g x,
  Forall (fun w => is_name (tw_word w)) ws -> is_name name ->
  (length (concat (tw_text <$> ws) ++ replicate n star ++ name ++ "("%char :: u) <= fuel)%nat ->
  k (Cursor (rev (concat (tw_text <$> ws)) ++ P) (replicate n star ++ name ++ "("%char :: u) (word_groups ws g)) = Some x ->
  iterate (run (Cap 2 re_tyword)) k fuel (Cursor P (concat (tw_text <$> ws) ++ replicate n star ++ name ++ "("%char :: u) g) = Some x.
Proof.
  induction ws as [|w ws IH]; intros fuel P n name u g x Hws Hname Hf Hk.
  - destruct fuel as [|fuel]; [exact Hk|]. rewrite iterate_more. cbn [fmap list_fmap concat app]. by rewrite name_no_tyword.
  - apply Forall_cons in Hws as [Hw Hws]. cbn [fmap list_fmap concat] in *. rewrite <-app_assoc in *. rewrite rev_app_distr, <-app_assoc in Hk.
    destruct fuel as [|fuel]; [rewrite length_app in Hf; unfold tw_text in Hf; rewrite !length_app, !length_replicate in Hf; lia|].
    rewrite iterate_more. rewrite (tyword_run _ P w _ g x Hw); [done| |].
    + destruct ws as [|w' ws]; cbn [fmap list_fmap concat app].
      * destruct n; [cbn [replicate app]; by apply name_stops, word_not_space|done].
      * rewrite <-app_assoc. apply Forall_cons in Hws as [Hw' _]. unfold tw_text at 1. rewrite <-app_assoc. by apply name_stops, word_not_space.
    + cbn [ahead]. set (v := concat (tw_text <$> ws) ++ _) in *. rewrite (length_app (tw_text w)) in *.
      assert (Hl : (0 < length (tw_text w))%nat) by (unfold tw_text; rewrite !length_app, !length_replicate; lia).
      destruct (Nat.ltb_spec (length v) (length (tw_text w) + length v)); [|lia]. apply IH; [done|done|fold v; lia|exact Hk].
Qed.

(** *** The line *)

Definition impl_of (d : decl) : text := match d_link d with Other f => f | _ => [] end.
Definition colon_of (d : decl) : text := match d_link d with Own => [] | _ => [":"%char] end.

(** What follows the argument list. *)
Definition re_tail : re :=
  seq_re [spaces; Star (ch ";"); spaces; Cap 5 (opt (ch ":")); spaces; Cap 6 (Star (Chr is_word)); Cap 7 (Star (Chr is_dot))].

Lemma tail_run (semi : bool) l P g :
  match l with Other f => is_name f | _ => True end ->
  let t := (if semi then txt ";" else []) ++ link_text l in
  run re_tail Some (Cursor P t g) =
    Some (Cursor (rev t ++ P) [] ((7%nat, []) :: (6%nat, match l with Other f => f | _ => [] end) :: (5%nat, match l with Own => [] | _ => [":"%char] end) :: g)).
Proof.
  intros Hf. destruct l as [|f|]; [by destruct semi| |by destruct semi].
  assert (Hend : forall Q, run (seq_re [Cap 5 (opt (ch ":")); spaces; Cap 6 (Star (Chr is_word)); Cap 7 (Star (Chr is_dot))]) Some
      (Cursor Q (":"%char :: " "%char :: f) g) = Some (Cursor (rev f ++ txt " :" ++ Q) [] ((7%nat, []) :: (6%nat, f) :: (5%nat, [":"%char]) :: g))).
  { intros Q. unfold seq_re. cbn [foldr]. rewrite run_cat. apply cap_opt_run; [done|].
    rewrite run_cat. apply (star_run _ _ _ [" "%char]); [by repeat constructor|rewrite <-(app_nil_r f); by apply name_stops, word_not_space|].
    rewrite run_cat. rewrite <-(app_nil_r f) at 1. apply cap_star_run; [apply Hf|done|].
    rewrite run_cat. apply (cap_star_run _ _ _ _ [] []); done. }
  destruct semi; cbn [txt list_ascii_of_string link_text app rev]; rewrite <-!app_assoc; unfold re_tail, seq_re; cbn [foldr].
  - rewrite run_cat. apply (star_run _ _ P []); [done|done|].
    rewrite run_cat. apply (star_run _ _ _ [";"%char]); [by repeat constructor|done|].
    rewrite run_cat. apply (star_run _ _ _ [" "%char]); [by repeat constructor|done|apply Hend].
  - rewrite run_cat. apply (star_run _ _ _ [" "%char]); [by repeat constructor|done|].
    rewrite run_cat. apply (star_run _ _ _ []); [done|done|].
    rewrite run_cat. apply (star_run _ _ _ []); [done|done|apply Hend].
Qed.

Lemma tail_no_paren d : wf_decl d -> Forall (fun c => is_chr ")"%char c = false) ((if d_semi d then txt ";" else []) ++ link_text (d_link d)).
Proof.
  intros (_ & _ & _ & _ & Hl). apply Forall_app. split; [destruct (d_semi d); by repeat constructor|].
  destruct (d_link d) as [|f|]; cbn [link_text]; [done| |by repeat constructor]. apply Forall_app. split; [by repeat constructor|].
  eapply Forall_impl; [apply Hl|]. intros c Hc. unfold is_chr. destruct (Ascii.eqb_spec c ")"%char) as [->|]; done.
Qed.

Lemma type_run k P d u g x : wf_decl d ->
  k (Cursor (rev (type_text d) ++ P) (d_name d ++ "("%char :: u) ((1%nat, type_text d) :: word_groups (d_type d) g)) = Some x ->
  run (Cap 1 (Cat (plus (Cap 2 re_tyword)) stars)) k (Cursor P (type_text d ++ d_name d ++ "("%char :: u) g) = Some x.
Proof.
  intros (Hty & Hws & Hname & _) Hk. rewrite run_cap. set (K := fun s' => k _).
  assert (HK : K (Cursor (rev (type_text d) ++ P) (d_name d ++ "("%char :: u) (word_groups (d_type d) g)) = Some x) by (unfold K; by rewrite between_app).
  clearbody K. clear Hk k. unfold type_text in *. destruct (d_type d) as [|w ws]; [done|]. apply Forall_cons in Hws as [Hw Hws].
  cbn [fmap list_fmap concat] in *. rewrite !rev_app_distr, <-!app_assoc in *. unfold plus. rewrite !run_cat. apply tyword_run; [done| |].
  - destruct ws as [|w' ws]; cbn [fmap list_fmap concat app].
    + destruct (d_stars d); [cbn [replicate app]; by apply name_stops, word_not_space|done].
    + apply Forall_cons in Hws as [Hw' _]. unfold tw_text at 1. rewrite <-!app_assoc. by apply name_stops, word_not_space.
  - rewrite run_star. apply tywords_run; [done|done|done|]. unfold stars. apply star_run; [by apply replicate_class|by apply name_stops, word_not_star|exact HK].
Qed.

Lemma args_run k P d u g x : wf_decl d -> Forall (fun c => is_chr ")"%char c = false) u ->
  k (Cursor (rev (args_text d) ++ P) u ((4%nat, args_text d) :: g)) = Some x ->
  run (Cap 4 (seq_re [ch "("; Star (Chr is_dot); ch ")"])) k (Cursor P (args_text d ++ u) g) = Some x.
Proof.
  intros (_ & _ & _ & Hargs & _) Hu Hk. rewrite run_cap. set (K := fun s' => k _).
  assert (HK : K (Cursor (rev (args_text d) ++ P) u g) = Some x) by (unfold K; by rewrite between_app).
  clearbody K. clear Hk k. unfold args_text in *. cbn [rev app] in *. rewrite rev_app_distr, <-!app_assoc in *. unfold seq_re. cbn [foldr ch]. rewrite run_cat, chr_run by done.
  rewrite run_cat. change (run (Cat (Chr (is_chr ")"%char)) Eps) K) with (run (Chr (is_chr ")"%char)) K). apply star_last; [|done|done|done|exact HK]. eapply Forall_impl; [exact Hargs|]. by intros c [? _].
Qed.

Lemma type_stops d u : wf_decl d -> stops is_space (type_text d ++ u).
Proof.
  intros (Hty & Hws & _). unfold type_text. destruct (d_type d) as [|w ws]; [done|]. apply Forall_cons in Hws as [Hw _].
  cbn [fmap list_fmap concat]. unfold tw_text at 1. rewrite <-!app_assoc. by apply name_stops, word_not_space.
Qed.

(** The expression finds the parts of a prototype. *)
Lemma proto_run d : wf_decl d ->
  exists m, search re_proto (decl_text d) = Some ([], m) /\ group 1 m = type_text d /\ group 3 m = d_name d /\ group 4 m = args_text d /\
    group 5 m = colon_of d /\ group 6 m = impl_of d /\ group 7 m = [].
Proof.
  intros Hwf. pose proof Hwf as (Hty & Hws & Hname & Hargs & Hl). set (tl := (if d_semi d then txt ";" else []) ++ link_text (d_link d)).
  assert (E : run re_proto Some (Cursor [] (decl_text d) []) = Some (Cursor (rev tl ++ rev (args_text d) ++ rev (d_name d) ++ rev (type_text d)) []
    ((7%nat, []) :: (6%nat, impl_of d) :: (5%nat, colon_of d) :: (4%nat, args_text d) :: (3%nat, d_name d) :: (1%nat, type_text d) :: word_groups (d_type d) []))).
  { unfold re_proto, decl_text. fold tl. change (seq_re (?a :: ?b :: ?c :: ?d :: ?e :: ?r)) with (Cat a (Cat b (Cat c (Cat d (Cat e re_tail))))).
    rewrite run_cat. apply (star_run _ _ [] []); [done| |].
    { by apply (type_stops d). }
    rewrite run_cat. apply (type_run _ _ d ((d_args d ++ [")"%char]) ++ tl)); [done|].
    rewrite run_cat. apply (cap_plus_run _ _ _ _ (d_name d)); [apply Hname|apply Hname|done|].
    rewrite run_cat. apply (star_run _ _ _ []); [done|done|].
    rewrite run_cat. apply (args_run _ _ d tl); [done|by apply tail_no_paren|]. cbn [rev app]. rewrite app_nil_r. by apply tail_run. }
  exists (Cursor (rev tl ++ rev (args_text d) ++ rev (d_name d) ++ rev (type_text d)) []
    ((7%nat, []) :: (6%nat, impl_of d) :: (5%nat, colon_of d) :: (4%nat, args_text d) :: (3%nat, d_name d) :: (1%nat, type_text d) :: word_groups (d_type d) [])).
  split; [|done]. unfold search. destruct (length (decl_text d)); cbn [search_from]; by rewrite E.
Qed.

(** *** Comments, blanks and the other lines *)

Definition plain_char (c : ascii) : Prop := c <> "#"%char /\ c <> "/"%char.

Lemma is_chr_ne c d : c <> d -> is_chr d c = false.
Proof. unfold is_chr. by destruct (Ascii.eqb_spec c d). Qed.

Lemma no_comment_here P t g : match t with c :: _ => plain_char c | [] => True end -> run re_comment Some (Cursor P t g) = None.
Proof.
  intros Ht. unfold re_comment. rewrite run_cat, run_cap. cbn [run ch ahead]. destruct t as [|c t]; [done|]. destruct Ht as [H1 H2].
  by rewrite (is_chr_ne c "#"%char H1), (is_chr_ne c "/"%char H2).
Qed.

Lemma comment_search t v : forall P g,
  Forall plain_char t ->
  search_from (length (t ++ v)) re_comment (Cursor P (t ++ v) g) = search_from (length v) re_comment (Cursor (rev t ++ P) v g).
Proof.
  induction t as [|c t IH]; intros P g Ht; [done|]. apply Forall_cons in Ht as [Hc Ht]. cbn [app length search_from].
  rewrite no_comment_here by done. cbn [ahead]. unfold step. cbn [passed ahead groups tail rev]. rewrite IH by done. by rewrite <-app_assoc.
Qed.

Definition note_text (n : option text) : text := match n with Some c => "#"%char :: c | None => [] end.
Definition wf_note (n : option text) : Prop := match n with Some c => Forall (fun c => is_dot c = true) c | None => True end.

Lemma delete_comment t n : Forall plain_char t -> wf_note n -> delete_match re_comment (t ++ note_text n) = t.
Proof.
  intros Ht Hn. unfold delete_match, search. rewrite comment_search by done. destruct n as [c|]; cbn [note_text length search_from].
  - assert (E : forall P, exists P' g', run re_comment Some (Cursor P ("#"%char :: c) []) = Some (Cursor P' [] g')).
    { intros P. unfold re_comment. rewrite run_cat, run_cap. set (K := fun s' => run (Star _) Some _).
      assert (HK : K (Cursor ("#"%char :: P) c []) = Some (Cursor (rev c ++ "#"%char :: P) [] [(1%nat, ["#"%char])])).
      { unfold K. rewrite (between_app P ["#"%char] c). rewrite <-(app_nil_r c) at 1. by apply (star_run is_dot Some _ c []). }
      clearbody K. eexists _, _. cbn [run ch ahead]. unfold step. cbn [passed ahead groups tail]. rewrite HK. done. }
    destruct (E (rev t ++ [])) as (P' & g' & ->). cbn [passed ahead]. rewrite !app_nil_r. apply rev_involutive.
  - rewrite no_comment_here by done. cbn [ahead]. by rewrite app_nil_r.
Qed.

Lemma delete_indent n t : stops is_space t -> delete_match re_trim (replicate n " "%char ++ t) = t.
Proof.
  intros Ht. unfold delete_match, search.
  assert (E : run re_trim Some (Cursor [] (replicate n " "%char ++ t) []) = Some (Cursor (rev (replicate n " "%char) ++ []) t [])).
  { unfold re_trim. cbn [run]. unfold spaces. rewrite (star_run is_space Some [] (replicate n " "%char) t [] (Cursor (rev (replicate n " "%char) ++ []) t [])); [done|by apply replicate_class|done|done]. }
  destruct (length (replicate n " "%char ++ t)); cbn [search_from]; by rewrite E.
Qed.

Lemma clean_text n t note : Forall plain_char t -> stops is_space t -> wf_note note -> clean_line (replicate n " "%char ++ t ++ note_text note) = t.
Proof.
  intros Ht Hs Hn. unfold clean_line. rewrite app_assoc, delete_comment; [by apply delete_indent| |done].
  apply Forall_app. split; [|done]. apply Forall_replicate. by split.
Qed.

Lemma name_plain t : is_name t -> Forall plain_char t.
Proof. intros [_ Ht]. eapply Forall_impl; [exact Ht|]. intros c Hc. split; by intros ->. Qed.

Lemma decl_plain d : wf_decl d -> Forall plain_char (decl_text d).
Proof.
  intros (_ & Hws & Hname & Hargs & Hl). assert (Hrep : forall c n, plain_char c -> Forall plain_char (replicate n c)) by (intros; by apply Forall_replicate).
  unfold decl_text, type_text, args_text. rewrite !Forall_app. split_and!.
  - apply Forall_concat, Forall_fmap. eapply Forall_impl; [exact Hws|]. intros w Hw. unfold compose, tw_text. rewrite !Forall_app.
    split_and!; [by apply name_plain|by apply Hrep|by apply Hrep].
  - by apply Hrep.
  - by apply name_plain.
  - apply Forall_cons. split; [done|]. apply Forall_app. split; [|by repeat constructor]. eapply Forall_impl; [exact Hargs|]. intros c (_ & ? & ?). done.
  - destruct (d_semi d); by repeat constructor.
  - destruct (d_link d) as [|f|]; cbn [link_text]; [done| |by repeat constructor]. apply Forall_app. split; [by repeat constructor|by apply name_plain].
Qed.

(** ** The input *)

(** A prototype, a line with nothing but a comment, or a change of header. *)
Inductive item : Type :=
| IDecl (indent : nat) (d : decl) (note : option text)
| INote (indent : nat) (note : option text)
| IHeader (f : text).

Definition item_text (it : item) : text :=
  match it with
  | IDecl n d note => replicate n " "%char ++ decl_text d ++ note_text note
  | INote n note => replicate n " "%char ++ note_text note
  | IHeader f => txt "? " ++ f
  end.

(** The name of a header. *)
Definition file_name (f : text) : Prop := f <> [] /\ Forall (fun c => is_word c = true \/ c = "."%char) f.

Definition wf_item (it : item) : Prop :=
  match it with
  | IDecl _ d note => wf_decl d /\ wf_note note
  | INote _ note => wf_note note
  | IHeader f => file_name f
  end.

#[export] Instance is_name_dec t : Decision (is_name t).
Proof. unfold is_name. apply _. Defined.
#[export] Instance file_name_dec f : Decision (file_name f).
Proof. unfold file_name. apply _. Defined.
#[export] Instance wf_decl_dec d : Decision (wf_decl d).
Proof. unfold wf_decl. destruct (d_link d); apply _. Defined.
#[export] Instance wf_item_dec it : Decision (wf_item it).
Proof. destruct it as [n d [c|]|n [c|]|f]; unfold wf_item, wf_note; apply _. Defined.

Lemma file_name_chars f : file_name f ->
  f <> [] /\ stops is_space f /\ Forall (fun c => is_dot c = true /\ plain_char c /\ c <> "("%char /\ is_space c = false) f.
Proof.
  intros [Hne Hf]. assert (H : Forall (fun c => is_dot c = true /\ plain_char c /\ c <> "("%char /\ is_space c = false) f).
  { eapply Forall_impl; [exact Hf|]. intros c [Hc| ->]; [|done]. unfold plain_char. split_and!; try (by intros ->); [|by apply word_not_space].
    unfold is_dot. unfold is_word, is_digit, is_lower, is_upper in Hc. lia. }
  split; [done|]. split; [|done]. destruct f as [|c f]; [done|]. by apply Forall_cons in H as [(_ & _ & _ & ?) _].
Qed.

Lemma strip_name f : file_name f -> strip f = f.
Proof. intros Hf. apply strip_none. eapply Forall_impl; [apply (file_name_chars f Hf)|]. by intros c (_ & _ & _ & ?). Qed.

(** A system call: its return type, its name, the routine. *)
Record call : Type := Call { c_type : text; c_name : text; c_impl : text }.

Definition decl_call (d : decl) : option call :=
  match d_link d with
  | Own => Some (Call (type_text d) (d_name d) (txt "sys_" ++ d_name d))
  | Other f => Some (Call (type_text d) (d_name d) f)
  | Library => None
  end.
Definition item_call (it : item) : option call := match it with IDecl _ d _ => decl_call d | _ => None end.

Definition proto_text (d : decl) : text := type_text d ++ d_name d ++ args_text d ++ txt ";" ++ nl.

(** *** What each kind of line does *)

Definition add (c : option call) (g : gen) : gen := match c with Some c => add_call (c_type c) (c_name c) (c_impl c) g | None => g end.
Definition switch (f : text) (g : gen) : gen :=
  print_uh (uh_top (fileNameToMacro f)) (set_macro (fileNameToMacro f) (open_uh f (print_uh (uh_end (headerMacro g)) g))).

Definition item_effect (it : item) (g : gen) : gen :=
  match it with
  | IDecl _ d _ => add (decl_call d) (print_uh (proto_text d) g)
  | INote _ _ => g
  | IHeader f => switch f g
  end.

Lemma decl_line header n d note g :
  wf_decl d -> wf_note note -> gen_line header (item_text (IDecl n d note)) g = item_effect (IDecl n d note) (count_line g).
Proof.
  intros Hd Hn. destruct (proto_run d Hd) as (m & E & G1 & G3 & G4 & G5 & G6 & G7). pose proof Hd as (_ & _ & Hname & _ & Hl).
  assert (Hs : stops is_space (decl_text d)) by (by apply type_stops). cbn [item_text]. unfold gen_line.
  rewrite (clean_text n _ note (decl_plain d Hd) Hs Hn), E.
  assert (Hpos : (0 <? length (decl_text d))%nat = true).
  { apply Nat.ltb_lt. unfold decl_text. rewrite !length_app. destruct Hname as [Hne _]. destruct (d_name d); [done|]. simpl. lia. }
  assert (Hnz : (length (d_name d) =? 0)%nat = false) by (destruct Hname as [Hne _]; by destruct (d_name d)).
  rewrite Hpos. unfold gen_proto. rewrite G1, G3, G4, G5, G6, G7, Hnz. cbn [orb Nat.ltb Nat.leb length item_effect]. unfold decl_call, colon_of, impl_of, proto_text.
  destruct (d_link d) as [|f|]; cbn [length Nat.ltb Nat.leb add c_type c_name c_impl]; [done| |done].
  destruct Hl as [Hne _]. by destruct f.
Qed.

Lemma note_line header n note g : wf_note note -> gen_line header (item_text (INote n note)) g = count_line g.
Proof. intros Hn. cbn [item_text]. unfold gen_line. pose proof (clean_text n [] note) as E. cbn [app] in E. by rewrite E. Qed.

(** A prototype has an argument list. *)
Lemma proto_paren s s' : matches re_proto s s' -> "("%char ∈ ahead s.
Proof.
  unfold re_proto, seq_re. cbn [foldr]. intros M. apply matches_cat in M as (s1 & M1 & M). apply matches_cat in M as (s2 & M2 & M).
  apply matches_cat in M as (s3 & M3 & M). apply matches_cat in M as (s4 & M4 & M). apply matches_cat in M as (s5 & M5 & _).
  apply matches_suffix in M1 as [a1 ->], M2 as [a2 ->], M3 as [a3 ->], M4 as [a4 ->].
  inversion M5 as [| | | | | | | | |? ? ? s6 M6]; subst. apply matches_cat in M6 as (s7 & M7 & _). apply matches_chr in M7 as (c & Hc & E & _).
  apply Ascii.eqb_eq in Hc. subst c. rewrite E. rewrite !elem_of_app. do 4 right. constructor.
Qed.

Lemma header_search f : wf_item (IHeader f) ->
  search re_proto (txt "? " ++ f) = None /\ exists m, search re_switch (txt "? " ++ f) = Some ([], m) /\ group 1 m = f.
Proof.
  intros Hw. destruct (file_name_chars f Hw) as (Hne & Hs & Hf). split.
  - pose proof (search_from_spec (length (txt "? " ++ f)) re_proto (Cursor [] (txt "? " ++ f) []) (le_n _)) as H. unfold search.
    destruct (search_from _ _ _) as [[pre s']|]; [exfalso|done]. destruct H as (t & _ & [u Hu] & M & _). apply proto_paren in M.
    unfold advance in M. cbn [ahead] in M, Hu. rewrite Hu, drop_app_length in M. assert (Hin : "("%char ∈ txt "? " ++ f) by (rewrite Hu; apply elem_of_app; by right).
    apply elem_of_app in Hin as [Hin|Hin].
    + cbn [txt list_ascii_of_string] in Hin. rewrite !elem_of_cons in Hin. destruct Hin as [Hin|[Hin|Hin%not_elem_of_nil]]; done.
    + rewrite Forall_forall in Hf. by destruct (Hf _ Hin) as (_ & _ & ? & _).
  - assert (E : run re_switch Some (Cursor [] (txt "? " ++ f) []) = Some (Cursor (rev f ++ txt " ?") [] [(1%nat, f)])).
    { unfold re_switch, seq_re. cbn [foldr ch txt list_ascii_of_string app]. rewrite run_cat. apply (star_run _ _ _ []); [done|done|].
      rewrite run_cat, chr_run by done. rewrite run_cat. apply (star_run _ _ _ [" "%char]); [by repeat constructor|done|].
      rewrite run_cat. rewrite <-(app_nil_r f) at 1. apply cap_plus_run; [done|eapply Forall_impl; [exact Hf|]; by intros c [? _]|done|].
      rewrite run_cat. apply (star_run _ _ _ [] []); done. }
    exists (Cursor (rev f ++ txt " ?") [] [(1%nat, f)]). split; [|reflexivity]. unfold search. destruct (length (txt "? " ++ f)); cbn [search_from]; by rewrite E.
Qed.

Lemma header_line header f g : wf_item (IHeader f) -> gen_line header (item_text (IHeader f)) g = switch f (count_line g).
Proof.
  intros Hf. destruct (header_search f Hf) as (E1 & m & E2 & Hm). destruct (file_name_chars f Hf) as (Hne & Hs & Hall). cbn [item_text]. unfold gen_line.
  assert (Hc : clean_line (txt "? " ++ f) = txt "? " ++ f).
  { pose proof (clean_text 0 (txt "? " ++ f) None) as H. cbn [replicate app note_text] in H. rewrite app_nil_r in H. apply H; [|done|done].
    apply Forall_app. split; [by repeat constructor|]. eapply Forall_impl; [exact Hall|]. by intros c (_ & ? & _). }
  rewrite Hc, E1, E2. cbn [txt list_ascii_of_string app length Nat.ltb Nat.leb]. unfold gen_switch. by rewrite Hm.
Qed.

Lemma item_line header it g : wf_item it -> gen_line header (item_text it) g = item_effect it (count_line g).
Proof. destruct it as [n d note|n note|f]; [intros []; by apply decl_line|by apply note_line|by apply header_line]. Qed.

(** ** The tables *)

Definition define_line (k : Z) (c : call) : text := txt "#define SYS_" ++ c_name c ++ tab ++ decimal k ++ nl.
Definition stub_line (c : call) : text := txt "STUB(" ++ c_name c ++ txt ")" ++ nl.
Definition extern_line (c : call) : text := txt "extern " ++ c_type c ++ c_impl c ++ txt "(void);" ++ nl.
Definition entry_line (c : call) : text := txt "[SYS_" ++ c_name c ++ txt "] " ++ c_impl c ++ txt "," ++ nl.
Fixpoint defines (k : Z) (cs : list call) : text :=
  match cs with
  | [] => []
  | c :: cs => define_line (k + 1) c ++ defines (k + 1) cs
  end.

Definition sections_text (s : text * list decl) : text * text :=
  (s.1, uh_top (fileNameToMacro s.1) ++ concat (proto_text <$> s.2) ++ uh_end (fileNameToMacro s.1)).

(** The headers and their prototypes, the last header first. *)
Fixpoint sections (f : text) (ds : list decl) (its : list item) : list (text * list decl) :=
  match its with
  | [] => [(f, ds)]
  | IDecl _ d _ :: its => sections f (ds ++ [d]) its
  | INote _ _ :: its => sections f ds its
  | IHeader f' :: its => sections f' [] its ++ [(f, ds)]
  end.

Definition run_items (its : list item) (g : gen) : gen := foldl (fun g it => item_effect it (count_line g)) g its.

Lemma gen_items header its : forall g, Forall wf_item its -> gen_lines header (item_text <$> its) g = run_items its g.
Proof.
  induction its as [|it its IH]; intros g Hw; [done|]. apply Forall_cons in Hw as [Hi Hw]. unfold gen_lines, run_items in *. cbn [fmap list_fmap foldl].
  rewrite item_line by done. by apply IH.
Qed.

(** The system calls [cs] have been added. *)
Definition extends (cs : list call) (g g' : gen) : Prop :=
  syscall_num g' = syscall_num g + Z.of_nat (length cs) /\ sh g' = sh g ++ defines (syscall_num g) cs /\ us g' = us g ++ concat (stub_line <$> cs) /\
  externs g' = externs g ++ concat (extern_line <$> cs) /\ syscallArray g' = syscallArray g ++ concat (entry_line <$> cs) /\ stderr g' = stderr g.

Lemma defines_app a b : forall k, defines k (a ++ b) = defines k a ++ defines (k + Z.of_nat (length a)) b.
Proof.
  induction a as [|c a IH]; intros k; [by rewrite Z.add_0_r|]. cbn [app defines length]. rewrite IH, <-app_assoc. do 3 f_equal. lia.
Qed.

Lemma extends_trans a b g g1 g2 : extends a g g1 -> extends b g1 g2 -> extends (a ++ b) g g2.
Proof.
  intros (A1 & A2 & A3 & A4 & A5 & A6) (B1 & B2 & B3 & B4 & B5 & B6). unfold extends.
  rewrite length_app, defines_app, !fmap_app, !concat_app, !app_assoc, <-A2, <-A3, <-A4, <-A5, <-A1, <-A6. split_and!; try done. lia.
Qed.

Lemma extends_none g g' :
  syscall_num g' = syscall_num g -> sh g' = sh g -> us g' = us g -> externs g' = externs g -> syscallArray g' = syscallArray g -> stderr g' = stderr g ->
  extends [] g g'.
Proof. intros H1 H2 H3 H4 H5 H6. unfold extends. simpl. by rewrite !app_nil_r, Z.add_0_r. Qed.

Lemma item_extends it g : extends (option_list (item_call it)) g (item_effect it (count_line g)).
Proof.
  destruct it as [n d note|n note|f]; cbn [item_call item_effect]; [|by apply extends_none..].
  destruct (decl_call d) as [c|]; [|by apply extends_none]. unfold extends. simpl. unfold define_line, stub_line, extern_line, entry_line. rewrite !app_nil_r. done.
Qed.

Lemma items_extend its : forall g, extends (omap item_call its) g (run_items its g).
Proof.
  induction its as [|it its IH]; intros g; [by apply extends_none|].
  replace (omap item_call (it :: its)) with (option_list (item_call it) ++ omap item_call its) by (cbn; by destruct (item_call it)).
  eapply extends_trans; [apply item_extends|apply IH].
Qed.

Lemma items_headers its : forall g f ds done,
  Forall wf_item its -> headerMacro g = fileNameToMacro f -> uh g = (f, uh_top (fileNameToMacro f) ++ concat (proto_text <$> ds)) :: done ->
  uh (print_uh (uh_end (headerMacro (run_items its g))) (run_items its g)) = (sections_text <$> sections f ds its) ++ done.
Proof.
  induction its as [|it its IH]; intros g f ds done_ Hw Hm Hu; unfold run_items in *; cbn [foldl sections].
  - simpl. rewrite Hm, Hu. unfold sections_text. simpl. by rewrite <-app_assoc.
  - apply Forall_cons in Hw as [Hi Hw]. destruct it as [n d note|n note|f']; cbn [item_effect].
    + apply IH; [done|destruct (decl_call d); exact Hm|]. rewrite fmap_app, concat_app, app_assoc. cbn [fmap list_fmap concat]. rewrite app_nil_r.
      destruct (decl_call d); simpl; by rewrite Hu.
    + by apply IH.
    + rewrite fmap_app, <-app_assoc. apply IH; [done|done|]. simpl. rewrite Hu, Hm, app_nil_r, (strip_name f' Hi). unfold sections_text. simpl. by rewrite <-app_assoc.
Qed.

(** *** What the compiler makes of them *)

(** The value of the macro SYS_[n] of syscall.h: that of its last
    definition. *)
Fixpoint sys_number_from (k : Z) (cs : list call) (n : text) : option Z :=
  match cs with
  | [] => None
  | c :: cs =>
      match sys_number_from (k + 1) cs n with
      | Some x => Some x
      | None => if decide (c_name c = n) then Some (k + 1) else None
      end
  end.
Definition sys_number (cs : list call) (n : text) : option Z := sys_number_from 0 cs n.

(** The array of sysjump.h: each entry goes to the index its macro gives, and
    the array ends at the largest index. *)
Definition enter (cs : list call) (tbl : list (option text)) (c : call) : list (option text) :=
  match sys_number cs (c_name c) with
  | Some k => <[Z.to_nat k := Some (c_impl c)]> tbl
  | None => tbl
  end.
Definition jump_table (cs : list call) : list (option text) :=
  foldl (enter cs) (replicate (match cs with [] => 0 | _ => S (length cs) end) None) cs.

Lemma number_absent cs : forall k n, n ∉ c_name <$> cs -> sys_number_from k cs n = None.
Proof.
  induction cs as [|c cs IH]; intros k n Hn; [done|]. cbn [fmap list_fmap] in Hn. apply not_elem_of_cons in Hn as [H1 H2]. cbn [sys_number_from].
  rewrite IH by done. by rewrite decide_False.
Qed.

Lemma number_at cs : forall k j c, NoDup (c_name <$> cs) -> cs !! j = Some c -> sys_number_from k cs (c_name c) = Some (k + Z.of_nat j + 1).
Proof.
  induction cs as [|c0 cs IH]; intros k j c Hnd Hj; [done|]. cbn [fmap list_fmap] in Hnd. apply NoDup_cons in Hnd as [Hn Hnd]. cbn [sys_number_from].
  destruct j as [|j].
  - injection Hj as ->. rewrite number_absent by done. rewrite decide_True by done. f_equal. lia.
  - cbn in Hj. rewrite (IH (k + 1) j c Hnd Hj). f_equal. lia.
Qed.

Lemma enter_other cs l : forall tbl i,
  (forall c k, c ∈ l -> sys_number cs (c_name c) = Some k -> Z.to_nat k <> i) -> foldl (enter cs) tbl l !! i = tbl !! i.
Proof.
  induction l as [|c l IH]; intros tbl i H; [done|]. cbn [foldl]. rewrite IH; [|intros c' k Hc; apply H; by constructor].
  unfold enter. destruct (sys_number cs (c_name c)) as [k|] eqn:E; [|done]. apply list_lookup_insert_ne. apply (H c k); [constructor|done].
Qed.

Lemma enter_length cs l : forall tbl, length (foldl (enter cs) tbl l) = length tbl.
Proof.
  induction l as [|c l IH]; intros tbl; [done|]. cbn [foldl]. rewrite IH. unfold enter. destruct (sys_number cs (c_name c)); [apply length_insert|done].
Qed.

(** The table sends the number of a call to its routine, and nothing else is
    in it. *)
Lemma dispatch cs j c : NoDup (c_name <$> cs) -> cs !! j = Some c ->
  sys_number cs (c_name c) = Some (Z.of_nat j + 1) /\ jump_table cs !! S j = Some (Some (c_impl c)).
Proof.
  intros Hnd Hj. assert (Hnum : forall j c, cs !! j = Some c -> sys_number cs (c_name c) = Some (0 + Z.of_nat j + 1)) by (intros; by apply number_at).
  split; [by apply Hnum|].
  unfold jump_table. pose proof (lookup_lt_Some _ _ _ Hj) as Hlt. set (tbl := replicate _ None).
  assert (Hl : length tbl = S (length cs)) by (unfold tbl; destruct cs; [simpl in Hlt; lia|by rewrite length_replicate]). clearbody tbl.
  rewrite <-(take_drop_middle cs j c Hj), foldl_app. cbn [foldl]. rewrite (take_drop_middle cs j c Hj). rewrite enter_other.
  - unfold enter at 1. rewrite (Hnum j c Hj). replace (Z.to_nat (0 + Z.of_nat j + 1)) with (S j) by lia. apply list_lookup_insert_eq. rewrite enter_length. lia.
  - intros c' k [i Hi]%list_elem_of_lookup_1 Hk. rewrite lookup_drop in Hi. rewrite (Hnum _ _ Hi) in Hk. injection Hk as <-. lia.
Qed.

Lemma jump_table_zero cs : jump_table cs !! 0%nat = match cs with [] => None | _ => Some None end.
Proof.
  unfold jump_table. rewrite enter_other; [by destruct cs|]. intros c k _ Hk. assert (H : forall cs k0, sys_number_from k0 cs (c_name c) = Some k -> k0 + 1 <= k).
  { intros l. induction l as [|c' l IH]; intros k0 E; [done|]. cbn [sys_number_from] in E. destruct (sys_number_from (k0 + 1) l (c_name c)) as [x|] eqn:Ex.
    - injection E as ->. apply IH in Ex. lia.
    - destruct (decide _); [injection E as <-; lia|done]. }
  apply H in Hk. lia.
Qed.



(** ** user.h.in *)

Definition user_h_in : list text := txt <$>
  ["struct stat;";
   "# The line above IS ADDED as is to the output header as is after an error message is printed.";
   "int skippedFunctionType(void); extern int externInt;";
   "// Since the line above looks like a function prototype, but does not end as a function prototype on one line is expected to end, an error message is printed and it is NOT ADDED to the output header.";
   "";
   "// system calls";
   "     int fork(void);  ";
   "# Every line is trimmed.   ";
   "int exit(void) __attribute__((noreturn));";
   "int wait(void);     # Comment that isn't at end of line.";
   "int pipe(int*);   // C-style type of comment that isn't at end of line";
   "int write(int, void*, int);";
   "int read(int, void*, int);";
   "int close(int);";
   "int kill(int);";
   "int exec(char*, char**);";
   "int open(char*, int);";
   "int mknod(char*, short, short);";
   "int unlink(char*);";
   "int fstat(int fd, struct stat*);";
   "int link(char*, char*);";
   "int mkdir(char*);";
   "int chdir(char*);";
   "int dup(int)";
   "# I don't need a semi-colon since gensyss.pl requires each system call prototype to be on its own line for now.";
   "void set_write_panic(int)";
   "int getpid();";
   "char* sbrk(int);";
   "int sleep(int);";
   "unsigned int fcount(void);";
   "int proc_tickets(int);";
   "void fsync(void);";
   "// gensys.pl supports multiword variable names too.";
   "int check(int fd, int offset);";
   "# Since get_cpu_ticks is implemented in the function called sys_tickcount_sc instead of sys_tickount I specify it after the prototype with a : and the name of the function that implements the system call.";
   "int get_cpu_ticks(void) : sys_tickcount_sc";
   "void pbjFSck(void);";
   "// ulib.c";
   "// All of these have : with nothing afterwards as they are not system calls.";
   "# The :'s tell gensyss.pl to just include the function definition in user.h instead of considering it a system call and hooking it up to the system call path.";
   "int stat(char*, struct stat*); :";
   "char* strcpy(char*, char*); :";
   "void *memmove(void*, void*, int); :";
   "char* strchr(const char*, char c); :";
   "int strcmp(const char*, const char*); :";
   "void printf(int, char*, ...); :";
   "char* gets(char*, int max); : ";
   "uint strlen(char*); :        ";
   "void* memset(void*, int, uint); :      ";
   "void* malloc(uint); :      ";
   "void free(void*); :      ";
   "int atoi(const char*); :       ";
   "";
   "? thread.h";
   "# The above line tells gensyss.pl that the following methods until the end of the file or the  next line that begins with a ? (whichever comes first) need to be in threads.h instead of user.h or whatever the second argument to gensyss.pl was.";
   "typedef struct _mutex_t {";
   "  uint locked;   // Is the lock held?";
   "} mutex_t;";
   "typedef struct _cond_t {";
   "  char unused;";
   "} cond_t;";
   "int thread_create(void (*start_routine)(void*), void *arg); :";
   "int thread_wait(void);";
   "void mutex_lock(mutex_t *m); :";
   "void mutex_unlock(mutex_t *m); :";
   "int cond_wait(cond_t *c, mutex_t *m); :";
   "int cond_signal(cond_t *c);";
   " ";
   "? threadsInt.h";
   "int thread_fork(void*);";
   "int cond_sleep_and_unlock_mutex(cond_t *c, mutex_t *m);"]%string.

Definition own_call (ty name : string) : call := Call (txt ty) (txt name) (txt "sys_" ++ txt name).

(** The system calls it declares. *)
Definition user_calls : list call :=
  [own_call "int " "fork";
   own_call "int " "exit";
   own_call "int " "wait";
   own_call "int " "pipe";
   own_call "int " "write";
   own_call "int " "read";
   own_call "int " "close";
   own_call "int " "kill";
   own_call "int " "exec";
   own_call "int " "open";
   own_call "int " "mknod";
   own_call "int " "unlink";
   own_call "int " "fstat";
   own_call "int " "link";
   own_call "int " "mkdir";
   own_call "int " "chdir";
   own_call "int " "dup";
   own_call "void " "set_write_panic";
   own_call "int " "getpid";
   own_call "char* " "sbrk";
   own_call "int " "sleep";
   own_call "unsigned int " "fcount";
   own_call "int " "proc_tickets";
   own_call "void " "fsync";
   own_call "int " "check";
   Call (txt "int ") (txt "get_cpu_ticks") (txt "sys_tickcount_sc");
   own_call "void " "pbjFSck";
   own_call "int " "thread_wait";
   own_call "int " "cond_signal";
   own_call "int " "thread_fork";
   own_call "int " "cond_sleep_and_unlock_mutex"]%string.

(** The files made from it. *)
Lemma user_h_tables :
  let g := gensyss (txt "user.h") user_h_in in
  syscall_h g = sh_top ++ defines 0 user_calls ++ txt "#endif /* __SYSCALL_H_ */" ++ nl /\
  usys_S g = us_top ++ concat (stub_line <$> user_calls) /\
  sysjump_h g = sjh_top ++ concat (extern_line <$> user_calls) ++ nl ++ txt "int (" ++ txt "*syscalls[])(void) = {" ++ nl ++
    concat (entry_line <$> user_calls) ++ txt "};" ++ nl ++ nl ++ txt "#endif /* __SYSJUMP_H_ */" ++ nl /\
  fst <$> headers g = [txt "threadsInt.h"; txt "thread.h"; txt "user.h"] /\ NoDup (c_name <$> user_calls).
Proof. split_and!; [vm_compute; reflexivity..|]. apply (bool_decide_unpack _). vm_compute. exact I. Qed.

(** The trim at the end of a line never happens: a blank after the name of
    the routine makes the line a malformed one, and the system call is
    missing from the tables. *)
Lemma trailing_blank_drops_call (g : gen) :
  syscall_num (gen_line (txt "user.h") (txt "int get_cpu_ticks(void) : sys_tickcount_sc") g) = syscall_num g + 1 /\
  syscall_num (gen_line (txt "user.h") (txt "int get_cpu_ticks(void) : sys_tickcount_sc ") g) = syscall_num g.
Proof. split; vm_compute; reflexivity. Qed.
