(* ===== verification/Systable.v ===== *)
(** * The system call table of this kernel

    The jump table that the build makes from user.h.in, with the routines of
    sysproc.c and sysfile.c for the names in it. *)

From Stdlib Require Import Ascii String.
From S2P Require Import Prelude Bio Fs Proc Syscall Sysproc Sysfile Perl Gensyss.

Section table.
Context (devsw_read : Z -> option (nat -> Z -> M fs_st (Z * list Z))) (devsw_write : Z -> option (nat -> list Z -> M fs_st Z)).
Context (ts : Z) (data : list Z) (fresh : bool) (eax : Z).

(** A routine without a result leaves something in %eax. *)
Definition void_call (m : M kst unit) : M kst Z := m ;; ret eax.

Definition routine_names : list string :=
  ["sys_fork"; "sys_exit"; "sys_wait"; "sys_pipe"; "sys_write"; "sys_read"; "sys_close"; "sys_kill"; "sys_exec"; "sys_open";
   "sys_mknod"; "sys_unlink"; "sys_fstat"; "sys_link"; "sys_mkdir"; "sys_chdir"; "sys_dup"; "sys_set_write_panic"; "sys_getpid";
   "sys_sbrk"; "sys_sleep"; "sys_fcount"; "sys_proc_tickets"; "sys_fsync"; "sys_check"; "sys_tickcount_sc"; "sys_pbjFSck";
   "sys_thread_wait"; "sys_cond_signal"; "sys_thread_fork"; "sys_cond_sleep_and_unlock_mutex"]%string.
Definition handlers : list (M kst Z) :=
  [sys_fork; sys_exit; sys_wait; sys_pipe data; sys_write devsw_write; sys_read devsw_read; sys_close; sys_kill; sys_exec
   devsw_read ts; sys_open devsw_read devsw_write; sys_mknod devsw_read devsw_write; sys_unlink devsw_read devsw_write; sys_fstat;
   sys_link devsw_read devsw_write; sys_mkdir devsw_read devsw_write; sys_chdir; sys_dup; void_call sys_set_write_panic;
   sys_getpid; sys_sbrk ts; sys_sleep; sys_fcount; sys_proc_tickets; void_call sys_fsync; sys_check; sys_tickcount_sc; void_call
   (sys_pbjFSck fresh); sys_thread_wait; sys_cond_signal; sys_thread_fork; sys_cond_sleep_and_unlock_mutex].
Definition routines : list (string * M kst Z) := zip routine_names handlers.

(** The linker's view of a name. *)
Fixpoint resolve (l : list (string * M kst Z)) (f : text) : option (M kst Z) :=
  match l with
  | [] => None
  | (n, m) :: l => if decide (txt n = f) then Some m else resolve l f
  end.

Definition syscalls : list (option (M kst Z)) := (fun o => o ≫= resolve routines) <$> jump_table user_calls.

Lemma resolve_at l j n h : NoDup (txt <$> l.*1) -> l !! j = Some (n, h) -> resolve l (txt n) = Some h.
Proof.
  revert j. induction l as [|[n0 h0] l IH]; intros j Hnd Hj; [done|]. cbn [fmap list_fmap fst] in Hnd. apply NoDup_cons in Hnd as [Hn Hnd].
  cbn [resolve]. destruct j as [|j]; [injection Hj as -> ->; by rewrite decide_True|]. rewrite decide_False; [by apply (IH j)|].
  intros E. apply Hn. rewrite E. apply list_elem_of_fmap. exists n. split; [done|]. apply list_elem_of_fmap. exists (n, h). split; [done|]. by eapply list_elem_of_lookup_2.
Qed.

Lemma routine_impls : c_impl <$> user_calls = txt <$> routine_names.
Proof. vm_compute. reflexivity. Qed.

Lemma routine_names_nodup : NoDup (txt <$> routine_names).
Proof. apply (bool_decide_unpack _). vm_compute. exact I. Qed.

(** Each system call that user.h.in declares is found in the table, under
    its number, with the routine of its name. *)
Lemma syscalls_dispatch j c h :
  user_calls !! j = Some c -> handlers !! j = Some h ->
  resolve routines (c_impl c) = Some h /\ sys_number user_calls (c_name c) = Some (Z.of_nat j + 1) /\ syscalls !! S j = Some (Some h).
Proof.
  intros Hj Hh. destruct user_h_tables as (_ & _ & _ & _ & Hnd). destruct (dispatch user_calls j c Hnd Hj) as [Hn Ht].
  assert (Hi : (txt <$> routine_names) !! j = Some (c_impl c)) by (by rewrite <-routine_impls, list_lookup_fmap, Hj).
  rewrite list_lookup_fmap in Hi. destruct (routine_names !! j) as [n|] eqn:En; [|done]. injection Hi as Hi.
  assert (Hr : resolve routines (c_impl c) = Some h).
  { rewrite <-Hi. apply (resolve_at _ j); [unfold routines; rewrite fst_zip by (simpl; lia); apply routine_names_nodup|].
    unfold routines. rewrite lookup_zip_with, En. simpl. by rewrite Hh. }
  split; [done|]. split; [done|]. unfold syscalls. rewrite list_lookup_fmap, Ht. exact (f_equal Some Hr).
Qed.
End table.
