(* ===== verification/SysPath.v ===== *)
(** * gensyss.pl, trapasm.S, trap.c, syscall.c: a system call from end to end

    The stub a program calls, the trap it takes, the kernel's routine and the
    way back, as one function call of the program.  The processor's state is
    a [core] of Asm, the kernel's a [kst]; the two are related by the segment
    table, the trap frame on the kernel stack, which is [p->tf], and the
    memory of the process. *)

From S2P Require Import Perl Gensyss Systable.
From S2P Require Import Prelude CString Kalloc Layout Mmu Ide Bio Fs Pipe File Spinlock Proc Syscall Sysproc Trap Asm.

(** The stub generated for system call [n], around its trap. *)
Definition stub (n : Z) : list instr := [Movl_imm n EAX].
Definition stub_ret : list instr := [Retl].

(** The memory of process [p] in the core and in the kernel's state. *)
Definition same_memory (K : kst) (p : proc) (s : core) : Prop :=
  forall x, p_mem p <= x < p_mem p + p_sz p -> ram s x = kmem K x.

(** The processor runs process [i], which is [p], in user mode. *)
Record in_user (ts : Z) (K : kst) (i : nat) (p : proc) (s : core) : Prop := {
  iu_cur : cur K = Some i;
  iu_proc : procs K !! i = Some p;
  iu_seg : running ts (Some p) s;
  iu_cs : sr s CS = 27;
  iu_ss : sr s SS = 35;
  iu_regs : ranged s;
  iu_mem : same_memory K p s }.

(** The processor is about to leave the kernel for process [i]. *)
Record in_kernel (ts : Z) (K : kst) (i : nat) (p : proc) (v : core) : Prop := {
  ik_proc : procs K !! i = Some p;
  ik_seg : running ts (Some p) v;
  ik_cs : sr v CS = 8;
  ik_ss : sr v SS = 16;
  ik_esp : gr v ESP = p_kstack p + KSTACKSIZE - 72;
  ik_frame : read_frame (ram v) (p_kstack p + KSTACKSIZE - 68) = p_tf p;
  ik_mem : same_memory K p v }.

(** The process has a page for its kernel stack, apart from its memory. *)
Definition has_stack (p : proc) : Prop :=
  0 <= p_kstack p < u32_mod - KSTACKSIZE /\
  (p_mem p + p_sz p <= p_kstack p \/ p_kstack p + KSTACKSIZE <= p_mem p).

(** The user stack segment begins at the memory of the process. *)
Lemma user_base ts p s : running ts (Some p) s -> sr s SS = 35 -> 0 <= p_mem p < u32_mod -> base s SS = p_mem p.
Proof.
  intros [Hc Hg] Hs Hm. unfold base. rewrite Hc, Hg, Hs. change (Z.to_nat (Z.shiftr 35 3)) with 4%nat.
  unfold gdt_of. cbn [app lookup list_lookup]. by apply seg_base_SEG.
Qed.

(** What trap makes of a system call whose routine returns. *)
Lemma trap_syscall_ret (syscalls : list (option (M kst Z))) dump c port f n (h : M kst Z) K i p r K2 p2 kb :
  cur K = Some i -> procs K !! i = Some p -> p_killed p = 0 -> trapno f = T_SYSCALL ->
  s32 (eax f) = n -> 0 <= n -> syscalls !! Z.to_nat n = Some (Some h) ->
  h (set_procs (<[i := set_p_tf f p]> (procs K)) K) = Ret r K2 ->
  cur K2 = Some i -> procs K2 !! i = Some p2 -> p_killed p2 = 0 ->
  trap syscalls dump c f port (Machine K kb) =
  Ret tt (Machine (set_procs (<[i := set_p_tf (set_eax (u32 r) (p_tf p2)) p2]> (procs K2)) K2) kb).
Proof.
  intros Hc Hp Hk Hn He H0 Hs Hh Hc2 Hp2 Hk2. unfold trap. rewrite Hn, Z.eqb_refl.
  apply (kern_ret _ (Machine K kb)). cbn [mk]. unfold trap_syscall.
  rewrite (bind_ret _ _ _ _ _ (cproc_ret K i p Hc Hp)). rewrite Hk. change (ctrue 0) with false. cbv iota.
  rewrite (bind_ret _ _ _ _ _ (updcp_ret (set_p_tf f) K i p Hc Hp)).
  set (K1 := set_procs _ K) in *.
  assert (Hp1 : procs K1 !! i = Some (set_p_tf f p)) by (apply list_lookup_insert_eq; by eapply lookup_lt_Some).
  set (p3 := set_p_tf (set_eax (u32 r) (p_tf p2)) p2). set (K3 := set_procs (<[i := p3]> (procs K2)) K2).
  assert (E : syscall syscalls K1 = Ret tt K3).
  { unfold syscall. rewrite (bind_ret _ _ _ _ _ (cproc_ret K1 i _ Hc Hp1)). cbv zeta. cbn [p_tf set_p_tf]. rewrite He.
    rewrite (proj2 (Z.leb_le 0 n) H0), Hs. rewrite (bind_ret _ _ _ _ _ Hh). by rewrite (updcp_ret _ K2 i p2). }
  rewrite (bind_ret _ _ _ _ _ E).
  assert (Hp3 : procs K3 !! i = Some p3) by (apply list_lookup_insert_eq; by eapply lookup_lt_Some).
  rewrite (bind_ret _ _ _ _ _ (cproc_ret K3 i _ Hc2 Hp3)). change (p_killed p3) with (p_killed p2). by rewrite Hk2.
Qed.

(** Back in the program, at the end of its stub: [f] is the frame but for %eax. *)
Lemma stub_returns ts K i p v s n r c o :
  in_kernel ts K i p v -> has_stack p -> p_tf p = set_eax r (frame_of s n c o) ->
  sr s CS = 27 -> sr s SS = 35 -> word (gr s ESP) -> 0 <= p_mem p -> p_mem p + p_sz p < u32_mod -> gr s ESP + 4 <= p_sz p ->
  let w := run stub_ret (run after_trap v) in
  pc w = load32 (kmem K) (p_mem p + gr s ESP) /\ gr w ESP = gr s ESP + 4 /\ gr w EAX = r /\
  (forall x, x <> EAX -> x <> ESP -> gr w x = gr s x) /\ (forall x, x <> FS -> x <> GS -> sr w x = sr s x) /\
  fl w = fl s /\ ram w = ram v /\ running ts (Some p) w.
Proof.
  intros [Hp Hg Hcs Hss He Hf Hm] [Hst _] Htf Uc Us Ue M0 M1 M2. rewrite Htf in Hf.
  assert (HK : 4096 <= p_kstack p + KSTACKSIZE < u32_mod) by (unfold KSTACKSIZE, PAGE in *; lia).
  destruct (user_exit ts (Some p) (p_kstack p + KSTACKSIZE - 68) _ v Hg Hss Hcs ltac:(lia) ltac:(lia) ltac:(lia) Hf) as (R & Re & Rs & Rm & Rg).
  { simpl. by rewrite Uc. }
  generalize dependent (run after_trap v). intros w R Re Rs Rm Rg.
  destruct R as (R1 & R2 & R3 & R4 & R5 & R6 & R7 & R8 & R9 & R10 & R11 & R12).
  cbn [eax ebx ecx edx esi edi ebp esp tf_es tf_ds tf_cs tf_ss tf_eflags eip set_eax frame_of] in R1, R2, R3, R4, R5, R6, R7, R8, R9, R10, R11, R12, Re, Rs. unfold word in Ue.
  assert (Hb : lin w SS (gr w ESP) = p_mem p + gr s ESP).
  { unfold lin. rewrite (user_base ts p w Rg), Re by (congruence || lia). apply u32_small. lia. }
  assert (Ht : top w = load32 (kmem K) (p_mem p + gr s ESP)).
  { unfold top. rewrite Hb, Rm. apply load32_ext. intros x Hx. apply Hm. lia. }
  cbv zeta. change (run stub_ret w) with (set_pc (top w) (drop4 w)). rewrite Ht. split_and!; try done.
  - change (gr (drop4 w) ESP = gr s ESP + 4). rewrite drop4_esp; rewrite Re; lia.
  - intros x Ha Hx. change (gr (drop4 w) x = gr s x). rewrite gr_drop4 by done. by destruct x.
  - intros x Hx Hx'. change (sr w x = sr s x). by destruct x; try congruence.
Qed.

(** An argument the program pushed, as argint reads it. *)
Lemma argint_user K i p f s k :
  cur K = Some i -> procs K !! i = Some p -> same_memory K p s -> esp f = gr s ESP -> word (gr s ESP) ->
  0 <= k < 16 -> gr s ESP + 8 + 4 * k <= p_sz p -> p_sz p < u32_mod ->
  let K1 := set_procs (<[i := set_p_tf f p]> (procs K)) K in
  argint k K1 = Ret (Some (s32 (load32 (ram s) (p_mem p + gr s ESP + 4 + 4 * k)))) K1.
Proof.
  intros Hc Hp Hm He Hw Hk Hz Hz' K1. unfold word in Hw.
  assert (Hp1 : procs K1 !! i = Some (set_p_tf f p)) by (apply list_lookup_insert_eq; by eapply lookup_lt_Some).
  unfold argint. rewrite (bind_ret _ _ _ _ _ (cproc_ret K1 i _ Hc Hp1)).
  rewrite (bind_ret _ _ _ _ _ (eq_refl : get K1 = Ret K1 K1)). unfold ret, fetchint. cbn [p_tf set_p_tf p_sz p_mem].
  rewrite He, (u32_small (gr s ESP + 4 + 4 * k)), (u32_small (gr s ESP + 4 + 4 * k + 4)) by lia.
  rewrite (proj2 (Z.leb_gt _ _)), (proj2 (Z.ltb_ge _ _)) by lia. cbn [orb]. change (kmem K1) with (kmem K). do 3 f_equal.
  rewrite (load32_ext (ram s)); [f_equal; lia|]. intros x Hx. symmetry. apply Hm. lia.
Qed.


(** getpid, with its number and the table made from user.h.in, called by
    process 1. *)
Definition demo_kst : kst :=
  Kst (FlSt (FsSt (Bst [] [] (Hist ∅ []) true [] None None 3 false [] Null Null (MemTrans [] true 0) 0) []) [] ∅ []) (fun _ => 0) [demo_proc]
      None 2 100 (Some 0%nat) 0 [] 0.
Definition demo_table : list (option (M kst Z)) := syscalls (fun _ => None) (fun _ => None) 4096 [] true 0.

Lemma demo_table_getpid : sys_number user_calls (txt "getpid") = Some 19 /\ demo_table !! 19%nat = Some (Some sys_getpid).
Proof. apply (syscalls_dispatch (fun _ => None) (fun _ => None) 4096 [] true 0 18 (own_call "int " "getpid") sys_getpid); reflexivity. Qed.

Definition demo_call : core := run (vector 1049000 48 ++ alltraps 1050000 1049100) (interrupt demo_gate None 204800 (set_pc 66 (run (stub 19) demo_core))).
Definition demo_return : core := set_ram (store32 (204732 + 28) 1 (ram demo_call)) (drop4 demo_call).

