(* ===== verification/Start.v ===== *)
(** * main.c: starting the processors

    [main] on the boot processor over the kernel's data, the interrupt
    hardware and the per-processor state, and [mpmain], where every processor
    ends up before it enters the scheduler.  The calls of main that only
    touch hardware and those that only touch the kernel's data are grouped
    ([main_devices] of Irq, [main_kernel] of Main). *)

From S2P Require Import Prelude CString Kalloc Layout Ide Bio Fs Pipe File Mmu Spinlock Proc Sched Trap Mp Irq ProcInv Main Asm.

(** The kernel, its devices, the interrupt table each processor has loaded,
    and [cpus[].booted]. *)
Record boot_st : Type := BootSt { bk : kst; bdev : dev; bidt : list (option (list gatedesc)); booted : list Z }.
Definition on_k {A} : M kst A -> M boot_st A := zoom bk (fun k s => BootSt k (bdev s) (bidt s) (booted s)).
Definition on_dev {A} : M dev A -> M boot_st A := zoom bdev (fun d s => BootSt (bk s) d (bidt s) (booted s)).

Section start.
(** The configuration mp_init has found, what the local APIC answers, the
    addresses of the task state and of the vectors. *)
Context (mp : mp_st) (lapic_ver : Z) (icr_polls : list Z) (ts : Z) (vectors : list Z).

(** On processor [c]. *)
Definition idtinit (c : Z) : M boot_st unit :=
  modify (fun s => BootSt (bk s) (bdev s) (<[Z.to_nat c := Some (tvinit vectors)]> (bidt s)) (booted s)).
Definition mpmain (c : Z) : M boot_st unit :=
  idtinit c ;;
  (if negb (c =? bcpu mp) then on_dev (lapic_init mp lapic_ver icr_polls) else ret tt) ;;
  on_k (setupsegs ts None) ;;
  modify (fun s => BootSt (bk s) (bdev s) (bidt s) (<[Z.to_nat c := 1]> (booted s))).

Definition on_pages {A} : M (freelist * dev) A -> M boot_st A :=
  zoom (fun s => (pages (k_fl (bk s)), bdev s))
       (fun t s => BootSt (set_k_fl (set_pages (fst t) (k_fl (bk s))) (bk s)) (snd t) (bidt s) (booted s)).

(** main; [lapic_id]: the identification register of the boot processor,
    [polls], [probe]: what the disk answers, [mpmain_]: the address of mpmain,
    [boots]: the processors that come up. *)
Definition kmain (lapic_id : Z) (polls probe : list Z) (end_ : Z) (initcode : list Z) (mpmain_ : Z) (boots : nat -> bool) : M boot_st unit :=
  on_dev (main_devices mp lapic_ver icr_polls polls probe) ;;
  on_k (main_kernel end_ initcode) ;;
  on_pages (bootothers mp lapic_id mpmain_ boots) ;;
  mpmain (cpu mp lapic_id).
End start.

(** ** The other processors *)

(** What bootothers and lapic_startap store for one of them. *)
Definition ap_pokes (mpmain_ stack : Z) : list (Z * Z) :=
  [(28672 - 4, u32 (stack + PAGE)); (28672 - 8, mpmain_); (1127, 0); (1129, 1792)].

(** The stacks, from the end of the free run of [n] pages at [a]. *)
Fixpoint ap_stacks (a n : Z) (k : nat) : list Z :=
  match k with O => [] | S k => (a + (n - 1) * PAGE) :: ap_stacks a (n - 1) k end.

Lemma ap_stacks_in a n k x :
  x ∈ ap_stacks a n k -> exists j, n - Z.of_nat k <= j < n /\ x = a + j * PAGE.
Proof.
  revert n. induction k as [|k IH]; intros n; cbn [ap_stacks]; [by intros ?%not_elem_of_nil|].
  intros [->|H]%elem_of_cons; [exists (n - 1); lia|]. destruct (IH _ H) as (j & Hj & ->). exists j. lia.
Qed.

Lemma ap_stacks_NoDup a n k : NoDup (ap_stacks a n k).
Proof.
  revert n. induction k as [|k IH]; intros n; cbn [ap_stacks]; [apply NoDup_nil_2|]. apply NoDup_cons. split; [|apply IH].
  intros (j & Hj & E)%ap_stacks_in. unfold PAGE in E. lia.
Qed.

Lemma length_ap_stacks a n k : length (ap_stacks a n k) = k.
Proof. revert n. induction k as [|k IH]; intros n; simpl; [done|]. by rewrite IH. Qed.

Section others.
Context (mp : mp_st) (n0 : Z) (en : list Z) (f : Z -> option Z).

(** The 8259s and the I/O APIC. *)
Definition controllers (d : dev) : Prop := pic_ok en d /\ (table_ok n0 f d \/ ismp mp = false).

Lemma controllers_same d d' : pic_same d d' -> io_regs d' = io_regs d -> controllers d -> controllers d'.
Proof.
  intros Hp Hi [H1 H2]. split; [by eapply pic_ok_same|]. destruct H2 as [H2|]; [left|by right]. intros i Hr. rewrite Hi. by apply H2.
Qed.

Lemma controllers_outb port v d :
  controllers d -> port <> IO_PIC1 + 1 -> port <> IO_PIC2 + 1 -> wp (outb port v) d (fun _ d' => controllers d' /\ pokes d' = pokes d).
Proof.
  intros [H1 H2] P1 P2. pose proof (pic_ok_outb en port v d H1 P1 P2) as H. unfold wp, outb, modify in *. destruct H as [H _]. by split.
Qed.

Lemma lapic_startap_spec apicid d :
  controllers d ->
  wp (lapic_startap apicid 28672) d (fun _ d' => controllers d' /\ pokes d' = pokes d ++ [(1127, 0); (1129, 1792)]).
Proof.
  intros H0. unfold lapic_startap. apply wp_bind. eapply wp_mono; [by apply (controllers_outb 112 15)|]. intros [] d1 [H1 E1].
  apply wp_bind. eapply wp_mono; [by apply (controllers_outb 113 10)|]. intros [] d2 [H2 E2].
  unfold lapicw. cbn [mfor]. wp_steps. split; [by apply (controllers_same d2)|]. cbn. by rewrite E2, E1.
Qed.

(** The loop over the processors [l]; [c] is the one that runs it. *)
Lemma bootothers_loop lapic_id mpmain_ boots a n l d :
  (forall i, boots i = true) -> controllers d ->
  let c := cpu mp lapic_id in let k := length (List.filter (fun i => negb (Z.of_nat i =? c)) l) in
  Z.of_nat k < n ->
  wp (mfor l (fun i =>
    if Z.of_nat i =? c then ret tt
    else
      let! stack := zoom fst (fun l s => (l, snd s)) (kalloc Irq.KSTACKSIZE) in
      zoom snd (fun d s => (fst s, d))
        (modify (fun d => set_pokes (pokes d ++ [(28672 - 4, u32 (stack + Irq.KSTACKSIZE)); (28672 - 8, mpmain_)]) d) ;;
         lapic_startap (default 0 (cpus mp !! i)) 28672) ;;
      if boots i then ret tt else fun s => Spin s)) ([Run a (n * PAGE)], d)
  (fun _ s => fst s = [Run a ((n - Z.of_nat k) * PAGE)] /\ controllers (snd s) /\
     pokes (snd s) = pokes d ++ concat (ap_pokes mpmain_ <$> ap_stacks a n k)).
Proof.
  intros Hb Hd c. revert n d Hd. induction l as [|i l IH]; intros n d Hd k Hk; cbn [mfor].
  { wp_steps. cbn. split_and!; [do 2 f_equal; lia|done|by rewrite app_nil_r]. }
  subst k. cbn [List.filter] in *. destruct (Z.of_nat i =? c); cbn [negb] in *.
  { wp_steps. by apply IH. }
  cbn [length] in *. apply wp_bind. 
  assert (Ek : kalloc Irq.KSTACKSIZE [Run a (n * PAGE)] = Ret (a + (n - 1) * PAGE) [Run a ((n - 1) * PAGE)]).
  { unfold kalloc, Irq.KSTACKSIZE, PAGE. cbn [kalloc_loop len Kalloc.base]. change (ctrue (Z.rem 4096 4096) || (4096 <=? 0)) with false. cbv iota.
    destruct (Z.eqb_spec (n * 4096) 4096); [lia|]. destruct (Z.ltb_spec 4096 (n * 4096)); [|lia].
    f_equal; [lia|]. do 2 f_equal. lia. }
  apply wp_bind, wp_zoom. unfold wp at 1. cbn [fst]. rewrite Ek. cbn [snd].
  apply wp_bind, wp_zoom. cbn [snd fst]. wp_steps.
  eapply wp_mono; [apply lapic_startap_spec; by apply (controllers_same d)|]. intros [] d1 [H1 E1]. rewrite Hb. wp_steps.
  eapply wp_mono; [apply (IH (n - 1) d1 H1); lia|]. intros [] s (P1 & P2 & P3). split_and!; [rewrite P1; do 2 f_equal; lia|done|].
  rewrite P3, E1. cbn [set_pokes pokes ap_stacks fmap list_fmap concat]. by rewrite <-!app_assoc.
Qed.
End others.


