(* ===== verification/Boot.v ===== *)
(** * bootmain.c, sign.pl: the boot loader

    It loads the segments of the kernel, an ELF file that starts at sector 1
    of disk 0, into memory and gives control to its entry point.  The
    controller is that of Ide: the registers written select the sector that
    port 0x1f0 then delivers. *)

From S2P Require Import Prelude CString Layout Ide Proc Exec.

Definition SECTSIZE : Z := 512.
Definition ELF_SCRATCH : Z := 65536.

Section boot.
(** The disk, and whether it gets ready. *)
Context (disk : image) (disk_ready : bool).

Definition waitdisk : M mem unit := if disk_ready then ret tt else fun m => Spin m.

(** The registers written for sector [offset]. *)
Definition boot_request (offset : Z) : request :=
  {| r_count := 1;
     r_lba0 := u8 offset;
     r_lba1 := u8 (Z.shiftr offset 8);
     r_lba2 := u8 (Z.shiftr offset 16);
     r_head := u8 (Z.lor (Z.shiftr offset 24) 224);
     r_cmd := IDE_CMD_READ;
     r_data := [] |}.

Definition readsect (dst offset : Z) : M mem unit :=
  waitdisk ;;
  let r := boot_request offset in
  waitdisk ;;
  modify (store_bytes dst (take 512 (snd (ctl_complete disk r)))).

Fixpoint readseg_loop (fuel : nat) (va eva offset : Z) : M mem unit :=
  if va <? eva then
    match fuel with
    | O => fun m => Spin m
    | S fuel => readsect va offset ;; readseg_loop fuel (u32 (va + SECTSIZE)) eva (u32 (offset + 1))
    end
  else ret tt.

Definition readseg (va count offset : Z) : M mem unit :=
  let eva := u32 (va + count) in
  let va := Z.land va (Z.lnot (SECTSIZE - 1)) in
  readseg_loop (Z.to_nat (count / SECTSIZE + 2)) va eva (offset / SECTSIZE + 1).

(** The fields of the headers in memory. *)
Definition m_elf (m : mem) (a : Z) : elfhdr :=
  Elfhdr (load32 m a) (load32 m (a + 24)) (load32 m (a + 28)) (m (a + 44) + 256 * m (a + 45)).
Definition m_ph (m : mem) (a : Z) : proghdr :=
  Proghdr (load32 m a) (load32 m (a + 4)) (load32 m (a + 8)) (load32 m (a + 16)) (load32 m (a + 20)).

Fixpoint load_segments (n : nat) (ph : Z) : M mem unit :=
  match n with
  | O => ret tt
  | S n =>
      let! p := gets (fun m => m_ph m ph) in
      readseg (Z.land (ph_va p) 16777215) (ph_memsz p) (ph_offset p) ;;
      load_segments n (ph + PROGHDR_SIZE)
  end.

(** The entry point control goes to; without an ELF header it tells the
    emulator and stops. *)
Definition bootmain : M mem Z :=
  let elf := ELF_SCRATCH in
  readseg elf (SECTSIZE * 8) 0 ;;
  let! h := gets (fun m => m_elf m elf) in
  if negb (elf_magic h =? ELF_MAGIC) then fun m => Spin m
  else
    load_segments (Z.to_nat (elf_phnum h)) (u32 (elf + elf_phoff h)) ;;
    let! h := gets (fun m => m_elf m elf) in
    ret (Z.land (elf_entry h) 16777215).
End boot.

(** ** One sector *)

Lemma boot_request_sector offset :
  0 <= offset < 2 ^ 28 -> r_lba (boot_request offset) = offset /\ r_drive (boot_request offset) = 0.
Proof.
  intros H. unfold r_lba, r_drive. cbn [r_lba0 r_lba1 r_lba2 r_head boot_request].
  set (h := Z.shiftr offset 24). assert (Hh : 0 <= h < 16).
  { unfold h. rewrite Z.shiftr_div_pow2 by lia. change (2 ^ 24) with 16777216. change (2 ^ 28) with 268435456 in H. Z.div_mod_to_equations. lia. }
  assert (Eh : In h (map Z.of_nat (seq 0 16))) by (apply in_map_iff; exists (Z.to_nat h); rewrite in_seq; lia).
  assert (E : Z.land (u8 (Z.lor h 224)) 15 = h /\ Z.land (Z.shiftr (u8 (Z.lor h 224)) 4) 1 = 0).
  { clear -Eh. simpl in Eh. repeat destruct Eh as [<-|Eh]; done. }
  destruct E as [-> ->]. split; [|done]. unfold u8, h. rewrite !Z.shiftr_div_pow2, !Z.shiftl_mul_pow2 by lia.
  change (2 ^ 8) with 256. change (2 ^ 16) with 65536. change (2 ^ 24) with 16777216. change (2 ^ 28) with 268435456 in H.
  Z.div_mod_to_equations. lia.
Qed.

(** ** Segments *)

(** The sectors from the one that holds [va] to the one before [eva]. *)
Definition sectors (va eva : Z) : Z := Z.max 0 ((eva - va + 511) / 512).
Definition down (va : Z) : Z := va - va mod 512.

Lemma down_land va : Z.land va (Z.lnot (SECTSIZE - 1)) = down va.
Proof.
  unfold down, SECTSIZE. change (512 - 1) with (Z.ones 9). rewrite <-Z.ldiff_land, Z.ldiff_ones_r by lia.
  rewrite Z.shiftr_div_pow2, Z.shiftl_mul_pow2 by lia. change (2 ^ 9) with 512. Z.div_mod_to_equations. lia.
Qed.

Section kernel.
Context (disk : image).
Hypothesis sectors_ok : forall sec, is_block (dread disk 0 sec).

Lemma sectors_full sec : length (dread disk 0 sec) = 512%nat.
Proof. apply sectors_ok. Qed.

(** Byte [k] of the kernel file. *)
Definition kbyte (k : Z) : Z := default 0 (dread disk 0 (k / 512 + 1) !! Z.to_nat (k mod 512)).

Lemma readsect_spec dst sec m :
  0 < sec < 2 ^ 28 ->
  wp (readsect disk true dst sec) m (fun _ m' => forall x,
    m' x = if (dst <=? x) && (x <? dst + 512) then kbyte (512 * (sec - 1) + (x - dst)) else m x).
Proof.
  intros Hs. unfold readsect, waitdisk. wp_steps. intros x. destruct (boot_request_sector sec) as [E1 E2]; [lia|].
  unfold ctl_complete. cbn [r_cmd boot_request]. change (IDE_CMD_READ =? IDE_CMD_WRITE) with false. cbn [snd]. rewrite E1, E2.
  rewrite store_bytes_spec, length_take, sectors_full. change (Z.of_nat (512 `min` 512)) with 512.
  destruct ((dst <=? x) && (x <? dst + 512)) eqn:E; [|done]. apply andb_true_iff in E as [E3%Z.leb_le E4%Z.ltb_lt].
  unfold kbyte. replace ((512 * (sec - 1) + (x - dst)) / 512 + 1) with sec by (Z.div_mod_to_equations; lia).
  replace ((512 * (sec - 1) + (x - dst)) mod 512) with (x - dst) by (Z.div_mod_to_equations; lia).
  rewrite nth_lookup, take_ge by (rewrite sectors_full; lia). done.
Qed.

Lemma readseg_loop_spec eva n : forall fuel va sec m,
  Z.of_nat n = sectors va eva -> (n <= fuel)%nat -> va + 512 * Z.of_nat n < u32_mod -> 0 <= va ->
  0 < sec -> sec + Z.of_nat n < 2 ^ 28 ->
  wp (readseg_loop disk true fuel va eva sec) m (fun _ m' => forall x,
    m' x = if (va <=? x) && (x <? va + 512 * Z.of_nat n) then kbyte (512 * (sec - 1) + (x - va)) else m x).
Proof.
  induction n as [|n IH]; intros fuel va sec m Hn Hf Hw Hv Hs Hs'; unfold sectors in Hn.
  - destruct fuel; cbn [readseg_loop]; (destruct (Z.ltb_spec va eva); [exfalso; Z.div_mod_to_equations; lia|]); wp_steps; intros x;
      (destruct (Z.leb_spec va x), (Z.ltb_spec x (va + 512 * Z.of_nat 0)); simpl; try done; lia).
  - destruct fuel as [|fuel]; [lia|]. cbn [readseg_loop]. destruct (Z.ltb_spec va eva); [|exfalso; Z.div_mod_to_equations; lia].
    apply wp_bind. eapply wp_mono; [apply readsect_spec; lia|]. intros [] m1 H1. change (2 ^ 28) with 268435456 in *.
    unfold u32_mod, SECTSIZE in *. rewrite !u32_small by (unfold u32_mod; lia).
    eapply wp_mono; [apply IH; try lia|].
    + unfold sectors. Z.div_mod_to_equations. lia.
    + intros [] m2 H2 x. rewrite H2, H1. replace (512 * (sec + 1 - 1) + (x - (va + 512))) with (512 * (sec - 1) + (x - va)) by lia.
      destruct (Z.leb_spec (va + 512) x), (Z.ltb_spec x (va + 512 + 512 * Z.of_nat n)), (Z.leb_spec va x), (Z.ltb_spec x (va + 512)),
        (Z.ltb_spec x (va + 512 * Z.of_nat (S n))); simpl; try done; lia.
Qed.

(** The end of what readseg writes. *)
Definition seg_end (va count : Z) : Z := down va + 512 * sectors (down va) (va + count).

Lemma readseg_spec va count offset m :
  0 <= va -> 0 <= count -> 0 <= offset -> va mod 512 = offset mod 512 ->
  va + count + 512 <= u32_mod -> offset + count < 2 ^ 36 ->
  wp (readseg disk true va count offset) m (fun _ m' => forall x,
    m' x = if (down va <=? x) && (x <? seg_end va count) then kbyte (offset + (x - va)) else m x).
Proof.
  intros Hv Hc Ho Hal Hw Hbig. unfold readseg. rewrite down_land. change SECTSIZE with 512. unfold u32_mod in *.
  pose proof (Z.mod_pos_bound va 512). change (2 ^ 36) with 68719476736 in *.
  rewrite (u32_small (va + count)) by (unfold u32_mod; lia).
  assert (Hn : 0 <= sectors (down va) (va + count) <= count / 512 + 2) by (unfold sectors, down; Z.div_mod_to_equations; lia).
  eapply wp_mono; [apply (readseg_loop_spec _ (Z.to_nat (sectors (down va) (va + count))))|].
  - lia.
  - lia.
  - unfold u32_mod. rewrite Z2Nat.id by lia. unfold sectors, down in *. Z.div_mod_to_equations. lia.
  - unfold down. Z.div_mod_to_equations. lia.
  - Z.div_mod_to_equations. lia.
  - change (2 ^ 28) with 268435456. rewrite Z2Nat.id by lia. unfold sectors, down in *. Z.div_mod_to_equations. lia.
  - intros [] m' H' x. rewrite H', Z2Nat.id by lia. unfold seg_end. destruct (_ && _); [|done]. f_equal. unfold down. Z.div_mod_to_equations. lia.
Qed.

(** ** The headers *)

Lemma kbyte_range k : is_byte (kbyte k).
Proof.
  unfold kbyte. destruct (dread disk 0 (k / 512 + 1) !! Z.to_nat (k mod 512)) eqn:E; simpl; [|unfold is_byte; lia].
  destruct (sectors_ok (k / 512 + 1)) as [_ H]. by eapply Forall_lookup_1.
Qed.

Lemma load32_range a : 0 <= load32 kbyte a < u32_mod.
Proof. apply (le_val_range [_; _; _; _]). repeat (apply Forall_cons; split; [apply kbyte_range|]). by apply Forall_nil. Qed.

(** The first page of the file is in the scratch area. *)
Definition scratch_ok (m : mem) : Prop := forall a, 0 <= a < 4096 -> m (ELF_SCRATCH + a) = kbyte a.

Lemma scratch_load m a : scratch_ok m -> 0 <= a -> a + 4 <= 4096 -> load32 m (ELF_SCRATCH + a) = load32 kbyte a.
Proof.
  intros H Ha Hb. unfold load32. rewrite <-!Z.add_assoc, !H by lia. done.
Qed.

Lemma scratch_elf m : scratch_ok m -> m_elf m ELF_SCRATCH = m_elf kbyte 0.
Proof.
  intros H. unfold m_elf. rewrite !Z.add_0_l. rewrite <-(Z.add_0_r ELF_SCRATCH) at 1.
  rewrite !scratch_load by (done || lia). by rewrite !H by lia.
Qed.

Lemma scratch_ph m a : scratch_ok m -> 0 <= a -> a + 32 <= 4096 -> m_ph m (ELF_SCRATCH + a) = m_ph kbyte a.
Proof. intros H Ha Hb. unfold m_ph. rewrite <-!Z.add_assoc. by rewrite !scratch_load by (done || lia). Qed.

(** Program header [i] of the kernel, where it is loaded, and what a correct
    kernel file satisfies: the segments are aligned with the file, fit the
    address space, keep out of the scratch area, and where the sectors of one
    reach into another the two come from the same place in the file. *)
Definition hdr : elfhdr := m_elf kbyte 0.
Definition ph (i : nat) : proghdr := m_ph kbyte (elf_phoff hdr + 32 * Z.of_nat i).
Definition seg_va (p : proghdr) : Z := Z.land (ph_va p) 16777215.
Definition seg_ok (p : proghdr) : Prop :=
  seg_va p mod 512 = ph_offset p mod 512 /\ seg_va p + ph_memsz p + 512 <= u32_mod /\
  (seg_end (seg_va p) (ph_memsz p) <= ELF_SCRATCH \/ ELF_SCRATCH + 4096 <= down (seg_va p)).
Definition compatible (p q : proghdr) : Prop :=
  seg_va p + ph_memsz p <= down (seg_va q) \/ seg_end (seg_va q) (ph_memsz q) <= seg_va p \/
  seg_va p - ph_offset p = seg_va q - ph_offset q.

Record kernel_file : Prop := {
  kf_magic : elf_magic hdr = ELF_MAGIC;
  kf_headers : elf_phoff hdr + 32 * elf_phnum hdr <= 4096;
  kf_seg i : Z.of_nat i < elf_phnum hdr -> seg_ok (ph i);
  kf_pair i j : (i < j)%nat -> Z.of_nat j < elf_phnum hdr -> compatible (ph i) (ph j) }.

Definition seg_loaded (p : proghdr) (m : mem) : Prop :=
  forall x, seg_va p <= x < seg_va p + ph_memsz p -> m x = kbyte (ph_offset p + (x - seg_va p)).

Lemma seg_va_range p : 0 <= seg_va p < 16777216.
Proof. unfold seg_va. change 16777215 with (Z.ones 24). rewrite Z.land_ones by lia. apply Z.mod_pos_bound. lia. Qed.

(** Loading one segment. *)
Lemma load_one m i :
  seg_ok (ph i) -> scratch_ok m ->
  wp (readseg disk true (seg_va (ph i)) (ph_memsz (ph i)) (ph_offset (ph i))) m (fun _ m' =>
    scratch_ok m' /\ seg_loaded (ph i) m' /\
    forall p, 0 <= ph_memsz p -> compatible p (ph i) -> seg_loaded p m -> seg_loaded p m').
Proof.
  intros (Hal & Hfit & Hscr) Hm. pose proof (seg_va_range (ph i)) as Hva.
  assert (Hof : 0 <= ph_offset (ph i) < u32_mod) by apply load32_range.
  assert (Hsz : 0 <= ph_memsz (ph i) < u32_mod) by apply load32_range. unfold u32_mod in *.
  eapply wp_mono; [apply readseg_spec; try lia; change (2 ^ 36) with 68719476736; unfold u32_mod; lia|].
  intros [] m' H'. assert (Hend : down (seg_va (ph i)) <= seg_va (ph i) /\ seg_va (ph i) + ph_memsz (ph i) <= seg_end (seg_va (ph i)) (ph_memsz (ph i))).
  { unfold seg_end, sectors, down. Z.div_mod_to_equations. lia. }
  split_and!.
  - intros a Ha. rewrite H'. destruct (Z.leb_spec (down (seg_va (ph i))) (ELF_SCRATCH + a)); [|by apply Hm].
    destruct (Z.ltb_spec (ELF_SCRATCH + a) (seg_end (seg_va (ph i)) (ph_memsz (ph i)))); simpl; [lia|by apply Hm].
  - intros x Hx. rewrite H'. destruct (Z.leb_spec (down (seg_va (ph i))) x); [|lia].
    by destruct (Z.ltb_spec x (seg_end (seg_va (ph i)) (ph_memsz (ph i)))); [|lia].
  - intros p Hp Hc Hl x Hx. rewrite H'. destruct (Z.leb_spec (down (seg_va (ph i))) x), (Z.ltb_spec x (seg_end (seg_va (ph i)) (ph_memsz (ph i))));
      cbn [andb]; try (by apply Hl). destruct Hc as [Hc|[Hc|Hc]]; [lia|lia|]. apply (f_equal kbyte). lia.
Qed.

Lemma load_segments_spec (K : kernel_file) n : forall i m,
  Z.of_nat (i + n) = elf_phnum hdr -> scratch_ok m -> (forall j, (j < i)%nat -> seg_loaded (ph j) m) ->
  wp (load_segments disk true n (ELF_SCRATCH + (elf_phoff hdr + 32 * Z.of_nat i))) m (fun _ m' =>
    scratch_ok m' /\ forall j, (j < i + n)%nat -> seg_loaded (ph j) m').
Proof.
  induction n as [|n IH]; intros i m Hn Hm Hl; cbn [load_segments].
  - wp_steps. rewrite Nat.add_0_r. done.
  - pose proof (kf_headers K). assert (Hoff : 0 <= elf_phoff hdr < u32_mod) by apply load32_range.
    wp_steps. rewrite scratch_ph by (done || lia). fold (ph i). fold (seg_va (ph i)).
    eapply wp_mono; [apply (load_one m i); [apply (kf_seg K); lia|done]|]. intros [] m1 (S1 & L1 & K1).
    change PROGHDR_SIZE with 32.
    replace (ELF_SCRATCH + (elf_phoff hdr + 32 * Z.of_nat i) + 32) with (ELF_SCRATCH + (elf_phoff hdr + 32 * Z.of_nat (S i))) by lia.
    eapply wp_mono; [apply IH; [lia|done|]|].
    + intros j Hj. destruct (decide (j = i)) as [->|]; [done|]. apply K1; [apply load32_range|apply (kf_pair K); lia|apply Hl; lia].
    + intros [] m2 (S2 & L2). split; [done|]. intros j Hj. apply L2. lia.
Qed.
End kernel.

(** C34: the boot loader loads the kernel.  From a disk that is ready and holds
    a kernel file whose program headers are in its first page and whose
    segments are aligned with the file and compatible with each other,
    bootmain terminates, gives control to the entry point of the file, and has
    put every byte of every segment where its program header says, although
    each segment is read in whole sectors that may reach into its neighbours. *)
Theorem bootmain_loads (disk : image) (m : mem) :
  (forall sec, is_block (dread disk 0 sec)) -> kernel_file disk ->
  wp (bootmain disk true) m (fun entry m' =>
    entry = Z.land (elf_entry (hdr disk)) 16777215 /\
    forall i, Z.of_nat i < elf_phnum (hdr disk) -> seg_loaded disk (ph disk i) m').
Proof.
  intros Hd K. pose proof (kf_headers disk K) as Hh.
  assert (Hoff : 0 <= elf_phoff (hdr disk) < u32_mod) by (by apply load32_range).
  assert (Hnum : 0 <= elf_phnum (hdr disk)).
  { cbn [hdr m_elf elf_phnum]. change (0 + 44) with 44. change (0 + 45) with 45. pose proof (kbyte_range disk Hd 44). pose proof (kbyte_range disk Hd 45). unfold is_byte in *. lia. }
  unfold bootmain. apply wp_bind.
  eapply wp_mono; [apply readseg_spec; first [exact Hd | vm_compute; (discriminate || reflexivity)]|]. intros [] m1 H1.
  assert (S1 : scratch_ok disk m1).
  { intros a Ha. rewrite H1. change (down ELF_SCRATCH) with ELF_SCRATCH. change (seg_end ELF_SCRATCH (SECTSIZE * 8)) with (ELF_SCRATCH + 4096).
    destruct (Z.leb_spec ELF_SCRATCH (ELF_SCRATCH + a)); [|lia]. destruct (Z.ltb_spec (ELF_SCRATCH + a) (ELF_SCRATCH + 4096)); [|lia].
    cbn [andb]. apply (f_equal (kbyte disk)). lia. }
  wp_steps. rewrite (scratch_elf disk m1 S1). fold (hdr disk). rewrite (kf_magic disk K), Z.eqb_refl. cbn [negb]. wp_steps.
  unfold u32_mod in *. rewrite u32_small by (unfold u32_mod, ELF_SCRATCH; lia).
  pose proof (load_segments_spec disk Hd K (Z.to_nat (elf_phnum (hdr disk))) 0 m1) as H.
  rewrite Z.mul_0_r, Z.add_0_r in H. eapply wp_mono; [apply H; [lia|done|intros j Hj; lia]|]. intros [] m2 (S2 & L2). wp_steps.
  rewrite (scratch_elf disk m2 S2). split; [done|]. intros i Hi. apply L2. lia.
Qed.

(** ** sign.pl *)

(** The boot block made of the linked loader: at most 510 bytes, filled with
    zeros, and the signature the BIOS looks for.  A larger file is left as it
    is. *)
Definition sign (file : list Z) : option (list Z) :=
  let buf := take 1000 file in
  let n := length buf in
  if (510 <? n)%nat then None else Some (buf ++ replicate (510 - n) 0 ++ [85; 170]).

Lemma sign_block file :
  match sign file with
  | Some b => (length file <= 510)%nat /\ length b = 512%nat /\ take (length file) b = file /\ b !! 510%nat = Some 85 /\ b !! 511%nat = Some 170
  | None => (510 < length file)%nat
  end.
Proof.
  unfold sign. destruct (Nat.ltb_spec 510 (length (take 1000 file))) as [H|H]; rewrite length_take in H; [lia|]. rewrite take_ge by lia.
  assert (Hl : length (file ++ replicate (510 - length file) 0) = 510%nat) by (rewrite length_app, length_replicate; lia).
  split_and!; [lia|rewrite !length_app, length_replicate; simpl; lia|by rewrite take_app_length|..]; by rewrite app_assoc, lookup_app_r, Hl by (rewrite Hl; lia).
Qed.

(** A kernel of one segment of four bytes, at 1 MB. *)
Definition demo_header : block :=
  put_u32 72 4 (put_u32 68 4 (put_u32 60 1048576 (put_u32 56 512 (put_u32 52 1
    (put_u32 44 1 (put_u32 28 52 (put_u32 24 1048576 (put_u32 0 ELF_MAGIC zero_block)))))))).
Definition demo_code : block := put_u32 0 67305985 zero_block.
Definition demo_disk : image := {[(0, 1) := demo_header; (0, 2) := demo_code]}.

Lemma demo_sectors sec : is_block (dread demo_disk 0 sec).
Proof.
  assert (H1 : is_block demo_header) by (unfold demo_header; repeat (apply put_u32_block; [lia|]); apply zero_block_ok).
  assert (H2 : is_block demo_code) by (apply put_u32_block; [lia|apply zero_block_ok]).
  change (is_block (default zero_block (({[(0, 1) := demo_header; (0, 2) := demo_code]} : gmap (Z * Z) block) !! (0, sec)))).
  destruct (decide (sec = 1)) as [->|]; [by rewrite lookup_insert_eq|]. rewrite lookup_insert_ne by congruence.
  destruct (decide (sec = 2)) as [->|]; [by rewrite lookup_singleton_eq|]. rewrite lookup_singleton_ne by congruence. apply zero_block_ok.
Qed.

Lemma bootmain_loads_witness :
  wp (bootmain demo_disk true) (fun _ => 0) (fun entry m' => entry = 1048576 /\ m' 1048577 = 2 /\ m' 1048579 = 4).
Proof.
  assert (K : kernel_file demo_disk).
  { split.
    - vm_compute. reflexivity.
    - vm_compute. discriminate.
    - intros i Hi. change (elf_phnum (hdr demo_disk)) with 1 in Hi. assert (i = 0%nat) as -> by lia.
      split; [vm_compute; reflexivity|]. split; [vm_compute; discriminate|]. right. vm_compute. discriminate.
    - intros i j Hij Hj. change (elf_phnum (hdr demo_disk)) with 1 in Hj. lia. }
  eapply wp_mono; [apply (bootmain_loads demo_disk (fun _ => 0) demo_sectors K)|].
  intros entry m' [-> H]. split; [vm_compute; reflexivity|].
  assert (H0 : seg_loaded demo_disk (ph demo_disk 0) m') by (apply H; vm_compute; reflexivity).
  split; (rewrite H0; [vm_compute; reflexivity|vm_compute; split; [discriminate|reflexivity]]).
Defined.
