(* ===== verification/Grep.v ===== *)
(** * grep.c: the pattern matcher

    Patterns and lines are C strings, given by their bytes before the NUL.
    The matcher of Kernighan and Pike agrees with the language a pattern
    denotes. *)

From S2P Require Import Prelude.

Definition ch_star : Z := 42.       (* * *)
Definition ch_dollar : Z := 36.     (* $ *)
Definition ch_dot : Z := 46.        (* . *)
Definition ch_caret : Z := 94.      (* ^ *)

(** [here] is matchhere on the rest of the pattern. *)
Fixpoint matchstar (here : list Z -> bool) (c : Z) (text : list Z) : bool :=
  if here text then true
  else match text with
       | t :: text => if (t =? c) || (c =? ch_dot) then matchstar here c text else false
       | [] => false
       end.

Fixpoint matchhere (re text : list Z) : bool :=
  match re with
  | [] => true
  | c :: re1 =>
      let lit :=
        match text with
        | t :: text => if (c =? ch_dot) || (c =? t) then matchhere re1 text else false
        | [] => false
        end in
      match re1 with
      | [] => if c =? ch_dollar then match text with [] => true | _ => false end else lit
      | s :: re2 => if s =? ch_star then matchstar (matchhere re2) c text else lit
      end
  end.

(** The loop of match over the suffixes of the text, the empty one included. *)
Fixpoint match_any (re text : list Z) : bool :=
  if matchhere re text then true else match text with [] => false | _ :: text => match_any re text end.

Definition match_ (re text : list Z) : bool :=
  match re with
  | c :: re' => if c =? ch_caret then matchhere re' text else match_any re text
  | [] => match_any re text
  end.

(** ** The line loop

    [buf] is the static buffer and [m] the count of bytes kept in it.  [read]
    delivers its bytes in chunks, at most as many as asked for. *)

Definition BUFSIZE : Z := 1024.
Definition ch_nl : Z := 10.

(** [strchr(p, '\n')]: the distance to the newline, if one comes before a NUL. *)
Fixpoint find_nl (l : list Z) : option nat :=
  match l with
  | [] => None
  | c :: l => if c =? 0 then None else if c =? ch_nl then Some O else S <$> find_nl l
  end.

(** The inner loop from [p]: the lines written, the buffer, and [p].  A line
    that does not match keeps the NUL put in place of its newline. *)
Fixpoint scan_lines (fuel : nat) (re : list Z) (buf : list Z) (p : nat) : list Z * list Z * nat :=
  match fuel, find_nl (drop p buf) with
  | S fuel, Some k =>
      let line := take k (drop p buf) in
      let q := (p + k)%nat in
      if match_ re line then
        let '(out, buf, p) := scan_lines fuel re buf (S q) in (line ++ [ch_nl] ++ out, buf, p)
      else scan_lines fuel re (<[q := 0]> buf) (S q)
  | _, _ => ([], buf, p)
  end.

(** One read of [chunk] and the pass over the buffer; [None] when the read
    stores outside the buffer. *)
Definition grep_step (re : list Z) (buf : list Z) (m : Z) (chunk : list Z) : option (list Z * list Z * Z) :=
  if m <? 0 then None
  else
    let mn := Z.to_nat m in
    let buf := take mn buf ++ chunk ++ drop (mn + length chunk) buf in
    let m := m + Z.of_nat (length chunk) in
    let '(out, buf, p) := scan_lines (length buf) re buf 0 in
    let m := if (p =? 0)%nat then 0 else m in
    if 0 <? m then
      let m := m - Z.of_nat p in
      Some (out, take (Z.to_nat m) (drop p buf) ++ drop (Z.to_nat m) buf, m)
    else Some (out, buf, m).

(** What is written, and the buffer, which outlives the call. *)
Fixpoint grep (re : list Z) (buf : list Z) (m : Z) (chunks : list (list Z)) : option (list Z * list Z) :=
  match chunks with
  | [] => Some ([], buf)
  | [] :: _ => Some ([], buf)
  | chunk :: chunks =>
      match grep_step re buf m chunk with
      | Some (out, buf, m) => (fun r => (out ++ fst r, snd r)) <$> grep re buf m chunks
      | None => None
      end
  end.

(** ** The language of a pattern *)

Inductive item : Type := One (c : Z) | Many (c : Z).

(** A pattern after its caret: its items, and whether it ends in a dollar. *)
Fixpoint parse (re : list Z) : list item * bool :=
  match re with
  | [] => ([], false)
  | c :: re1 =>
      match re1 with
      | [] => if c =? ch_dollar then ([], true) else ([One c], false)
      | s :: re2 => if s =? ch_star then let '(l, e) := parse re2 in (Many c :: l, e)
                    else let '(l, e) := parse re1 in (One c :: l, e)
      end
  end.

(** A dot stands for any character. *)
Definition fits (c t : Z) : Prop := c = ch_dot \/ c = t.

Fixpoint denotes (l : list item) (w : list Z) : Prop :=
  match l with
  | [] => w = []
  | One c :: l => exists t w', w = t :: w' /\ fits c t /\ denotes l w'
  | Many c :: l => exists u w', w = u ++ w' /\ Forall (fits c) u /\ denotes l w'
  end.

(** [re] matches a prefix of the text, all of it if it ends in a dollar. *)
Definition prefix_match (re text : list Z) : Prop :=
  exists w rest, text = w ++ rest /\ denotes (fst (parse re)) w /\ (snd (parse re) = true -> rest = []).

Lemma fits_bool c t : ((c =? ch_dot) || (c =? t)) = true <-> fits c t.
Proof. unfold fits. rewrite orb_true_iff, !Z.eqb_eq. done. Qed.

Lemma matchstar_iff here c text :
  matchstar here c text = true <->
  exists u rest, text = u ++ rest /\ Forall (fits c) u /\ here rest = true.
Proof.
  induction text as [|t text IH]; cbn [matchstar].
  - destruct (here []) eqn:E.
    + split; [|done]. intros _. by exists [], [].
    + split; [done|]. intros (u & rest & Hur & _ & Hh). symmetry in Hur. apply app_eq_nil in Hur as [-> ->]. congruence.
  - destruct (here (t :: text)) eqn:E.
    { split; [|done]. intros _. by exists [], (t :: text). }
    rewrite orb_comm, (Z.eqb_sym t c). destruct ((c =? ch_dot) || (c =? t)) eqn:Ef.
    + rewrite IH. apply fits_bool in Ef. split.
      * intros (u & rest & -> & Hu & Hh). exists (t :: u), rest. split; [done|]. split; [by constructor|done].
      * intros (u & rest & Hur & Hu & Hh). destruct u as [|x u]; simpl in Hur; [subst; congruence|].
        injection Hur as -> ->. inversion Hu; subst. eauto.
    + split; [done|]. intros (u & rest & Hur & Hu & Hh). destruct u as [|x u]; simpl in Hur; [subst; congruence|].
      injection Hur as -> ->. inversion Hu as [|? ? Hx]; subst. apply fits_bool in Hx. congruence.
Qed.

Lemma prefix_match_nil text : prefix_match [] text.
Proof. by exists [], text. Qed.

Lemma prefix_match_star c re text :
  prefix_match (c :: ch_star :: re) text <->
  exists u rest, text = u ++ rest /\ Forall (fits c) u /\ prefix_match re rest.
Proof.
  unfold prefix_match. cbn [parse]. rewrite Z.eqb_refl. destruct (parse re) as [l e]. simpl. split.
  - intros (w & rest & -> & (u & w' & -> & Hu & Hw) & He). exists u, (w' ++ rest).
    split; [by rewrite app_assoc|]. split; [done|]. by exists w', rest.
  - intros (u & rest0 & -> & Hu & w & rest & -> & Hw & He). exists (u ++ w), rest. split; [by rewrite app_assoc|]. eauto 7.
Qed.

(** A character that is neither starred nor a final dollar. *)
Lemma prefix_match_one c re1 text :
  parse (c :: re1) = (One c :: fst (parse re1), snd (parse re1)) ->
  prefix_match (c :: re1) text <-> exists t text', text = t :: text' /\ fits c t /\ prefix_match re1 text'.
Proof.
  intros Hp. unfold prefix_match. rewrite Hp. simpl. split.
  - intros (w & rest & -> & (t & w' & -> & Hf & Hw) & He). exists t, (w' ++ rest). eauto 7.
  - intros (t & text' & -> & Hf & w & rest & -> & Hw & He). exists (t :: w), rest. eauto 8.
Qed.

Lemma lit_iff c re1 text :
  (forall text, matchhere re1 text = true <-> prefix_match re1 text) ->
  match text with t :: text => if (c =? ch_dot) || (c =? t) then matchhere re1 text else false | [] => false end = true <->
  exists t text', text = t :: text' /\ fits c t /\ prefix_match re1 text'.
Proof.
  intros IH. destruct text as [|t text]; [split; [done|by intros (? & ? & ? & _)]|].
  destruct ((c =? ch_dot) || (c =? t)) eqn:E.
  - apply fits_bool in E. rewrite IH. split; [eauto 6|]. by intros (? & ? & [= <- <-] & _ & ?).
  - split; [done|]. intros (? & ? & [= <- <-] & Hf & _). apply fits_bool in Hf. congruence.
Qed.

Lemma matchhere_iff re text : matchhere re text = true <-> prefix_match re text.
Proof.
  remember (length re) as n eqn:Hn. assert (Hle : (length re <= n)%nat) by lia. clear Hn.
  revert re text Hle. induction n as [|n IH]; intros [|c re1] text Hle; simpl in Hle; try lia.
  1, 2: split; [intros _; apply prefix_match_nil|done].
  cbn [matchhere]. assert (IH1 : forall text, matchhere re1 text = true <-> prefix_match re1 text) by (intros; apply IH; lia).
  destruct re1 as [|s re2].
  - destruct (Z.eqb_spec c ch_dollar) as [->|Hne].
    + unfold prefix_match. simpl. split.
      * destruct text; [|done]. by exists [], [].
      * intros (w & rest & -> & -> & He). by rewrite He.
    + rewrite (lit_iff c [] text IH1). symmetry. apply prefix_match_one. simpl. by destruct (Z.eqb_spec c ch_dollar).
  - destruct (Z.eqb_spec s ch_star) as [->|Hne].
    + rewrite matchstar_iff, prefix_match_star. simpl in Hle.
      split; intros (u & rest & ? & ? & Hh); exists u, rest; (split; [done|]; split; [done|]); apply IH; try done; lia.
    + rewrite (lit_iff c (s :: re2) text IH1). symmetry. apply prefix_match_one.
      change (parse (c :: s :: re2)) with
        (if s =? ch_star then let '(l, e) := parse re2 in (Many c :: l, e) else let '(l, e) := parse (s :: re2) in (One c :: l, e)).
      rewrite (proj2 (Z.eqb_neq s ch_star) Hne). by destruct (parse (s :: re2)).
Qed.

Lemma match_any_iff re text : match_any re text = true <-> exists pre rest, text = pre ++ rest /\ prefix_match re rest.
Proof.
  induction text as [|t text IH]; cbn [match_any].
  - destruct (matchhere re []) eqn:E.
    + split; [|done]. intros _. exists [], []. split; [done|]. by apply matchhere_iff.
    + split; [done|]. intros (pre & rest & Hpr & Hm). symmetry in Hpr. apply app_eq_nil in Hpr as [-> ->].
      apply matchhere_iff in Hm. congruence.
  - destruct (matchhere re (t :: text)) eqn:E.
    { split; [|done]. intros _. exists [], (t :: text). split; [done|]. by apply matchhere_iff. }
    rewrite IH. split.
    + intros (pre & rest & -> & Hm). by exists (t :: pre), rest.
    + intros (pre & rest & Hpr & Hm). destruct pre as [|x pre]; simpl in Hpr.
      * subst. apply matchhere_iff in Hm. congruence.
      * injection Hpr as -> ->. eauto.
Qed.

(** C36: match decides the language of its pattern.  It answers 1 exactly when
    some part of the line is in the language of the pattern's items (a
    character stands for itself, a dot for any, a starred one for any number
    of repetitions), at the start of the line if the pattern begins with a
    caret, up to its end if it ends in a dollar. *)
Theorem match_correct (re text : list Z) :
  match_ re text = true <->
  exists caret body pre rest,
    re = (if caret : bool then [ch_caret] else []) ++ body /\ (caret = false -> head re <> Some ch_caret) /\
    text = pre ++ rest /\ (caret = true -> pre = []) /\ prefix_match body rest.
Proof.
  assert (Hany : head re <> Some ch_caret -> match_any re text = true <->
    exists caret body pre rest, re = (if caret : bool then [ch_caret] else []) ++ body /\
      (caret = false -> head re <> Some ch_caret) /\ text = pre ++ rest /\ (caret = true -> pre = []) /\ prefix_match body rest).
  { intros Hh. rewrite match_any_iff. split.
    - intros (pre & rest & -> & Hm). by exists false, re, pre, rest.
    - intros ([] & body & pre & rest & -> & _ & -> & _ & Hm); [done|]. eauto. }
  destruct re as [|c re']; [by apply Hany|]. unfold match_. destruct (Z.eqb_spec c ch_caret) as [->|Hne].
  - rewrite matchhere_iff. split.
    + intros Hm. by exists true, re', [], text.
    + intros ([] & body & pre & rest & Hre & Hc & -> & Hp & Hm); [|by destruct Hc].
      injection Hre as ->. by rewrite Hp in *.
  - apply Hany. simpl. congruence.
Qed.

Lemma match_correct_example :
  match_ [94; 97; 46; 42; 98; 36] [97; 120; 121; 98] = true /\ match_ [97; 42; 98] [120; 99] = false.
Proof. split; reflexivity. Qed.

(** ** What the line loop gets wrong

    The bytes after the ones just read are those of earlier reads, and a
    newline among them ends a line that has not been read completely; the
    count then goes negative and the next read stores before the buffer. *)
Lemma grep_stale_bytes :
  exists buf, grep_step [120] (replicate 1024 0) 0 [120; 10] = Some ([120; 10], buf, 0) /\
    grep_step [120] buf 0 [120] = Some ([120; 10], buf, -1) /\
    grep_step [120] buf (-1) [121] = None.
Proof. eexists. split; [vm_compute; reflexivity|]. split; vm_compute; reflexivity. Qed.

(** A chunk without a newline is dropped, so a line that arrives in two reads
    loses its beginning. *)
Lemma grep_drops_partial_line :
  fst <$> grep [97; 98] (replicate 1024 0) 0 [[97]; [98; 10]] = Some [] /\
  fst <$> grep [97; 98] (replicate 1024 0) 0 [[97; 98; 10]] = Some [97; 98; 10].
Proof. split; vm_compute; reflexivity. Qed.
