(* ===== verification/Ulib.v ===== *)
(** * ulib.c: copying and filling

    The routines of the user library that work on memory, against those of
    the kernel in string.c; and stat, as the three calls it makes. *)

From S2P Require Import Prelude CString.

(** One byte at a time, up to and including the NUL. *)
Fixpoint strcpy_loop (fuel : nat) (s t : Z) (m : mem) : option mem :=
  match fuel with
  | O => None
  | S fuel =>
      let c := m t in
      let m := upd m s c in
      if ctrue c then strcpy_loop fuel (s + 1) (t + 1) m else Some m
  end.
Definition strcpy (fuel : nat) (s t : Z) (m : mem) : option (Z * mem) := (fun m => (s, m)) <$> strcpy_loop fuel s t m.

(** [for(n = 0; s[n]; n++);] *)
Fixpoint ustrlen_loop (fuel : nat) (s : cptr) (n : Z) : option Z :=
  match fuel with
  | O => None
  | S fuel => if ctrue (s (Z.to_nat n)) then ustrlen_loop fuel s (n + 1) else Some n
  end.
Definition ustrlen (fuel : nat) (s : cptr) : option Z := ustrlen_loop fuel s 0.

(** [while(n-- > 0) *d++ = c;], with [n] unsigned. *)
Fixpoint umemset_loop (n : nat) (d c : Z) (m : mem) : mem :=
  match n with
  | O => m
  | S n => umemset_loop n (d + 1) c (upd m d (u8 c))
  end.
Definition umemset (dst c n : Z) (m : mem) : Z * mem := (dst, umemset_loop (Z.to_nat (u32 n)) dst c m).

(** [while(n-- > 0) *dst++ = *src++;], whatever the overlap. *)
Definition umemmove (vdst vsrc n : Z) (m : mem) : Z * mem := (vdst, copy_up (Z.to_nat n) vdst vsrc m).

(** stat: open, fstat and close, on what they answer. *)
Section stat.
Context {A : Type} (open : list Z -> Z) (fstat : Z -> Z * A).

Definition stat (n : list Z) (st : A) : Z * A * list Z :=
  let fd := open n in
  if fd <? 0 then (-1, st, [])
  else let '(r, st) := fstat fd in (r, st, [fd]).
End stat.

(** ** What they compute *)

(** A copy of a string to a region that does not overlap its end. *)
Lemma strcpy_loop_spec fuel s t m l :
  is_cstr (at_addr m t) l -> (length l < fuel)%nat -> s <= t \/ t + Z.of_nat (length l) < s ->
  exists m', strcpy_loop fuel s t m = Some m' /\ is_cstr (at_addr m' s) l /\
    forall x, x < s \/ s + Z.of_nat (length l) < x -> m' x = m x.
Proof.
  revert s t m l. induction fuel as [|fuel IH]; intros s t m l Hl Hf Hov; [lia|]. cbn [strcpy_loop].
  destruct l as [|b l].
  - apply is_cstr_addr_nil in Hl. rewrite Hl. cbn [ctrue]. exists (upd m s 0). split; [done|]. split.
    + apply is_cstr_addr_nil. apply upd_eq.
    + intros x Hx. apply upd_ne. simpl in Hx. lia.
  - apply is_cstr_addr_cons in Hl as (Hb & Hb0 & Hl). rewrite Hb. pose proof Hb0 as Ht. apply ctrue_true in Ht. rewrite Ht.
    simpl in Hf, Hov. destruct (IH (s + 1) (t + 1) (upd m s b) l) as (m' & E & Hd & Ho); [|lia|lia|].
    { apply is_cstr_upd; [lia|done]. }
    exists m'. split; [done|]. split.
    + apply is_cstr_addr_cons. split; [|done]. rewrite Ho by lia. apply upd_eq.
    + intros x Hx. simpl in Hx. rewrite Ho by lia. apply upd_ne. lia.
Qed.

(** A string copied over its own end is extended as fast as it is read:
    strcpy never returns. *)
Lemma strcpy_overlap_diverges fuel s t m l :
  is_cstr (at_addr m t) l -> t < s <= t + Z.of_nat (length l) -> strcpy fuel s t m = None.
Proof.
  intros [Hz Hp] Hov. unfold strcpy. assert (H : strcpy_loop fuel s t m = None); [|by rewrite H].
  assert (Hnz : forall x, t <= x < s -> m x <> 0).
  { intros x Hx. specialize (Hp (Z.to_nat (x - t)) ltac:(lia)). unfold at_addr in Hp. replace (t + Z.of_nat (Z.to_nat (x - t))) with x in Hp by lia.
    rewrite Hp. rewrite Forall_forall in Hz. apply Hz. rewrite list_elem_of_In. apply nth_In. lia. }
  assert (Hlt : t < s) by lia. clear Hz Hp Hov. revert s t m Hlt Hnz. induction fuel as [|fuel IH]; intros s t m Hlt Hnz; [done|]. cbn [strcpy_loop].
  pose proof (Hnz t ltac:(lia)) as Ht. pose proof Ht as Hc. apply ctrue_true in Hc. rewrite Hc. apply IH; [lia|].
  intros x Hx. destruct (decide (x = s)) as [->|Hne]; [by rewrite upd_eq|]. rewrite upd_ne by done. apply Hnz. lia.
Qed.

(** memmove to a higher, overlapping address repeats the first bytes. *)
Lemma umemmove_smears :
  map (umemmove 11 10 4 (fun a => a)).2 [10; 11; 12; 13; 14; 15] = [10; 10; 10; 10; 10; 15] /\
  map (memmove 11 10 4 (fun a => a)) [10; 11; 12; 13; 14; 15] = [10; 10; 11; 12; 13; 15].
Proof. split; reflexivity. Qed.

(** Strlen, strcpy, memset and memmove of the user library agree with
    the kernel's where both are meant to work: strlen returns the length of
    every terminated string, strcpy copies it with its NUL and changes
    nothing else when it is not copied over its own end, memset fills like
    the kernel's, and memmove does what the kernel's does for regions that
    are disjoint or move down. *)
Lemma ulib_correct (fuel : nat) (m : mem) (s t : Z) (l : list Z) (n c : Z) :
  is_cstr (at_addr m t) l -> (length l < fuel)%nat ->
  ustrlen fuel (at_addr m t) = strlen fuel (at_addr m t) /\
  (s <= t \/ t + Z.of_nat (length l) < s ->
   exists m', strcpy fuel s t m = Some (s, m') /\ is_cstr (at_addr m' s) l /\
     forall x, x < s \/ s + Z.of_nat (length l) < x -> m' x = m x) /\
  (0 <= n < u32_mod -> umemset s c n m = (s, memset s c n m)) /\
  (0 <= n -> s <= t \/ t + n <= s -> forall x, (umemmove s t n m).2 x = memmove s t n m x).
Proof.
  intros Hl Hf. split; [|split; [|split]].
  - unfold ustrlen. rewrite (strlen_spec _ _ l) by done.
    enough (H : forall k, (k <= length l)%nat -> ustrlen_loop (fuel - k) (at_addr m t) (Z.of_nat k) = Some (Z.of_nat (length l))).
    { specialize (H 0%nat). rewrite Nat.sub_0_r in H. apply H. lia. }
    intros k Hk. remember (length l - k)%nat as d eqn:Hd. revert k Hk Hd. induction d as [|d IH]; intros k Hk Hd.
    + assert (k = length l) as -> by lia. destruct (fuel - length l)%nat as [|f] eqn:E; [lia|]. cbn [ustrlen_loop]. rewrite Nat2Z.id.
      destruct Hl as [_ Hp]. by rewrite Hp, nth_overflow by lia.
    + destruct (fuel - k)%nat as [|f] eqn:E; [lia|]. cbn [ustrlen_loop]. rewrite Nat2Z.id. destruct Hl as [Hz Hp]. rewrite Hp by lia.
      assert (Hnz : nth k l 0 <> 0). { rewrite Forall_forall in Hz. apply Hz. rewrite list_elem_of_In. apply nth_In. lia. }
      apply ctrue_true in Hnz. rewrite Hnz. replace f with (fuel - S k)%nat by lia. replace (Z.of_nat k + 1) with (Z.of_nat (S k)) by lia. apply IH; lia.
  - intros Hov. destruct (strcpy_loop_spec fuel s t m l Hl Hf Hov) as (m' & E & Hd & Ho). exists m'. unfold strcpy. by rewrite E.
  - intros Hn. unfold umemset, memset. by rewrite u32_small.
  - intros Hn Hov x. unfold umemmove, memmove. cbn [snd]. destruct (Z.ltb_spec t s), (Z.ltb_spec s (t + n)); cbn [andb]; try lia; done.
Qed.
