(* ===== verification/Printf.v ===== *)
(** * printf.c, ulib.c and the printing half of console.c

    What printf and cprintf write, as a list of characters, from the format
    and the words that follow it on the stack; and the string routines of the
    user library. *)

From S2P Require Import Prelude CString.

(** [digits[d]] *)
Definition digit (d : Z) : Z := if d <? 10 then 48 + d else 55 + d.

(** [do buf[i++] = digits[x % base]; while((x /= base) != 0)]: a 32-bit [x]
    has at most 32 digits in any base. *)
Fixpoint digits_loop (fuel : nat) (x base : Z) : list Z :=
  match fuel with
  | O => []
  | S fuel => digit (x mod base) :: (if x / base =? 0 then [] else digits_loop fuel (x / base) base)
  end.

(** The characters in the order they are put out, [buf] from its end. *)
Definition printint (xx base : Z) (sgn : bool) : list Z :=
  let neg := sgn && (xx <? 0) in
  let x := if neg then u32 (- xx) else u32 xx in
  rev (digits_loop 32 x base ++ (if neg then [45] else [])).

(** console.c has a copy of it. *)
Definition cons_printint : Z -> Z -> bool -> list Z := printint.

(** [str a] is the string at address [a], [args k] the [k]th argument word. *)
Section formats.
Context (str : Z -> list Z) (args : nat -> Z).

Definition null_str : list Z := [40; 110; 117; 108; 108; 41].
Definition str_arg (a : Z) : list Z := if a =? 0 then null_str else str a.

(** The loop of printf, after [n] arguments; [pct] when the last character
    was a percent sign. *)
Fixpoint printf_loop (fmt : list Z) (pct : bool) (n : nat) : list Z :=
  match fmt with
  | [] => []
  | c :: fmt =>
      if negb pct then if c =? 37 then printf_loop fmt true n else c :: printf_loop fmt false n
      else if c =? 100 then printint (s32 (args n)) 10 true ++ printf_loop fmt false (S n)
      else if (c =? 120) || (c =? 112) then printint (s32 (args n)) 16 false ++ printf_loop fmt false (S n)
      else if c =? 115 then str_arg (args n) ++ printf_loop fmt false (S n)
      else if c =? 99 then u8 (args n) :: printf_loop fmt false (S n)
      else if c =? 37 then c :: printf_loop fmt false n
      else 37 :: c :: printf_loop fmt false n
  end.
Definition printf (fmt : list Z) : list Z := printf_loop fmt false 0.

(** cprintf has no [%c]. *)
Fixpoint cprintf_loop (fmt : list Z) (pct : bool) (n : nat) : list Z :=
  match fmt with
  | [] => []
  | c :: fmt =>
      if negb pct then if c =? 37 then cprintf_loop fmt true n else c :: cprintf_loop fmt false n
      else if c =? 100 then cons_printint (s32 (args n)) 10 true ++ cprintf_loop fmt false (S n)
      else if (c =? 120) || (c =? 112) then cons_printint (s32 (args n)) 16 false ++ cprintf_loop fmt false (S n)
      else if c =? 115 then str_arg (args n) ++ cprintf_loop fmt false (S n)
      else if c =? 37 then 37 :: cprintf_loop fmt false n
      else 37 :: c :: cprintf_loop fmt false n
  end.
Definition cprintf (fmt : list Z) : list Z := cprintf_loop fmt false 0.
End formats.

(** ** ulib.c *)

(** [while('0' <= *s && *s <= '9') n = n*10 + *s++ - '0'] *)
Fixpoint atoi_loop (s : list Z) (n : Z) : Z :=
  match s with
  | c :: s => if (48 <=? c) && (c <=? 57) then atoi_loop s (s32 (n * 10 + c - 48)) else n
  | [] => n
  end.
Definition atoi (s : list Z) : Z := atoi_loop s 0.

Fixpoint strcmp (p q : list Z) : Z :=
  match p, q with
  | a :: p', b :: q' => if a =? b then strcmp p' q' else a - b
  | a :: _, [] => a
  | [], b :: _ => - b
  | [], [] => 0
  end.

Fixpoint strchr (s : list Z) (c : Z) : option nat :=
  match s with
  | [] => None
  | x :: s => if x =? c then Some O else S <$> strchr s c
  end.

(** gets with room for [max] bytes; [input] is what read delivers. *)
Fixpoint gets_loop (room : nat) (input : list Z) : list Z :=
  match room, input with
  | S room, c :: input => if (c =? 10) || (c =? 13) then [c] else c :: gets_loop room input
  | _, _ => []
  end.
Definition gets (max : Z) (input : list Z) : list Z := gets_loop (Z.to_nat (max - 1)) input ++ [0].

(** ** Printing numbers *)

(** The number a list of digits stands for, most significant first. *)
Definition value (base : Z) (ds : list Z) : Z := foldl (fun n d => n * base + d) 0 ds.

Lemma value_snoc base ds d : value base (ds ++ [d]) = value base ds * base + d.
Proof. unfold value. by rewrite foldl_app. Qed.

Lemma digits_loop_spec fuel x base :
  2 <= base -> 0 <= x < base ^ Z.of_nat fuel -> (0 < fuel)%nat ->
  exists ds, rev (digits_loop fuel x base) = digit <$> ds /\ Forall (fun d => 0 <= d < base) ds /\
    value base ds = x /\ (0 < length ds)%nat /\ (forall n, x < base ^ Z.of_nat n -> (0 < n)%nat -> (length ds <= n)%nat).
Proof.
  intros Hb. revert x. induction fuel as [|fuel IH]; intros x Hx Hf; [lia|]. cbn [digits_loop].
  pose proof (Z.mod_pos_bound x base ltac:(lia)) as Hm. pose proof (Z.div_mod x base ltac:(lia)) as Hd.
  rewrite Nat2Z.inj_succ, Z.pow_succ_r in Hx by lia. destruct (Z.eqb_spec (x / base) 0) as [Hz|Hnz].
  - exists [x mod base]. simpl. split; [done|]. split; [by apply Forall_singleton|]. split; [unfold value; simpl; lia|]. split; [lia|intros; lia].
  - assert (Hq : 0 <= x / base < base ^ Z.of_nat fuel) by (split; [apply Z.div_pos; lia|apply Z.div_lt_upper_bound; lia]).
    assert (Hf' : (0 < fuel)%nat).
    { destruct fuel; [|lia]. simpl in Hq. lia. }
    destruct (IH (x / base) Hq Hf') as (ds & Hds & Hall & Hval & Hpos & Hlen). exists (ds ++ [x mod base]). cbn [rev].
    rewrite Hds, fmap_app, value_snoc, Hval, length_app. simpl.
    split; [done|]. split; [apply Forall_app; split; [done|by apply Forall_singleton]|]. split; [lia|]. split; [lia|].
    intros [|n] Hn Hn0; [lia|]. rewrite Nat2Z.inj_succ, Z.pow_succ_r in Hn by lia.
    destruct n as [|n]; [simpl in Hn; exfalso; apply Hnz, Z.div_small; lia|].
    assert (length ds <= S n)%nat; [|lia]. apply Hlen; [apply Z.div_lt_upper_bound; lia|lia].
Qed.

Lemma pow_mono base n : 10 <= base -> 10 ^ Z.of_nat n <= base ^ Z.of_nat n.
Proof. intros. apply Z.pow_le_mono_l. lia. Qed.

(** What printint puts out: a sign, and the digits of the magnitude. *)
Lemma printint_spec xx base sgn :
  10 <= base <= 16 -> -2147483648 <= xx < 2147483648 ->
  exists ds, printint xx base sgn = (if sgn && (xx <? 0) then [45] else []) ++ (digit <$> ds) /\
    Forall (fun d => 0 <= d < base) ds /\
    value base ds = (if sgn then Z.abs xx else u32 xx) /\ (0 < length ds <= 10)%nat.
Proof.
  intros Hb Hx. unfold printint. set (neg := sgn && (xx <? 0)). set (x := if neg then u32 (- xx) else u32 xx).
  assert (Hxr : 0 <= x < u32_mod) by (unfold x; destruct neg; apply u32_range).
  destruct (digits_loop_spec 32 x base) as (ds & Hds & Hall & Hval & Hpos & Hlen); [lia| |lia|].
  { split; [lia|]. pose proof (pow_mono base 32 ltac:(lia)). unfold u32_mod in Hxr. change (10 ^ Z.of_nat 32) with 100000000000000000000000000000000 in *. lia. }
  exists ds. rewrite rev_app_distr, Hds. split_and!; [by destruct neg|done| |lia|].
  - rewrite Hval. unfold x, neg. destruct sgn; simpl; [|done].
    destruct (Z.ltb_spec xx 0); [rewrite u32_small by (unfold u32_mod; lia); lia|].
    rewrite u32_small by (unfold u32_mod; lia). lia.
  - apply Hlen; [|lia]. pose proof (pow_mono base 10 ltac:(lia)). change (10 ^ Z.of_nat 10) with 10000000000 in *.
    unfold u32_mod in Hxr. lia.
Qed.

Lemma atoi_loop_digits ds n rest :
  Forall (fun d => 0 <= d < 10) ds -> 0 <= n -> foldl (fun n d => n * 10 + d) n ds < 2147483648 ->
  (forall c, head rest = Some c -> ~ 48 <= c <= 57) ->
  atoi_loop ((digit <$> ds) ++ rest) n = foldl (fun n d => n * 10 + d) n ds.
Proof.
  intros Hds. revert n. induction Hds as [|d ds Hd Hds IH]; intros n Hn Hlt Hrest; simpl in *.
  - destruct rest as [|c rest]; [done|]. simpl. specialize (Hrest c eq_refl).
    destruct (Z.leb_spec 48 c); [|done]. destruct (Z.leb_spec c 57); [lia|done].
  - assert (Ed : digit d = 48 + d) by (unfold digit; destruct (Z.ltb_spec d 10); lia). rewrite Ed.
    destruct (Z.leb_spec 48 (48 + d)); [|lia]. destruct (Z.leb_spec (48 + d) 57); [|lia]. cbn [andb].
    assert (Hge : forall l m, Forall (fun d => 0 <= d < 10) l -> 0 <= m -> m <= foldl (fun n d => n * 10 + d) m l).
    { clear. intros l m H. revert m. induction H; intros m Hm; simpl; [lia|]. etrans; [|apply IHForall; lia]. lia. }
    pose proof (Hge ds (n * 10 + d) Hds ltac:(lia)). replace (n * 10 + (48 + d) - 48) with (n * 10 + d) by lia.
    rewrite s32_small by lia. apply IH; [lia|done|done].
Qed.

(** Printing and reading a number agree.  printint in base 10 writes the
    sign of any int and its decimal digits, in base 16 the digits of the
    unsigned word, never more than the 11 characters its buffer of 16 holds;
    and atoi of the decimal form of a non-negative number, followed by
    anything that is not a digit, is that number. *)
Theorem printint_atoi (xx : Z) (rest : list Z) :
  -2147483648 <= xx < 2147483648 -> (forall c, head rest = Some c -> ~ 48 <= c <= 57) ->
  (exists ds, printint xx 10 true = (if xx <? 0 then [45] else []) ++ (digit <$> ds) /\
     value 10 ds = Z.abs xx /\ Forall (fun d => 0 <= d < 10) ds /\ (length (printint xx 10 true) <= 11)%nat) /\
  (exists ds, printint xx 16 false = digit <$> ds /\ value 16 ds = u32 xx /\ Forall (fun d => 0 <= d < 16) ds /\
     (length (printint xx 16 false) <= 11)%nat) /\
  (0 <= xx -> atoi (printint xx 10 true ++ rest) = xx).
Proof.
  intros Hx Hrest. destruct (printint_spec xx 10 true ltac:(lia) Hx) as (ds & Hp & Hall & Hval & Hlen).
  destruct (printint_spec xx 16 false ltac:(lia) Hx) as (hs & Hp' & Hall' & Hval' & Hlen').
  split_and!.
  - exists ds. split_and!; [done..|]. rewrite Hp, length_app, length_fmap. simpl. destruct (xx <? 0); simpl; lia.
  - exists hs. split_and!; [done..|]. rewrite Hp', length_app, length_fmap. simpl. lia.
  - intros H0. unfold atoi. rewrite Hp. simpl. destruct (Z.ltb_spec xx 0); [lia|]. simpl.
    rewrite atoi_loop_digits; [|done|done| |done]; fold (value 10 ds); lia.
Qed.

Lemma printint_atoi_witness :
  printint 2009 10 true = [50; 48; 48; 57] /\ atoi ([50; 48; 48; 57] ++ [10]) = 2009.
Proof.
  split; [reflexivity|].
  destruct (printint_atoi 2009 [10]) as (_ & _ & H); [lia|by intros c [= <-]; lia|].
  change [50; 48; 48; 57] with (printint 2009 10 true). apply H. lia.
Defined.
