(* ===== verification/Debug.v ===== *)
(** * console.c, proc.c: what the kernel prints of itself

    The devices behind [cons_putc], screen and printer; [panic], which prints
    and then stops every processor that prints; and [procdump]. *)

From S2P Require Import Prelude CString Spinlock Proc Console Printf.

(** The globals of console.c, the screen, and the printer: the bytes written
    to its ports, and its status at each poll. *)
Record term : Type := Term {
  panicked : Z; use_console_lock : Z; tscreen : screen; lpt : list (Z * Z); polls : nat; status : nat -> Z }.
Definition set_panicked x s := Term x (use_console_lock s) (tscreen s) (lpt s) (polls s) (status s).
Definition set_ucl x s := Term (panicked s) x (tscreen s) (lpt s) (polls s) (status s).
Definition set_tscreen x s := Term (panicked s) (use_console_lock s) x (lpt s) (polls s) (status s).
Definition set_lpt x s := Term (panicked s) (use_console_lock s) (tscreen s) x (polls s) (status s).
Definition set_polls x s := Term (panicked s) (use_console_lock s) (tscreen s) (lpt s) x (status s).

Definition LPTPORT : Z := 888.

(** At most 12800 rounds, polling once more at the end. *)
Fixpoint lpt_wait (n : nat) (s : term) : term :=
  let ready := Z.testbit (status s (polls s)) 7 in
  let s := set_polls (S (polls s)) s in
  if ready then s else match n with O => s | S n => lpt_wait n s end.
Definition lpt_putc (c : Z) (s : term) : term :=
  let s := lpt_wait (Z.to_nat 12800) s in
  let c := if c =? BACKSPACE then 8 else c in
  set_lpt (lpt s ++ [(LPTPORT, u8 c); (LPTPORT + 2, Z.lor (Z.lor 8 4) 1); (LPTPORT + 2, 8)]) s.

Definition dev_putc (c : Z) : M term unit :=
  let! s := get in
  if ctrue (panicked s) then fun s => Spin s
  else modify (lpt_putc c) ;; zoom tscreen set_tscreen (cga_putc c).
Definition dev_puts (l : list Z) : M term unit := mfor l dev_putc.

(** ** panic *)

Section panic.
(** Memory, and the number of the processor. *)
Context (word : Z -> Z) (cpu : Z).

(** The text, for the message [s] at address [v] on the stack; its bytes
    are a format themselves. *)
Definition hex_line (pc : Z) : list Z := cprintf (fun _ => []) (fun _ => pc) [32; 37; 112].
Definition panic_text (s : list Z) (v : Z) : list Z :=
  cprintf (fun _ => []) (fun _ => cpu) [99; 112; 117; 37; 100; 58; 32; 112; 97; 110; 105; 99; 58; 32] ++
  cprintf (fun _ => []) (fun _ => 0) s ++ [10] ++ concat (hex_line <$> getcallerpcs word v).
Definition kpanic (s : list Z) (v : Z) : M term unit :=
  modify (set_ucl 0) ;;
  dev_puts (panic_text s v) ;;
  modify (set_panicked 1) ;;
  fun s => Spin s.
End panic.

(** ** procdump *)

Definition states (st : proc_state) : list Z :=
  match st with
  | UNUSED => [117; 110; 117; 115; 101; 100]
  | EMBRYO => [101; 109; 98; 114; 121; 111]
  | SLEEPING => [115; 108; 101; 101; 112; 32]
  | RUNNABLE => [114; 117; 110; 98; 108; 101]
  | RUNNING => [114; 117; 110; 32; 32; 32]
  | ZOMBIE => [122; 111; 109; 98; 105; 101]
  end.

(** The return addresses up to the first zero. *)
Fixpoint nonzero (l : list Z) : list Z :=
  match l with [] => [] | c :: l => if c =? 0 then [] else c :: nonzero l end.

(** [ebp]: the saved [context.ebp] of a process. *)
Definition dump_line (word : Z -> Z) (ebp : Z) (p : proc) : list Z :=
  cprintf (fun a => if a =? 1 then states (p_state p) else p_name p) (fun n => nth n [p_pid p; 1; 2] 0)
          [37; 100; 32; 37; 115; 32; 37; 115] ++
  (if bool_decide (p_state p = SLEEPING) then concat (hex_line <$> nonzero (getcallerpcs word (u32 (ebp + 8)))) else []) ++ [10].
Fixpoint procdump_loop (word : Z -> Z) (ebp : nat -> Z) (i : nat) (l : list proc) : list Z :=
  match l with
  | [] => []
  | p :: l =>
      (if bool_decide (p_state p = UNUSED) then [] else dump_line word (ebp i) p) ++ procdump_loop word ebp (S i) l
  end.
Definition procdump (word : Z -> Z) (ebp : nat -> Z) (l : list proc) : list Z := procdump_loop word ebp 0 l.

(** ** What is printed *)

Lemma lpt_wait_only n s : exists k, (polls s < k)%nat /\ (k <= polls s + n + 1)%nat /\ lpt_wait n s = set_polls k s.
Proof.
  revert s. induction n as [|n IH]; intros s; cbn [lpt_wait]; destruct (Z.testbit (status s (polls s)) 7).
  - exists (S (polls s)). split_and!; [lia|lia|done].
  - exists (S (polls s)). split_and!; [lia|lia|done].
  - exists (S (polls s)). split_and!; [lia|lia|done].
  - destruct (IH (set_polls (S (polls s)) s)) as (k & H1 & H2 & ->). cbn [set_polls polls] in *. exists k. split_and!; [lia|lia|done].
Qed.

(** The strobes of one character. *)
Definition strobe (c : Z) : list (Z * Z) :=
  [(LPTPORT, u8 (if c =? BACKSPACE then 8 else c)); (LPTPORT + 2, 13); (LPTPORT + 2, 8)].

Lemma lpt_putc_strobes c s : exists k, lpt_putc c s = set_polls k (set_lpt (lpt s ++ strobe c) s).
Proof. unfold lpt_putc. destruct (lpt_wait_only (Z.to_nat 12800) s) as (k & _ & _ & ->). by exists k. Qed.

(** Every character reaches the printer, however slow, and the screen. *)
Lemma dev_puts_ok l s :
  panicked s = 0 -> screen_ok (tscreen s) ->
  wp (dev_puts l) s (fun _ t => lpt t = lpt s ++ concat (strobe <$> l) /\ panicked t = 0 /\ use_console_lock t = use_console_lock s /\
    status t = status s /\ screen_ok (tscreen t) /\ mfor l cga_putc (tscreen s) = Ret tt (tscreen t)).
Proof.
  revert s. induction l as [|c l IH]; intros s Hp Hs; unfold dev_puts in *; cbn [mfor].
  { wp_steps. by rewrite app_nil_r. }
  apply wp_bind. unfold dev_putc at 1. wp_steps. rewrite Hp. change (ctrue 0) with false. cbv iota. wp_steps.
  destruct (lpt_putc_strobes c s) as [k ->]. change (tscreen (set_polls k (set_lpt (lpt s ++ strobe c) s))) with (tscreen s).
  pose proof (cga_putc_ok c _ Hs) as Hok. unfold wp in Hok |- * at 1. destruct (cga_putc c (tscreen s)) as [[] sc| | | |] eqn:E; try done.
  eapply wp_mono; [apply IH; done|]. cbn. intros _ t (H1 & H2 & H3 & H4 & H5 & H6). split_and!; try done.
  - by rewrite H1, <-app_assoc.
  - unfold bind. by rewrite E.
Qed.

Lemma dev_putc_panicked c t : ctrue (panicked t) = true -> dev_putc c t = Spin t.
Proof. intros H. unfold dev_putc. rewrite (bind_ret _ _ _ _ _ (eq_refl : get t = Ret t t)). by rewrite H. Qed.

(** panic prints its text on printer and screen, stops, and from then on
    every processor that prints stops before it does. *)
Lemma kpanic_stops word cpu msg v s :
  panicked s = 0 -> screen_ok (tscreen s) ->
  exists t, kpanic word cpu msg v s = Spin t /\ lpt t = lpt s ++ concat (strobe <$> panic_text word cpu msg v) /\
    mfor (panic_text word cpu msg v) cga_putc (tscreen s) = Ret tt (tscreen t) /\
    forall c, dev_putc c t = Spin t.
Proof.
  intros Hp Hs. unfold kpanic. generalize (panic_text word cpu msg v). intros l.
  pose proof (dev_puts_ok l (set_ucl 0 s) Hp Hs) as H. unfold wp in H.
  destruct (dev_puts l (set_ucl 0 s)) as [[] t| | | |] eqn:E; try done. destruct H as (H1 & _ & _ & _ & _ & H6).
  exists (set_panicked 1 t). split_and!; [|exact H1|exact H6|intros c; by apply dev_putc_panicked].
  rewrite (bind_ret _ _ _ _ _ (eq_refl : modify (set_ucl 0) s = Ret tt (set_ucl 0 s))), (bind_ret _ _ _ _ _ E). reflexivity.
Qed.

(** A table of three processes, the second asleep with two calls on its stack. *)
Lemma procdump_demo :
  let p st pid n := Proc 0 0 0 st pid None None 0 [] None zero_tf n 100 0 empty_ct in
  let word a := if a =? 104 then 4660 else if a =? 100 then 200 else if a =? 204 then 22136 else 0 in
  procdump word (fun _ => 100) [p RUNNING 1 [105]; p UNUSED 0 []; p SLEEPING 2 [115; 104]]
  = [49; 32] ++ states RUNNING ++ [32; 105; 10] ++
    [50; 32] ++ states SLEEPING ++ [32; 115; 104] ++ [32; 49; 50; 51; 52; 32; 53; 54; 55; 56; 10].
Proof. reflexivity. Qed.
