(* ===== verification/Sh.v ===== *)
(** * sh.c: the shell's parser

    The command line is the bytes before its NUL; pointers into it are
    indices and [es] is its length.  The parser's state is the index [*ps],
    its panics are outcomes.  Nodes are values: an EXEC node is complete when
    parseexec returns, whatever REDIR nodes were put around it. *)

From S2P Require Import Prelude.

Definition MAXARGS : nat := 10.
Definition O_RDONLY : Z := 0.
Definition O_WRONLY_CREATE : Z := 513.

Definition whitespace : list Z := [32; 9; 13; 10; 11].
Definition symbols : list Z := [60; 124; 62; 38; 59; 40; 41].

(** [struct cmd] and the structures it stands for; a word is the pair of its
    first and one past its last index. *)
Inductive cmd : Type :=
| EXEC (argv : list (nat * nat))
| REDIR (c : cmd) (file efile : nat) (mode fd : Z)
| PIPE (left right : cmd)
| LIST (left right : cmd)
| BACK (c : cmd).

(** [strchr(s, c)] for a character that is not NUL. *)
Definition has (s : list Z) (c : Z) : bool := existsb (Z.eqb c) s.
Definition word_char (c : Z) : bool := negb (has whitespace c) && negb (has symbols c).

(** The length of the run of characters satisfying [p]. *)
Fixpoint span (p : Z -> bool) (l : list Z) : nat :=
  match l with
  | c :: l => if p c then S (span p l) else O
  | [] => O
  end.

Section parser.
Context (buf : list Z).

Definition at_ (i : nat) : Z := nth i buf 0.
(** [while(s < es && strchr(whitespace, s[0])) s++] *)
Definition skip (i : nat) : nat := (i + span (has whitespace) (drop i buf))%nat.

(** The switch of gettoken at index [q]: its return value and [eq]. *)
Definition token_at (q : nat) : Z * nat :=
  let c := at_ q in
  if c =? 0 then (0, q)
  else if has [124; 40; 41; 59; 38; 60] c then (c, S q)
  else if c =? 62 then if at_ (S q) =? 62 then (43, S (S q)) else (c, S q)
  else (97, (q + span word_char (drop q buf))%nat).

Definition gettoken : M nat (Z * nat * nat) := fun i =>
  let q := skip i in
  let '(r, eq) := token_at q in
  Ret (r, q, eq) (skip eq).

Definition peek (toks : list Z) : M nat bool := fun i =>
  let s := skip i in
  Ret (negb (at_ s =? 0) && has toks (at_ s)) s.

Fixpoint parseredirs (fuel : nat) (c : cmd) : M nat cmd :=
  match fuel with
  | O => fun i => Spin i
  | S fuel =>
      let! b := peek [60; 62] in
      if b then
        let! t := gettoken in
        let tok := fst (fst t) in
        let! w := gettoken in
        let '(r, q, eq) := w in
        if negb (r =? 97) then panic "missing file for redirection"
        else if tok =? 60 then parseredirs fuel (REDIR c q eq O_RDONLY 0)
        else if tok =? 62 then parseredirs fuel (REDIR c q eq O_WRONLY_CREATE 1)
        else if tok =? 43 then parseredirs fuel (REDIR c q eq O_WRONLY_CREATE 1)
        else parseredirs fuel c
      else ret c
  end.

(** Replaces the EXEC node below the REDIR nodes. *)
Fixpoint set_argv (argv : list (nat * nat)) (c : cmd) : cmd :=
  match c with
  | REDIR c q eq m fd => REDIR (set_argv argv c) q eq m fd
  | _ => EXEC argv
  end.

(** The argument loop of parseexec; [argv] holds the words so far. *)
Fixpoint exec_loop (fuel : nat) (argv : list (nat * nat)) (c : cmd) : M nat cmd :=
  match fuel with
  | O => fun i => Spin i
  | S fuel =>
      let! b := peek [124; 41; 38; 59] in
      if b then ret (set_argv argv c)
      else
        let! w := gettoken in
        let '(tok, q, eq) := w in
        if tok =? 0 then ret (set_argv argv c)
        else if negb (tok =? 97) then panic "syntax"
        else
          let argv := argv ++ [(q, eq)] in
          if (MAXARGS <=? length argv)%nat then panic "too many args"
          else let! c := parseredirs fuel c in exec_loop fuel argv c
  end.

(** [while(peek(ps, es, "&"))] of parseline. *)
Fixpoint back_loop (fuel : nat) (c : cmd) : M nat cmd :=
  match fuel with
  | O => fun i => Spin i
  | S fuel =>
      let! b := peek [38] in
      if b then gettoken ;; back_loop fuel (BACK c) else ret c
  end.

Fixpoint parseline (fuel : nat) : M nat cmd :=
  match fuel with
  | O => fun i => Spin i
  | S fuel =>
      let! c := parsepipe fuel in
      let! c := back_loop fuel c in
      let! b := peek [59] in
      if b then gettoken ;; let! r := parseline fuel in ret (LIST c r) else ret c
  end
with parsepipe (fuel : nat) : M nat cmd :=
  match fuel with
  | O => fun i => Spin i
  | S fuel =>
      let! c := parseexec fuel in
      let! b := peek [124] in
      if b then gettoken ;; let! r := parsepipe fuel in ret (PIPE c r) else ret c
  end
with parseexec (fuel : nat) : M nat cmd :=
  match fuel with
  | O => fun i => Spin i
  | S fuel =>
      let! b := peek [40] in
      if b then parseblock fuel
      else
        let! c := parseredirs fuel (EXEC []) in
        exec_loop fuel [] c
  end
with parseblock (fuel : nat) : M nat cmd :=
  match fuel with
  | O => fun i => Spin i
  | S fuel =>
      let! b := peek [40] in
      if negb b then panic "parseblock"
      else
        gettoken ;;
        let! c := parseline fuel in
        let! b := peek [41] in
        if negb b then panic "syntax - missing )"
        else gettoken ;; parseredirs fuel c
  end.

(** parsecmd, up to nulterminate.  Four calls deep per token is enough. *)
Definition parse_fuel : nat := (4 * length buf + 4)%nat.
Definition parsecmd : M nat cmd :=
  let! c := parseline parse_fuel in
  peek [] ;;
  let! s := get in
  if (s =? length buf)%nat then ret c else panic "syntax".
End parser.

(** The NULs nulterminate stores in the line. *)
Fixpoint nulterminate (c : cmd) (mem : list Z) : list Z :=
  match c with
  | EXEC argv => foldl (fun m w => <[snd w := 0]> m) mem argv
  | REDIR c _ efile _ _ => <[efile := 0]> (nulterminate c mem)
  | PIPE l r => nulterminate r (nulterminate l mem)
  | LIST l r => nulterminate r (nulterminate l mem)
  | BACK c => nulterminate c mem
  end.

(** The words of a command. *)
Fixpoint words_of (c : cmd) : list (nat * nat) :=
  match c with
  | EXEC argv => argv
  | REDIR c q eq _ _ => words_of c ++ [(q, eq)]
  | PIPE l r | LIST l r => words_of l ++ words_of r
  | BACK c => words_of c
  end.
