(* ===== verification/ShPrint.v ===== *)
(** * Every command tree has a line that parses to it

    A command tree, with words in place of indices, is written with
    parentheses only where the grammar needs them; the parser gives it back. *)

From S2P Require Import Prelude Sh ShProps.

Inductive tree : Type :=
| TExec (ws : list (list Z))
| TRedir (t : tree) (out : bool) (w : list Z)
| TPipe (l r : tree)
| TList (l r : tree)
| TBack (t : tree).

Inductive stok : Type := Sym (c : Z) | Word (w : list Z).

(** ** Writing a tree *)

Definition redir_toks (out : bool) (w : list Z) : list stok := [Sym (if out then 62 else 60); Word w].
Definition paren (b : bool) (l : list stok) : list stok := if b then l else [Sym 40] ++ l ++ [Sym 41].

(** The forms that parseexec and parsepipe read without parentheses, and
    those parseline reads before a semicolon. *)
Definition exec_form (t : tree) : bool := match t with TExec _ | TRedir _ _ _ => true | _ => false end.
Definition pipe_form (t : tree) : bool := match t with TPipe _ _ => true | _ => exec_form t end.
Definition back_form (t : tree) : bool := match t with TBack _ => true | _ => pipe_form t end.

Fixpoint raw (t : tree) : list stok :=
  match t with
  | TExec ws => Word <$> ws
  | TRedir t out w => paren (exec_form t) (raw t) ++ redir_toks out w
  | TPipe l r => paren (exec_form l) (raw l) ++ [Sym 124] ++ paren (pipe_form r) (raw r)
  | TList l r => paren (back_form l) (raw l) ++ [Sym 59] ++ raw r
  | TBack t => paren (back_form t) (raw t) ++ [Sym 38]
  end.

(** A blank before each token. *)
Definition spell1 (st : stok) : list Z := match st with Sym c => [32; c] | Word w => 32 :: w end.
Definition spelling (l : list stok) : list Z := l ≫= spell1.
Definition print (t : tree) : list Z := spelling (raw t).

(** ** What a parsed command stands for *)

Definition sub (buf : list Z) (w : nat * nat) : list Z := take (snd w - fst w) (drop (fst w) buf).
Fixpoint resolves (buf : list Z) (c : cmd) (t : tree) : Prop :=
  match c, t with
  | EXEC argv, TExec ws => sub buf <$> argv = ws
  | REDIR c q e m fd, TRedir t out w =>
      resolves buf c t /\ sub buf (q, e) = w /\ (m, fd) = (if out then (O_WRONLY_CREATE, 1) else (O_RDONLY, 0))
  | PIPE l r, TPipe l' r' => resolves buf l l' /\ resolves buf r r'
  | LIST l r, TList l' r' => resolves buf l l' /\ resolves buf r r'
  | BACK c, TBack t => resolves buf c t
  | _, _ => False
  end.

(** At most nine words to a command. *)
Fixpoint tree_ok (t : tree) : Prop :=
  match t with
  | TExec ws => (length ws < MAXARGS)%nat
  | TRedir t _ _ | TBack t => tree_ok t
  | TPipe l r | TList l r => tree_ok l /\ tree_ok r
  end.

(** Words that are words. *)
Definition stok_ok (st : stok) : Prop :=
  match st with
  | Sym c => has symbols c = true
  | Word w => w <> [] /\ Forall (fun c => word_char c = true /\ c <> 0) w
  end.

(** ** The parser in terms of tokens *)

Section parse.
Context (buf : list Z).

Definition spells (t : Z * nat * nat) (st : stok) : Prop :=
  let '(r, q, e) := t in
  match st with
  | Sym c => r = c /\ at_ buf q = c /\ c <> 97 /\ c <> 0
  | Word w => r = 97 /\ at_ buf q <> 0 /\ word_char (at_ buf q) = true /\ sub buf (q, e) = w
  end.
Definition sees (i : nat) (sts : list stok) : Prop := exists ts, reads buf i ts /\ Forall2 spells ts sts.

Definition peekb (toks : list Z) (sts : list stok) : bool :=
  match sts with Sym c :: _ => has toks c | _ => false end.

Lemma sees_tok i st sts :
  sees i (st :: sts) -> exists t i', gettoken buf i = Ret t i' /\ spells t st /\ sees i' sts.
Proof.
  intros (ts & Hr & H2). inversion H2 as [|t ? ts' ? Ht Hts]; subst.
  destruct (gettoken_cons buf i t ts' Hr) as (i' & E & Hr'). exists t, i'. split; [done|]. split; [done|]. by exists ts'.
Qed.

Lemma sees_end i : sees i [] -> exists q e i', gettoken buf i = Ret (0, q, e) i' /\ sees i' [].
Proof.
  intros (ts & Hr & H2). inversion H2; subst. destruct (gettoken_nil buf i Hr) as (q & e & i' & E & Hr').
  exists q, e, i'. split; [done|]. by exists [].
Qed.

Lemma has_sub toks c : has toks c = true -> (forall x, has toks x = true -> has symbols x = true) -> word_char c = false.
Proof. intros H Hs. unfold word_char. rewrite (Hs _ H). by rewrite andb_false_r. Qed.

Lemma sees_peek toks i sts :
  (forall x, has toks x = true -> has symbols x = true) -> sees i sts ->
  exists i', peek buf toks i = Ret (peekb toks sts) i' /\ sees i' sts.
Proof.
  intros Hsym (ts & Hr & H2). exists (skip buf i). split; [|exists ts; split; [by apply reads_skip|done]].
  unfold peek. f_equal. inversion Hr as [? Hi Hz|? r e ts' Ht Hr0 Hts]; subst; inversion H2 as [|? st ? sts' Hs Hss]; subst.
  - by rewrite Hz.
  - destruct st as [c|w]; simpl in Hs.
    + destruct Hs as (-> & Hq & _ & Hc0). rewrite Hq. simpl. destruct (Z.eqb_spec c 0); [done|]. done.
    + destruct Hs as (_ & Hq0 & Hq & _). simpl. destruct (has toks (at_ buf (skip buf i))) eqn:E; [|by rewrite andb_false_r].
      by rewrite (has_sub toks _ E Hsym) in Hq.
Qed.
(** What may follow a form: nothing, or one of the symbols. *)
Definition follows (l : list Z) (sts : list stok) : Prop :=
  match sts with [] => True | Sym c :: _ => has l c = true | Word _ :: _ => False end.

Lemma has_In l c : has l c = true <-> In c l.
Proof.
  unfold has. rewrite existsb_exists. split; [by intros (x & Hx & ->%Z.eqb_eq)|]. intros H. exists c. by rewrite Z.eqb_refl.
Qed.

Lemma follows_peek l toks sts : follows l sts -> forallb (fun x => negb (has toks x)) l = true -> peekb toks sts = false.
Proof.
  destruct sts as [|[c|w] sts]; simpl; [done| |done]. intros Hc%has_In Hall. rewrite forallb_forall in Hall.
  specialize (Hall _ Hc). by apply negb_true_iff in Hall.
Qed.

Lemma follows_mono l l' sts : follows l sts -> forallb (has l') l = true -> follows l' sts.
Proof.
  destruct sts as [|[c|w] sts]; simpl; [done| |done]. intros Hc%has_In Hall. rewrite forallb_forall in Hall. by apply Hall.
Qed.

Definition ok (m : M nat cmd) (i : nat) (t : tree) (rest : list stok) : Prop :=
  exists c i', m i = Ret c i' /\ sees i' rest /\ resolves buf c t.

(** Stepping over a peek and over a token. *)
Lemma ok_peek toks (k : bool -> M nat cmd) i sts t rest :
  forallb (has symbols) toks = true -> sees i sts ->
  (forall i', sees i' sts -> ok (k (peekb toks sts)) i' t rest) -> ok (bind (peek buf toks) k) i t rest.
Proof.
  intros Hs Hi Hk. destruct (sees_peek toks i sts) as (i' & E & Hi'); [|done|].
  - intros x Hx%has_In. rewrite forallb_forall in Hs. by apply Hs.
  - destruct (Hk i' Hi') as (c & i2 & E2 & H2). exists c, i2. unfold bind. by rewrite E.
Qed.

Lemma ok_tok (k : Z * nat * nat -> M nat cmd) i st sts t rest :
  sees i (st :: sts) -> (forall x i', spells x st -> sees i' sts -> ok (k x) i' t rest) -> ok (bind (gettoken buf) k) i t rest.
Proof.
  intros Hi Hk. destruct (sees_tok i st sts Hi) as (x & i' & E & Hx & Hi').
  destruct (Hk x i' Hx Hi') as (c & i2 & E2 & H2). exists c, i2. unfold bind. by rewrite E.
Qed.

Lemma ok_bind (m : M nat cmd) (k : cmd -> M nat cmd) i t1 mid t rest :
  ok m i t1 mid -> (forall c i', sees i' mid -> resolves buf c t1 -> ok (k c) i' t rest) -> ok (bind m k) i t rest.
Proof.
  intros (c & i' & E & Hi & Hc) Hk. destruct (Hk c i' Hi Hc) as (c2 & i2 & E2 & H2). exists c2, i2. unfold bind. by rewrite E.
Qed.

Lemma ok_ret c i t rest : sees i rest -> resolves buf c t -> ok (ret c) i t rest.
Proof. intros. by exists c, i. Qed.

(** ** Redirections *)

Definition redirs (t : tree) (rs : list (bool * list Z)) : tree := foldl (fun t r => TRedir t (fst r) (snd r)) t rs.
Definition rtoks (rs : list (bool * list Z)) : list stok := rs ≫= (fun r => redir_toks (fst r) (snd r)).

Lemma parseredirs_ok rs rest fuel c t i :
  peekb [60; 62] rest = false -> sees i (rtoks rs ++ rest) -> resolves buf c t -> (length rs < fuel)%nat ->
  ok (parseredirs buf fuel c) i (redirs t rs) rest.
Proof.
  intros Hp. revert fuel c t i. induction rs as [|[out w] rs IH]; intros [|fuel] c t i Hi Hc Hf; simpl in Hf; try lia;
    cbn [parseredirs].
  - apply ok_peek with rest; [done|done|]. intros i' Hi'. rewrite Hp. by apply ok_ret.
  - change (rtoks ((out, w) :: rs) ++ rest) with (Sym (if out then 62 else 60) :: Word w :: rtoks rs ++ rest) in Hi.
    eapply ok_peek; [done|exact Hi|]. intros i1 H1. cbn [peekb].
    replace (has [60; 62] (if out then 62 else 60)) with true by (by destruct out).
    eapply ok_tok; [exact H1|]. intros [[r1 q1] e1] i2 (Hr1 & _) H2. eapply ok_tok; [exact H2|].
    intros [[r q] e] i3 (Hr & _ & _ & Hw) H3. simpl in Hr1, Hr |- *. subst r r1. simpl.
    destruct out; simpl; apply IH; try done; try lia; by split_and!.
Qed.

Lemma set_argv_resolves c ws0 rs argv ws :
  resolves buf c (redirs (TExec ws0) rs) -> sub buf <$> argv = ws -> resolves buf (set_argv argv c) (redirs (TExec ws) rs).
Proof.
  revert c. induction rs as [|r rs IH] using rev_ind; intros c; [by destruct c|].
  unfold redirs. rewrite !foldl_app. simpl. destruct c; try done. simpl. intros (Hc & Hw & Hm) Ha. split_and!; [by apply IH|done..].
Qed.
(** ** Commands *)

Definition fexec : list Z := [124; 41; 38; 59].
Definition fpipe : list Z := [41; 38; 59].
Definition fline : list Z := [41].

Lemma exec_loop_end fuel argv c i rest t :
  follows fexec rest -> sees i rest -> (0 < fuel)%nat -> resolves buf (set_argv argv c) t ->
  ok (exec_loop buf fuel argv c) i t rest.
Proof.
  intros Hf Hi Hfu Hc. destruct fuel as [|fuel]; [lia|]. cbn [exec_loop]. eapply ok_peek; [done|exact Hi|]. intros i1 H1.
  destruct rest as [|[x|w] rest]; [|rewrite (Hf : peekb [124; 41; 38; 59] (Sym x :: rest) = true); by apply ok_ret|done].
  cbn [peekb]. destruct (sees_end i1 H1) as (q & e & i2 & E & H2). exists (set_argv argv c), i2.
  unfold bind. by rewrite E.
Qed.

Lemma exec_loop_ok ws rs rest fuel argv i :
  follows fexec rest -> sees i ((Word <$> ws) ++ rtoks rs ++ rest) -> ws <> [] ->
  (length argv + length ws < MAXARGS)%nat -> (length ws + length rs < fuel)%nat ->
  ok (exec_loop buf fuel argv (EXEC [])) i (redirs (TExec ((sub buf <$> argv) ++ ws)) rs) rest.
Proof.
  intros Hf. revert fuel argv i. induction ws as [|w ws IH]; intros [|fuel] argv i Hi Hne Hmax Hfu; simpl in Hfu; try lia; [done|].
  cbn [exec_loop]. eapply ok_peek; [done|exact Hi|]. intros i1 H1. cbn [peekb fmap list_fmap app].
  eapply ok_tok; [exact H1|]. intros [[r q] e] i2 (-> & _ & _ & Hw) H2. simpl in Hmax.
  change (97 =? 0) with false. change (negb (97 =? 97)) with false. cbv iota.
  destruct (Nat.leb_spec MAXARGS (length (argv ++ [(q, e)]))) as [Hx|Hx]; rewrite length_app in Hx; simpl in Hx; [lia|].
  assert (Hargs : sub buf <$> (argv ++ [(q, e)]) = (sub buf <$> argv) ++ [w]) by (by rewrite fmap_app; cbn [fmap list_fmap]; rewrite Hw).
  destruct ws as [|w2 ws].
  - eapply ok_bind; [apply (parseredirs_ok rs rest fuel (EXEC []) (TExec [])); [by eapply follows_peek|exact H2|done|simpl in *; lia]|].
    intros c i3 H3 Hc. apply exec_loop_end; [done|done|lia|]. by eapply set_argv_resolves.
  - eapply ok_bind; [apply (parseredirs_ok [] ((Word <$> w2 :: ws) ++ rtoks rs ++ rest) fuel (EXEC []) (TExec [])); [done|exact H2|done|simpl in *; lia]|].
    intros c i3 H3 Hc. simpl in Hc. destruct c as [[|]| | | |]; try done.
    replace ((sub buf <$> argv) ++ w :: w2 :: ws) with ((sub buf <$> (argv ++ [(q, e)])) ++ w2 :: ws) by (by rewrite Hargs, <-app_assoc).
    apply IH; [done|done|rewrite length_app; simpl in *; lia|simpl in *; lia].
Qed.

Lemma parseexec_words ws rs rest fuel i :
  follows fexec rest -> sees i ((Word <$> ws) ++ rtoks rs ++ rest) -> (length ws < MAXARGS)%nat ->
  (length ws + length rs + 1 < fuel)%nat ->
  ok (parseexec buf fuel) i (redirs (TExec ws) rs) rest.
Proof.
  intros Hf Hi Hmax Hfu. destruct fuel as [|fuel]; [lia|]. cbn [parseexec]. eapply ok_peek; [done|exact Hi|]. intros i1 H1.
  assert (Hp : forall toks, forallb (fun x => negb (has toks x)) (60 :: 62 :: fexec) = true -> peekb toks ((Word <$> ws) ++ rtoks rs ++ rest) = false).
  { intros toks Ht. destruct ws; [|done]. destruct rs as [|[[] w] rs]; simpl.
    - eapply follows_peek; [exact Hf|]. by do 2 apply andb_prop in Ht as [_ Ht].
    - simpl in Ht. rewrite !andb_true_iff in Ht. by destruct Ht as (_ & ->%negb_true_iff & _).
    - simpl in Ht. rewrite !andb_true_iff in Ht. by destruct Ht as (->%negb_true_iff & _). }
  rewrite Hp by reflexivity. destruct ws as [|w ws].
  - eapply ok_bind; [apply (parseredirs_ok rs rest fuel (EXEC []) (TExec [])); [by eapply follows_peek|exact H1|done|simpl in *; lia]|].
    intros c i2 H2 Hc. apply exec_loop_end; [done|done|lia|]. by eapply set_argv_resolves.
  - eapply ok_bind; [apply (parseredirs_ok [] ((Word <$> w :: ws) ++ rtoks rs ++ rest) fuel (EXEC []) (TExec [])); [done|exact H1|done|simpl in *; lia]|].
    intros c i3 H3 Hc. simpl in Hc. destruct c as [[|]| | | |]; try done.
    apply (exec_loop_ok (w :: ws) rs rest fuel []); simpl in *; done || lia.
Qed.

(** ** Blocks, pipes and lines, one level from the next *)

Definition A (t : tree) : Prop := forall i rest fuel, follows fline rest -> sees i (raw t ++ rest) ->
  (4 * length (raw t ++ rest) + 4 <= fuel)%nat -> ok (parseline buf fuel) i t rest.
Definition B (t : tree) : Prop := forall i rest fuel, follows fexec rest -> sees i (paren (exec_form t) (raw t) ++ rest) ->
  (4 * length (paren (exec_form t) (raw t) ++ rest) + 2 <= fuel)%nat -> ok (parseexec buf fuel) i t rest.
Definition C (t : tree) : Prop := forall i rest fuel, follows fpipe rest -> sees i (paren (pipe_form t) (raw t) ++ rest) ->
  (4 * length (paren (pipe_form t) (raw t) ++ rest) + 3 <= fuel)%nat -> ok (parsepipe buf fuel) i t rest.

Lemma rtoks_length rs : length (rtoks rs) = (2 * length rs)%nat.
Proof.
  induction rs as [|[out w] rs IH]; [done|].
  change (rtoks ((out, w) :: rs)) with (redir_toks out w ++ rtoks rs). rewrite length_app, IH. simpl. lia.
Qed.

(** A parenthesised line and its redirections. *)
Lemma parseexec_block k rs rest fuel i :
  A k -> follows fexec rest -> sees i (paren false (raw k) ++ rtoks rs ++ rest) ->
  (4 * length (paren false (raw k) ++ rtoks rs ++ rest) + 2 <= fuel)%nat ->
  ok (parseexec buf fuel) i (redirs k rs) rest.
Proof.
  intros Hk Hf Hi Hfu. unfold paren in *. rewrite <-!app_assoc in *. simpl in *.
  destruct fuel as [|[|fuel]]; [lia..|]. cbn [parseexec]. eapply ok_peek; [done|exact Hi|]. intros i1 H1.
  change (peekb [40] (Sym 40 :: raw k ++ Sym 41 :: rtoks rs ++ rest)) with true. cbv iota. cbn [parseblock].
  eapply ok_peek; [done|exact H1|]. intros i2 H2.
  change (negb (peekb [40] (Sym 40 :: raw k ++ Sym 41 :: rtoks rs ++ rest))) with false. cbv iota.
  eapply ok_tok; [exact H2|]. intros _ i3 _ H3. rewrite !length_app in Hfu. simpl in Hfu. rewrite length_app, rtoks_length in Hfu.
  eapply ok_bind; [apply (Hk i3 (Sym 41 :: rtoks rs ++ rest) fuel); [done|exact H3|]|].
  { rewrite length_app. simpl. rewrite length_app, rtoks_length. lia. }
  intros c i4 H4 Hc. eapply ok_peek; [done|exact H4|]. intros i5 H5.
  change (negb (peekb [41] (Sym 41 :: rtoks rs ++ rest))) with false. cbv iota.
  eapply ok_tok; [exact H5|]. intros _ i6 _ H6. apply parseredirs_ok; [by eapply follows_peek|done|done|lia].
Qed.

(** The redirections around a tree, and what they are around. *)
Fixpoint core (t : tree) : tree := match t with TRedir t _ _ => core t | _ => t end.
Fixpoint rlist (t : tree) : list (bool * list Z) := match t with TRedir t o w => rlist t ++ [(o, w)] | _ => [] end.

Lemma redirs_core t : redirs (core t) (rlist t) = t.
Proof.
  induction t as [|t IH o w| | |]; simpl; try done. unfold redirs in *. rewrite foldl_app. simpl. by rewrite IH.
Qed.

Lemma raw_core t : paren (exec_form t) (raw t) = paren (exec_form (core t)) (raw (core t)) ++ rtoks (rlist t).
Proof.
  induction t as [|t IH o w| | |]; simpl; rewrite ?app_nil_r; try done.
  rewrite IH, <-app_assoc. f_equal. unfold rtoks. rewrite bind_app. done.
Qed.

Lemma core_form t : (exists ws, core t = TExec ws) \/ exec_form (core t) = false.
Proof. induction t; simpl; eauto. Qed.

Lemma tree_ok_core t : tree_ok t -> tree_ok (core t).
Proof. induction t; simpl; auto. Qed.

Lemma B_intro t : tree_ok t -> (exec_form (core t) = false -> A (core t)) -> B t.
Proof.
  intros Hok HA i rest fuel Hf Hi Hfu. rewrite raw_core, <-app_assoc in *. rewrite <-(redirs_core t).
  apply tree_ok_core in Hok. destruct (core_form t) as [[ws Hw]|Hform].
  - rewrite Hw in *. simpl in Hok. apply parseexec_words; [done|exact Hi|done|].
    rewrite !length_app, rtoks_length in Hfu. simpl in Hfu. rewrite length_fmap in Hfu. lia.
  - rewrite Hform in *. apply parseexec_block; auto.
Qed.

(** Nothing to pipe into: parsepipe is parseexec. *)
Lemma C_of_B t : (match t with TPipe _ _ => False | _ => True end) -> B t -> C t.
Proof.
  intros Ht HB i rest fuel Hf Hi Hfu.
  assert (Ep : pipe_form t = exec_form t) by (by destruct t). rewrite Ep in *.
  destruct fuel as [|fuel]; [lia|]. cbn [parsepipe].
  eapply ok_bind; [apply (HB i rest fuel); [by eapply follows_mono|done|lia]|].
  intros c i1 H1 Hc. eapply ok_peek; [done|exact H1|]. intros i2 H2.
  rewrite (follows_peek _ [124] _ Hf) by reflexivity. by apply ok_ret.
Qed.

Lemma C_pipe l r : B l -> C r -> C (TPipe l r).
Proof.
  intros Hl Hr i rest fuel Hf Hi Hfu. simpl in *. rewrite <-!app_assoc in *. simpl in *.
  destruct fuel as [|fuel]; [lia|]. cbn [parsepipe]. rewrite length_app in Hfu. simpl in Hfu.
  eapply ok_bind; [apply (Hl i (Sym 124 :: paren (pipe_form r) (raw r) ++ rest) fuel); [done|done|]|].
  { rewrite length_app. simpl. lia. }
  intros c i1 H1 Hc. eapply ok_peek; [done|exact H1|]. intros i2 H2.
  change (peekb [124] (Sym 124 :: paren (pipe_form r) (raw r) ++ rest)) with true. cbv iota.
  eapply ok_tok; [exact H2|]. intros _ i3 _ H3.
  eapply ok_bind; [apply (Hr i3 rest fuel); [done|done|lia]|]. intros c2 i4 H4 Hc2. by apply ok_ret.
Qed.
(** Background marks. *)
Fixpoint bcore (t : tree) : tree := match t with TBack t => bcore t | _ => t end.
Fixpoint bcount (t : tree) : nat := match t with TBack t => S (bcount t) | _ => O end.

Lemma backs_core t : Nat.iter (bcount t) TBack (bcore t) = t.
Proof. induction t; simpl; congruence. Qed.

Lemma raw_bcore t :
  paren (back_form t) (raw t) = paren (pipe_form (bcore t)) (raw (bcore t)) ++ replicate (bcount t) (Sym 38).
Proof.
  induction t as [| | | |t IH]; simpl; rewrite ?app_nil_r; try done.
  rewrite IH, <-app_assoc. f_equal. symmetry. apply replicate_cons_app.
Qed.

Lemma back_loop_ok n fuel c t i rest :
  peekb [38] rest = false -> sees i (replicate n (Sym 38) ++ rest) -> (n < fuel)%nat -> resolves buf c t ->
  ok (back_loop buf fuel c) i (Nat.iter n TBack t) rest.
Proof.
  intros Hp. revert fuel c t i. induction n as [|n IH]; intros [|fuel] c t i Hi Hf Hc; try lia; cbn [back_loop].
  - eapply ok_peek; [done|exact Hi|]. intros i1 H1. simpl app. rewrite Hp. by apply ok_ret.
  - eapply ok_peek; [done|exact Hi|]. intros i1 H1. change (peekb [38] (replicate (S n) (Sym 38) ++ rest)) with true. cbv iota.
    eapply ok_tok; [exact H1|]. intros _ i2 _ H2. rewrite Nat.iter_succ_r. apply IH; [done|lia|done].
Qed.

(** The part of parseline before the semicolon. *)
Lemma line_start t (k : cmd -> M nat cmd) i fuel mid t' rest :
  C (bcore t) -> follows [41; 59] mid -> sees i (paren (back_form t) (raw t) ++ mid) ->
  (4 * length (paren (back_form t) (raw t) ++ mid) + 3 <= fuel)%nat ->
  (forall c i', sees i' mid -> resolves buf c t -> ok (k c) i' t' rest) ->
  ok (let! c := parsepipe buf fuel in let! c := back_loop buf fuel c in k c) i t' rest.
Proof.
  intros HC Hf Hi Hfu Hk. rewrite raw_bcore, <-app_assoc in *. rewrite !length_app, length_replicate in Hfu.
  eapply ok_bind; [apply (HC i (replicate (bcount t) (Sym 38) ++ mid) fuel); [|done|]|].
  - destruct (bcount t); [by eapply follows_mono|done].
  - rewrite !length_app, length_replicate. lia.
  - intros c i1 H1 Hc. eapply ok_bind; [apply (back_loop_ok (bcount t) fuel c (bcore t) i1 mid); [by eapply follows_peek|done|lia|done]|].
    intros c2 i2 H2 Hc2. rewrite backs_core in Hc2. by apply Hk.
Qed.

Lemma A_back t : back_form t = true -> C (bcore t) -> A t.
Proof.
  intros Hb HC i rest fuel Hf Hi Hfu. destruct fuel as [|fuel]; [lia|]. cbn [parseline].
  apply (line_start t _ i fuel rest); [done|by eapply follows_mono|by rewrite Hb|rewrite Hb; simpl; lia|].
  intros c i1 H1 Hc. eapply ok_peek; [done|exact H1|]. intros i2 H2.
  rewrite (follows_peek _ [59] _ Hf) by reflexivity. by apply ok_ret.
Qed.

Lemma A_list l r : C (bcore l) -> A r -> A (TList l r).
Proof.
  intros HC HA i rest fuel Hf Hi Hfu. cbn [raw] in *. rewrite <-!app_assoc in *. destruct fuel as [|fuel]; [lia|]. cbn [parseline].
  apply (line_start l _ i fuel ([Sym 59] ++ raw r ++ rest)); [done|done|exact Hi|lia|].
  intros c i1 H1 Hc. eapply ok_peek; [done|exact H1|]. intros i2 H2.
  change (peekb [59] ([Sym 59] ++ raw r ++ rest)) with true. cbv iota.
  eapply ok_tok; [exact H2|]. intros _ i3 _ H3. rewrite length_app in Hfu. simpl in Hfu.
  eapply ok_bind; [apply (HA i3 rest fuel); [done|done|lia]|]. intros c2 i4 H4 Hc2. by apply ok_ret.
Qed.

(** ** All trees *)

Fixpoint size (t : tree) : nat :=
  match t with
  | TExec _ => 1
  | TRedir t _ _ | TBack t => S (size t)
  | TPipe l r | TList l r => S (size l + size r)
  end.

Lemma size_core t : (size (core t) <= size t)%nat.
Proof. induction t; simpl; lia. Qed.
Lemma size_bcore t : (size (bcore t) <= size t)%nat.
Proof. induction t; simpl; lia. Qed.
Lemma tree_ok_bcore t : tree_ok t -> tree_ok (bcore t).
Proof. induction t; simpl; auto. Qed.

Lemma all_levels n t : (size t <= n)%nat -> tree_ok t -> A t /\ B t /\ C t.
Proof.
  revert t. induction n as [|n IH]; intros t Hn Hok; [destruct t; simpl in Hn; lia|].
  assert (IHB : forall u, (size u <= n)%nat -> tree_ok u -> B u) by (intros; by apply IH).
  assert (IHC : forall u, (size u <= n)%nat -> tree_ok u -> C u) by (intros; by apply IH).
  assert (IHA : forall u, (size u <= n)%nat -> tree_ok u -> A u) by (intros; by apply IH).
  pose proof (size_core t). pose proof (size_bcore t).
  destruct t as [ws|u o w|l r|l r|u]; simpl in Hn, Hok.
  - assert (HB : B (TExec ws)) by (by apply B_intro). assert (HC : C (TExec ws)) by (by apply C_of_B).
    split_and!; [by apply A_back|done|done].
  - assert (HB : B (TRedir u o w)).
    { apply B_intro; [done|]. intros _. simpl. pose proof (size_core u). apply IHA; [lia|by apply tree_ok_core]. }
    assert (HC : C (TRedir u o w)) by (by apply C_of_B). split_and!; [by apply A_back|done|done].
  - destruct Hok as [Hl Hr]. assert (HC : C (TPipe l r)) by (apply C_pipe; [apply IHB|apply IHC]; done || lia).
    assert (HA : A (TPipe l r)) by (by apply A_back). split_and!; [done|apply B_intro; [done|intros _; exact HA]|done].
  - destruct Hok as [Hl Hr]. assert (HA : A (TList l r)).
    { pose proof (size_bcore l). apply A_list; [apply IHC; [lia|by apply tree_ok_bcore]|apply IHA; [lia|done]]. }
    assert (HB : B (TList l r)) by (apply B_intro; [done|intros _; exact HA]). split_and!; [done|done|by apply C_of_B].
  - assert (HA : A (TBack u)).
    { pose proof (size_bcore u). apply A_back; [done|]. simpl. apply IHC; [lia|by apply tree_ok_bcore]. }
    assert (HB : B (TBack u)) by (apply B_intro; [done|intros _; exact HA]). split_and!; [done|done|by apply C_of_B].
Qed.

Lemma parsecmd_tree t :
  Forall (fun c => c <> 0) buf -> tree_ok t -> sees 0 (raw t) -> exists c i, parsecmd buf 0%nat = Ret c i /\ resolves buf c t.
Proof.
  intros Hbuf Hok Hs. destruct (all_levels (size t) t) as (HA & _ & _); [lia|done|].
  assert (Hlen : (length (raw t) <= length buf)%nat).
  { destruct Hs as (ts & Hr & H2). rewrite <-(Forall2_length _ _ _ H2).
    destruct (reads_exists buf Hbuf 0) as (ts' & Hr' & Hl); [lia|]. rewrite (reads_det buf 0 ts ts') by done. lia. }
  destruct (HA 0%nat [] (parse_fuel buf)) as (c & i & E & Hi & Hc); [done|by rewrite app_nil_r|rewrite app_nil_r; unfold parse_fuel; lia|].
  exists c. unfold parsecmd, bind. rewrite E. destruct Hi as (ts & Hr & H2). inversion H2; subst.
  inversion Hr as [? Hi Hz|]; subst. unfold peek, get.
  apply at_zero in Hz; [|done]. pose proof (skip_le buf i Hi). rewrite (proj2 (Nat.eqb_eq _ _)) by lia. by eexists.
Qed.
End parse.

(** ** Reading a spelling back *)

Section spelling.
(** The blanks at the end of the line. *)
Context (tl : list Z) (Htl : Forall (fun c => has whitespace c = true) tl).

Lemma spelling_head sts : spelling sts ++ tl = [] \/ exists c l, spelling sts ++ tl = c :: l /\ has whitespace c = true.
Proof using Htl.
  destruct sts as [|[c|w] sts]; [|right; by eexists 32, _..]. destruct tl as [|c l]; [by left|right].
  exists c, l. by inversion Htl.
Qed.

Lemma blank_char c : has whitespace c = true -> word_char c = false /\ c <> 62.
Proof. intros H. split; [unfold word_char; by rewrite H|]. by intros ->. Qed.

Lemma span_app p l k : Forall (fun c => p c = true) l -> (forall c, head k = Some c -> p c = false) ->
  span p (l ++ k) = length l.
Proof.
  intros Hl Hk. induction Hl as [|c l Hc Hl IH]; simpl; [|by rewrite Hc, IH].
  destruct k as [|c k]; [done|]. simpl. by rewrite (Hk c eq_refl).
Qed.

Lemma span_whole p l : Forall (fun c => p c = true) l -> span p l = length l.
Proof. intros Hl. rewrite <-(app_nil_r l) at 1. by apply span_app. Qed.

Lemma word_not_blank c : word_char c = true -> has whitespace c = false.
Proof. unfold word_char. by intros [?%negb_true_iff _]%andb_prop. Qed.
Lemma sym_not_blank c : has symbols c = true -> has whitespace c = false /\ c <> 97 /\ c <> 0 /\ word_char c = false.
Proof.
  intros H%has_In. simpl in H. by destruct H as [<-|[<-|[<-|[<-|[<-|[<-|[<-|[]]]]]]]].
Qed.

Lemma at_spelled pre l k : at_ (pre ++ l) (length pre + k) = nth k l 0.
Proof. unfold at_. rewrite app_nth2 by lia. f_equal. lia. Qed.

Lemma skip_spelled pre st sts : stok_ok st -> skip (pre ++ spelling (st :: sts) ++ tl) (length pre) = S (length pre).
Proof.
  intros Hok. unfold skip. rewrite drop_app_length.
  assert (Hs : exists c l, spelling (st :: sts) ++ tl = 32 :: c :: l /\ has whitespace c = false).
  { destruct st as [c|w]; simpl in Hok.
    - exists c, (spelling sts ++ tl). split; [done|]. by apply sym_not_blank.
    - destruct Hok as [Hne Hw]. destruct w as [|c w]; [done|]. exists c, (w ++ spelling sts ++ tl). split; [by simpl; rewrite <-app_assoc|].
      inversion Hw as [|? ? [Hc _]]; subst. by apply word_not_blank. }
  destruct Hs as (c & l & -> & Hc).
  change (span (has whitespace) (32 :: c :: l)) with (S (if has whitespace c then S (span (has whitespace) l) else 0%nat)).
  rewrite Hc. lia.
Qed.

Definition spelled (buf : list Z) (pre : list Z) (st : stok) : Prop :=
  exists r e, token_at buf (S (length pre)) = (r, e) /\ r <> 0 /\ spells buf (r, S (length pre), e) st /\
    e = (length pre + length (spell1 st))%nat.

Lemma sym_spelled pre c sts : stok_ok (Sym c) -> spelled (pre ++ spelling (Sym c :: sts) ++ tl) pre (Sym c).
Proof using Htl.
  intros Hok. change (has symbols c = true) in Hok. destruct (sym_not_blank c Hok) as (_ & H97 & H0 & _). set (buf := pre ++ _).
  assert (Hat : at_ buf (S (length pre)) = c) by (rewrite <-Nat.add_1_r; unfold buf; by rewrite at_spelled).
  exists c, (S (S (length pre))). unfold spells. split; [|split_and!; [done|done|done|done|done|simpl; lia]]. unfold token_at. rewrite Hat.
  destruct (Z.eqb_spec c 0); [done|]. destruct (has [124; 40; 41; 59; 38; 60] c) eqn:Es; [done|].
  assert (c = 62) as ->.
  { apply has_In in Hok. simpl in Hok. by destruct Hok as [<-|[<-|[<-|[<-|[<-|[<-|[<-|[]]]]]]]]. }
  replace (at_ buf (S (S (length pre)))) with (nth 2 (spelling (Sym 62 :: sts) ++ tl) 0)
    by (unfold buf; rewrite <-(at_spelled pre); f_equal; lia).
  simpl. destruct (spelling_head sts) as [->|(c & l & -> & Hc)]; [done|]. simpl.
  destruct (Z.eqb_spec c 62); [|done]. by destruct (blank_char c Hc).
Qed.

Lemma word_spelled pre w sts : stok_ok (Word w) -> spelled (pre ++ spelling (Word w :: sts) ++ tl) pre (Word w).
Proof using Htl.
  intros [Hne Hw]. destruct w as [|x w]; [done|]. inversion Hw as [|? ? [Hx Hx0] Hw']; subst. set (buf := pre ++ _).
  assert (Hat : at_ buf (S (length pre)) = x) by (rewrite <-Nat.add_1_r; unfold buf; by rewrite at_spelled).
  assert (Hd : drop (S (length pre)) buf = (x :: w) ++ spelling sts ++ tl).
  { unfold buf. rewrite <-Nat.add_1_r, drop_app_add. simpl. by rewrite <-app_assoc. }
  assert (Hsp : span word_char (drop (S (length pre)) buf) = length (x :: w)).
  { rewrite Hd. apply span_app; [eapply Forall_impl; [exact Hw|]; by intros ? []|].
    destruct (spelling_head sts) as [->|(c & l & -> & Hc)]; [done|]. intros ? [= <-]. by apply blank_char. }
  exists 97, (S (length pre) + length (x :: w))%nat. unfold spells. split_and!; [|done|done|by rewrite Hat|by rewrite Hat| |simpl; lia].
  - unfold token_at. rewrite Hat, Hsp. destruct (Z.eqb_spec x 0); [done|].
    assert (Hns : has symbols x = false) by (unfold word_char in Hx; by apply andb_prop in Hx as [_ ?%negb_true_iff]).
    unfold has, symbols in Hns. simpl in Hns. rewrite !orb_false_iff in Hns. destruct Hns as (E1 & E2 & E3 & E4 & E5 & E6 & E7 & _).
    unfold has. simpl. by rewrite E1, E2, E3, E4, E5, E6, E7.
  - unfold sub. cbn [fst snd]. rewrite Hd. rewrite Nat.add_comm, Nat.add_sub. apply take_app_length.
Qed.

Lemma token_spelled pre st sts : stok_ok st -> spelled (pre ++ spelling (st :: sts) ++ tl) pre st.
Proof using Htl. destruct st; [apply sym_spelled|apply word_spelled]. Qed.

Lemma sees_spelling pre sts : Forall stok_ok sts -> sees (pre ++ spelling sts ++ tl) (length pre) sts.
Proof using Htl.
  intros Hok. revert pre. induction Hok as [|st sts Hst Hsts IH]; intros pre.
  - exists []. split; [|done]. unfold spelling. simpl. constructor; [rewrite length_app; lia|].
    unfold skip. rewrite drop_app_length, (span_whole _ tl Htl). apply at_end. rewrite length_app. lia.
  - destruct (token_spelled pre st sts Hst) as (r & e & Ht & Hr & Hsp & He).
    pose proof (skip_spelled pre st sts Hst) as Hskip.
    specialize (IH (pre ++ spell1 st)). rewrite <-app_assoc, (app_assoc (spell1 st)) in IH. change (spell1 st ++ spelling sts) with (spelling (st :: sts)) in IH.
    rewrite length_app, <-He in IH. destruct IH as (ts & Hts & H2). exists ((r, S (length pre), e) :: ts). split; [|by constructor].
    rewrite <-Hskip. constructor; [by rewrite Hskip|done|by apply reads_skip].
Qed.
End spelling.

(** Every word of the tree is one. *)
Fixpoint tree_words (t : tree) : list (list Z) :=
  match t with
  | TExec ws => ws
  | TRedir t _ w => tree_words t ++ [w]
  | TPipe l r | TList l r => tree_words l ++ tree_words r
  | TBack t => tree_words t
  end.

Lemma raw_ok t : Forall (fun w => stok_ok (Word w)) (tree_words t) -> Forall stok_ok (raw t).
Proof.
  assert (Hp : forall b l, Forall stok_ok l -> Forall stok_ok (paren b l)).
  { intros [] l Hl; [done|]. unfold paren. rewrite !Forall_app. split_and!; [by constructor|done|by constructor]. }
  induction t as [ws|t IH o w|l IHl r IHr|l IHl r IHr|t IH]; cbn [tree_words raw]; rewrite ?Forall_app.
  - intros H. by apply Forall_fmap.
  - intros [Ht Hw]. split; [auto|]. inversion Hw; subst. constructor; [by destruct o|by constructor].
  - intros [Hl Hr]. split_and!; [auto|by constructor|auto].
  - intros [Hl Hr]. split_and!; [auto|by constructor|auto].
  - intros Ht. split; [auto|by constructor].
Qed.

Lemma spelling_nonzero sts : Forall stok_ok sts -> Forall (fun c => c <> 0) (spelling sts).
Proof.
  induction 1 as [|st sts Hst Hsts IH]; [constructor|]. change (spelling (st :: sts)) with (spell1 st ++ spelling sts).
  apply Forall_app. split; [|done]. destruct st as [c|w]; simpl in *.
  - constructor; [done|]. apply Forall_singleton. by apply sym_not_blank.
  - constructor; [done|]. destruct Hst as [_ Hw]. eapply Forall_impl; [exact Hw|]. by intros ? [].
Qed.

(** C24: the shell understands every command tree.  Writing a tree with at most
    nine words to a command, with parentheses where the grammar needs them,
    and parsing the line gives a command with the same structure, the same
    words and the same redirections. *)
Theorem shell_parse_print (t : tree) :
  tree_ok t -> Forall (fun w => stok_ok (Word w)) (tree_words t) ->
  exists c i, parsecmd (print t) 0%nat = Ret c i /\ resolves (print t) c t.
Proof.
  intros Hok Hw%raw_ok. apply parsecmd_tree; [by apply spelling_nonzero|done|].
  pose proof (sees_spelling [] (Forall_nil_2 _) [] (raw t) Hw) as Hs. by rewrite app_nil_r in Hs.
Qed.

Definition demo_tree : tree :=
  TList (TBack (TPipe (TRedir (TExec [[97]; [98]]) false [102]) (TBack (TExec [[99]])))) (TRedir (TList (TExec []) (TExec [[100]])) true [103]).

Lemma shell_parse_print_witness :
  exists c i, parsecmd (print demo_tree) 0%nat = Ret c i /\ resolves (print demo_tree) c demo_tree.
Proof.
  apply (shell_parse_print demo_tree).
  - vm_compute. lia.
  - repeat constructor; done.
Defined.
