(* ===== verification/ShRun.v ===== *)
(** * sh.c: running commands

    The shell's processes as programs of system calls, and what becomes of
    them on descriptor tables where open and dup take the lowest free
    descriptor.  Every command of a line typed to the shell is executed with
    exactly the descriptors its place in the line calls for. *)

From S2P Require Import Prelude Printf Sh ShProps ShPrint.

(** ** Programs *)

(** What they print. *)
Inductive msg : Type :=
| MExecFailed (name : list Z)
| MOpenFailed (name : list Z)
| MPanic (s : string)
| MPrompt
| MCannotCd (dir : list Z)
| MInit (s : string)
| MInitExecFailed (name : list Z).

(** A program up to its exit; [PExec] goes on only if the exec fails. *)
Inductive prog : Type :=
| PExit
| PExec (argv : list (list Z)) (k : prog)
| PClose (fd : Z) (k : prog)
| PDup (fd : Z) (k : Z -> prog)
| POpen (file : list Z) (mode : Z) (k : Z -> prog)
| PPipe (k : option (Z * Z) -> prog)
| PFork (k : Z -> prog)
| PWait (k : Z -> prog)
| PPrint (fd : Z) (m : msg) (k : prog)
| PGets (k : list Z -> prog)
| PChdir (dir : list Z) (k : Z -> prog)
| PMknod (file : list Z) (major minor : Z) (k : prog).

(** [panic] prints and exits. *)
Definition sh_panic (s : string) : prog := PPrint 2 (MPanic s) PExit.
Definition fork1 (k : Z -> prog) : prog := PFork (fun pid => if pid =? -1 then sh_panic "fork" else k pid).

Section runcmd.
(** The line after nulterminate: the words are C strings in it. *)
Context (mem : list Z).

(** The end of every case is the exit that follows the switch. *)
Fixpoint runcmd (c : cmd) : prog :=
  match c with
  | EXEC [] => PExit
  | EXEC (w :: ws) =>
      PExec ((fun w => cstring mem (fst w)) <$> (w :: ws)) (PPrint 2 (MExecFailed (cstring mem (fst w))) PExit)
  | REDIR c file _ mode fd =>
      PClose fd (POpen (cstring mem file) mode (fun r =>
        if r <? 0 then PPrint 2 (MOpenFailed (cstring mem file)) PExit else runcmd c))
  | LIST l r =>
      fork1 (fun pid => if pid =? 0 then runcmd l else PWait (fun _ => runcmd r))
  | PIPE l r =>
      PPipe (fun p =>
        match p with
        | None => sh_panic "pipe"
        | Some (p0, p1) =>
            fork1 (fun pid =>
              if pid =? 0 then PClose 1 (PDup p1 (fun _ => PClose p0 (PClose p1 (runcmd l))))
              else fork1 (fun pid =>
                if pid =? 0 then PClose 0 (PDup p0 (fun _ => PClose p0 (PClose p1 (runcmd r))))
                else PClose p0 (PClose p1 (PWait (fun _ => PWait (fun _ => PExit))))))
        end)
  | BACK c => fork1 (fun pid => if pid =? 0 then runcmd c else PExit)
  end.
End runcmd.

(** What the child of main does with a line; on a syntax error parsecmd
    panics (the text it prints before of what it could not parse is left out). *)
Definition run_line (line : list Z) : prog :=
  match parsecmd line 0%nat with
  | Ret c _ => runcmd (nulterminate c (line ++ [0])) c
  | Panic s _ => sh_panic s
  | _ => PExit
  end.

Definition console_path : list Z := [99; 111; 110; 115; 111; 108; 101].
Definition O_RDWR : Z := 2.

(** [while((fd = open("console", O_RDWR)) >= 0)], at most [fuel] times. *)
Fixpoint open_consoles (fuel : nat) (k : prog) : prog :=
  match fuel with
  | O => k
  | S fuel => POpen console_path O_RDWR (fun fd =>
      if 0 <=? fd then if 3 <=? fd then PClose fd k else open_consoles fuel k else k)
  end.

(** [getcmd] and the loop of main, for at most [fuel] lines: the prompt, a
    line of at most 99 bytes, cd or a child. *)
Definition is_cd (line : list Z) : bool := match line with 99 :: 100 :: 32 :: _ => true | _ => false end.
Fixpoint sh_loop (fuel : nat) : prog :=
  match fuel with
  | O => PExit
  | S fuel =>
      PPrint 2 MPrompt (PGets (fun inp =>
        let line := cstring (gets 100 inp) 0 in
        match line with
        | [] => PExit
        | _ =>
            if is_cd line then
              let dir := drop 3 (take (length line - 1) line) in
              PChdir dir (fun r => if r <? 0 then PPrint 2 (MCannotCd dir) (sh_loop fuel) else sh_loop fuel)
            else fork1 (fun pid => if pid =? 0 then run_line line else PWait (fun _ => sh_loop fuel))
        end))
  end.
Definition sh_main (fuel : nat) : prog := open_consoles 4 (sh_loop fuel).

(** ** init.c *)

Definition sh_name : list Z := [115; 104].
Definition fsck_name : list Z := [102; 115; 99; 107].
Definition pbjd_name : list Z := [112; 98; 106; 100].

(** The fork of main that executes a program in the child. *)
Definition init_fork (name : list Z) (k : Z -> prog) : prog :=
  PFork (fun pid =>
    if pid <? 0 then PPrint 1 (MInit "init: fork failed") PExit
    else if pid =? 0 then PExec [name] (PPrint 1 (MInitExecFailed name) PExit)
    else k pid).

(** [while((wpid=wait()) >= 0 && wpid != pid)], at most [fuel] times. *)
Fixpoint init_reap (fuel : nat) (pid : Z) (k : prog) : prog :=
  match fuel with
  | O => PExit
  | S fuel => PWait (fun wpid =>
      if (0 <=? wpid) && negb (wpid =? pid) then PPrint 1 (MInit "zombie!") (init_reap fuel pid k) else k)
  end.

(** The endless loop, for [rounds] shells of at most [fuel] waits each. *)
Fixpoint init_loop (rounds fuel : nat) : prog :=
  match rounds with
  | O => PExit
  | S rounds => PPrint 1 (MInit "init: starting sh") (init_fork sh_name (fun pid => init_reap fuel pid (init_loop rounds fuel)))
  end.

Definition init_main (rounds fuel : nat) : prog :=
  PPrint 1 (MInit "init: running fsck") (init_fork fsck_name (fun _ => PWait (fun _ =>
    let rest :=
      PDup 0 (fun _ => PDup 0 (fun _ =>
        PPrint 1 (MInit "init: starting pbjd") (init_fork pbjd_name (fun _ => init_loop rounds fuel)))) in
    POpen console_path O_RDWR (fun r =>
      if r <? 0 then PMknod console_path 1 1 (POpen console_path O_RDWR (fun _ => rest)) else rest)))).

(** ** Processes *)

(** What a descriptor refers to: a file open since before, one opened for a
    redirection, an end of a pipe.  A pipe is named by the process that made
    it and its number there. *)
Inductive obj : Type :=
| OInherited (n : nat)
| OFile (file : list Z) (mode : Z)
| OPipeR (id : list nat * nat)
| OPipeW (id : list nat * nat).

Definition NOFILE : nat := 16.
Definition fdtable : Type := list (option obj).

Fixpoint lowest (t : fdtable) : option nat :=
  match t with
  | [] => None
  | None :: _ => Some 0%nat
  | Some _ :: t => S <$> lowest t
  end.

(** A process: its descriptors, its name (which child of which), how many
    pipes it has made, children it has and waits it has done, and the device
    files it has made. *)
Record pstate : Type := PState { fds : fdtable; path : list nat; npipes : nat; nkids : nat; nwaits : nat; made : list (list Z) }.
Definition start (t : fdtable) (pth : list nat) : pstate := PState t pth 0 0 0 [].
Definition set_fds x s := PState x (path s) (npipes s) (nkids s) (nwaits s) (made s).

Definition do_close (fd : Z) (t : fdtable) : fdtable := <[Z.to_nat fd := None]> t.
Definition do_alloc (o : obj) (t : fdtable) : Z * fdtable :=
  match lowest t with Some i => (Z.of_nat i, <[i := Some o]> t) | None => (-1, t) end.

(** What a process does that others can see. *)
Inductive ev : Type :=
| Exec (argv : list (list Z)) (t : fdtable)
| Spawn (child : list ev)
| Wait (t : fdtable)
| Printed (fd : Z) (m : msg).

Section os.
(** Which programs can be executed, which files opened and which directories
    entered; what there is to read at each line the shell asks for; and which
    child (by its number) each wait of a process reports. *)
Context (execs : list (list Z) -> bool) (opens : list Z -> Z -> bool) (chdirs : list Z -> bool).
Context (input : nat -> list Z) (waits : list nat -> nat -> nat).

(** Forks and pipes succeed; a process knows its children by the pids 1, 2, ... *)
Fixpoint run (p : prog) (n : nat) (s : pstate) : list ev :=
  match p with
  | PExit => []
  | PExec argv k => if execs argv then [Exec argv (fds s)] else run k n s
  | PClose fd k => run k n (set_fds (do_close fd (fds s)) s)
  | PDup fd k =>
      match fds s !! Z.to_nat fd with
      | Some (Some o) => let '(r, t) := do_alloc o (fds s) in run (k r) n (set_fds t s)
      | _ => run (k (-1)) n s
      end
  | POpen file mode k =>
      if opens file mode || bool_decide (file ∈ made s) then let '(r, t) := do_alloc (OFile file mode) (fds s) in run (k r) n (set_fds t s)
      else run (k (-1)) n s
  | PPipe k =>
      let id := (path s, npipes s) in
      let '(r, t) := do_alloc (OPipeR id) (fds s) in
      let '(w, t) := do_alloc (OPipeW id) t in
      run (k (Some (r, w))) n (PState t (path s) (S (npipes s)) (nkids s) (nwaits s) (made s))
  | PFork k =>
      Spawn (run (k 0) n (PState (fds s) (nkids s :: path s) 0 0 0 (made s))) ::
      run (k (Z.of_nat (S (nkids s)))) n (PState (fds s) (path s) (npipes s) (S (nkids s)) (nwaits s) (made s))
  | PWait k =>
      Wait (fds s) :: run (k (Z.of_nat (S (waits (path s) (nwaits s))))) n
        (PState (fds s) (path s) (npipes s) (nkids s) (S (nwaits s)) (made s))
  | PPrint fd m k => Printed fd m :: run k n s
  | PGets k => run (k (input n)) (S n) s
  | PChdir dir k => run (k (if chdirs dir then 0 else -1)) n s
  | PMknod file _ _ k => run k n (PState (fds s) (path s) (npipes s) (nkids s) (nwaits s) (file :: made s))
  end.

(** ** What a command tree means *)

(** Standard input, output and error, and nothing else. *)
Definition table (i o e : obj) : fdtable := [Some i; Some o; Some e] ++ replicate 13 None.

Fixpoint wired (t : tree) (i o e : obj) (pth : list nat) (np nk : nat) : list ev :=
  match t with
  | TExec [] => []
  | TExec (w :: ws) => if execs (w :: ws) then [Exec (w :: ws) (table i o e)] else [Printed 2 (MExecFailed w)]
  | TRedir t out w =>
      let mode := if out then O_WRONLY_CREATE else O_RDONLY in
      if opens w mode then
        if out then wired t i (OFile w mode) e pth np nk else wired t (OFile w mode) o e pth np nk
      else [Printed 2 (MOpenFailed w)]
  | TPipe l r =>
      let id := (pth, np) in
      [Spawn (wired l i (OPipeW id) e (nk :: pth) 0 0); Spawn (wired r (OPipeR id) o e (S nk :: pth) 0 0);
       Wait (table i o e); Wait (table i o e)]
  | TList l r => Spawn (wired l i o e (nk :: pth) 0 0) :: Wait (table i o e) :: wired r i o e pth np (S nk)
  | TBack t => [Spawn (wired t i o e (nk :: pth) 0 0)]
  end.
End os.

(** ** Running a parsed command *)

Section running.
Context (execs : list (list Z) -> bool) (opens : list Z -> Z -> bool) (chdirs : list Z -> bool).
Context (input : nat -> list Z) (waits : list nat -> nat -> nat).

Lemma run_tree mem buf c t :
  resolves buf c t -> (forall q e, (q, e) ∈ words_of c -> cstring mem q = sub buf (q, e)) ->
  forall i o e pth np nk nw n,
  run execs opens chdirs input waits (runcmd mem c) n (PState (table i o e) pth np nk nw []) = wired execs opens t i o e pth np nk.
Proof.
  revert t. induction c as [argv|c IH q eq m fd|l IHl r IHr|l IHl r IHr|c IH]; intros t Ht Hw i o e pth np nk nw n; destruct t as [ws|t out w|l' r'|l' r'|t]; try done.
  - cbn [resolves] in Ht. subst ws. destruct argv as [|[q e'] argv]; [done|].
    assert (E : (fun w => cstring mem (fst w)) <$> (q, e') :: argv = sub buf <$> (q, e') :: argv).
    { apply list_fmap_ext. intros k [q2 e2] Hk%list_elem_of_lookup_2. by apply Hw. }
    cbn [runcmd run wired]. rewrite E. cbn [fmap list_fmap]. case_match; [done|]. simpl. do 3 f_equal.
    apply Hw. constructor.
  - destruct Ht as (Ht & <- & Hm). cbn [runcmd run wired made]. rewrite bool_decide_eq_false_2 by (by intros ?%not_elem_of_nil).
    rewrite orb_false_r, (Hw q eq) by (simpl; set_solver).
    specialize (IH t Ht ltac:(intros q' e' Hin; apply Hw; simpl; set_solver)).
    destruct out; injection Hm as -> ->; case_match; try done; exact (IH _ _ _ _ _ _ _ _).
  - destruct Ht as [Hl Hr]. specialize (IHl l' Hl ltac:(intros q' e' Hin; apply Hw; simpl; set_solver)).
    specialize (IHr r' Hr ltac:(intros q' e' Hin; apply Hw; simpl; set_solver)).
    cbn [wired]. by rewrite <-(IHl _ _ _ _ _ _ 0%nat n), <-(IHr _ _ _ _ _ _ 0%nat n).
  - destruct Ht as [Hl Hr]. specialize (IHl l' Hl ltac:(intros q' e' Hin; apply Hw; simpl; set_solver)).
    specialize (IHr r' Hr ltac:(intros q' e' Hin; apply Hw; simpl; set_solver)).
    cbn [wired]. by rewrite <-(IHl _ _ _ _ _ _ 0%nat n), <-(IHr _ _ _ _ _ _ (S nw) n).
  - cbn [wired]. by rewrite <-(IH t Ht Hw _ _ _ _ _ _ 0%nat n).
Qed.

(** ** From the line typed to the processes *)

Lemma run_line_tree t :
  tree_ok t -> Forall (fun w => stok_ok (Word w)) (tree_words t) -> forall i o e pth np nk nw n,
  run execs opens chdirs input waits (run_line (print t ++ [10])) n (PState (table i o e) pth np nk nw []) =
  wired execs opens t i o e pth np nk.
Proof.
  intros Hok Hw%raw_ok i o e pth np nk nw n. set (line := print t ++ [10]).
  assert (Hnz : Forall (fun c => c <> 0) line) by (apply Forall_app; split; [by apply spelling_nonzero|by repeat constructor]).
  destruct (parsecmd_tree line t Hnz Hok) as (c & j & E & Hc).
  { apply (sees_spelling [10] ltac:(by repeat constructor) [] (raw t) Hw). }
  pose proof (parsecmd_good line Hnz) as Hg. unfold run_line. rewrite E in Hg |- *. destruct Hg as [_ Hg].
  apply (run_tree _ line); [done|]. intros q e'. by apply word_cut.
Qed.

Lemma gets_line l n : Forall (fun c => has whitespace c = false \/ c = 32) l -> (length l < n)%nat -> gets_loop n (l ++ [10]) = l ++ [10].
Proof.
  revert n. induction l as [|c l IH]; intros [|n] Hl Hn; simpl in Hn; try lia; [done|]. inversion Hl as [|? ? Hc Hl']; subst.
  cbn [app gets_loop]. rewrite IH by (done || lia).
  destruct (Z.eqb_spec c 10) as [->|]; [by destruct Hc|]. destruct (Z.eqb_spec c 13) as [->|]; [by destruct Hc|]. done.
Qed.

Lemma spelling_chars sts : Forall stok_ok sts -> Forall (fun c => has whitespace c = false \/ c = 32) (spelling sts).
Proof.
  induction 1 as [|st sts Hst Hsts IH]; [constructor|]. change (spelling (st :: sts)) with (spell1 st ++ spelling sts).
  apply Forall_app. split; [|done]. destruct st as [c|w]; simpl in *; (constructor; [by right|]).
  - apply Forall_singleton. left. by apply sym_not_blank.
  - destruct Hst as [_ Hw]. eapply Forall_impl; [exact Hw|]. intros c [Hc _]. left. by apply word_not_blank.
Qed.

Lemma cstring_whole l : Forall (fun c => c <> 0) l -> cstring (l ++ [0]) 0 = l.
Proof.
  intros Hl. unfold cstring. rewrite drop_0, span_app, take_app_length; [done| |by intros ? [= <-]].
  eapply Forall_impl; [exact Hl|]. intros c Hc. by apply negb_true_iff, Z.eqb_neq.
Qed.

(** A line the shell can take: words that are words, at most nine of them to
    a command, and no more than 98 bytes before the newline. *)
Definition typable (t : tree) : Prop :=
  tree_ok t /\ Forall (fun w => stok_ok (Word w)) (tree_words t) /\ (length (print t) < 99)%nat.

Lemma getcmd_typed t : typable t -> cstring (gets 100 (print t ++ [10])) 0 = print t ++ [10].
Proof.
  intros (_ & Hw%raw_ok & Hl). unfold gets. change (Z.to_nat (100 - 1)) with 99%nat. rewrite gets_line; [|by apply spelling_chars|done]. apply cstring_whole, Forall_app.
  split; [by apply spelling_nonzero|by repeat constructor].
Qed.

Lemma print_not_cd t : exists c l, print t ++ [10] = c :: l /\ c <> 99.
Proof. unfold print. destruct (raw t) as [|[c|w] sts]; by eexists _, _. Qed.

(** What the shell does in a session: for each line the prompt, a child that
    runs it, and the wait for that child. *)
Fixpoint session (ts : list tree) (i o e : obj) (pth : list nat) (nk : nat) : list ev :=
  Printed 2 MPrompt ::
  match ts with
  | [] => []
  | t :: ts => Spawn (wired execs opens t i o e (nk :: pth) 0 0) :: Wait (table i o e) :: session ts i o e pth (S nk)
  end.

Lemma sh_loop_session ts i o e pth n nk nw :
  Forall typable ts -> (forall k, input (n + k)%nat = match ts !! k with Some t => print t ++ [10] | None => [] end) ->
  run execs opens chdirs input waits (sh_loop (S (length ts))) n (PState (table i o e) pth 0 nk nw []) = session ts i o e pth nk.
Proof.
  intros Hts. revert n nk nw. induction Hts as [|t ts Ht Hts IH]; intros n nk nw Hin; pose proof (Hin 0%nat) as H0; rewrite Nat.add_0_r in H0;
    cbn [length sh_loop run session lookup list_lookup] in H0 |- *; rewrite H0; [done|].
  rewrite getcmd_typed by done. destruct (print_not_cd t) as (c & l & E & Hc). destruct Ht as (Hok & Hw & _).
  rewrite E. replace (is_cd (c :: l)) with false by (unfold is_cd; repeat case_match; congruence). rewrite <-E.
  cbn [fork1 run]. rewrite <-(run_line_tree t Hok Hw _ _ _ _ _ _ 0%nat (S n)), <-(IH (S n) (S nk) (S nw)); [done|].
  intros k. pose proof (Hin (S k)) as Hk. by rewrite Nat.add_succ_r in Hk.
Qed.
End running.

(** C23: the shell wires up the processes of every line.  Started with its three
    standard descriptors and given lines that spell command trees, the shell
    prompts, runs each line in a child and waits for it; every command of a
    tree is executed with the words it was written with and on exactly the
    descriptors its place in the tree calls for: a redirected standard input
    or output is the file, the two sides of a pipe share its write and its
    read end, nothing else is open, no pipe end leaks into a command or stays
    open in the process that waits; and a command whose redirection fails is
    not run. *)
Theorem shell_session execs opens chdirs waits ts i o e pth :
  Forall typable ts ->
  run execs opens chdirs (fun n => match ts !! n with Some t => print t ++ [10] | None => [] end) waits
    (sh_main (S (length ts))) 0 (start (table i o e) pth) = session execs opens ts i o e pth 0.
Proof.
  intros Hts. set (input := fun n : nat => _).
  rewrite <-(sh_loop_session execs opens chdirs input waits ts i o e pth 0 0 0 Hts (fun k => eq_refl)).
  unfold sh_main. cbn [open_consoles run start made]. rewrite bool_decide_eq_false_2 by (by intros ?%not_elem_of_nil).
  by destruct (opens console_path O_RDWR).
Qed.

(** init gives every shell it starts the console as its standard input, output
    and error and nothing else, whether or not the console's device file was
    there: the state [shell_session] starts the shell in. *)
Lemma init_starts_shell execs opens chdirs input waits rounds fuel :
  (forall argv, execs argv = true) ->
  let none := replicate NOFILE None in
  let console := OFile console_path O_RDWR in
  let std := table console console console in
  exists rest,
    run execs opens chdirs input waits (init_main (S rounds) fuel) 0 (start none []) =
    [Printed 1 (MInit "init: running fsck"); Spawn [Exec [fsck_name] none]; Wait none;
     Printed 1 (MInit "init: starting pbjd"); Spawn [Exec [pbjd_name] std];
     Printed 1 (MInit "init: starting sh"); Spawn [Exec [sh_name] std]] ++ rest.
Proof.
  intros Hx none console std. unfold init_main. simpl. rewrite !Hx. destruct (opens console_path O_RDWR); by eexists.
Qed.

(** [a <f | b >g] and [c &], where [g] cannot be opened. *)
Definition session_demo : list tree :=
  [TPipe (TRedir (TExec [[97]; [120]]) false [102]) (TRedir (TExec [[98]]) true [103]); TBack (TExec [[99]])].

Lemma shell_session_witness :
  run (fun _ => true) (fun f _ => bool_decide (f <> [103])) (fun _ => true)
    (fun n => match session_demo !! n with Some t => print t ++ [10] | None => [] end) (fun _ n => n)
    (sh_main 3) 0 (start (table (OInherited 0) (OInherited 1) (OInherited 2)) []) =
  [Printed 2 MPrompt;
   Spawn [Spawn [Exec [[97]; [120]] (table (OFile [102] O_RDONLY) (OPipeW ([0%nat], 0%nat)) (OInherited 2))]; Spawn [Printed 2 (MOpenFailed [103])];
          Wait (table (OInherited 0) (OInherited 1) (OInherited 2)); Wait (table (OInherited 0) (OInherited 1) (OInherited 2))];
   Wait (table (OInherited 0) (OInherited 1) (OInherited 2)); Printed 2 MPrompt;
   Spawn [Spawn [Exec [[99]] (table (OInherited 0) (OInherited 1) (OInherited 2))]];
   Wait (table (OInherited 0) (OInherited 1) (OInherited 2)); Printed 2 MPrompt].
Proof.
  etrans; [apply (shell_session (fun _ => true) (fun f _ => bool_decide (f <> [103])) (fun _ => true) (fun _ n => n) session_demo)|reflexivity].
  repeat constructor; done || (vm_compute; lia).
Defined.
