(* ===== verification/UserProgs.v ===== *)
(** * The small user programs

    wc.c, cat.c, echo.c, ls.c, grep.c (main), rm.c, mkdir.c, ln.c and kill.c: what
    they print and which system calls they make.  A descriptor is the list of
    what its reads return, [None] for an error; an empty read is the end of
    the file.  Arguments are given without [argv[0]]. *)

From S2P Require Import Prelude CString Layout Grep Printf Ulib.

Definition bytes (s : string) : list Z := (fun a => Z.of_nat (Ascii.nat_of_ascii a)) <$> String.list_ascii_of_string s.
Definition reads : Type := list (option (list Z)).

(** [printf(fd, fmt, s)] and the like, of strings that are at no null address. *)
Definition printf_s (fmt : list Z) (s : list Z) : list Z := printf (fun _ => s) (fun _ => 1) fmt.

(** ** cat.c *)

(** The bytes written, and whether cat returned; it exits on a read error. *)
Fixpoint cat (fd : reads) : list Z * bool :=
  match fd with
  | [] | Some [] :: _ => ([], true)
  | Some chunk :: fd => let '(out, ok) := cat fd in (chunk ++ out, ok)
  | None :: _ => (bytes "cat: read error" ++ [10], false)
  end.

(** The loop of main over the files, which stops at the first that cannot be
    opened. *)
Fixpoint over_files (open : list Z -> option reads) (f : reads -> list Z -> list Z * bool) (files : list (list Z)) : list Z :=
  match files with
  | [] => []
  | name :: files =>
      match open name with
      | None => printf_s (bytes "cat: cannot open %s" ++ [10]) name
      | Some fd => let '(out, ok) := f fd name in out ++ (if ok then over_files open f files else [])
      end
  end.
Definition cat_main (stdin : reads) (open : list Z -> option reads) (args : list (list Z)) : list Z :=
  match args with [] => fst (cat stdin) | _ => over_files open (fun fd _ => cat fd) args end.

(** ** wc.c *)

Record wc_st : Type := WC { wc_l : Z; wc_w : Z; wc_c : Z; inword : bool }.
Definition blanks : list Z := [32; 13; 9; 10; 11].

(** The body of the loop over the buffer. *)
Definition wc_byte (s : wc_st) (b : Z) : wc_st :=
  let l := if b =? 10 then s32 (wc_l s + 1) else wc_l s in
  let c := s32 (wc_c s + 1) in
  match strchr blanks b with
  | Some _ => WC l (wc_w s) c false
  | None => if inword s then WC l (wc_w s) c true else WC l (s32 (wc_w s + 1)) c true
  end.

(** The line wc prints. *)
Definition wc_line (l w c : Z) (name : list Z) : list Z :=
  printf (fun _ => name) (fun n => nth n [l; w; c] 1) (bytes "%d %d %d %s" ++ [10]).

Fixpoint wc_loop (fd : reads) (s : wc_st) (name : list Z) : list Z * bool :=
  match fd with
  | [] | Some [] :: _ => (wc_line (wc_l s) (wc_w s) (wc_c s) name, true)
  | Some chunk :: fd => wc_loop fd (foldl wc_byte s chunk) name
  | None :: _ => (bytes "wc: read error" ++ [10], false)
  end.
Definition wc (fd : reads) (name : list Z) : list Z * bool := wc_loop fd (WC 0 0 0 false) name.
Definition wc_main (stdin : reads) (open : list Z -> option reads) (args : list (list Z)) : list Z :=
  match args with [] => fst (wc stdin []) | _ => over_files open wc args end.

(** ** echo.c, ls.c *)

Fixpoint echo (args : list (list Z)) : list Z :=
  match args with
  | [] => []
  | a :: args => a ++ (match args with [] => [10] | _ => [32] end) ++ echo args
  end.

Definition DIRSIZ : nat := 14.

(** The scan back from the end of the path for a slash, over the reversed path. *)
Fixpoint after_slash (rpath : list Z) : list Z :=
  match rpath with
  | [] => []
  | c :: rpath => if c =? 47 then [] else after_slash rpath ++ [c]
  end.
Definition fmtname (path : list Z) : list Z :=
  let p := after_slash (rev path) in
  if (DIRSIZ <=? length p)%nat then p else p ++ replicate (DIRSIZ - length p) 32.

(** What fstat fills in. *)
Record stat : Type := Stat { st_dev : Z; st_ino : Z; st_type : Z; st_nlink : Z; st_size : Z }.
Definition T_DIR : Z := 1.
Definition T_FILE : Z := 2.

(** The line for one file. *)
Definition ls_line (name : list Z) (st : stat) : list Z :=
  printf (fun _ => name) (fun n => nth n [1; st_type st; st_ino st; st_size st] 1) (bytes "%s %d %d %d" ++ [10]).

(** The name in a directory entry, up to its NUL. *)
Fixpoint until_nul (l : list Z) : list Z :=
  match l with [] => [] | c :: l => if c =? 0 then [] else c :: until_nul l end.

Section ls.
(** What open gives for a path: the answer of fstat, and of the reads of one
    directory entry each. *)
Context (open : list Z -> option (option stat * list (list Z))).

(** [stat(buf, &st)]. *)
Definition ls_stat (path : list Z) : option stat := match open path with Some (st, _) => st | None => None end.

(** The loop over the entries, which ends at a read of another size. *)
Fixpoint ls_entries (path : list Z) (des : list (list Z)) : list Z :=
  match des with
  | [] => []
  | de :: des =>
      if negb (length de =? 16)%nat then []
      else if le_val (take 2 de) =? 0 then ls_entries path des
      else
        let buf := path ++ [47] ++ until_nul (take DIRSIZ (drop 2 de)) in
        match ls_stat buf with
        | None => printf_s (bytes "ls: cannot stat %s" ++ [10]) buf
        | Some st => ls_line (fmtname buf) st
        end ++ ls_entries path des
  end.

(** What ls prints, to descriptor 1 and 2. *)
Definition ls (path : list Z) : list Z * list Z :=
  match open path with
  | None => ([], printf_s (bytes "ls: cannot open %s" ++ [10]) path)
  | Some (None, _) => ([], printf_s (bytes "ls: cannot stat %s" ++ [10]) path)
  | Some (Some st, des) =>
      if st_type st =? T_FILE then (ls_line (fmtname path) st, [])
      else if st_type st =? T_DIR then
        if (512 <? length path + 1 + DIRSIZ + 1)%nat then (bytes "ls: path too long" ++ [10], [])
        else (ls_entries path des, [])
      else ([], [])
  end.

Definition ls_main (args : list (list Z)) : list (list Z * list Z) :=
  match args with [] => [ls [46]] | _ => ls <$> args end.
End ls.

(** ** grep.c *)

(** The loop over the files, [buf] being the static buffer; [None] when a
    read stores outside it. *)
Fixpoint grep_files (open : list Z -> option (list (list Z))) (pattern buf : list Z) (files : list (list Z)) : option (list Z) :=
  match files with
  | [] => Some []
  | name :: files =>
      match open name with
      | None => Some (printf_s (bytes "grep: cannot open %s" ++ [10]) name)
      | Some chunks =>
          match grep pattern buf 0 chunks with
          | None => None
          | Some (out, buf) => app out <$> grep_files open pattern buf files
          end
      end
  end.
Definition grep_main (stdin : list (list Z)) (open : list Z -> option (list (list Z))) (args : list (list Z)) : option (list Z * list Z) :=
  let buf := replicate (Z.to_nat BUFSIZE) 0 in
  match args with
  | [] => Some ([], bytes "usage: grep pattern [file ...]" ++ [10])
  | [pattern] => (fun r => (fst r, [])) <$> grep pattern buf 0 stdin
  | pattern :: files => (fun out => (out, [])) <$> grep_files open pattern buf files
  end.

(** ** rm.c, mkdir.c, ln.c, kill.c *)

(** The loop of rm and mkdir: the calls made, and what is printed; the first
    failure ends it. *)
Fixpoint over_names (call : list Z -> bool) (fmt : list Z) (names : list (list Z)) : list (list Z) * list Z :=
  match names with
  | [] => ([], [])
  | n :: names =>
      if call n then let '(calls, out) := over_names call fmt names in (n :: calls, out)
      else ([n], printf_s fmt n)
  end.
Definition rm_main (unlink : list Z -> bool) (args : list (list Z)) : list (list Z) * list Z :=
  match args with
  | [] => ([], bytes "Usage: rm files..." ++ [10])
  | _ => over_names unlink (bytes "rm: %s failed to delete" ++ [10]) args
  end.
Definition mkdir_main (mkdir : list Z -> bool) (args : list (list Z)) : list (list Z) * list Z :=
  match args with
  | [] => ([], bytes "Usage: mkdir files..." ++ [10])
  | _ => over_names mkdir (bytes "mkdir: %s failed to create" ++ [10]) args
  end.
Definition ln_main (link : list Z -> list Z -> bool) (args : list (list Z)) : list (list Z * list Z) * list Z :=
  match args with
  | [old; new] => ([(old, new)], if link old new then [] else bytes "link " ++ old ++ [32] ++ new ++ bytes ": failed" ++ [10])
  | _ => ([], bytes "Usage: ln old new" ++ [10])
  end.
(** The pids passed to kill; [argc] counts [argv[0]], so the usage message is
    never printed. *)
Definition kill_main (args : list (list Z)) : list Z := atoi <$> args.

(** ** zombie.c, fsck.c *)

(** The calls of a process; fork returns [pid] in it. *)
Inductive ucall : Type := UFork | USleep (n : Z) | UPbjFSck | UExit.
Definition zombie_main (pid : Z) : list ucall := [UFork] ++ (if 0 <? pid then [USleep 5] else []) ++ [UExit].
Definition fsck_main : list ucall := [UPbjFSck; UExit].

(** ** What wc counts *)

Definition blank (c : Z) : bool := match strchr blanks c with Some _ => true | None => false end.

(** The pieces of a text between its blanks. *)
Fixpoint pieces (l : list Z) : list (list Z) :=
  match l with
  | [] => [[]]
  | c :: l => if blank c then [] :: pieces l else match pieces l with p :: ps => (c :: p) :: ps | [] => [[c]] end
  end.
Definition nonempty (p : list Z) : bool := match p with [] => false | _ => true end.
Definition nwords (l : list Z) : nat := length (List.filter nonempty (pieces l)).
Definition nlines (l : list Z) : nat := length (List.filter (Z.eqb 10) l).

Lemma pieces_cons l : exists p ps, pieces l = p :: ps.
Proof. destruct l as [|c l]; simpl; [by eexists _, _|]. repeat case_match; by eexists _, _. Qed.

Lemma pieces_le l : (length (List.filter nonempty (pieces l)) <= length l)%nat.
Proof.
  induction l as [|c l IH]; simpl; [lia|]. case_match; simpl; [lia|].
  destruct (pieces_cons l) as (p & ps & E). rewrite E in *. simpl in *. case_match; simpl in *; lia.
Qed.

(** From inside a word, the piece being read does not count again. *)
Lemma wc_bytes l ln w c iw :
  0 <= ln -> 0 <= w -> 0 <= c -> w <= c -> ln <= c -> c + Z.of_nat (length l) < 2147483648 ->
  exists iw', foldl wc_byte (WC ln w c iw) l =
    WC (ln + Z.of_nat (nlines l))
       (w + Z.of_nat (length (List.filter nonempty (if iw then tail (pieces l) else pieces l))))
       (c + Z.of_nat (length l)) iw'.
Proof.
  unfold nlines. revert ln w c iw. induction l as [|b l IH]; intros ln w c iw Hln Hw Hc Hwc Hlc Hlen.
  - exists iw. destruct iw; simpl; by rewrite !Z.add_0_r.
  - cbn [length] in Hlen. cbn [foldl]. unfold wc_byte at 2. cbn [wc_l wc_w wc_c inword].
    destruct (pieces_cons l) as (p & ps & Ep). rewrite !s32_small by lia.
    assert (Hb : forall b', (if b' =? 10 then ln + 1 else ln) = ln + Z.of_nat (length (List.filter (Z.eqb 10) [b']))).
    { intros b'. cbn [List.filter]. rewrite (Z.eqb_sym 10). case_match; cbn [length]; lia. }
    rewrite Hb. set (k := length (List.filter (Z.eqb 10) [b])).
    assert (Hk : (k <= 1)%nat /\ length (List.filter (Z.eqb 10) (b :: l)) = (k + length (List.filter (Z.eqb 10) l))%nat).
    { unfold k. cbn [List.filter]. case_match; cbn [length]; lia. }
    destruct Hk as [Hk1 Hk]. rewrite Hk. cbn [pieces]. unfold blank. destruct (strchr blanks b) eqn:Es.
    + edestruct (IH (ln + Z.of_nat k) w (c + 1) false) as [iw' ->]; [lia..|]. exists iw'.
      destruct iw; f_equal; cbn [length tail List.filter nonempty]; lia.
    + rewrite Ep. destruct iw.
      * edestruct (IH (ln + Z.of_nat k) w (c + 1) true) as [iw' ->]; [lia..|]. exists iw'. rewrite Ep.
        f_equal; cbn [length tail List.filter nonempty]; lia.
      * edestruct (IH (ln + Z.of_nat k) (w + 1) (c + 1) true) as [iw' ->]; [lia..|]. exists iw'. rewrite Ep.
        f_equal; cbn [length tail List.filter nonempty]; lia.
Qed.

Lemma wc_loop_chunks chunks s name :
  Forall (fun c => nonempty c = true) chunks ->
  wc_loop (Some <$> chunks) s name =
    let s' := foldl wc_byte s (concat chunks) in (wc_line (wc_l s') (wc_w s') (wc_c s') name, true).
Proof.
  intros H. revert s. induction H as [|c chunks Hc H IH]; intros s; [done|]. cbn [fmap list_fmap wc_loop concat].
  destruct c as [|b c]; [done|]. by rewrite IH, foldl_app.
Qed.

Lemma cat_chunks chunks : Forall (fun c => nonempty c = true) chunks -> cat (Some <$> chunks) = (concat chunks, true).
Proof.
  induction 1 as [|c chunks Hc H IH]; [done|]. cbn [fmap list_fmap cat concat]. destruct c; [done|]. by rewrite IH.
Qed.

(** Wc and cat process a file as a whole.  However a text of fewer than
    2^31 bytes is cut into reads, cat copies it unchanged, and wc prints the
    number of its newlines, of its maximal runs without blanks and of its
    bytes; a read error in the middle ends wc with a message and no counts. *)
Theorem wc_correct (chunks : list (list Z)) (rest : reads) (name : list Z) :
  Forall (fun c => nonempty c = true) chunks -> Z.of_nat (length (concat chunks)) < 2147483648 ->
  let text := concat chunks in
  cat (Some <$> chunks) = (text, true) /\
  wc (Some <$> chunks) name =
    (wc_line (Z.of_nat (nlines text)) (Z.of_nat (nwords text)) (Z.of_nat (length text)) name, true) /\
  wc ((Some <$> chunks) ++ None :: rest) name = (bytes "wc: read error" ++ [10], false).
Proof.
  intros Hc Hl text. split; [by apply cat_chunks|]. split.
  - unfold wc. rewrite wc_loop_chunks by done. cbv zeta.
    destruct (wc_bytes (concat chunks) 0 0 0 false) as [iw' ->]; [lia..|]. done.
  - unfold wc. generalize (WC 0 0 0 false). clear Hl text. induction Hc as [|c chunks Hc H IH]; intros s; [done|].
    destruct c; [done|]. apply IH.
Qed.

Lemma wc_correct_witness :
  wc (Some <$> [[97; 98; 32]; [99; 10; 10; 100]; [101]]) [102] = (bytes "2 3 8 f" ++ [10], true).
Proof.
  destruct (wc_correct [[97; 98; 32]; [99; 10; 10; 100]; [101]] [] [102]) as (_ & H & _); [by repeat constructor|simpl; lia|].
  rewrite H. reflexivity.
Defined.

(** The name ls prints: the part of the path after its last slash, padded with
    blanks to the width of a directory entry. *)
Lemma fmtname_component dir name : Forall (fun c => c <> 47) name -> fmtname (dir ++ 47 :: name) = name ++ replicate (DIRSIZ - length name) 32.
Proof.
  intros Hn. assert (E : after_slash (rev (dir ++ 47 :: name)) = name).
  2: { unfold fmtname. rewrite E. destruct (Nat.leb_spec DIRSIZ (length name)); [|done].
       by replace (DIRSIZ - length name)%nat with 0%nat by lia; rewrite app_nil_r. }
  rewrite rev_app_distr. cbn [rev]. rewrite <-app_assoc.
  induction name as [|c name IH] using rev_ind; [done|]. apply Forall_app in Hn as [Hn Hc]. inversion Hc; subst.
  rewrite rev_app_distr. simpl. destruct (Z.eqb_spec c 47); [done|]. f_equal. by apply IH.
Qed.

(** ls of a directory: a line for every entry in use, in order, with the name
    in a column of its own, and nothing for the free ones; a file that has
    gone since is reported and the listing goes on. *)
Definition dirent (e : Z * list Z) : list Z := le_bytes 2 e.1 ++ e.2 ++ replicate (DIRSIZ - length e.2) 0.

Lemma until_nul_pad l k : Forall (fun c => c <> 0) l -> until_nul (l ++ replicate k 0) = l.
Proof.
  induction 1 as [|c l Hc _ IH]; [by destruct k|]. simpl. destruct (Z.eqb_spec c 0); [done|]. by rewrite IH.
Qed.

Lemma ls_dirent_fields i nm : 0 <= i < 65536 -> (length nm <= DIRSIZ)%nat -> Forall (fun c => c <> 0) nm ->
  length (dirent (i, nm)) = 16%nat /\ le_val (take 2 (dirent (i, nm))) = i /\ until_nul (take DIRSIZ (drop 2 (dirent (i, nm)))) = nm.
Proof.
  intros Hi Hn Hc. unfold dirent. cbn [fst snd]. assert (H2 : length (le_bytes 2 i) = 2%nat) by done. split_and!.
  - rewrite !length_app, length_replicate, H2. unfold DIRSIZ in *. lia.
  - rewrite take_app_le by lia. rewrite take_ge by lia. rewrite le_val_bytes. apply Z.mod_small. change (256 ^ Z.of_nat 2) with 65536. lia.
  - rewrite drop_app_ge by lia. rewrite H2, drop_0. rewrite take_ge by (rewrite length_app, length_replicate; lia). by apply until_nul_pad.
Qed.

Lemma ls_directory (open : list Z -> option (option stat * list (list Z))) path st (es : list (Z * list Z)) :
  open path = Some (Some st, dirent <$> es) -> st_type st = T_DIR -> (length path <= 496)%nat ->
  Forall (fun e => 0 <= e.1 < 65536 /\ (length e.2 <= DIRSIZ)%nat /\ Forall (fun c => c <> 0 /\ c <> 47) e.2) es ->
  ls open path = (es ≫= (fun e =>
    if e.1 =? 0 then []
    else match ls_stat open (path ++ [47] ++ e.2) with
         | None => printf_s (bytes "ls: cannot stat %s" ++ [10]) (path ++ [47] ++ e.2)
         | Some st => ls_line (e.2 ++ replicate (DIRSIZ - length e.2) 32) st
         end), []).
Proof.
  intros Ho Ht Hl Hes. unfold ls. rewrite Ho, Ht. destruct (Nat.ltb_spec 512 (length path + 1 + DIRSIZ + 1)) as [Hbad|_]; [unfold DIRSIZ in Hbad; lia|].
  cbn [Z.eqb]. change (T_DIR =? T_FILE) with false. cbv iota. f_equal. clear Ho.
  induction Hes as [|[i nm] es (Hi & Hn & Hc) _ IH]; [done|]. cbn [fst snd] in *.
  assert (Hc0 : Forall (fun c => c <> 0) nm) by (eapply Forall_impl; [exact Hc|]; intros c [? _]; done).
  destruct (ls_dirent_fields i nm Hi Hn Hc0) as (E1 & E2 & E3). rewrite fmap_cons, bind_cons. cbn [ls_entries]. rewrite E1, E2, E3, IH. cbn [Nat.eqb negb fst snd].
  destruct (i =? 0); [done|]. f_equal. cbv zeta. destruct (ls_stat open (path ++ [47] ++ nm)); [|done]. f_equal.
  apply fmtname_component. eapply Forall_impl; [exact Hc|]. intros c [_ ?]. done.
Qed.
