(* ===== verification/UserThreads.v ===== *)
(** * userthreads.c: mutexes and condition variables of user threads

    Threads interleave the exchanges of [mutex_lock] and [mutex_unlock], and
    [cond_wait], whose system call [cond_sleep_and_unlock_mutex] unlocks the
    mutex and which then takes it again; and the calls of [thread_create]. *)

From S2P Require Import Prelude.

(** Where a thread is: outside, in the loop of mutex_lock, with the mutex, or
    asleep in cond_wait. *)
Inductive tpc : Type := Outside | Locking | Inside | Asleep.
Record mutex : Type := Mutex { locked : Z; pcs : list tpc }.

Inductive tev : Type :=
| Lock (i : nat)      (* a thread calls mutex_lock *)
| Xchg (i : nat)      (* one turn of its loop *)
| Unlock (i : nat)    (* a thread that has the mutex calls mutex_unlock *)
| CondSleep (i : nat) (* cond_wait up to the system call *)
| CondWake (i : nat). (* the system call returns; cond_wait calls mutex_lock *)

(** [xchg(&m->locked, v)] *)
Definition xchg (v : Z) (m : mutex) : Z * mutex := (locked m, Mutex v (pcs m)).
Definition at_pc (i : nat) (p : tpc) (m : mutex) : mutex := Mutex (locked m) (<[i := p]> (pcs m)).

Definition mutex_lock_turn (i : nat) (m : mutex) : mutex :=
  let '(old, m) := xchg 1 m in if old =? 1 then m else at_pc i Inside m.
Definition mutex_unlock (m : mutex) : mutex := snd (xchg 0 m).

(** A step, when the thread is where the event needs it. *)
Definition tstep (m : mutex) (e : tev) : option mutex :=
  match e with
  | Lock i => if pcs m !! i is Some Outside then Some (at_pc i Locking m) else None
  | Xchg i => if pcs m !! i is Some Locking then Some (mutex_lock_turn i m) else None
  | Unlock i => if pcs m !! i is Some Inside then Some (at_pc i Outside (mutex_unlock m)) else None
  | CondSleep i => if pcs m !! i is Some Inside then Some (at_pc i Asleep (mutex_unlock m)) else None
  | CondWake i => if pcs m !! i is Some Asleep then Some (at_pc i Locking m) else None
  end.

(** What thread_create does: its result in the creating thread, or what the
    new thread calls; [malloc], [thread_fork]: what these return. *)
Inductive tcall : Type := Start_routine (arg : Z) | Exit_thread.
Definition thread_create (malloc thread_fork : Z -> Z) (arg : Z) : Z + list tcall :=
  let stack := malloc 1024 in
  if stack =? 0 then inl (-1)
  else
    let childThreadId := thread_fork stack in
    if childThreadId =? 0 then inr [Start_routine arg; Exit_thread] else inl childThreadId.

Fixpoint trun (m : mutex) (es : list tev) : option mutex :=
  match es with [] => Some m | e :: es => tstep m e ≫= fun m => trun m es end.

Definition fresh (n : nat) : mutex := Mutex 0 (replicate n Outside).

(** The mutex is free and nobody is inside, or locked and exactly one is. *)
Definition mutex_inv (m : mutex) : Prop :=
  (locked m = 0 /\ forall i, pcs m !! i <> Some Inside) \/
  (locked m = 1 /\ exists i, pcs m !! i = Some Inside /\ forall j, pcs m !! j = Some Inside -> j = i).

Lemma at_pc_lookup i p m j : (i < length (pcs m))%nat ->
  pcs (at_pc i p m) !! j = if decide (i = j) then Some p else pcs m !! j.
Proof. intros Hi. simpl. case_decide as E; [subst; by apply list_lookup_insert_eq|by apply list_lookup_insert_ne]. Qed.

Lemma leave_inv i p m : mutex_inv m -> pcs m !! i = Some Inside -> p <> Inside -> mutex_inv (at_pc i p (mutex_unlock m)).
Proof.
  intros [[_ H]|(_ & k & _ & Hk)] Hi Hp; [by destruct (H i)|]. pose proof (lookup_lt_Some _ _ _ Hi) as Hlt. left. split; [done|].
  intros j. rewrite at_pc_lookup by done. case_decide as E; [by intros [= ->]|]. intros Hj.
  apply E. by rewrite (Hk j Hj), (Hk i Hi).
Qed.

Lemma move_inv i p q m : mutex_inv m -> pcs m !! i = Some q -> q <> Inside -> p <> Inside -> mutex_inv (at_pc i p m).
Proof.
  intros H Hi Hq Hp. pose proof (lookup_lt_Some _ _ _ Hi) as Hlt. destruct H as [[Hl H]|(Hl & k & Hk & Hu)].
  - left. split; [done|]. intros j. rewrite at_pc_lookup by done. case_decide; [by intros [= ->]|apply H].
  - right. split; [done|]. exists k. split.
    + rewrite at_pc_lookup by done. case_decide; [subst; congruence|done].
    + intros j. rewrite at_pc_lookup by done. case_decide; [by intros [= ->]|apply Hu].
Qed.

Lemma turn_inv i m : mutex_inv m -> pcs m !! i = Some Locking -> mutex_inv (mutex_lock_turn i m).
Proof.
  intros H Hi. pose proof (lookup_lt_Some _ _ _ Hi) as Hlt. unfold mutex_lock_turn. destruct H as [[Hl H]|(Hl & k & Hk & Hu)]; simpl; rewrite Hl; simpl.
  - right. split; [done|]. exists i. split; [by apply list_lookup_insert_eq|]. intros j Hj.
    destruct (decide (i = j)) as [|E]; [done|]. simpl in Hj. rewrite list_lookup_insert_ne in Hj by done. by destruct (H j).
  - right. split; [done|]. by exists k.
Qed.

Lemma tstep_inv m e m' : mutex_inv m -> tstep m e = Some m' -> mutex_inv m'.
Proof.
  intros H. destruct e as [i|i|i|i|i]; simpl; destruct (pcs m !! i) as [[]|] eqn:E; try done; intros [= <-];
    first [by eapply move_inv | by apply turn_inv | by apply leave_inv].
Qed.

(** However any number of threads interleave, at most one has the mutex, and
    a turn of mutex_lock on a mutex nobody has takes it. *)
Theorem mutex_exclusion n es m :
  trun (fresh n) es = Some m ->
  (forall i j, pcs m !! i = Some Inside -> pcs m !! j = Some Inside -> i = j) /\
  (forall i, pcs m !! i = Some Locking -> (forall j, pcs m !! j <> Some Inside) ->
     exists m', tstep m (Xchg i) = Some m' /\ pcs m' !! i = Some Inside).
Proof.
  intros Hr. assert (H : mutex_inv m).
  { assert (H0 : mutex_inv (fresh n)) by (left; split; [done|]; by intros i [[=] _]%lookup_replicate_1).
    revert H0 Hr. generalize (fresh n). induction es as [|e es IH]; intros m0 H0; simpl; [by intros [= ->]|].
    destruct (tstep m0 e) as [m1|] eqn:E; simpl; [|done]. apply IH. by eapply tstep_inv. }
  destruct H as [[Hl H]|(Hl & k & Hk & Hu)].
  - split; [intros i j Hi; by destruct (H i)|]. intros i Hi _. simpl. rewrite Hi. eexists. split; [done|].
    unfold mutex_lock_turn. simpl. rewrite Hl. simpl. apply list_lookup_insert_eq. by eapply lookup_lt_Some.
  - split; [intros i j Hi Hj; by rewrite (Hu i Hi), (Hu j Hj)|]. intros i _ Hno. by destruct (Hno k).
Qed.
