(* ===== verification/Umalloc.v ===== *)
(** * umalloc.c: the user allocator

    The circular free list of headers in address order, [base] its permanent
    member.  A block of [n] units of 8 bytes starts with its header; a pointer
    is the address of a header.  The program asks the kernel for memory with
    sbrk, which returns the old end of its memory or refuses. *)

From S2P Require Import Prelude.

Definition UNIT : Z := 8.                 (* sizeof(Header) *)
Definition PAGE : Z := 4096.

(** [union header]; [None] is a link never set. *)
Record header : Type := Hdr { h_ptr : option Z; h_size : Z }.

(** The headers in memory, [freep] (0 is null) and the end of the program's
    memory. *)
Record heap : Type := Heap { hdrs : gmap Z header; freep : Z; brk : Z }.
Definition set_hdrs x s := Heap x (freep s) (brk s).
Definition set_freep x s := Heap (hdrs s) x (brk s).

Definition get_hdr (p : Z) : M heap header := let! s := get in of_option "wild header" (hdrs s !! p).
Definition get_ptr (p : Z) : M heap Z := let! h := get_hdr p in of_option "link never set" (h_ptr h).
Definition get_size (p : Z) : M heap Z := let! h := get_hdr p in ret (h_size h).
Definition set_ptr (p v : Z) : M heap unit :=
  let! h := get_hdr p in modify (fun s => set_hdrs (<[p := Hdr (Some v) (h_size h)]> (hdrs s)) s).
(** The size is also the first thing written to a new header. *)
Definition set_size (p v : Z) : M heap unit :=
  modify (fun s => set_hdrs (<[p := Hdr (hdrs s !! p ≫= h_ptr) v]> (hdrs s)) s).

(** [p + n] on headers. *)
Definition padd (p n : Z) : Z := p + UNIT * n.

Section umalloc.
(** The address of [base], and whether the kernel grants [n] bytes. *)
Context (base : Z) (grants : Z -> Z -> bool).

Definition sbrk (n : Z) : M heap Z := fun s =>
  if grants (brk s) n then Ret (brk s) (Heap (hdrs s) (freep s) (brk s + n)) else Ret (-1) s.

(** [for(p = freep; !(bp > p && bp < p->s.ptr); p = p->s.ptr)
       if(p >= p->s.ptr && (bp > p || bp < p->s.ptr)) break;] *)
Fixpoint free_loop (fuel : nat) (bp p : Z) : M heap Z :=
  match fuel with
  | O => fun s => Spin s
  | S fuel =>
      let! q := get_ptr p in
      if (p <? bp) && (bp <? q) then ret p
      else if (q <=? p) && ((p <? bp) || (bp <? q)) then ret p
      else free_loop fuel bp q
  end.

(** A walk passes each of the [n] nodes of the list at most twice. *)
Definition free_fuel (s : heap) : nat := (2 * size (hdrs s) + 2)%nat.

(** [if(bp + bp->s.size == p->s.ptr)]: the block joins the next free one, at
    [q], or is linked before it. *)
Definition join_next (bp q : Z) : M heap unit :=
  let! n := get_size bp in
  if padd bp n =? q then
    let! m := get_size q in
    set_size bp (u32 (n + m)) ;;
    let! r := get_ptr q in
    set_ptr bp r
  else set_ptr bp q.

(** [if(p + p->s.size == bp)] *)
Definition join_prev (p bp : Z) : M heap unit :=
  let! k := get_size p in
  if padd p k =? bp then
    let! m := get_size bp in
    set_size p (u32 (k + m)) ;;
    let! r := get_ptr bp in
    set_ptr p r
  else set_ptr p bp.

(** [ap] is the pointer given to the program, one past the header. *)
Definition free (ap : Z) : M heap unit :=
  let bp := padd ap (-1) in
  let! s := get in
  let! p := free_loop (free_fuel s) bp (freep s) in
  let! q := get_ptr p in
  join_next bp q ;;
  join_prev p bp ;;
  modify (set_freep p).

Definition morecore (nu : Z) : M heap Z :=
  let nu := if nu <? PAGE then PAGE else nu in
  let! p := sbrk (s32 (nu * UNIT)) in
  if p =? -1 then ret 0
  else
    set_size p nu ;;
    free (padd p 1) ;;
    gets freep.

(** Taking [nunits] from the block at [p]: the whole of it, or its tail. *)
Definition take_block (nunits prevp p sz : Z) : M heap Z :=
  let! b :=
    (if sz =? nunits then let! q := get_ptr p in set_ptr prevp q ;; ret p
     else
       set_size p (u32 (sz - nunits)) ;;
       let p := padd p (u32 (sz - nunits)) in
       set_size p nunits ;; ret p) in
  modify (set_freep prevp) ;;
  ret (padd b 1).

Fixpoint malloc_loop (fuel : nat) (nunits prevp p : Z) : M heap Z :=
  match fuel with
  | O => fun s => Spin s
  | S fuel =>
      let! sz := get_size p in
      if nunits <=? sz then take_block nunits prevp p sz
      else
        let! fp := gets freep in
        if p =? fp then
          let! p := morecore nunits in
          if p =? 0 then ret 0 else let! q := get_ptr p in malloc_loop fuel nunits p q
        else let! q := get_ptr p in malloc_loop fuel nunits p q
  end.

Definition units (nbytes : Z) : Z := u32 (u32 (nbytes + UNIT - 1) / UNIT + 1).

(** The list is walked once, and once more after morecore. *)
Definition malloc (nbytes : Z) : M heap Z :=
  let nunits := units nbytes in
  let! fp := gets freep in
  (if fp =? 0 then
     modify (fun s => set_freep base (set_hdrs (<[base := Hdr (Some base) 0]> (hdrs s)) s))
   else ret tt) ;;
  let! prevp := gets freep in
  let! p := get_ptr prevp in
  let! s := get in
  malloc_loop (2 * size (hdrs s) + 4)%nat nunits prevp p.
End umalloc.

(** A program that has allocated nothing. *)
Definition heap_boot (brk : Z) : heap := Heap ∅ 0 brk.
