(* ===== verification/UmallocProps.v ===== *)
(** * The user allocator is correct

    The free list as a cyclic chain of headers in address order, and the
    bytes it covers.  Walks of free and malloc are followed on the chain; the
    theorem at the end is about whole programs of malloc and free. *)

From S2P Require Import Prelude Umalloc.

(** ** Chains of headers *)

Definition start (l : list (Z * Z)) (e : Z) : Z := match l with [] => e | (a, _) :: _ => a end.

Fixpoint chain (h : gmap Z header) (l : list (Z * Z)) (e : Z) : Prop :=
  match l with
  | [] => True
  | (a, k) :: l => h !! a = Some (Hdr (Some (start l e)) k) /\ chain h l e
  end.

Lemma start_app l1 l2 e : start (l1 ++ l2) e = start l1 (start l2 e).
Proof. by destruct l1 as [|[]]. Qed.

Lemma chain_app h l1 l2 e : chain h (l1 ++ l2) e <-> chain h l1 (start l2 e) /\ chain h l2 e.
Proof.
  induction l1 as [|[a k] l1 IH]; cbn [app chain]; [tauto|]. rewrite IH, start_app. tauto.
Qed.

Lemma chain_at h l1 a k l2 e : chain h (l1 ++ (a, k) :: l2) e -> h !! a = Some (Hdr (Some (start l2 e)) k).
Proof. rewrite chain_app. cbn. tauto. Qed.

Lemma chain_frame h h' l e : (forall a, a ∈ l.*1 -> h' !! a = h !! a) -> chain h l e -> chain h' l e.
Proof.
  induction l as [|[a k] l IH]; intros Hf; [done|]. cbn [chain fmap list_fmap] in *. intros [Ha Hc]. split.
  - rewrite Hf; [done|]. by left.
  - apply IH; [|done]. intros x Hx. apply Hf. by right.
Qed.

(** ** Address order *)

Fixpoint asc (lo : Z) (l : list (Z * Z)) : Prop :=
  match l with
  | [] => True
  | (a, k) :: l => lo < a /\ 0 <= k /\ asc (padd a k) l
  end.

Definition ending (lo : Z) (l : list (Z * Z)) : Z := foldl (fun _ '(a, k) => padd a k) lo l.

Lemma asc_app lo l1 l2 : asc lo (l1 ++ l2) <-> asc lo l1 /\ asc (ending lo l1) l2.
Proof. revert lo. induction l1 as [|[a k] l1 IH]; intros lo; cbn; [tauto|]. rewrite IH. tauto. Qed.

Lemma asc_weaken lo lo' l : lo' <= lo -> asc lo l -> asc lo' l.
Proof. destruct l as [|[a k] l]; cbn; [done|]. intros Hl (? & ? & ?). split_and!; [lia|done|done]. Qed.

Lemma ending_ge lo l : asc lo l -> lo <= ending lo l.
Proof.
  revert lo. induction l as [|[c u] l IH]; intros lo H; cbn; [lia|]. destruct H as (? & ? & H).
  specialize (IH _ H). fold (ending (padd c u) l). unfold padd, UNIT in *. lia.
Qed.

Lemma asc_bound lo l a k : asc lo l -> (a, k) ∈ l -> lo < a /\ 0 <= k /\ padd a k <= ending lo l.
Proof.
  revert lo. induction l as [|[b t] l IH]; intros lo Ha Hin; [by apply elem_of_nil in Hin|].
  destruct Ha as (H1 & H2 & H3). cbn [ending foldl]. fold (ending (padd b t) l).
  pose proof (ending_ge _ _ H3) as He.
  apply elem_of_cons in Hin as [[= -> ->]|Hin]; [done|].
  destruct (IH _ H3 Hin) as (? & ? & ?). unfold padd, UNIT in *. lia.
Qed.

(** Around a node, everything is on its side. *)
Lemma asc_mid lo l1 a k l2 b t : asc lo (l1 ++ (a, k) :: l2) ->
  ((b, t) ∈ l1 -> padd b t < a) /\ ((b, t) ∈ l2 -> padd a k < b).
Proof.
  intros H. apply asc_app in H as [H1 (H2 & H3 & H4)]. split; intros Hin.
  - destruct (asc_bound _ _ _ _ H1 Hin) as (_ & _ & ?). lia.
  - by destruct (asc_bound _ _ _ _ H4 Hin) as (? & _).
Qed.

Lemma asc_NoDup lo l : asc lo l -> NoDup l.*1.
Proof.
  revert lo. induction l as [|[a k] l IH]; intros lo H; [constructor|]. destruct H as (H1 & H2 & H3).
  constructor; [|by eapply IH]. intros Hin. apply list_elem_of_fmap in Hin as ([b t] & E & Hin). cbn in E. subst.
  destruct (asc_bound _ _ _ _ H3 Hin) as (? & _). unfold padd, UNIT in *. lia.
Qed.

(** ** Bytes *)

Definition inside (z : Z) (b : Z * Z) : Prop := fst b <= z < padd (fst b) (snd b).
Definition covers (l : list (Z * Z)) (z : Z) : Prop := Exists (inside z) l.

Lemma heap_covers_nil z : covers [] z <-> False.
Proof. apply Exists_nil. Qed.
Lemma heap_covers_cons z a k l : covers ((a, k) :: l) z <-> a <= z < padd a k \/ covers l z.
Proof. unfold covers. by rewrite Exists_cons. Qed.
Lemma covers_app z l1 l2 : covers (l1 ++ l2) z <-> covers l1 z \/ covers l2 z.
Proof. apply Exists_app. Qed.

(** ** The free list *)

Section list.
Context (base : Z).

Record free_ok (s : heap) (l : list (Z * Z)) : Prop := FreeOk {
  fo_base : 0 < base < brk s;
  fo_chain : chain (hdrs s) ((base, 0) :: l) base;
  fo_asc : asc base l;
  fo_size : Forall (fun b => 0 < snd b) l;
  fo_end : ending base l <= brk s <= 2147483648;
  fo_freep : freep s ∈ base :: l.*1 }.

Lemma nodes_asc s l : free_ok s l -> asc (base - 1) ((base, 0) :: l).
Proof. intros H. cbn. split_and!; [lia|lia|]. replace (padd base 0) with base by (unfold padd; lia). apply H. Qed.

(** The list is no longer than the map of headers. *)
Lemma nodes_length s l : free_ok s l -> (S (length l) <= size (hdrs s))%nat.
Proof.
  intros H. pose proof (asc_NoDup _ _ (nodes_asc s l H)) as Hnd. pose proof (fo_chain _ _ H) as Hc.
  replace (S (length l)) with (length ((base, 0) :: l).*1) by (by rewrite length_fmap).
  rewrite <-(size_dom (D := gset Z) (hdrs s)). rewrite <-(size_list_to_set (C := gset Z)) by done.
  apply subseteq_size. intros a Ha. rewrite elem_of_list_to_set in Ha. apply elem_of_dom.
  apply list_elem_of_fmap in Ha as ([b k] & -> & Hin). apply list_elem_of_split in Hin as (l1 & l2 & E).
  rewrite E in Hc. apply chain_at in Hc. by eexists.
Qed.

Lemma get_ptr_ret s a v k : hdrs s !! a = Some (Hdr (Some v) k) -> get_ptr a s = Ret v s.
Proof. intros H. unfold get_ptr, get_hdr, bind, get. by rewrite H. Qed.
Lemma get_size_ret s a o k : hdrs s !! a = Some (Hdr o k) -> get_size a s = Ret k s.
Proof. intros H. unfold get_size, get_hdr, bind, get. by rewrite H. Qed.
Lemma set_ptr_ret s a o k v : hdrs s !! a = Some (Hdr o k) ->
  set_ptr a v s = Ret tt (set_hdrs (<[a := Hdr (Some v) k]> (hdrs s)) s).
Proof. intros H. unfold set_ptr, get_hdr, bind, get. by rewrite H. Qed.
Lemma set_size_ret s a o k v : hdrs s !! a = Some (Hdr o k) ->
  set_size a v s = Ret tt (set_hdrs (<[a := Hdr o v]> (hdrs s)) s).
Proof. intros H. unfold set_size, modify. by rewrite H. Qed.

(** ** The walk of free *)

Lemma free_forward s bp l lo a k fuel :
  chain (hdrs s) ((a, k) :: l) base -> asc lo ((a, k) :: l) -> base <= a -> a < bp -> (bp ∉ l.*1) -> (length l < fuel)%nat ->
  exists l1 p n l2, (a, k) :: l = l1 ++ (p, n) :: l2 /\ free_loop fuel bp a s = Ret p s /\ p < bp /\
    (forall b, b ∈ l2.*1 -> bp < b).
Proof.
  revert lo a k fuel. induction l as [|[b t] l IH]; intros lo a k [|fuel] Hc Ha Hb Hbp Hnin Hf; cbn [length] in Hf; try lia;
    cbn [free_loop]; unfold bind; destruct Hc as [Hh Hc]; rewrite (get_ptr_ret _ _ _ _ Hh); cbn [start].
  - exists [], a, k, []. split; [done|]. destruct (Z.ltb_spec a bp), (Z.ltb_spec bp base), (Z.leb_spec base a); try lia; try done.
    split; [done|]. split; [done|]. intros b Hin. by apply elem_of_nil in Hin.
  - assert (Hab : a < b) by (destruct Ha as (_ & ? & ? & _); unfold padd, UNIT in *; lia).
    cbn [fmap list_fmap] in Hnin. apply not_elem_of_cons in Hnin as [Hne Hnin]. cbn [fst] in Hne.
    destruct (Z.ltb_spec a bp), (Z.ltb_spec bp b), (Z.leb_spec b a); try lia; cbn [andb orb].
    + exists [], a, k, ((b, t) :: l). split; [done|]. split; [done|]. split; [done|].
      intros x Hx. apply list_elem_of_fmap in Hx as ([y u] & -> & Hy). cbn.
      apply elem_of_cons in Hy as [[= -> ->]|Hy]; [done|]. destruct Ha as (_ & _ & _ & ? & Ha).
      destruct (asc_bound _ _ _ _ Ha Hy) as (? & _). unfold padd, UNIT in *. lia.
    + destruct (IH (padd a k) b t fuel Hc) as (l1 & p & n & l2 & E & Hl & ?); [apply Ha|lia|lia|done|lia|].
      exists ((a, k) :: l1), p, n, l2. rewrite E. done.
Qed.

Lemma free_backward s bp l lo a k fuel :
  chain (hdrs s) ((a, k) :: l) base -> asc lo ((a, k) :: l) -> base < bp -> bp < a ->
  free_loop (S (length l) + fuel) bp a s = free_loop fuel bp base s.
Proof.
  revert lo a k. induction l as [|[b t] l IH]; intros lo a k Hc Ha Hb Hbp; cbn [length Nat.add free_loop];
    unfold bind; destruct Hc as [Hh Hc]; rewrite (get_ptr_ret _ _ _ _ Hh); cbn [start].
  - destruct (Z.ltb_spec a bp), (Z.ltb_spec bp base), (Z.leb_spec base a); lia || done.
  - assert (Hab : a < b) by (destruct Ha as (_ & ? & ? & _); unfold padd, UNIT in *; lia).
    destruct (Z.ltb_spec a bp), (Z.ltb_spec bp b), (Z.leb_spec b a); try lia. cbn [andb orb].
    apply (IH (padd a k) b t); [done|apply Ha|done|lia].
Qed.

Lemma free_walk s l bp :
  free_ok s l -> base < bp -> (bp ∉ l.*1) ->
  exists l1 p n l2, (base, 0) :: l = l1 ++ (p, n) :: l2 /\ free_loop (free_fuel s) bp (freep s) s = Ret p s /\ p < bp /\
    (forall b, b ∈ l2.*1 -> bp < b).
Proof.
  intros H Hbp Hnin. pose proof (nodes_asc s l H) as Ha. pose proof (fo_chain _ _ H) as Hc. pose proof (nodes_length s l H) as Hn.
  destruct (list_elem_of_fmap_1 fst ((base, 0) :: l) (freep s) (fo_freep _ _ H)) as ([f k] & Ef & Hin). cbn in Ef. subst f.
  apply list_elem_of_split in Hin as (l1 & l2 & E). rewrite E in Ha, Hc.
  assert (Hlen : (length l1 + length l2 = length l)%nat) by (apply (f_equal length) in E; rewrite length_app in E; cbn in E; lia).
  pose proof Ha as Ha2. apply asc_app in Ha2 as [_ Ha2]. pose proof Hc as Hc2. apply chain_app in Hc2 as [_ Hc2].
  assert (Hnin2 : bp ∉ ((base, 0) :: l).*1) by (cbn; apply not_elem_of_cons; split; [lia|done]). rewrite E, fmap_app in Hnin2.
  apply not_elem_of_app in Hnin2 as [_ Hnin2]. cbn in Hnin2. apply not_elem_of_cons in Hnin2 as [Hne Hnin2].
  unfold free_fuel. destruct (decide (freep s < bp)) as [Hlt|Hge].
  - assert (Hbf : base <= freep s).
    { pose proof (fo_freep _ _ H) as Hf. apply elem_of_cons in Hf as [->|Hf]; [lia|].
      apply list_elem_of_fmap in Hf as ([b t] & -> & Hb). destruct (asc_bound _ _ _ _ (fo_asc _ _ H) Hb) as (? & _). cbn. lia. }
    destruct (free_forward s bp l2 _ (freep s) k (2 * size (hdrs s) + 2) Hc2 Ha2) as (m1 & p & n & m2 & E2 & ?); [done|done|done|lia|].
    exists (l1 ++ m1), p, n, m2. split; [|done]. by rewrite E, E2, <-app_assoc.
  - replace (2 * size (hdrs s) + 2)%nat with (S (length l2) + (2 * size (hdrs s) + 2 - S (length l2)))%nat by lia.
    rewrite (free_backward s bp l2 _ (freep s) k _ Hc2 Ha2) by lia. rewrite <-E in Ha, Hc.
    apply (free_forward s bp l _ base 0 _ Hc Ha); lia || done.
Qed.
(** ** Joining neighbours *)

Lemma join_next_ok s bp n o l2 :
  hdrs s !! bp = Some (Hdr o n) -> chain (hdrs s) l2 base -> 0 < base < bp -> 0 < n ->
  padd bp n <= brk s -> asc bp l2 -> ending bp l2 <= brk s -> brk s <= 2147483648 ->
  exists h n' l3, join_next bp (start l2 base) s = Ret tt (set_hdrs h s) /\
    h !! bp = Some (Hdr (Some (start l3 base)) n') /\ (forall x, x <> bp -> h !! x = hdrs s !! x) /\
    (l2 = l3 /\ n' = n /\ padd bp n <> start l2 base \/ exists m, l2 = (padd bp n, m) :: l3 /\ n' = n + m).
Proof.
  intros Hbp Hc Hb Hn Hin Ha He Hmax. unfold join_next, bind. rewrite (get_size_ret _ _ _ _ Hbp).
  destruct (Z.eqb_spec (padd bp n) (start l2 base)) as [E|E].
  - destruct l2 as [|[q m] l3]; cbn [start] in *; [unfold padd, UNIT in *; lia|]. destruct Hc as [Hq Hc].
    rewrite (get_size_ret _ _ _ _ Hq), (set_size_ret _ _ _ _ _ Hbp). set (s1 := set_hdrs _ s).
    destruct Ha as (_ & Hm & Ha). assert (Hu : u32 (n + m) = n + m).
    { apply u32_small. pose proof (ending_ge _ _ Ha) as Hend. cbn in He. fold (ending (padd q m) l3) in He.
      unfold padd, UNIT, u32_mod in *. lia. }
    assert (Hqne : q <> bp) by (unfold padd, UNIT in *; lia).
    assert (Hq1 : hdrs s1 !! q = Some (Hdr (Some (start l3 base)) m)) by (cbn; by rewrite lookup_insert_ne).
    rewrite (get_ptr_ret s1 _ _ _ Hq1), (set_ptr_ret s1 _ o (u32 (n + m))) by (cbn; by rewrite lookup_insert_eq).
    eexists _, (n + m), l3. split; [done|]. rewrite Hu. split; [by rewrite lookup_insert_eq|]. split.
    + intros x Hx. cbn. by rewrite !lookup_insert_ne.
    + right. exists m. by rewrite E.
  - rewrite (set_ptr_ret _ _ _ _ _ Hbp). eexists _, n, l2. split; [done|]. split; [by rewrite lookup_insert_eq|].
    split; [|by left]. intros x Hx. by rewrite lookup_insert_ne.
Qed.
(** The node [p] and the block at [bp] behind it. *)
Definition joined (p k bp n : Z) : list (Z * Z) := if padd p k =? bp then [(p, k + n)] else [(p, k); (bp, n)].

Lemma join_prev_ok s p k v bp n r :
  hdrs s !! p = Some (Hdr v k) -> hdrs s !! bp = Some (Hdr (Some r) n) -> p <> bp -> 0 <= k + n < u32_mod ->
  exists h, join_prev p bp s = Ret tt (set_hdrs h s) /\ (forall x, x <> p -> h !! x = hdrs s !! x) /\
    chain h (joined p k bp n) r.
Proof.
  intros Hp Hbp Hne Hk. unfold join_prev, bind, joined. rewrite (get_size_ret _ _ _ _ Hp).
  destruct (Z.eqb_spec (padd p k) bp) as [E|E].
  - rewrite (get_size_ret _ _ _ _ Hbp), (set_size_ret _ _ _ _ _ Hp). set (s1 := set_hdrs _ s).
    rewrite (get_ptr_ret s1 _ r n) by (cbn; by rewrite lookup_insert_ne).
    rewrite (set_ptr_ret s1 _ v (u32 (k + n))) by (cbn; by rewrite lookup_insert_eq).
    eexists. split; [done|]. cbn. split; [intros x Hx; by rewrite !lookup_insert_ne|].
    rewrite lookup_insert_eq, u32_small by done. done.
  - rewrite (set_ptr_ret _ _ _ _ _ Hp). eexists. split; [done|]. cbn. split; [intros x Hx; by rewrite lookup_insert_ne|].
    rewrite lookup_insert_eq, lookup_insert_ne, Hbp by done. done.
Qed.

Lemma covers_joined z p k bp n : 0 <= k -> 0 <= n -> padd p k <= bp ->
  covers (joined p k bp n) z <-> p <= z < padd p k \/ bp <= z < padd bp n.
Proof.
  intros Hk Hn Hle. unfold joined, padd, UNIT in *. zcase; rewrite ?heap_covers_cons, heap_covers_nil; unfold padd, UNIT; lia.
Qed.

Lemma asc_joined lo p k bp n : lo < p -> 0 <= k -> 0 <= n -> padd p k <= bp ->
  asc lo (joined p k bp n) /\ ending lo (joined p k bp n) = padd bp n.
Proof. intros Hlo Hk Hn Hle. unfold joined. zcase; cbn; unfold padd, UNIT in *; lia. Qed.

Lemma ending_app lo l1 l2 : ending lo (l1 ++ l2) = ending (ending lo l1) l2.
Proof. apply foldl_app. Qed.

(** Where a block that is not free lies between two nodes. *)
Lemma block_between lo l1 p k l2 bp n :
  asc lo (l1 ++ (p, k) :: l2) -> Forall (fun b => 0 < snd b) l2 -> 0 < n -> p < bp -> (forall b, b ∈ l2.*1 -> bp < b) ->
  (forall z, bp <= z < padd bp n -> ~ covers (l1 ++ (p, k) :: l2) z) ->
  padd p k <= bp /\ asc (padd bp n - 1) l2.
Proof.
  intros Ha Hs Hn Hp Hafter Hfree. split.
  - destruct (Z.le_gt_cases (padd p k) bp) as [|Hgt]; [done|]. exfalso. apply (Hfree bp); [unfold padd, UNIT; lia|].
    rewrite covers_app, heap_covers_cons. lia.
  - destruct l2 as [|[b t] l2]; [done|]. apply asc_app in Ha as [_ (_ & _ & Ha)]. destruct Ha as (_ & Ht & Ha).
    cbn. split; [|done]. specialize (Hafter b ltac:(by left)). apply Forall_cons in Hs as [Hs _]. cbn in Hs.
    destruct (Z.le_gt_cases (padd bp n) b) as [|Hgt]; [lia|]. exfalso. apply (Hfree b); [lia|].
    rewrite covers_app, heap_covers_cons, heap_covers_cons. unfold padd, UNIT in *. lia.
Qed.
(** After joining with the next node. *)
Lemma asc_next bp n n' l2 l3 :
  base < bp -> 0 < n -> asc (padd bp n - 1) l2 ->
  (l2 = l3 /\ n' = n /\ padd bp n <> start l2 base \/ exists m, l2 = (padd bp n, m) :: l3 /\ n' = n + m) ->
  n <= n' /\ asc (padd bp n') l3 /\ (l2 <> [] -> ending (padd bp n') l3 = ending bp l2) /\
  (forall z, bp <= z < padd bp n' \/ covers l3 z <-> bp <= z < padd bp n \/ covers l2 z).
Proof.
  intros Hb Hn Ha [(-> & -> & Hne)|(m & -> & ->)].
  - split; [lia|]. split; [|split; [by destruct l3 as [|[]]|done]]. destruct l3 as [|[b t] l3]; [done|]. cbn in *. destruct Ha as (? & ? & ?).
    split_and!; [lia|done|done].
  - destruct Ha as (_ & Hm & Ha). split; [lia|]. replace (padd bp (n + m)) with (padd (padd bp n) m) by (unfold padd; lia).
    split; [done|]. split; [done|]. intros z. rewrite heap_covers_cons. unfold padd, UNIT in *.
    destruct (Z.lt_ge_cases z (bp + 8 * n)); intuition lia.
Qed.

(** The nodes around a freed block: the list free leaves. *)
Lemma free_ok_joined s l l1 p k l2 l3 bp n h :
  free_ok s l -> (base, 0) :: l = l1 ++ (p, k) :: l2 -> 0 < n -> padd p k <= bp -> base < bp ->
  asc (padd bp n) l3 -> Forall (fun b => 0 < snd b) l3 -> ending (padd bp n) l3 <= brk s ->
  chain h (l1 ++ joined p k bp n ++ l3) base ->
  exists l', (base, 0) :: l' = l1 ++ joined p k bp n ++ l3 /\ free_ok (Heap h p (brk s)) l'.
Proof.
  intros H E Hn Hp Hb Ha3 Hs3 He Hc. pose proof (nodes_asc s l H) as Ha. rewrite E in Ha. apply asc_app in Ha as [Ha1 (Hp1 & Hk & _)].
  destruct (asc_joined _ p k bp n Hp1 Hk ltac:(lia) Hp) as [Haj Hej].
  assert (Ha' : asc (base - 1) (l1 ++ joined p k bp n ++ l3)).
  { rewrite !asc_app, ending_app, Hej || rewrite !asc_app, Hej. done. }
  assert (Hfp : p ∈ (l1 ++ joined p k bp n ++ l3).*1).
  { rewrite !fmap_app, !elem_of_app. right; left. unfold joined. zcase; by left. }
  assert (Hend : ending (base - 1) (l1 ++ joined p k bp n ++ l3) <= brk s) by (by rewrite !ending_app, Hej).
  assert (Hsz : Forall (fun b => 0 < snd b) l /\ 0 < base < brk s /\ brk s <= 2147483648) by (split; [|split]; apply H).
  destruct Hsz as (Hsl & Hb0 & Hmax). destruct l1 as [|b1 l1]; cbn [app] in E; simplify_eq E.
  - intros <- <- <-. assert (Ej : joined base 0 bp n = [(base, 0); (bp, n)]) by (unfold joined, padd; zcase; [lia|done]).
    rewrite Ej in *. exists ((bp, n) :: l3). split; [done|]. split; [done|done| |constructor; [cbn; lia|done]|split; [|done]|done].
    + replace base with (padd base 0) by (unfold padd; lia). apply Ha'.
    + replace base with (padd base 0) by (unfold padd; lia). done.
  - intros <- ->. exists (l1 ++ joined p k bp n ++ l3). split; [done|]. rewrite !Forall_app, Forall_cons in Hsl. destruct Hsl as (Hs1 & Hsk & _). cbn in Hsk.
    assert (Eb : padd base 0 = base) by (unfold padd; lia).
    split; [done|done|rewrite <-Eb; apply Ha'| |split; [rewrite <-Eb at 1; done|done]|done].
    rewrite !Forall_app. split; [done|]. split; [|done]. unfold joined. zcase; repeat constructor; cbn; lia.
Qed.

Lemma covers_nodes l z : covers ((base, 0) :: l) z <-> covers l z.
Proof. rewrite heap_covers_cons. unfold padd. intuition lia. Qed.

Lemma node_covered s l a : free_ok s l -> a ∈ l.*1 -> covers l a.
Proof.
  intros H Hx. apply list_elem_of_fmap in Hx as ([b t] & -> & Hx). apply Exists_exists. exists (b, t). split; [done|].
  pose proof (fo_size _ _ H) as Hs. rewrite Forall_forall in Hs. specialize (Hs _ Hx). unfold inside, padd, UNIT. cbn in *. lia.
Qed.

(** Where free puts a block that is not free: between [p] and the nodes [l2]. *)
Lemma free_site s l bp n :
  free_ok s l -> base < bp -> 0 < n -> padd bp n <= brk s -> (forall z, bp <= z < padd bp n -> ~ covers l z) ->
  exists l1 p k l2, (base, 0) :: l = l1 ++ (p, k) :: l2 /\ free_loop (free_fuel s) bp (freep s) s = Ret p s /\ p < bp /\
    padd p k <= bp /\ 0 <= k /\ base <= p /\ asc (padd bp n - 1) l2 /\ Forall (fun b => 0 < snd b) l2 /\ ending bp l2 <= brk s /\ (bp ∉ l.*1).
Proof.
  intros H Hb Hn Hin Hfree.
  assert (Hnin : bp ∉ l.*1) by (intros Hx; eapply (Hfree bp), node_covered; [unfold padd, UNIT; lia|done|done]).
  destruct (free_walk s l bp H Hb Hnin) as (l1 & p & k & l2 & E & Hw & Hp & Hafter). exists l1, p, k, l2.
  pose proof (nodes_asc s l H) as Ha. pose proof (fo_end _ _ H) as [He Hmax]. rewrite E in Ha.
  assert (Hs2 : Forall (fun b => 0 < snd b) l2).
  { pose proof (fo_size _ _ H) as Hs. destruct l1; cbn in E; simplify_eq; [done|].
    apply Forall_app in Hs as [_ Hs]. by apply Forall_cons in Hs as [_ ?]. }
  destruct (block_between _ _ _ _ _ bp n Ha Hs2 Hn Hp Hafter) as [Hpk Ha2].
  { intros z Hz. rewrite <-E, covers_nodes. by apply Hfree. }
  assert (Hbp : base <= p) by (destruct (asc_bound _ _ p k Ha) as (? & _); [apply elem_of_app; right; left|lia]).
  split_and!; try done; [by apply asc_app in Ha as [_ (_ & ? & _)]|].
  apply (f_equal (ending (base - 1))) in E. rewrite ending_app in E. cbn in E. fold (ending (padd base 0) l) in E.
  replace (padd base 0) with base in E by (unfold padd; lia).
  destruct l2 as [|[b t] l2]; cbn in *; [unfold padd, UNIT in *; lia|]. fold (ending (padd b t) l2) in E |- *. lia.
Qed.

Lemma free_correct s l bp n o :
  free_ok s l -> base < bp -> hdrs s !! bp = Some (Hdr o n) -> 0 < n -> padd bp n <= brk s ->
  (forall z, bp <= z < padd bp n -> ~ covers l z) ->
  exists s' l', free (padd bp 1) s = Ret tt s' /\ free_ok s' l' /\ brk s' = brk s /\
    (forall z, covers l' z <-> covers l z \/ bp <= z < padd bp n) /\
    (forall x, x <> bp -> (x ∉ base :: l.*1) -> hdrs s' !! x = hdrs s !! x) /\ Exists (fun b => n <= snd b) l' /\
    (length l' <= S (length l))%nat.
Proof.
  intros H Hb Hbp Hn Hin Hfree. pose proof (fo_base _ _ H) as Hb0. pose proof (fo_end _ _ H) as [_ Hmax].
  destruct (free_site s l bp n H Hb Hn Hin Hfree) as (l1 & p & k & l2 & E & Hw & Hp & Hpk & Hk & Hbp' & Ha2 & Hs2 & He2 & Hnin).
  pose proof (nodes_asc s l H) as Ha. pose proof (fo_chain _ _ H) as Hc. rewrite E in Ha, Hc.
  apply chain_app in Hc as [Hc1 [Hph Hc3]]. cbn [start] in Hc1.
  destruct (join_next_ok s bp n o l2 Hbp Hc3) as (h1 & n' & l3 & E1 & Hbp1 & Hf1 & Hcase); [lia|done|done|eapply asc_weaken; [|exact Ha2]; unfold padd, UNIT; lia|done|done|].
  destruct (asc_next bp n n' l2 l3 Hb Hn Ha2 Hcase) as (Hnn & Ha3 & Hend3 & Hcov3).
  assert (Hsub : exists d, l2 = d ++ l3) by (destruct Hcase as [(-> & _)|(m & -> & _)]; [by exists []|by eexists [_]]).
  assert (He3 : ending (padd bp n') l3 <= brk s).
  { destruct l2 as [|b l2]; [|by rewrite Hend3]. by destruct Hcase as [(<- & -> & _)|(m & [=] & _)]. }
  pose proof (ending_ge _ _ Ha3).
  destruct (join_prev_ok (set_hdrs h1 s) p k (Some (start l2 base)) bp n' (start l3 base)) as (h2 & E2 & Hf2 & Hcj);
    [cbn; by rewrite Hf1 by lia|done|lia|unfold padd, UNIT, u32_mod in *; lia|]. cbn [hdrs set_hdrs] in Hf2.
  pose proof (asc_NoDup _ _ Ha) as Hnd. rewrite fmap_app in Hnd. apply NoDup_app in Hnd as (_ & Hnd1 & Hnd2). apply NoDup_cons in Hnd2 as [Hnd2 _].
  assert (Hnode : forall x, x ∈ l1.*1 \/ x ∈ l2.*1 -> x <> bp).
  { intros x Hx ->. assert (Hbl : bp ∈ ((base, 0) :: l).*1) by (rewrite E, fmap_app, elem_of_app; cbn; rewrite elem_of_cons; tauto).
    cbn in Hbl. apply elem_of_cons in Hbl as [?|?]; [lia|done]. }
  assert (Hsame : forall x, x ∈ l1.*1 \/ x ∈ l2.*1 -> h2 !! x = hdrs s !! x).
  { intros x Hx. rewrite Hf2, Hf1; [done|by apply Hnode|]. intros ->. destruct Hx as [Hx|Hx]; [|done]. apply (Hnd1 _ Hx). by left. }
  destruct (free_ok_joined s l l1 p k l2 l3 bp n' h2 H E) as (l' & El & Hok); [lia|done|done|done| |done| |].
  { destruct Hsub as [d ->]. by apply Forall_app in Hs2 as [_ ?]. }
  { apply chain_app. rewrite start_app. split.
    - eapply chain_frame; [intros x Hx; apply Hsame; by left|]. unfold joined. by destruct (padd p k =? bp).
    - apply chain_app. split; [done|]. destruct Hsub as [d ->]. apply chain_app in Hc3 as [_ Hc3].
      eapply chain_frame; [|exact Hc3]. intros x Hx. apply Hsame. right. rewrite fmap_app, elem_of_app. by right. }
  exists (Heap h2 p (brk s)), l'. split; [|split; [done|split; [done|split_and!]]].
  - unfold free, bind, get. replace (padd (padd bp 1) (-1)) with bp by (unfold padd; lia). rewrite Hw.
    by rewrite (get_ptr_ret _ _ _ _ Hph), E1, E2.
  - intros z. rewrite <-covers_nodes, El, <-(covers_nodes l), E, !covers_app, covers_joined, heap_covers_cons by lia.
    specialize (Hcov3 z). clear -Hcov3. tauto.
  - intros x Hx Hxl. change (base :: l.*1) with (((base, 0) :: l).*1) in Hxl. rewrite E, fmap_app, not_elem_of_app in Hxl.
    destruct Hxl as [_ Hxl]. cbn in Hxl. apply not_elem_of_cons in Hxl as [Hxp _]. cbn. by rewrite Hf2, Hf1.
  - assert (Hex : Exists (fun b => n <= snd b) ((base, 0) :: l')).
    { rewrite El, !Exists_app. right; left. unfold joined. zcase; [left; cbn; lia|right; left; cbn; lia]. }
    apply Exists_cons in Hex as [Hex|Hex]; [cbn in Hex; lia|done].
  - apply (f_equal length) in E, El. destruct Hsub as [d ->]. rewrite !length_app in *. cbn [length] in E, El. rewrite length_app in E.
    assert (length (joined p k bp n') <= 2)%nat by (unfold joined; zcase; cbn; lia). lia.
Qed.
(** ** Taking a block *)

(** What is left of a block of which the first [j] units stay free. *)
Definition keep (p j : Z) : list (Z * Z) := if j =? 0 then [] else [(p, j)].

Lemma asc_keep lo a p k b j : asc lo (a ++ (p, k) :: b) -> 0 <= j < k ->
  asc lo (a ++ keep p j ++ b) /\ ending lo (a ++ keep p j ++ b) <= ending lo (a ++ (p, k) :: b) /\
  (forall z, covers (a ++ keep p j ++ b) z <-> covers (a ++ (p, k) :: b) z /\ ~ padd p j <= z < padd p k).
Proof.
  intros Ha Hj. pose proof (fun c t => asc_mid lo a p k b c t Ha) as Hmid. apply asc_app in Ha as [Ha (Hp & Hk & Hb)].
  assert (Hb' : asc (padd p j) b) by (eapply asc_weaken; [|exact Hb]; unfold padd, UNIT; lia).
  assert (Hb'' : asc (ending lo a) b) by (eapply asc_weaken; [|exact Hb]; unfold padd, UNIT; lia).
  split; [|split].
  - unfold keep. zcase; rewrite !asc_app; [done|]. cbn. split; [done|]. split_and!; done || lia.
  - rewrite !ending_app. cbn. fold (ending (padd p k) b). pose proof (ending_ge _ _ Hb).
    unfold keep. zcase; cbn; destruct b as [|[c t] b]; cbn; unfold padd, UNIT in *; lia.
  - intros z. assert (Hza : covers a z -> z < p).
    { intros Hz. apply Exists_exists in Hz as ([c t] & Hin & Hz). destruct (Hmid c t) as [Hm _]. specialize (Hm Hin). unfold inside in Hz. cbn in Hz. lia. }
    assert (Hzb : covers b z -> padd p k < z).
    { intros Hz. apply Exists_exists in Hz as ([c t] & Hin & Hz). destruct (Hmid c t) as [_ Hm]. specialize (Hm Hin). unfold inside in Hz. cbn in Hz. lia. }
    assert (Hzk : covers (keep p j) z <-> p <= z < padd p j) by (unfold keep, padd; zcase; rewrite ?heap_covers_cons, heap_covers_nil; unfold padd; intuition lia).
    rewrite !covers_app, heap_covers_cons, Hzk. assert (p <= padd p j < padd p k) by (unfold padd, UNIT; lia). split.
    + intros [Hz|[Hz|Hz]]; [specialize (Hza Hz); split; [by left|lia]|split; [right; left; lia|lia]|].
      specialize (Hzb Hz). split; [by right; right|lia].
    + intros [[Hz|[Hz|Hz]] Hn]; [by left|right; left; lia|by right; right].
Qed.

Lemma free_ok_keep s l a p k b j h fp :
  free_ok s l -> (base, 0) :: l = a ++ (p, k) :: b -> a <> [] -> 0 <= j < k ->
  chain h (a ++ keep p j ++ b) base -> fp ∈ a.*1 ->
  exists l', (base, 0) :: l' = a ++ keep p j ++ b /\ free_ok (Heap h fp (brk s)) l' /\
    (forall z, covers l' z <-> covers l z /\ ~ padd p j <= z < padd p k).
Proof.
  intros H E Hne Hj Hc Hfp. pose proof (nodes_asc s l H) as Ha. rewrite E in Ha.
  destruct (asc_keep _ _ _ _ _ j Ha Hj) as (Ha' & He' & Hcov). destruct a as [|b0 a]; [done|]. injection E as <- E.
  pose proof (fo_end _ _ H) as [He Hmax]. pose proof (fo_size _ _ H) as Hs.
  exists (a ++ keep p j ++ b). split; [done|]. assert (Eb : padd base 0 = base) by (unfold padd; lia). split.
  - split; [apply H|done|rewrite <-Eb; apply Ha'| |split; [|done]|cbn in Hfp |- *].
    + rewrite E, Forall_app, Forall_cons in Hs. destruct Hs as (? & _ & ?). rewrite !Forall_app. split; [done|]. split; [|done].
      unfold keep. zcase; repeat constructor. cbn. lia.
    + cbn in He'. rewrite Eb, <-E in He'. unfold ending in *. cbn in *. lia.
    + apply elem_of_cons. apply elem_of_cons in Hfp as [->|Hfp]; [by left|right]. rewrite fmap_app, elem_of_app. by left.
  - intros z. specialize (Hcov z). cbn [app] in Hcov. rewrite !(heap_covers_cons _ base 0), <-E in Hcov. rewrite Eb in Hcov. intuition lia.
Qed.
(** The block [q] of [n] units, handed out from the free bytes [l]; [l'] is
    what is free afterwards. *)
Definition handed (s s' : heap) (free free' : Z -> Prop) (q n : Z) : Prop :=
  (exists o, hdrs s' !! q = Some (Hdr o n)) /\ base < q /\ padd q n <= brk s' /\
  (forall z, q <= z < padd q n -> free z) /\ (forall z, free' z <-> free z /\ ~ q <= z < padd q n).

Lemma tail_elem l a' x y (p k : Z) b : (base, 0) :: l = (a' ++ [(x, y)]) ++ (p, k) :: b -> (p, k) ∈ l.
Proof.
  intros E. destruct a' as [|c a']; cbn in E; simplify_eq E; intros; subst; [by left|].
  rewrite !elem_of_app. right. by left.
Qed.

Lemma take_exact s l a' prevp kp p k b :
  free_ok s l -> (base, 0) :: l = (a' ++ [(prevp, kp)]) ++ (p, k) :: b -> 0 < k ->
  exists s' l', take_block k prevp p k s = Ret (padd p 1) s' /\ free_ok s' l' /\ brk s' = brk s /\
    handed s s' (covers l) (covers l') p k /\ (forall x, (x ∉ base :: l.*1) -> hdrs s' !! x = hdrs s !! x).
Proof.
  intros H E Hk. pose proof (nodes_asc s l H) as Ha. pose proof (fo_chain _ _ H) as Hc. rewrite E in Ha, Hc.
  pose proof (asc_NoDup _ _ Ha) as Hnd. pose proof (chain_at _ _ _ _ _ _ Hc) as Hph.
  assert (Hprev : hdrs s !! prevp = Some (Hdr (Some p) kp)) by (rewrite <-app_assoc in Hc; by apply chain_at in Hc).
  unfold take_block, bind. rewrite Z.eqb_refl, (get_ptr_ret _ _ _ _ Hph), (set_ptr_ret _ _ _ _ _ Hprev). cbn.
  set (h := <[prevp := _]> (hdrs s)). rewrite <-app_assoc in Hnd, Hc. cbn [app] in Hnd, Hc. rewrite fmap_app in Hnd. apply NoDup_app in Hnd as (_ & Hnd1 & Hnd2).
  cbn in Hnd2. apply NoDup_cons in Hnd2 as [Hnd2 Hnd3]. apply chain_app in Hc as [Hc1 (_ & _ & Hc2)].
  destruct (free_ok_keep s l (a' ++ [(prevp, kp)]) p k b 0 h prevp H E) as (l' & El & Hok & Hcov); [by destruct a'|lia| |by rewrite fmap_app, elem_of_app; right; left|].
  { cbn [keep Z.eqb]. rewrite <-app_assoc. apply chain_app. split.
    - eapply chain_frame; [|exact Hc1]. intros x Hx. apply lookup_insert_ne. intros ->. apply (Hnd1 _ Hx). by left.
    - cbn. split; [unfold h; by rewrite lookup_insert_eq|]. eapply chain_frame; [|exact Hc2]. intros x Hx. apply lookup_insert_ne. intros ->.
      apply Hnd2. by right. }
  exists (Heap h prevp (brk s)), l'. replace (padd p 0) with p in Hcov by (unfold padd; lia).
  assert (Hpin : (p, k) ∈ l) by (apply tail_elem with a' prevp kp b; done).
  destruct (asc_bound _ _ _ _ (fo_asc _ _ H) Hpin) as (? & _ & ?). pose proof (fo_end _ _ H) as [? _].
  split; [done|]. split; [done|]. split; [done|]. split.
  - split; [|split; [done|split; [cbn; lia|split; [|done]]]].
    + exists (Some (start b base)). cbn. unfold h. rewrite lookup_insert_ne; [done|]. intros ->. apply Hnd2. by left.
    + intros z Hz. apply Exists_exists. by exists (p, k).
  - intros x Hx. cbn. unfold h. apply lookup_insert_ne. intros ->. apply Hx.
    change (base :: l.*1) with (((base, 0) :: l).*1). rewrite E, !fmap_app, !elem_of_app. left; right. by left.
Qed.
(** An address inside a block is no other node. *)
Lemma inner_not_node s l a p k b q :
  free_ok s l -> (base, 0) :: l = a ++ (p, k) :: b -> p < q < padd p k -> (q ∉ base :: l.*1).
Proof.
  intros H E Hq Hin. pose proof (nodes_asc s l H) as Ha. rewrite E in Ha.
  change (base :: l.*1) with (((base, 0) :: l).*1) in Hin. rewrite E in Hin. apply list_elem_of_fmap in Hin as ([c t] & Ec & Hin). cbn in Ec. subst c.
  destruct (asc_mid _ _ _ _ _ q t Ha) as [H1 H2]. destruct (asc_bound _ _ _ _ Ha Hin) as (_ & ? & _).
  rewrite elem_of_app, elem_of_cons in Hin. destruct Hin as [Hin|[[= -> ->]|Hin]]; [specialize (H1 Hin)|lia|specialize (H2 Hin); lia].
  unfold padd, UNIT in *. lia.
Qed.

Lemma take_split s l a' prevp kp p k b n :
  free_ok s l -> (base, 0) :: l = (a' ++ [(prevp, kp)]) ++ (p, k) :: b -> 0 < n < k ->
  exists s' l', take_block n prevp p k s = Ret (padd (padd p (k - n)) 1) s' /\ free_ok s' l' /\ brk s' = brk s /\
    handed s s' (covers l) (covers l') (padd p (k - n)) n /\
    (forall x, (x ∉ base :: l.*1) -> x <> padd p (k - n) -> hdrs s' !! x = hdrs s !! x).
Proof.
  intros H E Hn. pose proof (nodes_asc s l H) as Ha. pose proof (fo_chain _ _ H) as Hc. rewrite E in Ha, Hc.
  pose proof (asc_NoDup _ _ Ha) as Hnd. pose proof (chain_at _ _ _ _ _ _ Hc) as Hph.
  pose proof (tail_elem _ _ _ _ _ _ _ E) as Hpin. destruct (asc_bound _ _ _ _ (fo_asc _ _ H) Hpin) as (Hbp & _ & Hpe).
  pose proof (fo_end _ _ H) as [He Hmax]. pose proof (fo_base _ _ H) as Hb0.
  assert (Hu : u32 (k - n) = k - n) by (apply u32_small; unfold padd, UNIT, u32_mod in *; lia).
  unfold take_block, bind. rewrite (proj2 (Z.eqb_neq k n)), Hu, (set_size_ret _ _ _ _ _ Hph) by lia. cbn.
  set (q := padd p (k - n)). assert (Hq : p < q < padd p k) by (unfold q, padd, UNIT; lia).
  pose proof (inner_not_node s l _ _ _ _ q H E Hq) as Hqn. set (h1 := <[p := _]> (hdrs s)). set (h2 := <[q := _]> h1).
  rewrite fmap_app in Hnd. apply NoDup_app in Hnd as (_ & Hnd1 & Hnd2). cbn in Hnd2. apply NoDup_cons in Hnd2 as [Hnd2 _].
  assert (Hsame : forall x, x ∈ base :: l.*1 -> x <> p -> h2 !! x = hdrs s !! x).
  { intros x Hx Hxp. unfold h2, h1. rewrite !lookup_insert_ne; [done|done|]. intros ->. done. }
  assert (Hnodes : forall x, x ∈ (a' ++ [(prevp, kp)]).*1 \/ x ∈ b.*1 -> x ∈ base :: l.*1).
  { intros x Hx. change (base :: l.*1) with (((base, 0) :: l).*1). rewrite E, fmap_app, elem_of_app. cbn. rewrite elem_of_cons. tauto. }
  apply chain_app in Hc as [Hc1 (_ & Hc2)].
  destruct (free_ok_keep s l (a' ++ [(prevp, kp)]) p k b (k - n) h2 prevp H E) as (l' & El & Hok & Hcov);
    [by destruct a'|lia| |by rewrite fmap_app, elem_of_app; right; left|].
  { unfold keep. rewrite (proj2 (Z.eqb_neq (k - n) 0)) by lia. apply chain_app. split; [|split].
    - eapply chain_frame; [|exact Hc1]. intros x Hx. apply Hsame; [apply Hnodes; by left|]. intros ->. apply (Hnd1 _ Hx). by left.
    - unfold h2. rewrite lookup_insert_ne by lia. unfold h1. by rewrite lookup_insert_eq.
    - eapply chain_frame; [|exact Hc2]. intros x Hx. apply Hsame; [apply Hnodes; by right|]. by intros ->. }
  exists (Heap h2 prevp (brk s)), l'. split; [done|]. split; [done|]. split; [done|]. fold q in Hcov. split.
  - assert (Hqe : padd q n = padd p k) by (unfold q, padd, UNIT; lia).
    split; [eexists; cbn; unfold h2; by rewrite lookup_insert_eq|]. split; [lia|]. rewrite Hqe. split; [cbn; lia|]. split; [|done].
    intros z Hz. apply Exists_exists. exists (p, k). split; [done|]. unfold inside. cbn. lia.
  - intros x Hx Hxq. cbn. unfold h2, h1. rewrite !lookup_insert_ne; [done| |done]. intros ->. apply Hx.
    right. by apply list_elem_of_fmap_2 with (f := fst) in Hpin.
Qed.

Lemma take_ok s l a' prevp kp p k b n :
  free_ok s l -> (base, 0) :: l = (a' ++ [(prevp, kp)]) ++ (p, k) :: b -> 0 < n <= k ->
  exists s' l' q, take_block n prevp p k s = Ret (padd q 1) s' /\ free_ok s' l' /\ brk s' = brk s /\
    handed s s' (covers l) (covers l') q n /\ (forall x, (x ∉ base :: l.*1) -> x <> q -> hdrs s' !! x = hdrs s !! x).
Proof.
  intros H E Hn. destruct (decide (k = n)) as [->|Hne].
  - destruct (take_exact s l _ _ _ _ _ _ H E) as (s' & l' & ? & ? & ? & ? & Hf); [lia|]. exists s', l', p. split_and!; try done. auto.
  - destruct (take_split s l _ _ _ _ _ _ n H E) as (s' & l' & ?); [lia|]. by exists s', l', (padd p (k - n)).
Qed.
(** ** The walk of malloc *)

(** The address of the last node passed. *)
Definition passed (f : Z) (d : list (Z * Z)) : Z := foldl (fun _ b => fst b) f d.

Lemma passed_snoc f (d : list (Z * Z)) sf : exists d' k, (f, sf) :: d = d' ++ [(passed f d, k)].
Proof.
  revert f sf. induction d as [|[a k] d IH]; intros f sf; [by exists [], sf|]. destruct (IH a k) as (d' & k' & E).
  exists ((f, sf) :: d'), k'. cbn. f_equal. exact E.
Qed.

Lemma malloc_loop_step grants s fuel n prevp a v k : hdrs s !! a = Some (Hdr (Some v) k) ->
  malloc_loop grants (S fuel) n prevp a s =
  if n <=? k then take_block n prevp a k s
  else if a =? freep s then
    bind (morecore grants n) (fun p => if p =? 0 then ret 0 else let! q := get_ptr p in malloc_loop grants fuel n p q) s
  else malloc_loop grants fuel n a v s.
Proof.
  intros Hh. cbn [malloc_loop]. unfold bind at 1. rewrite (get_size_ret _ _ _ _ Hh). destruct (n <=? k); [done|].
  unfold bind at 1, gets. destruct (a =? freep s); [done|]. unfold bind at 1. by rewrite (get_ptr_ret _ _ _ _ Hh).
Qed.

Lemma malloc_walk grants s e n rest0 f sf prevp fuel :
  freep s = f -> (f ∉ rest0.*1) -> chain (hdrs s) (rest0 ++ [(f, sf)]) e -> (length rest0 < fuel)%nat ->
  (exists d p k tl, rest0 ++ [(f, sf)] = d ++ (p, k) :: tl /\ Forall (fun b => snd b < n) d /\ n <= k /\
     malloc_loop grants fuel n prevp (start (rest0 ++ [(f, sf)]) e) s = take_block n (passed prevp d) p k s) \/
  Forall (fun b => snd b < n) (rest0 ++ [(f, sf)]) /\
  malloc_loop grants fuel n prevp (start (rest0 ++ [(f, sf)]) e) s =
    bind (morecore grants n) (fun p => if p =? 0 then ret 0 else
      let! q := get_ptr p in malloc_loop grants (fuel - S (length rest0)) n p q) s.
Proof.
  intros Hf. revert prevp fuel. induction rest0 as [|[a k] rest0 IH]; intros prevp [|fuel] Hnin Hc Hfuel; cbn [length] in Hfuel; try lia;
    cbn [app start]; destruct Hc as [Hh Hc]; rewrite (malloc_loop_step _ _ _ _ _ _ _ _ Hh).
  - destruct (Z.leb_spec n sf) as [Hle|Hlt]; [left; by exists [], f, sf, []|]. right. split; [by repeat constructor|].
    rewrite Hf, Z.eqb_refl. cbn [length]. by rewrite Nat.sub_1_r.
  - cbn [fmap list_fmap] in Hnin. apply not_elem_of_cons in Hnin as [Hne Hnin]. cbn [fst] in Hne.
    destruct (Z.leb_spec n k) as [Hle|Hlt]; [left; by exists [], a, k, (rest0 ++ [(f, sf)])|].
    rewrite (proj2 (Z.eqb_neq a (freep s))) by congruence.
    destruct (IH a fuel Hnin Hc ltac:(lia)) as [(d & p & j & tl & E & Hd & Hj & Hm)|[Hall Hm]].
    + left. exists ((a, k) :: d), p, j, tl. rewrite E. split; [done|]. split; [by constructor|]. split; [done|]. by rewrite <-E, Hm.
    + right. split; [by constructor|]. cbn [length]. rewrite Hm. by rewrite Nat.sub_succ.
Qed.

(** A node found on the walk from [f], in the list in address order. *)
Lemma found_in_order l l1 f sf l2 d p k tl :
  (base, 0) :: l = l1 ++ (f, sf) :: l2 -> l2 ++ l1 ++ [(f, sf)] = d ++ (p, k) :: tl -> 0 < k ->
  exists a' kp b, (base, 0) :: l = (a' ++ [(passed f d, kp)]) ++ (p, k) :: b.
Proof.
  intros E Er Hk. assert (Hhead : forall t, l1 ++ [(f, sf)] = (p, k) :: t -> False).
  { intros t Ht. destruct l1; cbn in E, Ht; simplify_eq; lia. }
  apply app_eq_inv in Er as [(k' & -> & Er)|(k' & -> & Er)].
  - destruct k' as [|c k']; cbn in Er; [by edestruct Hhead|]. injection Er as <- _.
    destruct (passed_snoc f d sf) as (d' & kp & Ed). exists (l1 ++ d'), kp, k'.
    rewrite E, app_comm_cons, Ed, <-!app_assoc. done.
  - destruct k' as [|[y ky] k' _] using rev_ind; cbn in Er; [by edestruct Hhead|].
    exists k', ky, (tl ++ l2). unfold passed. rewrite !foldl_app. cbn.
    rewrite E, cons_middle, app_assoc, Er, <-!app_assoc. done.
Qed.
(** The list read from the node after [freep], which comes last. *)
Lemma rotate s l : free_ok s l ->
  exists l1 sf l2, (base, 0) :: l = l1 ++ (freep s, sf) :: l2 /\ (freep s ∉ (l2 ++ l1).*1) /\
    hdrs s !! freep s = Some (Hdr (Some (start l2 base)) sf) /\
    chain (hdrs s) ((l2 ++ l1) ++ [(freep s, sf)]) (start l2 base) /\
    start ((l2 ++ l1) ++ [(freep s, sf)]) (start l2 base) = start l2 base /\ length (l2 ++ l1) = length l.
Proof.
  intros H. destruct (list_elem_of_fmap_1 fst ((base, 0) :: l) (freep s) (fo_freep _ _ H)) as ([f sf] & Ef & Hin). cbn in Ef. subst f.
  apply list_elem_of_split in Hin as (l1 & l2 & E). exists l1, sf, l2. split; [done|].
  pose proof (fo_chain _ _ H) as Hc. pose proof (asc_NoDup _ _ (nodes_asc s l H)) as Hnd. rewrite E in Hc, Hnd.
  assert (Hst : start (l1 ++ [(freep s, sf)]) (start l2 base) = base) by (destruct l1; cbn in E |- *; by simplify_eq).
  split_and!.
  - rewrite fmap_app in Hnd. apply NoDup_app in Hnd as (_ & Hnd1 & Hnd2). cbn in Hnd2. apply NoDup_cons in Hnd2 as [Hnd2 _].
    rewrite fmap_app, not_elem_of_app. split; [done|]. intros Hx. apply (Hnd1 _ Hx). by left.
  - by apply chain_at in Hc.
  - rewrite <-app_assoc. apply chain_app in Hc as [Hc1 [Hh Hc2]]. apply chain_app. split; [by rewrite Hst|].
    apply chain_app. done.
  - rewrite <-app_assoc, start_app, Hst. by destruct l2 as [|[]].
  - apply (f_equal length) in E. rewrite length_app in *. cbn in E. lia.
Qed.
(** ** Memory from the kernel *)

Section kernel.
Context (grants : Z -> Z -> bool).
(** A program's memory stays below half of the address space: growproc
    returns the old size as an int. *)
Hypothesis grants_bound : forall b n, grants b n = true -> b + n <= 2147483648.

Lemma free_ok_grow s l n h : free_ok s l -> 0 <= n -> brk s + n <= 2147483648 ->
  (forall x, x ∈ base :: l.*1 -> h !! x = hdrs s !! x) -> free_ok (Heap h (freep s) (brk s + n)) l.
Proof.
  intros H Hn Hmax Hf. pose proof (fo_base _ _ H). pose proof (fo_end _ _ H). split; cbn [hdrs freep brk]; try (apply H || lia).
  eapply chain_frame; [|apply H]. exact Hf.
Qed.

Lemma node_below_brk s l x : free_ok s l -> x ∈ base :: l.*1 -> x < brk s.
Proof.
  intros H Hx. pose proof (fo_base _ _ H). pose proof (fo_end _ _ H). apply elem_of_cons in Hx as [->|Hx]; [lia|].
  apply list_elem_of_fmap in Hx as ([a k] & -> & Hx). destruct (asc_bound _ _ _ _ (fo_asc _ _ H) Hx) as (? & ? & ?).
  pose proof (fo_size _ _ H) as Hs. rewrite Forall_forall in Hs. specialize (Hs _ Hx). unfold padd, UNIT in *. cbn in *. lia.
Qed.

Lemma covered_below_brk s l z : free_ok s l -> covers l z -> base < z < brk s.
Proof.
  intros H Hz. apply Exists_exists in Hz as ([a k] & Hx & Hz). destruct (asc_bound _ _ _ _ (fo_asc _ _ H) Hx) as (? & ? & ?).
  pose proof (fo_end _ _ H). unfold inside in Hz. cbn in Hz. lia.
Qed.

Lemma morecore_ok s l n : free_ok s l -> 0 < n < 268435456 ->
  morecore grants n s = Ret 0 s \/
  exists s' l', morecore grants n s = Ret (freep s') s' /\ free_ok s' l' /\ brk s < brk s' /\
    (forall z, covers l' z <-> covers l z \/ brk s <= z < brk s') /\ Exists (fun b => n <= snd b) l' /\
    (forall x, (x ∉ base :: l.*1) -> x <> brk s -> hdrs s' !! x = hdrs s !! x) /\ (length l' <= S (length l))%nat.
Proof.
  intros H Hn. unfold morecore. set (nu := if n <? PAGE then PAGE else n).
  assert (Hnu : 0 < n <= nu /\ nu < 268435456) by (unfold nu, PAGE; zcase; lia).
  assert (Es : s32 (nu * UNIT) = nu * UNIT) by (apply s32_small; unfold UNIT; lia). pose proof (fo_base _ _ H) as Hb.
  destruct (grants (brk s) (nu * UNIT)) eqn:Eg; [right|left; unfold bind, sbrk; by rewrite Es, Eg].
  pose proof (grants_bound _ _ Eg) as Hg. set (s0 := Heap (hdrs s) (freep s) (brk s + nu * UNIT)).
  set (s1 := set_hdrs (<[brk s := Hdr (hdrs s0 !! brk s ≫= h_ptr) nu]> (hdrs s0)) s0).
  assert (Hnode : forall x, x ∈ base :: l.*1 -> x <> brk s) by (intros x Hx; pose proof (node_below_brk _ _ _ H Hx); lia).
  assert (H1 : free_ok s1 l).
  { refine (free_ok_grow s l (nu * UNIT) _ H _ Hg _); [unfold UNIT; lia|]. intros x Hx. apply lookup_insert_ne. intros <-. by eapply Hnode. }
  assert (Hh1 : exists o, hdrs s1 !! brk s = Some (Hdr o nu)) by (eexists; apply lookup_insert_eq). destruct Hh1 as [o Hh1].
  destruct (free_correct s1 l (brk s) nu o H1 ltac:(lia) Hh1 ltac:(lia)) as (s2 & l' & E2 & H2 & Hb2 & Hcov & Hfr & Hex & Hlen);
    [cbn; unfold padd; lia|intros z Hz Hc; pose proof (covered_below_brk _ _ _ H Hc); lia|].
  exists s2, l'. assert (Ebrk : brk s2 = padd (brk s) nu) by (rewrite Hb2; cbn; unfold padd; lia).
  split; [unfold bind, sbrk; rewrite Es, Eg, (proj2 (Z.eqb_neq (brk s) (-1))) by lia; fold s0; unfold set_size, modify; fold s1; by rewrite E2|].
  split; [done|]. split; [rewrite Ebrk; unfold padd, UNIT; lia|]. rewrite Ebrk. split; [done|]. split.
  - eapply Exists_impl; [exact Hex|]. cbn. intros. lia.
  - split; [|done]. intros x Hx Hxb. rewrite Hfr by done. cbn. by rewrite lookup_insert_ne.
Qed.
(** Headers outside the free memory stay. *)
Definition same_headers (s s' : heap) (l : list (Z * Z)) : Prop :=
  forall x, x <> base -> x < brk s -> ~ covers l x -> hdrs s' !! x = hdrs s !! x.

Lemma not_node s l x : free_ok s l -> x <> base -> ~ covers l x -> (x ∉ base :: l.*1).
Proof. intros H Hb Hc Hx. apply elem_of_cons in Hx as [->|Hx]; [done|]. by eapply Hc, node_covered. Qed.

(** One pass over the list: a block is taken, or none is large enough. *)
Lemma malloc_pass s l n fuel : free_ok s l -> 0 < n -> (length l < fuel)%nat ->
  exists q0, get_ptr (freep s) s = Ret q0 s /\
  ((exists s' l' q, malloc_loop grants fuel n (freep s) q0 s = Ret (padd q 1) s' /\ free_ok s' l' /\ brk s' = brk s /\
      handed s s' (covers l) (covers l') q n /\ same_headers s s' l) \/
   Forall (fun b => snd b < n) l /\
   malloc_loop grants fuel n (freep s) q0 s =
     bind (morecore grants n) (fun p => if p =? 0 then ret 0 else
       let! q := get_ptr p in malloc_loop grants (fuel - S (length l)) n p q) s).
Proof.
  intros H Hn Hfuel. destruct (rotate s l H) as (l1 & sf & l2 & E & Hnin & Hh & Hc & Hst & Hlen).
  exists (start l2 base). split; [by eapply get_ptr_ret|].
  destruct (malloc_walk grants s _ n _ _ _ (freep s) fuel eq_refl Hnin Hc) as [(d & p & k & tl & Er & Hd & Hk & Hm)|[Hall Hm]]; [lia| |];
    rewrite Hst in Hm.
  - left. rewrite <-app_assoc in Er. destruct (found_in_order _ _ _ _ _ _ _ _ _ E Er) as (a' & kp & b & El); [lia|].
    destruct (take_ok s l _ _ _ _ _ _ n H El) as (s' & l' & q & Et & Hok & Hb & Hh' & Hfr); [lia|].
    exists s', l', q. rewrite Hm, Et. split_and!; try done. intros x Hxb _ Hxc. apply Hfr; [by eapply not_node|].
    intros ->. apply Hxc. destruct Hh' as (_ & _ & _ & Hin & _). apply Hin. unfold padd, UNIT. lia.
  - right. rewrite <-Hlen. split; [|done]. rewrite !Forall_app, Forall_singleton in Hall. destruct Hall as [[Hl2 Hl1] Hf].
    assert (Hall : Forall (fun b => snd b < n) ((base, 0) :: l)) by (rewrite E, Forall_app, Forall_cons; done).
    by apply Forall_cons in Hall as [_ ?].
Qed.

Lemma malloc_loop_ok s l n fuel : free_ok s l -> 0 < n < 268435456 -> (2 * length l + 3 <= fuel)%nat ->
  exists q0, get_ptr (freep s) s = Ret q0 s /\
  (malloc_loop grants fuel n (freep s) q0 s = Ret 0 s \/
   exists s' l' q, malloc_loop grants fuel n (freep s) q0 s = Ret (padd q 1) s' /\ free_ok s' l' /\ brk s <= brk s' /\
     handed s s' (fun z => covers l z \/ brk s <= z < brk s') (covers l') q n /\ same_headers s s' l).
Proof.
  intros H Hn Hfuel. destruct (malloc_pass s l n fuel H) as (q0 & Eq & Hpass); [lia|lia|]. exists q0. split; [done|].
  destruct Hpass as [(s' & l' & q & Em & Hok & Hb & Hh & Hs)|[Hsmall Em]].
  { right. exists s', l', q. split_and!; try done; [lia|]. destruct Hh as (H1 & H2 & H3 & H4 & H5).
    split_and!; try done; [by auto|]. intros z. rewrite H5, Hb. intuition lia. }
  rewrite Em. unfold bind. destruct (morecore_ok s l n H Hn) as [E|(s1 & l1 & E & H1 & Hb1 & Hc1 & Hex & Hf1 & Hlen)]; rewrite E; [by left|right].
  pose proof (fo_base _ _ H1) as Hb. assert (Hfp : freep s1 <> 0).
  { pose proof (fo_freep _ _ H1) as Hx. apply elem_of_cons in Hx as [->|Hx]; [lia|].
    pose proof (covered_below_brk _ _ _ H1 (node_covered _ _ _ H1 Hx)). lia. }
  rewrite (proj2 (Z.eqb_neq _ _)) by done.
  destruct (malloc_pass s1 l1 n (fuel - S (length l)) H1) as (q1 & -> & [(s' & l' & q & Em1 & Hok & Hb' & Hh & Hs)|[Hsm _]]); [lia|lia| |].
  2: { exfalso. apply Exists_exists in Hex as (b & Hin & Hb2). rewrite Forall_forall in Hsm. specialize (Hsm _ Hin). cbn in *. lia. }
  exists s', l', q. rewrite Em1. split; [done|]. split; [done|]. split; [lia|]. rewrite Hb'. split.
  - destruct Hh as (G1 & G2 & G3 & G4 & G5). split_and!; try done.
    + intros z Hz. by apply Hc1, G4.
    + intros z. by rewrite G5, Hc1.
  - intros x Hxb Hxs Hxc. rewrite Hs; [apply Hf1; [by eapply not_node|lia]|done|lia|]. rewrite Hc1. intros [?|?]; [done|lia].
Qed.

(** Before the first call there is no list. *)
Definition heap_ok (s : heap) (l : list (Z * Z)) : Prop :=
  free_ok s l \/ freep s = 0 /\ l = [] /\ 0 < base < brk s /\ brk s <= 2147483648.

Lemma units_bounds nbytes : 0 <= nbytes <= 2147483600 ->
  0 < units nbytes < 268435456 /\ nbytes + UNIT <= UNIT * units nbytes < nbytes + 3 * UNIT.
Proof.
  intros H. unfold units, UNIT. rewrite (u32_small (nbytes + 8 - 1)) by (unfold u32_mod; lia).
  pose proof (Z.div_mod (nbytes + 8 - 1) 8 ltac:(lia)). pose proof (Z.mod_pos_bound (nbytes + 8 - 1) 8 ltac:(lia)).
  rewrite u32_small by (unfold u32_mod; lia). lia.
Qed.

Lemma malloc_correct s l nbytes : heap_ok s l -> 0 <= nbytes <= 2147483600 ->
  (exists s', malloc base grants nbytes s = Ret 0 s' /\ free_ok s' l /\ brk s' = brk s /\ same_headers s s' l) \/
  exists s' l' q, malloc base grants nbytes s = Ret (padd q 1) s' /\ free_ok s' l' /\ brk s <= brk s' /\
    handed s s' (fun z => covers l z \/ brk s <= z < brk s') (covers l') q (units nbytes) /\ same_headers s s' l.
Proof.
  intros Hok Hn. destruct (units_bounds _ Hn) as [Hu _]. set (n := units nbytes) in *.
  assert (Hinit : exists s0, (forall A (k : M heap A), bind (gets freep) (fun fp => (if fp =? 0 then
      modify (fun s => set_freep base (set_hdrs (<[base := Hdr (Some base) 0]> (hdrs s)) s)) else ret tt) ;; k) s = k s0) /\
      free_ok s0 l /\ brk s0 = brk s /\ same_headers s s0 l).
  { destruct Hok as [H|(Hf & -> & Hb & Hmax)].
    - exists s. split; [|done]. intros A k. unfold bind, gets. rewrite (proj2 (Z.eqb_neq _ _)); [done|].
      pose proof (fo_base _ _ H). pose proof (fo_freep _ _ H) as Hx. apply elem_of_cons in Hx as [->|Hx]; [lia|].
      pose proof (covered_below_brk _ _ _ H (node_covered _ _ _ H Hx)). lia.
    - exists (set_freep base (set_hdrs (<[base := Hdr (Some base) 0]> (hdrs s)) s)). split; [intros A k; unfold bind, gets; by rewrite Hf|].
      split; [split; cbn; try done; try lia; [by rewrite lookup_insert_eq|by left]|]. split; [done|].
      intros x Hx _ _. cbn. by rewrite lookup_insert_ne. }
  destruct Hinit as (s0 & Ek & H0 & Hb0 & Hs0).
  destruct (malloc_loop_ok s0 l n (2 * size (hdrs s0) + 4) H0 Hu) as (q0 & Eq & Hm); [pose proof (nodes_length _ _ H0); lia|].
  assert (Emal : malloc base grants nbytes s = malloc_loop grants (2 * size (hdrs s0) + 4) n (freep s0) q0 s0).
  { unfold malloc. rewrite Ek. unfold bind at 1, gets. unfold bind at 1. by rewrite Eq. }
  rewrite Emal. destruct Hm as [->|(s' & l' & q & -> & Hok' & Hb' & Hh & Hs)]; [left; by exists s0|right].
  exists s', l', q. rewrite Hb0 in *. split_and!; try done.
  intros x H1 H2 H3. rewrite Hs; [by apply Hs0|done|lia|done].
Qed.
(** ** Programs

    The pointers a program holds, with the sizes it asked for; it frees only
    those. *)
Inductive op : Type := Malloc (nbytes : Z) | Free (k : nat).
Definition op_ok (o : op) : Prop := match o with Malloc n => 0 <= n <= 2147483600 | Free _ => True end.

Definition run_op (o : op) (live : list (Z * Z)) : M heap (list (Z * Z)) :=
  match o with
  | Malloc n => let! r := malloc base grants n in ret (if r =? 0 then live else (r, n) :: live)
  | Free k => match live !! k with
              | Some (r, _) => free r ;; ret (delete k live)
              | None => ret live
              end
  end.
Fixpoint run (ops : list op) (live : list (Z * Z)) : M heap (list (Z * Z)) :=
  match ops with
  | [] => ret live
  | o :: ops => let! live := run_op o live in run ops live
  end.

(** The block of a pointer: its header and its units. *)
Definition block_of (b : Z * Z) (z : Z) : Prop := padd (fst b) (-1) <= z < padd (padd (fst b) (-1)) (units (snd b)).
Definition apart (b c : Z * Z) : Prop := forall z, block_of b z -> block_of c z -> False.

Record live_ok (b0 : Z) (s : heap) (l live : list (Z * Z)) : Prop := LiveOk {
  lo_free : heap_ok s l;
  lo_init : free_ok s l \/ live = [];
  lo_above : forall z, covers l z -> b0 <= z;
  lo_brk : base < b0 <= brk s;
  lo_size : Forall (fun b => 0 <= snd b <= 2147483600) live;
  lo_hdr : Forall (fun b => exists o, hdrs s !! padd (fst b) (-1) = Some (Hdr o (units (snd b)))) live;
  lo_in : Forall (fun b => forall z, block_of b z -> b0 <= z < brk s /\ ~ covers l z) live;
  lo_apart : ForallOrdPairs apart live }.

Lemma header_in b : 0 <= snd b <= 2147483600 -> block_of b (padd (fst b) (-1)).
Proof. intros Hb. destruct (units_bounds _ Hb) as [Hu _]. unfold block_of, padd, UNIT. lia. Qed.

Lemma malloc_live b0 s l live n : live_ok b0 s l live -> 0 <= n <= 2147483600 ->
  wp (run_op (Malloc n) live) s (fun live' s' => exists l', live_ok b0 s' l' live').
Proof.
  intros H Hn. pose proof (lo_brk _ _ _ _ H) as Hbrk. pose proof (lo_size _ _ _ _ H) as Hsz. pose proof (lo_in _ _ _ _ H) as Hin.
  assert (Hkeep : forall s', same_headers s s' l -> Forall (fun b => exists o, hdrs s' !! padd (fst b) (-1) = Some (Hdr o (units (snd b)))) live).
  { intros s' Hs. pose proof (lo_hdr _ _ _ _ H) as Hh. rewrite Forall_forall in Hh, Hsz, Hin |- *. intros b Hb.
    destruct (Hin b Hb _ (header_in _ (Hsz b Hb))) as [Hz Hc]. rewrite Hs; [by apply Hh|lia|lia|done]. }
  unfold wp, run_op, bind. destruct (malloc_correct s l n (lo_free _ _ _ _ H) Hn) as [(s' & -> & Hf & Eb & Hs)|(s' & l' & q & -> & Hf & Hb & Hh & Hs)].
  - exists l. split; [by left|by left|apply H|by rewrite Eb|done|by apply Hkeep|by rewrite Eb|apply H].
  - destruct Hh as (Hhd & Hq & Hqe & Hqin & Hcov). rewrite (proj2 (Z.eqb_neq _ 0)) by (unfold padd, UNIT; pose proof (fo_base _ _ Hf); lia).
    assert (Eq : padd (padd q 1) (-1) = q) by (unfold padd; lia). pose proof (lo_above _ _ _ _ H) as Hab. exists l'. split.
    + by left.
    + by left.
    + intros z Hz. apply Hcov in Hz as [[Hz|Hz] _]; [by apply Hab|lia].
    + lia.
    + by constructor.
    + constructor; [cbn; by rewrite Eq|by apply Hkeep].
    + constructor.
      * intros z. unfold block_of. cbn. rewrite Eq. intros Hz. split; [|rewrite Hcov; tauto]. split; [|lia].
        destruct (Hqin z Hz); [by apply Hab|lia].
      * eapply Forall_impl; [exact Hin|]. cbn. intros b Hb' z Hz. destruct (Hb' z Hz) as [? Hc]. split; [lia|]. rewrite Hcov.
        intros [[?|?] _]; [done|lia].
    + constructor; [|apply H]. rewrite Forall_forall in Hin |- *. intros b Hb' z Hz1 Hz2. destruct (Hin b Hb' z Hz2) as [? Hc].
      unfold block_of in Hz1. cbn in Hz1. rewrite Eq in Hz1. destruct (Hqin z Hz1); [done|lia].
Qed.
Lemma pairs_split {A} (R : A -> A -> Prop) l1 x l2 : (forall a b, R a b -> R b a) ->
  ForallOrdPairs R (l1 ++ x :: l2) -> ForallOrdPairs R (l1 ++ l2) /\ Forall (R x) (l1 ++ l2).
Proof.
  intros Hsym. induction l1 as [|a l1 IH]; cbn; intros H; inversion H as [|? ? Ha Hr]; subst; [done|].
  destruct (IH Hr) as [IH1 IH2]. rewrite Forall_app, Forall_cons in Ha. destruct Ha as (H1 & H2 & H3).
  split; [constructor; [by apply Forall_app|done]|constructor; [by apply Hsym|done]].
Qed.

Lemma pairs_lookup {A} (R : A -> A -> Prop) l i j x y : (forall a b, R a b -> R b a) ->
  ForallOrdPairs R l -> i <> j -> l !! i = Some x -> l !! j = Some y -> R x y.
Proof.
  intros Hsym H. revert i j. induction H as [|a l Ha _ IH]; intros [|i] [|j] Hij Hi Hj; try done; cbn in Hi, Hj; simplify_eq.
  - rewrite Forall_lookup in Ha. by eapply Ha.
  - rewrite Forall_lookup in Ha. by eapply Hsym, Ha.
  - apply (IH i j); [congruence|done|done].
Qed.

(** The bytes of a pointer inside its block. *)
Lemma block_bytes r n z : 0 <= n <= 2147483600 -> padd r (-1) <= z < r + n -> block_of (r, n) z.
Proof. intros Hn Hz. destruct (units_bounds _ Hn) as [_ Hu]. unfold block_of, padd, UNIT in *. cbn. lia. Qed.

Lemma apart_bytes r n r' n' : 0 <= n <= 2147483600 -> 0 <= n' <= 2147483600 -> apart (r, n) (r', n') -> r + n <= r' \/ r' + n' <= r.
Proof.
  intros Hn Hn' Ha. destruct (Z.le_gt_cases (r + n) r'), (Z.le_gt_cases (r' + n') r); try lia. exfalso.
  destruct (units_bounds _ Hn) as [_ Hu], (units_bounds _ Hn') as [_ Hu'].
  apply (Ha (Z.max (padd r (-1)) (padd r' (-1)))); unfold block_of, padd, UNIT in *; cbn; lia.
Qed.

Lemma free_live b0 s l live k : live_ok b0 s l live ->
  wp (run_op (Free k) live) s (fun live' s' => exists l', live_ok b0 s' l' live').
Proof.
  intros H. unfold wp, run_op. destruct (live !! k) as [[r n]|] eqn:Ek; [|by exists l].
  assert (Hf : free_ok s l) by (destruct (lo_init _ _ _ _ H) as [| ->]; done).
  set (bp := padd r (-1)). assert (Er : padd bp 1 = r) by (unfold bp, padd; lia).
  pose proof (lo_size _ _ _ _ H) as Hsz. pose proof (lo_in _ _ _ _ H) as Hin. pose proof (lo_hdr _ _ _ _ H) as Hh. pose proof (lo_apart _ _ _ _ H) as Hap.
  destruct (list_elem_of_split_length _ _ _ Ek) as (l1 & l2 & El & Hk). rewrite El in Hsz, Hin, Hh, Hap.
  apply pairs_split in Hap as [Hap Hapx]; [|intros a b Hab z Hz1 Hz2; by eapply Hab].
  rewrite Forall_app, Forall_cons in Hsz, Hin, Hh. destruct Hsz as (S1 & S2 & S3), Hin as (I1 & I2 & I3), Hh as (H1 & [o H2] & H3).
  cbn [fst snd] in *. fold bp in H2. destruct (units_bounds _ S2) as [Hu _].
  assert (Hbin : forall z, bp <= z < padd bp (units n) -> b0 <= z < brk s /\ ~ covers l z) by (intros z Hz; by apply I2).
  destruct (free_correct s l bp (units n) o Hf) as (s' & l' & E & Hf' & Eb & Hcov & Hfr & _); [|done|lia| |intros z Hz; by apply Hbin|].
  { destruct (Hbin bp) as [? _]; [unfold padd, UNIT; lia|]. pose proof (lo_brk _ _ _ _ H). lia. }
  { destruct (Hbin (padd bp (units n) - 1)) as [? _]; [unfold padd, UNIT in *; lia|]. lia. }
  unfold bind. rewrite <-Er, E. exists l'. rewrite El, Hk, delete_middle. pose proof (lo_brk _ _ _ _ H) as Hbrk. split.
  - by left.
  - by left.
  - intros z Hz. apply Hcov in Hz as [Hz|Hz]; [by apply H|by apply Hbin].
  - by rewrite Eb.
  - by apply Forall_app.
  - assert (Hall : Forall (fun b => 0 <= snd b <= 2147483600) (l1 ++ l2)) by (by apply Forall_app).
    assert (Hhd : Forall (fun b => exists o, hdrs s !! padd (fst b) (-1) = Some (Hdr o (units (snd b)))) (l1 ++ l2)) by (by apply Forall_app).
    assert (Hi : Forall (fun b => forall z, block_of b z -> b0 <= z < brk s /\ ~ covers l z) (l1 ++ l2)) by (by apply Forall_app).
    rewrite Forall_forall in Hall, Hhd, Hi, Hapx |- *. intros b Hb. pose proof (header_in _ (Hall b Hb)) as Hhb.
    destruct (Hi b Hb _ Hhb) as [? Hc]. rewrite Hfr; [by apply Hhd| |apply (not_node s); [done|lia|done]].
    intros Ebp. apply (Hapx b Hb (padd (fst b) (-1))); [|done]. unfold block_of. cbn. fold bp. rewrite Ebp. unfold padd, UNIT; lia.
  - assert (Hi : Forall (fun b => forall z, block_of b z -> b0 <= z < brk s /\ ~ covers l z) (l1 ++ l2)) by (by apply Forall_app).
    rewrite Forall_forall in Hi, Hapx |- *. intros b Hb z Hz. destruct (Hi b Hb z Hz) as [? Hc]. rewrite Eb, Hcov. split; [done|].
    intros [?|?]; [done|]. by apply (Hapx b Hb z).
  - done.
Qed.
End kernel.
End list.


Definition demo_grants (b n : Z) : bool := b + n <=? 65536.
Definition demo_ops : list op := [Malloc 100; Malloc 20; Free 1; Malloc 12; Malloc 50000].
Definition held (r : res heap (list (Z * Z))) : list (Z * Z) := match r with Ret live _ => live | _ => [] end.


(** A request near 2^32 wraps around to one unit, the header alone. *)
Lemma huge_request_wraps : units 4294967290 = 1.
Proof. reflexivity. Qed.
