(* ===== verification/Mkfs.v ===== *)
(** * mkfs.c: the builder of file system images

    The image is the file behind [fsfd]: its length in sectors and the sectors
    written, the others being holes that read as zeros.  The calls to exit and
    the failing assertions are outcomes.  The program writes 512 bytes from
    the address of structures that are smaller; what lies behind them in
    memory is a parameter.  Values go through [xint] and [xshort], which give
    the little-endian bytes that the accessors of Layout read and write. *)

From S2P Require Import Prelude CString Layout Ide Bio Fs.

Definition ninodes : Z := 200.
Definition jblocks : Z := NJB.

Record mk_st : Type := MkSt {
  img : gmap Z block; flen : Z; freeblock : Z; usedblocks : Z; freeinode : Z }.

(** The sector as it reads. *)
Definition sect (m : mk_st) (sec : Z) : block := default zero_block (img m !! sec).

(** [xshort] and [xint]: the bytes of the result in memory. *)
Definition xshort (x : Z) : list Z := [u8 x; u8 (Z.shiftr x 8)].
Definition xint (x : Z) : list Z := [u8 x; u8 (Z.shiftr x 8); u8 (Z.shiftr x 16); u8 (Z.shiftr x 24)].

Definition exit1 {A} (why : string) : M mk_st A := panic why.
Definition assert (b : bool) : M mk_st unit := if b then ret tt else panic "assertion failed".

(** ** Sectors *)

Definition wsect (sec : Z) (b : block) : M mk_st unit :=
  modify (fun m => MkSt (<[sec := b]> (img m)) (Z.max (flen m) (sec + 1)) (freeblock m) (usedblocks m) (freeinode m)).

Definition rsect (sec : Z) : M mk_st block :=
  let! m := get in
  if sec <? flen m then ret (sect m sec) else exit1 "read".

(** ** Inodes

    A [struct dinode] is the kernel's inode record with its other fields 0,
    except for the number that says where it goes. *)

Definition i2b (inum : Z) : Z := u32 (inum / IPB + 2 + jblocks).
Definition blank (inum : Z) : inode := Inode 0 inum 0 0 0 0 0 0 0 (replicate (Z.to_nat NADDRS) 0).

Definition winode (inum : Z) (ip : inode) : M mk_st unit :=
  let bn := i2b inum in
  let! buf := rsect bn in
  wsect bn (store_dinode ip buf).

Definition rinode (inum : Z) : M mk_st inode :=
  let! buf := rsect (i2b inum) in
  ret (load_dinode buf (blank inum)).

Definition ialloc (type : Z) : M mk_st Z :=
  let! m := get in
  let inum := freeinode m in
  modify (fun m => MkSt (img m) (flen m) (freeblock m) (usedblocks m) (u32 (freeinode m + 1))) ;;
  winode inum (set_size 0 (set_nlink 1 (set_type type (blank inum)))) ;;
  ret inum.

(** [freeblock++; usedblocks++] *)
Definition fresh : M mk_st Z :=
  let! m := get in
  modify (fun m => MkSt (img m) (flen m) (u32 (freeblock m + 1)) (u32 (usedblocks m + 1)) (freeinode m)) ;;
  ret (freeblock m).

(** [din.addrs[k]], allocated if it is 0. *)
Definition addr_or_fresh (din : inode) (k : nat) : M mk_st inode :=
  if default 0 (i_addrs din !! k) =? 0 then let! x := fresh in ret (set_addr k x din) else ret din.

(** Word [k] of the indirect block [sec], allocated if it is 0. *)
Definition word_or_fresh (sec k : Z) : M mk_st Z :=
  let! indirect := rsect sec in
  if get_u32 (4 * k) indirect =? 0 then
    let! x := fresh in
    wsect sec (put_u32 (4 * k) x indirect) ;;
    ret x
  else ret (get_u32 (4 * k) indirect).

(** The sector of block [fbn], and the inode with the addresses it needs. *)
Definition file_sector (din : inode) (fbn : Z) : M mk_st (inode * Z) :=
  assert (fbn <? MAXFILE) ;;
  if fbn <? NDIRECT then
    let! din := addr_or_fresh din (Z.to_nat fbn) in
    ret (din, default 0 (i_addrs din !! Z.to_nat fbn))
  else
    let! din := addr_or_fresh din (Z.to_nat NDIRECT) in
    let! a := word_or_fresh (default 0 (i_addrs din !! Z.to_nat NDIRECT)) ((fbn - NDIRECT) / NPTR) in
    let! x := word_or_fresh a ((fbn - NDIRECT) mod NPTR) in
    ret (din, x).

(** The loop of iappend, for the [n] bytes [p]; each turn takes at least one. *)
Fixpoint iappend_loop (fuel : nat) (din : inode) (off : Z) (p : list Z) : M mk_st (inode * Z) :=
  match p with
  | [] => ret (din, off)
  | _ =>
      match fuel with
      | O => fun m => Spin m
      | S fuel =>
          let fbn := off / BSIZE in
          let! r := file_sector din fbn in
          let n1 := Z.min (Z.of_nat (length p)) (u32 ((fbn + 1) * BSIZE - off)) in
          let! buf := rsect r.2 in
          wsect r.2 (splice (Z.to_nat (off - fbn * BSIZE)) (take (Z.to_nat n1) p) buf) ;;
          iappend_loop fuel r.1 (u32 (off + n1)) (drop (Z.to_nat n1) p)
      end
  end.

Definition iappend (inum : Z) (p : list Z) : M mk_st unit :=
  let! din := rinode inum in
  let! r := iappend_loop (length p) din (i_size din) p in
  winode inum (set_size r.2 r.1).

(** ** The bitmap *)

Fixpoint set_bits (n : nat) (d : block) : block :=
  match n with O => d | S n => bit_set (set_bits n d) (Z.of_nat n) end.

(** [buf] has 512 bytes: more than 4096 bits do not fit. *)
Definition balloc (used : Z) : M mk_st unit :=
  if BPB <? used then undef "balloc: buf[i/8]"
  else wsect (ninodes / IPB + jblocks + 3) (set_bits (Z.to_nat used) zero_block).

(** ** The program *)

Section main.
(** What follows [sb] and the local [jsb] in memory. *)
Context (sb_tail jsb_tail : list Z).

Definition jinit : M mk_st unit :=
  wsect 2 (xint (jblocks - 1) ++ xint 3 ++ xint 3 ++ xint 0 ++ jsb_tail).

(** A journal with one transaction, for tests of recovery; [trans_tail] is the
    rest of the block list and what follows it. *)
Definition jtest (trans_tail : list Z) : M mk_st unit :=
  wsect 2 (xint (jblocks - 1) ++ xint 3 ++ xint 8 ++ xint 0 ++ jsb_tail) ;;
  let! m := get in
  wsect 3 (xint 555 ++ xint 5 ++ concat (map (fun k => xint (freeblock m + k)) [1; 2; 3; 4; 5]) ++ trans_tail) ;;
  mfor [4; 5; 6; 7; 8] (fun sec => wsect sec (concat (replicate 128 [66; 80; 74; 49]))).

(** An argument: its name, and what successive reads of the file return, or
    [None] if it cannot be opened. *)
Definition arg : Type := list Z * option (list (list Z)).

Definition base_name (name : list Z) : list Z :=
  match name with c :: rest => if c =? 95 then rest else name | [] => name end.

Definition add_file (rootino : Z) (a : arg) : M mk_st unit :=
  assert (negb (existsb (Z.eqb slash) a.1)) ;;
  match a.2 with
  | None => exit1 "open"
  | Some chunks =>
      let! inum := ialloc T_FILE in
      iappend rootino (xshort inum ++ map (fun k => nth k (base_name a.1) 0) (seq 0 DIRSIZ)) ;;
      mfor chunks (iappend inum)
  end.

(** The globals main computes from the size of the file system. *)
Definition fs_size (kb : Z) : Z := kb * 1024 / BSIZE.
Definition bitblocks (kb : Z) : Z := fs_size kb / (512 * 8) + 1.
Definition reserved (kb : Z) : Z := ninodes / IPB + 3 + bitblocks kb + jblocks.

Definition dot : list Z := [46].
Definition dotdot : list Z := [46; 46].
Definition pad_name (name : list Z) : list Z := name ++ replicate (DIRSIZ - length name) 0.

(** The empty image: zeros, the superblock and the journal's. *)
Definition init_image (kb : Z) : M mk_st unit :=
  let size := fs_size kb in
  let used := reserved kb in
  modify (fun m => MkSt ∅ 0 used used (freeinode m)) ;;
  let nblocks := size - used in
  assert (u32 (nblocks + used) =? size) ;;
  mfor (seq 0 (Z.to_nat (u32 (nblocks + used)))) (fun i => wsect (Z.of_nat i) zero_block) ;;
  wsect 1 (xint size ++ xint nblocks ++ xint ninodes ++ sb_tail) ;;
  jinit.

(** The root directory with its first two entries. *)
Definition make_root : M mk_st Z :=
  let! rootino := ialloc T_DIR in
  assert (rootino =? 1) ;;
  iappend rootino (xshort rootino ++ pad_name dot) ;;
  iappend rootino (xshort rootino ++ pad_name dotdot) ;;
  ret rootino.

(** Its size, rounded up at the end. *)
Definition fix_root (rootino : Z) : M mk_st unit :=
  let! din := rinode rootino in
  winode rootino (set_size (u32 ((i_size din / BSIZE + 1) * BSIZE)) din).

(** [kb] is [atoi(argv[1])], the image is [argv[2]]; [None] is a command line
    without them. *)
Definition main (cmdline : option (Z * list arg)) : M mk_st unit :=
  match cmdline with
  | None => exit1 "usage"
  | Some (kb, files) =>
      if kb <? 1 then exit1 "usage"
      else
        assert (kb <=? 32767) ;;
        init_image kb ;;
        let! rootino := make_root in
        mfor files (add_file rootino) ;;
        fix_root rootino ;;
        let! m := get in
        balloc (usedblocks m)
  end.
End main.

(** The program as it starts: [freeinode = 1]. *)
Definition mk_boot : mk_st := MkSt ∅ 0 0 0 1.
