(* ===== verification/MkfsBlocks.v ===== *)
(** * mkfs.c: where files go

    The invariant of the image under construction: a map from the places of a
    file's block tree to sectors, injective, that the pointers in the indirect
    blocks spell out and whose data sectors hold the contents.  Every step of
    iappend preserves it. *)

From S2P Require Import Prelude CString Layout Ide Bio Fs FsInode FsRead Mkfs.

(** ** Places in a file's block tree *)

Inductive role : Type := Data (bn : Z) | Ind | Ind2 (j : Z).

#[export] Instance role_eq_dec : EqDecision role.
Proof. solve_decision. Defined.

Definition role_ok (r : role) : Prop :=
  match r with Data bn => 0 <= bn < MAXFILE | Ind => True | Ind2 j => 0 <= j < 128 end.

(** The first block of the file that needs the place. *)
Definition first_bn (r : role) : Z :=
  match r with Data bn => bn | Ind => 12 | Ind2 j => 12 + 128 * j end.

(** The place of the pointer to it: a word of an indirect block, or an
    address of the inode. *)
Definition up (r : role) : option (role * Z) :=
  match r with
  | Data bn => if bn <? 12 then None else Some (Ind2 ((bn - 12) / 128), (bn - 12) mod 128)
  | Ind => None
  | Ind2 j => Some (Ind, j)
  end.
Definition slot (r : role) : option nat :=
  match r with
  | Data bn => if bn <? 12 then Some (Z.to_nat bn) else None
  | Ind => Some 12%nat
  | Ind2 _ => None
  end.

(** Two places have their pointer in the same word only if they are equal. *)
Lemma up_inj r r' q k : role_ok r -> role_ok r' -> up r = Some (q, k) -> up r' = Some (q, k) -> r = r'.
Proof.
  destruct r as [b| |j], r' as [b'| |j']; simpl; try done; intros H1 H2 E1 E2;
    repeat zcase; simplify_eq; f_equal; Z.div_mod_to_equations; lia.
Qed.

Lemma up_ok r q k : role_ok r -> up r = Some (q, k) -> role_ok q /\ 0 <= k < 128 /\ first_bn q <= first_bn r.
Proof.
  destruct r as [b| |j]; simpl; try done; intros H1 E; repeat zcase; simplify_eq; simpl;
    change MAXFILE with 16396 in *; Z.div_mod_to_equations; lia.
Qed.

Lemma addr_slot_inj r r' k : role_ok r -> role_ok r' -> slot r = Some k -> slot r' = Some k -> r = r'.
Proof.
  destruct r as [b| |j], r' as [b'| |j']; simpl; try done; intros H1 H2 E1 E2; repeat zcase; simplify_eq; done || (try f_equal; lia).
Qed.

Lemma addr_slot_lt r k : role_ok r -> slot r = Some k -> (k < 13)%nat.
Proof. destruct r; simpl; intros; repeat zcase; simplify_eq; lia. Qed.

Lemma slot_direct bn : bn < 12 -> slot (Data bn) = Some (Z.to_nat bn).
Proof. intros. simpl. zcase; [done|lia]. Qed.
Lemma slot_indirect bn : 12 <= bn -> slot (Data bn) = None.
Proof. intros. simpl. zcase; [lia|done]. Qed.
Lemma up_indirect bn : 12 <= bn -> up (Data bn) = Some (Ind2 ((bn - 12) / 128), (bn - 12) mod 128).
Proof. intros. simpl. zcase; [lia|done]. Qed.

(** ** Placements *)

Definition placement : Type := Z -> role -> option Z.
Definition place (i : Z) (r : role) (x : Z) (L : placement) : placement :=
  fun i' r' => if decide (i' = i /\ r' = r) then Some x else L i' r'.

Lemma place_eq i r x L : place i r x L i r = Some x.
Proof. unfold place. by rewrite decide_True. Qed.
Lemma place_ne i r x L i' r' : (i', r') <> (i, r) -> place i r x L i' r' = L i' r'.
Proof. intros H. unfold place. rewrite decide_False; [done|]. by intros [-> ->]. Qed.
Lemma place_case i r x L i' r' y :
  place i r x L i' r' = Some y -> (i' = i /\ r' = r /\ y = x) \/ ((i', r') <> (i, r) /\ L i' r' = Some y).
Proof.
  unfold place. case_decide as H; [destruct H as [-> ->]; left; naive_solver|].
  right. split; [|done]. intros E. apply H. naive_solver.
Qed.

Definition byte_at (l : list Z) (k : Z) : Z := default 0 (l !! Z.to_nat k).
Definition with_contents (i : Z) (c : list Z) (C : Z -> list Z) : Z -> list Z :=
  fun i' => if decide (i' = i) then c else C i'.

Lemma with_contents_eq i c C : with_contents i c C i = c.
Proof. unfold with_contents. by rewrite decide_True. Qed.
Lemma with_contents_ne i c C i' : i' <> i -> with_contents i c C i' = C i'.
Proof. intros. unfold with_contents. by rewrite decide_False. Qed.

(** ** The invariant

    [u0] is the first sector after the reserved ones, [N] the size. *)
Section blocks.
Context (u0 N : Z).
Hypothesis u0_pos : 0 < u0.
Hypothesis N_small : N < u32_mod.

Record blocks_ok (m : mk_st) (L : placement) (C : Z -> list Z) : Prop := {
  bo_len : flen m = N;
  bo_free : u0 <= freeblock m <= N;
  bo_used : usedblocks m = freeblock m;
  bo_block x : is_block (sect m x);
  bo_range i r x : L i r = Some x -> role_ok r /\ u0 <= x < freeblock m;
  bo_inj i r i' r' x : L i r = Some x -> L i' r' = Some x -> i = i' /\ r = r';
  bo_up i r q k : is_Some (L i r) -> up r = Some (q, k) -> is_Some (L i q);
  bo_word i r q k x : role_ok r -> up r = Some (q, k) -> L i q = Some x ->
    get_u32 (4 * k) (sect m x) = default 0 (L i r);
  bo_data i bn x : L i (Data bn) = Some x ->
    forall k, 0 <= k < 512 -> byte_at (sect m x) k = byte_at (C i) (512 * bn + k);
  bo_cover i bn : 0 <= bn -> 512 * bn < Z.of_nat (length (C i)) -> is_Some (L i (Data bn));
  bo_zero x : freeblock m <= x -> sect m x = zero_block }.

(** The addresses of inode [i]. *)
Definition addrs_ok (L : placement) (i : Z) (din : inode) : Prop :=
  length (i_addrs din) = 13%nat /\
  forall r k, role_ok r -> slot r = Some k -> default 0 (i_addrs din !! k) = default 0 (L i r).

(** Only the sectors from [u0] on have changed. *)
Definition low_same (m m' : mk_st) : Prop :=
  (forall x, x < u0 -> sect m' x = sect m x) /\ freeinode m' = freeinode m.

Lemma low_same_refl m : low_same m m.
Proof. done. Qed.
Lemma low_same_trans a b c : low_same a b -> low_same b c -> low_same a c.
Proof. intros [H1 E1] [H2 E2]. split; [|congruence]. intros x Hx. by rewrite H2, H1. Qed.

Lemma sect_wsect m sec b x :
  sect (MkSt (<[sec := b]> (img m)) (Z.max (flen m) (sec + 1)) (freeblock m) (usedblocks m) (freeinode m)) x
    = if decide (x = sec) then b else sect m x.
Proof. unfold sect. simpl. case_decide; subst; [by rewrite lookup_insert_eq|by rewrite lookup_insert_ne]. Qed.

Lemma zero_word k : 0 <= k < 128 -> get_u32 (4 * k) zero_block = 0.
Proof.
  intros Hk. unfold get_u32, getz, slice, zero_block. rewrite drop_replicate, take_replicate.
  replace (4 `min` (512 - Z.to_nat (4 * k)))%nat with 4%nat by lia. done.
Qed.

Lemma zero_byte k : byte_at zero_block k = 0.
Proof.
  unfold byte_at, zero_block. destruct (replicate 512 0 !! Z.to_nat k) eqn:E; [|done]. by apply lookup_replicate in E as [-> _].
Qed.

(** ** Allocation *)

Lemma byte_at_past l k : Z.of_nat (length l) <= k -> byte_at l k = 0.
Proof. intros H. unfold byte_at. by rewrite lookup_ge_None_2 by lia. Qed.

Lemma up_not_data r q k bn : up r = Some (q, k) -> q <> Data bn.
Proof. destruct r; simpl; intros; repeat zcase; naive_solver. Qed.
Lemma up_irrefl r k : up r <> Some (r, k).
Proof. destruct r; simpl; repeat zcase; naive_solver. Qed.

(** [m'] is [m] after the next free sector has been taken for place [r] of
    inode [i] and its pointer written, if that is on disk. *)
Definition took (i : Z) (r : role) (L : placement) (m m' : mk_st) : Prop :=
  flen m' = flen m /\ freeblock m' = freeblock m + 1 /\ usedblocks m' = usedblocks m + 1 /\
  freeinode m' = freeinode m /\
  match up r with
  | None => forall x, sect m' x = sect m x
  | Some (q, k) => exists s, L i q = Some s /\
      forall x, sect m' x = if decide (x = s) then put_u32 (4 * k) (freeblock m) (sect m s) else sect m x
  end.

Section take.
Context (i : Z) (r : role) (L : placement) (C : Z -> list Z) (m m' : mk_st).
Context (Hb : blocks_ok m L C) (Hr : role_ok r) (Hnone : L i r = None) (Hfree : freeblock m < N).
Context (Htook : took i r L m m').

(** The sectors that are not the pointer's. *)
Lemma took_other x : (forall q k, up r = Some (q, k) -> L i q <> Some x) -> sect m' x = sect m x.
Proof.
  intros Hx. pose proof Htook as (_ & _ & _ & _ & H). destruct (up r) as [[q k]|] eqn:E; [|done].
  destruct H as (s & Hs & H). rewrite H, decide_False; [done|]. intros ->. by apply (Hx q k).
Qed.

Lemma took_new x : freeblock m <= x -> sect m' x = zero_block.
Proof.
  intros Hx. rewrite took_other; [by apply (bo_zero _ _ _ Hb)|]. intros q k _ E.
  apply (bo_range _ _ _ Hb) in E. lia.
Qed.

Lemma took_block x : is_block (sect m' x).
Proof.
  pose proof Htook as (_ & _ & _ & _ & H). destruct (up r) as [[q k]|] eqn:E.
  - destruct H as (s & Hs & ->). case_decide; [|apply (bo_block _ _ _ Hb)]. subst.
    destruct (up_ok _ _ _ Hr E) as (_ & Hk & _). apply put_u32_block; [lia|apply (bo_block _ _ _ Hb)].
  - rewrite H. apply (bo_block _ _ _ Hb).
Qed.

Lemma took_word i' r' q k x :
  role_ok r' -> up r' = Some (q, k) -> place i r (freeblock m) L i' q = Some x ->
  get_u32 (4 * k) (sect m' x) = default 0 (place i r (freeblock m) L i' r').
Proof.
  intros Hr' Eu Hq. destruct (up_ok _ _ _ Hr' Eu) as (_ & Hk & _). pose proof (bo_free _ _ _ Hb) as Hf.
  apply place_case in Hq as [(-> & -> & ->)|(Hne & Hq)].
  - rewrite took_new, zero_word by lia. rewrite place_ne.
    2:{ intros [= ->]. by apply (up_irrefl r k). }
    destruct (L i r') eqn:E; [|done]. exfalso.
    destruct (bo_up _ _ _ Hb i r' r k) as [y Hy]; [by rewrite E|done|]. congruence.
  - destruct (decide ((i', r') = (i, r))) as [E|Hne'].
    + injection E as -> ->. rewrite place_eq. pose proof Htook as (_ & _ & _ & _ & H). rewrite Eu in H.
      destruct H as (s & Hs & ->). assert (s = x) as -> by congruence. rewrite decide_True by done. simpl.
      rewrite get_put_u32 by (lia || apply (bo_block _ _ _ Hb)). apply u32_small. lia.
    + rewrite place_ne by done. rewrite <-(bo_word _ _ _ Hb i' r' q k x Hr' Eu Hq).
      pose proof Htook as (_ & _ & _ & _ & H). destruct (up r) as [[q0 k0]|] eqn:E0; [|by rewrite H].
      destruct H as (s & Hs & ->). case_decide as Hx; [|done]. subst s.
      destruct (bo_inj _ _ _ Hb _ _ _ _ _ Hs Hq) as [-> ->].
      destruct (up_ok _ _ _ Hr E0) as (_ & Hk0 & _).
      assert (k <> k0) by (intros ->; apply Hne'; f_equal; by apply (up_inj _ _ q k0)).
      rewrite get_put_u32_ne by (lia || apply (bo_block _ _ _ Hb)). done.
Qed.

Lemma took_data i' bn x :
  place i r (freeblock m) L i' (Data bn) = Some x ->
  forall k, 0 <= k < 512 -> byte_at (sect m' x) k = byte_at (C i') (512 * bn + k).
Proof.
  intros H k Hk. apply place_case in H as [(-> & Er & ->)|(Hne & H)].
  - rewrite took_new, zero_byte by lia. symmetry. apply byte_at_past. pose proof Hr as Hbn. rewrite <-Er in Hbn. simpl in Hbn.
    destruct (Z.le_gt_cases (Z.of_nat (length (C i))) (512 * bn)); [lia|]. exfalso.
    destruct (bo_cover _ _ _ Hb i bn) as [y Hy]; [lia|lia|congruence].
  - rewrite took_other; [by apply (bo_data _ _ _ Hb)|]. intros q k0 E Hs.
    destruct (bo_inj _ _ _ Hb _ _ _ _ _ Hs H) as [_ ->]. by apply (up_not_data _ _ _ bn E).
Qed.

Lemma took_ok : blocks_ok m' (place i r (freeblock m) L) C.
Proof.
  pose proof (bo_free _ _ _ Hb) as Hf. pose proof Htook as (E1 & E2 & E3 & E4 & Hup). split.
  - rewrite E1. apply Hb.
  - lia.
  - rewrite E2, E3, (bo_used _ _ _ Hb). done.
  - apply took_block.
  - intros i' r' x [(-> & -> & ->)|(_ & H)]%place_case; [split; [done|lia]|]. apply (bo_range _ _ _ Hb) in H as [? ?]. split; [done|lia].
  - intros i1 r1 i2 r2 x [(-> & -> & Ex)|(_ & H1)]%place_case [(-> & -> & Ex')|(_ & H2)]%place_case; [done|..].
    + apply (bo_range _ _ _ Hb) in H2. lia.
    + apply (bo_range _ _ _ Hb) in H1. lia.
    + by apply (bo_inj _ _ _ Hb _ _ _ _ x).
  - intros i' r' q k [x Hx] Eu. destruct (decide ((i', q) = (i, r))) as [E|Hne].
    { injection E as -> ->. rewrite place_eq. by eexists. }
    rewrite place_ne by done. apply place_case in Hx as [(-> & -> & ->)|(_ & Hx)].
    + rewrite Eu in Hup. destruct Hup as (s & Hs & _). by eexists.
    + apply (bo_up _ _ _ Hb i' r' q k); [by eexists|done].
  - apply took_word.
  - apply took_data.
  - intros i' bn H1 H2. destruct (decide ((i', Data bn) = (i, r))) as [E|Hne].
    + unfold place. rewrite decide_True by (split; congruence). by eexists.
    + rewrite place_ne by done. by apply (bo_cover _ _ _ Hb).
  - intros x Hx. apply took_new. lia.
Qed.

Lemma took_low : low_same m m'.
Proof.
  split; [|apply Htook]. intros x Hx. apply took_other. intros q k _ E. apply (bo_range _ _ _ Hb) in E. lia.
Qed.
End take.

(** ** The steps of iappend *)

(** Place [r] of inode [i], on sector [x] if it had none. *)
Definition ensure (x : Z) (i : Z) (r : role) (L : placement) : placement :=
  match L i r with Some _ => L | None => place i r x L end.
Definition miss (L : placement) (i : Z) (r : role) : Z := match L i r with Some _ => 0 | None => 1 end.

(** [m'] holds the placement [L'], some [n] sectors further. *)
Definition stepped (m m' : mk_st) (L' : placement) (C : Z -> list Z) (n : Z) : Prop :=
  blocks_ok m' L' C /\ freeblock m' = freeblock m + n /\ low_same m m'.

Lemma nonzero_place m L C i r x : blocks_ok m L C -> L i r = Some x -> 0 < x < N.
Proof. intros Hb H. pose proof (bo_free _ _ _ Hb). apply (bo_range _ _ _ Hb) in H. lia. Qed.

Lemma word_or_fresh_spec m L C i r q k s :
  blocks_ok m L C -> role_ok r -> up r = Some (q, k) -> L i q = Some s -> freeblock m + miss L i r <= N ->
  wp (word_or_fresh s k) m (fun x m' =>
    ensure (freeblock m) i r L i r = Some x /\ stepped m m' (ensure (freeblock m) i r L) C (miss L i r)).
Proof.
  intros Hb Hr Eu Hs Hfit. pose proof (bo_free _ _ _ Hb) as Hf. pose proof (nonzero_place _ _ _ _ _ _ Hb Hs).
  unfold word_or_fresh, rsect. wp_steps. rewrite (bo_len _ _ _ Hb).
  destruct (Z.ltb_spec s N); [|lia]. wp_steps. rewrite (bo_word _ _ _ Hb i r q k s Hr Eu Hs).
  unfold ensure, miss in *. destruct (L i r) as [x|] eqn:E; simpl.
  - pose proof (nonzero_place _ _ _ _ _ _ Hb E). destruct (Z.eqb_spec x 0); [lia|]. wp_steps.
    split; [done|]. split; [done|]. split; [lia|apply low_same_refl].
  - unfold fresh, wsect. wp_steps. rewrite place_eq. split; [done|].
    assert (T : took i r L m (MkSt (<[s := put_u32 (4 * k) (freeblock m) (sect m s)]> (img m)) (Z.max N (s + 1))
                 (u32 (freeblock m + 1)) (u32 (usedblocks m + 1)) (freeinode m))).
    { unfold took. simpl. rewrite (bo_len _ _ _ Hb), !u32_small by (rewrite ?(bo_used _ _ _ Hb); lia).
      split_and!; [lia|done|done|done|]. rewrite Eu. exists s. split; [done|]. intros x. apply (sect_wsect m s). }
    rewrite <-(bo_len _ _ _ Hb) in T. split_and!; [|apply T|].
    + apply (took_ok i r L C m); [done..|lia|exact T].
    + by apply (took_low i r L C).
Qed.

Lemma addr_or_fresh_spec m L C i r k din :
  blocks_ok m L C -> role_ok r -> slot r = Some k -> addrs_ok L i din -> freeblock m + miss L i r <= N ->
  wp (addr_or_fresh din k) m (fun din' m' =>
    addrs_ok (ensure (freeblock m) i r L) i din' /\ (exists l, din' = Inode (i_dev din) (i_inum din) (i_ref din)
      (i_flags din) (i_type din) (i_major din) (i_minor din) (i_nlink din) (i_size din) l) /\
    stepped m m' (ensure (freeblock m) i r L) C (miss L i r)).
Proof.
  intros Hb Hr Es [Hlen Ha] Hfit. pose proof (bo_free _ _ _ Hb) as Hf.
  unfold addr_or_fresh. rewrite (Ha r k Hr Es). unfold ensure, miss in *. destruct (L i r) as [x|] eqn:E; simpl.
  - pose proof (nonzero_place _ _ _ _ _ _ Hb E). destruct (Z.eqb_spec x 0); [lia|]. wp_steps.
    split_and!; [done|exists (i_addrs din); by destruct din|]. split; [done|]. split; [lia|apply low_same_refl].
  - unfold fresh. wp_steps. split_and!; [|by eexists|].
    + split; [simpl; by rewrite length_insert|]. intros r' k' Hr' Es'. simpl. destruct (decide (r' = r)) as [->|Hne].
      * assert (k' = k) as -> by congruence. rewrite place_eq, list_lookup_insert_eq; [done|].
        rewrite Hlen. by apply (addr_slot_lt r).
      * rewrite place_ne by congruence. rewrite list_lookup_insert_ne; [by apply Ha|].
        intros ->. apply Hne. by apply (addr_slot_inj _ _ k').
    + assert (T : took i r L m (MkSt (img m) (flen m) (u32 (freeblock m + 1)) (u32 (usedblocks m + 1)) (freeinode m))).
      { unfold took. simpl. rewrite !u32_small by (rewrite ?(bo_used _ _ _ Hb); lia). split_and!; try done.
        assert (up r = None) as -> by (destruct r; simpl in *; try done; by zcase). done. }
      split_and!; [|apply T|].
      * apply (took_ok i r L C m); [done..|lia|exact T].
      * by apply (took_low i r L C).
Qed.

(** The inode's other fields are kept. *)
Definition meta_same (ip ip' : inode) : Prop :=
  exists l, ip' = Inode (i_dev ip) (i_inum ip) (i_ref ip) (i_flags ip) (i_type ip) (i_major ip) (i_minor ip)
                        (i_nlink ip) (i_size ip) l.

(** [L'] has the places [rs] of inode [i] in addition. *)
Definition grown (i : Z) (rs : list role) (L L' : placement) : Prop :=
  (forall i' r, i' <> i -> L' i' r = L i' r) /\ (forall r, is_Some (L' i r) <-> is_Some (L i r) \/ r ∈ rs).

Lemma ensure_grown x i r L : grown i [r] L (ensure x i r L).
Proof.
  unfold grown, ensure. destruct (L i r) eqn:E.
  - split; [done|]. intros r'. rewrite list_elem_of_singleton. split; [by left|]. intros [?| ->]; [done|by rewrite E].
  - split; [intros; apply place_ne; congruence|]. intros r'. rewrite list_elem_of_singleton.
    destruct (decide (r' = r)) as [->|Hne]; [rewrite place_eq; split; [by right|by eexists]|].
    rewrite place_ne by congruence. intuition.
Qed.

Lemma grown_trans i rs rs' A B D : grown i rs A B -> grown i rs' B D -> grown i (rs ++ rs') A D.
Proof.
  intros [H1 E1] [H2 E2]. split; [intros; by rewrite H2, H1|]. intros r. rewrite E2, E1, elem_of_app. tauto.
Qed.

Lemma ensure_miss x i r L r' : r' <> r -> miss (ensure x i r L) i r' = miss L i r'.
Proof. intros Hne. unfold miss, ensure. destruct (L i r); [done|]. by rewrite place_ne by congruence. Qed.

Lemma ensure_addrs x i r L din : role_ok r -> slot r = None -> addrs_ok L i din -> addrs_ok (ensure x i r L) i din.
Proof.
  intros Hr Es [Hl Ha]. split; [done|]. intros r' k Hr' Es'. rewrite (Ha r' k Hr' Es'). unfold ensure.
  destruct (L i r); [done|]. by rewrite place_ne by congruence.
Qed.

Lemma stepped_trans m m' m'' L' L'' C n n' :
  stepped m m' L' C n -> stepped m' m'' L'' C n' -> stepped m m'' L'' C (n + n').
Proof.
  intros (_ & E1 & S1) (B2 & E2 & S2). split_and!; [done|lia|by eapply low_same_trans].
Qed.

Definition path (fbn : Z) : list role :=
  if fbn <? 12 then [Data fbn] else [Ind; Ind2 ((fbn - 12) / 128); Data fbn].
Fixpoint misses (L : placement) (i : Z) (rs : list role) : Z :=
  match rs with [] => 0 | r :: rs => miss L i r + misses L i rs end.

Lemma miss_nonneg L i r : 0 <= miss L i r.
Proof. unfold miss. case_match; lia. Qed.

Lemma file_sector_spec m L C i din fbn :
  blocks_ok m L C -> addrs_ok L i din -> 0 <= fbn < MAXFILE -> freeblock m + misses L i (path fbn) <= N ->
  wp (file_sector din fbn) m (fun r m' => exists L', L' i (Data fbn) = Some r.2 /\ addrs_ok L' i r.1 /\
    meta_same din r.1 /\ grown i (path fbn) L L' /\ stepped m m' L' C (misses L i (path fbn))).
Proof.
  intros Hb Ha Hfbn Hfit. unfold file_sector, assert. destruct (Z.ltb_spec fbn MAXFILE); [|lia]. wp_steps.
  change NDIRECT with 12. change NPTR with 128. unfold path in *.
  destruct (Z.ltb_spec fbn 12) as [Hd|Hi]; cbn [misses] in Hfit |- *.
  - apply wp_bind. eapply wp_mono; [apply (addr_or_fresh_spec m L C i (Data fbn)); try done|].
    { by apply slot_direct. }
    { lia. }
    intros din' m' (Ha' & Hm & Hs). wp_steps. exists (ensure (freeblock m) i (Data fbn) L). cbn [fst snd].
    split_and!; [|done|done|apply ensure_grown|by rewrite Z.add_0_r].
    destruct Ha' as [Hl Ha']. rewrite (Ha' (Data fbn)); [|done|by apply slot_direct].
    unfold ensure. destruct (L i (Data fbn)) eqn:E; [by rewrite E|by rewrite place_eq].
  - set (j := (fbn - 12) / 128) in *. set (k := (fbn - 12) mod 128).
    assert (Hj : role_ok (Ind2 j)) by (simpl; unfold j; change MAXFILE with 16396 in *; Z.div_mod_to_equations; lia).
    assert (Eu : up (Data fbn) = Some (Ind2 j, k)) by (by apply up_indirect).
    pose proof (miss_nonneg L i Ind). pose proof (miss_nonneg L i (Ind2 j)). pose proof (miss_nonneg L i (Data fbn)).
    apply wp_bind. eapply wp_mono; [apply (addr_or_fresh_spec m L C i Ind); (done || lia)|].
    intros din' m1 (Ha1 & Hm & S1). set (L1 := ensure (freeblock m) i Ind L) in *.
    apply wp_bind. assert (exists a, L1 i Ind = Some a /\ default 0 (i_addrs din' !! Z.to_nat 12) = a) as (a & Ea & ->).
    { destruct Ha1 as [_ Ha1]. destruct (proj2 (proj2 (ensure_grown (freeblock m) i Ind L) Ind)) as [a Ea]; [right; by apply list_elem_of_singleton|].
      fold L1 in Ea. exists a. split; [done|]. change (Z.to_nat 12) with 12%nat. rewrite (Ha1 Ind 12%nat) by done. by rewrite Ea. }
    pose proof S1 as (B1 & F1 & _). eapply wp_mono; [apply (word_or_fresh_spec m1 L1 C i (Ind2 j) Ind j a); try done|].
    { unfold L1. rewrite ensure_miss by done. lia. }
    unfold L1 at 3. rewrite ensure_miss by done. intros a2 m2 (Ea2 & S2). set (L2 := ensure (freeblock m1) i (Ind2 j) L1) in *.
    pose proof S2 as (B2 & F2 & _). assert (M2 : miss L2 i (Data fbn) = miss L i (Data fbn)) by (unfold L2, L1; by rewrite !ensure_miss).
    apply wp_bind. eapply wp_mono; [apply (word_or_fresh_spec m2 L2 C i (Data fbn) (Ind2 j) k a2); try done; lia|].
    intros x m3 (Ex & S3). rewrite M2 in S3. wp_steps. eexists. cbn [fst snd]. split_and!; [exact Ex| |done| |].
    + apply ensure_addrs; [done|by apply slot_indirect|]. by apply ensure_addrs.
    + apply (grown_trans _ [Ind] [Ind2 j; Data fbn] _ L1); [apply ensure_grown|].
      apply (grown_trans _ [Ind2 j] [Data fbn] _ L2); apply ensure_grown.
    + rewrite Z.add_0_r. eapply stepped_trans; [exact S1|]. eapply stepped_trans; [exact S2|exact S3].
Qed.

(** ** Writing data *)

Lemma byte_at_splice o q d k :
  0 <= o -> o + Z.of_nat (length q) <= 512 -> length d = 512%nat -> 0 <= k ->
  byte_at (splice (Z.to_nat o) q d) k =
    if (o <=? k) && (k <? o + Z.of_nat (length q)) then byte_at q (k - o) else byte_at d k.
Proof.
  intros Ho Hq Hd Hk. unfold byte_at, splice. destruct (Z.leb_spec o k), (Z.ltb_spec k (o + Z.of_nat (length q))); simpl.
  - rewrite lookup_app_r, lookup_app_l by (rewrite length_take; lia). rewrite length_take. do 2 f_equal. lia.
  - rewrite !lookup_app_r by (rewrite length_take; lia). rewrite lookup_drop, length_take. do 2 f_equal. lia.
  - rewrite lookup_app_l by (rewrite length_take; lia). rewrite lookup_take_lt by lia. done.
  - lia.
Qed.

Lemma byte_at_app c q k :
  0 <= k -> byte_at (c ++ q) k = if k <? Z.of_nat (length c) then byte_at c k else byte_at q (k - Z.of_nat (length c)).
Proof.
  intros Hk. unfold byte_at. destruct (Z.ltb_spec k (Z.of_nat (length c))).
  - by rewrite lookup_app_l by lia.
  - rewrite lookup_app_r by lia. do 2 f_equal. lia.
Qed.

(** The bytes [q] written behind the contents of inode [i], in block [bn]. *)
Lemma append_block m L C i bn x q :
  blocks_ok m L C -> L i (Data bn) = Some x -> Forall is_byte q ->
  let n := Z.of_nat (length (C i)) in 512 * bn <= n -> n + Z.of_nat (length q) <= 512 * (bn + 1) ->
  blocks_ok (MkSt (<[x := splice (Z.to_nat (n - 512 * bn)) q (sect m x)]> (img m)) (Z.max (flen m) (x + 1))
               (freeblock m) (usedblocks m) (freeinode m)) L (with_contents i (C i ++ q) C) /\
  low_same m (MkSt (<[x := splice (Z.to_nat (n - 512 * bn)) q (sect m x)]> (img m)) (Z.max (flen m) (x + 1))
               (freeblock m) (usedblocks m) (freeinode m)).
Proof.
  intros Hb Hx Hq n H1 H2. pose proof (bo_range _ _ _ Hb _ _ _ Hx) as [[Hbn _] Hxr]. pose proof (bo_free _ _ _ Hb).
  destruct (bo_block _ _ _ Hb x) as [Hlen _].
  assert (Hother : forall i' r x', L i' r = Some x' -> (i', r) <> (i, Data bn) -> x' <> x)
    by (intros i' r x' Hx' Hne ->; destruct (bo_inj _ _ _ Hb _ _ _ _ _ Hx' Hx) as [-> ->]; done).
  split; [split; simpl|split; [|done]]; intros; rewrite ?sect_wsect.
  - rewrite (bo_len _ _ _ Hb). lia.
  - apply (bo_free _ _ _ Hb).
  - apply (bo_used _ _ _ Hb).
  - case_decide; [|apply (bo_block _ _ _ Hb)]. apply splice_is_block; [lia|done|apply (bo_block _ _ _ Hb)].
  - by apply (bo_range _ _ _ Hb) in H0.
  - by apply (bo_inj _ _ _ Hb _ _ _ _ x0).
  - by apply (bo_up _ _ _ Hb i0 r q0 k).
  - rewrite decide_False; [by apply (bo_word _ _ _ Hb i0 r q0 k)|]. apply (Hother i0 q0); [done|]. intros [= -> ->].
    by apply (up_not_data _ _ _ bn H3).
  - case_decide as Ex.
    + subst x0. destruct (bo_inj _ _ _ Hb _ _ _ _ _ H0 Hx) as [-> [= ->]]. rewrite with_contents_eq.
      rewrite byte_at_splice, byte_at_app, (bo_data _ _ _ Hb i bn x Hx k) by (done || lia). fold n.
      repeat zcase; simpl; try lia; try done; [f_equal; lia|]. rewrite !byte_at_past by lia. done.
    + rewrite (bo_data _ _ _ Hb _ _ _ H0 k) by done. unfold with_contents. case_decide as Ei; [subst i0|done].
      assert (bn0 <> bn) by congruence. destruct (bo_range _ _ _ Hb _ _ _ H0) as [[? _] _].
      rewrite byte_at_app by lia. fold n. destruct (Z.ltb_spec (512 * bn0 + k) n); [done|]. by rewrite !byte_at_past by lia.
  - unfold with_contents in H3. case_decide; [subst i0|by apply (bo_cover _ _ _ Hb)]. rewrite length_app in H3.
    destruct (decide (bn0 = bn)) as [->|]; [by eexists|]. apply (bo_cover _ _ _ Hb); lia.
  - rewrite decide_False by lia. by apply (bo_zero _ _ _ Hb).
  - by rewrite decide_False by lia.
Qed.

(** ** How many sectors a file takes *)

Definition need (n : Z) : Z :=
  let nb := (n + 511) / 512 in
  nb + if 12 <? nb then 1 + (nb - 12 + 127) / 128 else 0.

(** The places in use are those a file of [n] bytes needs. *)
Definition exact (L : placement) (i n : Z) : Prop :=
  forall r, role_ok r -> is_Some (L i r) <-> 512 * first_bn r < n.

Lemma exact_miss L i n r : exact L i n -> role_ok r -> miss L i r = if 512 * first_bn r <? n then 0 else 1.
Proof.
  intros He Hr. specialize (He r Hr). unfold miss. destruct (L i r); zcase; try done; exfalso.
  - assert (512 * first_bn r < n) by (apply He; by eexists). lia.
  - destruct (proj2 He) as [? ?]; [lia|done].
Qed.

Lemma path_roles fbn : 0 <= fbn < MAXFILE -> Forall role_ok (path fbn).
Proof.
  intros H. unfold path. change MAXFILE with 16396 in *. zcase; repeat (apply Forall_cons; split; [|]); try apply Forall_nil; try done;
    simpl; change MAXFILE with 16396; Z.div_mod_to_equations; lia.
Qed.

(** The places missing for block [fbn] are the sectors the file grows by. *)
Lemma misses_need L i n n' fbn :
  0 <= fbn < MAXFILE -> exact L i n -> 512 * fbn <= n -> n < n' -> n' <= 512 * (fbn + 1) ->
  misses L i (path fbn) = need n' - need n.
Proof.
  intros Hf He H1 H2 H3. pose proof (path_roles fbn Hf) as Hr. unfold path in *. unfold need.
  destruct (Z.ltb_spec fbn 12); rewrite ?Forall_cons in Hr; cbn [misses].
  - rewrite (exact_miss _ _ n) by (done || apply Hr). cbn [first_bn]. repeat zcase; Z.div_mod_to_equations; lia.
  - destruct Hr as (R1 & R2 & R3 & _). rewrite !(exact_miss _ _ n) by done. cbn [first_bn].
    assert (E : (n' + 511) / 512 = fbn + 1) by (Z.div_mod_to_equations; lia). rewrite E.
    assert (E0 : (n + 511) / 512 = fbn \/ (n + 511) / 512 = fbn + 1) by (Z.div_mod_to_equations; lia).
    destruct E0 as [E0|E0]; rewrite E0; repeat zcase; Z.div_mod_to_equations; lia.
Qed.

Lemma exact_grown L L' i n n' fbn :
  0 <= fbn < MAXFILE -> exact L i n -> 512 * fbn <= n -> n < n' -> n' <= 512 * (fbn + 1) ->
  grown i (path fbn) L L' -> exact L' i n'.
Proof.
  intros Hf He H1 H2 H3 [_ Hg] r Hr. rewrite Hg, (He r Hr).
  unfold path. change MAXFILE with 16396 in *. split.
  - intros [?|Hin]; [lia|]. destruct (Z.ltb_spec fbn 12).
    + apply list_elem_of_singleton in Hin as ->. simpl. lia.
    + rewrite !elem_of_cons in Hin. destruct Hin as [->|[->|[->|[]%not_elem_of_nil]]]; simpl; Z.div_mod_to_equations; lia.
  - intros Hn. destruct (Z.lt_ge_cases (512 * first_bn r) n) as [?|Hge]; [by left|right].
    assert (E : first_bn r = fbn) by lia. destruct r as [bn| |j]; simpl in *; subst.
    + destruct (Z.ltb_spec fbn 12); rewrite !elem_of_cons; auto.
    + simpl. rewrite !elem_of_cons. auto.
    + destruct (Z.ltb_spec (12 + 128 * j) 12); [lia|]. replace ((12 + 128 * j - 12) / 128) with j by (Z.div_mod_to_equations; lia). rewrite !elem_of_cons. auto.
Qed.

Lemma need_mono n n' : 0 <= n -> n <= n' -> need n <= need n'.
Proof. intros. unfold need. repeat zcase; Z.div_mod_to_equations; lia. Qed.

(** ** The loop *)

Lemma blocks_ok_ext m L C C' : (forall i, C' i = C i) -> blocks_ok m L C -> blocks_ok m L C'.
Proof.
  intros E Hb. split; try apply Hb.
  - intros i bn x Hx k Hk. rewrite E. by apply (bo_data _ _ _ Hb).
  - intros i bn. rewrite E. apply (bo_cover _ _ _ Hb).
Qed.

Lemma meta_same_trans a b c : meta_same a b -> meta_same b c -> meta_same a c.
Proof. intros [l ->] [l' ->]. by exists l'. Qed.

(** What a call of the loop achieves for inode [i], in memory [din], and the
    bytes [p]. *)
Definition appended (m : mk_st) (L : placement) (C : Z -> list Z) (i : Z) (din : inode) (p : list Z)
    (r : inode * Z) (m' : mk_st) : Prop :=
  let n := Z.of_nat (length (C i)) in let n' := n + Z.of_nat (length p) in
  exists L', r.2 = n' /\ meta_same din r.1 /\ addrs_ok L' i r.1 /\ exact L' i n' /\
    (forall i' r, i' <> i -> L' i' r = L i' r) /\
    stepped m m' L' (with_contents i (C i ++ p) C) (need n' - need n).

Lemma appended_nil m L C i din :
  blocks_ok m L C -> addrs_ok L i din -> exact L i (Z.of_nat (length (C i))) ->
  appended m L C i din [] (din, Z.of_nat (length (C i))) m.
Proof.
  intros Hb Ha He. exists L. simpl. rewrite Z.add_0_r.
  split_and!; [done|by exists (i_addrs din); destruct din|done|done|done|].
  split_and!; [|lia|apply low_same_refl]. apply (blocks_ok_ext m L C); [|done].
  intros i'. unfold with_contents. case_decide; [subst; by rewrite app_nil_r|done].
Qed.

(** One turn, without the wrap-arounds that the size of a file rules out. *)
Lemma iappend_turn fuel din n p :
  let fbn := n / 512 in let n1 := Z.min (Z.of_nat (length p)) (512 * (fbn + 1) - n) in
  p <> [] -> 0 <= n -> n + Z.of_nat (length p) <= 512 * MAXFILE ->
  iappend_loop (S fuel) din n p = (let! r := file_sector din fbn in let! buf := rsect r.2 in
      wsect r.2 (splice (Z.to_nat (n - 512 * fbn)) (take (Z.to_nat n1) p) buf) ;;
      iappend_loop fuel r.1 (n + n1) (drop (Z.to_nat n1) p)).
Proof.
  intros fbn n1 Hne Hn Hmax. destruct p as [|c p0]; [done|]. cbn [iappend_loop]. change BSIZE with 512. fold fbn.
  assert (0 <= (fbn + 1) * 512 - n <= 512) by (unfold fbn; Z.div_mod_to_equations; lia).
  rewrite u32_small, (u32_small (n + _)) by (unfold u32_mod; change MAXFILE with 16396 in *; lia).
  replace ((fbn + 1) * 512 - n) with (512 * (fbn + 1) - n) by lia. fold n1. by replace (fbn * 512) with (512 * fbn) by lia.
Qed.

Lemma iappend_loop_spec fuel : forall m L C i din p,
  let n := Z.of_nat (length (C i)) in
  blocks_ok m L C -> addrs_ok L i din -> exact L i n -> Forall is_byte p ->
  (length p <= fuel)%nat -> n + Z.of_nat (length p) <= 512 * MAXFILE ->
  freeblock m + need (n + Z.of_nat (length p)) - need n <= N ->
  wp (iappend_loop fuel din n p) m (appended m L C i din p).
Proof.
  induction fuel as [|fuel IH]; intros m L C i din p n Hb Ha He Hp Hf Hmax Hfit.
  { destruct p; [|simpl in Hf; lia]. by apply appended_nil. }
  destruct (decide (p = [])) as [->|Hne]; [by apply appended_nil|].
  set (fbn := n / 512). set (n1 := Z.min (Z.of_nat (length p)) (512 * (fbn + 1) - n)).
  assert (0 < Z.of_nat (length p)) by (destruct p; simpl; [done|lia]).
  assert (Hr : 0 <= n /\ 0 <= fbn < MAXFILE /\ 512 * fbn <= n < 512 * (fbn + 1) /\ 0 < n1)
    by (unfold n1, fbn; change MAXFILE with 16396 in *; Z.div_mod_to_equations; lia).
  assert (En : misses L i (path fbn) = need (n + n1) - need n) by (apply misses_need; (done || lia)).
  pose proof (need_mono (n + n1) (n + Z.of_nat (length p))) as Hmono.
  rewrite iappend_turn by (done || lia). fold fbn n1. apply wp_bind. eapply wp_mono; [apply (file_sector_spec m L C i); (done || lia)|].
  intros [din' x] m1 (L1 & Ex & Ha1 & Hm1 & Hg & B1 & F1 & S1). cbn [fst snd] in *.
  unfold rsect, wsect. wp_steps. rewrite (bo_len _ _ _ B1). pose proof (nonzero_place _ _ _ _ _ _ B1 Ex).
  destruct (Z.ltb_spec x N); [|lia]. wp_steps.
  destruct (append_block m1 L1 C i fbn x (take (Z.to_nat n1) p) B1 Ex) as [B2 S2];
    [by apply Forall_take|fold n; lia|rewrite length_take; fold n; lia|].
  fold n in B2, S2. set (m2 := MkSt _ _ _ _ _) in *.
  set (C2 := with_contents i _ C) in *.
  assert (Hl : Z.of_nat (length (C2 i)) = n + n1)
    by (unfold C2; rewrite with_contents_eq, length_app, length_take; lia).
  assert (Hld : Z.of_nat (length (drop (Z.to_nat n1) p)) = Z.of_nat (length p) - n1) by (rewrite length_drop; lia).
  rewrite <-Hl. eapply wp_mono; [apply (IH m2 L1 C2 i din' (drop (Z.to_nat n1) p)); try done|].
  - rewrite Hl. apply (exact_grown L L1 i n _ fbn); (done || lia).
  - by apply Forall_drop.
  - rewrite length_drop. lia.
  - rewrite Hl, Hld. lia.
  - rewrite Hl, Hld. simpl. replace (n + n1 + (Z.of_nat (length p) - n1)) with (n + Z.of_nat (length p)) by lia. lia.
  - intros r m3 (L3 & E3 & M3 & A3 & X3 & O3 & B3 & F3 & S3). rewrite Hl, Hld in *.
    replace (n + n1 + (Z.of_nat (length p) - n1)) with (n + Z.of_nat (length p)) in * by lia. exists L3.
    split_and!; [done|by eapply meta_same_trans|done|done|intros i' r' Hi'; rewrite O3 by done; by apply Hg|].
    split_and!; [|simpl in F3; fold n; lia|eapply low_same_trans; [exact S1|]; by eapply low_same_trans].
    apply (blocks_ok_ext _ _ _ _) with (2 := B3). intros i'. unfold C2, with_contents.
    repeat case_decide; try done. by rewrite <-app_assoc, take_drop.
Qed.
End blocks.
