(* ===== verification/MkfsProps.v ===== *)
(** * mkfs.c: the image it builds

    Inodes and the root directory on top of the blocks, the whole program, and
    what the kernel finds in the image: superblock, empty journal, bitmap, and
    for every file named on the command line its directory entry and its
    contents, read through dirlookup and readi. *)

From S2P Require Import Prelude CString Layout Ide Bio Cache Fs FsInode FsNames FsRead FsAlloc Mkfs MkfsBlocks.

(** Inode [i] as the image has it. *)
Definition rd (m : mk_st) (i : Z) : inode := load_dinode (sect m (IBLOCK i)) (blank i).

Lemma i2b_IBLOCK i : 0 <= i < 200 -> i2b i = IBLOCK i /\ 203 <= IBLOCK i < 228.
Proof.
  intros H. unfold i2b, IBLOCK, jblocks. change IPB with 8. change NJB with 201.
  split; [apply u32_small; unfold u32_mod|]; Z.div_mod_to_equations; lia.
Qed.

(** An inode as mkfs writes it. *)
Definition file_inode (i type size : Z) (addrs : list Z) : inode := Inode 0 i 0 0 type 0 0 1 size addrs.

Definition storable_fields (type size : Z) (addrs : list Z) : Prop :=
  0 <= type < 4 /\ 0 <= size < u32_mod /\ length addrs = 13%nat /\ Forall (fun x => 0 <= x < u32_mod) addrs.

Lemma file_inode_storable i type size addrs : storable_fields type size addrs -> storable (file_inode i type size addrs).
Proof.
  intros (Ht & Hs & Hl & Ha). split_and!; simpl; [|lia|lia|done|done].
  repeat (apply Forall_cons; split; [lia|]). by apply Forall_nil.
Qed.

Lemma load_store i type size addrs d :
  is_block d -> storable_fields type size addrs ->
  load_dinode (store_dinode (file_inode i type size addrs) d) (blank i) = file_inode i type size addrs.
Proof.
  intros Hd Hs. destruct (dinode_roundtrip (file_inode i type size addrs) (blank i) d Hd) as [H _];
    [by apply file_inode_storable|]. destruct (H eq_refl) as (E1 & E2 & E3 & E4 & E5 & E6).
  unfold load_dinode in *. cbn [i_type i_major i_minor i_nlink i_size i_addrs file_inode] in *.
  by rewrite E1, E2, E3, E4, E5, E6.
Qed.

Section image.
Context (u0 N : Z).
Hypothesis u0_low : 230 <= u0.
Hypothesis N_small : N < u32_mod.

(** Sectors below [u0] other than the inode blocks. *)
Definition meta_sect (x : Z) : Prop := x < u0 /\ ~ 203 <= x < 228.
Definition frame (m m' : mk_st) : Prop := forall x, meta_sect x -> sect m' x = sect m x.

Record image_ok (m : mk_st) (L : placement) (C : Z -> list Z) (T : Z -> Z) : Prop := {
  io_blocks : blocks_ok u0 N m L C;
  io_exact i : exact L i (Z.of_nat (length (C i)));
  io_free : 1 <= freeinode m <= 200;
  io_inode i : 1 <= i < freeinode m ->
    rd m i = file_inode i (T i) (Z.of_nat (length (C i))) (i_addrs (rd m i)) /\ addrs_ok L i (rd m i);
  io_type i : 0 <= T i < 4;
  io_size i : Z.of_nat (length (C i)) <= 512 * MAXFILE;
  io_new i : freeinode m <= i -> C i = [] }.

(** ** Writing an inode *)

Lemma winode_spec m i ip :
  (forall x, is_block (sect m x)) -> 0 <= i < 200 -> flen m = N -> 228 <= N -> i_inum ip = i ->
  length (i_addrs ip) = 13%nat -> storable ip ->
  wp (winode i ip) m (fun _ m' =>
    flen m' = N /\ freeblock m' = freeblock m /\ usedblocks m' = usedblocks m /\ freeinode m' = freeinode m /\
    (forall x, is_block (sect m' x)) /\ sect m' (IBLOCK i) = store_dinode ip (sect m (IBLOCK i)) /\
    (forall x, x <> IBLOCK i -> sect m' x = sect m x) /\ (forall j, j <> i -> rd m' j = rd m j)).
Proof.
  intros Hb Hi HN HN' Hin Hl Hst. destruct (i2b_IBLOCK i Hi) as [E HI]. unfold winode, rsect, wsect. rewrite E.
  wp_steps. destruct (Z.ltb_spec (IBLOCK i) (flen m)); [|lia]. wp_steps. simpl.
  set (m' := MkSt _ _ _ _ _). assert (Hs : forall x, sect m' x = if decide (x = IBLOCK i) then store_dinode ip (sect m (IBLOCK i)) else sect m x)
    by (intros x; apply sect_wsect).
  split_and!; [lia|done|done|done| | | |].
  - intros x. rewrite Hs. case_decide; [by apply store_dinode_block|done].
  - by rewrite Hs, decide_True.
  - intros x Hx. by rewrite Hs, decide_False.
  - intros j Hj. unfold rd. rewrite Hs. case_decide as Ej; [|done]. rewrite <-Ej.
    apply (dinode_roundtrip ip (blank j) _ (Hb _) Hst). simpl. rewrite Hin.
    unfold IBLOCK in Ej. change IPB with 8 in *. Z.div_mod_to_equations. lia.
Qed.

(** The blocks of files are not among the inodes. *)
Lemma blocks_frame m m' L C :
  blocks_ok u0 N m L C -> flen m' = flen m -> freeblock m' = freeblock m -> usedblocks m' = usedblocks m ->
  (forall x, is_block (sect m' x)) -> (forall x, u0 <= x -> sect m' x = sect m x) -> blocks_ok u0 N m' L C.
Proof.
  intros Hb E1 E2 E3 Hbl Hs. split.
  - rewrite E1. apply Hb.
  - rewrite E2. apply Hb.
  - rewrite E2, E3. apply Hb.
  - done.
  - intros i r x H. rewrite E2. by apply (bo_range _ _ _ _ _ Hb i r).
  - apply (bo_inj _ _ _ _ _ Hb).
  - apply (bo_up _ _ _ _ _ Hb).
  - intros i r q k x Hr Hu Hq. rewrite Hs; [by apply (bo_word _ _ _ _ _ Hb i r q)|]. apply (bo_range _ _ _ _ _ Hb) in Hq. lia.
  - intros i bn x Hx. rewrite Hs; [by apply (bo_data _ _ _ _ _ Hb)|]. apply (bo_range _ _ _ _ _ Hb) in Hx. lia.
  - apply (bo_cover _ _ _ _ _ Hb).
  - intros x Hx. rewrite E2 in Hx. pose proof (bo_free _ _ _ _ _ Hb). rewrite Hs by lia. by apply (bo_zero _ _ _ _ _ Hb).
Qed.

Lemma addrs_storable m L C i din :
  blocks_ok u0 N m L C -> addrs_ok L i din -> Forall (fun x => 0 <= x < u32_mod) (i_addrs din).
Proof.
  intros Hb [Hl Ha]. apply Forall_lookup. intros k x Hk. pose proof (lookup_lt_Some _ _ _ Hk) as Hlt. rewrite Hl in Hlt.
  assert (exists r, role_ok r /\ slot r = Some k) as (r & Hr & Es).
  { destruct (decide (k = 12%nat)) as [->|]; [by exists Ind|]. exists (Data (Z.of_nat k)).
    split; [simpl; change MAXFILE with 16396; lia|]. rewrite slot_direct by lia. f_equal. lia. }
  specialize (Ha r k Hr Es). rewrite Hk in Ha. simpl in Ha. subst x. pose proof (bo_free _ _ _ _ _ Hb).
  destruct (L i r) as [y|] eqn:E; simpl; [|done]. apply (bo_range _ _ _ _ _ Hb) in E. lia.
Qed.

Lemma addrs_ok_same L L' i l :
  (forall r, L' i r = L i r) -> addrs_ok L i l -> addrs_ok L' i l.
Proof. intros H [Hl Ha]. split; [done|]. intros r k Hr Es. rewrite H. by apply Ha. Qed.

(** Writing back inode [i] after its blocks have changed. *)
Lemma close_inode m L C T m1 L1 C1 i din :
  image_ok m L C T -> blocks_ok u0 N m1 L1 C1 -> low_same u0 m m1 -> 1 <= i < freeinode m ->
  (forall j r, j <> i -> L1 j r = L j r) -> (forall j, j <> i -> C1 j = C j) ->
  exact L1 i (Z.of_nat (length (C1 i))) -> Z.of_nat (length (C1 i)) <= 512 * MAXFILE ->
  addrs_ok L1 i din -> din = file_inode i (T i) (Z.of_nat (length (C1 i))) (i_addrs din) ->
  wp (winode i din) m1 (fun _ m' => image_ok m' L1 C1 T /\ freeblock m' = freeblock m1 /\
    freeinode m' = freeinode m /\ frame m m').
Proof.
  intros Hok Hb1 [Hlow Hfi] Hi HL HC He Hsz Ha Hdin. destruct Hok as [Hb Hex Hfr Hin Hty Hsize Hnew].
  pose proof (bo_free _ _ _ _ _ Hb1). pose proof (Hty i).
  assert (Hst : storable_fields (T i) (Z.of_nat (length (C1 i))) (i_addrs din)).
  { split_and!; [lia|lia|lia|unfold u32_mod; change MAXFILE with 16396 in *; lia|apply Ha|by eapply addrs_storable]. }
  eapply wp_mono; [apply (winode_spec m1 i din)|].
  - apply (bo_block _ _ _ _ _ Hb1).
  - lia.
  - apply (bo_len _ _ _ _ _ Hb1).
  - lia.
  - by rewrite Hdin.
  - apply Ha.
  - rewrite Hdin. by apply file_inode_storable.
  - intros _ m' (F1 & F2 & F3 & F4 & F5 & F6 & F7 & F8). destruct (i2b_IBLOCK i) as [_ HI]; [lia|].
    assert (Hrd : rd m' i = din) by (unfold rd; rewrite F6, Hdin; by apply load_store; [apply (bo_block _ _ _ _ _ Hb1)|]).
    split_and!; [|done|congruence|].
    + split; [| |lia| |done| |].
      * apply (blocks_frame m1); try done; [by rewrite (bo_len _ _ _ _ _ Hb1)|]. intros x Hx. apply F7. lia.
      * intros j. destruct (decide (j = i)) as [->|Hj]; [done|]. rewrite HC by done. intros r Hr. rewrite HL by done. by apply Hex.
      * intros j Hj. destruct (decide (j = i)) as [->|Hne]; [by rewrite Hrd|]. rewrite F8 by done.
        destruct (i2b_IBLOCK j) as [_ HJ]; [lia|].
        assert (Er : rd m1 j = rd m j) by (unfold rd; rewrite Hlow by lia; done). rewrite Er, HC by done.
        destruct (Hin j) as [E A]; [lia|]. split; [done|]. apply (addrs_ok_same L); [|done]. intros r. by apply HL.
      * intros j. destruct (decide (j = i)) as [->|Hj]; [done|]. by rewrite HC.
      * intros j Hj. rewrite HC by lia. apply Hnew. lia.
    + intros x [Hx Hx']. rewrite F7 by lia. by apply Hlow.
Qed.

(** ** iappend *)

Lemma iappend_spec m L C T i p :
  image_ok m L C T -> 1 <= i < freeinode m -> Forall is_byte p ->
  let n := Z.of_nat (length (C i)) in let n' := n + Z.of_nat (length p) in
  n' <= 512 * MAXFILE -> freeblock m + need n' - need n <= N ->
  wp (iappend i p) m (fun _ m' => exists L', image_ok m' L' (with_contents i (C i ++ p) C) T /\
    freeblock m' = freeblock m + need n' - need n /\ freeinode m' = freeinode m /\ frame m m').
Proof.
  intros Hok Hi Hp n n' Hmax Hfit. pose proof Hok as [Hb Hex Hfr Hin _ _ _]. pose proof (bo_free _ _ _ _ _ Hb).
  destruct (i2b_IBLOCK i) as [EI HI]; [lia|]. destruct (Hin i Hi) as [Ed Ha].
  unfold iappend, rinode, rsect. rewrite EI. wp_steps. rewrite (bo_len _ _ _ _ _ Hb).
  destruct (Z.ltb_spec (IBLOCK i) N); [|lia]. wp_steps. fold (rd m i).
  replace (i_size (rd m i)) with n by (by rewrite Ed).
  eapply wp_mono; [apply (iappend_loop_spec u0 N) with (L := L); (done || lia || apply Hex)|].
  intros [din off] m1 (L1 & E1 & [l Em] & A1 & X1 & O1 & B1 & F1 & S1). cbn [fst snd] in *. fold n n' in E1, F1, X1.
  assert (Hl : Z.of_nat (length (C i ++ p)) = n') by (rewrite length_app; lia).
  eapply wp_mono; [apply (close_inode m L C T m1 L1 (with_contents i (C i ++ p) C) i (set_size off din)); try done|].
  - intros j Hj. by apply with_contents_ne.
  - by rewrite with_contents_eq, Hl.
  - by rewrite with_contents_eq, Hl.
  - rewrite with_contents_eq, Hl, E1, Em. rewrite Ed. done.
  - intros _ m' (Hok' & F2 & F3 & F4). exists L1. split_and!; [done|lia|done|done].
Qed.

(** ** ialloc *)

Lemma blank_addrs L i : (forall r, L i r = None) -> addrs_ok L i (blank i).
Proof.
  intros H. split; [done|]. intros r k Hr Es. rewrite H. simpl. apply addr_slot_lt in Es; [|done].
  do 13 (destruct k as [|k]; [done|]). lia.
Qed.

Lemma ialloc_spec m L C T type :
  image_ok m L C T -> freeinode m < 200 -> 0 <= type < 4 ->
  wp (ialloc type) m (fun i m' => i = freeinode m /\
    image_ok m' L C (fun j => if decide (j = freeinode m) then type else T j) /\
    freeblock m' = freeblock m /\ freeinode m' = freeinode m + 1 /\ frame m m').
Proof.
  intros Hok Hf Ht. pose proof Hok as [Hb Hex Hfr Hin Hty Hsz Hnew]. set (i := freeinode m) in *.
  unfold ialloc. wp_steps. fold i. rewrite u32_small by (unfold u32_mod; lia). set (m1 := MkSt _ _ _ _ _).
  assert (HL : forall r, L i r = None).
  { intros r. destruct (L i r) as [x|] eqn:E; [|done]. exfalso. pose proof (bo_range _ _ _ _ _ Hb _ _ _ E) as [Hr _].
    assert (H : 512 * first_bn r < Z.of_nat (length (C i))) by (apply Hex; [done|by rewrite E]).
    rewrite Hnew in H by lia. destruct r; simpl in *; lia. }
  set (T' := fun j => if decide (j = i) then type else T j).
  assert (HT : T' i = type) by (unfold T'; by rewrite decide_True).
  assert (Hc : C i = []) by (apply Hnew; lia). pose proof (bo_free _ _ _ _ _ Hb).
  eapply wp_mono; [apply (winode_spec m1 i (file_inode i type 0 (replicate 13 0)))|].
  - apply (bo_block _ _ _ _ _ Hb).
  - lia.
  - apply (bo_len _ _ _ _ _ Hb).
  - lia.
  - done.
  - done.
  - apply file_inode_storable. split_and!; try done; lia || by apply Forall_replicate.
  - intros _ m' (F1 & F2 & F3 & F4 & F5 & F6 & F7 & F8). wp_steps. destruct (i2b_IBLOCK i) as [_ HI]; [lia|].
    assert (Hrd : rd m' i = file_inode i type 0 (replicate 13 0)).
    { unfold rd. rewrite F6. apply load_store; [apply (bo_block _ _ _ _ _ Hb)|]. split_and!; try done; lia || by apply Forall_replicate. }
    simpl in F4. split_and!; [done| |done|done|intros x [Hx Hx']; apply F7; lia]. split; [|done|lia| | |done|].
    + apply (blocks_frame m); try done; [by rewrite (bo_len _ _ _ _ _ Hb)|]. intros x Hx. apply F7. lia.
    + intros j Hj. destruct (decide (j = i)) as [->|Hne].
      * rewrite Hrd, HT, Hc. split; [done|]. by apply blank_addrs.
      * rewrite F8 by done. unfold T'. rewrite decide_False by done. apply Hin. lia.
    + intros j. unfold T'. case_decide; [done|apply Hty].
    + intros j Hj. apply Hnew. lia.
Qed.

(** ** Files *)

Lemma frame_trans a b c : frame a b -> frame b c -> frame a c.
Proof. intros H1 H2 x Hx. by rewrite H2, H1. Qed.

(** A file appended chunk by chunk. *)
Lemma append_chunks i chunks : forall m L C T,
  image_ok m L C T -> 1 <= i < freeinode m -> Forall (Forall is_byte) chunks ->
  let n := Z.of_nat (length (C i)) in let n' := n + Z.of_nat (length (concat chunks)) in
  n' <= 512 * MAXFILE -> freeblock m + need n' - need n <= N ->
  wp (mfor chunks (iappend i)) m (fun _ m' => exists L' C', image_ok m' L' C' T /\
    C' i = C i ++ concat chunks /\ (forall j, j <> i -> C' j = C j) /\
    freeblock m' = freeblock m + need n' - need n /\ freeinode m' = freeinode m /\ frame m m').
Proof.
  induction chunks as [|p chunks IH]; intros m L C T Hok Hi Hp n n' Hmax Hfit; cbn [mfor concat] in *.
  - wp_steps. exists L, C. unfold n', n. simpl. rewrite Z.add_0_r, app_nil_r. split_and!; try done. lia.
  - apply Forall_cons in Hp as [Hp Hps]. assert (En : n' = n + Z.of_nat (length p) + Z.of_nat (length (concat chunks))) by (unfold n'; rewrite length_app; lia). apply wp_bind.
    assert (Hm : need (n + Z.of_nat (length p)) <= need n') by (apply need_mono; lia).
    eapply wp_mono; [apply (iappend_spec m L C T i p); (done || fold n; lia)|].
    intros _ m1 (L1 & Hok1 & F1 & F2 & F3). fold n in F1. set (C1 := with_contents i (C i ++ p) C) in *.
    assert (Hl : Z.of_nat (length (C1 i)) = n + Z.of_nat (length p)) by (unfold C1; rewrite with_contents_eq, length_app; lia).
    eapply wp_mono; [apply (IH m1 L1 C1 T); try done; rewrite ?Hl|].
    + lia.
    + lia.
    + replace (n + Z.of_nat (length p) + Z.of_nat (length (concat chunks))) with n' by lia. lia.
    + intros _ m' (L' & C' & Hok' & E1 & E2 & F4 & F5 & F6). exists L', C'. rewrite Hl in F4.
      replace (n + Z.of_nat (length p) + Z.of_nat (length (concat chunks))) with n' in F4 by lia.
      split_and!; [done| | |lia|lia|by eapply frame_trans].
      * unfold C1 in E1. by rewrite E1, with_contents_eq, <-app_assoc.
      * intros j Hj. rewrite E2 by done. unfold C1. by apply with_contents_ne.
Qed.

Definition file_data (a : arg) : list Z := concat (default [] a.2).
Definition file_need (a : arg) : Z := need (Z.of_nat (length (file_data a))).
Definition arg_ok (a : arg) : Prop :=
  Forall is_byte a.1 /\ ~ slash ∈ a.1 /\ exists chunks, a.2 = Some chunks /\ Forall (Forall is_byte) chunks.

Lemma xshort_bytes x : xshort x = le_bytes 2 x.
Proof. unfold xshort, u8. rewrite Z.shiftr_div_pow2 by lia. done. Qed.
Lemma xint_bytes x : xint x = le_bytes 4 x.
Proof.
  unfold xint, u8. rewrite !Z.shiftr_div_pow2 by lia. cbn [le_bytes]. rewrite !Zdiv.Zdiv_Zdiv by lia. done.
Qed.

Lemma encode_dirent_bytes ino name : Forall is_byte name -> Forall is_byte (encode_dirent ino name).
Proof.
  intros H. unfold encode_dirent. apply Forall_app. split; [apply le_bytes_byte|]. apply Forall_map, Forall_true.
  intros k. destruct (nth_in_or_default k name 0) as [Hin| ->]; [|unfold is_byte; lia].
  rewrite Forall_forall in H. apply H. by apply list_elem_of_In.
Qed.
Lemma length_dirent ino name : length (encode_dirent ino name) = 16%nat.
Proof. done. Qed.

Lemma base_name_bytes name : Forall is_byte name -> Forall is_byte (base_name name).
Proof. intros H. unfold base_name. destruct name; [done|]. case_match; [by apply Forall_cons in H as [_ ?]|done]. Qed.

Lemma add_file_spec m L C T a :
  image_ok m L C T -> 1 < freeinode m < 200 -> arg_ok a ->
  let n := Z.of_nat (length (C 1)) in let i := freeinode m in
  Z.of_nat (length (file_data a)) <= 512 * MAXFILE -> n + 16 <= 512 * MAXFILE ->
  freeblock m + (need (n + 16) - need n) + file_need a <= N ->
  wp (add_file 1 a) m (fun _ m' => exists L' C' T', image_ok m' L' C' T' /\
    C' 1 = C 1 ++ encode_dirent i (base_name a.1) /\ C' i = file_data a /\ T' i = T_FILE /\
    (forall j, j <> i -> j <> 1 -> C' j = C j) /\ (forall j, j <> i -> T' j = T j) /\
    freeblock m' = freeblock m + (need (n + 16) - need n) + file_need a /\
    freeinode m' = freeinode m + 1 /\ frame m m').
Proof.
  intros Hok Hf (Hname & Hslash & chunks & Ech & Hch) n i Hmax Hdir Hfit. unfold file_need, file_data in *. rewrite Ech in *.
  cbn [default] in *. unfold id in *. unfold add_file, assert.
  destruct (existsb (Z.eqb slash) a.1) eqn:Es.
  { apply existsb_exists in Es as (c & Hc & <-%Z.eqb_eq). by apply list_elem_of_In in Hc. }
  cbn [negb]. wp_steps. rewrite Ech. apply wp_bind.
  assert (Hnn : 0 <= need (Z.of_nat (length (concat chunks)))) by (apply (need_mono 0); lia).
  eapply wp_mono; [apply (ialloc_spec m L C T T_FILE); (done || lia || (unfold T_FILE; lia))|].
  intros _ m1 (-> & Hok1 & F1 & F2 & F3). fold i in Hok1 |- *. set (T' := fun j => _) in Hok1.
  rewrite xshort_bytes. fold (encode_dirent i (base_name a.1)). apply wp_bind.
  eapply wp_mono; [apply (iappend_spec m1 L C T' 1 (encode_dirent i (base_name a.1))); rewrite ?length_dirent|].
  - done.
  - lia.
  - by apply encode_dirent_bytes, base_name_bytes.
  - fold n. lia.
  - fold n. change (Z.of_nat 16) with 16. lia.
  - fold n. change (Z.of_nat 16) with 16. intros _ m2 (L2 & Hok2 & F4 & F5 & F6). rewrite length_dirent in F4.
    change (Z.of_nat 16) with 16 in F4.
    assert (Hi : with_contents 1 (C 1 ++ encode_dirent i (base_name a.1)) C i = []).
    { rewrite with_contents_ne by lia. apply (io_new _ _ _ _ Hok). lia. }
    eapply wp_mono; [apply (append_chunks i chunks m2 L2 _ T' Hok2); rewrite ?Hi; change (Z.of_nat (length (@nil Z))) with 0;
      change (need 0) with 0; rewrite ?Z.add_0_l; (done || lia)|].
    intros _ m3 (L3 & C3 & Hok3 & E1 & E2 & F7 & F8 & F9). rewrite Hi in E1, F7. change (Z.of_nat (length (@nil Z))) with 0 in F7.
    change (need 0) with 0 in F7. rewrite Z.add_0_l in F7.
    exists L3, C3, T'. split_and!; [done| |done|unfold T'; by rewrite decide_True| | |lia|lia|].
    + by rewrite E2, with_contents_eq by lia.
    + intros j H1 H2. by rewrite E2, with_contents_ne.
    + intros j Hj. unfold T'. by rewrite decide_False.
    + eapply frame_trans; [exact F3|]. by eapply frame_trans.
Qed.

(** ** The command line *)

(** The entries of the root directory, and its contents. *)
Definition dir_list (fs : list arg) : list (Z * list Z) :=
  (1, dot) :: (1, dotdot) :: imap (fun k a => (Z.of_nat k + 2, base_name a.1)) fs.
Definition dir_bytes (fs : list arg) : list Z := concat (map (fun e => encode_dirent e.1 e.2) (dir_list fs)).
Definition dir_need (fs : list arg) : Z := need (16 * (Z.of_nat (length fs) + 2)).
Fixpoint files_need (fs : list arg) : Z := match fs with [] => 0 | a :: fs => file_need a + files_need fs end.

Lemma file_need_nonneg a : 0 <= file_need a.
Proof. unfold file_need. apply (need_mono 0); lia. Qed.
Lemma files_need_nonneg fs : 0 <= files_need fs.
Proof. induction fs as [|a fs IH]; simpl; [lia|]. pose proof (file_need_nonneg a). lia. Qed.
Lemma files_need_app fs fs' : files_need (fs ++ fs') = files_need fs + files_need fs'.
Proof. induction fs as [|a fs IH]; simpl; [done|]. lia. Qed.

Lemma dir_list_snoc fs a : dir_list (fs ++ [a]) = dir_list fs ++ [(Z.of_nat (length fs) + 2, base_name a.1)].
Proof. unfold dir_list. rewrite imap_app. simpl. by rewrite Nat.add_0_r. Qed.
Lemma dir_bytes_snoc fs a : dir_bytes (fs ++ [a]) = dir_bytes fs ++ encode_dirent (Z.of_nat (length fs) + 2) (base_name a.1).
Proof. unfold dir_bytes. rewrite dir_list_snoc, map_app, concat_app. cbn [map concat]. by rewrite app_nil_r. Qed.

Lemma length_dir_list fs : length (dir_list fs) = (length fs + 2)%nat.
Proof. rewrite Nat.add_comm. unfold dir_list. simpl. by rewrite length_imap. Qed.
Lemma length_dirents es : length (concat (map (fun e : Z * list Z => encode_dirent e.1 e.2) es)) = (16 * length es)%nat.
Proof. induction es as [|e es IH]; [done|]. cbn [map concat]. rewrite length_app, length_dirent, IH. simpl. lia. Qed.
Lemma length_dir_bytes fs : Z.of_nat (length (dir_bytes fs)) = 16 * (Z.of_nat (length fs) + 2).
Proof. unfold dir_bytes. rewrite length_dirents, length_dir_list. lia. Qed.

Lemma need_small n : n <= 512 * MAXFILE \/ 4096 < need n.
Proof.
  destruct (Z.le_gt_cases n (512 * MAXFILE)); [by left|right]. unfold need. change MAXFILE with 16396 in *.
  repeat zcase; Z.div_mod_to_equations; lia.
Qed.

(** The image after the files [fs]. *)
Record built (fs : list arg) (m : mk_st) (L : placement) (C : Z -> list Z) (T : Z -> Z) : Prop := {
  bu_image : image_ok m L C T;
  bu_inodes : freeinode m = Z.of_nat (length fs) + 2;
  bu_root : C 1 = dir_bytes fs /\ T 1 = T_DIR;
  bu_files k a : fs !! k = Some a -> C (Z.of_nat k + 2) = file_data a /\ T (Z.of_nat k + 2) = T_FILE;
  bu_free : freeblock m = u0 + dir_need fs + files_need fs }.

Lemma built_step fs a m L C T :
  built fs m L C T -> arg_ok a -> Z.of_nat (length fs) < 198 ->
  u0 + dir_need (fs ++ [a]) + files_need (fs ++ [a]) <= Z.min N 4096 ->
  wp (add_file 1 a) m (fun _ m' => frame m m' /\ exists L' C' T', built (fs ++ [a]) m' L' C' T').
Proof.
  intros [Hok Hi [Hc Ht] Hfs Hfree] Ha Hlen Hfit. rewrite files_need_app in Hfit. cbn [files_need] in Hfit.
  pose proof (files_need_nonneg fs). pose proof (file_need_nonneg a).
  assert (Hn : Z.of_nat (length (C 1)) = 16 * (Z.of_nat (length fs) + 2)) by (rewrite Hc; apply length_dir_bytes).
  assert (En : dir_need (fs ++ [a]) = need (Z.of_nat (length (C 1)) + 16)).
  { unfold dir_need. f_equal. rewrite Hn, length_app. simpl. lia. }
  assert (En0 : dir_need fs = need (Z.of_nat (length (C 1)))) by (unfold dir_need; by rewrite Hn).
  assert (0 <= dir_need fs) by (rewrite En0; apply (need_mono 0); lia).
  assert (dir_need fs <= dir_need (fs ++ [a])) by (rewrite En, En0; apply need_mono; lia).
  eapply wp_mono; [apply (add_file_spec m L C T a); try done|].
  - lia.
  - destruct (need_small (Z.of_nat (length (file_data a)))) as [?|Hbig]; [done|]. unfold file_need in *. lia.
  - change MAXFILE with 16396. lia.
  - lia.
  - intros _ m' (L' & C' & T' & Hok' & E1 & E2 & E3 & E4 & E5 & F1 & F2 & F3). split; [done|]. exists L', C', T'.
    rewrite Hi in *. split; [done| | | |].
    + rewrite F2, length_app. simpl. lia.
    + split; [by rewrite E1, Hc, dir_bytes_snoc|]. rewrite E5 by lia. done.
    + intros k b Hk. apply lookup_app_Some in Hk as [Hk|[Hk1 Hk2]].
      * pose proof (lookup_lt_Some _ _ _ Hk). rewrite E4, E5 by lia. by apply Hfs.
      * apply list_lookup_singleton_Some in Hk2 as [Hk2 <-]. by replace (Z.of_nat k + 2) with (Z.of_nat (length fs) + 2) by lia.
    + rewrite files_need_app. cbn [files_need]. lia.
Qed.

Lemma built_files rest : forall fs m L C T,
  built fs m L C T -> Forall arg_ok rest -> Z.of_nat (length (fs ++ rest)) <= 198 ->
  u0 + dir_need (fs ++ rest) + files_need (fs ++ rest) <= Z.min N 4096 ->
  wp (mfor rest (add_file 1)) m (fun _ m' => frame m m' /\ exists L' C' T', built (fs ++ rest) m' L' C' T').
Proof.
  induction rest as [|a rest IH]; intros fs m L C T Hb Hok Hlen Hfit.
  { rewrite app_nil_r. split; [done|]. by exists L, C, T. }
  apply Forall_cons in Hok as [Ha Hok]. replace (fs ++ a :: rest) with ((fs ++ [a]) ++ rest) in * by (by rewrite <-app_assoc).
  assert (dir_need (fs ++ [a]) <= dir_need ((fs ++ [a]) ++ rest)) by (apply need_mono; rewrite ?length_app; lia).
  rewrite files_need_app in Hfit. pose proof (files_need_nonneg rest).
  cbn [mfor]. apply wp_bind. eapply wp_mono; [apply (built_step fs a m L C T Hb Ha)|].
  - rewrite !length_app in Hlen. simpl in Hlen. lia.
  - lia.
  - intros _ m1 (F1 & L1 & C1 & T1 & Hb1). eapply wp_mono; [apply (IH _ _ _ _ _ Hb1 Hok Hlen)|].
    + rewrite files_need_app. lia.
    + intros _ m2 (F2 & Hb2). split; [by eapply frame_trans|done].
Qed.
End image.

(** ** The bitmap *)

(** The first [n] bits are set, and no others. *)
Lemma set_bits_spec n :
  (n <= 4096)%nat -> is_block (set_bits n zero_block) /\
  forall b, 0 <= b < 4096 -> bit_used (set_bits n zero_block) b = (b <? Z.of_nat n).
Proof.
  induction n as [|n IH]; intros Hn; cbn [set_bits].
  - split; [apply zero_block_ok|]. intros b Hb. rewrite bit_used_testbit. destruct (Z.ltb_spec b (Z.of_nat 0)); [lia|].
    change (bit_byte zero_block b) with (byte_at zero_block (b / 8)). rewrite zero_byte. apply Z.bits_0.
  - destruct IH as [Hb IH]; [lia|]. split; [by apply (bit_set_spec _ _ 0); [|lia|lia]|]. intros b Hb'.
    rewrite (proj2 (bit_set_spec _ (Z.of_nat n) b Hb ltac:(lia) Hb')), IH by done. repeat zcase; simpl; try done; lia.
Qed.

(** ** The program *)

Lemma zero_loop n : forall a m,
  (forall x, sect m x = zero_block) -> flen m = Z.of_nat a ->
  wp (mfor (seq a n) (fun i => wsect (Z.of_nat i) zero_block)) m (fun _ m' =>
    (forall x, sect m' x = zero_block) /\ flen m' = Z.of_nat (a + n) /\
    freeblock m' = freeblock m /\ usedblocks m' = usedblocks m /\ freeinode m' = freeinode m).
Proof.
  induction n as [|n IH]; intros a m Hz Hl; [by rewrite Nat.add_0_r|].
  cbn [seq mfor]. unfold wsect at 1. wp_steps. eapply wp_mono; [apply IH|].
  - intros x. rewrite sect_wsect. case_decide; done.
  - simpl. lia.
  - simpl. intros _ m' (H1 & H2 & H3). split; [done|]. split; [rewrite H2; f_equal; lia|done].
Qed.

Section program.
Context (sb_tail jsb_tail : list Z) (kb : Z) (fs : list arg).
Hypothesis sb_tail_ok : length sb_tail = 500%nat /\ Forall is_byte sb_tail.
Hypothesis jsb_tail_ok : length jsb_tail = 496%nat /\ Forall is_byte jsb_tail.
Hypothesis kb_ok : 1 <= kb <= 32767.
Hypothesis fs_ok : Forall arg_ok fs.
Hypothesis fs_few : Z.of_nat (length fs) <= 198.
Hypothesis fs_fit : reserved kb + dir_need fs + files_need fs <= Z.min (fs_size kb) 4096.

Definition superblock_bytes : block := xint (fs_size kb) ++ xint (fs_size kb - reserved kb) ++ xint ninodes ++ sb_tail.
Definition jsblock_bytes : block := xint (jblocks - 1) ++ xint 3 ++ xint 3 ++ xint 0 ++ jsb_tail.

Lemma sb_block : is_block superblock_bytes.
Proof.
  unfold superblock_bytes. rewrite !xint_bytes. split; [rewrite !length_app, !length_le_bytes; destruct sb_tail_ok as [-> _]; done|].
  rewrite !Forall_app. split_and!; apply le_bytes_byte || apply sb_tail_ok.
Qed.
Lemma jsb_block : is_block jsblock_bytes.
Proof.
  unfold jsblock_bytes. rewrite !xint_bytes. split; [rewrite !length_app, !length_le_bytes; destruct jsb_tail_ok as [-> _]; done|].
  rewrite !Forall_app. split_and!; apply le_bytes_byte || apply jsb_tail_ok.
Qed.

Lemma geometry : 230 <= reserved kb <= 245 /\ 0 <= dir_need fs /\ 2 <= fs_size kb <= 65534 /\ reserved kb <= fs_size kb.
Proof using kb_ok fs_fit.
  clear -kb_ok fs_fit.
  pose proof (files_need_nonneg fs). assert (0 <= dir_need fs) by (apply (need_mono 0); lia).
  unfold reserved, bitblocks, fs_size, ninodes, jblocks in *. change IPB with 8 in *. change BSIZE with 512 in *.
  change NJB with 201 in *. Z.div_mod_to_equations. lia.
Qed.

(** The image before the first inode. *)
Lemma empty_image m :
  flen m = fs_size kb -> freeblock m = reserved kb -> usedblocks m = reserved kb -> freeinode m = 1 ->
  (forall x, sect m x = if decide (x = 2) then jsblock_bytes else if decide (x = 1) then superblock_bytes else zero_block) ->
  image_ok (reserved kb) (fs_size kb) m (fun _ _ => None) (fun _ => []) (fun _ => 0).
Proof.
  intros E1 E2 E3 E4 Hs. destruct geometry as (? & ? & ? & ?). split; try done; try lia.
  - split; [done|lia|congruence| |done|done|by intros i r q k [x Hx]|done|done| |].
    + intros x. rewrite Hs. repeat case_decide; [apply jsb_block|apply sb_block|apply zero_block_ok].
    + intros i bn Hbn Hlt. simpl in Hlt. lia.
    + intros x Hx. rewrite Hs, !decide_False by lia. done.
  - intros i r Hr. split; [by intros [? ?]|]. destruct r; simpl in *; lia.
Qed.
(** What the program leaves behind. *)
Record finished (m : mk_st) (L : placement) (C : Z -> list Z) : Prop := {
  fi_blocks : blocks_ok (reserved kb) (fs_size kb) m L C;
  fi_used : freeblock m = reserved kb + dir_need fs + files_need fs;
  fi_root : C 1 = dir_bytes fs /\ addrs_ok L 1 (rd m 1) /\
    rd m 1 = file_inode 1 T_DIR (512 * (Z.of_nat (length (dir_bytes fs)) / 512 + 1)) (i_addrs (rd m 1));
  fi_file k a : fs !! k = Some a -> let i := Z.of_nat k + 2 in
    C i = file_data a /\ addrs_ok L i (rd m i) /\
    rd m i = file_inode i T_FILE (Z.of_nat (length (file_data a))) (i_addrs (rd m i));
  fi_sb : sect m 1 = superblock_bytes;
  fi_jsb : sect m 2 = jsblock_bytes;
  fi_bitmap : sect m (BBLOCK 0 ninodes) = set_bits (Z.to_nat (freeblock m)) zero_block;
  fi_bitmap_rest x : 229 < x < reserved kb -> sect m x = zero_block }.

(** The two entries every directory starts with. *)
Lemma root_made m :
  flen m = fs_size kb -> freeblock m = reserved kb -> usedblocks m = reserved kb -> freeinode m = 1 ->
  (forall x, sect m x = if decide (x = 2) then jsblock_bytes else if decide (x = 1) then superblock_bytes else zero_block) ->
  wp make_root m (fun i m' => i = 1 /\ frame (reserved kb) m m' /\
     exists L C T, built (reserved kb) (fs_size kb) [] m' L C T).
Proof.
  intros E1 E2 E3 E4 Hs. destruct geometry as (G1 & G2 & G3 & G4).
  pose proof (empty_image m E1 E2 E3 E4 Hs) as H0. pose proof (files_need_nonneg fs).
  assert (Hd : reserved kb + 1 <= fs_size kb).
  { assert (dir_need [] <= dir_need fs) by (apply need_mono; simpl; lia). change (dir_need []) with 1 in *. lia. }
  unfold make_root. apply wp_bind. eapply wp_mono; [apply (ialloc_spec (reserved kb) (fs_size kb)) with (2 := H0); unfold u32_mod, T_DIR; lia|].
  rewrite E4. intros _ m1 (-> & H1 & F1 & F2 & F3). unfold assert. cbn [Z.eqb Pos.eqb]. wp_steps.
  rewrite xshort_bytes. change (le_bytes 2 1 ++ pad_name dot) with (encode_dirent 1 dot).
  change (le_bytes 2 1 ++ pad_name dotdot) with (encode_dirent 1 dotdot).
  eapply wp_mono; [apply (iappend_spec (reserved kb) (fs_size kb)) with (3 := H1)|].
  all: try (rewrite ?length_dirent, ?F2; simpl; unfold u32_mod; change MAXFILE with 16396; lia).
  { apply encode_dirent_bytes. unfold dot. apply Forall_cons. split; [unfold is_byte; lia|by apply Forall_nil]. }
  { change (need _) with 1 at 1. change (need _) with 0. lia. }
  intros _ m2 (L2 & H2 & F4 & F5 & F6). change (need (_ + _)) with 1 in F4. change (need _) with 0 in F4.
  apply wp_bind. eapply wp_mono; [apply (iappend_spec (reserved kb) (fs_size kb)) with (3 := H2)|].
  all: rewrite ?with_contents_eq, ?app_nil_l, ?length_dirent.
  all: try (rewrite ?F5, ?F2; simpl; unfold u32_mod; change MAXFILE with 16396; lia).
  { apply encode_dirent_bytes. unfold dotdot. repeat (apply Forall_cons; split; [unfold is_byte; lia|]). by apply Forall_nil. }
  { change (need _) with 1 at 1. change (need _) with 1. lia. }
  intros _ m3 (L3 & H3 & F7 & F8 & F9). change (need (_ + _)) with 1 in F7. change (need _) with 1 in F7.
  wp_steps. split; [done|]. split; [do 2 (eapply frame_trans; [eassumption|]); exact F9|]. eexists L3, _, _. split; [exact H3|simpl; lia| |done|].
  - split; [by rewrite with_contents_eq|done].
  - change (dir_need []) with 1. simpl. lia.
Qed.
Lemma root_size n : 0 <= n < 16 * 201 -> u32 ((n / BSIZE + 1) * BSIZE) = 512 * (n / 512 + 1) /\ 0 <= 512 * (n / 512 + 1) < u32_mod.
Proof.
  intros H. change BSIZE with 512. unfold u32_mod in *. rewrite u32_small by (unfold u32_mod; Z.div_mod_to_equations; lia).
  split; Z.div_mod_to_equations; lia.
Qed.

(** The size of the root directory and the bitmap, at the end. *)
Lemma closing m L C T :
  built (reserved kb) (fs_size kb) fs m L C T -> sect m 1 = superblock_bytes -> sect m 2 = jsblock_bytes ->
  (forall x, 229 < x < reserved kb -> sect m x = zero_block) ->
  wp (fix_root 1 ;; let! m := get in balloc (usedblocks m)) m (fun _ m' => exists L' C', finished m' L' C').
Proof.
  intros [Hok Hi [Hc Ht] Hfs Hfree] H1 H2 H3. destruct geometry as (G1 & G2 & G3 & G4). pose proof Hok as [Hb Hex Hfr Hin Hty Hsz _].
  pose proof (bo_free _ _ _ _ _ Hb). destruct (i2b_IBLOCK 1) as [EI HI]; [lia|]. destruct (Hin 1) as [Ed Ha]; [lia|].
  unfold fix_root, rinode, rsect. rewrite EI. wp_steps. rewrite (bo_len _ _ _ _ _ Hb). destruct (Z.ltb_spec (IBLOCK 1) (fs_size kb)); [|lia].
  wp_steps. fold (rd m 1). set (sz := 512 * (Z.of_nat (length (dir_bytes fs)) / 512 + 1)).
  destruct (root_size (Z.of_nat (length (dir_bytes fs)))) as [Es Hsz']; [rewrite length_dir_bytes; lia|].
  assert (Edin : set_size (u32 ((i_size (rd m 1) / BSIZE + 1) * BSIZE)) (rd m 1) = file_inode 1 T_DIR sz (i_addrs (rd m 1))).
  { rewrite Ed. unfold file_inode, set_size. cbn [i_dev i_inum i_ref i_flags i_type i_major i_minor i_nlink i_size i_addrs].
    by rewrite Hc, Ht, Es. }
  rewrite Edin. assert (Hst : storable_fields T_DIR sz (i_addrs (rd m 1))).
  { unfold T_DIR, sz. split_and!; [lia|lia|lia|lia|apply Ha|eapply addrs_storable; [| |exact Hb|exact Ha]; unfold u32_mod; lia]. }
  eapply wp_mono; [apply (winode_spec (fs_size kb) m 1); [apply (bo_block _ _ _ _ _ Hb)|lia|apply (bo_len _ _ _ _ _ Hb)|lia|done|apply Ha|by apply file_inode_storable]|].
  intros _ m1 (F1 & F2 & F3 & F4 & F5 & F6 & F7 & F8). unfold balloc, wsect. wp_steps.
  rewrite F3, (bo_used _ _ _ _ _ Hb). change BPB with 4096. destruct (Z.ltb_spec 4096 (freeblock m)); [lia|]. wp_steps.
  change (ninodes / IPB + jblocks + 3) with 229. set (m' := MkSt _ _ _ _ _).
  assert (Hs : forall x, sect m' x = if decide (x = 229) then set_bits (Z.to_nat (freeblock m)) zero_block else sect m1 x)
    by (intros x; apply sect_wsect).
  assert (Hrd : forall j, 1 <= j < 200 -> rd m' j = rd m1 j).
  { intros j Hj. destruct (i2b_IBLOCK j) as [_ HJ]; [lia|]. unfold rd. by rewrite Hs, decide_False by lia. }
  assert (Hr1 : rd m1 1 = file_inode 1 T_DIR sz (i_addrs (rd m 1))).
  { unfold rd at 1. rewrite F6. apply load_store; [apply (bo_block _ _ _ _ _ Hb)|done]. }
  destruct (set_bits_spec (Z.to_nat (freeblock m))) as [Hbm _]; [lia|]. exists L, C. split.
  - apply (blocks_frame _ _ m); try done; [simpl; rewrite (bo_len _ _ _ _ _ Hb); lia| |].
    + intros x. rewrite Hs. by case_decide.
    + intros x Hx. rewrite Hs, decide_False by lia. apply F7. lia.
  - simpl. lia.
  - rewrite Hrd, Hr1 by lia. split_and!; [done|by apply (addrs_ok_same L)|done].
  - intros k a Hk i. pose proof (lookup_lt_Some _ _ _ Hk). destruct (Hfs k a Hk) as [Ec Et].
    rewrite Hrd, F8 by lia. destruct (Hin i) as [E A]; [lia|]. fold i in Ec, Et. rewrite <-Ec, <-Et. done.
  - by rewrite Hs, decide_False, F7 by lia.
  - by rewrite Hs, decide_False, F7 by lia.
  - change (BBLOCK 0 ninodes) with 229. rewrite Hs, decide_True by done. simpl. by rewrite F2.
  - intros x Hx. rewrite Hs, decide_False, F7 by lia. by apply H3.
Qed.

Lemma init_image_spec :
  wp (init_image sb_tail jsb_tail kb) mk_boot (fun _ m =>
    flen m = fs_size kb /\ freeblock m = reserved kb /\ usedblocks m = reserved kb /\ freeinode m = 1 /\
    forall x, sect m x = if decide (x = 2) then jsblock_bytes else if decide (x = 1) then superblock_bytes else zero_block).
Proof.
  destruct geometry as (G1 & G2 & G3 & G4). unfold init_image, assert. wp_steps.
  replace (fs_size kb - reserved kb + reserved kb) with (fs_size kb) by lia.
  rewrite u32_small by (unfold u32_mod; lia). rewrite Z.eqb_refl. wp_steps.
  eapply wp_mono; [apply zero_loop; done|]. intros _ m1 (Hz & E1 & E2 & E3 & E4). unfold jinit, wsect. wp_steps. simpl in *.
  split_and!; [lia|done..|]. intros x. unfold sect. simpl. fold superblock_bytes jsblock_bytes.
  case_decide; [subst; by rewrite lookup_insert_eq|]. rewrite lookup_insert_ne by done.
  case_decide; [subst; by rewrite lookup_insert_eq|]. rewrite lookup_insert_ne by done. apply Hz.
Qed.

Lemma main_spec :
  wp (main sb_tail jsb_tail (Some (kb, fs))) mk_boot (fun _ m => exists L C, finished m L C).
Proof.
  destruct geometry as (G1 & G2 & G3 & G4). unfold main, assert.
  destruct (Z.ltb_spec kb 1); [lia|]. destruct (Z.leb_spec kb 32767); [|lia]. wp_steps.
  eapply wp_mono; [apply init_image_spec|]. intros _ m1 (E1 & E2 & E3 & E4 & Hs).
  apply wp_bind. eapply wp_mono; [by apply root_made|]. intros _ m2 (-> & F2 & L2 & C2 & T2 & B2).
  apply wp_bind. eapply wp_mono; [apply (built_files (reserved kb) (fs_size kb)) with (3 := B2); (done || lia || (unfold u32_mod; lia))|].
  intros _ m3 (F3 & L3 & C3 & T3 & B3). pose proof (frame_trans _ _ _ _ F2 F3) as F.
  apply (closing m3 L3 C3 T3 B3); [rewrite F by (unfold meta_sect; lia); by rewrite Hs..|].
  intros x Hx. rewrite F by (unfold meta_sect; lia). by rewrite Hs, !decide_False by lia.
Qed.
End program.

(** Arguments of mkfs that fit its limits: the bytes behind its structures,
    a size in kilobytes, and files that are few, readable and small enough for
    the image and for the one block of bitmap it writes. *)
Record mkfs_args (sb_tail jsb_tail : list Z) (kb : Z) (fs : list arg) : Prop := {
  ma_sb : length sb_tail = 500%nat /\ Forall is_byte sb_tail;
  ma_jsb : length jsb_tail = 496%nat /\ Forall is_byte jsb_tail;
  ma_kb : 1 <= kb <= 32767;
  ma_files : Forall arg_ok fs;
  ma_few : Z.of_nat (length fs) <= 198;
  ma_fit : reserved kb + dir_need fs + files_need fs <= Z.min (fs_size kb) 4096 }.

Lemma main_finished sb_tail jsb_tail kb fs :
  mkfs_args sb_tail jsb_tail kb fs ->
  230 <= reserved kb /\ reserved kb <= fs_size kb < 2 ^ 28 /\
  exists m L C, main sb_tail jsb_tail (Some (kb, fs)) mk_boot = Ret tt m /\ finished sb_tail jsb_tail kb fs m L C.
Proof.
  intros [H1 H2 H3 H4 H5 H6]. destruct (geometry kb fs H3 H6) as (G1 & G2 & G3 & G4). split; [lia|].
  split; [lia|].
  destruct (proj1 (wp_returns _ _ _) (main_spec sb_tail jsb_tail kb fs H1 H2 H3 H4 H5 H6)) as ([] & m & E & L & C & Hf).
  by exists m, L, C.
Qed.
