(* ===== verification/MkfsKernel.v ===== *)
(** * The kernel on an image made by mkfs

    The routines of fs.c run on the image main of mkfs.c leaves: what readsb,
    readi and dirlookup find there. *)

From S2P Require Import Prelude CString Layout Ide Bio Cache Fs FsInode FsNames FsRead FsAlloc Mkfs MkfsBlocks MkfsProps.

(** The kernel shows the image: nothing is locked, and each sector reads as in
    the image (the disk driver addresses 2^28 sectors). *)
Record mounted (m : mk_st) (s : fs_st) : Prop := {
  mo_calm : calm (fb s);
  mo_free x : unheld s ROOTDEV x;
  mo_view x : 0 <= x < 2 ^ 28 -> view s ROOTDEV x = sect m x }.

Section kernel.
Context (u0 N : Z) (m : mk_st) (L : placement) (C : Z -> list Z).
Hypothesis u0_low : 230 <= u0.
Hypothesis N_small : N < 2 ^ 28.
Hypothesis blocks : blocks_ok u0 N m L C.

Lemma nz_place i r x : L i r = Some x -> nz x = Some x.
Proof. intros H. apply (bo_range _ _ _ _ _ blocks) in H as [_ ?]. unfold nz. zcase; [lia|done]. Qed.

(** The block walk of the kernel follows the pointers mkfs wrote. *)
Lemma walk_place blk i ip bn x :
  addrs_ok L i ip -> (forall y, u0 <= y < N -> blk y = sect m y) -> L i (Data bn) = Some x ->
  (walk blk (i_addrs ip) bn).2 = Some x.
Proof.
  intros [_ Ha] Hv Hx. pose proof (bo_free _ _ _ _ _ blocks). pose proof (bo_range _ _ _ _ _ blocks _ _ _ Hx) as [Hr _].
  unfold walk. change NDIRECT with 12. change NPTR with 128. change INDIRECT with 12. destruct (Z.ltb_spec bn 12) as [Hd|Hi]; simpl.
  - rewrite (Ha (Data bn)) by (done || by apply slot_direct). rewrite Hx. by apply (nz_place i (Data bn)).
  - pose proof (up_indirect bn Hi) as Eu. destruct (up_ok _ _ _ Hr Eu) as (Hr2 & _).
    destruct (bo_up _ _ _ _ _ blocks i (Data bn) _ _ (ex_intro _ x Hx) Eu) as [a2 Ea2].
    destruct (bo_up _ _ _ _ _ blocks i (Ind2 _) Ind _ (ex_intro _ a2 Ea2) eq_refl) as [a Ea].
    pose proof (bo_range _ _ _ _ _ blocks _ _ _ Ea) as [_ ?]. pose proof (bo_range _ _ _ _ _ blocks _ _ _ Ea2) as [_ ?].
    change (Z.to_nat 12) with 12%nat. rewrite (Ha Ind 12%nat) by done. rewrite Ea. cbn [default]. unfold id.
    rewrite (nz_place i Ind) by done. rewrite (Hv a) by lia.
    rewrite (bo_word _ _ _ _ _ blocks i (Ind2 _) Ind _ a Hr2 eq_refl Ea), Ea2. cbn [default]. unfold id.
    rewrite (nz_place i (Ind2 _) a2) by done. cbn [snd]. rewrite (Hv a2) by lia.
    rewrite (bo_word _ _ _ _ _ blocks i (Data bn) _ _ a2 Hr Eu Ea2), Hx. by apply (nz_place i (Data bn)).
Qed.

Context (s : fs_st).
Hypothesis mount : mounted m s.

Lemma view_sect y : u0 <= y < N -> view s ROOTDEV y = sect m y.
Proof. intros Hy. apply (mo_view _ _ mount). lia. Qed.

Lemma image_readable i ip bn x :
  addrs_ok L i ip -> i_dev ip = ROOTDEV -> L i (Data bn) = Some x -> readable s ip bn.
Proof.
  intros Ha Hd Hx. pose proof (bo_range _ _ _ _ _ blocks _ _ _ Hx) as [Hr Hxr]. pose proof (bo_free _ _ _ _ _ blocks).
  unfold readable. rewrite Hd. split; [done|]. split; [apply Forall_true; apply (mo_free _ _ mount)|].
  exists x. split; [apply (walk_place _ i); [done| |done]; apply view_sect|]. split; [apply (mo_free _ _ mount)|].
  rewrite view_sect by lia. apply (bo_block _ _ _ _ _ blocks).
Qed.

Lemma image_block i ip bn x : addrs_ok L i ip -> i_dev ip = ROOTDEV -> L i (Data bn) = Some x -> file_block s ip bn = sect m x.
Proof.
  intros Ha Hd Hx. pose proof (bo_range _ _ _ _ _ blocks _ _ _ Hx) as [Hr Hxr]. pose proof (bo_free _ _ _ _ _ blocks).
  unfold file_block. rewrite Hd, (walk_place _ i ip bn x) by (done || apply view_sect). apply view_sect. lia.
Qed.

Lemma image_byte i ip k :
  addrs_ok L i ip -> i_dev ip = ROOTDEV -> 0 <= k < Z.of_nat (length (C i)) -> file_byte s ip k = byte_at (C i) k.
Proof.
  intros Ha Hd Hk. destruct (bo_cover _ _ _ _ _ blocks i (k / 512)) as [x Hx]; [Z.div_mod_to_equations; lia..|].
  unfold file_byte. change BSIZE with 512. rewrite (image_block i ip _ x Ha Hd Hx).
  pose proof (bo_data _ _ _ _ _ blocks i _ x Hx (k mod 512) (Z.mod_pos_bound k 512 ltac:(lia))) as E.
  etrans; [exact E|]. f_equal. Z.div_mod_to_equations. lia.
Qed.

Lemma image_bytes i ip off n :
  addrs_ok L i ip -> i_dev ip = ROOTDEV -> 0 <= off -> off + Z.of_nat n <= Z.of_nat (length (C i)) ->
  file_bytes s ip off n = slice (Z.to_nat off) n (C i).
Proof.
  intros Ha Hd Ho Hn. apply list_eq. intros j. rewrite file_bytes_lookup. unfold slice. case_decide.
  - rewrite lookup_take_lt, lookup_drop by lia. rewrite (image_byte i) by (done || lia). unfold byte_at.
    replace (Z.to_nat (off + Z.of_nat j)) with (Z.to_nat off + j)%nat by lia.
    destruct (lookup_lt_is_Some_2 (C i) (Z.to_nat off + j)%nat) as [v ->]; [lia|done].
  - by rewrite lookup_take_ge by lia.
Qed.

(** readi of a file of the image. *)
Lemma image_readi devsw i slot0 ip off n :
  addrs_ok L i ip -> icache s !! slot0 = Some ip -> i_dev ip = ROOTDEV -> i_type ip <> T_DEV ->
  i_size ip = Z.of_nat (length (C i)) -> Z.of_nat (length (C i)) < 2147483648 ->
  0 <= off <= Z.of_nat (length (C i)) -> 0 <= n -> off + n < u32_mod ->
  let cnt := Z.min n (Z.of_nat (length (C i)) - off) in
  exists s', readi devsw slot0 off n s = Ret (cnt, slice (Z.to_nat off) (Z.to_nat cnt) (C i)) s' /\ fs_same s s'.
Proof.
  intros Ha Hi Hd Ht Hsz Hbig Ho Hn Hw cnt.
  destruct (readi_file devsw s slot0 ip off n) as (s' & E & Hs); try done.
  - apply (mo_calm _ _ mount).
  - unfold u32_mod. lia.
  - lia.
  - rewrite Hsz. intros bn Hbn. unfold BSIZE in Hbn. destruct (bo_cover _ _ _ _ _ blocks i bn) as [x Hx].
    + Z.div_mod_to_equations. lia.
    + Z.div_mod_to_equations. lia.
    + by apply (image_readable i _ _ x).
  - exists s'. split; [|done]. rewrite Hsz in E. fold cnt in E. rewrite E, s32_small by lia.
    rewrite (image_bytes i) by (done || lia). done.
Qed.
End kernel.

(** ** Files *)

(** A loaded inode of the image has the fields mkfs wrote. *)
Lemma loaded_fields m s i inum ip type size addrs :
  mounted m s -> loaded s i inum ip -> 0 <= IBLOCK inum < 2 ^ 28 -> rd m inum = file_inode inum type size addrs ->
  i_type ip = type /\ i_nlink ip = 1 /\ i_size ip = size /\ i_addrs ip = i_addrs (rd m inum) /\ i_dev ip = ROOTDEV.
Proof.
  intros Hm (Hi & Hd & Hn & El) Hr Erd. rewrite (mo_view _ _ Hm) in El by done.
  rewrite Erd. unfold rd, load_dinode in *. cbn [blank i_inum i_dev i_ref i_flags] in Erd. rewrite Hn in El. injection Erd as <- _ _ <- <- <-.
  rewrite El. done.
Qed.

Lemma addrs_ok_eq L i ip ip' : i_addrs ip = i_addrs ip' -> addrs_ok L i ip' -> addrs_ok L i ip.
Proof. unfold addrs_ok. by intros ->. Qed.

(** C19: what mkfs puts into an image the kernel reads back.  For every
    command line within its limits mkfs runs to its end, and on a kernel that
    shows the image it wrote, the inode of the k-th file loads as a regular
    file of the right size, and readi returns from any offset exactly the
    bytes of the file, through direct and doubly indirect blocks. *)
Theorem mkfs_files_read (sb_tail jsb_tail : list Z) (kb : Z) (fs : list arg)
    (devsw : Z -> option (nat -> Z -> M fs_st (Z * list Z))) :
  mkfs_args sb_tail jsb_tail kb fs ->
  exists m, main sb_tail jsb_tail (Some (kb, fs)) mk_boot = Ret tt m /\
  forall s k a i ip off n,
    mounted m s -> fs !! k = Some a -> loaded s i (Z.of_nat k + 2) ip ->
    let len := Z.of_nat (length (file_data a)) in
    0 <= off <= len -> 0 <= n -> off + n < u32_mod ->
    let cnt := Z.min n (len - off) in
    i_type ip = T_FILE /\ i_nlink ip = 1 /\ i_size ip = len /\
    exists s', readi devsw i off n s = Ret (cnt, slice (Z.to_nat off) (Z.to_nat cnt) (file_data a)) s' /\ fs_same s s'.
Proof.
  intros Hargs. destruct (main_finished _ _ _ _ Hargs) as (G1 & G2 & m & L & C & E & Hf). exists m. split; [done|].
  intros s k a i ip off n Hm Hk Hl len Ho Hn Hw cnt. pose proof (fi_blocks _ _ _ _ _ _ _ Hf) as Hb.
  destruct (fi_file _ _ _ _ _ _ _ Hf k a Hk) as (Ec & Ha & Er). pose proof (lookup_lt_Some _ _ _ Hk). pose proof (ma_few _ _ _ _ Hargs).
  destruct (i2b_IBLOCK (Z.of_nat k + 2)) as [_ HI]; [lia|].
  assert (HIB : 0 <= IBLOCK (Z.of_nat k + 2) < 2 ^ 28) by lia.
  destruct (loaded_fields m s i _ ip _ _ _ Hm Hl HIB Er) as (Et & El & Es & Ead & Ed).
  split_and!; [done..|]. fold len in Es.
  assert (Hlen : len < 2147483648).
  { destruct (need_small len) as [?|Hbig]; [change MAXFILE with 16396 in *; lia|].
    pose proof (ma_fit _ _ _ _ Hargs). assert (0 <= dir_need fs) by (apply (need_mono 0); lia).
    assert (file_need a <= files_need fs); [|unfold file_need, len in *; lia].
    apply list_elem_of_lookup_2 in Hk as (l1 & l2 & ->)%list_elem_of_split. rewrite files_need_app. cbn [files_need].
    pose proof (files_need_nonneg l1). pose proof (files_need_nonneg l2). lia. }
  destruct Hl as (Hi & _). unfold cnt, len in *. rewrite <-Ec in *.
  destruct (image_readi (reserved kb) (fs_size kb) m L C G1 (proj2 G2) Hb s Hm devsw (Z.of_nat k + 2) i ip off n) as (s' & E' & Hs); try done.
  - by apply (addrs_ok_eq _ _ _ _ Ead).
  - rewrite Et. discriminate.
  - by exists s'.
Qed.

(** ** The image on the disk of a machine that boots *)

Definition disk_of (m : mk_st) : image := kmap (pair ROOTDEV) (img m).

Lemma disk_of_read m x : dread (disk_of m) ROOTDEV x = sect m x.
Proof. simpl. unfold disk_of, sect. by rewrite lookup_kmap by (by intros ?? [= ->]). Qed.

Lemma boot_mounted m n l : (0 < n)%nat -> mounted m (FsSt (boot n (disk_of m)) l).
Proof.
  intros Hn. split; [by apply calm_boot|intros x; apply boot_unheld|]. intros x Hx.
  rewrite boot_view. change (Z.land ROOTDEV 1) with ROOTDEV. rewrite Z.mod_small by done. apply disk_of_read.
Qed.

(** One file, of 3 bytes. *)
Definition demo_tail (n : nat) : list Z := replicate n 0.
Definition demo_args : list arg := [([95; 97], Some [[1; 2]; [3]])].

Lemma demo_args_ok : mkfs_args (demo_tail 500) (demo_tail 496) 512 demo_args.
Proof.
  split; [split; [done|by apply Forall_replicate]..|lia| |simpl; lia|vm_compute; discriminate].
  apply Forall_cons. split; [|by apply Forall_nil]. split_and!.
  - repeat (apply Forall_cons; split; [unfold is_byte; lia|]). by apply Forall_nil.
  - cbn [fst]. rewrite !elem_of_cons. unfold slash. intros [?|[?|H]]; [lia|lia|by apply not_elem_of_nil in H].
  - eexists. split; [done|]. repeat (apply Forall_cons; split; [|]); try apply Forall_nil; try done; unfold is_byte; lia.
Qed.

Lemma mkfs_files_read_witness :
  exists m s s', main (demo_tail 500) (demo_tail 496) (Some (512, demo_args)) mk_boot = Ret tt m /\
    mounted m s /\ readi (fun _ => None) 0 1 7 s = Ret (2, [2; 3]) s'.
Proof.
  destruct (mkfs_files_read (demo_tail 500) (demo_tail 496) 512 demo_args (fun _ => None) demo_args_ok) as (m & E & H).
  set (ip := load_dinode (sect m (IBLOCK 2)) (Inode ROOTDEV 2 1 2 0 0 0 0 0 [])).
  assert (Hm : mounted m (FsSt (boot 4 (disk_of m)) [ip])) by (apply boot_mounted; lia).
  destruct (H _ 0%nat ([95; 97], Some [[1; 2]; [3]]) 0%nat ip 1 7 Hm) as (_ & _ & _ & s' & E' & _).
  - reflexivity.
  - split; [reflexivity|]. split; [reflexivity|]. split; [reflexivity|].
    rewrite (mo_view _ _ Hm) by (vm_compute; split; [discriminate|reflexivity]). reflexivity.
  - vm_compute. split; discriminate.
  - lia.
  - unfold u32_mod. lia.
  - exists m, (FsSt (boot 4 (disk_of m)) [ip]), s'. split; [exact E|]. split; [exact Hm|]. exact E'.
Defined.

(** ** Superblock, journal and bitmap *)

Lemma get_u32_field p v r : get_u32 (Z.of_nat (length p)) (p ++ le_bytes 4 v ++ r) = u32 v.
Proof.
  unfold get_u32, getz, slice. rewrite Nat2Z.id, drop_app_length, take_app_length' by (by rewrite length_le_bytes).
  apply le_val_bytes.
Qed.

Lemma superblock_fields sb_tail kb :
  0 <= fs_size kb < u32_mod -> 0 <= fs_size kb - reserved kb ->
  0 <= reserved kb -> decode_sb (superblock_bytes sb_tail kb) = Superblock (fs_size kb) (fs_size kb - reserved kb) ninodes.
Proof.
  intros H1 H2 H3. unfold decode_sb, superblock_bytes. rewrite !xint_bytes. f_equal.
  - etrans; [apply (get_u32_field [] (fs_size kb))|by apply u32_small].
  - etrans; [apply (get_u32_field (le_bytes 4 (fs_size kb)) (fs_size kb - reserved kb))|apply u32_small; lia].
Qed.

Lemma jsblock_fields tl :
  jsb_size (jsblock_bytes tl) = NJB - 1 /\ jsb_head (jsblock_bytes tl) = 3 /\ jsb_tail (jsblock_bytes tl) = 3.
Proof. done. Qed.

(** C33: the metadata mkfs writes is what the kernel expects.  On a kernel
    that shows the image, readsb returns the size, the number of data blocks
    and the number of inodes; the journal has its size and is empty; and the
    bitmap marks, for every block of the disk, exactly the reserved blocks and
    the ones given to files as used. *)
Theorem mkfs_metadata (sb_tail jsb_tail0 : list Z) (kb : Z) (fs : list arg) :
  mkfs_args sb_tail jsb_tail0 kb fs ->
  exists m, main sb_tail jsb_tail0 (Some (kb, fs)) mk_boot = Ret tt m /\
  forall s, mounted m s ->
    (exists s', readsb ROOTDEV s = Ret (Superblock (fs_size kb) (fs_size kb - reserved kb) ninodes) s' /\ fs_same s s') /\
    (let j := view s ROOTDEV 2 in jsb_size j = NJB - 1 /\ jsb_head j = 3 /\ jsb_tail j = 3) /\
    (forall b, 0 <= b < fs_size kb ->
       bit_used (view s ROOTDEV (BBLOCK b ninodes)) (b mod BPB) = (b <? reserved kb + dir_need fs + files_need fs)).
Proof.
  intros Hargs. destruct (main_finished _ _ _ _ Hargs) as (G1 & G2 & m & L & C & E & Hf). exists m. split; [done|].
  intros s Hm. split_and!.
  - destruct (read_block s ROOTDEV 1 (mo_calm _ _ Hm) (mo_free _ _ Hm 1)) as (bp & s1 & s2 & E1 & Ed & E2 & Hs & _).
    exists s2. split; [|done]. unfold readsb. rewrite (bind_ret _ _ _ _ _ E1), (bind_ret _ _ _ _ _ Ed), (bind_ret _ _ _ _ _ E2).
    rewrite (mo_view _ _ Hm), (fi_sb _ _ _ _ _ _ _ Hf) by lia. unfold ret. f_equal. apply superblock_fields; unfold u32_mod; lia.
  - rewrite (mo_view _ _ Hm), (fi_jsb _ _ _ _ _ _ _ Hf) by lia. apply jsblock_fields.
  - intros b Hb. rewrite <-(fi_used _ _ _ _ _ _ _ Hf). pose proof (ma_fit _ _ _ _ Hargs). pose proof (fi_used _ _ _ _ _ _ _ Hf).
    assert (EB : BBLOCK b ninodes = b / 4096 + 229) by (unfold BBLOCK; change BPB with 4096; change (ninodes / IPB) with 25; change NJB with 201; lia).
    change BPB with 4096. rewrite (mo_view _ _ Hm) by (rewrite EB; Z.div_mod_to_equations; lia).
    destruct (Z.lt_ge_cases b 4096) as [Hlo|Hhi].
    + rewrite (Z.mod_small b) by lia. replace (BBLOCK b ninodes) with (BBLOCK 0 ninodes) by (rewrite EB, Z.div_small by lia; done).
      rewrite (fi_bitmap _ _ _ _ _ _ _ Hf), (proj2 (set_bits_spec (Z.to_nat (freeblock m)) ltac:(lia))) by lia.
      f_equal. pose proof (bo_free _ _ _ _ _ (fi_blocks _ _ _ _ _ _ _ Hf)). lia.
    + assert (Hd : 0 < b / 4096 < bitblocks kb) by (unfold bitblocks; change (512 * 8) with 4096; Z.div_mod_to_equations; lia).
      rewrite (fi_bitmap_rest _ _ _ _ _ _ _ Hf).
      2:{ rewrite EB. unfold reserved, jblocks. change (ninodes / IPB) with 25. change NJB with 201. lia. }
      destruct (Z.ltb_spec b (freeblock m)); [lia|]. rewrite bit_used_testbit.
      change (bit_byte zero_block (b mod 4096)) with (byte_at zero_block (b mod 4096 / 8)). rewrite zero_byte. apply Z.bits_0.
Qed.

Lemma mkfs_metadata_witness :
  exists m s s', main (demo_tail 500) (demo_tail 496) (Some (512, demo_args)) mk_boot = Ret tt m /\
    readsb ROOTDEV s = Ret (Superblock 1024 794 200) s' /\
    bit_used (view s ROOTDEV (BBLOCK 231 ninodes)) 231 = true /\ bit_used (view s ROOTDEV (BBLOCK 232 ninodes)) 232 = false.
Proof.
  destruct (mkfs_metadata (demo_tail 500) (demo_tail 496) 512 demo_args demo_args_ok) as (m & E & H).
  set (s := FsSt (boot 4 (disk_of m)) []).
  destruct (H s) as ((s' & E' & _) & _ & Hb); [apply boot_mounted; lia|].
  exists m, s, s'. split; [exact E|]. split; [exact E'|]. split.
  - etransitivity; [apply (Hb 231); vm_compute; split; [discriminate|reflexivity]|]. vm_compute. reflexivity.
  - etransitivity; [apply (Hb 232); vm_compute; split; [discriminate|reflexivity]|]. vm_compute. reflexivity.
Defined.

(** ** The root directory *)

Lemma slice_slice a n b k (d : block) : (a + n <= k)%nat -> slice a n (slice b k d) = slice (b + a) n d.
Proof.
  intros H. unfold slice. rewrite skipn_firstn_comm, take_take, drop_drop. f_equal. lia.
Qed.

Lemma slice_dirents es j e :
  es !! j = Some e -> slice (16 * j) 16 (concat (map (fun e : Z * list Z => encode_dirent e.1 e.2) es)) = encode_dirent e.1 e.2.
Proof.
  revert j. induction es as [|e0 es IH]; intros j Hj; [done|]. destruct j as [|j]; cbn [map concat].
  - injection Hj as ->. unfold slice. rewrite Nat.mul_0_r, drop_0. by rewrite take_app_length' by (by rewrite length_dirent).
  - unfold slice in *. rewrite drop_app_ge by (rewrite length_dirent; lia). rewrite length_dirent, <-(IH j Hj). do 2 f_equal. lia.
Qed.

(** A name as namecmp compares it. *)
Definition name_key (name : list Z) : list Z := cut_name DIRSIZ (of_bytes name).

(** What a directory entry written by mkfs reads as. *)
Lemma dirent_fields ino name :
  0 <= ino < 65536 -> le_val (slice 0 2 (encode_dirent ino name)) = ino /\
  name_key (slice 2 DIRSIZ (encode_dirent ino name)) = name_key name.
Proof.
  intros Hi. unfold encode_dirent, slice. split.
  - rewrite drop_0, take_app_length' by (by rewrite length_le_bytes). rewrite le_val_bytes. by apply Z.mod_small.
  - rewrite drop_app_length' by (by rewrite length_le_bytes). unfold name_key. apply cut_name_ext. intros i Hi'.
    unfold of_bytes. rewrite take_ge by done. by do 14 (destruct i as [|i]; [done|]); unfold DIRSIZ in Hi'; lia.
Qed.

(** The scan stops at the first entry that matches. *)
Lemma block_find_first s ip name bn k n :
  (forall k', (k' < k)%nat -> matches name (dir_entry s ip bn k') = false) ->
  (k < n)%nat -> matches name (dir_entry s ip bn k) = true -> block_find s ip name bn (seq 0 n) = Some k.
Proof.
  intros Hno Hk Hy. assert (H : forall j d, (j + d = k)%nat -> (d < n - j)%nat -> block_find s ip name bn (seq j (n - j)) = Some k).
  { intros j d. revert j. induction d as [|d IH]; intros j Hj Hd.
    - rewrite Nat.add_0_r in Hj. subst j. replace (n - k)%nat with (S (n - S k)) by lia. simpl. by rewrite Hy.
    - replace (n - j)%nat with (S (n - S j)) by lia. cbn [seq block_find]. rewrite Hno by lia. apply IH; lia. }
  specialize (H O k). rewrite Nat.sub_0_r in H. apply H; lia.
Qed.

Lemma block_find_no_match s ip name bn ks :
  (forall k, k ∈ ks -> matches name (dir_entry s ip bn k) = false) -> block_find s ip name bn ks = None.
Proof.
  induction ks as [|k ks IH]; intros H; [done|]. cbn [block_find]. rewrite H by (by left). apply IH. intros k' Hk'. apply H. by right.
Qed.

Lemma dir_find_first s ip name bn k nb :
  (bn < nb)%nat -> (k < DPB)%nat -> matches name (dir_entry s ip bn k) = true ->
  (forall bn' k', (k' < DPB)%nat -> (bn' < bn \/ (bn' = bn /\ k' < k))%nat -> matches name (dir_entry s ip bn' k') = false) ->
  dir_find s ip name (seq 0 nb) = Some (bn, k).
Proof.
  intros Hb Hk Hy Hno. assert (H : forall j d, (j + d = bn)%nat -> (d < nb - j)%nat -> dir_find s ip name (seq j (nb - j)) = Some (bn, k)).
  { intros j d. revert j. induction d as [|d IH]; intros j Hj Hd.
    - rewrite Nat.add_0_r in Hj. subst j. replace (nb - bn)%nat with (S (nb - S bn)) by lia. cbn [seq dir_find].
      rewrite (block_find_first s ip name bn k DPB); [done| |done|done]. intros k' Hk'. apply Hno; [lia|right; lia].
    - replace (nb - j)%nat with (S (nb - S j)) by lia. cbn [seq dir_find]. rewrite block_find_no_match; [apply IH; lia|].
      intros k' Hk'%elem_of_seq. apply Hno; [lia|left; lia]. }
  specialize (H O bn). rewrite Nat.sub_0_r in H. apply H; lia.
Qed.

Section root.
Context (u0 N : Z) (m : mk_st) (L : placement) (C : Z -> list Z) (s : fs_st) (ip : inode) (es : list (Z * list Z)).
Hypothesis u0_low : 230 <= u0.
Hypothesis N_small : N < 2 ^ 28.
Hypothesis blocks : blocks_ok u0 N m L C.
Hypothesis mount : mounted m s.
Hypothesis root_addrs : addrs_ok L 1 ip.
Hypothesis root_dev : i_dev ip = ROOTDEV.
Hypothesis entries : C 1 = concat (map (fun e => encode_dirent e.1 e.2) es).
Hypothesis inums : Forall (fun e => 0 < e.1 < 65536) es.

(** Entry [k] of block [bn] is entry [32 * bn + k] of the list. *)
Lemma root_entry bn k e :
  (k < DPB)%nat -> es !! (32 * bn + k)%nat = Some e ->
  (dir_entry s ip bn k).1 = e.1 /\ name_key (dir_entry s ip bn k).2 = name_key e.2.
Proof.
  intros Hk He. unfold DPB in Hk. pose proof (lookup_lt_Some _ _ _ He) as Hlt.
  pose proof (length_dirents es) as Hlen. rewrite <-entries in Hlen.
  destruct (bo_cover _ _ _ _ _ blocks 1 (Z.of_nat bn)) as [x Hx]; [lia|rewrite Hlen; lia|].
  unfold dir_entry. rewrite (image_block u0 N m L C u0_low N_small blocks s mount 1 ip _ x root_addrs root_dev Hx). cbn [fst snd].
  assert (Hsl : slice (16 * k) 16 (sect m x) = encode_dirent e.1 e.2).
  { rewrite <-(slice_dirents es _ e He), <-entries. destruct (bo_block _ _ _ _ _ blocks x) as [Hl _].
    apply list_eq. intros j. unfold slice. destruct (decide (j < 16)%nat); [|by rewrite !lookup_take_ge by lia].
    rewrite !lookup_take_lt, !lookup_drop by lia.
    pose proof (bo_data _ _ _ _ _ blocks 1 _ x Hx (Z.of_nat (16 * k + j)) ltac:(lia)) as Eb. unfold byte_at in Eb.
    rewrite Nat2Z.id in Eb. replace (Z.to_nat (512 * Z.of_nat bn + Z.of_nat (16 * k + j))) with (16 * (32 * bn + k) + j)%nat in Eb by lia.
    destruct (lookup_lt_is_Some_2 (sect m x) (16 * k + j)%nat) as [v1 E1]; [lia|].
    destruct (lookup_lt_is_Some_2 (C 1) (16 * (32 * bn + k) + j)%nat) as [v2 E2]; [lia|].
    etrans; [exact E1|]. rewrite E2. f_equal. etrans; [|etrans; [exact Eb|by rewrite E2]]. symmetry. by apply (f_equal (default 0) E1). }
  apply Forall_lookup_1 with (1 := inums) in He. destruct (dirent_fields e.1 e.2) as [H1 H2]; [lia|]. split.
  - unfold de_inum, get_u16, getz. change DIRENT_SIZE with 16. replace (Z.to_nat (16 * Z.of_nat k)) with (16 * k + 0)%nat by lia.
    rewrite <-(slice_slice 0 2 (16 * k) 16) by lia. by rewrite Hsl.
  - unfold de_name. rewrite <-(slice_slice 2 DIRSIZ (16 * k) 16) by (unfold DIRSIZ; lia). by rewrite Hsl.
Qed.

Lemma root_matches name bn k e :
  (k < DPB)%nat -> es !! (32 * bn + k)%nat = Some e ->
  matches name (dir_entry s ip bn k) = bool_decide (name_key name = name_key e.2).
Proof.
  intros Hk He. destruct (root_entry bn k e Hk He) as [E1 E2]. unfold matches. rewrite E1. unfold name_key in E2 at 1. rewrite E2.
  apply Forall_lookup_1 with (1 := inums) in He. destruct (Z.eqb_spec e.1 0); [lia|done].
Qed.

(** dirlookup of the first entry with a name. *)
Lemma root_lookup dp j e :
  icache s !! dp = Some ip -> i_type ip = T_DIR -> i_size ip = 512 * (Z.of_nat (length (C 1)) / 512 + 1) ->
  (length es mod 32 <> 0)%nat -> es !! j = Some e ->
  (forall j' e', (j' < j)%nat -> es !! j' = Some e' -> name_key e'.2 <> name_key e.2) ->
  exists s', fs_same s s' /\
    dirlookup dp e.2 s = (let! i := iget ROOTDEV e.1 in ret (Some (i, 16 * Z.of_nat j))) s'.
Proof.
  intros Hi Ht Hsz Hmod He Hfirst. pose proof (length_dirents es) as Hlen. rewrite <-entries in Hlen.
  pose proof (lookup_lt_Some _ _ _ He) as Hlt. pose proof (Nat.div_mod_eq j 32) as Ej. pose proof (Nat.mod_upper_bound j 32).
  assert (Hnb : dir_blocks ip = S (length es / 32)).
  { unfold dir_blocks. rewrite Hsz, Hlen. change BSIZE with 512. replace (Z.of_nat (16 * length es)) with (16 * Z.of_nat (length es)) by lia.
    pose proof (Nat2Z.inj_div (length es) 32). Z.div_mod_to_equations. lia. }
  pose proof (Nat.div_mod_eq (length es) 32). pose proof (Nat.mod_upper_bound (length es) 32).
  destruct (dirlookup_loop_read e.2 (Z.to_nat (i_size ip / BSIZE + 1)) s dp ip 0) as (s' & Hs & E); try done.
  - apply (mo_calm _ _ mount).
  - rewrite Hsz. Z.div_mod_to_equations. lia.
  - intros b [_ Hb]. rewrite Hnb in Hb. destruct (bo_cover _ _ _ _ _ blocks 1 (Z.of_nat b)) as [x Hx]; [lia|rewrite Hlen; lia|].
    by apply (image_readable u0 N m L C u0_low N_small blocks s mount 1 _ _ x).
  - rewrite Hnb, Hsz. change BSIZE with 512. rewrite Hlen. pose proof (Nat2Z.inj_div (length es) 32). Z.div_mod_to_equations. lia.
  - lia.
  - exists s'. split; [done|]. unfold dirlookup. rewrite (bind_ret _ _ _ _ _ (geti_ret _ _ _ Hi)), Ht. simpl.
    change (BSIZE * Z.of_nat 0) with 0 in E. rewrite E, Nat.sub_0_r.
    rewrite (dir_find_first s ip e.2 (j / 32) (j mod 32)).
    + unfold lookup_result. destruct (root_entry (j / 32) (j mod 32) e) as [E1 _]; [unfold DPB; lia|by rewrite <-Ej|].
      rewrite E1, root_dev. change BSIZE with 512. change DIRENT_SIZE with 16.
      replace (512 * Z.of_nat (j / 32) + 16 * Z.of_nat (j mod 32)) with (16 * Z.of_nat j) by lia. done.
    + rewrite Hnb. apply Nat.lt_succ_r, Nat.Div0.div_le_mono. lia.
    + unfold DPB. lia.
    + rewrite (root_matches _ _ _ e); [by apply bool_decide_true|unfold DPB; lia|by rewrite <-Ej].
    + intros bn' k' Hk' Hlt'. unfold DPB in Hk'. destruct (lookup_lt_is_Some_2 es (32 * bn' + k')%nat) as [e' He']; [lia|].
      rewrite (root_matches _ _ _ e') by (done || unfold DPB; lia). apply bool_decide_false. intros Heq.
      apply (Hfirst _ e') with (2 := He'); [lia|done].
Qed.
End root.

Lemma dir_list_inums fs : Z.of_nat (length fs) <= 198 -> Forall (fun e => 0 < e.1 < 65536) (dir_list fs).
Proof.
  intros H. unfold dir_list. apply Forall_cons. split; [simpl; lia|]. apply Forall_cons. split; [simpl; lia|].
  apply Forall_lookup. intros k e Hk. rewrite list_lookup_imap in Hk. apply fmap_Some in Hk as (a & E & ->).
  apply lookup_lt_Some in E. unfold arg in *. simpl. lia.
Qed.

(** The kernel finds the files of an image by name.  On a kernel that
    shows the image mkfs made, dirlookup of a file's name (without the leading
    underscore, as far as names are compared) in the root directory returns
    that file's inode, with a reference, and the offset of its entry, if it is
    the first with this name and the directory does not end with a block. *)
Theorem mkfs_lookup (sb_tail jsb_tail0 : list Z) (kb : Z) (fs : list arg) :
  mkfs_args sb_tail jsb_tail0 kb fs -> ((length fs + 2) mod 32 <> 0)%nat ->
  exists m, main sb_tail jsb_tail0 (Some (kb, fs)) mk_boot = Ret tt m /\
  forall s dp ip k a,
    mounted m s -> loaded s dp 1 ip -> fs !! k = Some a ->
    name_key (base_name a.1) <> name_key dot -> name_key (base_name a.1) <> name_key dotdot ->
    (forall k' a', (k' < k)%nat -> fs !! k' = Some a' -> name_key (base_name a'.1) <> name_key (base_name a.1)) ->
    exists s', fs_same s s' /\
      dirlookup dp (base_name a.1) s
        = (let! i := iget ROOTDEV (Z.of_nat k + 2) in ret (Some (i, 16 * (Z.of_nat k + 2)))) s'.
Proof.
  intros Hargs Hmod. destruct (main_finished _ _ _ _ Hargs) as (G1 & G2 & m & L & C & E & Hf). exists m. split; [done|].
  intros s dp ip k a Hm Hl Hk Hd1 Hd2 Hfirst. pose proof (fi_blocks _ _ _ _ _ _ _ Hf) as Hb.
  destruct (fi_root _ _ _ _ _ _ _ Hf) as (Ec & Ha & Er). pose proof (ma_few _ _ _ _ Hargs).
  destruct (i2b_IBLOCK 1) as [_ HI]; [lia|].
  destruct (loaded_fields m s dp _ ip _ _ _ Hm Hl ltac:(lia) Er) as (Et & El & Es & Ead & Ed).
  destruct (root_lookup (reserved kb) (fs_size kb) m L C s ip (dir_list fs) G1 (proj2 G2) Hb Hm
    (addrs_ok_eq _ _ _ _ Ead Ha) Ed Ec (dir_list_inums fs ltac:(lia)) dp (S (S k)) (Z.of_nat k + 2, base_name a.1)) as (s' & Hs & E').
  - apply Hl.
  - done.
  - by rewrite Ec.
  - by rewrite length_dir_list.
  - simpl. rewrite list_lookup_imap. apply fmap_Some. by exists a.
  - intros [|[|j]] e' Hj He'; simpl in He'; [by injection He' as <-|by injection He' as <-|].
    rewrite list_lookup_imap in He'. apply fmap_Some in He' as (a' & Ea & ->). apply (Hfirst j); [lia|done].
  - exists s'. split; [done|]. assert (Hz : Z.of_nat (S (S k)) = Z.of_nat k + 2) by lia. rewrite Hz in E'. exact E'.
Qed.

Lemma mkfs_lookup_witness :
  exists m s s', main (demo_tail 500) (demo_tail 496) (Some (512, demo_args)) mk_boot = Ret tt m /\
    mounted m s /\ dirlookup 0 [97] s = (let! i := iget ROOTDEV 2 in ret (Some (i, 32))) s'.
Proof.
  destruct (mkfs_lookup (demo_tail 500) (demo_tail 496) 512 demo_args demo_args_ok) as (m & E & H); [vm_compute; discriminate|].
  set (ip := load_dinode (sect m (IBLOCK 1)) (Inode ROOTDEV 1 1 2 0 0 0 0 0 [])).
  assert (Hm : mounted m (FsSt (boot 4 (disk_of m)) [ip])) by (apply boot_mounted; lia).
  destruct (H _ 0%nat ip 0%nat ([95; 97], Some [[1; 2]; [3]]) Hm) as (s' & _ & E').
  - split; [reflexivity|]. split; [reflexivity|]. split; [reflexivity|].
    rewrite (mo_view _ _ Hm) by (vm_compute; split; [discriminate|reflexivity]). reflexivity.
  - reflexivity.
  - vm_compute. discriminate.
  - vm_compute. discriminate.
  - intros k' a' Hk'. lia.
  - exists m, (FsSt (boot 4 (disk_of m)) [ip]), s'. split; [exact E|]. split; [exact Hm|]. exact E'.
Defined.

(** A directory with as many entries as fit its blocks is given one block more
    than it has: the search for a missing name asks for sector [u32 (-1)]. *)
Lemma full_root_directory n : (n mod 32 = 0)%nat ->
  (512 * (Z.of_nat (16 * n) / 512 + 1) + 511) / 512 = Z.of_nat (n / 32) + 1 /\ need (Z.of_nat (16 * n)) < need (512 * (Z.of_nat (16 * n) / 512 + 1)).
Proof.
  intros H. pose proof (Nat.div_mod_eq n 32). set (q := (n / 32)%nat) in *.
  assert (E : Z.of_nat (16 * n) = 512 * Z.of_nat q) by lia. rewrite E.
  replace (512 * Z.of_nat q / 512) with (Z.of_nat q) by (rewrite Z.mul_comm, Z.div_mul by lia; done).
  split; [|unfold need; repeat zcase]; Z.div_mod_to_equations; lia.
Qed.
